(* ===== verification/_CoqProject ===== *)
-Q . S2P
Prelude.v
JsString.v
Config.v
LibGraph.v
PlanGraph.v
PlanGraphCycles.v
PlanGraphLayers.v
PlanGraphLayout.v
Api.v
Designer.v
DesignerPlaces.v
DesignerSession.v
ValidateGraph.v
WorkflowRules.v
DesignerFlow.v
JsDate.v
DayText.v
Scale.v
ScaleFacts.v
ApiPlan.v
Views.v
ViewsFacts.v
PlanPieces.v
PlanPiecesFacts.v
DashFilter.v
BoardFilter.v
Duration.v
Calendar.v
CalendarFacts.v
Week.v
DashChart.v
DashBurndown.v
Features.v
Client.v
QueryClient.v
Overlay.v
Format.v
Guide.v
Catalogue.v
Markdown.v
MarkdownFacts.v
MarkdownTrip.v
IssueForms.v
PlanTimeline.v
PlanTimelineFacts.v
Paging.v
Access.v
PlanPage.v
Doors.v
Search.v
Themes.v
ThemeEditor.v
Preferences.v
Board.v
Kit.v
Palette.v
Automation.v
Labels.v
Lanes.v
Desk.v
DeskForms.v
Portal.v
Bulk.v
Arrange.v
Resources.v
Charts.v
Widgets.v
Import.v
ProjectTemplates.v
Holidays.v
SprintPlanning.v
TimeLog.v
SecondFactor.v
Transitions.v
Description.v
Editor.v
Conversation.v
Releases.v
IssueActions.v
Accounts.v
