(* ===== verification/Prelude.v ===== *)
(** * The Armature web client: a verification development

    Armature is an issue tracker: a server in Go and a client in TypeScript under
    [src/web].  This development models the client's own logic, the modules of
    [web/src/lib], [web/src/features] and [web/src/api] that compute rather than
    draw, and proves what makes each of them correct.  Some checks of the server
    are modelled too, because what the client promises is about them: of a
    workflow, of a move through one, of an edit that began from an older copy, of a
    quoted literal in a query, of the question a chart asks, of the columns and
    people of an import, and of a project template.

    ** How the program is put together, and which file models what

    The client's pages call pure modules for what they show, and request hooks
    for what they change.  A component that keeps state is a state machine here: a
    record of what it keeps, an inductive type of what may happen to it, answers of
    the server among them, and a step.  Every definition has the name and the
    branches of the function it stands for.

    Foundations:
    - [Prelude] (this file): the language's insertion-ordered maps and sets, its
      stable sort under a comparator ([Comparator]), slices, and their lemmas;
    - [JsString], [JsDate]: the language's strings and dates in UTC, as far as the
      code calls them;
    - [Config]: the constants of [config.ts] the models read;
    - [Api], [ApiPlan]: the records of [api/*.ts] and JSON values;
    - [DayText]: days as the API writes them.

    The plan ([features/plan]):
    - [PlanGraph]: [graph.ts], the drawn dependency graph: the depth-first walk,
      Kahn's queue, the row sweeps, the boxes.  [PlanGraphCycles],
      [PlanGraphLayers] and [PlanGraphLayout] prove that it ends, dashes exactly
      edges that close circles, gives each issue the column of its longest path
      and a box of its own;
    - [LibGraph]: [lib/graph.ts], shared with the workflow drawing: two edges
      between the same boxes never coincide;
    - [Scale], [ScaleFacts]: [scale.ts], dates and pixels, ticks, drags;
    - [Views], [ViewsFacts]: [views.ts], filters, counts and the views' rows;
    - [PlanPieces], [PlanPiecesFacts]: the page's smaller modules: load, auto
      plan, drops, warnings, markers, layout, settings;
    - [PlanTimeline], [PlanTimelineFacts]: [Timeline.tsx] and [AddRow.tsx], the
      calendar with every gesture on it: bars dragged and stretched, links drawn,
      rows reordered, issues added, each handler run in the closure of the
      rendering it was attached by;
    - [PlanPage]: [routes/plan.tsx], what the address, the proposal of an automatic
      plan and the undo are of.

    Workflows ([features/workflows/designer]):
    - [Designer], [DesignerPlaces], [DesignerSession]: [graph.ts], every edit of
      a design, with the invariant of every design that can be reached, what
      opening and saving keep, and where statuses are put;
    - [ValidateGraph], [WorkflowRules]: the server's checks
      ([internal/workflow/graph.go], [rules.go], [admin.go]) of a graph, of the rules
      on its transitions and of its name, and the editor of those rules; what the
      designer calls free of problems the server accepts;
    - [DesignerFlow]: [flow.ts], what the graph library is given.

    Dashboards, boards, calendars, time:
    - [DashFilter]: [features/dashboard/filter.ts] and the server's scan of a
      quoted literal ([internal/nql/lexer.go]); the address and the query;
    - [DashChart], [DashBurndown]: the chart widget and the burndown;
    - [Charts]: the shapes the other charts are drawn as, bands stacked to a whole;
    - [Widgets]: a chart widget's settings and the dashboard's filter, against the
      server's check of a question ([internal/report/chart.go]);
    - [Board], [Lanes], [BoardFilter]: [features/board]: cards dragged between
      columns, the columns' editor, the quick filter;
    - [Calendar], [CalendarFacts], [Week]: [features/calendar] and [lib/week.ts];
    - [Resources]: [features/resources], cells and the window of weeks;
    - [Holidays]: the table of a calendar's days off;
    - [Releases]: versions, parts of a project and milestones;
    - [SprintPlanning]: the cards of a project's sprints and their requests;
    - [Duration], [Format]: times as people write and read them;
    - [TimeLog]: the cells of an issue's times and both of its forms.

    Issues:
    - [IssueForms]: the new issue's form and what it sends, forms seeded from the
      server, kept drafts, custom fields' values, recent queries;
    - [Markdown], [MarkdownFacts], [MarkdownTrip]: [features/editor/markdown.ts]
      and [schema.ts], both converters and the round trip between them;
    - [Editor]: [features/editor/Editor.tsx], two faces of one document, and the
      switch every editor of a page hears;
    - [Description]: [Description.tsx], a description several people write at once,
      with the server's check of a stale edit ([internal/issue/stale.go]);
    - [Conversation]: [IssueActivity.tsx], comments, their form and its draft;
    - [Transitions]: [TransitionBar.tsx], moving an issue through its workflow, with
      the server's validators ([internal/workflow]);
    - [IssueActions]: parents and children, copies and moves of an issue;
    - [Labels]: [LabelInput.tsx], the box labels are typed into;
    - [Bulk]: [features/filters], the bar that changes many issues at once and the
      dialog that moves them to another project;
    - [Arrange]: [features/arrange] and [DashboardGrid.tsx], orders sent whole;
    - [Automation]: [features/automation], the editor and the panel of rules;
    - [Import]: [features/import], a file tried dry and then imported, and the
      server's check of its columns and people ([internal/csvio]);
    - [ProjectTemplates]: the editor of project templates, against the server's
      checks ([internal/template/stored_write.go]), the taken name among them.

    The service desk ([features/desk] and its routes):
    - [Desk]: what its agents set up: categories, domains, hours, clocks;
    - [DeskForms]: its forms, the door that mails a code, the queue, the rating;
    - [Portal]: [routes/portal.tsx], raising a request with its files.

    The shell of the client:
    - [Features]: a project's features and the addresses of its settings;
    - [Client], [QueryClient]: [api/client.ts], [lib/queryClient.ts] and
      [api/mutation.ts]: what a response becomes, and a state machine of what is
      heard of failures;
    - [Paging]: [Pager.tsx], [ListSearch.tsx] and the list of grants;
    - [Access]: [features/access], the grid of roles and what may be ticked;
    - [Doors]: links from outside, secrets in them, devices;
    - [SecondFactor]: the forms of the second step of signing in;
    - [Accounts]: the tables of accounts, projects, webhooks and connected apps;
    - [Search], [Palette]: the query bar with its completions, the quick search;
    - [Guide], [Catalogue]: [features/guide], questions and their best answers,
      and what there is to answer with;
    - [Themes], [ThemeEditor], [Preferences]: a theme's stylesheet, its editor,
      and what the browser keeps for its reader;
    - [Overlay], [Kit]: [components/ui], the stack that hands Escape out, panels
      beside their anchors, toasts, menus, tabs, mentions, dates.

    ** What the theorems show

    Each file's theorems that are marked with a claim are its results; the rest
    are the library they stand on.  By kind:
    - invariants over every reachable state: designs, seeded forms, the requests of
      the calendar, what an editor tells its form whichever face is shown, the page's
      theme, rules saved as every control of their form shows them, arrangements;
    - safety: dashed edges are exactly ones that close circles, drops keep the plan
      free of them, nobody's text is overwritten unseen, the administration stays with
      its administrators, what is imported was tried dry first (but for the races its
      theorem names), a code goes in only
      where it was mailed, nothing breaks out of its place in a stylesheet;
    - refinements: what the client lets through against what the server accepts
      (workflows with their rules, moves, charts' settings, imports' columns,
      templates; a name taken on the server, which no client can know, is named as
      the refusal it is), the Escape stack against the newest open overlay, the
      portal's calls against a request raised once with exactly its files, and the
      one way there is to raise it twice;
    - round trips: documents of the kind [MarkdownTrip.blocks_ok] describes through
      markdown, saved workflows in the order of their statuses, filters through the
      address, durations;
    - functional behaviour: layouts, drags, drops, completions, what a new issue and
      a bulk change send, value for value, against a reading of the answers or of the
      events alone;
    - termination of every loop, bounds of what is drawn, errors (responses, refused
      steps) and liveness (a failed change is heard).

    A theorem whose name says that something is lost, undone or forgotten is about a
    run the code does not handle; such runs are proved where they were found, so that
    a change of the code shows.

    ** Conventions

    State is passed explicitly; what a module keeps between calls is a record.  A
    [Map] or an object used as one is an association list in the order its keys
    were first set.  Integers are [Z], other numbers exact rationals ([Q]), and a
    double is modelled as one ([Views.Binary64]) where a result depends on rounding.
    Texts are sequences of Latin-1 units.  The points of a band's outline are not
    rounded as they are when they become the text of a path.  What the code takes from the browser or
    from a library is a class or an argument: collation, time zones, formatters,
    JSON, square roots; each has an instance the witnesses run on.

    Loops that are not structural take fuel, and a lemma shows it is enough: the
    walk and the queue of [PlanGraph] take as many turns as there are nodes and
    edges, a search for a free row as many as there are boxes to pass, the readers
    of markdown as many as there are units left.  Theorems are about the functions
    with that fuel, so they say that a result is produced.

    ** What is not modelled

    Markup, and with it the pages and the elements that only lay out what they are
    given; the request hooks, which name an address and a cache key each; the
    drawing of moving pictures; the forms of signing in but for the links, secrets
    and second steps; the pages of teams and git, whose state is a field or two over a
    hook; the rich face of the editor, which is a library's; the catalogues of sentences; what is
    generated; and the server but for the checks above.  Within the parts modelled:
    what leaving the portal's page does to a request on its way, a dashboard's undo
    of a widget taken off, the desk's switches and the goals of its policies, and
    everything the browser lays out itself. *)

From Stdlib Require Import ZArith QArith Qround Qminmax Lqa Ascii String.
From stdpp Require Import base sets list strings sorting relations gmap.

Open Scope Z_scope.

Create HintDb web.

(** ** Insertion-ordered maps: the [Map] of the language

    A [Map] iterates its keys in the order they were first set, and setting a
    key again keeps its place. *)

Section JsMap.
Context {K V : Type} `{EqDecision K}.

Fixpoint jget (m : list (K * V)) (k : K) : option V :=
  match m with
  | [] => None
  | (k', v) :: m' => if decide (k' = k) then Some v else jget m' k
  end.

Fixpoint jset (m : list (K * V)) (k : K) (v : V) : list (K * V) :=
  match m with
  | [] => [(k, v)]
  | (k', v') :: m' => if decide (k' = k) then (k', v) :: m' else (k', v') :: jset m' k v
  end.

Definition jhas (m : list (K * V)) (k : K) : bool := bool_decide (is_Some (jget m k)).

Definition jkeys (m : list (K * V)) : list K := m.*1.
Definition jvals (m : list (K * V)) : list V := m.*2.

(** [new Map(entries)]: later entries of a key replace its value. *)
Definition jof (es : list (K * V)) : list (K * V) :=
  foldl (fun m e => jset m e.1 e.2) [] es.

(** [delete object[key]]. *)
Definition jdel (m : list (K * V)) (k : K) : list (K * V) := filter (fun e => e.1 ≠ k) m.

Lemma elem_of_jdel m k e : e ∈ jdel m k → e ∈ m.
Proof. unfold jdel. by intros [_ H]%list_elem_of_filter. Qed.

Lemma jget_jset m k k' v :
  jget (jset m k v) k' = if decide (k = k') then Some v else jget m k'.
Proof.
  induction m as [|[a b] m IH]; simpl; [done|].
  destruct (decide (a = k)) as [->|Hak]; simpl.
  - repeat case_decide; congruence.
  - rewrite IH. repeat case_decide; congruence.
Qed.

Lemma jget_jset_eq m k v : jget (jset m k v) k = Some v.
Proof. rewrite jget_jset. by rewrite decide_True. Qed.

Lemma jget_jset_ne m k k' v : k ≠ k' → jget (jset m k v) k' = jget m k'.
Proof. intros. rewrite jget_jset. by rewrite decide_False. Qed.

Lemma elem_of_jset m k v e : e ∈ jset m k v → e = (k, v) ∨ e ∈ m.
Proof.
  induction m as [|[a b] m IH]; cbn [jset]; [rewrite list_elem_of_singleton; auto|].
  case_decide; rewrite !elem_of_cons; [naive_solver|]. intros [->|Hin]; [auto|]. destruct (IH Hin); auto.
Qed.

Lemma Forall_jset (P : K * V → Prop) m k v : P (k, v) → Forall P m → Forall P (jset m k v).
Proof.
  intros Hv Hm. apply Forall_forall. intros e Hin. apply elem_of_jset in Hin as [->|Hin]; [done|]. by apply (proj1 (Forall_forall _ _) Hm).
Qed.

Lemma Forall_jdel (P : K * V → Prop) m k : Forall P m → Forall P (jdel m k).
Proof. intros Hm. apply Forall_forall. intros e Hin%elem_of_jdel. by apply (proj1 (Forall_forall _ _) Hm). Qed.

Lemma jget_elem m k v : jget m k = Some v → (k, v) ∈ m.
Proof.
  induction m as [|[a b] m IH]; simpl; [done|].
  case_decide; intros ?; simplify_eq; set_solver.
Qed.

Lemma jget_key m k : is_Some (jget m k) ↔ k ∈ jkeys m.
Proof.
  unfold jkeys. induction m as [|[a b] m IH]; csimpl.
  - split; [by intros [? [=]]|by intros ?%elem_of_nil].
  - rewrite elem_of_cons. case_decide; [naive_solver|].
    rewrite IH. naive_solver.
Qed.

Lemma jget_None m k : jget m k = None ↔ k ∉ jkeys m.
Proof. rewrite <- jget_key, <- eq_None_not_Some. done. Qed.

Lemma jget_NoDup m k v : NoDup (jkeys m) → (k, v) ∈ m → jget m k = Some v.
Proof.
  unfold jkeys. induction m as [|[a b] m IH]; csimpl; [set_solver|].
  rewrite NoDup_cons, elem_of_cons. intros [Ha Hm] [?|Hin]; simplify_eq.
  - by rewrite decide_True.
  - case_decide; subst; [|by apply IH].
    exfalso. apply Ha. apply list_elem_of_fmap. by exists (k, v).
Qed.

Lemma jkeys_jset m k v :
  jkeys (jset m k v) = if decide (k ∈ jkeys m) then jkeys m else jkeys m ++ [k].
Proof.
  unfold jkeys. induction m as [|[a b] m IH]; csimpl; [done|].
  destruct (decide (a = k)) as [->|Hak]; csimpl.
  - by rewrite decide_True by set_solver.
  - rewrite IH. repeat case_decide; set_solver.
Qed.

Lemma elem_of_jkeys_jset m k k' v : k' ∈ jkeys (jset m k v) ↔ k' = k ∨ k' ∈ jkeys m.
Proof. rewrite jkeys_jset. case_decide; set_solver. Qed.

Lemma NoDup_jkeys_jset m k v : NoDup (jkeys m) → NoDup (jkeys (jset m k v)).
Proof.
  intros. rewrite jkeys_jset. case_decide; [done|].
  apply NoDup_app. split_and!; [done|set_solver|apply NoDup_singleton].
Qed.

Lemma NoDup_jkeys_jof es : NoDup (jkeys (jof es)).
Proof.
  unfold jof. assert (NoDup (jkeys (@nil (K * V)))) as H by constructor.
  revert H. generalize (@nil (K * V)). induction es as [|e es IH]; simpl; auto.
  intros m Hm. apply IH. by apply NoDup_jkeys_jset.
Qed.

Lemma jhas_true m k : jhas m k = true ↔ k ∈ jkeys m.
Proof. unfold jhas. by rewrite bool_decide_eq_true, jget_key. Qed.

Lemma jhas_false m k : jhas m k = false ↔ k ∉ jkeys m.
Proof. rewrite <- jhas_true. by destruct (jhas m k). Qed.
End JsMap.

#[export] Hint Rewrite @jget_jset_eq : web.
#[export] Hint Resolve NoDup_jkeys_jset NoDup_jkeys_jof : web.

(** Filling a map from entries with different keys. *)
Section JofFacts.
Context {K V : Type} `{EqDecision K}.

Lemma jget_foldl_jset (es : list (K * V)) m k :
  k ∉ es.*1 → jget (foldl (fun m e => jset m e.1 e.2) m es) k = jget m k.
Proof.
  revert m. induction es as [|[a b] es IH]; intros m; csimpl; [done|].
  rewrite not_elem_of_cons. intros [Hk Hes]. rewrite IH by done.
  by rewrite jget_jset_ne.
Qed.

Lemma jget_foldl_elem (es : list (K * V)) m k v :
  NoDup es.*1 → (k, v) ∈ es → jget (foldl (fun m e => jset m e.1 e.2) m es) k = Some v.
Proof.
  revert m. induction es as [|[a b] es IH]; intros m; csimpl; [set_solver|].
  rewrite NoDup_cons, elem_of_cons. intros [Ha Hes] [?|Hin]; simplify_eq; [|by apply IH].
  rewrite jget_foldl_jset by done. apply jget_jset_eq.
Qed.

Lemma jget_jof_elem (es : list (K * V)) k v :
  NoDup es.*1 → (k, v) ∈ es → jget (jof es) k = Some v.
Proof. apply jget_foldl_elem. Qed.

Lemma jkeys_foldl_jset (es : list (K * V)) m k :
  k ∈ jkeys (foldl (fun m e => jset m e.1 e.2) m es) ↔ k ∈ jkeys m ∨ k ∈ es.*1.
Proof.
  revert m. induction es as [|e es IH]; intros m; csimpl; [set_solver|].
  rewrite IH, elem_of_jkeys_jset. set_solver.
Qed.

Lemma jkeys_jof (es : list (K * V)) k : k ∈ jkeys (jof es) ↔ k ∈ es.*1.
Proof. unfold jof. rewrite jkeys_foldl_jset. set_solver. Qed.

Lemma jget_jof_inv (es : list (K * V)) k v :
  NoDup es.*1 → jget (jof es) k = Some v → (k, v) ∈ es.
Proof.
  intros HND Hget. assert (k ∈ es.*1) as [[k' v'] [-> Hin]]%list_elem_of_fmap.
  { rewrite <- jkeys_jof. apply jget_key. eauto. }
  cbn in Hget. rewrite (jget_jof_elem _ _ _ HND Hin) in Hget. by simplify_eq.
Qed.

Lemma jget_jof_NoDup (es : list (K * V)) k : NoDup es.*1 → jget (jof es) k = jget es k.
Proof.
  intros HND. destruct (jget es k) as [v|] eqn:E.
  - by apply jget_jof_elem, jget_elem.
  - apply jget_None. rewrite jkeys_jof. by apply jget_None in E.
Qed.

(** Changing every value of a map. *)
Lemma jget_map {W} (f : V → W) (m : list (K * V)) k :
  jget (map (fun c => (c.1, f c.2)) m) k = f <$> jget m k.
Proof. induction m as [|[a b] m IH]; simpl; [done|]. by case_decide. Qed.

Lemma jkeys_map {W} (f : V → W) (m : list (K * V)) :
  jkeys (map (fun c => (c.1, f c.2)) m) = jkeys m.
Proof. unfold jkeys. induction m as [|[a b] m IH]; csimpl; [done|]. by f_equal. Qed.

Lemma foldl_jset_app (m : list (K * V)) es1 es2 :
  foldl (fun m e => jset m e.1 e.2) (foldl (fun m e => jset m e.1 e.2) m es1) es2 =
  foldl (fun m e => jset m e.1 e.2) m (es1 ++ es2).
Proof. by rewrite foldl_app. Qed.
(** A map that starts every key with one value. *)
Lemma jkeys_const (v : V) (l : list K) : jkeys (map (fun k => (k, v)) l) = l.
Proof. unfold jkeys. induction l as [|k l IH]; csimpl; [done|]. by f_equal. Qed.

Lemma jget_const (v : V) (l : list K) k :
  jget (map (fun k => (k, v)) l) k = if decide (k ∈ l) then Some v else None.
Proof.
  induction l as [|k' l IH]; csimpl; [done|]. rewrite IH.
  repeat case_decide; set_solver.
Qed.
End JofFacts.

(** ** Grouping a list into a map of lists

    [groups.set(key, [...(groups.get(key) ?? []), each])]. *)
Section GroupBy.
Context {A K : Type} `{EqDecision K} (f : A → K).

Definition group_push (m : list (K * list A)) (x : A) : list (K * list A) :=
  jset m (f x) (default [] (jget m (f x)) ++ [x]).

Definition group_by (l : list A) : list (K * list A) := foldl group_push [] l.

Lemma group_by_snoc l x : group_by (l ++ [x]) = group_push (group_by l) x.
Proof. unfold group_by. by rewrite foldl_app. Qed.

Lemma jget_group_by l k :
  default [] (jget (group_by l) k) = filter (fun x => f x = k) l.
Proof.
  induction l as [|x l IH] using rev_ind; [done|].
  rewrite group_by_snoc. unfold group_push. rewrite jget_jset, filter_app, <- IH.
  rewrite filter_cons, filter_nil. case_decide as E; simpl; [by rewrite E|by rewrite app_nil_r].
Qed.

Lemma jkeys_group_by l k : k ∈ jkeys (group_by l) ↔ k ∈ f <$> l.
Proof.
  induction l as [|x l IH] using rev_ind; [done|].
  rewrite group_by_snoc. unfold group_push.
  rewrite elem_of_jkeys_jset, IH, fmap_app. set_solver.
Qed.

Lemma NoDup_jkeys_group_by l : NoDup (jkeys (group_by l)).
Proof.
  induction l as [|x l IH] using rev_ind; [constructor|].
  rewrite group_by_snoc. by apply NoDup_jkeys_jset.
Qed.

Lemma elem_of_group_by l k (g : list A) :
  (k, g) ∈ group_by l ↔ k ∈ f <$> l ∧ g = filter (fun x => f x = k) l.
Proof.
  rewrite <- jkeys_group_by, <- jget_group_by. split.
  - intros Hin. split.
    + unfold jkeys. apply list_elem_of_fmap. by exists (k, g).
    + by rewrite (jget_NoDup _ k g) by (done || apply NoDup_jkeys_group_by).
  - intros [[g' Hg]%jget_key ->]. rewrite Hg. by apply jget_elem.
Qed.

Lemma concat_jset_push (m : list (K * list A)) k x :
  concat (jvals (jset m k (default [] (jget m k) ++ [x]))) ≡ₚ x :: concat (jvals m).
Proof.
  unfold jvals. induction m as [|[a b] m IH]; csimpl; [done|].
  case_decide; csimpl.
  - rewrite <- app_assoc. simpl. by rewrite <- Permutation_middle.
  - rewrite IH. by rewrite <- Permutation_middle.
Qed.

(** Every element lands in exactly one group. *)
Lemma concat_group_by l : concat (jvals (group_by l)) ≡ₚ l.
Proof.
  induction l as [|x l IH] using rev_ind; [done|].
  rewrite group_by_snoc. unfold group_push. rewrite concat_jset_push, IH.
  by rewrite <- Permutation_cons_append.
Qed.
End GroupBy.

(** [for (x of l) m.get(f(x)).push(g(x))], a missing list counting as empty. *)
Section PushAll.
Context {A B K : Type} `{EqDecision K} (f : A → K) (g : A → B).

Definition push_all (m : list (K * list B)) (l : list A) : list (K * list B) :=
  foldl (fun m x => jset m (f x) (default [] (jget m (f x)) ++ [g x])) m l.

Lemma jget_push_all m l k :
  default [] (jget (push_all m l) k) =
    default [] (jget m k) ++ (g <$> filter (fun x => f x = k) l).
Proof.
  unfold push_all. revert m. induction l as [|x l IH]; intros m; simpl; [by rewrite app_nil_r|].
  rewrite IH, filter_cons. case_decide as E.
  - subst k. rewrite jget_jset_eq. simpl. by rewrite <- app_assoc.
  - by rewrite jget_jset_ne.
Qed.

Lemma jkeys_push_all m l k : k ∈ jkeys (push_all m l) ↔ k ∈ jkeys m ∨ k ∈ f <$> l.
Proof.
  unfold push_all. revert m. induction l as [|x l IH]; intros m; csimpl; [set_solver|].
  rewrite IH, elem_of_jkeys_jset. set_solver.
Qed.

Lemma NoDup_jkeys_push_all m l : NoDup (jkeys m) → NoDup (jkeys (push_all m l)).
Proof.
  unfold push_all. revert m. induction l as [|x l IH]; intros m Hm; simpl; [done|].
  by apply IH, NoDup_jkeys_jset.
Qed.
End PushAll.

Lemma omap_cons {A B} (f : A → option B) x (l : list A) :
  omap f (x :: l) = match f x with Some y => y :: omap f l | None => omap f l end.
Proof. done. Qed.

Lemma imap_ignore {A B} (f : A → B) (l : list A) : imap (fun _ x => f x) l = f <$> l.
Proof. induction l as [|x l IH]; csimpl; [done|]. rewrite <- IH. done. Qed.

(** The largest of some numbers and a floor. *)
Lemma foldl_max_spec a (l : list Z) : a <= foldl Z.max a l ∧ (∀ x, x ∈ l → x <= foldl Z.max a l).
Proof.
  revert a. induction l as [|y l IH]; intros a; simpl; [split; [lia|set_solver]|].
  destruct (IH (Z.max a y)) as [H1 H2]. split; [lia|].
  intros x. rewrite elem_of_cons. intros [->|]; [lia|auto].
Qed.

(** ** Sets in the order their elements were added: the [Set] of the language *)
Section JsSet.
Context {A : Type} `{EqDecision A}.

Definition set_add (s : list A) (x : A) : list A := if decide (x ∈ s) then s else s ++ [x].

Definition set_of (l : list A) : list A := foldl set_add [] l.

Lemma elem_of_set_add s x y : y ∈ set_add s x ↔ y = x ∨ y ∈ s.
Proof. unfold set_add. case_decide; set_solver. Qed.

Lemma NoDup_set_add s x : NoDup s → NoDup (set_add s x).
Proof.
  intros. unfold set_add. case_decide; [done|].
  apply NoDup_app. split_and!; [done|set_solver|apply NoDup_singleton].
Qed.

Lemma set_of_snoc l x : set_of (l ++ [x]) = set_add (set_of l) x.
Proof. unfold set_of. by rewrite foldl_app. Qed.

Lemma elem_of_set_of l x : x ∈ set_of l ↔ x ∈ l.
Proof.
  induction l as [|y l IH] using rev_ind; [done|].
  rewrite set_of_snoc, elem_of_set_add, IH. set_solver.
Qed.

Lemma NoDup_set_of l : NoDup (set_of l).
Proof.
  induction l as [|y l IH] using rev_ind; [constructor|].
  rewrite set_of_snoc. by apply NoDup_set_add.
Qed.
End JsSet.

(** ** Comparison functions and the stable sort of the language

    [Array.prototype.sort] is stable, so with a consistent comparison function
    its result is determined; insertion keeps equal elements in their order. *)

(** A consistent comparison function: its sign is antisymmetric, and not being
    greater is transitive. *)
Class Comparator {A} (cmp : A → A → Z) : Prop := {
  cmp_antisym x y : Z.sgn (cmp y x) = - Z.sgn (cmp x y);
  cmp_trans x y z : cmp x y <= 0 → cmp y z <= 0 → cmp x z <= 0;
}.

(** [c1 || c2]: the second comparison decides where the first says equal. *)
Definition cmp_or {A} (c1 c2 : A → A → Z) (x y : A) : Z :=
  if c1 x y =? 0 then c2 x y else c1 x y.

Definition cmp_on {A B} (f : A → B) (cmp : B → B → Z) (x y : A) : Z := cmp (f x) (f y).

Section Comparators.
Context {A : Type}.

Lemma cmp_refl (cmp : A → A → Z) `{!Comparator cmp} x : cmp x x = 0.
Proof. pose proof (cmp_antisym x x). lia. Qed.

Lemma cmp_flip (cmp : A → A → Z) `{!Comparator cmp} x y : cmp x y <= 0 ↔ 0 <= cmp y x.
Proof. pose proof (cmp_antisym x y). lia. Qed.

Lemma cmp_trans_lt (cmp : A → A → Z) `{!Comparator cmp} x y z :
  cmp x y <= 0 → cmp y z < 0 → cmp x z < 0.
Proof.
  intros Hxy Hyz. destruct (decide (cmp x z < 0)) as [|Hn]; [done|exfalso].
  assert (cmp z x <= 0) by (pose proof (cmp_antisym x z); lia).
  assert (cmp z y <= 0) by eauto using cmp_trans.
  pose proof (cmp_antisym y z). lia.
Qed.

Lemma cmp_trans_lt_l (cmp : A → A → Z) `{!Comparator cmp} x y z :
  cmp x y < 0 → cmp y z <= 0 → cmp x z < 0.
Proof.
  intros Hxy Hyz. destruct (decide (cmp x z < 0)) as [|Hn]; [done|exfalso].
  assert (cmp z x <= 0) by (pose proof (cmp_antisym x z); lia).
  assert (cmp y x <= 0) by eauto using cmp_trans.
  pose proof (cmp_antisym x y). lia.
Qed.

#[export] Instance cmp_or_comparator (c1 c2 : A → A → Z) :
  Comparator c1 → Comparator c2 → Comparator (cmp_or c1 c2).
Proof.
  intros H1 H2. split.
  - intros x y. unfold cmp_or.
    pose proof (@cmp_antisym _ c1 _ x y). pose proof (@cmp_antisym _ c2 _ x y).
    repeat case_match; lia.
  - intros x y z. unfold cmp_or. intros Hxy Hyz.
    destruct (Z.eqb_spec (c1 x y) 0) as [Exy|Exy], (Z.eqb_spec (c1 y z) 0) as [Eyz|Eyz].
    + assert (c1 x z <= 0) by (apply (@cmp_trans _ c1 _ x y z); lia).
      assert (c1 z x <= 0).
      { apply (@cmp_trans _ c1 _ z y x); [|];
          [pose proof (@cmp_antisym _ c1 _ y z)|pose proof (@cmp_antisym _ c1 _ x y)]; lia. }
      pose proof (@cmp_antisym _ c1 _ x z).
      destruct (Z.eqb_spec (c1 x z) 0); [by apply (@cmp_trans _ c2 _ x y z)|lia].
    + assert (c1 x z < 0) by (apply (cmp_trans_lt c1 x y z); lia).
      destruct (Z.eqb_spec (c1 x z) 0); lia.
    + assert (c1 x z < 0) by (apply (cmp_trans_lt_l c1 x y z); lia).
      destruct (Z.eqb_spec (c1 x z) 0); lia.
    + assert (c1 x z < 0) by (apply (cmp_trans_lt c1 x y z); lia).
      destruct (Z.eqb_spec (c1 x z) 0); lia.
Qed.

#[export] Instance cmp_on_comparator {B} (f : A → B) (cmp : B → B → Z) :
  Comparator cmp → Comparator (cmp_on f cmp).
Proof.
  intros H. split; unfold cmp_on; intros; [apply cmp_antisym|eauto using cmp_trans].
Qed.
End Comparators.

#[export] Instance sub_comparator : Comparator Z.sub.
Proof. split; intros; lia. Qed.

#[export] Instance sub_flip_comparator : Comparator (fun x y : Z => y - x).
Proof. split; intros; lia. Qed.

Section Sorting.
Context {A : Type} (cmp : A → A → Z).

Fixpoint sort_insert (x : A) (l : list A) : list A :=
  match l with
  | [] => [x]
  | y :: l' => if cmp x y <=? 0 then x :: l else y :: sort_insert x l'
  end.

Definition sort_by (l : list A) : list A := foldr sort_insert [] l.

Lemma sort_insert_Permutation x l : sort_insert x l ≡ₚ x :: l.
Proof.
  induction l as [|y l IH]; simpl; [done|].
  case_match; [done|]. rewrite IH. apply Permutation_swap.
Qed.

Lemma sort_by_Permutation l : sort_by l ≡ₚ l.
Proof.
  induction l as [|x l IH]; simpl; [done|].
  by rewrite sort_insert_Permutation, IH.
Qed.

Lemma length_sort_by l : length (sort_by l) = length l.
Proof. by rewrite sort_by_Permutation. Qed.

Lemma elem_of_sort_by x l : x ∈ sort_by l ↔ x ∈ l.
Proof. by rewrite sort_by_Permutation. Qed.

Lemma NoDup_sort_by l : NoDup (sort_by l) ↔ NoDup l.
Proof. by rewrite sort_by_Permutation. Qed.

Definition cmp_le (x y : A) : Prop := cmp x y <= 0.

Context `{!Comparator cmp}.

Lemma sort_insert_sorted x l :
  StronglySorted cmp_le l → StronglySorted cmp_le (sort_insert x l).
Proof.
  induction 1 as [|y l Hl IH Hy]; simpl; [repeat constructor|].
  destruct (Z.leb_spec (cmp x y) 0).
  - constructor; [by constructor|]. constructor; [done|].
    eapply Forall_impl; [exact Hy|]. intros z Hz. unfold cmp_le in *.
    eauto using cmp_trans.
  - constructor; [done|]. rewrite sort_insert_Permutation. constructor; [|done].
    unfold cmp_le. pose proof (cmp_antisym x y). lia.
Qed.

Lemma sort_by_sorted l : StronglySorted cmp_le (sort_by l).
Proof. induction l; simpl; [constructor|by apply sort_insert_sorted]. Qed.

(** Stability: the elements a predicate picks, when it cannot tell elements of
    one class apart, come out in the order they went in. *)
Definition cmp_closed (P : A → bool) : Prop :=
  ∀ x y, P x = true → P y = true → cmp x y = 0.

Lemma filter_sort_insert (P : A → bool) x l :
  cmp_closed P →
  filter (fun y => P y = true) (sort_insert x l) = filter (fun y => P y = true) (x :: l).
Proof.
  intros HP. induction l as [|y l IH]; simpl; [done|].
  destruct (Z.leb_spec (cmp x y) 0) as [|Hgt]; [done|].
  rewrite !filter_cons in *. rewrite IH.
  destruct (decide (P x = true)), (decide (P y = true)); try done.
  rewrite (HP x y) in Hgt by done. lia.
Qed.

Lemma sort_by_stable (P : A → bool) l :
  cmp_closed P → filter (fun y => P y = true) (sort_by l) = filter (fun y => P y = true) l.
Proof.
  intros HP. induction l as [|x l IH]; simpl; [done|].
  rewrite filter_sort_insert by done. rewrite !filter_cons, IH. done.
Qed.

Lemma sort_by_id l : StronglySorted cmp_le l → sort_by l = l.
Proof.
  induction 1 as [|x l Hl IH Hx]; simpl; [done|]. rewrite IH.
  destruct l as [|y l]; simpl; [done|].
  inversion Hx; subst. unfold cmp_le in *.
  destruct (Z.leb_spec (cmp x y) 0); [done|lia].
Qed.
End Sorting.

#[export] Hint Resolve sort_by_sorted : web.
#[export] Hint Rewrite @elem_of_sort_by @length_sort_by : web.

(** The sign of a difference of two numbers, as a comparison function uses it. *)
Definition q_sub (x y : Q) : Z := match (x ?= y)%Q with Lt => -1 | Eq => 0 | Gt => 1 end.

Lemma q_sub_le x y : q_sub x y <= 0 ↔ (x <= y)%Q.
Proof. unfold q_sub. destruct (Qcompare_spec x y); split; intros; (lia || lra). Qed.

#[export] Instance q_sub_comparator : Comparator q_sub.
Proof.
  split.
  - intros x y. unfold q_sub. rewrite <- (Qcompare_antisym x y). by destruct (x ?= y)%Q.
  - intros x y z. rewrite !q_sub_le. apply Qle_trans.
Qed.

(** The order of [String.prototype.localeCompare], which depends on the
    reader's locale: an interface of which only consistency is known. *)
Class Collation := {
  localeCompare : string → string → Z;
  #[global] localeCompare_comparator :: Comparator localeCompare;
}.

(** [list.slice(0, n)] and [list.slice(n)]: a negative index counts from the end. *)
Definition slice_index {A} (n : Z) (l : list A) : nat :=
  Z.to_nat (if n <? 0 then Z.of_nat (length l) + n else n).
Definition slice_to {A} (n : Z) (l : list A) : list A := take (slice_index n l) l.
Definition slice_from {A} (n : Z) (l : list A) : list A := drop (slice_index n l) l.

Lemma filter_nothing {A} (P : A → Prop) `{∀ x, Decision (P x)} (l : list A) : Forall (fun x => ¬ P x) l → filter P l = [].
Proof. induction 1 as [|x l Hx _ IH]; [done|]. by rewrite filter_cons, decide_False. Qed.

(** What is apart by a name stays so when some of it is taken out. *)
Lemma NoDup_map_filter {A B} (f : A → B) (P : A → Prop) `{∀ x, Decision (P x)} l : NoDup (map f l) → NoDup (map f (filter P l)).
Proof.
  induction l as [|x l IH]; [done|]. cbn [map]. intros [Hx Hl]%NoDup_cons. rewrite filter_cons. destruct (decide (P x)); [|by apply IH].
  cbn [map]. apply NoDup_cons. split; [|by apply IH]. intros (y & E & Hy)%list_elem_of_fmap. apply Hx. rewrite E. apply list_elem_of_fmap. exists y. split; [done|].
  by apply list_elem_of_filter in Hy as [_ ?].
Qed.

Lemma filter_every {A} (P : A → Prop) `{∀ x, Decision (P x)} (l : list A) : Forall P l → filter P l = l.
Proof. induction 1 as [|x l Hx _ IH]; [done|]. by rewrite filter_cons, decide_True, IH. Qed.
