(* ===== verification/JsString.v ===== *)
(** Strings of the language, as the modelled code uses them.

    A string is a sequence of UTF-16 code units; the model keeps the units below
    256 (Latin-1), which hold every character of both of the interface's
    languages.  The methods are the ones of ECMA-262 that the code calls. *)

From Stdlib Require Import ZArith QArith Qround Lia Ascii String.
From stdpp Require Import base list strings.
From S2P Require Import Prelude.

Open Scope Z_scope.

#[global] Arguments String.append !_ _ / : simpl nomatch.

(** ** Code units *)

Definition code (c : ascii) : Z := Z.of_N (N_of_ascii c).
Definition unit_of (z : Z) : ascii := ascii_of_N (Z.to_N z).

Definition is_digit (c : ascii) : bool := (48 <=? code c) && (code c <=? 57).

(** WhiteSpace and LineTerminator, which [trim] and [\s] mean. *)
Definition is_space (c : ascii) : bool :=
  ((9 <=? code c) && (code c <=? 13)) || (code c =? 32) || (code c =? 160).

Definition lower (c : ascii) : ascii :=
  if ((65 <=? code c) && (code c <=? 90)) ||
     ((192 <=? code c) && (code c <=? 222) && negb (code c =? 215))
  then unit_of (code c + 32) else c.

Definition upper (c : ascii) : ascii :=
  if ((97 <=? code c) && (code c <=? 122)) ||
     ((224 <=? code c) && (code c <=? 254) && negb (code c =? 247))
  then unit_of (code c - 32) else c.

(** ** The methods *)

Fixpoint toLowerCase (s : string) : string :=
  match s with
  | EmptyString => EmptyString
  | String c s' => String (lower c) (toLowerCase s')
  end.

Fixpoint trimStart (s : string) : string :=
  match s with
  | EmptyString => EmptyString
  | String c s' => if is_space c then trimStart s' else s
  end.

Fixpoint trimEnd (s : string) : string :=
  match s with
  | EmptyString => EmptyString
  | String c s' =>
      match trimEnd s' with
      | EmptyString => if is_space c then EmptyString else String c EmptyString
      | r => String c r
      end
  end.

Definition trim (s : string) : string := trimStart (trimEnd s).

Fixpoint startsWith (s p : string) : bool :=
  match p, s with
  | EmptyString, _ => true
  | String a p', String b s' => bool_decide (a = b) && startsWith s' p'
  | _, EmptyString => false
  end.

Fixpoint includes (s p : string) : bool :=
  startsWith s p || match s with EmptyString => false | String _ s' => includes s' p end.

(** [s.slice(n)] for a position within the string, and [s.slice(0, n)]. *)
Fixpoint sliceFrom (n : nat) (s : string) : string :=
  match n, s with
  | O, _ => s
  | S n', String _ s' => sliceFrom n' s'
  | S _, EmptyString => EmptyString
  end.

Fixpoint sliceTo (n : nat) (s : string) : string :=
  match n, s with
  | S n', String c s' => String c (sliceTo n' s')
  | _, _ => EmptyString
  end.

(** [s.split(sep)] for a separator of one unit: always at least one part. *)
Fixpoint split (sep : ascii) (s : string) : list string :=
  match s with
  | EmptyString => [EmptyString]
  | String c s' =>
      if decide (c = sep) then EmptyString :: split sep s'
      else match split sep s' with
           | [] => [String c EmptyString]
           | w :: ws => String c w :: ws
           end
  end.

Fixpoint join (sep : string) (l : list string) : string :=
  match l with
  | [] => EmptyString
  | [w] => w
  | w :: l' => w +:+ sep +:+ join sep l'
  end.

Fixpoint repeatString (n : nat) (s : string) : string :=
  match n with O => EmptyString | S n' => s +:+ repeatString n' s end.

(** [Boolean(s)]: the empty string is the only falsy one. *)
Definition truthy (s : string) : bool := negb (bool_decide (s = EmptyString)).

(** [text || undefined]. *)
Definition or_undefined (s : string) : option string := if truthy s then Some s else None.

(** [text.toUpperCase()], for the ASCII text an issue's key is. *)
Fixpoint toUpperCase (s : string) : string :=
  match s with EmptyString => EmptyString | String c s' => String (upper c) (toUpperCase s') end.

Fixpoint string_forall (P : ascii → bool) (s : string) : bool :=
  match s with EmptyString => true | String c s' => P c && string_forall P s' end.

(** ** Whole numbers in decimal *)

Definition digit_unit (d : Z) : ascii := unit_of (48 + d).
Definition digit_value (c : ascii) : Z := code c - 48.

Fixpoint digits_fuel (fuel : nat) (n : Z) (acc : string) : string :=
  match fuel with
  | O => acc
  | S f =>
      if n <? 10 then String (digit_unit n) acc
      else digits_fuel f (n / 10) (String (digit_unit (n mod 10)) acc)
  end.

(** A natural number has at most as many digits as it has bits, and one more. *)
Definition digits (n : Z) : string := digits_fuel (S (Z.to_nat (Z.log2 n))) n EmptyString.

(** [String(n)] of a whole number. *)
Definition stringOfInt (n : Z) : string :=
  if n <? 0 then String "-" (digits (- n)) else digits n.

Fixpoint digits_value (acc : Z) (s : string) : Z :=
  match s with
  | EmptyString => acc
  | String c s' => digits_value (10 * acc + digit_value c) s'
  end.

(** The longest prefix of digits and what follows it: [\d+] and [\d*]. *)
Fixpoint span_digits (s : string) : string * string :=
  match s with
  | EmptyString => (EmptyString, EmptyString)
  | String c s' =>
      if is_digit c then let '(d, r) := span_digits s' in (String c d, r)
      else (EmptyString, s)
  end.

(** [String(n).padStart(width, "0")]. *)
Definition padStart (width : nat) (s : string) : string :=
  repeatString (width - String.length s) "0" +:+ s.

(** [s.lastIndexOf(c)] for a single unit. *)
Fixpoint lastIndexOf (c : ascii) (s : string) : option nat :=
  match s with
  | EmptyString => None
  | String d s' =>
      match lastIndexOf c s' with
      | Some i => Some (S i)
      | None => if decide (d = c) then Some O else None
      end
  end.

(** ** [Number(text)]

    The grammar of StringNumericLiteral.  [None] is every value that is not
    finite; the digits are read exactly. *)

Definition hex_value (c : ascii) : option Z :=
  let k := code (lower c) in
  if is_digit c then Some (k - 48)
  else if (97 <=? k) && (k <=? 102) then Some (k - 87) else None.

Fixpoint radix_value (radix acc : Z) (s : string) : option Z :=
  match s with
  | EmptyString => Some acc
  | String c s' =>
      d ← hex_value c;
      if d <? radix then radix_value radix (radix * acc + d) s' else None
  end.

(** An exponent, if any, must be the rest of the text. *)
Definition exponent (s : string) : option Z :=
  match s with
  | EmptyString => Some 0
  | String c s' =>
      if (code c =? 101) || (code c =? 69) then
        let '(neg, body) := match s' with
          | String d t => if code d =? 45 then (true, t) else if code d =? 43 then (false, t) else (false, s')
          | EmptyString => (false, EmptyString)
          end in
        match span_digits body with
        | (String _ _ as ds, EmptyString) =>
            Some (if neg : bool then - digits_value 0 ds else digits_value 0 ds)
        | _ => None
        end
      else None
  end.

Definition scale10 (q : Q) (e : Z) : Q :=
  if 0 <=? e then (q * inject_Z (10 ^ e))%Q else (q / inject_Z (10 ^ (- e)))%Q.

Definition unsigned_decimal (s : string) : option Q :=
  let '(whole, r) := span_digits s in
  let '(frac, r') := match r with
    | String c t => if code c =? 46 then span_digits t else (EmptyString, r)
    | EmptyString => (EmptyString, EmptyString)
    end in
  if truthy whole || truthy frac then
    e ← exponent r';
    Some (scale10 (inject_Z (digits_value 0 (whole +:+ frac)))
                  (e - Z.of_nat (String.length frac)))
  else None.

Definition numberOf (text : string) : option Q :=
  match trim text with
  | EmptyString => Some 0%Q
  | String c t as s =>
      match t with
      | String x body =>
          if (code c =? 48) && truthy body && (code (lower x) =? 120) then inject_Z <$> radix_value 16 0 body
          else if (code c =? 48) && truthy body && (code (lower x) =? 111) then inject_Z <$> radix_value 8 0 body
          else if (code c =? 48) && truthy body && (code (lower x) =? 98) then inject_Z <$> radix_value 2 0 body
          else if code c =? 45 then Qopp <$> unsigned_decimal t
          else if code c =? 43 then unsigned_decimal t
          else unsigned_decimal s
      | EmptyString => unsigned_decimal s
      end
  end.

(** ** What goes into addresses and literals *)

Definition in_quotes (s : string) : string := String (ascii_of_nat 34) (s +:+ String (ascii_of_nat 34) EmptyString).

Definition hex_upper (d : Z) : ascii := unit_of (if d <? 10 then 48 + d else 55 + d).

Definition percent (byte : Z) : string := String "%" (String (hex_upper (byte / 16)) (String (hex_upper (byte mod 16)) EmptyString)).

(** A unit above ASCII is written in UTF-8. *)
Definition percent_utf8 (c : ascii) : string :=
  if code c <? 128 then percent (code c) else percent (192 + code c / 64) +:+ percent (128 + code c mod 64).

(** [encodeURIComponent]. *)
Definition unreserved (c : ascii) : bool :=
  is_digit c || ((65 <=? code c) && (code c <=? 90)) || ((97 <=? code c) && (code c <=? 122)) ||
  bool_decide (code c ∈ [45; 95; 46; 33; 126; 42; 39; 40; 41]).

Fixpoint encodeURIComponent (s : string) : string :=
  match s with
  | EmptyString => EmptyString
  | String c s' => (if unreserved c then String c EmptyString else percent_utf8 c) +:+ encodeURIComponent s'
  end.

(** [JSON.stringify] of a string. *)
Definition hex_lower (d : Z) : ascii := unit_of (if d <? 10 then 48 + d else 87 + d).

Definition stringify_unit (c : ascii) : string :=
  let escaped (u : ascii) := String "\" (String u EmptyString) in
  if bool_decide (c = ascii_of_nat 34) || bool_decide (c = "\"%char) then escaped c
  else if code c =? 8 then escaped "b"%char else if code c =? 9 then escaped "t"%char else if code c =? 10 then escaped "n"%char
  else if code c =? 12 then escaped "f"%char else if code c =? 13 then escaped "r"%char
  else if code c <? 32 then String "\" ("u00" +:+ String (hex_lower (code c / 16)) (String (hex_lower (code c mod 16)) EmptyString))
  else String c EmptyString.

Fixpoint stringify_units (s : string) : string :=
  match s with EmptyString => EmptyString | String c s' => stringify_unit c +:+ stringify_units s' end.

Definition stringify (s : string) : string := in_quotes (stringify_units s).

(** ** Facts *)

Lemma code_bounds c : 0 <= code c < 256.
Proof. unfold code. destruct c as [[] [] [] [] [] [] [] []]; vm_compute; split; congruence. Qed.

Lemma code_unit_of z : 0 <= z < 256 → code (unit_of z) = z.
Proof.
  intros. unfold code, unit_of. rewrite N_ascii_embedding by lia. lia.
Qed.

Lemma unit_of_code c : unit_of (code c) = c.
Proof. unfold code, unit_of. rewrite N2Z.id. apply ascii_N_embedding. Qed.

Lemma code_inj c d : code c = code d → c = d.
Proof. intros H. by rewrite <- (unit_of_code c), <- (unit_of_code d), H. Qed.

Lemma digit_unit_is_digit d : 0 <= d < 10 → is_digit (digit_unit d) = true.
Proof. intros. unfold is_digit, digit_unit. rewrite code_unit_of by lia. lia. Qed.

Lemma digit_value_unit d : 0 <= d < 10 → digit_value (digit_unit d) = d.
Proof. intros. unfold digit_value, digit_unit. rewrite code_unit_of by lia. lia. Qed.

Lemma digit_not_space c : is_digit c = true → is_space c = false.
Proof. unfold is_digit, is_space. lia. Qed.

Lemma app_empty_r s : s +:+ EmptyString = s.
Proof. induction s; simpl; by f_equal. Qed.

Lemma app_assoc_s a b c : (a +:+ b) +:+ c = a +:+ (b +:+ c).
Proof. induction a; simpl; by f_equal. Qed.

Lemma length_app_s a b : String.length (a +:+ b) = (String.length a + String.length b)%nat.
Proof. induction a; simpl; by f_equal. Qed.

#[export] Hint Rewrite app_empty_r app_assoc_s length_app_s : web.

Lemma string_forall_app P a b :
  string_forall P (a +:+ b) = string_forall P a && string_forall P b.
Proof. induction a; simpl; [done|]. rewrite IHa. by destruct (P _). Qed.

Lemma digits_fuel_spec fuel n acc v :
  0 <= n < 10 ^ Z.of_nat fuel → string_forall is_digit acc = true →
  string_forall is_digit (digits_fuel fuel n acc) = true ∧
  digits_value v (digits_fuel fuel n acc) =
    digits_value (v * 10 ^ (Z.of_nat (String.length (digits_fuel fuel n acc)) -
                            Z.of_nat (String.length acc)) + n) acc ∧
  (String.length acc <= String.length (digits_fuel fuel n acc))%nat ∧
  (fuel ≠ O → digits_fuel fuel n acc ≠ EmptyString).
Proof.
  revert n acc v. induction fuel as [|f IH]; intros n acc v Hn Hacc.
  { simpl. rewrite Z.sub_diag. split_and!; [done| |lia|done].
    f_equal. change (10 ^ 0) with 1. rewrite Z.pow_0_r in Hn. lia. }
  rewrite Nat2Z.inj_succ, Z.pow_succ_r in Hn by lia.
  simpl. destruct (Z.ltb_spec n 10) as [Hlt|Hge].
  - cbn [string_forall digits_value String.length].
    rewrite digit_unit_is_digit, digit_value_unit by lia.
    split_and!; [done| |lia|done]. f_equal.
    replace (_ - _) with 1 by lia. lia.
  - pose proof (Z.mod_pos_bound n 10 ltac:(lia)) as Hm.
    pose proof (Z.div_mod n 10 ltac:(lia)) as Hd.
    destruct (IH (n / 10) (String (digit_unit (n mod 10)) acc) v) as (H1 & H2 & H3 & H4).
    { split; [apply Z.div_pos; lia|apply Z.div_lt_upper_bound; lia]. }
    { simpl. rewrite digit_unit_is_digit by lia. done. }
    split_and!; [done| |simpl in *; lia|intros _].
    + rewrite H2. cbn [String.length digits_value]. rewrite digit_value_unit by lia.
      f_equal. rewrite Nat2Z.inj_succ. cbn [String.length] in H3.
      set (L := String.length _) in *.
      replace (Z.of_nat L - Z.of_nat (String.length acc))
        with (Z.succ (Z.of_nat L - Z.succ (Z.of_nat (String.length acc)))) by lia.
      rewrite Z.pow_succ_r by lia. lia.
    + destruct (digits_fuel f _ _); [simpl in H3; lia|done].
Qed.

Lemma digits_fuel_enough n : 0 <= n → 0 <= n < 10 ^ Z.of_nat (S (Z.to_nat (Z.log2 n))).
Proof.
  intros Hn. split; [done|]. rewrite Nat2Z.inj_succ, Z2Nat.id by apply Z.log2_nonneg.
  destruct (decide (n = 0)) as [->|]; [done|].
  pose proof (Z.log2_spec n ltac:(lia)) as [_ Hlt].
  eapply Z.lt_le_trans; [exact Hlt|].
  apply Z.pow_le_mono_l. pose proof (Z.log2_nonneg n). lia.
Qed.

Lemma digits_all n : 0 <= n → string_forall is_digit (digits n) = true.
Proof.
  intros. unfold digits.
  by apply (digits_fuel_spec _ n EmptyString 0 (digits_fuel_enough n H)).
Qed.

Lemma digits_nonempty n : 0 <= n → digits n ≠ EmptyString.
Proof.
  intros. unfold digits.
  by apply (digits_fuel_spec _ n EmptyString 0 (digits_fuel_enough n H)).
Qed.

(** Reading back what was written. *)
Lemma digits_value_digits n : 0 <= n → digits_value 0 (digits n) = n.
Proof.
  intros. unfold digits.
  destruct (digits_fuel_spec _ n EmptyString 0 (digits_fuel_enough n H)) as (_ & -> & _); [done|].
  done.
Qed.

Lemma span_digits_app d r :
  string_forall is_digit d = true →
  match r with EmptyString => True | String c _ => is_digit c = false end →
  span_digits (d +:+ r) = (d, r).
Proof.
  intros Hd Hr. induction d as [|c d IH]; simpl in *.
  - destruct r; [done|]. simpl. by rewrite Hr.
  - destruct (is_digit c); [|done]. by rewrite IH.
Qed.

Lemma trimStart_id c s : is_space c = false → trimStart (String c s) = String c s.
Proof. intros H. simpl. by rewrite H. Qed.

Lemma trimEnd_app s c : is_space c = false → trimEnd (s +:+ String c EmptyString) = s +:+ String c EmptyString.
Proof.
  intros H. induction s as [|a s IH]; simpl; [by rewrite H|].
  rewrite IH. by destruct s.
Qed.

Lemma join_cons sep w l : l ≠ [] → join sep (w :: l) = w +:+ sep +:+ join sep l.
Proof. by destruct l. Qed.

Lemma split_nonnil sep s : split sep s ≠ [].
Proof. induction s; simpl; [done|]. case_decide; [done|]. by destruct (split sep s). Qed.

Lemma split_no_sep sep s :
  string_forall (fun c => negb (bool_decide (c = sep))) s = true → split sep s = [s].
Proof.
  induction s as [|c s IH]; simpl; [done|].
  rewrite andb_true_iff, negb_true_iff, bool_decide_eq_false. intros [Hc Hs].
  rewrite decide_False by done. by rewrite IH.
Qed.

Lemma split_app_sep sep w s :
  string_forall (fun c => negb (bool_decide (c = sep))) w = true →
  split sep (w +:+ String sep s) = w :: split sep s.
Proof.
  induction w as [|c w IH]; simpl; [by rewrite decide_True|].
  rewrite andb_true_iff, negb_true_iff, bool_decide_eq_false. intros [Hc Hs].
  rewrite decide_False by done. by rewrite IH.
Qed.

(** Splitting what was joined with the separator gives the parts back, when
    none of them holds the separator. *)
Lemma split_join sep l :
  l ≠ [] →
  Forall (fun w => string_forall (fun c => negb (bool_decide (c = sep))) w = true) l →
  split sep (join (String sep EmptyString) l) = l.
Proof.
  intros Hl Hall. induction Hall as [|w l Hw Hall IH]; [done|].
  destruct l as [|w' l]; [by apply split_no_sep|].
  rewrite join_cons by done.
  change (split sep (w +:+ String sep (join (String sep EmptyString) (w' :: l))) = w :: w' :: l).
  rewrite split_app_sep by done. by rewrite IH.
Qed.

Lemma join_nonempty sep l : l ≠ [] → Forall (fun w => w ≠ EmptyString) l → join sep l ≠ EmptyString.
Proof.
  intros Hl Hall. destruct Hall as [|w [|w' l] Hw Hall]; [done|done|].
  rewrite join_cons by done. by destruct w.
Qed.

Lemma trim_id s : string_forall (fun c => negb (is_space c)) s = true → trim s = s.
Proof.
  intros H. assert (trimEnd s = s) as HE.
  { induction s as [|c s IH]; [done|]. simpl in H. apply andb_true_iff in H as [Hc Hs].
    simpl. rewrite IH by done. destruct s; [|done]. by rewrite negb_true_iff in Hc; rewrite Hc. }
  unfold trim. rewrite HE. destruct s as [|c s]; [done|]. simpl in *.
  apply andb_true_iff in H as [Hc%negb_true_iff _]. by rewrite Hc.
Qed.

Lemma span_digits_all s : string_forall is_digit s = true → span_digits s = (s, EmptyString).
Proof.
  induction s as [|c s IH]; simpl; [done|]. intros [-> Hs]%andb_true_iff. by rewrite IH.
Qed.

Lemma digits_value_app acc a b : digits_value acc (a +:+ b) = digits_value (digits_value acc a) b.
Proof. revert acc. induction a as [|c a IH]; intros acc; simpl; [done|]. apply IH. Qed.

Lemma one_digit d : 0 <= d < 10 → stringOfInt d = String (digit_unit d) EmptyString.
Proof.
  intros H. assert (d ∈ [0;1;2;3;4;5;6;7;8;9]) as Hd by (repeat rewrite elem_of_cons; lia).
  repeat (apply elem_of_cons in Hd as [->|Hd]; [reflexivity|]). by apply elem_of_nil in Hd.
Qed.

Lemma digit_units s : string_forall is_digit s = true → string_forall (fun c => negb (is_space c)) s = true.
Proof.
  induction s as [|c s IH]; simpl; [done|]. intros [Hc Hs]%andb_true_iff.
  by rewrite (digit_not_space c), IH.
Qed.

(** *** Trimming twice *)

Lemma trimEnd_empty_app c s : trimEnd (String c s) = EmptyString → trimEnd s = EmptyString ∧ is_space c = true.
Proof. cbn [trimEnd]. destruct (trimEnd s); [|done]. by destruct (is_space c). Qed.

Lemma trimEnd_idem s : trimEnd (trimEnd s) = trimEnd s.
Proof.
  induction s as [|c s IH]; [done|]. cbn [trimEnd]. destruct (trimEnd s) as [|d r] eqn:E.
  - destruct (is_space c) eqn:Ec; [done|]. cbn. by rewrite Ec.
  - cbn [trimEnd] in *. by rewrite IH.
Qed.

Lemma trimStart_idem s : trimStart (trimStart s) = trimStart s.
Proof. induction s as [|c s IH]; [done|]. cbn [trimStart]. destruct (is_space c) eqn:E; [done|]. cbn [trimStart]. by rewrite E. Qed.

Lemma trimEnd_trimStart s : trimEnd s = s → trimEnd (trimStart s) = trimStart s.
Proof.
  induction s as [|c s IH]; [done|]. intros H. cbn [trimStart]. destruct (is_space c) eqn:E; [|done]. apply IH.
  cbn [trimEnd] in H. destruct (trimEnd s) as [|d r]; [rewrite E in H; discriminate H|]. by injection H.
Qed.

Lemma trim_idem s : trim (trim s) = trim s.
Proof. unfold trim. by rewrite (trimEnd_trimStart (trimEnd s)), trimStart_idem by apply trimEnd_idem. Qed.

(** ** A collation to evaluate with: by code units *)

Fixpoint unit_compare (a b : string) : Z :=
  match a, b with
  | EmptyString, EmptyString => 0
  | EmptyString, String _ _ => -1
  | String _ _, EmptyString => 1
  | String c a', String d b' => if code c =? code d then unit_compare a' b' else code c - code d
  end.

#[export] Instance unit_compare_comparator : Comparator unit_compare.
Proof.
  split.
  - intros a. induction a as [|c a IH]; intros [|d b]; simpl; try done.
    rewrite (Z.eqb_sym (code d)). destruct (Z.eqb_spec (code c) (code d)); [apply IH|lia].
  - intros a. induction a as [|c a IH]; intros [|d b] [|e f]; simpl; try lia.
    destruct (Z.eqb_spec (code c) (code d)), (Z.eqb_spec (code d) (code e)),
      (Z.eqb_spec (code c) (code e)); try lia. apply IH.
Qed.

Definition unitCollation : Collation := {| localeCompare := unit_compare |}.

Lemma unit_compare_eq a b : unit_compare a b = 0 → a = b.
Proof.
  revert b. induction a as [|c a IH]; intros [|d b]; simpl; try done.
  destruct (Z.eqb_spec (code c) (code d)) as [E|]; [|lia].
  intros H. f_equal; [by apply code_inj|by apply IH].
Qed.
