(* ===== verification/Config.v ===== *)
(** The constants of [web/src/config.ts] that the modelled components read. *)

From Stdlib Require Import ZArith QArith String.

Open Scope Z_scope.

Definition PLAN_ROW_HEIGHT : Z := 34.
Definition PLAN_DEFAULT_SPAN_DAYS : Z := 6.
Definition PLAN_HEADER_ROW_HEIGHT : Z := 23.
Definition PLAN_SPRINT_BAND_HEIGHT : Z := 26.
Definition PLAN_MIN_PX_PER_DAY : Q := 3 # 1.
Definition PLAN_WEEK_LABEL_MIN_PX_PER_DAY : Q := 6 # 1.

(** The workflow designer's canvas. *)
Definition WORKFLOW_NODE_WIDTH : Z := 240.
Definition WORKFLOW_NODE_HEIGHT : Z := 72.
Definition WORKFLOW_GRID : Z := 8.
Definition WORKFLOW_LAYOUT_ORIGIN_X : Z := 32.
Definition WORKFLOW_LAYOUT_ORIGIN_Y : Z := 40.
Definition WORKFLOW_COLUMN_GAP : Z := 352.
Definition WORKFLOW_ROW_GAP : Z := 104.
Definition WORKFLOW_ANYWHERE_X : Z := WORKFLOW_LAYOUT_ORIGIN_X.
Definition WORKFLOW_ANYWHERE_Y : Z := WORKFLOW_LAYOUT_ORIGIN_Y + 2 * WORKFLOW_ROW_GAP.
Definition WORKFLOW_EDGE_BEND : Z := 64.
Definition WORKFLOW_CANVAS_MIN_WIDTH : Z := 900.
Definition WORKFLOW_CANVAS_MIN_HEIGHT : Z := 520.
Definition WORKFLOW_CANVAS_MARGIN : Z := 160.
Definition WORKFLOW_HANDLE_SIZE : Z := 16.

(** The plan. *)
Definition PLAN_MILESTONE_BAND_HEIGHT : Z := 24.
Definition PLAN_MILESTONE_FLAG_WIDTH : Z := 160.
Definition PLAN_LOAD_FULL_RATIO : Q := 85 # 100.
Definition PLAN_DRAG_THRESHOLD_PX : Z := 8.
Definition PLAN_DRAFT_INPUT_MIN_PX : Z := 160.
Definition PLAN_DEFAULT_CLOSED_FOR_DAYS : Z := 14.

(** The dependency graph. *)
Definition GRAPH_NODE_WIDTH : Z := 200.
Definition GRAPH_NODE_HEIGHT : Z := 40.
Definition GRAPH_COLUMN_GAP : Z := 96.
Definition GRAPH_ROW_GAP : Z := 16.
Definition GRAPH_ORIGIN : Z := 24.
Definition GRAPH_SECTION_GAP : Z := 56.
Definition GRAPH_EDGE_BEND : Z := 32.
Definition GRAPH_MIN_GRID_COLUMNS : Z := 2.

Definition CHART_MAX_GROUPS : Z := 6.
Definition RECENT_QUERIES_MAX : Z := 6.
Definition SUGGEST_RESULTS : Z := 6.
Definition TOAST_MAX : nat := 3.
Definition MIN_DATE_YEAR : Z := 1000.
Definition SIDEBAR_RAIL_BELOW_PX : Z := 1024.
Definition SIDEBAR_DRAWER_BELOW_PX : Z := 768.
Definition LANGUAGE_STORAGE_KEY : string := "armature.language".
Definition THEME_ASSET_MAX_BYTES : Z := 12 * 1024 * 1024.
Definition THEME_MAX_RADIUS : Q := 32.
Definition THEME_MAX_HOTSPOT : Q := 128.
Definition SUGGEST_MIN_CHARS : Z := 1.
Definition RULE_WEEKDAY_ABSENT : Z := 0.
Definition RULE_WEEKDAY_DEFAULT : Z := 1.
Definition PALETTE_RESULTS : Z := 8.
Definition BULK_MAX_SELECTION : Z := 200.
Definition ATTACHMENT_MAX_BYTES : Z := 50 * 1024 * 1024.
Definition CSAT_SCORES : list Z := (1 :: 2 :: 3 :: 4 :: 5 :: nil)%list.
Definition QUEUE_PAGE_SIZE : Z := 50.
Definition GUIDE_WEIGHT_TITLE : Z := 3.
Definition GUIDE_WEIGHT_KEYWORD : Z := 2.
Definition GUIDE_WEIGHT_SENTENCE : Z := 1.
Definition GUIDE_MIN_SCORE : Z := 1.
Definition GUIDE_MAX_ANSWERS : Z := 4.
Definition GUIDE_MIN_WORDS : Z := 2.
Definition CALENDAR_MAX_ITEMS_PER_DAY : Z := 4.
Definition CALENDAR_GRID_DAYS : Z := 42.
Definition MENU_GAP_PX : Z := 4.
Definition POPOVER_MAX_HEIGHT_PX : Z := 560.
Definition POPOVER_EDGE_PX : Z := 8.
Definition MINUTES_PER_HOUR : Z := 60.
Definition HOURS_PER_DAY : Z := 24.
Definition WORKING_HOURS_DECIMALS : Z := 2.
Definition ABSENCE_MAX_DAYS : Z := 366.
Definition ABSENCES_LISTED_DAYS_BEHIND : Z := 31.
Definition MS_PER_DAY : Z := 86400000.
Definition RESOURCE_HOUR_DECIMALS : Z := 1.
Definition RESOURCE_WINDOW_WEEKS : Z := 8.
Definition RESOURCE_STEP_WEEKS : Z := 4.
Definition RESOURCE_LIST_LIMIT : Z := 25.
Definition WEEKDAY_REFERENCE_MONDAY : string := "2024-01-01".
Definition ROLE_ASSIGNMENT_PAGE_SIZE : Z := 50.
Definition DASHBOARD_FILTER_WINDOWS : list Z := (7 :: 30 :: 90 :: 365 :: nil)%list.
Definition DASHBOARD_WINDOWS : list Z := (7 :: 30 :: 90 :: nil)%list.
Definition DASHBOARD_DEFAULT_WINDOW_DAYS : Z := 30.
Definition CHART_VALUE_LABEL_MAX_COLUMNS : Z := 4.
Definition CHART_MARKER_PX : Z := 6.
Definition CHART_AXIS_LABELS : Z := 6.
Definition SECOND_FACTOR_CODE_DIGITS : Z := 6.
Definition SECRET_GROUP_LENGTH : Z := 4.
Definition TEMPLATE_NAME_MAX_LENGTH : Z := 100.
Definition TEMPLATE_DESCRIPTION_MAX_LENGTH : Z := 300.

(** The conversation on an issue. *)
Definition ACTIVITY_FOLD : nat := 12.
