(* ===== verification/LibGraph.v ===== *)
(** The geometry shared by the drawn graphs: [web/src/lib/graph.ts].

    How far the edges between two boxes bow out, and where a line from the
    middle of a box leaves it.  Coordinates are rationals, the values a double
    holds, and the arithmetic on them is exact. *)

From Stdlib Require Import ZArith QArith Qround Qminmax Qabs Lqa Lia Ascii String.
From stdpp Require Import base sets list strings sorting.
From S2P Require Import Prelude JsString.

Open Scope Z_scope.

(** An edge as the bending needs it. *)
Record Connection := mkConnection { conn_key : string; conn_from : string; conn_to : string }.

(** [[a, b].sort()] orders by code units, as [<=] on strings does. *)
Definition sort_pair (a b : string) : list string :=
  if String.leb a b then [a; b] else [b; a].

Definition pairKey (e : Connection) : string := join "|" (sort_pair (conn_from e) (conn_to e)).

Definition is_forward (e : Connection) : bool := String.leb (conn_from e) (conn_to e).

(** The bend of the edge at an index of its direction, in steps: with traffic
    both ways nothing runs straight; alone, the first does. *)
Definition bend_at (twoWay : bool) (index : Z) : Z :=
  if twoWay then index + 1
  else (index + 1) / 2 * (if index mod 2 =? 0 then -1 else 1).

Definition spread (twoWay : bool) (step : Z) (out : list (string * Z)) (l : list Connection)
  : list (string * Z) :=
  foldl (fun m a => jset m a.1 a.2) out
    (imap (fun index e => (conn_key e, bend_at twoWay (Z.of_nat index) * step)) l).

Definition bend_group (step : Z) (out : list (string * Z)) (group : list Connection)
  : list (string * Z) :=
  let forward := filter (fun e => is_forward e = true) group in
  let backward := filter (fun e => is_forward e = false) group in
  let twoWay := (0 <? length forward)%nat && (0 <? length backward)%nat in
  spread twoWay step (spread twoWay step out forward) backward.

(** How far each edge bows out, by the edge's key. *)
Definition bends (edges : list Connection) (step : Z) : list (string * Z) :=
  foldl (bend_group step) [] (jvals (group_by pairKey edges)).

(** ** Boxes and curves *)

(** A box on a canvas; the drawings place boxes at whole pixels. *)
Record Rect := mkRect { rx : Z; ry : Z; rwidth : Z; rheight : Z }.

Record Point := mkPoint { px : Q; py : Q }.

Record EdgeShape := mkEdgeShape { path : string; label : Point }.

(** [Math.hypot] is only approximated by an implementation; the code relies on
    nothing but its being a number that is not negative. *)
Class MathHypot := {
  hypot : Q → Q → Q;
  hypot_nonneg x y : (0 <= hypot x y)%Q;
}.

Open Scope Q_scope.

Definition centre (r : Rect) : Point :=
  mkPoint (inject_Z (rx r) + inject_Z (rwidth r) / 2) (inject_Z (ry r) + inject_Z (rheight r) / 2).

(** [None] is [Infinity]. *)
Definition min_inf (a b : option Q) : option Q :=
  match a, b with
  | Some x, Some y => Some (Qmin x y)
  | Some x, None => Some x
  | None, _ => b
  end.

(** The point where a line from a box's centre towards a target leaves the box. *)
Definition clipToRect (r : Rect) (towards : Point) : Point :=
  let c := centre r in
  let dx := px towards - px c in
  let dy := py towards - py c in
  let axis (size : Z) (d : Q) := if Qeq_bool d 0 then None else Some (inject_Z size / 2 / Qabs d) in
  match min_inf (axis (rwidth r) dx) (axis (rheight r) dy) with
  | None => c
  | Some scale => mkPoint (px c + dx * scale) (py c + dy * scale)
  end.

(** [Math.round(n * 10)], half up, and a number of tenths as it is written. *)
Definition round10 (n : Q) : Z := Qfloor (n * 10 + (1 # 2)).

Definition stringOfTenths (n : Z) : string :=
  let whole := stringOfInt (Z.abs n / 10) in
  (if (n <? 0)%Z then "-" else EmptyString) +:+ whole +:+
  (if (Z.abs n mod 10 =? 0)%Z then EmptyString else "." +:+ stringOfInt (Z.abs n mod 10)).

(** The ends of a curve on the boxes' edges, and the point it bows towards:
    [bend] to one side of the middle of the line between the boxes. *)
Definition curve `{MathHypot} (from to : Rect) (bend : Z) : Point * Point * Point :=
  let a := centre from in
  let b := centre to in
  let measured := hypot (px b - px a) (py b - py a) in
  let length := if Qeq_bool measured 0 then 1 else measured in
  let control := mkPoint
    ((px a + px b) / 2 + - (py b - py a) / length * inject_Z bend)
    ((py a + py b) / 2 + (px b - px a) / length * inject_Z bend) in
  (clipToRect from control, control, clipToRect to control).

(** A quadratic curve between two boxes, and where its label sits. *)
Definition edgeShape `{MathHypot} (from to : Rect) (bend : Z) : EdgeShape :=
  let '(start, control, end_) := curve from to bend in
  let mix f := (1 # 4) * f start + (1 # 2) * f control + (1 # 4) * f end_ in
  let r n := stringOfTenths (round10 n) in
  mkEdgeShape
    ("M " +:+ r (px start) +:+ " " +:+ r (py start) +:+
     " Q " +:+ r (px control) +:+ " " +:+ r (py control) +:+
     " " +:+ r (px end_) +:+ " " +:+ r (py end_))
    (mkPoint (mix px) (mix py)).

Close Scope Q_scope.

(** ** How the bends keep two edges apart *)

(** Two edges between the same two boxes, whichever way each runs. *)
Definition same_boxes (e1 e2 : Connection) : Prop :=
  (conn_from e1 = conn_from e2 ∧ conn_to e1 = conn_to e2) ∨
  (conn_from e1 = conn_to e2 ∧ conn_to e1 = conn_from e2).

(** The side of the line between the boxes a curve is on: it bows to the right
    of its own direction, so an edge running the other way is mirrored. *)
Definition side (e : Connection) (bend : Z) : Z := if is_forward e then bend else - bend.

Definition assigned (twoWay : bool) (step : Z) (l : list Connection) : list (string * Z) :=
  imap (fun index e => (conn_key e, bend_at twoWay (Z.of_nat index) * step)) l.

Definition group_assigned (step : Z) (group : list Connection) : list (string * Z) :=
  let forward := filter (fun e => is_forward e = true) group in
  let backward := filter (fun e => is_forward e = false) group in
  let twoWay := (0 <? length forward)%nat && (0 <? length backward)%nat in
  assigned twoWay step forward ++ assigned twoWay step backward.

Lemma bends_jof edges step :
  bends edges step = jof (concat (group_assigned step <$> jvals (group_by pairKey edges))).
Proof.
  unfold bends, jof. generalize (@nil (string * Z)).
  induction (jvals (group_by pairKey edges)) as [|g gs IH]; intros m; csimpl; [done|].
  rewrite <- foldl_jset_app, IH. f_equal. unfold bend_group, group_assigned, spread, assigned.
  by rewrite foldl_jset_app.
Qed.

Lemma assigned_lookup tw step l i e :
  l !! i = Some e → (conn_key e, bend_at tw (Z.of_nat i) * step) ∈ assigned tw step l.
Proof.
  intros Hi. apply list_elem_of_lookup. exists i. unfold assigned. by rewrite list_lookup_imap, Hi.
Qed.

Lemma assigned_keys tw step l : (assigned tw step l).*1 = conn_key <$> l.
Proof. unfold assigned. rewrite fmap_imap. apply (imap_ignore conn_key). Qed.

Lemma split_directions (g : list Connection) :
  filter (fun e => is_forward e = true) g ++ filter (fun e => is_forward e = false) g ≡ₚ g.
Proof.
  induction g as [|e g IH]; [done|]. rewrite !filter_cons.
  destruct (is_forward e); simpl; [by rewrite IH|].
  by rewrite <- Permutation_middle, IH.
Qed.

Lemma group_assigned_keys step g : (group_assigned step g).*1 ≡ₚ conn_key <$> g.
Proof.
  unfold group_assigned. rewrite fmap_app, !assigned_keys, <- fmap_app.
  by rewrite split_directions.
Qed.

Lemma all_assigned_keys step gs :
  (concat (group_assigned step <$> gs)).*1 ≡ₚ conn_key <$> concat gs.
Proof.
  induction gs as [|g gs IH]; csimpl; [done|].
  by rewrite !fmap_app, group_assigned_keys, IH.
Qed.

(** The bend an edge of a group was given: the one of its place among the edges
    of its direction. *)
Lemma bends_lookup edges step e :
  NoDup (conn_key <$> edges) → e ∈ edges →
  let group := filter (fun e' => pairKey e' = pairKey e) edges in
  let same b := filter (fun e' => is_forward e' = b) group in
  let tw := (0 <? length (same true))%nat && (0 <? length (same false))%nat in
  ∃ i, same (is_forward e) !! i = Some e ∧
       jget (bends edges step) (conn_key e) = Some (bend_at tw (Z.of_nat i) * step).
Proof.
  intros HND He group same tw.
  assert (e ∈ same (is_forward e)) as [i Hi]%list_elem_of_lookup.
  { unfold same, group. by rewrite !list_elem_of_filter. }
  exists i. split; [done|]. rewrite bends_jof. apply jget_jof_elem.
  { by rewrite all_assigned_keys, concat_group_by. }
  apply list_elem_of_In, in_concat. exists (group_assigned step group).
  rewrite <- !list_elem_of_In. split.
  - apply list_elem_of_fmap. exists group. split; [done|].
    apply list_elem_of_fmap. exists (pairKey e, group). split; [done|].
    apply elem_of_group_by. split; [|done]. apply list_elem_of_fmap. eauto.
  - unfold group_assigned. apply elem_of_app.
    destruct (is_forward e) eqn:Hf; [left|right];
      by apply assigned_lookup.
Qed.

Lemma bend_at_one_way i : 0 <= i →
  bend_at false i = if i mod 2 =? 0 then - (i / 2) else i / 2 + 1.
Proof. intros. unfold bend_at. destruct (Z.eqb_spec (i mod 2) 0); Z.to_euclidean_division_equations; lia. Qed.

Lemma bend_at_inj tw i j : 0 <= i → 0 <= j → bend_at tw i = bend_at tw j → i = j.
Proof.
  intros Hi Hj. destruct tw; [unfold bend_at; lia|].
  rewrite !bend_at_one_way by done.
  destruct (Z.eqb_spec (i mod 2) 0), (Z.eqb_spec (j mod 2) 0);
    Z.to_euclidean_division_equations; lia.
Qed.

Lemma sort_pair_sym a b : sort_pair a b = sort_pair b a.
Proof.
  unfold sort_pair.
  destruct (String.leb a b) eqn:E1, (String.leb b a) eqn:E2; try done.
  - by rewrite (String.leb_antisym _ _ E1 E2).
  - destruct (String.leb_total a b); congruence.
Qed.

Lemma same_boxes_pairKey e1 e2 : same_boxes e1 e2 → pairKey e1 = pairKey e2.
Proof.
  unfold pairKey. intros [[-> ->]|[-> ->]]; [done|]. by rewrite sort_pair_sym.
Qed.

(** C19: two different edges between the same two boxes are never drawn over each
    other: measured on one side of the line, their bends differ. *)
Theorem bends_apart edges step e1 e2 :
  0 < step → NoDup (conn_key <$> edges) → e1 ∈ edges → e2 ∈ edges → e1 ≠ e2 →
  same_boxes e1 e2 →
  ∃ b1 b2, jget (bends edges step) (conn_key e1) = Some b1 ∧
           jget (bends edges step) (conn_key e2) = Some b2 ∧
           side e1 b1 ≠ side e2 b2.
Proof.
  intros Hstep HND He1 He2 Hne Hsame.
  destruct (bends_lookup edges step e1 HND He1) as (i & Hi & Hb1).
  destruct (bends_lookup edges step e2 HND He2) as (j & Hj & Hb2).
  rewrite <- (same_boxes_pairKey e1 e2 Hsame) in Hj, Hb2.
  eexists _, _. split_and!; [exact Hb1|exact Hb2|]. clear Hb1 Hb2.
  set (group := filter _ edges) in *. set (tw := _ && _).
  unfold side. destruct (is_forward e1) eqn:F1, (is_forward e2) eqn:F2.
  1,4: intros Heq; assert (Z.of_nat i = Z.of_nat j) as ?%Nat2Z.inj
         by (apply (bend_at_inj tw); nia); congruence.
  all: assert (tw = true) as -> by (unfold tw;
         apply lookup_lt_Some in Hi, Hj; apply andb_true_iff; rewrite !Nat.ltb_lt; lia);
       unfold bend_at; nia.
Qed.

Lemma bends_apart_witness :
  let edges := [mkConnection "a" "todo" "done"; mkConnection "b" "done" "todo"] in
  ∃ b1 b2, jget (bends edges 64) "a" = Some b1 ∧ jget (bends edges 64) "b" = Some b2 ∧
           side (mkConnection "a" "todo" "done") b1 ≠ side (mkConnection "b" "done" "todo") b2.
Proof.
  apply (bends_apart _ 64 (mkConnection "a" "todo" "done") (mkConnection "b" "done" "todo"));
    [lia|apply (bool_decide_unpack _); vm_compute; done| | |done|by right]; set_solver.
Defined.

(** A stand-in for [Math.hypot] to evaluate with. *)
Definition taxicab (x y : Q) : Q := (Qabs x + Qabs y)%Q.

Lemma taxicab_nonneg x y : (0 <= taxicab x y)%Q.
Proof. unfold taxicab. pose proof (Qabs_nonneg x). pose proof (Qabs_nonneg y). lra. Qed.

Definition taxicabHypot : MathHypot := {| hypot := taxicab; hypot_nonneg := taxicab_nonneg |}.
