(* ===== verification/PlanGraph.v ===== *)
(** The plan's dependency graph: [web/src/features/plan/graph.ts].

    Issues laid out left to right by longest path.  A depth-first walk marks the
    edges that close a circle, Kahn's queue gives every linked issue a column,
    two sweeps settle the rows, and the unlinked issues fill a grid below. *)

From Stdlib Require Import ZArith QArith Qround Lia Ascii String.
From stdpp Require Import base sets list strings sorting relations.
From S2P Require Import Prelude JsString Config LibGraph.

Open Scope Z_scope.

(** ** Data *)

(** [from] is the blocker, [to] the blocked. *)
Record GraphEdge := mkGraphEdge { edge_id : string; edge_from : string; edge_to : string }.

(** ** The order of issue keys: by project, then by number *)

Definition splitKey (key : string) : string * Q :=
  let '(prefix, rest) := match lastIndexOf "-" key with
    | Some at_ => (sliceTo at_ key, sliceFrom (S at_) key)
    | None => (sliceTo (String.length key - 1) key, key)
    end in
  (prefix, default 0%Q (numberOf rest)).

Definition keyOrder `{Collation} : string → string → Z :=
  cmp_or (cmp_on (fst ∘ splitKey) localeCompare)
         (cmp_or (cmp_on (snd ∘ splitKey) q_sub) localeCompare).

(** ** The edges that close a circle *)

Inductive Mark := MarkOpen | MarkDone.

(** The walk's variables: [state], [back] and [stack], its top first. *)
Record Walk := mkWalk {
  w_state : list (string * Mark);
  w_back : list string;
  w_stack : list (string * nat);
}.

(** One turn of the [while] loop. *)
Definition walk_step (out : list (string * list GraphEdge)) (w : Walk) : Walk :=
  match w_stack w with
  | [] => w
  | (key, next) :: rest =>
      match default [] (jget out key) !! next with
      | None => mkWalk (jset (w_state w) key MarkDone) (w_back w) rest
      | Some edge =>
          let advanced := (key, S next) :: rest in
          match jget (w_state w) (edge_to edge) with
          | Some MarkOpen => mkWalk (w_state w) (set_add (w_back w) (edge_id edge)) advanced
          | Some MarkDone => mkWalk (w_state w) (w_back w) advanced
          | None => mkWalk (jset (w_state w) (edge_to edge) MarkOpen) (w_back w)
                           ((edge_to edge, O) :: advanced)
          end
      end
  end.

(** The [while] loop: [None] when the fuel runs out before the stack does. *)
Fixpoint walk (fuel : nat) (out : list (string * list GraphEdge)) (w : Walk) : option Walk :=
  match w_stack w with
  | [] => Some w
  | _ => match fuel with O => None | S f => walk f out (walk_step out w) end
  end.

Definition visit (fuel : nat) (out : list (string * list GraphEdge)) (w : Walk) (start : string) : option Walk :=
  if jhas (w_state w) start then Some w
  else walk fuel out (mkWalk (jset (w_state w) start MarkOpen) (w_back w) [(start, O)]).

(** A turn for every key and one for every edge are enough for the whole walk. *)
Definition walk_fuel (out : list (string * list GraphEdge)) : nat :=
  sum_list_with (fun es => S (length es)) (jvals out).

Definition markBackEdges (keys : list string) (out : list (string * list GraphEdge)) : option (list string) :=
  w_back <$> foldl (fun ow start => w ← ow; visit (walk_fuel out) out w start)
                   (Some (mkWalk [] [] [])) keys.

(** ** Columns: one past the furthest thing an issue waits on *)

Record Queue := mkQueue {
  q_indegree : list (string * Z);
  q_layer : list (string * Z);
  q_queue : list string;
}.

(** What the inner loop does for one edge out of [k]. *)
Definition relax (k : string) (q : Queue) (to : string) : Queue :=
  let layer := jset (q_layer q) to
                 (Z.max (default 0 (jget (q_layer q) to)) (default 0 (jget (q_layer q) k) + 1)) in
  let left := default 0 (jget (q_indegree q) to) - 1 in
  mkQueue (jset (q_indegree q) to left) layer
          (if left =? 0 then q_queue q ++ [to] else q_queue q).

Definition queue_step (out : list (string * list string)) (q : Queue) : Queue :=
  match q_queue q with
  | [] => q
  | k :: rest =>
      foldl (relax k) (mkQueue (q_indegree q) (q_layer q) rest) (default [] (jget out k))
  end.

Fixpoint drain (fuel : nat) (out : list (string * list string)) (q : Queue) : option Queue :=
  match q_queue q with
  | [] => Some q
  | _ => match fuel with O => None | S f => drain f out (queue_step out q) end
  end.

(** How many edges come into each key, and where each key's edges lead. *)
Definition indegrees (keys : list string) (forward : list GraphEdge) : list (string * Z) :=
  foldl (fun m e => jset m (edge_to e) (default 0 (jget m (edge_to e)) + 1))
        (map (fun k => (k, 0)) keys) forward.

Definition targets (keys : list string) (forward : list GraphEdge) : list (string * list string) :=
  push_all edge_from edge_to (map (fun k => (k, [])) keys) forward.

(** Every key leaves the queue at most once, so a turn for each is enough. *)
Definition layers (keys : list string) (forward : list GraphEdge) : option (list (string * Z)) :=
  let indegree := indegrees keys forward in
  let queue := filter (fun k => jget indegree k = Some 0) keys in
  let layer := foldl (fun m k => jset m k 0) [] queue in
  q_layer <$> drain (length keys) (targets keys forward) (mkQueue indegree layer queue).

(** ** Rows: by key at first, then pulled towards what each issue waits on *)

Definition Columns := list (Z * list string).

(** [list.forEach((key, row) => rowOf.set(key, row))]. *)
Definition settle_column (rowOf : list (string * Z)) (l : list string) : list (string * Z) :=
  foldl (fun m e => jset m e.1 e.2) rowOf (imap (fun row key => (key, Z.of_nat row)) l).

Definition average_row (preds : list (string * list string)) (rowOf : list (string * Z)) (key : string) : Q :=
  match default [] (jget preds key) with
  | [] => inject_Z (default 0 (jget rowOf key))
  | above =>
      let sum := foldl (fun sum p => sum + default 0 (jget rowOf p)) 0 above in
      (inject_Z sum / inject_Z (Z.of_nat (length above)))%Q
  end.

Definition sweep_column `{Collation} (preds : list (string * list string))
    (st : Columns * list (string * Z)) (column : Z) : Columns * list (string * Z) :=
  match jget st.1 column with
  | None => st
  | Some l =>
      let l' := sort_by (cmp_or (cmp_on (average_row preds st.2) q_sub) keyOrder) l in
      (jset st.1 column l', settle_column st.2 l')
  end.

Definition first_columns `{Collation} (layer : list (string * Z)) : Columns :=
  map (fun c => (c.1, sort_by keyOrder (map fst c.2))) (group_by snd layer).

Definition predecessors (forward : list GraphEdge) : list (string * list string) :=
  map (fun c => (c.1, map edge_from c.2)) (group_by edge_to forward).

Definition settle (columns : Columns) : list (string * Z) :=
  foldl (fun m c => settle_column m c.2) [] columns.

Definition sweep `{Collation} (preds : list (string * list string)) (depth : Z)
    (st : Columns * list (string * Z)) : Columns * list (string * Z) :=
  foldl (sweep_column preds) st (map Z.of_nat (seq 1 (Z.to_nat depth))).

Definition place_columns (columns : Columns) : list (string * (Z * Z)) :=
  foldl (fun out c =>
           foldl (fun m e => jset m e.1 e.2) out (imap (fun row key => (key, (c.1, Z.of_nat row))) c.2))
        [] columns.

Definition order `{Collation} (layer : list (string * Z)) (forward : list GraphEdge)
    : list (string * (Z * Z)) :=
  let columns := first_columns layer in
  let preds := predecessors forward in
  let depth := foldl Z.max (-1) (jkeys columns) in
  place_columns (sweep preds depth (sweep preds depth (columns, settle columns))).1.

(** ** The whole picture *)

Record LaidEdge := mkLaidEdge {
  laid_edge : GraphEdge;
  laid_path : string;
  laid_handle : Point;
  laid_cycle : bool;
}.

Record GraphLayout := mkGraphLayout {
  gl_nodes : list (string * Rect);
  gl_edges : list LaidEdge;
  gl_width : Z;
  gl_height : Z;
  gl_unlinkedTop : option Z;
}.

Definition linked_rect (at_ : Z * Z) : Rect :=
  mkRect (GRAPH_ORIGIN + at_.1 * (GRAPH_NODE_WIDTH + GRAPH_COLUMN_GAP))
         (GRAPH_ORIGIN + at_.2 * (GRAPH_NODE_HEIGHT + GRAPH_ROW_GAP))
         GRAPH_NODE_WIDTH GRAPH_NODE_HEIGHT.

Definition unlinked_rect (unlinkedTop perRow i : Z) : Rect :=
  mkRect (GRAPH_ORIGIN + (i mod perRow) * (GRAPH_NODE_WIDTH + GRAPH_ROW_GAP))
         (unlinkedTop + GRAPH_SECTION_GAP / 2 + (i / perRow) * (GRAPH_NODE_HEIGHT + GRAPH_ROW_GAP))
         GRAPH_NODE_WIDTH GRAPH_NODE_HEIGHT.

(** The edges both of whose ends are on the page. *)
Definition usable_edges (keys : list string) (edges : list GraphEdge) : list GraphEdge :=
  filter (fun e => edge_from e ∈ keys ∧ edge_to e ∈ keys ∧ edge_from e ≠ edge_to e) edges.

Definition out_edges `{Collation} (keys : list string) (usable : list GraphEdge)
    : list (string * list GraphEdge) :=
  let out := push_all edge_from id (map (fun k => (k, [])) keys) usable in
  map (fun c => (c.1, sort_by (cmp_on edge_to keyOrder) c.2)) out.

(** The edges the layering keeps, and the ends of all that are drawn. *)
Definition forward_edges (back : list string) (usable : list GraphEdge) : list GraphEdge :=
  filter (fun e => edge_id e ∉ back) usable.

Definition linked_keys (usable : list GraphEdge) : list string :=
  foldl (fun s e => set_add (set_add s (edge_from e)) (edge_to e)) [] usable.

Definition place_linked (rows : list (string * (Z * Z))) : list (string * Rect) :=
  jof (map (fun c => (c.1, linked_rect c.2)) rows).

Definition place_unlinked (unlinkedTop perRow : Z) (rects : list (string * Rect)) (unlinked : list string)
    : list (string * Rect) :=
  foldl (fun m e => jset m e.1 e.2) rects
    (imap (fun i key => (key, unlinked_rect unlinkedTop perRow (Z.of_nat i))) unlinked).

Definition no_rect : Rect := mkRect 0 0 0 0.

Definition layoutGraph `{Collation} `{MathHypot} (nodes : list string) (edges : list GraphEdge) (opt_columns : Z)
    : option GraphLayout :=
  let keys := sort_by keyOrder (set_of nodes) in
  let usable := usable_edges keys edges in
  back ← markBackEdges keys (out_edges keys usable);
  let forward := forward_edges back usable in
  let linked := linked_keys usable in
  layer ← layers (filter (fun k => k ∈ linked) keys) forward;
  let rows := order layer forward in
  let rowsUsed := foldl (fun m '(_, at_) => Z.max m (at_.2 + 1)) 0 (rows : list (string * (Z * Z))) in
  let unlinked := filter (fun k => k ∉ linked) keys in
  let perRow := Z.max GRAPH_MIN_GRID_COLUMNS opt_columns in
  let top := if 0 <? rowsUsed
             then GRAPH_ORIGIN + rowsUsed * (GRAPH_NODE_HEIGHT + GRAPH_ROW_GAP) + GRAPH_SECTION_GAP
             else GRAPH_ORIGIN in
  let unlinkedTop := if (0 <? length unlinked)%nat then Some top else None in
  let rects := place_unlinked top perRow (place_linked rows) unlinked in
  let bent := bends ((fun e => mkConnection (edge_id e) (edge_from e) (edge_to e)) <$> usable) GRAPH_EDGE_BEND in
  let rect_of k := default no_rect (jget rects k) in
  let laid := (fun e =>
    let shape := edgeShape (rect_of (edge_from e)) (rect_of (edge_to e)) (default 0 (jget bent (edge_id e))) in
    mkLaidEdge e (path shape) (label shape) (bool_decide (edge_id e ∈ back))) <$> usable in
  let right := foldl Z.max GRAPH_ORIGIN ((fun r => rx r + rwidth r) <$> jvals rects) in
  let bottom := foldl Z.max GRAPH_ORIGIN ((fun r => ry r + rheight r) <$> jvals rects) in
  Some (mkGraphLayout rects laid (right + GRAPH_ORIGIN) (bottom + GRAPH_ORIGIN) unlinkedTop).
