(* ===== verification/PlanGraphCycles.v ===== *)
(** The depth-first walk of [PlanGraph]: it always ends, what it leaves has no
    circle, and it marks nothing in a graph that had none. *)

From Stdlib Require Import ZArith Lia String.
From stdpp Require Import base sets list strings relations.
From S2P Require Import Prelude PlanGraph.

Section Walk.
Variable out : list (string * list GraphEdge).

Abbreviation outs k := (default [] (jget out k)).

(** One edge of the graph, and one of those that were not marked. *)
Definition leads (a b : string) : Prop := ∃ e, e ∈ outs a ∧ edge_to e = b.
Definition leads_forward (back : list string) (a b : string) : Prop :=
  ∃ e, e ∈ outs a ∧ edge_to e = b ∧ edge_id e ∉ back.

(** An order in which every edge that is not marked leads further on. *)
Definition forward_order (back fin : list string) : Prop :=
  ∀ l1 k l2, fin = l1 ++ k :: l2 → ∀ e, e ∈ outs k → edge_id e ∈ back ∨ edge_to e ∈ l2.

(** What is known of the frames, the one above each given: an edge already
    taken is marked, leads to a finished issue, or to the frame above. *)
Fixpoint frames_ok (back fin : list string) (above : option string) (stack : list (string * nat)) : Prop :=
  match stack with
  | [] => True
  | (k, n) :: rest =>
      (∀ i e, (i < n)%nat → outs k !! i = Some e →
         edge_id e ∈ back ∨ edge_to e ∈ fin ∨ above = Some (edge_to e)) ∧
      (∀ a, above = Some a → leads k a) ∧
      frames_ok back fin (Some k) rest
  end.

Record walk_inv (w : Walk) (fin : list string) : Prop := {
  wi_stack : NoDup (w_stack w).*1;
  wi_fin : NoDup fin;
  wi_open k : jget (w_state w) k = Some MarkOpen ↔ k ∈ (w_stack w).*1;
  wi_done k : jget (w_state w) k = Some MarkDone ↔ k ∈ fin;
  wi_known k : k ∈ jkeys (w_state w) → k ∈ jkeys out;
  wi_order : forward_order (w_back w) fin;
  wi_frames : frames_ok (w_back w) fin None (w_stack w);
  wi_back id : id ∈ w_back w → ∃ k e, e ∈ outs k ∧ edge_id e = id ∧ rtc leads (edge_to e) k;
}.

Lemma frames_ok_mono back back' fin fin' above stack :
  back ⊆ back' → fin ⊆ fin' → frames_ok back fin above stack → frames_ok back' fin' above stack.
Proof.
  intros Hb Hf. revert above. induction stack as [|[k n] rest IH]; intros above; [done|].
  intros (H1 & H2 & H3). split_and!; [|done|by apply IH].
  intros i e Hi He. destruct (H1 i e Hi He) as [|[|]]; auto.
Qed.

Lemma forward_order_mono back back' fin :
  back ⊆ back' → forward_order back fin → forward_order back' fin.
Proof. intros Hb H l1 k l2 E e He. destruct (H l1 k l2 E e He); auto. Qed.

(** From any open frame the walk leads to the top one. *)
Lemma frames_reach back fin above stack a :
  frames_ok back fin above stack → above = Some a →
  ∀ k, k ∈ stack.*1 → tc leads k a.
Proof.
  revert above a. induction stack as [|[k0 n] rest IH]; intros above a; csimpl; [set_solver|].
  intros (_ & H2 & H3) Ha k [->|Hk]%elem_of_cons; [by apply tc_once, H2|].
  eapply tc_r; [by eapply (IH (Some k0))|by apply H2].
Qed.

Lemma top_reach back fin k n rest k' :
  frames_ok back fin None ((k, n) :: rest) → k' ∈ ((k, n) :: rest).*1 → rtc leads k' k.
Proof.
  intros (_ & _ & H3). csimpl. intros [->|Hk]%elem_of_cons; [done|].
  by eapply tc_rtc, frames_reach.
Qed.

Hypothesis closed : ∀ k e, e ∈ outs k → edge_to e ∈ jkeys out.

Lemma walk_inv_step w fin :
  walk_inv w fin → w_stack w ≠ [] → ∃ fin', walk_inv (walk_step out w) fin'.
Proof.
  destruct w as [state back stack]. intros [HS HF HO HD HK HR HFr HB]. simpl in *.
  destruct stack as [|[key next] rest]; [done|intros _].
  unfold walk_step; cbn [w_stack w_state w_back].
  csimpl in *. apply NoDup_cons in HS as [Hkey HS]. destruct HFr as (H1 & H2 & H3).
  destruct (outs key !! next) as [edge|] eqn:Hnext.
  - assert (edge ∈ outs key) as Hin by (by eapply list_elem_of_lookup_2).
    destruct (jget state (edge_to edge)) as [[|]|] eqn:Hto.
    + (* the edge closes a circle *)
      exists fin. split; cbn [w_stack w_state w_back]; csimpl;
        [by constructor|done|done|done|done| | |].
      * eapply forward_order_mono; [|done]. intros x. rewrite elem_of_set_add. auto.
      * split_and!; [|done|eapply frames_ok_mono; [|done|done]].
        -- intros i e Hi He. destruct (decide (i = next)) as [->|].
           ++ left. rewrite elem_of_set_add. left. congruence.
           ++ destruct (H1 i e ltac:(lia) He) as [|[|]]; [left|by right; left|done].
              rewrite elem_of_set_add; auto.
        -- intros x. rewrite elem_of_set_add. auto.
      * intros id. rewrite elem_of_set_add. intros [->|?]; [|by apply HB].
        exists key, edge. split_and!; [done|done|].
        eapply (top_reach back fin key next rest); [done|by apply HO].
    + (* it leads to a finished issue *)
      exists fin. split; cbn [w_stack w_state w_back]; csimpl; auto; [by constructor|].
      split_and!; [|done|done]. intros i e Hi He. destruct (decide (i = next)) as [->|].
      * right. left. apply HD. congruence.
      * apply (H1 i e); [lia|done].
    + (* it opens another *)
      assert (edge_to edge ∉ key :: rest.*1) as Hfresh by (rewrite <- HO; congruence).
      exists fin. split; cbn [w_stack w_state w_back]; csimpl.
      * apply NoDup_cons. split; [done|by apply NoDup_cons].
      * done.
      * intros k. rewrite jget_jset, elem_of_cons. case_decide as E; [naive_solver|].
        rewrite HO. naive_solver.
      * intros k. rewrite jget_jset. case_decide as E; [|done].
        subst k. rewrite <- HD, Hto. naive_solver.
      * intros k. rewrite elem_of_jkeys_jset. intros [->|?]; eauto.
      * done.
      * split_and!; [intros; lia|done| |intros a [= <-]; by exists edge|done].
        intros i e Hi He. destruct (decide (i = next)) as [->|].
        -- right. right. congruence.
        -- destruct (H1 i e ltac:(lia) He) as [|[|]]; [by left|by right; left|done].
      * done.
  - (* nothing left to take *)
    assert (key ∉ fin) as Hkf.
    { rewrite <- HD. assert (jget state key = Some MarkOpen) as -> by (apply HO; set_solver). done. }
    exists (key :: fin). split; cbn [w_stack w_state w_back]; csimpl.
    + done.
    + by constructor.
    + intros k. rewrite jget_jset. case_decide as E; [naive_solver|]. rewrite HO. set_solver.
    + intros k. rewrite jget_jset, elem_of_cons. case_decide as E; [naive_solver|].
      rewrite HD. naive_solver.
    + intros k. rewrite elem_of_jkeys_jset. intros [->|?]; [|eauto].
      apply HK, jget_key. assert (jget state key = Some MarkOpen) as -> by (apply HO; set_solver). eauto.
    + intros l1 k l2 E e He. destruct l1 as [|x l1]; simplify_eq/=; [|by eapply HR].
      apply list_elem_of_lookup in He as [i Hi].
      destruct (H1 i e) as [|[|]]; [|done|by left|by right|done].
      apply lookup_lt_Some in Hi. apply lookup_ge_None in Hnext. lia.
    + clear - H3. destruct rest as [|[k n] rest]; [done|]. destruct H3 as (G1 & G2 & G3).
      split_and!; [|done|eapply frames_ok_mono; [done| |done]; set_solver].
      intros i e Hi He. destruct (G1 i e Hi He) as [|[|[= ->]]]; set_solver.
    + done.
Qed.

(** ** The loop ends *)

(** The turns left: one for every key not yet opened and each of its edges, and
    for every open frame what it has still to take. *)
Definition unopened (state : list (string * Mark)) (o : list (string * list GraphEdge)) : nat :=
  sum_list_with (fun '(k, es) => if decide (k ∈ jkeys state) then O else S (length es)) o.

Definition left_over (stack : list (string * nat)) : nat :=
  sum_list_with (fun '(k, n) => S (length (outs k) - n)) stack.

Lemma unopened_mono state k mark o : (unopened (jset state k mark) o <= unopened state o)%nat.
Proof.
  induction o as [|[k' es] o IH]; simpl; [lia|].
  pose proof (elem_of_jkeys_jset state k k' mark). repeat case_decide; naive_solver lia.
Qed.

Lemma unopened_open state k mark o es :
  k ∉ jkeys state → NoDup (jkeys o) → jget o k = Some es →
  (unopened (jset state k mark) o + S (length es) <= unopened state o)%nat.
Proof.
  intros Hk HND. induction o as [|[k' es'] o IH]; simpl; [done|].
  apply NoDup_cons in HND as [Hk' HND].
  pose proof (unopened_mono state k mark o) as Hm.
  pose proof (elem_of_jkeys_jset state k k' mark) as Hset.
  destruct (decide (k' = k)) as [->|Hne].
  - intros [= ->]. rewrite !decide_True, decide_False by naive_solver. lia.
  - intros Hget. specialize (IH HND Hget).
    destruct (decide (k' ∈ jkeys state)), (decide (k' ∈ jkeys (jset state k mark))); naive_solver lia.
Qed.

Hypothesis keys_once : NoDup (jkeys out).

Lemma walk_step_decreases w fin :
  walk_inv w fin → w_stack w ≠ [] →
  (unopened (w_state (walk_step out w)) out + left_over (w_stack (walk_step out w)) <
   unopened (w_state w) out + left_over (w_stack w))%nat.
Proof.
  destruct w as [state back stack]. intros [HS HF HO HD HK HR HFr HB]. simpl in *.
  destruct stack as [|[key next] rest]; [done|intros _].
  unfold walk_step; cbn [w_stack w_state w_back].
  destruct (outs key !! next) as [edge|] eqn:Hnext.
  - pose proof (lookup_lt_Some _ _ _ Hnext) as Hlt.
    assert (edge_to edge ∈ jkeys out) as [es Hes]%jget_key
      by (eapply closed, list_elem_of_lookup_2, Hnext).
    destruct (jget state (edge_to edge)) as [[|]|] eqn:Hto; cbn [w_stack w_state]; simpl; [lia|lia|].
    pose proof (unopened_open state (edge_to edge) MarkOpen out es
                  ltac:(by apply jget_None) keys_once Hes).
    rewrite Hes. simpl. lia.
  - cbn [w_stack w_state]. simpl. pose proof (unopened_mono state key MarkDone out). lia.
Qed.

Lemma walk_total fuel w fin :
  walk_inv w fin → (unopened (w_state w) out + left_over (w_stack w) <= fuel)%nat →
  ∃ w' fin', walk fuel out w = Some w' ∧ walk_inv w' fin' ∧ w_stack w' = [] ∧
             (∀ k, k ∈ jkeys (w_state w) → k ∈ jkeys (w_state w')).
Proof.
  revert w fin. induction fuel as [|fuel IH]; intros w fin Hw Hf.
  - exists w, fin. destruct (w_stack w) as [|[k n] rest] eqn:E; simpl in *; [|lia].
    rewrite E. done.
  - destruct (w_stack w) as [|fr rest] eqn:E.
    { exists w, fin. simpl. rewrite E. done. }
    assert (w_stack w ≠ []) as Hne by congruence.
    destruct (walk_inv_step w fin Hw Hne) as [fin1 Hw1].
    pose proof (walk_step_decreases w fin Hw Hne) as Hlt. rewrite E in Hlt.
    destruct (IH _ _ Hw1) as (w' & fin' & H1 & H2 & H3 & H4); [lia|].
    exists w', fin'. split_and!; [|done|done|].
    { simpl. rewrite E. done. }
    intros k Hk. apply H4. unfold walk_step. rewrite E. destruct fr as [key next].
    repeat case_match; cbn [w_state]; rewrite ?elem_of_jkeys_jset; auto.
Qed.

Lemma unopened_all state : (unopened state out <= walk_fuel out)%nat.
Proof.
  unfold walk_fuel, unopened. clear. induction out as [|[k es] o IH]; simpl; [lia|]. case_decide; simpl; lia.
Qed.

Lemma visit_total w fin start :
  walk_inv w fin → w_stack w = [] → start ∈ jkeys out →
  ∃ w' fin', visit (walk_fuel out) out w start = Some w' ∧ walk_inv w' fin' ∧ w_stack w' = [] ∧
             start ∈ jkeys (w_state w') ∧ (∀ k, k ∈ jkeys (w_state w) → k ∈ jkeys (w_state w')).
Proof.
  destruct w as [state back stack]. intros Hw Hst Hs. simpl in Hst. subst stack.
  unfold visit. cbn [w_state w_back].
  destruct (jhas state start) eqn:Hhas.
  { apply jhas_true in Hhas. exists (mkWalk state back []), fin. done. }
  apply jhas_false in Hhas. destruct Hw as [HS HF HO HD HK HR HFr HB]; cbn [w_state w_back w_stack] in *.
  apply jget_key in Hs as [es Hes].
  destruct (walk_total (walk_fuel out) (mkWalk (jset state start MarkOpen) back [(start, O)]) fin)
    as (w' & fin' & H1 & H2 & H3 & H4).
  - split; cbn [w_state w_back w_stack]; csimpl; try done.
    + apply NoDup_singleton.
    + intros k. rewrite jget_jset, list_elem_of_singleton. case_decide; [naive_solver|].
      rewrite HO. csimpl. set_solver.
    + intros k. rewrite jget_jset. case_decide as E; [|done]. subst k.
      rewrite <- HD. apply jget_None in Hhas. rewrite Hhas. naive_solver.
    + intros k. rewrite elem_of_jkeys_jset. intros [->|]; [apply jget_key; eauto|auto].
    + split_and!; [intros; lia|done|done].
  - cbn [w_state w_stack left_over]. simpl. rewrite Hes. simpl.
    pose proof (unopened_open state start MarkOpen out es Hhas keys_once Hes).
    pose proof (unopened_all state). lia.
  - exists w', fin'. split_and!; [done|done|done| |].
    + apply H4. cbn [w_state]. rewrite elem_of_jkeys_jset. auto.
    + intros k Hk. apply H4. cbn [w_state]. rewrite elem_of_jkeys_jset. auto.
Qed.

Lemma visit_all keys w fin :
  walk_inv w fin → w_stack w = [] → keys ⊆ jkeys out →
  ∃ w' fin', foldl (fun ow start => w ← ow; visit (walk_fuel out) out w start) (Some w) keys = Some w' ∧
             walk_inv w' fin' ∧ w_stack w' = [] ∧
             (∀ k, k ∈ keys ∨ k ∈ jkeys (w_state w) → k ∈ jkeys (w_state w')).
Proof.
  revert w fin. induction keys as [|k keys IH]; intros w fin Hw Hst Hk.
  { exists w, fin. split_and!; [done|done|done|set_solver]. }
  destruct (visit_total w fin k Hw Hst) as (w1 & fin1 & H1 & H2 & H3 & H4 & H5); [set_solver|].
  destruct (IH w1 fin1 H2 H3) as (w' & fin' & G1 & G2 & G3 & G4); [set_solver|].
  exists w', fin'. split_and!; [|done|done|].
  - cbn [foldl]. change (mbind _ (Some w)) with (visit (walk_fuel out) out w k). by rewrite H1.
  - intros k'. rewrite elem_of_cons. naive_solver.
Qed.

Lemma walk_inv_start : walk_inv (mkWalk [] [] []) [].
Proof.
  split; cbn [w_state w_back w_stack]; csimpl; [constructor|constructor| | | | |done|].
  - intros k. split; [done|set_solver].
  - intros k. split; [done|set_solver].
  - set_solver.
  - intros l1 k l2 E. by destruct l1.
  - set_solver.
Qed.

(** The walk ends on its own, and puts the issues in an order in which every
    edge it did not mark leads on; and it marks only edges of a circle. *)
Lemma markBackEdges_spec keys :
  keys ⊆ jkeys out →
  ∃ back fin, markBackEdges keys out = Some back ∧ NoDup fin ∧ keys ⊆ fin ∧ forward_order back fin ∧
    (∀ id, id ∈ back → ∃ k e, e ∈ outs k ∧ edge_id e = id ∧ rtc leads (edge_to e) k).
Proof.
  intros Hk.
  destruct (visit_all keys _ _ walk_inv_start eq_refl Hk) as (w & fin & H1 & H2 & H3 & H4).
  exists (w_back w), fin. destruct H2 as [HS HF HO HD HK HR HFr HB].
  split_and!; [|done| |done|done].
  { unfold markBackEdges. by rewrite H1. }
  intros k Hin. apply HD. assert (k ∈ jkeys (w_state w)) as [[|] Hm]%jget_key by auto; [|done].
  apply HO in Hm. rewrite H3 in Hm. csimpl in *. set_solver.
Qed.

(** An order that every forward edge follows leaves no circle. *)
Lemma forward_order_acyclic back fin k :
  NoDup fin → forward_order back fin → k ∈ fin → ¬ tc (leads_forward back) k k.
Proof using Type.
  clear closed keys_once.
  intros HND Hord Hk.
  assert (∀ a b, tc (leads_forward back) a b → ∀ l1 l2, fin = l1 ++ a :: l2 → b ∈ l2) as Hon.
  { induction 1 as [a b (e & He & Hb & Hid)|a b c (e & He & Hb & Hid) _ IH]; intros p q E.
    - destruct (Hord p a q E e He); [done|congruence].
    - destruct (Hord p a q E e He) as [|Hin]; [done|]. rewrite Hb in Hin.
      apply list_elem_of_split in Hin as (m1 & m2 & ->).
      rewrite app_comm_cons, app_assoc in E. specialize (IH _ _ E). set_solver. }
  intros Hc. apply list_elem_of_split in Hk as (l1 & l2 & E).
  pose proof (Hon k k Hc l1 l2 E). subst fin. apply NoDup_app in HND as (_ & _ & HND).
  apply NoDup_cons in HND as [? _]. done.
Qed.
End Walk.
