(* ===== verification/PlanGraphLayers.v ===== *)
(** Kahn's queue in [PlanGraph]: on edges without a circle it ends having given
    every issue a column, one past the furthest thing the issue waits on. *)

From Stdlib Require Import ZArith Lia String.
From stdpp Require Import base sets list strings relations.
From S2P Require Import Prelude PlanGraph.

Open Scope Z_scope.

(** How many of some edges lead into an issue. *)
Definition into (k : string) (es : list GraphEdge) : Z :=
  Z.of_nat (length (filter (fun e => edge_to e = k) es)).

Lemma into_cons k e es : into k (e :: es) = (if decide (edge_to e = k) then 1 else 0) + into k es.
Proof. unfold into. rewrite filter_cons. case_decide; simpl; lia. Qed.

Lemma into_app k es1 es2 : into k (es1 ++ es2) = into k es1 + into k es2.
Proof. unfold into. rewrite filter_app, length_app. lia. Qed.

Lemma into_nonneg k es : 0 <= into k es.
Proof. unfold into. lia. Qed.

#[export] Instance into_Permutation k : Proper ((≡ₚ) ==> (=)) (into k).
Proof. intros es1 es2 H. unfold into. by rewrite H. Qed.

Lemma into_0 k es : into k es = 0 ↔ ∀ e, e ∈ es → edge_to e ≠ k.
Proof.
  induction es as [|e es IH]; [unfold into; simpl; set_solver|].
  rewrite into_cons. pose proof (into_nonneg k es). case_decide as E.
  - split; [lia|]. intros Hall. exfalso. apply (Hall e); [left|done].
  - rewrite Z.add_0_l, IH. split; [|set_solver].
    intros Hall e'. rewrite elem_of_cons. intros [->|]; auto.
Qed.

Lemma indegrees_lookup keys forward k :
  k ∈ keys → jget (indegrees keys forward) k = Some (into k forward).
Proof.
  intros Hk. unfold indegrees.
  assert (∀ m d, jget m k = Some d →
    jget (foldl (fun m e => jset m (edge_to e) (default 0 (jget m (edge_to e)) + 1)) m forward) k =
      Some (d + into k forward)) as Hgen.
  { induction forward as [|e es IH]; intros m d Hd; simpl.
    - rewrite Hd. unfold into. simpl. f_equal. lia.
    - rewrite into_cons. case_decide as E.
      + subst k. rewrite (IH _ (d + 1)); [f_equal; lia|]. by rewrite jget_jset_eq, Hd.
      + rewrite (IH _ d); [f_equal; lia|]. by rewrite jget_jset_ne. }
  rewrite (Hgen _ 0); [done|]. by rewrite jget_const, decide_True.
Qed.

Lemma targets_lookup keys forward k :
  default [] (jget (targets keys forward) k) =
    edge_to <$> filter (fun e => edge_from e = k) forward.
Proof.
  unfold targets. rewrite jget_push_all, jget_const. by case_decide.
Qed.

Section Kahn.
Variable keys : list string.
Variable forward : list GraphEdge.
Hypothesis keys_once : NoDup keys.
Hypothesis ends_known : ∀ e, e ∈ forward → edge_from e ∈ keys ∧ edge_to e ∈ keys.

Abbreviation lay q k := (default 0 (jget (q_layer q) k)).

(** [P] the issues taken off the queue, [D] the edges relaxed, [R] the others. *)
Record kahn_inv (P : list string) (D R : list GraphEdge) (q : Queue) : Prop := {
  ki_once : NoDup (P ++ q_queue q);
  ki_keys k : k ∈ P ++ q_queue q ↔ k ∈ keys ∧ into k R = 0;
  ki_edges e : e ∈ D ∨ e ∈ R ↔ e ∈ forward;
  ki_degree k : k ∈ keys → jget (q_indegree q) k = Some (into k R);
  ki_from e : e ∈ D → edge_from e ∈ P;
  ki_set k : k ∈ keys → into k R = 0 ∨ (∃ e, e ∈ D ∧ edge_to e = k) → is_Some (jget (q_layer q) k);
  ki_nonneg k : 0 <= lay q k;
  ki_past e : e ∈ D → lay q (edge_from e) + 1 <= lay q (edge_to e);
  ki_tight k : lay q k = 0 ∨ ∃ e, e ∈ D ∧ edge_to e = k ∧ lay q k = lay q (edge_from e) + 1;
}.

Lemma relax_inv P D R q e :
  kahn_inv P D (e :: R) q → edge_from e ∈ P → kahn_inv P (D ++ [e]) R (relax (edge_from e) q (edge_to e)).
Proof.
  intros [HO HK HE HD HF HS HN HP HT] Hfrom.
  assert (e ∈ forward) as Hef by (apply HE; right; left).
  destruct (ends_known e Hef) as [Hfk Htk].
  (* the issue the edge leads to is neither taken nor queued *)
  assert (edge_to e ∉ P ++ q_queue q) as Hnew.
  { rewrite HK, into_cons, decide_True by done. pose proof (into_nonneg (edge_to e) R). lia. }
  assert (∀ k, k ∈ P → edge_to e ≠ k) as Hloop
    by (intros k Hk <-; apply Hnew, elem_of_app; by left).
  assert (∀ k, k ∈ P → lay (relax (edge_from e) q (edge_to e)) k = lay q k) as Hsame.
  { intros k Hk. unfold relax. cbn [q_layer]. rewrite jget_jset_ne by auto. done. }
  set (t := edge_to e) in *. set (f := edge_from e) in *.
  assert (lay (relax f q t) t = Z.max (lay q t) (lay q f + 1)) as Hlt.
  { unfold relax. cbn [q_layer]. by rewrite jget_jset_eq. }
  assert (∀ k, k ≠ t → lay (relax f q t) k = lay q k) as Hother.
  { intros k Hk. unfold relax. cbn [q_layer]. by rewrite jget_jset_ne. }
  assert (default 0 (jget (q_indegree q) t) - 1 = into t R) as Hdeg.
  { rewrite (HD t Htk), into_cons. rewrite decide_True by done. simpl. lia. }
  assert (∀ k, into k (e :: R) = (if decide (t = k) then 1 else 0) + into k R) as Hinto
    by (intros; apply into_cons).
  assert (q_queue (relax f q t) = if into t R =? 0 then q_queue q ++ [t] else q_queue q) as Hq.
  { unfold relax. cbn [q_queue]. by rewrite Hdeg. }
  split.
  - rewrite Hq. case_match; [|done]. rewrite app_assoc. apply NoDup_app.
    split_and!; [done| |apply NoDup_singleton].
    intros k Hk ->%list_elem_of_singleton. done.
  - intros k. rewrite Hq. specialize (HK k). rewrite Hinto in HK.
    destruct (Z.eqb_spec (into t R) 0) as [E0|E0]; destruct (decide (t = k)) as [<-|Hk].
    + split; [done|]. intros _. rewrite app_assoc. apply elem_of_app. right. by apply list_elem_of_singleton.
    + rewrite app_assoc, elem_of_app, list_elem_of_singleton, HK. intuition congruence.
    + split; [done|]. intros [_ ?]. done.
    + rewrite HK. done.
  - intros e'. rewrite <- HE, elem_of_app, list_elem_of_singleton, elem_of_cons. tauto.
  - intros k Hk. unfold relax. cbn [q_indegree]. rewrite jget_jset. case_decide as E.
    + subst k. f_equal. exact Hdeg.
    + rewrite HD, Hinto by done. by rewrite decide_False.
  - intros e'. rewrite elem_of_app, list_elem_of_singleton. intros [?| ->]; auto.
  - intros k Hk Hor. unfold relax. cbn [q_layer]. rewrite jget_jset. case_decide as E; [eauto|].
    apply HS; [done|]. rewrite Hinto, decide_False by done.
    destruct Hor as [?|(e' & [?| ->%list_elem_of_singleton]%elem_of_app & Hto)]; [auto|eauto|done].
  - intros k. destruct (decide (k = t)) as [->|Hk]; [rewrite Hlt|by rewrite Hother].
    pose proof (HN t). lia.
  - intros e'. rewrite elem_of_app, list_elem_of_singleton. intros [He'| ->].
    + rewrite (Hsame _ (HF _ He')). pose proof (HP e' He').
      destruct (decide (edge_to e' = t)) as [Et|Et]; [rewrite Et in *; rewrite Hlt; lia|by rewrite Hother].
    + fold f t. rewrite Hlt, (Hsame f Hfrom). lia.
  - intros k. destruct (decide (k = t)) as [->|Hk].
    + rewrite Hlt. destruct (Z.max_spec (lay q t) (lay q f + 1)) as [[? ->]|[? ->]].
      * right. exists e. fold f. rewrite (Hsame f Hfrom). split_and!; [apply elem_of_app; first [by left|by right; apply list_elem_of_singleton]|done|done].
      * destruct (HT t) as [->|(e' & H1 & H2 & H3)]; [by left|].
        right. exists e'. rewrite (Hsame _ (HF _ H1)). split_and!; [apply elem_of_app; first [by left|by right; apply list_elem_of_singleton]|done|done].
    + rewrite Hother by done. destruct (HT k) as [->|(e' & H1 & H2 & H3)]; [by left|].
      right. exists e'. rewrite (Hsame _ (HF _ H1)). split_and!; [apply elem_of_app; first [by left|by right; apply list_elem_of_singleton]|done|done].
Qed.

Lemma kahn_inv_Permutation P D R R' q : R ≡ₚ R' → kahn_inv P D R q → kahn_inv P D R' q.
Proof.
  intros HR [HO HK HE HD HF HS HN HP HT].
  split; try done; intros *; rewrite <- ?HR; auto.
Qed.

Lemma relax_all P D R q k todo :
  kahn_inv P D (todo ++ R) q → k ∈ P → (∀ e, e ∈ todo → edge_from e = k) →
  kahn_inv P (D ++ todo) R (foldl (relax k) q (edge_to <$> todo)).
Proof.
  revert D q. induction todo as [|e todo IH]; intros D q Hq Hk Hf; csimpl.
  - by rewrite app_nil_r.
  - assert (edge_from e = k) as Hek by (apply Hf; left).
    replace (D ++ e :: todo) with ((D ++ [e]) ++ todo) by (by rewrite <- app_assoc).
    apply IH; [|done|set_solver]. rewrite <- Hek. apply relax_inv; [done|congruence].
Qed.

(** The edges out of the issues not yet taken. *)
Definition waiting (P : list string) : list GraphEdge := filter (fun e => edge_from e ∉ P) forward.

Lemma waiting_step P k :
  k ∉ P → filter (fun e => edge_from e = k) forward ++ waiting (P ++ [k]) ≡ₚ waiting P.
Proof.
  intros Hk. unfold waiting. clear ends_known. induction forward as [|e es IH]; [done|].
  rewrite !filter_cons. destruct (decide (edge_from e = k)) as [E|E].
  - rewrite (decide_False (P := edge_from e ∉ P ++ [k])) by set_solver.
    rewrite (decide_True (P := edge_from e ∉ P)) by set_solver. simpl. by rewrite IH.
  - destruct (decide (edge_from e ∉ P)) as [Hin|Hin].
    + rewrite decide_True by set_solver. by rewrite <- Permutation_middle, IH.
    + rewrite decide_False by set_solver. done.
Qed.

Lemma queue_step_inv P D q k rest :
  kahn_inv P D (waiting P) q → q_queue q = k :: rest →
  ∃ D', kahn_inv (P ++ [k]) D' (waiting (P ++ [k])) (queue_step (targets keys forward) q).
Proof.
  intros Hq E. pose proof Hq as [HO HK HE HD HF HS HN HP HT].
  assert (k ∉ P) as HkP.
  { rewrite E in HO. apply NoDup_app in HO as (_ & HO & _). intros ?. apply (HO k); [done|left]. }
  unfold queue_step. rewrite E, targets_lookup. eexists.
  apply relax_all; [|set_solver|].
  - eapply kahn_inv_Permutation; [symmetry; by apply waiting_step|].
    split; cbn [q_queue q_layer q_indegree]; try done.
    + by rewrite E, (assoc_L (++)) in HO || (rewrite <- app_assoc; simpl; by rewrite <- E).
    + intros k'. rewrite <- app_assoc. simpl. by rewrite <- E.
    + set_solver.
  - intros e. rewrite list_elem_of_filter. tauto.
Qed.

Lemma queue_length P D R q : kahn_inv P D R q → (length P + length (q_queue q) <= length keys)%nat.
Proof.
  intros [HO HK _ _ _ _ _ _ _]. rewrite <- length_app.
  apply submseteq_length, NoDup_submseteq; [done|]. intros k Hk. by apply HK.
Qed.

Lemma drain_total fuel P D q :
  kahn_inv P D (waiting P) q → (length keys <= fuel + length P)%nat →
  ∃ P' D' q', drain fuel (targets keys forward) q = Some q' ∧ q_queue q' = [] ∧
              kahn_inv P' D' (waiting P') q'.
Proof.
  revert P D q. induction fuel as [|fuel IH]; intros P D q Hq Hf;
    destruct (q_queue q) as [|k rest] eqn:E.
  - exists P, D, q. simpl. by rewrite E.
  - pose proof (queue_length _ _ _ _ Hq) as Hl. rewrite E in Hl. simpl in Hl. lia.
  - exists P, D, q. simpl. by rewrite E.
  - destruct (queue_step_inv P D q k rest Hq E) as [D' Hq'].
    simpl. rewrite E. apply (IH (P ++ [k]) D'); [done|]. rewrite length_app. simpl. lia.
Qed.

Lemma kahn_start :
  let indegree := indegrees keys forward in
  let queue := filter (fun k => jget indegree k = Some 0) keys in
  kahn_inv [] [] (waiting []) (mkQueue indegree (foldl (fun m k => jset m k 0) [] queue) queue).
Proof.
  intros indegree queue.
  assert (waiting [] = forward) as ->.
  { unfold waiting. clear. induction forward as [|e es IH]; [done|].
    rewrite filter_cons, decide_True by set_solver. by rewrite IH. }
  assert (∀ k, k ∈ queue ↔ k ∈ keys ∧ into k forward = 0) as Hqueue.
  { intros k. unfold queue. rewrite list_elem_of_filter. split.
    - intros [Hd Hk]. unfold indegree in Hd. rewrite indegrees_lookup in Hd by done. naive_solver.
    - intros [Hk Hd]. split; [|done]. unfold indegree. rewrite indegrees_lookup by done. by f_equal. }
  assert (∀ k, k ∈ queue → jget (foldl (fun m k => jset m k 0) [] queue) k = Some 0) as Hlay.
  { clear. induction queue as [|k queue IH] using rev_ind; [set_solver|].
    intros k'. rewrite foldl_app. simpl. rewrite jget_jset. case_decide; [done|]. set_solver. }
  assert (∀ k, default 0 (jget (foldl (fun m k => jset m k 0) [] queue) k) = 0) as H0.
  { clear. induction queue as [|k queue IH] using rev_ind; [done|].
    intros k'. rewrite foldl_app. simpl. rewrite jget_jset. case_decide; done. }
  split; cbn [q_queue q_layer q_indegree].
  - simpl. unfold queue. by apply NoDup_filter.
  - done.
  - set_solver.
  - intros k Hk. by apply indegrees_lookup.
  - set_solver.
  - intros k Hk [Hd|(e & He & _)]; [|set_solver]. rewrite Hlay; [eauto|]. by apply Hqueue.
  - intros k. by rewrite H0.
  - set_solver.
  - intros k. left. apply H0.
Qed.

(** An order of the issues along which every edge leads on. *)
Variable fin : list string.
Hypothesis fin_once : NoDup fin.
Hypothesis fin_all : keys ⊆ fin.
Hypothesis fin_order : ∀ l1 k l2, fin = l1 ++ k :: l2 → ∀ e, e ∈ forward → edge_from e = k → edge_to e ∈ l2.

Lemma kahn_all P D q :
  kahn_inv P D (waiting P) q → q_queue q = [] → ∀ k, k ∈ keys → k ∈ P.
Proof.
  intros [HO HK HE HD HF HS HN HP HT] E.
  assert (∀ n l1 k l2, length l1 = n → fin = l1 ++ k :: l2 → k ∈ keys → k ∈ P) as Hn.
  { induction n as [n IH] using lt_wf_ind. intros l1 k l2 Hlen Hfin Hk.
    assert (k ∈ P ++ q_queue q) as Hin; [|by rewrite E, app_nil_r in Hin].
    apply HK. split; [done|]. apply into_0. intros e He Hto.
    unfold waiting in He. apply list_elem_of_filter in He as [Hnp He].
    destruct (ends_known e He) as [Hf _].
    pose proof (fin_all _ Hf) as Hff. apply list_elem_of_split in Hff as (m1 & m2 & Hm).
    pose proof (fin_order _ _ _ Hm e He eq_refl) as Hlater. rewrite Hto in Hlater.
    apply list_elem_of_split in Hlater as (p1 & p2 & ->).
    assert (l1 = m1 ++ edge_from e :: p1) as ->.
    { rewrite Hfin in Hm, fin_once. clear - Hm fin_once.
      apply NoDup_app in fin_once as (_ & H1 & [H2 _]%NoDup_cons).
      replace (m1 ++ edge_from e :: p1 ++ k :: p2) with ((m1 ++ edge_from e :: p1) ++ k :: p2) in Hm
        by (by rewrite <- app_assoc).
      revert H1 Hm. generalize (m1 ++ edge_from e :: p1). induction l1 as [|x l1 IH]; intros m H1 Hm.
      - destruct m as [|y m]; simplify_eq/=; [done|]. set_solver.
      - destruct m as [|y m]; simplify_eq/=; [exfalso; apply (H1 k); [left|left]|].
        f_equal. apply IH; [set_solver|done]. }
    apply Hnp, (IH (length m1)) with m1 (p1 ++ k :: p2); [|done|done|done].
    rewrite length_app in Hlen. simpl in Hlen. lia. }
  intros k Hk. pose proof (fin_all _ Hk) as (l1 & l2 & Hfin)%list_elem_of_split. eauto.
Qed.

(** Every issue gets a column; along every edge it grows; and it is no larger
    than the edges ask. *)
Lemma layers_spec :
  ∃ layer, layers keys forward = Some layer ∧
    (∀ k, k ∈ keys → is_Some (jget layer k)) ∧
    (∀ e, e ∈ forward → default 0 (jget layer (edge_from e)) + 1 <= default 0 (jget layer (edge_to e))) ∧
    (∀ k, 0 <= default 0 (jget layer k)) ∧
    (∀ k, default 0 (jget layer k) = 0 ∨ ∃ e, e ∈ forward ∧ edge_to e = k ∧
            default 0 (jget layer k) = default 0 (jget layer (edge_from e)) + 1).
Proof.
  destruct (drain_total (length keys) [] [] _ kahn_start) as (P & D & q & H1 & H2 & H3); [simpl; lia|].
  exists (q_layer q). split.
  { unfold layers. by rewrite H1. }
  pose proof (kahn_all P D q H3 H2) as Hall.
  destruct H3 as [HO HK HE HD HF HS HN HP HT].
  assert (∀ e, e ∈ forward → e ∈ D) as HDall.
  { intros e He. apply HE in He as [|He]; [done|].
    apply list_elem_of_filter in He as [Hn He]. destruct Hn. apply Hall, ends_known, He. }
  split_and!.
  - intros k Hk. apply HS; [done|]. left. apply HK. specialize (Hall k Hk). set_solver.
  - auto.
  - done.
  - intros k. destruct (HT k) as [?|(e & ? & ? & ?)]; [auto|]. right. exists e.
    split_and!; [|done|done]. apply HE. auto.
Qed.
End Kahn.

(** The columns are given to each issue once, and to no other name. *)
Section LayerKeys.
Variable keys : list string.
Variable forward : list GraphEdge.
Hypothesis ends_known : ∀ e, e ∈ forward → edge_to e ∈ keys.

Definition layer_ok (layer : list (string * Z)) : Prop := NoDup (jkeys layer) ∧ jkeys layer ⊆ keys.

Lemma layer_ok_jset layer k v : layer_ok layer → k ∈ keys → layer_ok (jset layer k v).
Proof.
  intros [H1 H2] Hk. split; [by apply NoDup_jkeys_jset|].
  intros x. rewrite elem_of_jkeys_jset. intros [->|]; auto.
Qed.

Lemma relax_layer_ok k q tos :
  layer_ok (q_layer q) → tos ⊆ keys → layer_ok (q_layer (foldl (relax k) q tos)).
Proof.
  revert q. induction tos as [|to tos IH]; intros q Hq Ht; simpl; [done|].
  apply IH; [|set_solver]. unfold relax. cbn [q_layer]. apply layer_ok_jset; [done|set_solver].
Qed.

Lemma drain_layer_ok fuel q q' :
  drain fuel (targets keys forward) q = Some q' → layer_ok (q_layer q) → layer_ok (q_layer q').
Proof.
  revert q. induction fuel as [|fuel IH]; intros q; simpl; destruct (q_queue q) as [|k rest] eqn:E;
    intros Hd Hq; simplify_eq; [done|done|]. apply (IH _ Hd).
  unfold queue_step. rewrite E, targets_lookup. apply relax_layer_ok; [done|].
  intros x (e & -> & He)%list_elem_of_fmap. apply list_elem_of_filter in He as [_ He]. auto.
Qed.

Lemma layers_keys layer : layers keys forward = Some layer → layer_ok layer.
Proof.
  unfold layers. intros (q & Hq & ->)%fmap_Some. refine (drain_layer_ok _ _ _ _ _); [done|].
  cbn [q_layer]. set (queue := filter _ _). assert (queue ⊆ keys) as Hsub.
  { intros k Hk. by apply list_elem_of_filter in Hk as [_ Hk]. }
  assert (layer_ok []) as H0 by (split; [constructor|set_solver]).
  revert H0 Hsub. generalize (@nil (string * Z)).
  induction queue as [|k queue IH]; intros m Hm Hsub; simpl; [done|].
  apply IH; [|set_solver]. apply layer_ok_jset; [done|set_solver].
Qed.
End LayerKeys.
