(* ===== verification/PlanGraphLayout.v ===== *)
(** The drawn dependency graph as a whole: every issue is on the page in a box
    of its own, and every arrow that closes no circle runs left to right. *)

From Stdlib Require Import ZArith Lia String.
From stdpp Require Import base sets list strings relations.
From S2P Require Import Prelude JsString Config LibGraph PlanGraph PlanGraphCycles PlanGraphLayers.

Open Scope Z_scope.

(** ** The edges as the walk sees them *)

Section OutEdges.
Context `{Collation}.
Variables (keys : list string) (edges : list GraphEdge).
Let usable := usable_edges keys edges.
Let out := out_edges keys usable.

Lemma elem_of_usable e :
  e ∈ usable ↔ e ∈ edges ∧ edge_from e ∈ keys ∧ edge_to e ∈ keys ∧ edge_from e ≠ edge_to e.
Proof. unfold usable, usable_edges. rewrite list_elem_of_filter. tauto. Qed.

Lemma jkeys_out k : k ∈ jkeys out ↔ k ∈ keys.
Proof.
  unfold out, out_edges. rewrite jkeys_map, jkeys_push_all, jkeys_const.
  split; [|by left]. intros [?|(e & -> & He)%list_elem_of_fmap]; [done|]. apply elem_of_usable in He. tauto.
Qed.

Lemma NoDup_jkeys_out : NoDup keys → NoDup (jkeys out).
Proof.
  intros Hk. unfold out, out_edges. rewrite jkeys_map. apply NoDup_jkeys_push_all.
  by rewrite jkeys_const.
Qed.

Lemma elem_of_outs e k : e ∈ default [] (jget out k) ↔ e ∈ usable ∧ edge_from e = k.
Proof.
  unfold out, out_edges. rewrite jget_map.
  pose proof (jget_push_all edge_from id (map (fun k => (k, [])) keys) usable k) as Hp.
  rewrite list_fmap_id in Hp.
  replace (default [] (jget (map _ keys) k)) with (@nil GraphEdge) in Hp.
  2:{ rewrite jget_const. by case_decide. }
  simpl in Hp. destruct (jget (push_all _ _ _ _) k) as [l|] eqn:E; simpl in *.
  - subst l. rewrite elem_of_sort_by, list_elem_of_filter. tauto.
  - rewrite elem_of_nil. split; [done|]. intros He.
    assert (e ∈ filter (fun e => edge_from e = k) usable) as Hf by (by apply list_elem_of_filter; split; [apply He|apply He]).
    rewrite <- Hp in Hf. by apply elem_of_nil in Hf.
Qed.

Lemma out_closed k e : e ∈ default [] (jget out k) → edge_to e ∈ jkeys out.
Proof. rewrite elem_of_outs, jkeys_out, elem_of_usable. tauto. Qed.
End OutEdges.

(** ** Columns through the sweeps *)

Definition cols_eq (a b : Columns) : Prop := Forall2 (fun x y => x.1 = y.1 ∧ x.2 ≡ₚ y.2) a b.

#[export] Instance cols_eq_equiv : Equivalence cols_eq.
Proof.
  split.
  - intros a. induction a as [|x a IH]; [constructor|constructor; [by split|done]].
  - intros a b. induction 1 as [|x y a b [H1 H2] _ IH]; [constructor|constructor; [by split|done]].
  - intros a b c Hab. revert c. induction Hab as [|x y a b [H1 H2] _ IH]; intros c Hbc;
      inversion Hbc as [|? z ? c' [H3 H4] Hrest]; subst; constructor; [|by apply IH].
    split; [congruence|by rewrite H2].
Qed.

Lemma cols_eq_jset cols c l l' :
  jget cols c = Some l → l' ≡ₚ l → cols_eq cols (jset cols c l').
Proof.
  intros Hget Hl. induction cols as [|[c0 l0] cols IH]; simpl in *; [done|].
  case_decide; simplify_eq; constructor; [by split|reflexivity|done|by apply IH].
Qed.

Lemma sweep_cols `{Collation} preds depth st : cols_eq st.1 (sweep preds depth st).1.
Proof.
  unfold sweep. generalize (map Z.of_nat (seq 1 (Z.to_nat depth))). intros cs. revert st.
  induction cs as [|c cs IH]; intros st; simpl; [reflexivity|]. rewrite <- IH.
  unfold sweep_column. destruct (jget st.1 c) as [l|] eqn:E; [|reflexivity]. simpl.
  eapply cols_eq_jset; [done|]. apply sort_by_Permutation.
Qed.

Lemma cols_eq_keys a b : cols_eq a b → jkeys a = jkeys b.
Proof. unfold jkeys. induction 1 as [|x y a b [Hxy _] _ IH]; csimpl; congruence. Qed.

Lemma cols_eq_concat a b : cols_eq a b → concat (jvals a) ≡ₚ concat (jvals b).
Proof. unfold jvals. induction 1 as [|x y a b [_ Hxy] _ IH]; csimpl; [done|]. by rewrite Hxy, IH. Qed.

Lemma cols_eq_in a b c k :
  cols_eq a b → (∃ l, (c, l) ∈ a ∧ k ∈ l) ↔ (∃ l, (c, l) ∈ b ∧ k ∈ l).
Proof.
  induction 1 as [|[c1 l1] [c2 l2] a b [H1 H2] _ IH]; [set_solver|]. simpl in *. subst c2.
  setoid_rewrite elem_of_cons. split; intros (l & [[= -> ->]|Hin] & Hk).
  - rewrite H2 in Hk. eauto.
  - destruct IH as [IH _]. destruct IH as (l' & ? & ?); [eauto|]. eauto.
  - rewrite <- H2 in Hk. eauto.
  - destruct IH as [_ IH]. destruct IH as (l' & ? & ?); [eauto|]. eauto.
Qed.

Definition column_cells (c : Z * list string) : list (string * (Z * Z)) :=
  imap (fun row key => (key, (c.1, Z.of_nat row))) c.2.

Lemma place_columns_jof cols : place_columns cols = jof (concat (map column_cells cols)).
Proof.
  unfold place_columns, jof. generalize (@nil (string * (Z * Z))).
  induction cols as [|c cols IH]; intros m; simpl; [done|]. by rewrite IH, foldl_jset_app.
Qed.

Lemma cells_keys cols : (concat (map column_cells cols)).*1 = concat (jvals cols).
Proof.
  unfold jvals. induction cols as [|c cols IH]; csimpl; [done|]. rewrite fmap_app, IH. f_equal.
  unfold column_cells. rewrite fmap_imap. rewrite (imap_ignore id). by rewrite list_fmap_id.
Qed.

Lemma place_columns_lookup cols k c r :
  NoDup (concat (jvals cols)) →
  jget (place_columns cols) k = Some (c, r) ↔
    ∃ l row, (c, l) ∈ cols ∧ l !! row = Some k ∧ r = Z.of_nat row.
Proof.
  intros HND. rewrite place_columns_jof. rewrite <- cells_keys in HND.
  assert (jget (jof (concat (map column_cells cols))) k = Some (c, r) ↔
          (k, (c, r)) ∈ concat (map column_cells cols)) as ->.
  { split; [by apply jget_jof_inv|by apply jget_jof_elem]. }
  rewrite list_elem_of_In, in_concat. setoid_rewrite <- list_elem_of_In. split.
  - intros (cells & Hc & Hin). apply list_elem_of_fmap in Hc as ([c' l] & -> & Hcol).
    apply list_elem_of_lookup in Hin as [row Hrow]. unfold column_cells in Hrow.
    rewrite list_lookup_imap in Hrow. simpl in Hrow.
    destruct (l !! row) eqn:E; simplify_eq/=. eauto.
  - intros (l & row & Hcol & Hrow & ->). exists (column_cells (c, l)). split.
    + apply list_elem_of_fmap. eauto.
    + apply list_elem_of_lookup. exists row. unfold column_cells. rewrite list_lookup_imap. cbn [fst snd]. by rewrite Hrow.
Qed.

(** ** Where the queue's columns end up *)

Lemma NoDup_keys_entries (layer : list (string * Z)) c : NoDup (jkeys layer) → NoDup (map fst (filter (fun e => e.2 = c) layer)).
Proof.
  unfold jkeys. induction layer as [|[k d] layer IH]; csimpl; [done|].
  rewrite NoDup_cons, filter_cons. intros [Hk Hl]. case_decide; csimpl; [|auto].
  constructor; [|auto]. intros Hin. apply Hk. apply list_elem_of_fmap in Hin as (e & -> & He).
  apply list_elem_of_filter in He as [_ He]. apply list_elem_of_fmap. eauto.
Qed.

Lemma first_columns_concat `{Collation} layer :
  concat (jvals (first_columns layer)) ≡ₚ jkeys layer.
Proof.
  unfold jkeys. rewrite <- (concat_group_by snd layer) at 2. unfold first_columns, jvals.
  induction (group_by snd layer) as [|[c es] m IH]; csimpl; [done|].
  rewrite fmap_app, sort_by_Permutation, IH. done.
Qed.

Lemma first_columns_in `{Collation} layer c k :
  NoDup (jkeys layer) →
  (∃ l, (c, l) ∈ first_columns layer ∧ k ∈ l) ↔ jget layer k = Some c.
Proof.
  intros HND. unfold first_columns. split.
  - intros (l & Hl & Hk). apply list_elem_of_fmap in Hl as ([c' es] & [= -> ->] & Hg).
    rewrite elem_of_sort_by in Hk. apply elem_of_group_by in Hg as [_ ->].
    apply list_elem_of_fmap in Hk as ([k' c''] & -> & He). apply list_elem_of_filter in He as [Hc He].
    simpl in *. subst. by apply jget_NoDup.
  - intros Hget%jget_elem. exists (sort_by keyOrder (map fst (filter (fun e => e.2 = c) layer))).
    split.
    + apply list_elem_of_fmap. exists (c, filter (fun e => e.2 = c) layer). split; [done|].
      apply elem_of_group_by. split; [|done]. apply list_elem_of_fmap. by exists (k, c).
    + rewrite elem_of_sort_by. apply list_elem_of_fmap. exists (k, c). split; [done|].
      by apply list_elem_of_filter.
Qed.

(** [order] keeps every issue in its column, and gives no two the same place. *)
Lemma order_spec `{Collation} layer forward :
  NoDup (jkeys layer) →
  (∀ k c, jget layer k = Some c → ∃ r, 0 <= r ∧ jget (order layer forward) k = Some (c, r)) ∧
  (∀ k c r, jget (order layer forward) k = Some (c, r) → jget layer k = Some c ∧ 0 <= r) ∧
  (∀ k k' p, jget (order layer forward) k = Some p → jget (order layer forward) k' = Some p → k = k') ∧
  NoDup (jkeys (order layer forward)).
Proof.
  intros HND. unfold order.
  set (preds := predecessors forward). set (depth := foldl _ _ _).
  set (st := sweep preds depth (first_columns layer, settle (first_columns layer))).
  assert (cols_eq (first_columns layer) (sweep preds depth st).1) as Heq.
  { rewrite <- sweep_cols. unfold st. by rewrite <- sweep_cols. }
  set (cols := (sweep preds depth st).1) in *.
  assert (NoDup (concat (jvals cols))) as Hcells.
  { rewrite <- (cols_eq_concat _ _ Heq), first_columns_concat. done. }
  assert (NoDup (jkeys cols)) as Hcols.
  { rewrite <- (cols_eq_keys _ _ Heq). unfold first_columns.
    rewrite (jkeys_map (fun es => sort_by keyOrder (map fst es))). apply NoDup_jkeys_group_by. }
  assert (∀ k c, (∃ l, (c, l) ∈ cols ∧ k ∈ l) ↔ jget layer k = Some c) as Hin.
  { intros k c. rewrite <- (cols_eq_in _ _ c k Heq). by apply first_columns_in. }
  split_and!.
  - intros k c (l & Hl & [row Hrow]%list_elem_of_lookup)%Hin. exists (Z.of_nat row).
    split; [lia|]. apply place_columns_lookup; [done|]. eauto.
  - intros k c r (l & row & Hl & Hrow & ->)%place_columns_lookup; [|done]. split; [|lia].
    apply Hin. exists l. split; [done|]. by eapply list_elem_of_lookup_2.
  - intros k k' [c r] (l & row & Hl & Hrow & ->)%place_columns_lookup
      (l' & row' & Hl' & Hrow' & Er)%place_columns_lookup; [|done|done].
    pose proof (jget_NoDup _ _ _ Hcols Hl). pose proof (jget_NoDup _ _ _ Hcols Hl').
    apply Nat2Z.inj in Er. congruence.
  - rewrite place_columns_jof. apply NoDup_jkeys_jof.
Qed.

(** ** The parts of a finished layout *)

Lemma elem_of_linked usable k :
  k ∈ linked_keys usable ↔ ∃ e, e ∈ usable ∧ (edge_from e = k ∨ edge_to e = k).
Proof.
  unfold linked_keys.
  assert (∀ s, k ∈ foldl (fun s e => set_add (set_add s (edge_from e)) (edge_to e)) s usable ↔
    k ∈ s ∨ ∃ e, e ∈ usable ∧ (edge_from e = k ∨ edge_to e = k)) as ->.
  { induction usable as [|e es IH]; intros s; simpl; [set_solver|].
    rewrite IH, !elem_of_set_add. setoid_rewrite elem_of_cons. naive_solver. }
  set_solver.
Qed.

Section Layout.
Context `{Collation} `{MathHypot}.
Variables (nodes : list string) (edges : list GraphEdge) (opt_columns : Z).

Let keys := sort_by keyOrder (set_of nodes).
Let usable := usable_edges keys edges.
Let linked := linked_keys usable.
Let linked_in_order := filter (fun k => k ∈ linked) keys.
Let unlinked := filter (fun k => k ∉ linked) keys.

Lemma elem_of_keys k : k ∈ keys ↔ k ∈ nodes.
Proof. unfold keys. by rewrite elem_of_sort_by, elem_of_set_of. Qed.

Lemma NoDup_keys : NoDup keys.
Proof. unfold keys. rewrite NoDup_sort_by. apply NoDup_set_of. Qed.

Lemma linked_known k : k ∈ linked → k ∈ keys.
Proof.
  unfold linked. rewrite elem_of_linked. intros (e & He & Hk).
  apply elem_of_usable in He. naive_solver.
Qed.

Lemma usable_linked e : e ∈ usable → edge_from e ∈ linked ∧ edge_to e ∈ linked.
Proof. intros He. unfold linked. rewrite !elem_of_linked. split; exists e; auto. Qed.

(** The walk and the queue both end, and what they found. *)
Lemma layout_parts :
  ∃ back fin layer,
    markBackEdges keys (out_edges keys usable) = Some back ∧
    layers linked_in_order (forward_edges back usable) = Some layer ∧
    NoDup fin ∧ keys ⊆ fin ∧ forward_order (out_edges keys usable) back fin ∧
    (∀ id, id ∈ back → ∃ k e, e ∈ default [] (jget (out_edges keys usable) k) ∧ edge_id e = id ∧
       rtc (leads (out_edges keys usable)) (edge_to e) k) ∧
    NoDup (jkeys layer) ∧ (∀ k, k ∈ jkeys layer ↔ k ∈ linked) ∧
    (∀ e, e ∈ forward_edges back usable →
       default 0 (jget layer (edge_from e)) + 1 <= default 0 (jget layer (edge_to e))) ∧
    (∀ k, 0 <= default 0 (jget layer k)) ∧
    (∀ k, default 0 (jget layer k) = 0 ∨ ∃ e, e ∈ forward_edges back usable ∧ edge_to e = k ∧
       default 0 (jget layer k) = default 0 (jget layer (edge_from e)) + 1).
Proof.
  destruct (markBackEdges_spec (out_edges keys usable) (out_closed keys edges)
    (NoDup_jkeys_out keys edges NoDup_keys) keys) as (back & fin & HB & HF & HA & HO & HC).
  { intros k Hk. by apply jkeys_out. }
  assert (∀ e, e ∈ forward_edges back usable → e ∈ usable ∧ edge_id e ∉ back) as Hforward.
  { intros e He. unfold forward_edges in He. apply list_elem_of_filter in He. tauto. }
  assert (∀ e, e ∈ forward_edges back usable → edge_from e ∈ linked_in_order ∧ edge_to e ∈ linked_in_order)
    as Hends.
  { intros e [He _]%Hforward. destruct (usable_linked e He) as [H1 H2].
    unfold linked_in_order. rewrite !list_elem_of_filter. auto using linked_known. }
  destruct (layers_spec linked_in_order (forward_edges back usable)
    ltac:(apply NoDup_filter, NoDup_keys) Hends fin HF) as (layer & HL & H1 & H2 & H3 & H4).
  { intros k Hk. apply list_elem_of_filter in Hk as [_ Hk]. auto. }
  { intros l1 k l2 Hfin e He Hk. destruct (Hforward e He) as [Hu Hid].
    destruct (HO l1 k l2 Hfin e) as [|]; [by apply elem_of_outs|done|done]. }
  destruct (layers_keys linked_in_order (forward_edges back usable)
    ltac:(apply Hends) layer HL) as [HND Hsub].
  exists back, fin, layer. split_and!; try done.
  intros k. split.
  - intros Hk%Hsub. by apply list_elem_of_filter in Hk as [Hk _].
  - intros Hk. apply jget_key, H1, list_elem_of_filter. auto using linked_known.
Qed.

(** ** The boxes *)

Variable rows : list (string * (Z * Z)).
Hypothesis rows_once : NoDup (jkeys rows).
Hypothesis rows_linked : ∀ k, k ∈ jkeys rows ↔ k ∈ linked.
Hypothesis rows_cells : ∀ k c r, jget rows k = Some (c, r) → 0 <= c ∧ 0 <= r.
Hypothesis rows_apart : ∀ k k' p, jget rows k = Some p → jget rows k' = Some p → k = k'.

Definition rows_used : Z := foldl (fun m '(_, at_) => Z.max m (at_.2 + 1)) 0 rows.
Definition unlinked_top : Z :=
  if 0 <? rows_used
  then GRAPH_ORIGIN + rows_used * (GRAPH_NODE_HEIGHT + GRAPH_ROW_GAP) + GRAPH_SECTION_GAP
  else GRAPH_ORIGIN.
Let perRow := Z.max GRAPH_MIN_GRID_COLUMNS opt_columns.
Definition boxes : list (string * Rect) :=
  place_unlinked unlinked_top perRow (place_linked rows) unlinked.

Lemma rows_used_spec k c r : jget rows k = Some (c, r) → r + 1 <= rows_used.
Proof.
  intros Hin%jget_elem. unfold rows_used.
  assert (∀ (l : list (string * (Z * Z))) m,
    foldl (fun m '(_, at_) => Z.max m (at_.2 + 1)) m l = foldl Z.max m (map (fun e => e.2.2 + 1) l)) as ->.
  { induction l as [|[? [? ?]] l IH]; intros m; simpl; [done|]. apply IH. }
  apply (foldl_max_spec 0 (map (fun e => e.2.2 + 1) rows)).
  apply list_elem_of_fmap. by exists (k, (c, r)).
Qed.

Definition unlinked_cells : list (string * Rect) :=
  imap (fun i key => (key, unlinked_rect unlinked_top perRow (Z.of_nat i))) unlinked.

Lemma unlinked_cells_keys : unlinked_cells.*1 = unlinked.
Proof. unfold unlinked_cells. rewrite fmap_imap, (imap_ignore id). by rewrite list_fmap_id. Qed.

Lemma NoDup_unlinked : NoDup unlinked.
Proof. apply NoDup_filter, NoDup_keys. Qed.

Lemma elem_of_unlinked k : k ∈ unlinked ↔ k ∈ keys ∧ k ∉ linked.
Proof. unfold unlinked. rewrite list_elem_of_filter. tauto. Qed.

Lemma boxes_lookup k :
  jget boxes k =
    if decide (k ∈ linked) then linked_rect <$> jget rows k
    else if decide (k ∈ keys) then jget unlinked_cells k else None.
Proof.
  assert (∀ k', jget (place_linked rows) k' = linked_rect <$> jget rows k') as Hlinked.
  { intros k'. unfold place_linked. rewrite jget_jof_NoDup; [apply jget_map|].
    change (NoDup (jkeys (map (fun c => (c.1, linked_rect c.2)) rows))). by rewrite jkeys_map. }
  unfold boxes, place_unlinked. fold unlinked_cells. repeat case_decide.
  - rewrite jget_foldl_jset; [done|]. rewrite unlinked_cells_keys, elem_of_unlinked. tauto.
  - assert (is_Some (jget unlinked_cells k)) as [r Hr].
    { apply jget_key. unfold jkeys. rewrite unlinked_cells_keys, elem_of_unlinked. done. }
    rewrite Hr. apply jget_foldl_elem; [rewrite unlinked_cells_keys; apply NoDup_unlinked|].
    by apply jget_elem.
  - rewrite jget_foldl_jset by (rewrite unlinked_cells_keys, elem_of_unlinked; tauto).
    rewrite Hlinked. by rewrite (proj2 (jget_None rows k)) by (by rewrite rows_linked).
Qed.

Lemma linked_box k r : k ∈ linked → jget boxes k = Some r →
  ∃ c row, jget rows k = Some (c, row) ∧ r = linked_rect (c, row) ∧ 0 <= c ∧ 0 <= row < rows_used.
Proof.
  intros Hk. rewrite boxes_lookup, decide_True by done. intros ([c row] & Hrow & ->)%fmap_Some.
  exists c, row. pose proof (rows_used_spec _ _ _ Hrow). destruct (rows_cells _ _ _ Hrow). auto with lia.
Qed.

Lemma unlinked_box k r : k ∉ linked → jget boxes k = Some r →
  ∃ i, unlinked !! i = Some k ∧ r = unlinked_rect unlinked_top perRow (Z.of_nat i).
Proof.
  intros Hk. rewrite boxes_lookup, decide_False by done. case_decide; [|done].
  intros Hget%jget_elem. apply list_elem_of_lookup in Hget as [i Hi].
  unfold unlinked_cells in Hi. rewrite list_lookup_imap in Hi. exists i.
  destruct (unlinked !! i); by simplify_eq/=.
Qed.

Lemma boxes_known k : is_Some (jget boxes k) ↔ k ∈ nodes.
Proof.
  rewrite boxes_lookup, <- elem_of_keys. repeat case_decide.
  - rewrite fmap_is_Some, jget_key, rows_linked. split; auto using linked_known.
  - rewrite jget_key. unfold jkeys. rewrite unlinked_cells_keys, elem_of_unlinked. tauto.
  - rewrite is_Some_alt. tauto.
Qed.

(** Two boxes that share no pixel. *)
Definition apart (r r' : Rect) : Prop :=
  rx r + rwidth r <= rx r' ∨ rx r' + rwidth r' <= rx r ∨
  ry r + rheight r <= ry r' ∨ ry r' + rheight r' <= ry r.

Lemma linked_above_unlinked c row i :
  0 <= row < rows_used → ry (linked_rect (c, row)) + GRAPH_NODE_HEIGHT <=
    ry (unlinked_rect unlinked_top perRow (Z.of_nat i)).
Proof.
  intros Hr. unfold linked_rect, unlinked_rect, unlinked_top; cbn [ry fst snd].
  assert (0 <= Z.of_nat i / perRow) by (apply Z.div_pos; unfold perRow, GRAPH_MIN_GRID_COLUMNS; lia).
  destruct (Z.ltb_spec 0 rows_used); [|lia].
  unfold GRAPH_ORIGIN, GRAPH_NODE_HEIGHT, GRAPH_ROW_GAP, GRAPH_SECTION_GAP.
  change (56 / 2) with 28. lia.
Qed.

Lemma unlinked_apart i j : i ≠ j →
  apart (unlinked_rect unlinked_top perRow (Z.of_nat i)) (unlinked_rect unlinked_top perRow (Z.of_nat j)).
Proof.
  intros Hij. unfold apart, unlinked_rect; cbn [rx ry rwidth rheight].
  assert (0 < perRow) by (unfold perRow, GRAPH_MIN_GRID_COLUMNS; lia).
  pose proof (Z.div_mod (Z.of_nat i) perRow ltac:(lia)).
  pose proof (Z.div_mod (Z.of_nat j) perRow ltac:(lia)).
  unfold GRAPH_ORIGIN, GRAPH_NODE_HEIGHT, GRAPH_ROW_GAP, GRAPH_SECTION_GAP, GRAPH_NODE_WIDTH.
  set (a := Z.of_nat i / perRow) in *. set (b := Z.of_nat j / perRow) in *.
  destruct (Z.lt_trichotomy a b) as [|[E|]]; [lia| |lia].
  rewrite E in *. lia.
Qed.

Lemma linked_apart p p' : p ≠ p' → apart (linked_rect p) (linked_rect p').
Proof.
  destruct p as [c r], p' as [c' r']. intros Hne. unfold apart, linked_rect; cbn.
  unfold GRAPH_ORIGIN, GRAPH_NODE_HEIGHT, GRAPH_ROW_GAP, GRAPH_COLUMN_GAP, GRAPH_NODE_WIDTH.
  destruct (Z.lt_trichotomy c c') as [|[->|]]; [lia| |lia].
  destruct (Z.lt_trichotomy r r') as [|[->|]]; [lia|done|lia].
Qed.

Lemma apart_sym r r' : apart r r' → apart r' r.
Proof. unfold apart. tauto. Qed.

Lemma boxes_apart k k' r r' :
  k ≠ k' → jget boxes k = Some r → jget boxes k' = Some r' → apart r r'.
Proof.
  intros Hne Hr Hr'. destruct (decide (k ∈ linked)) as [Hk|Hk], (decide (k' ∈ linked)) as [Hk'|Hk'].
  - destruct (linked_box k r Hk Hr) as (c & row & Hp & -> & _).
    destruct (linked_box k' r' Hk' Hr') as (c' & row' & Hp' & -> & _).
    apply linked_apart. intros E. rewrite <- E in Hp'. eauto.
  - destruct (linked_box k r Hk Hr) as (c & row & Hp & -> & _ & Hrow).
    destruct (unlinked_box k' r' Hk' Hr') as (i & _ & ->).
    right; right; left. by apply linked_above_unlinked.
  - destruct (linked_box k' r' Hk' Hr') as (c & row & Hp & -> & _ & Hrow).
    destruct (unlinked_box k r Hk Hr) as (i & _ & ->).
    right; right; right. by apply linked_above_unlinked.
  - destruct (unlinked_box k r Hk Hr) as (i & Hi & ->).
    destruct (unlinked_box k' r' Hk' Hr') as (j & Hj & ->).
    apply unlinked_apart. congruence.
Qed.

Lemma boxes_positive k r : jget boxes k = Some r → 0 <= rx r ∧ 0 <= ry r.
Proof.
  intros Hr. destruct (decide (k ∈ linked)) as [Hk|Hk].
  - destruct (linked_box k r Hk Hr) as (c & row & _ & -> & Hc & Hrow).
    unfold linked_rect; cbn. unfold GRAPH_ORIGIN, GRAPH_NODE_HEIGHT, GRAPH_ROW_GAP, GRAPH_COLUMN_GAP, GRAPH_NODE_WIDTH. lia.
  - destruct (unlinked_box k r Hk Hr) as (i & _ & ->).
    assert (0 < perRow) by (unfold perRow, GRAPH_MIN_GRID_COLUMNS; lia).
    pose proof (Z.mod_pos_bound (Z.of_nat i) perRow ltac:(lia)).
    assert (0 <= Z.of_nat i / perRow) by (apply Z.div_pos; lia).
    assert (0 <= unlinked_top).
    { unfold unlinked_top. unfold GRAPH_ORIGIN, GRAPH_NODE_HEIGHT, GRAPH_ROW_GAP, GRAPH_SECTION_GAP. case_match; lia. }
    unfold unlinked_rect; cbn [rx ry].
    unfold GRAPH_ORIGIN, GRAPH_NODE_HEIGHT, GRAPH_ROW_GAP, GRAPH_SECTION_GAP, GRAPH_NODE_WIDTH.
    change (56 / 2) with 28. lia.
Qed.
End Layout.

(** ** The drawn graph *)

Section Drawn.
Context `{Collation} `{MathHypot}.

(** A drawn arrow, and one that is not dashed. *)
Definition drawn (g : GraphLayout) (a b : string) : Prop :=
  ∃ e, e ∈ gl_edges g ∧ edge_from (laid_edge e) = a ∧ edge_to (laid_edge e) = b.
Definition solid (g : GraphLayout) (a b : string) : Prop :=
  ∃ e, e ∈ gl_edges g ∧ laid_cycle e = false ∧ edge_from (laid_edge e) = a ∧ edge_to (laid_edge e) = b.

(** The drawing in terms of what the walk marked and the columns found. *)
Lemma layoutGraph_parts nodes edges opt_columns :
  let keys := sort_by keyOrder (set_of nodes) in
  let usable := usable_edges keys edges in
  ∃ back layer rows g,
    layoutGraph nodes edges opt_columns = Some g ∧
    rows = order layer (forward_edges back usable) ∧
    gl_nodes g = boxes nodes edges opt_columns rows ∧
    gl_width g = foldl Z.max GRAPH_ORIGIN ((fun r => rx r + rwidth r) <$> jvals (gl_nodes g)) + GRAPH_ORIGIN ∧
    gl_height g = foldl Z.max GRAPH_ORIGIN ((fun r => ry r + rheight r) <$> jvals (gl_nodes g)) + GRAPH_ORIGIN ∧
    laid_edge <$> gl_edges g = usable ∧
    (∀ e, e ∈ gl_edges g → laid_cycle e = bool_decide (edge_id (laid_edge e) ∈ back)) ∧
    NoDup (jkeys rows) ∧ (∀ k, k ∈ jkeys rows ↔ k ∈ linked_keys usable) ∧
    (∀ k c r, jget rows k = Some (c, r) → 0 <= c ∧ 0 <= r ∧ jget layer k = Some c) ∧
    (∀ k k' p, jget rows k = Some p → jget rows k' = Some p → k = k') ∧
    (∀ e, e ∈ forward_edges back usable →
       default 0 (jget layer (edge_from e)) + 1 <= default 0 (jget layer (edge_to e))) ∧
    (∀ k, default 0 (jget layer k) = 0 ∨ ∃ e, e ∈ forward_edges back usable ∧ edge_to e = k ∧
       default 0 (jget layer k) = default 0 (jget layer (edge_from e)) + 1) ∧
    (∀ k, ¬ tc (leads_forward (out_edges keys usable) back) k k) ∧
    (∀ id, id ∈ back → ∃ e, e ∈ usable ∧ edge_id e = id ∧
       rtc (leads (out_edges keys usable)) (edge_to e) (edge_from e)).
Proof.
  intros keys usable.
  destruct (layout_parts nodes edges) as (back & fin & layer & HB & HL & HF & HA & HO & HC & HND & Hkeys & Hup & Hpos & Htight).
  destruct (order_spec layer (forward_edges back usable) HND) as (O1 & O2 & O3 & O4).
  exists back, layer, (order layer (forward_edges back usable)).
  eexists. split.
  { unfold layoutGraph. cbv zeta. rewrite HB. cbn [mbind option_bind]. rewrite HL. cbn [mbind option_bind]. reflexivity. }
  cbn [gl_nodes gl_width gl_height gl_edges]. split_and!; try done.
  - rewrite <- list_fmap_compose. exact (list_fmap_id usable).
  - intros e (e' & -> & _)%list_elem_of_fmap. done.
  - intros k. transitivity (k ∈ jkeys layer); [|apply Hkeys]. rewrite <- !jget_key. split.
    + intros [[c r] Hr]. apply O2 in Hr as [-> _]. eauto.
    + intros [c Hc]. destruct (O1 k c Hc) as (r & _ & ->). eauto.
  - intros k c r Hr. destruct (O2 k c r Hr) as [Hc ?]. specialize (Hpos k). rewrite Hc in Hpos. done.
  - intros k Hcyc. assert (k ∈ fin) as Hk.
    { assert (∃ e, e ∈ default [] (jget (out_edges keys usable) k)) as [e He].
      { clear - Hcyc. revert Hcyc. generalize k at 2. intros k'. destruct 1 as [? ? (e & ? & _)|? ? ? (e & ? & _) _]; eauto. }
      apply HA. apply elem_of_outs in He as [He <-]. by apply elem_of_usable in He as (_ & ? & _). }
    by eapply (forward_order_acyclic (out_edges keys usable) back fin k).
  - intros id Hid. destruct (HC id Hid) as (k & e & He & Heid & Hr).
    apply elem_of_outs in He as [He <-]. eauto.
Qed.

Lemma laid_usable g usable e :
  laid_edge <$> gl_edges g = usable → e ∈ gl_edges g → laid_edge e ∈ usable.
Proof. intros <- He. apply list_elem_of_fmap. eauto. Qed.

Lemma usable_laid g usable e :
  laid_edge <$> gl_edges g = usable → e ∈ usable → ∃ l, l ∈ gl_edges g ∧ laid_edge l = e.
Proof. intros <- (l & -> & Hl)%list_elem_of_fmap. eauto. Qed.

(** The nodes with a box and the edges drawn. *)
Lemma layoutGraph_nodes_edges nodes edges opt_columns :
  ∃ g, layoutGraph nodes edges opt_columns = Some g ∧
    (∀ k, is_Some (jget (gl_nodes g) k) ↔ k ∈ nodes) ∧
    (∀ e, e ∈ laid_edge <$> gl_edges g ↔ e ∈ edges ∧ edge_from e ∈ nodes ∧ edge_to e ∈ nodes ∧ edge_from e ≠ edge_to e).
Proof.
  destruct (layoutGraph_parts nodes edges opt_columns)
    as (back & layer & rows & g & Hg & _ & Hn & _ & _ & He & _ & R1 & R2 & R3 & R4 & _).
  exists g. split; [done|]. split.
  - intros k. rewrite Hn. by apply boxes_known.
  - intros e. rewrite He, elem_of_usable, !elem_of_sort_by, !elem_of_set_of. tauto.
Qed.

(** C1: the dependency graph is drawn left to right by longest path.  Whatever the
    data, circles included, the layout comes back; every arrow that is not dashed
    leaves its blocker's box at least a column gap before the blocked box begins;
    and an issue with arrows stands in the first column, or exactly one column
    after one of the issues it waits on. *)
Theorem layoutGraph_longest_path nodes edges opt_columns :
  ∃ g column, layoutGraph nodes edges opt_columns = Some g ∧
    (∀ e, e ∈ gl_edges g → ∀ k, k = edge_from (laid_edge e) ∨ k = edge_to (laid_edge e) →
       ∃ r, jget (gl_nodes g) k = Some r ∧
            rx r = GRAPH_ORIGIN + column k * (GRAPH_NODE_WIDTH + GRAPH_COLUMN_GAP) ∧ 0 <= column k) ∧
    (∀ e, e ∈ gl_edges g → laid_cycle e = false →
       ∃ r r', jget (gl_nodes g) (edge_from (laid_edge e)) = Some r ∧
               jget (gl_nodes g) (edge_to (laid_edge e)) = Some r' ∧
               rx r + rwidth r + GRAPH_COLUMN_GAP <= rx r') ∧
    (∀ k, column k = 0 ∨ ∃ e, e ∈ gl_edges g ∧ laid_cycle e = false ∧ edge_to (laid_edge e) = k ∧
                              column k = column (edge_from (laid_edge e)) + 1).
Proof.
  destruct (layoutGraph_parts nodes edges opt_columns)
    as (back & layer & rows & g & Hg & _ & Hn & _ & _ & He & Hc & R1 & R2 & R3 & R4 & Hup & Htight & _ & _).
  exists g, (fun k => default 0 (jget layer k)). split; [done|].
  assert (∀ e, e ∈ gl_edges g → ∀ k, k = edge_from (laid_edge e) ∨ k = edge_to (laid_edge e) →
    ∃ r, jget (gl_nodes g) k = Some r ∧ rwidth r = GRAPH_NODE_WIDTH ∧
      rx r = GRAPH_ORIGIN + default 0 (jget layer k) * (GRAPH_NODE_WIDTH + GRAPH_COLUMN_GAP) ∧
      0 <= default 0 (jget layer k)) as Hends.
  { intros e Hin k Hk. pose proof (laid_usable _ _ _ He Hin) as Hu.
    assert (k ∈ linked_keys (usable_edges (sort_by keyOrder (set_of nodes)) edges)) as Hlinked.
    { destruct (usable_linked nodes edges _ Hu). destruct Hk as [-> | ->]; done. }
    pose proof Hlinked as [[c r] Hr]%R2%jget_key. destruct (R3 _ _ _ Hr) as (? & ? & Hl).
    exists (linked_rect (c, r)). rewrite Hn, boxes_lookup by done.
    rewrite decide_True, Hr, Hl by done. done. }
  split_and!.
  - intros e Hin k Hk. destruct (Hends e Hin k Hk) as (r & ? & ? & ? & ?). eauto.
  - intros e Hin Hcyc.
    destruct (Hends e Hin _ (or_introl eq_refl)) as (r & Hr & Hw & Hx & _).
    destruct (Hends e Hin _ (or_intror eq_refl)) as (r' & Hr' & _ & Hx' & _).
    exists r, r'. split_and!; [done|done|].
    assert (laid_edge e ∈ forward_edges back (usable_edges (sort_by keyOrder (set_of nodes)) edges)) as Hf.
    { apply list_elem_of_filter. split; [|by eapply laid_usable].
      rewrite Hc in Hcyc by done. by apply bool_decide_eq_false in Hcyc. }
    pose proof (Hup _ Hf). rewrite Hx, Hw, Hx'.
    unfold GRAPH_ORIGIN, GRAPH_NODE_WIDTH, GRAPH_COLUMN_GAP in *. lia.
  - intros k. destruct (Htight k) as [|(e & Hf & Hto & Hk)]; [by left|right].
    apply list_elem_of_filter in Hf as [Hid Hu].
    destruct (usable_laid _ _ _ He Hu) as (l & Hl & <-). exists l. split_and!; [done| |done|done].
    rewrite Hc by done. by apply bool_decide_eq_false.
Qed.

(** C15: every issue is on the page, in a box that shares no pixel with another
    issue's box and lies within the drawing's width and height. *)
Theorem layoutGraph_boxes nodes edges opt_columns :
  ∃ g, layoutGraph nodes edges opt_columns = Some g ∧
    (∀ k, k ∈ nodes ↔ is_Some (jget (gl_nodes g) k)) ∧
    (∀ k k' r r', k ≠ k' → jget (gl_nodes g) k = Some r → jget (gl_nodes g) k' = Some r' → apart r r') ∧
    (∀ k r, jget (gl_nodes g) k = Some r →
       0 <= rx r ∧ 0 <= ry r ∧ rx r + rwidth r <= gl_width g ∧ ry r + rheight r <= gl_height g).
Proof.
  destruct (layoutGraph_parts nodes edges opt_columns)
    as (back & layer & rows & g & Hg & _ & Hn & Hw & Hh & _ & _ & R1 & R2 & R3 & R4 & _).
  assert (∀ k c r, jget rows k = Some (c, r) → 0 <= c ∧ 0 <= r) as R3' by (intros k c r Hr; destruct (R3 k c r Hr); tauto).
  exists g. split_and!; [done| | |].
  - intros k. rewrite Hn. by rewrite boxes_known.
  - intros k k' r r'. rewrite Hn. by apply boxes_apart.
  - intros k r Hr. assert (r ∈ jvals (gl_nodes g)) as Hin.
    { apply list_elem_of_fmap. exists (k, r). split; [done|]. by apply jget_elem. }
    destruct (boxes_positive nodes edges opt_columns rows R1 R2 R3' k r) as [? ?]; [by rewrite <- Hn|].
    rewrite Hw, Hh. unfold GRAPH_ORIGIN in *. split_and!; [done|done| |].
    + destruct (foldl_max_spec 24 ((fun r => rx r + rwidth r) <$> jvals (gl_nodes g))) as [_ Hmax].
      specialize (Hmax (rx r + rwidth r)). rewrite list_elem_of_fmap in Hmax. specialize (Hmax (ex_intro _ r (conj eq_refl Hin))). lia.
    + destruct (foldl_max_spec 24 ((fun r => ry r + rheight r) <$> jvals (gl_nodes g))) as [_ Hmax].
      specialize (Hmax (ry r + rheight r)). rewrite list_elem_of_fmap in Hmax. specialize (Hmax (ex_intro _ r (conj eq_refl Hin))). lia.
Qed.

(** C2: the dashed arrows are the ones that close circles: without them no issue
    waits on itself, and each dashed arrow shares its id with an arrow that runs
    along a circle of the drawing; so data without a circle has no dashed arrow. *)
Theorem layoutGraph_cycles nodes edges opt_columns :
  ∃ g, layoutGraph nodes edges opt_columns = Some g ∧
    (∀ k, ¬ tc (solid g) k k) ∧
    (∀ e, e ∈ gl_edges g → laid_cycle e = true →
       ∃ e', e' ∈ gl_edges g ∧ edge_id (laid_edge e') = edge_id (laid_edge e) ∧
             tc (drawn g) (edge_from (laid_edge e')) (edge_from (laid_edge e'))).
Proof.
  destruct (layoutGraph_parts nodes edges opt_columns)
    as (back & layer & rows & g & Hg & _ & _ & _ & _ & He & Hc & _ & _ & _ & _ & _ & _ & Hacyc & Hback).
  exists g. split_and!; [done| |].
  - intros k Hk. apply (Hacyc k). clear Hacyc. revert Hk. generalize k at 1 3. intros k0 Hk.
    assert (∀ a b, solid g a b → leads_forward (out_edges (sort_by keyOrder (set_of nodes))
      (usable_edges (sort_by keyOrder (set_of nodes)) edges)) back a b) as Hsub.
    { intros a b (e & Hin & Hcyc & <- & <-). exists (laid_edge e).
      rewrite Hc in Hcyc by done. apply bool_decide_eq_false in Hcyc.
      split_and!; [|done|done]. apply elem_of_outs. split; [by eapply laid_usable|done]. }
    induction Hk; [apply tc_once; auto|eapply tc_l; eauto].
  - intros e Hin Hcyc. rewrite Hc in Hcyc by done. apply bool_decide_eq_true in Hcyc.
    destruct (Hback _ Hcyc) as (e0 & Hu & Hid & Hr).
    destruct (usable_laid _ _ _ He Hu) as (l & Hl & <-). exists l. split_and!; [done|done|].
    assert (∀ a b, leads (out_edges (sort_by keyOrder (set_of nodes))
      (usable_edges (sort_by keyOrder (set_of nodes)) edges)) a b → drawn g a b) as Hsub.
    { intros a b (e1 & [Hu1 <-]%elem_of_outs & <-).
      destruct (usable_laid _ _ _ He Hu1) as (l1 & ? & <-). by exists l1. }
    eapply tc_rtc_r; [apply tc_once; by exists l|].
    clear - Hr Hsub. induction Hr; [done|]. eapply rtc_l; eauto.
Qed.
End Drawn.
