(* ===== verification/Api.v ===== *)
(** The data the server answers with: the types of [web/src/api].

    A record per interface, an inductive type per union of literals.  A field
    that may be absent is an [option]; a [Record<string, T>] is a list of
    entries in the order of their keys. *)

From Stdlib Require Import ZArith Ascii String.
From stdpp Require Import base list strings decidable.
From S2P Require Import Prelude JsString.

Open Scope Z_scope.

(** ** JSON *)

(** A value of type [unknown] that came over the wire; its numbers are whole. *)
Inductive Json :=
  | JNull
  | JBool (b : bool)
  | JNumber (n : Z)
  | JString (s : string)
  | JArray (l : list Json)
  | JObject (l : list (string * Json)).

(** [Boolean(value)]. *)
Definition json_truthy (j : Json) : bool :=
  match j with
  | JNull => false
  | JBool b => b
  | JNumber n => negb (n =? 0)
  | JString s => truthy s
  | JArray _ | JObject _ => true
  end.

(** [String(value)]; an array joins its elements, [null] among them as nothing. *)
Fixpoint json_string (j : Json) : string :=
  match j with
  | JNull => "null"
  | JBool b => if b then "true" else "false"
  | JNumber n => stringOfInt n
  | JString s => s
  | JArray l => join "," (map (fun e => match e with JNull => EmptyString | _ => json_string e end) l)
  | JObject _ => "[object Object]"
  end.

(** [value.join(separator)] of an array. *)
Definition json_join (sep : string) (l : list Json) : string :=
  join sep (map (fun e => match e with JNull => EmptyString | _ => json_string e end) l).

(** ** Issues: [api/issues.ts] *)

Inductive StatusCategory := todo | in_progress | done_.
#[export] Instance StatusCategory_eq : EqDecision StatusCategory.
Proof. solve_decision. Defined.

Inductive Priority := lowest | low | medium | high | highest.
#[export] Instance Priority_eq : EqDecision Priority.
Proof. solve_decision. Defined.

Definition PRIORITIES : list Priority := [highest; high; medium; low; lowest].

Record Status := mkStatus {
  status_id : string;
  status_name : string;
  status_category : StatusCategory;
  status_description : option string;
  status_position : Z;
}.

(** ** Workflows: [api/workflows.ts] *)

(** Where the designer drew a status, in whole canvas pixels. *)
Record Place := mkPlace { place_x : Z; place_y : Z }.

Record Step := mkStep {
  step_id : string;
  step_status : Status;
  step_isInitial : bool;
  step_position : Z;
  step_layout : option Place;
}.

Inductive RuleKind := condition | validator | postfunction.

Record Rule := mkRule {
  rule_id : string;
  rule_kind : RuleKind;
  rule_type : string;
  rule_config : option (list (string * Json));
  rule_position : Z;
}.

Inductive OptionKind := text_option | roles_option.

Record RuleOption := mkRuleOption {
  option_name : string;
  option_label : string;
  option_kind : OptionKind;
  option_required : bool;
  option_choices : list string;
}.

Record RuleType := mkRuleType {
  ruletype_kind : RuleKind;
  ruletype_type : string;
  ruletype_label : string;
  ruletype_description : string;
  ruletype_options : list RuleOption;
}.

Record Transition := mkTransition {
  transition_id : string;
  transition_name : string;
  transition_description : option string;
  transition_fromStepId : option string;
  transition_toStepId : string;
  transition_position : Z;
}.

Record Workflow := mkWorkflow {
  workflow_id : string;
  workflow_name : string;
  workflow_description : option string;
  workflow_steps : list Step;
  workflow_transitions : list Transition;
}.

Record WorkflowDetail := mkWorkflowDetail {
  detail_workflow : Workflow;
  detail_rules : list (string * list Rule);
}.

Record RuleInput := mkRuleInput {
  ruleinput_kind : RuleKind;
  ruleinput_type : string;
  ruleinput_config : list (string * Json);
}.

Record StepInput := mkStepInput {
  stepinput_statusId : string;
  stepinput_isInitial : bool;
  stepinput_layout : Place;
}.

Record TransitionInput := mkTransitionInput {
  transitioninput_id : option string;
  transitioninput_name : string;
  transitioninput_description : string;
  transitioninput_fromStatusId : option string;
  transitioninput_toStatusId : string;
  transitioninput_rules : list RuleInput;
}.

Record GraphInput := mkGraphInput {
  input_name : string;
  input_description : string;
  input_steps : list StepInput;
  input_transitions : list TransitionInput;
}.
