(* ===== verification/Designer.v ===== *)
(** The workflow designer: [web/src/features/workflows/designer/graph.ts].

    A workflow as the designer holds it, and every operation on it.  The
    module's only state of its own, the counter new keys are made from, is
    passed through [connect]. *)

From Stdlib Require Import ZArith QArith Qround Lia Ascii String.
From stdpp Require Import base sets list strings sorting.
From S2P Require Import Prelude JsString Config LibGraph Api.

Open Scope Z_scope.

(** ** Data *)

Record Node := mkNode { node_statusId : string; node_x : Z; node_y : Z }.

(** The source of a transition available from every status. *)
Definition ANYWHERE : string := EmptyString.

Record DraftRule := mkDraftRule {
  draft_kind : RuleKind;
  draft_type : string;
  draft_config : list (string * Json);
}.

Record Edge := mkEdge {
  edge_key : string;
  edge_id : option string;
  edge_name : string;
  edge_description : string;
  edge_from : string;
  edge_to : string;
  edge_rules : list DraftRule;
}.

Record Design := mkDesign {
  design_name : string;
  design_description : string;
  design_nodes : list Node;
  design_initialId : string;
  design_edges : list Edge;
}.

Definition emptyDesign : Design := mkDesign EmptyString EmptyString [] EmptyString [].

Definition with_nodes (nodes : list Node) (d : Design) : Design :=
  mkDesign (design_name d) (design_description d) nodes (design_initialId d) (design_edges d).
Definition with_initial (initialId : string) (d : Design) : Design :=
  mkDesign (design_name d) (design_description d) (design_nodes d) initialId (design_edges d).
Definition with_edges (edges : list Edge) (d : Design) : Design :=
  mkDesign (design_name d) (design_description d) (design_nodes d) (design_initialId d) edges.

(** ** Boxes *)

Definition nodeRect (node : Place) : Rect :=
  mkRect (place_x node) (place_y node) WORKFLOW_NODE_WIDTH WORKFLOW_NODE_HEIGHT.

Definition anywhereRect : Rect :=
  mkRect WORKFLOW_ANYWHERE_X WORKFLOW_ANYWHERE_Y WORKFLOW_NODE_WIDTH WORKFLOW_NODE_HEIGHT.

Definition node_place (n : Node) : Place := mkPlace (node_x n) (node_y n).
Definition rect_place (r : Rect) : Place := mkPlace (rx r) (ry r).

Definition find_node (nodes : list Node) (id : string) : option Node :=
  head (filter (fun n => node_statusId n = id) nodes).

Definition on_canvas (nodes : list Node) (id : string) : bool :=
  existsb (fun n => bool_decide (node_statusId n = id)) nodes.

Definition rectOf (d : Design) (id : string) : option Rect :=
  if decide (id = ANYWHERE) then Some anywhereRect
  else nodeRect ∘ node_place <$> find_node (design_nodes d) id.

(** ** The first free place of a column *)

Definition columnOf (c : StatusCategory) : Z :=
  match c with todo => 0 | in_progress => 1 | done_ => 2 end.

Definition column_x (c : StatusCategory) : Z :=
  WORKFLOW_LAYOUT_ORIGIN_X + columnOf c * WORKFLOW_COLUMN_GAP.
Definition row_y (row : Z) : Z := WORKFLOW_LAYOUT_ORIGIN_Y + row * WORKFLOW_ROW_GAP.

(** Whether two boxes placed there would overlap. *)
Definition overlap (a b : Place) : bool :=
  (Z.abs (place_x a - place_x b) <? WORKFLOW_NODE_WIDTH) &&
  (Z.abs (place_y a - place_y b) <? WORKFLOW_NODE_HEIGHT).

(** The any-status box has a place of its own that nothing is laid out over. *)
Definition occupied (nodes : list Node) : list Place :=
  rect_place anywhereRect :: map node_place nodes.

Definition taken (nodes : list Node) (p : Place) : bool :=
  existsb (fun each => overlap each p) (occupied nodes).

(** The [for] loop over the rows of a column, from a row on. *)
Fixpoint free_row (fuel : nat) (nodes : list Node) (x row : Z) : Z :=
  match fuel with
  | O => row
  | S f => if taken nodes (mkPlace x (row_y row)) then free_row f nodes x (row + 1) else row
  end.

(** Below every box there is a free row: the loop ends by then. *)
Definition row_fuel (nodes : list Node) : nat :=
  S (Z.to_nat ((foldl Z.max 0 (map place_y (occupied nodes)) + WORKFLOW_NODE_HEIGHT) / WORKFLOW_ROW_GAP)).

Definition slotFor (nodes : list Node) (category : StatusCategory) : Place :=
  let x := column_x category in
  mkPlace x (row_y (free_row (row_fuel nodes) nodes x 0)).

Definition placed (statusId : string) (p : Place) : Node := mkNode statusId (place_x p) (place_y p).

(** ** Reading a saved workflow, and what is sent to save one *)

(** [new Map(steps.map(step => [step.id, step.status]))]. *)
Definition statusOfStep (w : Workflow) : list (string * Status) :=
  jof (map (fun s => (step_id s, step_status s)) (workflow_steps w)).

Definition read_transition (w : Workflow) (rules : list (string * list Rule)) (t : Transition) : Edge :=
  let id_of step := status_id <$> jget (statusOfStep w) step in
  mkEdge (transition_id t) (Some (transition_id t)) (transition_name t)
    (default EmptyString (transition_description t))
    (match transition_fromStepId t with
     | Some from => if truthy from then default ANYWHERE (id_of from) else ANYWHERE
     | None => ANYWHERE
     end)
    (default EmptyString (id_of (transition_toStepId t)))
    (map (fun r => mkDraftRule (rule_kind r) (rule_type r) (default [] (rule_config r)))
       (default [] (jget rules (transition_id t)))).

Definition lay_out (nodes : list Node) (s : Step) : list Node :=
  match step_layout s with
  | Some _ => nodes
  | None => nodes ++ [placed (status_id (step_status s)) (slotFor nodes (status_category (step_status s)))]
  end.

Definition saved_nodes (steps : list Step) : list Node :=
  omap (fun s => placed (status_id (step_status s)) <$> step_layout s) steps.

Definition fromWorkflow (detail : WorkflowDetail) : Design :=
  let w := detail_workflow detail in
  mkDesign (workflow_name w) (default EmptyString (workflow_description w))
    (foldl lay_out (saved_nodes (workflow_steps w)) (workflow_steps w))
    (default EmptyString (status_id ∘ step_status <$> head (filter (fun s => step_isInitial s = true) (workflow_steps w))))
    (map (read_transition w (detail_rules detail)) (workflow_transitions w)).

Definition step_input (d : Design) (n : Node) : StepInput :=
  mkStepInput (node_statusId n) (bool_decide (node_statusId n = design_initialId d)) (node_place n).

Definition transition_input (e : Edge) : TransitionInput :=
  mkTransitionInput (edge_id e) (edge_name e) (edge_description e)
    (if decide (edge_from e = ANYWHERE) then None else Some (edge_from e))
    (edge_to e)
    (map (fun r => mkRuleInput (draft_kind r) (draft_type r) (draft_config r)) (edge_rules e)).

Definition toInput (d : Design) : GraphInput :=
  mkGraphInput (design_name d) (design_description d)
    (map (step_input d) (design_nodes d)) (map transition_input (design_edges d)).

(** ** Editing *)

Definition addStatus (d : Design) (s : Status) : Design :=
  if on_canvas (design_nodes d) (status_id s) then d
  else mkDesign (design_name d) (design_description d)
    (design_nodes d ++ [placed (status_id s) (slotFor (design_nodes d) (status_category s))])
    (if truthy (design_initialId d) then design_initialId d else status_id s)
    (design_edges d).

Definition removeStatus (d : Design) (statusId : string) : Design :=
  mkDesign (design_name d) (design_description d)
    (filter (fun n => node_statusId n ≠ statusId) (design_nodes d))
    (if decide (design_initialId d = statusId) then EmptyString else design_initialId d)
    (filter (fun e => edge_from e ≠ statusId ∧ edge_to e ≠ statusId) (design_edges d)).

Definition setInitial (d : Design) (statusId : string) : Design := with_initial statusId d.

(** [Math.round] is half up; the pointer's position is any number. *)
Definition snap (value : Q) : Z :=
  Z.max 0 (Qfloor (value / inject_Z WORKFLOW_GRID + (1 # 2)) * WORKFLOW_GRID).

Definition moveNode (d : Design) (statusId : string) (x y : Q) : Design :=
  with_nodes (map (fun n => if decide (node_statusId n = statusId)
                            then mkNode (node_statusId n) (snap x) (snap y) else n) (design_nodes d)) d.

Definition new_key (n : Z) : string := "new-" +:+ stringOfInt n.

(** The counter [nextKey] goes in and comes out. *)
Definition connect (nextKey : Z) (d : Design) (from to name : string) : option (Design * string) * Z :=
  if bool_decide (from = to) || bool_decide (to = ANYWHERE) then (None, nextKey)
  else
    let known id := bool_decide (id = ANYWHERE) || on_canvas (design_nodes d) id in
    if negb (known from) || negb (known to) then (None, nextKey)
    else
      let key := new_key (nextKey + 1) in
      let edge := mkEdge key None name EmptyString from to [] in
      (Some (with_edges (design_edges d ++ [edge]) d, key), nextKey + 1).

(** [Partial<Omit<Edge, "key" | "id">>]: a field left out keeps its value. *)
Record EdgePatch := mkEdgePatch {
  patch_name : option string;
  patch_description : option string;
  patch_from : option string;
  patch_to : option string;
  patch_rules : option (list DraftRule);
}.

Definition patch_edge (e : Edge) (p : EdgePatch) : Edge :=
  mkEdge (edge_key e) (edge_id e)
    (default (edge_name e) (patch_name p)) (default (edge_description e) (patch_description p))
    (default (edge_from e) (patch_from p)) (default (edge_to e) (patch_to p))
    (default (edge_rules e) (patch_rules p)).

Definition updateEdge (d : Design) (key : string) (patch : EdgePatch) : Design :=
  with_edges (map (fun e => if decide (edge_key e = key) then patch_edge e patch else e) (design_edges d)) d.

Definition removeEdge (d : Design) (key : string) : Design :=
  with_edges (filter (fun e => edge_key e ≠ key) (design_edges d)) d.

(** ** Drawing *)

Definition edge_connection (e : Edge) : Connection := mkConnection (edge_key e) (edge_from e) (edge_to e).

Definition bends (edges : list Edge) : list (string * Z) :=
  LibGraph.bends (map edge_connection edges) WORKFLOW_EDGE_BEND.

Definition CURVE_SAMPLES : Z := 9.
Definition CLEARANCE : Z := 6.

(** A match of [/-?\d+(\.\d+)?/] at the start of a text, and what follows it. *)
Definition match_number (s : string) : option (string * string) :=
  let '(sign, body) := match s with
    | String c t => if decide (c = "-"%char) then ("-"%string, t) else (EmptyString, s)
    | EmptyString => (EmptyString, s)
    end in
  match span_digits body with
  | (EmptyString, _) => None
  | (whole, String c t as r) =>
      if decide (c = "."%char) then
        match span_digits t with
        | (EmptyString, _) => Some (sign +:+ whole, r)
        | (frac, r') => Some (sign +:+ whole +:+ "." +:+ frac, r')
        end
      else Some (sign +:+ whole, r)
  | (whole, EmptyString) => Some (sign +:+ whole, EmptyString)
  end.

(** [text.match(/-?\d+(\.\d+)?/g)]: every match, left to right.  Each turn
    consumes at least one unit. *)
Fixpoint match_numbers (fuel : nat) (s : string) : list string :=
  match fuel, s with
  | S f, String _ s' =>
      match match_number s with
      | Some (m, r) => m :: match_numbers f r
      | None => match_numbers f s'
      end
  | _, _ => []
  end.

Definition path_numbers (path : string) : list Q :=
  map (fun m => default 0%Q (numberOf m)) (match_numbers (String.length path) path).

Section Curves.
Open Scope Q_scope.

Definition inside (r : Rect) (x y : Q) : bool :=
  negb (Qle_bool x (inject_Z (rx r + CLEARANCE))) &&
  negb (Qle_bool (inject_Z (rx r + rwidth r - CLEARANCE)) x) &&
  negb (Qle_bool y (inject_Z (ry r + CLEARANCE))) &&
  negb (Qle_bool (inject_Z (ry r + rheight r - CLEARANCE)) y).

(** A coordinate of a quadratic curve at [t]. *)
Definition quadratic (t a c b : Q) : Q := (1 - t) * (1 - t) * a + 2 * (1 - t) * t * c + t * t * b.

Definition crossesAny (path : string) (obstacles : list Rect) : bool :=
  match path_numbers path with
  | x0 :: y0 :: cx :: cy :: x1 :: y1 :: _ =>
      existsb (fun i : nat =>
        let t := inject_Z (Z.of_nat i) / inject_Z CURVE_SAMPLES in
        existsb (fun r => inside r (quadratic t x0 cx x1) (quadratic t y0 cy y1)) obstacles)
        (seq 1 (Z.to_nat CURVE_SAMPLES - 1))
  | _ => false
  end.
End Curves.

Definition bend_candidates (base step : Z) : list Z :=
  [base; base + step; base - step; base + 2 * step; base - 2 * step].

Definition bendClearOf `{MathHypot} (from to : Rect) (obstacles : list Rect) (base step : Z) : Z :=
  default base (head (filter (fun bend => crossesAny (path (edgeShape from to bend)) obstacles = false)
                        (bend_candidates base step))).

Definition canvasSize (d : Design) : Z * Z :=
  let rects := map (nodeRect ∘ node_place) (design_nodes d) in
  let right := foldl Z.max (rx anywhereRect + rwidth anywhereRect) (map (fun r => rx r + rwidth r) rects) in
  let bottom := foldl Z.max (ry anywhereRect + rheight anywhereRect) (map (fun r => ry r + rheight r) rects) in
  (Z.max WORKFLOW_CANVAS_MIN_WIDTH (right + WORKFLOW_CANVAS_MARGIN),
   Z.max WORKFLOW_CANVAS_MIN_HEIGHT (bottom + WORKFLOW_CANVAS_MARGIN)).

(** ** What would stop a design from being saved *)

(** [words.workflows.problems], in either of the interface's languages. *)
Record ProblemWords := mkProblemWords {
  noName : string;
  noStatus : string;
  noInitial : string;
  unnamedTransition : string;
  twice : string → string → string;
  anyStatus : string;
  sameStatus : string;
}.

Definition problems_en : ProblemWords := mkProblemWords
  "The workflow needs a name."
  "Put at least one status on the canvas."
  "Choose the status new issues open in."
  "Every transition needs a name."
  (fun name from => "Two transitions called " +:+ name +:+ " leave " +:+ from +:+ ".")
  "any status"
  "the same status".

Definition unnamed (s : string) : bool := bool_decide (trim s = EmptyString).

Definition twice_key (e : Edge) : string :=
  edge_from e +:+ "|" +:+ toLowerCase (trim (edge_name e)).

Section Problems.
Context (words : ProblemWords).

Definition twice_problem (statuses : list (string * Status)) (e : Edge) : string :=
  twice words (trim (edge_name e))
    (if decide (edge_from e = ANYWHERE) then anyStatus words
     else default (sameStatus words) (status_name <$> jget statuses (edge_from e))).

(** The loop over the edges with the keys seen so far. *)
Fixpoint twice_problems (statuses : list (string * Status)) (seen : list string) (edges : list Edge) : list string :=
  match edges with
  | [] => []
  | e :: edges' =>
      (if negb (unnamed (edge_name e)) && bool_decide (twice_key e ∈ seen)
       then [twice_problem statuses e] else []) ++
      twice_problems statuses (set_add seen (twice_key e)) edges'
  end.

Definition problems (d : Design) (statuses : list (string * Status)) : list string :=
  (if unnamed (design_name d) then [noName words] else []) ++
  (match design_nodes d with
   | [] => [noStatus words]
   | _ => if truthy (design_initialId d) then [] else [noInitial words]
   end) ++
  (if existsb (fun e => unnamed (edge_name e)) (design_edges d) then [unnamedTransition words] else []) ++
  twice_problems statuses [] (design_edges d).
End Problems.

(** A rule as one line for the inspector. *)
Definition describe_option (config : list (string * Json)) (o : RuleOption) : string :=
  match jget config (option_name o) with
  | Some (JArray l) =>
      match l with [] => EmptyString | _ => option_label o +:+ ": " +:+ json_join ", " l end
  | Some value => if json_truthy value then option_label o +:+ ": " +:+ json_string value else EmptyString
  | None => EmptyString
  end.

Definition describeRule (rule : DraftRule) (catalogue : list RuleType) : string :=
  match head (filter (fun t => ruletype_type t = draft_type rule) catalogue) with
  | None => draft_type rule
  | Some type =>
      match filter (fun s => truthy s = true) (map (describe_option (draft_config rule)) (ruletype_options type)) with
      | [] => ruletype_label type
      | parts => ruletype_label type +:+ " (" +:+ join "; " parts +:+ ")"
      end
  end.
