(* ===== verification/DesignerPlaces.v ===== *)
(** Where the designer puts things: the first free place of a column, the grid
    a dragged status snaps to, the size of the canvas, and the curve that is
    drawn clear of the other boxes. *)

From Stdlib Require Import ZArith QArith Qround Lqa Lia Ascii String.
From stdpp Require Import base list strings.
From S2P Require Import Prelude JsString Config LibGraph Api Designer.

Open Scope Z_scope.

(** ** The loop over the rows *)

Lemma free_row_spec fuel nodes x row :
  let r := free_row fuel nodes x row in
  row <= r <= row + Z.of_nat fuel ∧
  (∀ k, row <= k < r → taken nodes (mkPlace x (row_y k)) = true) ∧
  (r < row + Z.of_nat fuel → taken nodes (mkPlace x (row_y r)) = false).
Proof.
  revert row. induction fuel as [|f IH]; intros row; cbn [free_row].
  - split_and!; intros; lia.
  - destruct (taken nodes (mkPlace x (row_y row))) eqn:E.
    + destruct (IH (row + 1)) as (H1 & H2 & H3). split_and!; intros; try lia.
      * destruct (decide (k = row)) as [->|]; [done|]. apply H2. lia.
      * apply H3. lia.
    + split_and!; intros; try lia. done.
Qed.

(** A row below every box is free. *)
Lemma low_row_free nodes x row :
  foldl Z.max 0 (map place_y (occupied nodes)) + WORKFLOW_NODE_HEIGHT <= row_y row →
  taken nodes (mkPlace x (row_y row)) = false.
Proof.
  intros Hrow. unfold taken. apply not_true_iff_false. rewrite existsb_exists.
  intros (p & Hp & Ho). unfold overlap in Ho. apply andb_true_iff in Ho as [_ Hy%Z.ltb_lt].
  simpl in Hy. pose proof (foldl_max_spec 0 (map place_y (occupied nodes))) as [_ Hm].
  specialize (Hm (place_y p)). rewrite list_elem_of_In in Hm.
  specialize (Hm (in_map _ _ _ Hp)). lia.
Qed.

Lemma row_fuel_enough nodes x : taken nodes (mkPlace x (row_y (Z.of_nat (row_fuel nodes)))) = false.
Proof.
  apply low_row_free. unfold row_fuel.
  pose proof (foldl_max_spec 0 (map place_y (occupied nodes))) as [H0 _].
  revert H0. generalize (foldl Z.max 0 (map place_y (occupied nodes))). intros m Hm.
  unfold row_y, WORKFLOW_LAYOUT_ORIGIN_Y, WORKFLOW_ROW_GAP, WORKFLOW_NODE_HEIGHT in *.
  pose proof (Z.div_pos (m + 72) 104). pose proof (Z.mod_pos_bound (m + 72) 104).
  pose proof (Z.div_mod (m + 72) 104).
  rewrite Nat2Z.inj_succ, Z2Nat.id by lia. lia.
Qed.

Lemma slotFor_spec nodes category :
  taken nodes (slotFor nodes category) = false ∧
  ∃ row, 0 <= row ∧ slotFor nodes category = mkPlace (column_x category) (row_y row) ∧
    ∀ above, 0 <= above < row → taken nodes (mkPlace (column_x category) (row_y above)) = true.
Proof.
  pose proof (free_row_spec (row_fuel nodes) nodes (column_x category) 0) as (H1 & H2 & H3).
  unfold slotFor. cbv zeta. split.
  - destruct (decide (free_row (row_fuel nodes) nodes (column_x category) 0 = 0 + Z.of_nat (row_fuel nodes))) as [->|].
    + apply row_fuel_enough.
    + apply H3. lia.
  - eexists. split_and!; [|done|]; [lia|]. intros k Hk. apply H2. lia.
Qed.

Lemma overlap_sym a b : overlap a b = overlap b a.
Proof. unfold overlap. f_equal; f_equal; lia. Qed.

Lemma taken_false nodes p :
  taken nodes p = false ↔
  overlap (rect_place anywhereRect) p = false ∧ ∀ n, n ∈ nodes → overlap (node_place n) p = false.
Proof.
  unfold taken, occupied. simpl. rewrite orb_false_iff. apply and_iff_compat_l.
  induction nodes as [|n nodes IH]; simpl.
  - split; [|done]. intros _ n Hn. by apply elem_of_nil in Hn.
  - rewrite orb_false_iff, IH. setoid_rewrite elem_of_cons. naive_solver.
Qed.

(** [slotFor] ends, for any picture, and answers the first row of the
    category's column where a box overlaps neither a placed status nor the
    any-status box. *)
Theorem slotFor_first_free nodes category :
  overlap (rect_place anywhereRect) (slotFor nodes category) = false ∧
  (∀ n, n ∈ nodes → overlap (node_place n) (slotFor nodes category) = false) ∧
  ∃ row, 0 <= row ∧ slotFor nodes category = mkPlace (column_x category) (row_y row) ∧
    ∀ above, 0 <= above < row → taken nodes (mkPlace (column_x category) (row_y above)) = true.
Proof.
  destruct (slotFor_spec nodes category) as [Ht Hrow]. apply taken_false in Ht as [Ha Hn]. by split_and!.
Qed.

(** ** Dragging, and the canvas *)

Lemma snap_spec value :
  0 <= snap value ∧ (WORKFLOW_GRID | snap value) ∧
  (0 <= value → Qabs.Qabs (inject_Z (snap value) - value) <= inject_Z WORKFLOW_GRID / 2)%Q.
Proof.
  unfold snap, WORKFLOW_GRID. set (k := Qfloor _).
  assert (inject_Z k <= value / inject_Z 8 + (1 # 2))%Q as Hlo by apply Qfloor_le.
  assert (value / inject_Z 8 + (1 # 2) < inject_Z (k + 1))%Q as Hhi by apply Qlt_floor.
  assert (inject_Z (k + 1) == inject_Z k + 1)%Q as Hk by (rewrite inject_Z_plus; reflexivity).
  assert (value / inject_Z 8 == value * (1 # 8))%Q as Hv by reflexivity.
  rewrite Hk in Hhi. rewrite Hv in Hlo, Hhi. split_and!.
  - lia.
  - destruct (Z.max_spec 0 (k * 8)) as [[_ ->]|[_ ->]]; [apply Z.divide_factor_r|apply Z.divide_0_r].
  - intros Hpos. assert (0 <= k) as Hk0.
    { destruct (Z_lt_le_dec k 0) as [Hneg|]; [|done]. exfalso.
      assert (inject_Z (k + 1) <= 0)%Q by (rewrite <- (Zle_Qle _ 0); lia). lra. }
    rewrite Z.max_r by lia. rewrite inject_Z_mult.
    apply Qabs.Qabs_Qle_condition. change (inject_Z 8) with (8 # 1)%Q. assert ((8 # 1) / 2 == 4 # 1)%Q as H4 by reflexivity. rewrite H4. split; lra.
Qed.

(** A dragged status lands on the grid, never off the canvas's top or left,
    and within half a grid's step of where it was dropped; every other status
    stays where it was. *)
Theorem moveNode_on_grid d statusId x y n :
  n ∈ design_nodes d →
  ∃ n', n' ∈ design_nodes (moveNode d statusId x y) ∧ node_statusId n' = node_statusId n ∧
    if decide (node_statusId n = statusId)
    then 0 <= node_x n' ∧ (WORKFLOW_GRID | node_x n') ∧
         0 <= node_y n' ∧ (WORKFLOW_GRID | node_y n') ∧
         (0 <= x → Qabs.Qabs (inject_Z (node_x n') - x) <= inject_Z WORKFLOW_GRID / 2)%Q ∧
         (0 <= y → Qabs.Qabs (inject_Z (node_y n') - y) <= inject_Z WORKFLOW_GRID / 2)%Q
    else n' = n.
Proof.
  intros Hn. eexists. split; [apply (list_elem_of_fmap_2 _ _ _ Hn)|].
  destruct (snap_spec x) as (? & ? & ?), (snap_spec y) as (? & ? & ?).
  case_decide; simpl; auto 10.
Qed.

Definition two_boxes : Design :=
  mkDesign "w" EmptyString [mkNode "a" 32 40; mkNode "b" 384 40] "a" [].

Lemma moveNode_on_grid_witness :
  ∃ n', n' ∈ design_nodes (moveNode two_boxes "b" (1001 # 2) (17 # 1)) ∧ node_statusId n' = "b"%string ∧
    0 <= node_x n'.
Proof.
  destruct (moveNode_on_grid two_boxes "b" (1001 # 2) (17 # 1) (mkNode "b" 384 40))
    as (n' & Hin & Hid & H); [by right; left|].
  exists n'. split; [exact Hin|]. split; [exact Hid|]. exact (proj1 H).
Defined.

(** Everything drawn fits on the canvas, with room to drag into. *)
Theorem canvasSize_fits d r :
  r ∈ anywhereRect :: map (nodeRect ∘ node_place) (design_nodes d) →
  rx r + rwidth r + WORKFLOW_CANVAS_MARGIN <= (canvasSize d).1 ∧
  ry r + rheight r + WORKFLOW_CANVAS_MARGIN <= (canvasSize d).2.
Proof.
  intros Hr. unfold canvasSize. cbv zeta. cbn [fst snd].
  set (rects := map _ _) in *.
  destruct (foldl_max_spec (rx anywhereRect + rwidth anywhereRect) (map (fun r => rx r + rwidth r) rects)) as [A B].
  destruct (foldl_max_spec (ry anywhereRect + rheight anywhereRect) (map (fun r => ry r + rheight r) rects)) as [C D].
  apply elem_of_cons in Hr as [->|Hr]; [lia|].
  specialize (B _ (list_elem_of_fmap_2 (fun r => rx r + rwidth r) _ _ Hr)).
  specialize (D _ (list_elem_of_fmap_2 (fun r => ry r + rheight r) _ _ Hr)). cbv beta in *. lia.
Qed.

Lemma canvasSize_fits_witness : (canvasSize two_boxes).1 = 900 ∧ 32 + 240 + 160 <= (canvasSize two_boxes).1.
Proof.
  split; [reflexivity|].
  exact (proj1 (canvasSize_fits two_boxes (nodeRect (mkPlace 32 40)) ltac:(right; left))).
Defined.

(** ** Reading the numbers of a path back *)

Definition unsigned_tenths (m : Z) : string :=
  digits (m / 10) +:+ (if m mod 10 =? 0 then EmptyString else "." +:+ stringOfInt (m mod 10)).

Lemma stringOfTenths_unsigned n :
  stringOfTenths n = (if n <? 0 then "-" else EmptyString) +:+ unsigned_tenths (Z.abs n).
Proof.
  unfold stringOfTenths, unsigned_tenths. f_equal. f_equal.
  unfold stringOfInt. destruct (Z.ltb_spec (Z.abs n / 10) 0); [|done].
  pose proof (Z.div_pos (Z.abs n) 10). lia.
Qed.

Lemma unsigned_decimal_tenths m :
  0 <= m → ∃ q, unsigned_decimal (unsigned_tenths m) = Some q ∧ (q == inject_Z m / 10)%Q.
Proof.
  intros Hm. pose proof (Z.div_pos m 10 Hm ltac:(lia)) as Hw.
  pose proof (Z.mod_pos_bound m 10 ltac:(lia)) as Hd. pose proof (Z.div_mod m 10 ltac:(lia)) as Hdm.
  unfold unsigned_tenths, unsigned_decimal.
  assert (truthy (digits (m / 10)) = true) as Ht.
  { unfold truthy. pose proof (digits_nonempty _ Hw). by rewrite bool_decide_false. }
  destruct (Z.eqb_spec (m mod 10) 0) as [E|E].
  - rewrite app_empty_r, span_digits_all by (by apply digits_all). rewrite Ht. simpl.
    eexists. split; [done|]. rewrite app_empty_r, digits_value_digits by done.
    unfold scale10. simpl. rewrite E, Z.add_0_r in Hdm. revert Hdm. generalize (m / 10). intros w ->.
    rewrite inject_Z_mult.
    change (inject_Z 10) with 10%Q. change (inject_Z (10 ^ (0 - Z.of_nat 0))) with 1%Q. field.
  - rewrite one_digit by done.
    rewrite span_digits_app; [|by apply digits_all|done].
    change (span_digits (String (digit_unit (m mod 10)) EmptyString)) with
      (span_digits (String (digit_unit (m mod 10)) EmptyString)).
    simpl. rewrite digit_unit_is_digit by done. rewrite Ht. simpl. eexists. split; [done|].
    rewrite digits_value_app, digits_value_digits by done. simpl. rewrite digit_value_unit by done.
    rewrite <- Hdm. unfold scale10. simpl. reflexivity.
Qed.

Lemma unsigned_tenths_units m : 0 <= m → string_forall (fun c => negb (is_space c)) (unsigned_tenths m) = true.
Proof.
  intros Hm. unfold unsigned_tenths. rewrite string_forall_app. apply andb_true_iff. split.
  - apply digit_units, digits_all, Z.div_pos; lia.
  - destruct (_ =? _); [done|]. pose proof (Z.mod_pos_bound m 10 ltac:(lia)) as Hd.
    rewrite one_digit by done. simpl. by rewrite (digit_not_space _ (digit_unit_is_digit _ Hd)).
Qed.

(** The first two units of a number in tenths: a digit, then a digit or a point. *)
Lemma unsigned_tenths_head m :
  0 <= m → ∃ c t, unsigned_tenths m = String c t ∧ is_digit c = true ∧
    match t with EmptyString => True | String x _ => code x =? 46 = true ∨ is_digit x = true end.
Proof.
  intros Hm. pose proof (Z.div_pos m 10 Hm ltac:(lia)) as Hw.
  pose proof (digits_all _ Hw) as Hall. pose proof (digits_nonempty _ Hw) as Hne.
  unfold unsigned_tenths. destruct (digits (m / 10)) as [|c t]; [done|].
  simpl in Hall. apply andb_true_iff in Hall as [Hc Ht].
  exists c, (t +:+ (if m mod 10 =? 0 then EmptyString else "." +:+ stringOfInt (m mod 10))).
  split_and!; [done|done|]. destruct t as [|x t]; simpl in *.
  - destruct (_ =? _); [done|]. by left.
  - right. by apply andb_true_iff in Ht as [? _].
Qed.

Lemma lower_digit c : is_digit c = true → code (lower c) = code c.
Proof.
  unfold is_digit, lower. intros H.
  destruct (_ || _) eqn:E; [|done]. exfalso. lia.
Qed.

(** [Number] reads back the tenths a path was written with. *)
Lemma numberOf_tenths n : ∃ q, numberOf (stringOfTenths n) = Some q ∧ (q == inject_Z n / 10)%Q.
Proof.
  rewrite stringOfTenths_unsigned.
  destruct (unsigned_tenths_head (Z.abs n) ltac:(lia)) as (c & t & Hct & Hc & Ht).
  destruct (unsigned_decimal_tenths (Z.abs n) ltac:(lia)) as (q & Hq & Heq).
  pose proof (unsigned_tenths_units (Z.abs n) ltac:(lia)) as Hu.
  assert (48 <= code c <= 57) as Hcode by (unfold is_digit in Hc; lia).
  destruct (Z.ltb_spec n 0).
  - exists (- q)%Q. split.
    + unfold numberOf. rewrite trim_id by (simpl; done). simpl. rewrite Hct.
      rewrite <- Hct, Hq. done.
    + rewrite Heq, Z.abs_neq, inject_Z_opp by lia. field.
  - exists q. rewrite Z.abs_eq in * by lia. split; [|done].
    unfold numberOf. rewrite trim_id by done. simpl. rewrite Hct. destruct t as [|x t]; [by rewrite <- Hct|].
    assert (code (lower x) = code x ∧ code x ≠ 120 ∧ code x ≠ 111 ∧ code x ≠ 98) as (Hl & H1 & H2 & H3).
    { destruct Ht as [Hx%Z.eqb_eq|Hx].
      - unfold lower. rewrite Hx. simpl. rewrite Hx. lia.
      - split; [by apply lower_digit|]. unfold is_digit in Hx. lia. }
    rewrite Hl. apply Z.eqb_neq in H1, H2, H3. rewrite H1, H2, H3, !andb_false_r.
    assert (code c =? 45 = false) as -> by lia. assert (code c =? 43 = false) as -> by lia.
    by rewrite <- Hct.
Qed.

(** What may follow a number without being read into it. *)
Definition stops (r : string) : bool :=
  match r with EmptyString => true | String c _ => negb (is_digit c) && negb (bool_decide (c = "."%char)) end.

Lemma match_number_tenths n r :
  stops r = true → match_number (stringOfTenths n +:+ r) = Some (stringOfTenths n, r).
Proof.
  intros Hr. rewrite stringOfTenths_unsigned. unfold match_number.
  set (m := Z.abs n). assert (0 <= m) as Hm by lia.
  assert (∀ sign,
    match span_digits (unsigned_tenths m +:+ r) with
    | (EmptyString, _) => None
    | (whole, String c t as r0) =>
      if decide (c = "."%char) then
        match span_digits t with
        | (EmptyString, _) => Some (sign +:+ whole, r0)
        | (frac, r') => Some (sign +:+ whole +:+ "." +:+ frac, r')
        end
      else Some (sign +:+ whole, r0)
    | (whole, EmptyString) => Some (sign +:+ whole, EmptyString)
    end = Some (sign +:+ unsigned_tenths m, r)) as Hbody.
  { intros sign. pose proof (Z.div_pos m 10 Hm ltac:(lia)) as Hw.
    pose proof (digits_all _ Hw) as Hall. pose proof (digits_nonempty _ Hw) as Hne.
    pose proof (Z.mod_pos_bound m 10 ltac:(lia)) as Hd.
    unfold unsigned_tenths. destruct (Z.eqb_spec (m mod 10) 0).
    - rewrite app_empty_r, span_digits_app; [|done|].
      + destruct (digits (m / 10)); [done|]. destruct r as [|c r]; [done|].
        simpl in Hr. apply andb_true_iff in Hr as [_ Hr%negb_true_iff%bool_decide_eq_false].
        by rewrite decide_False.
      + destruct r; [done|]. simpl in Hr. by apply andb_true_iff in Hr as [?%negb_true_iff _].
    - rewrite one_digit by done. rewrite app_assoc_s, span_digits_app; [|done|done].
      destruct (digits (m / 10)) as [|c0 t0]; [done|]. simpl "+:+". cbv iota. rewrite decide_True by done.
      change (String (digit_unit (m mod 10)) r) with (String (digit_unit (m mod 10)) EmptyString +:+ r).
      rewrite span_digits_app; [done| |].
      + simpl. by rewrite digit_unit_is_digit.
      + destruct r; [done|]. simpl in Hr. by apply andb_true_iff in Hr as [?%negb_true_iff _]. }
  destruct (n <? 0); [simpl; apply (Hbody "-"%string)|].
  destruct (unsigned_tenths_head m Hm) as (c & t & Hct & Hc & _).
  specialize (Hbody EmptyString). rewrite Hct in *. simpl in *.
  rewrite decide_False; [done|]. intros ->. done.
Qed.

Lemma match_number_skip c s : is_digit c = false → c ≠ "-"%char → match_number (String c s) = None.
Proof. intros Hc Hm. unfold match_number. rewrite decide_False by done. simpl. by rewrite Hc. Qed.

Lemma tenths_length n : (0 < String.length (stringOfTenths n))%nat.
Proof.
  rewrite stringOfTenths_unsigned, length_app_s.
  destruct (unsigned_tenths_head (Z.abs n) ltac:(lia)) as (c & t & -> & _). simpl. lia.
Qed.

(** With fuel for the whole text, each number is found and the text goes on
    after it. *)
Lemma match_numbers_tenths fuel n r :
  stops r = true → (String.length (stringOfTenths n +:+ r) <= fuel)%nat →
  ∃ fuel', (String.length r <= fuel')%nat ∧
    match_numbers fuel (stringOfTenths n +:+ r) = stringOfTenths n :: match_numbers fuel' r.
Proof.
  intros Hr Hf. pose proof (tenths_length n) as Hl. rewrite length_app_s in Hf.
  destruct fuel as [|f]; [lia|]. exists f. split; [lia|].
  cbn [match_numbers]. rewrite match_number_tenths by done.
  destruct (stringOfTenths n) as [|c t] eqn:E; [simpl in Hl; lia|done].
Qed.

Lemma match_numbers_skip fuel c r :
  is_digit c = false → c ≠ "-"%char → (String.length (String c r) <= fuel)%nat →
  ∃ fuel', (String.length r <= fuel')%nat ∧ match_numbers fuel (String c r) = match_numbers fuel' r.
Proof.
  intros Hc Hm Hf. destruct fuel as [|f]; [simpl in Hf; lia|]. exists f. split; [simpl in Hf; lia|].
  cbn [match_numbers]. by rewrite match_number_skip.
Qed.

Lemma match_numbers_done fuel : match_numbers fuel EmptyString = [].
Proof. by destruct fuel. Qed.

(** Matching every number of a path as [edgeShape] writes it. *)
Lemma match_path a b c d e f :
  let r := stringOfTenths in
  let p := "M " +:+ r a +:+ " " +:+ r b +:+ " Q " +:+ r c +:+ " " +:+ r d +:+ " " +:+ r e +:+ " " +:+ r f in
  match_numbers (String.length p) p = [r a; r b; r c; r d; r e; r f].
Proof.
  intros r p.
  assert (∃ fuel, (String.length p <= fuel)%nat ∧ match_numbers (String.length p) p = match_numbers fuel p)
    as (fuel & Hf & Hfuel) by eauto.
  rewrite Hfuel. clear Hfuel.
  assert (p = String "M" (String " " (r a +:+ String " " (r b +:+ String " " (String "Q" (String " "
    (r c +:+ String " " (r d +:+ String " " (r e +:+ String " " (r f +:+ EmptyString)))))))))) as Hp.
  { unfold p. rewrite app_empty_r. by simpl. }
  rewrite Hp in *. clear Hp p. subst r.
  repeat match goal with
  | |- context [match_numbers fuel EmptyString] => rewrite match_numbers_done
  | |- context [match_numbers fuel (String ?u ?s)] =>
      destruct (match_numbers_skip fuel u s eq_refl ltac:(done) Hf) as (g & Hg & ->); clear Hf; clear fuel; rename Hg into Hf; rename g into fuel
  | |- context [match_numbers fuel (stringOfTenths ?n +:+ ?s)] =>
      destruct (match_numbers_tenths fuel n s eq_refl Hf) as (g & Hg & ->); clear Hf; clear fuel; rename Hg into Hf; rename g into fuel
  end.
  done.
Qed.

(** The numbers [crossesAny] reads out of a path with its regular expression
    are the six coordinates [edgeShape] wrote into it, each to a tenth. *)
Theorem path_numbers_edgeShape `{MathHypot} from to bend :
  let '(start, control, end_) := curve from to bend in
  Forall2 Qeq (path_numbers (path (edgeShape from to bend)))
    (map (fun n => inject_Z (round10 n) / 10)%Q
       [px start; py start; px control; py control; px end_; py end_]).
Proof.
  unfold edgeShape. destruct (curve from to bend) as [[start control] end_].
  unfold path_numbers. cbn [path]. rewrite match_path. cbn [map].
  repeat constructor;
    match goal with |- context [numberOf (stringOfTenths ?n)] =>
      destruct (numberOf_tenths n) as (q & -> & Hq); exact Hq end.
Qed.

(** ** The bend that is clear of the other boxes *)

(** The first element of a list a test lets through, or a default. *)
Lemma first_clear (crosses : Z → bool) base l :
  let x := default base (head (filter (fun b => crosses b = false) l)) in
  (crosses x = false ∧ ∃ before after, l = before ++ x :: after ∧ ∀ b, b ∈ before → crosses b = true) ∨
  (x = base ∧ ∀ b, b ∈ l → crosses b = true).
Proof.
  cbv zeta. induction l as [|c l IH].
  { right. split; [done|]. intros b Hb. by apply elem_of_nil in Hb. }
  rewrite filter_cons. case_decide as Hc.
  - left. simpl. split; [done|]. exists [], l. split; [done|]. intros b Hb. by apply elem_of_nil in Hb.
  - apply not_false_is_true in Hc.
    destruct IH as [(Hb & before & after & Hl & Hall)|[Hb Hall]].
    + left. split; [done|]. exists (c :: before), after. split; [by rewrite Hl at 1|].
      intros b [->|?]%elem_of_cons; auto.
    + right. split; [done|]. intros b [->|?]%elem_of_cons; auto.
Qed.

(** An arrow keeps its pair's bend when that is clear of the other boxes;
    otherwise it takes the first of the four wider ones that is; and it runs
    through a box only when all five do. *)
Theorem bendClearOf_spec `{MathHypot} from to obstacles base step :
  let crosses bend := crossesAny (path (edgeShape from to bend)) obstacles in
  let bend := bendClearOf from to obstacles base step in
  (crosses bend = false ∧
   ∃ before after, bend_candidates base step = before ++ bend :: after ∧
                   ∀ b, b ∈ before → crosses b = true) ∨
  (bend = base ∧ ∀ b, b ∈ bend_candidates base step → crosses b = true).
Proof. intros crosses bend. apply (first_clear crosses). Qed.
