(* ===== verification/DesignerSession.v ===== *)
(** A session with the workflow designer: what every design that can be reached
    by editing keeps true, what opening and saving a workflow preserves, and
    what it means that nothing stops a design from being saved. *)

From Stdlib Require Import ZArith QArith Lia Ascii String.
From stdpp Require Import base sets list strings relations.
From S2P Require Import Prelude JsString Config LibGraph Api Designer DesignerPlaces.

Open Scope Z_scope.

(** ** The invariant *)

Definition node_ids (d : Design) : list string := map node_statusId (design_nodes d).
Definition edge_keys (d : Design) : list string := map edge_key (design_edges d).

(** An edge between two different boxes of the canvas, ending in a status. *)
Definition edge_ok (ids : list string) (e : Edge) : Prop :=
  edge_to e ∈ ids ∧ (edge_from e = ANYWHERE ∨ edge_from e ∈ ids) ∧ edge_from e ≠ edge_to e.

(** A key no later call of [connect] makes. *)
Definition key_used (nextKey : Z) (key : string) : Prop := ∀ n, nextKey < n → key ≠ new_key n.

Record design_ok (nextKey : Z) (d : Design) : Prop := {
  ok_counter : 0 <= nextKey;
  ok_nodes : NoDup (node_ids d);
  ok_ids : ANYWHERE ∉ node_ids d;
  ok_edges : Forall (edge_ok (node_ids d)) (design_edges d);
  ok_keys : NoDup (edge_keys d);
  ok_used : Forall (key_used nextKey) (edge_keys d);
  ok_initial : design_initialId d = EmptyString ∨ design_initialId d ∈ node_ids d;
}.

(** What the page offers: the panels and the canvas call each operation so. *)
Inductive Action :=
  | Rename (name : string)
  | Describe (description : string)
  | Add (status : Status)
  | RemoveStatus (statusId : string)
  | MakeInitial (statusId : string)
  | Move (statusId : string) (x y : Q)
  | Connect (from to name : string)
  | Patch (key : string) (name description : option string) (rules : option (list DraftRule))
  | RemoveEdge (key : string).

(** A status has an id, and the panel a status is made initial from shows one
    that is on the canvas. *)
Definition offered (d : Design) (a : Action) : Prop :=
  match a with
  | Add s => status_id s ≠ ANYWHERE
  | MakeInitial id => id ∈ node_ids d
  | _ => True
  end.

Definition perform (a : Action) (s : Z * Design) : Z * Design :=
  let '(nextKey, d) := s in
  match a with
  | Rename name => (nextKey, mkDesign name (design_description d) (design_nodes d) (design_initialId d) (design_edges d))
  | Describe description => (nextKey, mkDesign (design_name d) description (design_nodes d) (design_initialId d) (design_edges d))
  | Add status => (nextKey, addStatus d status)
  | RemoveStatus id => (nextKey, removeStatus d id)
  | MakeInitial id => (nextKey, setInitial d id)
  | Move id x y => (nextKey, moveNode d id x y)
  | Connect from to name =>
      match connect nextKey d from to name with
      | (Some (d', _), n) => (n, d')
      | (None, n) => (n, d)
      end
  | Patch key name description rules => (nextKey, updateEdge d key (mkEdgePatch name description None None rules))
  | RemoveEdge key => (nextKey, removeEdge d key)
  end.

Inductive step : Z * Design → Z * Design → Prop :=
  | step_perform s a : offered s.2 a → step s (perform a s).

(** ** Each operation keeps it *)

Lemma on_canvas_spec nodes id : on_canvas nodes id = true ↔ id ∈ map node_statusId nodes.
Proof.
  unfold on_canvas. rewrite existsb_exists, list_elem_of_fmap. split.
  - intros (n & Hn & Hid%bool_decide_eq_true). exists n. by rewrite list_elem_of_In.
  - intros (n & -> & Hn). exists n. rewrite <- list_elem_of_In. by rewrite bool_decide_true.
Qed.

Lemma stringOfInt_inj a b : 0 <= a → 0 <= b → stringOfInt a = stringOfInt b → a = b.
Proof.
  intros Ha Hb. unfold stringOfInt.
  destruct (Z.ltb_spec a 0), (Z.ltb_spec b 0); try lia.
  intros Hab%(f_equal (digits_value 0)). by rewrite !digits_value_digits in Hab.
Qed.

Lemma new_key_inj a b : 0 <= a → 0 <= b → new_key a = new_key b → a = b.
Proof. unfold new_key. simpl. intros ?? [= ?]. by apply stringOfInt_inj. Qed.

Lemma edge_ok_mono ids ids' e : (∀ x, x ∈ ids → x ∈ ids') → edge_ok ids e → edge_ok ids' e.
Proof. unfold edge_ok. naive_solver. Qed.

Lemma addStatus_ok n d s : design_ok n d → status_id s ≠ ANYWHERE → design_ok n (addStatus d s).
Proof.
  intros [Hn Hnodes Hids Hedges Hkeys Hused Hinit] Hs. unfold addStatus.
  destruct (on_canvas (design_nodes d) (status_id s)) eqn:E; [by split|].
  assert (status_id s ∉ node_ids d) as Hnew.
  { unfold node_ids. rewrite <- on_canvas_spec, E. done. }
  assert (∀ d', design_nodes d' = design_nodes d ++ [placed (status_id s) (slotFor (design_nodes d) (status_category s))] →
    node_ids d' = node_ids d ++ [status_id s]) as Hids'.
  { intros d' Hd. unfold node_ids. by rewrite Hd, map_app. }
  split; try done; rewrite ?Hids' by done.
  - apply NoDup_app. split_and!; [done| |apply NoDup_singleton]. set_solver.
  - set_solver.
  - eapply Forall_impl; [exact Hedges|]. intros e. apply edge_ok_mono. set_solver.
  - cbn [design_initialId]. destruct Hinit as [->|Hinit]; simpl; [right; set_solver|].
    destruct (truthy _); right; set_solver.
Qed.

Lemma removeStatus_ok n d id : design_ok n d → design_ok n (removeStatus d id).
Proof.
  intros [Hn Hnodes Hids Hedges Hkeys Hused Hinit].
  assert (∀ x, x ∈ node_ids (removeStatus d id) ↔ x ∈ node_ids d ∧ x ≠ id) as Hin.
  { intros x. unfold node_ids, removeStatus. cbn [design_nodes]. rewrite !list_elem_of_fmap. split.
    - intros (m & -> & [Hne Hm]%list_elem_of_filter). eauto.
    - intros [(m & -> & Hm) Hne]. exists m. by rewrite list_elem_of_filter. }
  split; try done.
  - by apply NoDup_map_filter.
  - rewrite Hin. tauto.
  - apply Forall_forall. intros e [[Hf Ht] He]%list_elem_of_filter.
    rewrite Forall_forall in Hedges. destruct (Hedges e He) as (H1 & H2 & H3).
    split_and!; [by rewrite Hin| |done]. rewrite Hin. tauto.
  - by apply NoDup_map_filter.
  - apply Forall_forall. intros k (e & -> & [_ He]%list_elem_of_filter)%list_elem_of_fmap.
    rewrite Forall_forall in Hused. apply Hused. by apply (list_elem_of_fmap_2 edge_key).
  - assert (design_initialId (removeStatus d id) =
      if decide (design_initialId d = id) then EmptyString else design_initialId d) as -> by done.
    case_decide; [by left|]. destruct Hinit as [Hi|Hi]; [by left|right]. apply Hin. by split.
Qed.

(** Changes that leave the ids, the ends and the keys alone. *)
Lemma same_shape_ok n d d' :
  node_ids d' = node_ids d → design_initialId d' = design_initialId d →
  Forall2 (fun e e' => edge_key e = edge_key e' ∧ edge_from e = edge_from e' ∧ edge_to e = edge_to e')
    (design_edges d) (design_edges d') →
  design_ok n d → design_ok n d'.
Proof.
  intros Hids Hi Hes [Hn Hnodes Hid Hedges Hkeys Hused Hinit].
  assert (edge_keys d' = edge_keys d) as Hk.
  { unfold edge_keys. clear -Hes. revert Hes. generalize (design_edges d) (design_edges d'). intros l l' Hes.
    induction Hes as [|e e' es es' (He & _) _ IH]; simpl; [done|]. by rewrite He, IH. }
  split; rewrite ?Hids, ?Hk, ?Hi; try done.
  clear -Hes Hedges. revert Hes Hedges. generalize (design_edges d) (design_edges d'). intros l l' Hes Hedges.
  induction Hes as [|e e' es es' (_ & Hf & Ht) _ IH]; [constructor|].
  apply Forall_cons in Hedges as [He Hes]. constructor; [|by apply IH].
  unfold edge_ok in *. by rewrite <- Hf, <- Ht.
Qed.

Lemma moveNode_ids d id x y : node_ids (moveNode d id x y) = node_ids d.
Proof.
  unfold node_ids, moveNode, with_nodes. cbn [design_nodes]. rewrite map_map.
  apply map_ext. intros m. by case_decide.
Qed.

Lemma connect_ok n d from to name :
  design_ok n d →
  let '(r, n') := connect n d from to name in
  n <= n' ∧ match r with Some (d', _) => design_ok n' d' | None => n' = n end.
Proof.
  intros [Hn Hnodes Hids Hedges Hkeys Hused Hinit]. unfold connect.
  destruct (bool_decide (from = to) || bool_decide (to = ANYWHERE)) eqn:E1; [split; [lia|done]|].
  destruct (negb _ || negb _) eqn:E2; [split; [lia|done]|]. split; [lia|].
  apply orb_false_iff in E1 as [Hft%bool_decide_eq_false Hto%bool_decide_eq_false].
  apply orb_false_iff in E2 as [Hkf%negb_false_iff Hkt%negb_false_iff].
  apply orb_true_iff in Hkf, Hkt. rewrite bool_decide_eq_true, on_canvas_spec in Hkf, Hkt.
  destruct Hkt as [Hkt|Hkt]; [done|].
  assert (Forall (key_used (n + 1)) (edge_keys d)) as Hused'.
  { eapply Forall_impl; [exact Hused|]. intros k Hk m Hm. apply Hk. lia. }
  split; unfold node_ids, edge_keys, with_edges in *; cbn [design_nodes design_edges design_initialId] in *.
  - lia.
  - done.
  - done.
  - apply Forall_app. split; [done|]. apply Forall_singleton. by split_and!.
  - rewrite map_app. apply NoDup_app. split_and!; [done| |apply NoDup_singleton].
    intros k Hk Hin. cbn in Hin. apply list_elem_of_singleton in Hin as ->.
    rewrite Forall_forall in Hused. apply (Hused _ Hk (n + 1)); [lia|done].
  - rewrite map_app. apply Forall_app. split; [done|]. apply Forall_singleton.
    intros m Hm Hkey%new_key_inj; lia.
  - done.
Qed.

Lemma perform_ok s a : design_ok s.1 s.2 → offered s.2 a → design_ok (perform a s).1 (perform a s).2.
Proof.
  destruct s as [n d]. cbn [fst snd]. intros Hok Ha.
  destruct a as [name|desc|st|id|id|id x y|from to name|key nm ds rs|key]; cbn [perform fst snd].
  - eapply same_shape_ok; [..|exact Hok]; [done|done|]. cbn [design_edges]. by apply Forall_Forall2_diag, Forall_true.
  - eapply same_shape_ok; [..|exact Hok]; [done|done|]. cbn [design_edges]. by apply Forall_Forall2_diag, Forall_true.
  - by apply addStatus_ok.
  - by apply removeStatus_ok.
  - destruct Hok as [Hn Hnodes Hids Hedges Hkeys Hused Hinit]. split; try done. by right.
  - eapply same_shape_ok; [apply moveNode_ids|done| |exact Hok]. by apply Forall_Forall2_diag, Forall_true.
  - pose proof (connect_ok n d from to name Hok) as H.
    destruct (connect n d from to name) as [[[d' k]|] n']; cbn [fst snd] in *; [tauto|].
    destruct H as [_ ->]. done.
  - eapply same_shape_ok; [..|exact Hok]; [done|done|]. cbn [updateEdge with_edges design_edges].
    apply Forall2_fmap_r, Forall_Forall2_diag, Forall_true. intros e. cbn. by case_decide.
  - destruct Hok as [Hn Hnodes Hids Hedges Hkeys Hused Hinit].
    unfold removeEdge, with_edges. split; try done; cbn [design_edges].
    + apply Forall_forall. intros e [_ He]%list_elem_of_filter. rewrite Forall_forall in Hedges. by apply Hedges.
    + by apply NoDup_map_filter.
    + apply Forall_forall. intros k (e & -> & [_ He]%list_elem_of_filter)%list_elem_of_fmap.
      rewrite Forall_forall in Hused. apply Hused. by apply (list_elem_of_fmap_2 edge_key).
Qed.

(** ** A saved workflow on the canvas *)

(** What the server keeps: every id once, a status on one step, and transitions
    between two steps of the workflow.  Its ids are not the designer's keys. *)
Record saved_ok (w : Workflow) : Prop := {
  saved_steps : NoDup (map step_id (workflow_steps w));
  saved_statuses : NoDup (map (status_id ∘ step_status) (workflow_steps w));
  saved_ids : ANYWHERE ∉ map (status_id ∘ step_status) (workflow_steps w);
  saved_transitions : NoDup (map transition_id (workflow_transitions w));
  saved_keys : Forall (key_used 0) (map transition_id (workflow_transitions w));
  saved_ends : Forall (fun t =>
    transition_toStepId t ∈ map step_id (workflow_steps w) ∧
    (∀ from, transition_fromStepId t = Some from →
      from ≠ EmptyString ∧ from ∈ map step_id (workflow_steps w) ∧ from ≠ transition_toStepId t))
    (workflow_transitions w);
  saved_initial : ∀ s s', s ∈ workflow_steps w → s' ∈ workflow_steps w →
    step_isInitial s = true → step_isInitial s' = true → s = s';
}.

Lemma lay_out_ids steps nodes :
  map node_statusId (foldl lay_out nodes steps) =
  map node_statusId nodes ++ map (status_id ∘ step_status) (filter (fun s => step_layout s = None) steps).
Proof.
  revert nodes. induction steps as [|s steps IH]; intros nodes; simpl; [by rewrite app_nil_r|].
  rewrite IH, filter_cons. unfold lay_out. destruct (step_layout s) eqn:E.
  - by rewrite decide_False.
  - rewrite decide_True by done. rewrite map_app, <- app_assoc. done.
Qed.

Lemma saved_nodes_ids steps :
  map node_statusId (saved_nodes steps) =
  map (status_id ∘ step_status) (filter (fun s => step_layout s ≠ None) steps).
Proof.
  induction steps as [|s steps IH]; [done|]. unfold saved_nodes in *. cbn [omap list_omap].
  rewrite filter_cons. destruct (step_layout s) eqn:E.
  - rewrite decide_True by done. simpl. by rewrite IH.
  - rewrite decide_False by (intros H; by apply H). done.
Qed.

Lemma split_laid_out (steps : list Step) :
  filter (fun s => step_layout s ≠ None) steps ++ filter (fun s => step_layout s = None) steps ≡ₚ steps.
Proof.
  induction steps as [|s steps IH]; [done|]. rewrite !filter_cons.
  destruct (step_layout s) eqn:E.
  - rewrite decide_True by done. rewrite decide_False by done. simpl. by rewrite IH.
  - rewrite decide_False by (intros H; by apply H). rewrite decide_True by done.
    rewrite <- Permutation_middle. by rewrite IH.
Qed.

(** Every status of the workflow is on the canvas, once. *)
Lemma fromWorkflow_ids detail :
  node_ids (fromWorkflow detail) ≡ₚ map (status_id ∘ step_status) (workflow_steps (detail_workflow detail)).
Proof.
  unfold node_ids, fromWorkflow. cbn [design_nodes]. rewrite lay_out_ids, saved_nodes_ids, <- map_app.
  by rewrite split_laid_out.
Qed.

Lemma statusOfStep_get w s :
  saved_ok w → s ∈ workflow_steps w → jget (statusOfStep w) (step_id s) = Some (step_status s).
Proof.
  intros Hw Hs. apply jget_jof_elem.
  - rewrite <- list_fmap_compose. exact (saved_steps w Hw).
  - by apply (list_elem_of_fmap_2 (fun s => (step_id s, step_status s))).
Qed.

Lemma step_of_id w id :
  id ∈ map step_id (workflow_steps w) → ∃ s, s ∈ workflow_steps w ∧ id = step_id s.
Proof. intros (s & -> & Hs)%list_elem_of_fmap. eauto. Qed.

(** Steps are as different as their statuses. *)
Lemma saved_status_inj w s s' :
  saved_ok w → s ∈ workflow_steps w → s' ∈ workflow_steps w →
  status_id (step_status s) = status_id (step_status s') → s = s'.
Proof.
  intros Hw Hs Hs' E. pose proof (saved_statuses w Hw) as HND.
  apply list_elem_of_lookup in Hs as [i Hi], Hs' as [j Hj].
  assert (i = j) as ->; [|congruence].
  eapply (NoDup_lookup _ i j (status_id (step_status s)) HND); rewrite list_lookup_fmap.
  - by rewrite Hi.
  - rewrite Hj. simpl. by rewrite E.
Qed.

Lemma fromWorkflow_ok detail : saved_ok (detail_workflow detail) → design_ok 0 (fromWorkflow detail).
Proof.
  set (w := detail_workflow detail). intros Hw. pose proof (fromWorkflow_ids detail) as Hp. fold w in Hp.
  assert (∀ s, s ∈ workflow_steps w → status_id (step_status s) ∈ node_ids (fromWorkflow detail)) as Hin.
  { intros s Hs. rewrite Hp. by apply (list_elem_of_fmap_2 (status_id ∘ step_status)). }
  assert (edge_keys (fromWorkflow detail) = map transition_id (workflow_transitions w)) as Hk.
  { unfold edge_keys, fromWorkflow. cbn [design_edges]. by rewrite map_map. }
  split; rewrite ?Hk; try by apply Hw.
  - done.
  - rewrite Hp. apply Hw.
  - rewrite Hp. apply Hw.
  - apply Forall_forall. intros e (t & -> & Ht)%list_elem_of_fmap.
    pose proof (saved_ends w Hw) as Hends. rewrite Forall_forall in Hends.
    destruct (Hends t Ht) as [Hto Hfrom]. apply step_of_id in Hto as (sto & Hsto & Eto).
    unfold edge_ok, read_transition. cbn [edge_to edge_from]. rewrite Eto.
    rewrite statusOfStep_get by done. simpl.
    destruct (transition_fromStepId t) as [from|].
    + destruct (Hfrom from eq_refl) as (Hne & Hf & Hd). apply step_of_id in Hf as (sf & Hsf & ->).
      unfold truthy. rewrite bool_decide_false by done. simpl. rewrite statusOfStep_get by done. simpl.
      split_and!; [by apply Hin|right; by apply Hin|]. intros E.
      apply Hd. rewrite Eto. f_equal. by apply (saved_status_inj w).
    + split_and!; [by apply Hin|by left|]. intros E. apply (saved_ids w Hw).
      rewrite E. by apply (list_elem_of_fmap_2 (status_id ∘ step_status)).
  - unfold fromWorkflow at 1 2. cbn [design_initialId]. fold w.
    destruct (filter _ (workflow_steps w)) as [|s l] eqn:E; [by left|]. right.
    apply Hin. assert (s ∈ filter (fun s => step_isInitial s = true) (workflow_steps w)) as [_ Hs]%list_elem_of_filter.
    { rewrite E. by left. }
    done.
Qed.

(** C4: however a workflow is edited, starting from nothing or from a saved one,
    the design stays well-formed: every status drawn once, every transition
    between two different boxes that are drawn, every key used once, and the
    status issues open in either unchosen or on the canvas. *)
Theorem reachable_design_ok start n d :
  (start = emptyDesign ∨ ∃ detail, start = fromWorkflow detail ∧ saved_ok (detail_workflow detail)) →
  rtc step (0, start) (n, d) → design_ok n d.
Proof.
  intros Hstart Hsteps.
  assert (design_ok 0 start) as Hok.
  { destruct Hstart as [->|(detail & -> & Hd)]; [|by apply fromWorkflow_ok].
    split; try constructor; try done. intros H. by apply elem_of_nil in H. }
  cut (design_ok (n, d).1 (n, d).2); [done|].
  change (design_ok (0, start).1 (0, start).2) in Hok. revert Hok.
  induction Hsteps as [s|s s' s'' Hs _ IH]; [done|]. intros Hok. apply IH.
  destruct Hs. by apply perform_ok.
Qed.

(** ** Opening and saving *)

Lemma lay_out_clear steps nodes :
  ∃ added, foldl lay_out nodes steps = nodes ++ added ∧
    ∀ before b after, added = before ++ b :: after → taken (nodes ++ before) (node_place b) = false.
Proof.
  revert nodes. induction steps as [|s steps IH]; intros nodes; cbn [foldl].
  { exists []. rewrite app_nil_r. split; [done|]. by intros [] ?? [=]. }
  unfold lay_out at 2. destruct (step_layout s); [apply IH|].
  set (x := placed _ _). destruct (IH (nodes ++ [x])) as (added & -> & Hadded).
  exists (x :: added). rewrite <- app_assoc. split; [done|].
  intros [|y before] b after [= <- ->]; cbn [app].
  - rewrite app_nil_r. apply (slotFor_spec nodes (status_category (step_status s))).
  - specialize (Hadded before b after eq_refl). by rewrite <- app_assoc in Hadded.
Qed.

(** Two statuses drawn apart. *)
Definition apart (a b : Node) : Prop := overlap (node_place a) (node_place b) = false.

(** Everything laid out on opening is clear of everything else. *)
Lemma laid_out_apart steps nodes n n' :
  n ∈ foldl lay_out nodes steps → n ∉ nodes → n' ∈ foldl lay_out nodes steps → n' ≠ n →
  overlap (rect_place anywhereRect) (node_place n) = false ∧ apart n' n.
Proof.
  destruct (lay_out_clear steps nodes) as (added & -> & Hclear).
  intros [|Hn]%elem_of_app Hout Hn' Hne; [done|].
  apply list_elem_of_split in Hn as (before & after & ->).
  pose proof (Hclear before n after eq_refl) as [Ha Hb]%taken_false. split; [done|].
  rewrite app_assoc, elem_of_app, elem_of_cons in Hn'. destruct Hn' as [Hn'|[?|Hn']]; [by apply Hb|done|].
  apply list_elem_of_split in Hn' as (b1 & a1 & ->).
  pose proof (Hclear (before ++ n :: b1) n' a1) as H. rewrite <- app_assoc in H.
  apply taken_false in H as [_ H]; [|done]. unfold apart. rewrite overlap_sym. apply H. set_solver.
Qed.

Lemma node_unique detail n n' :
  saved_ok (detail_workflow detail) →
  n ∈ design_nodes (fromWorkflow detail) → n' ∈ design_nodes (fromWorkflow detail) →
  node_statusId n = node_statusId n' → n = n'.
Proof.
  intros Hw Hn Hn' E. pose proof (ok_nodes _ _ (fromWorkflow_ok detail Hw)) as HND.
  apply list_elem_of_lookup in Hn as [i Hi], Hn' as [j Hj].
  assert (i = j) as ->; [|congruence].
  eapply (NoDup_lookup _ i j (node_statusId n) HND); unfold node_ids; rewrite list_lookup_fmap.
  - by rewrite Hi.
  - rewrite Hj. simpl. by rewrite E.
Qed.

Lemma fromWorkflow_initial w rules s :
  saved_ok w → s ∈ workflow_steps w →
  bool_decide (status_id (step_status s) = design_initialId (fromWorkflow (mkWorkflowDetail w rules))) = step_isInitial s.
Proof.
  intros Hw Hs. unfold fromWorkflow. cbn [design_initialId detail_workflow].
  assert (∀ s', s' ∈ filter (fun s => step_isInitial s = true) (workflow_steps w) ↔
    step_isInitial s' = true ∧ s' ∈ workflow_steps w) as Hf by (intros s'; by rewrite list_elem_of_filter).
  destruct (filter _ (workflow_steps w)) as [|s0 l]; cbn [head fmap option_fmap option_map default from_option].
  - rewrite bool_decide_false.
    + destruct (step_isInitial s) eqn:E; [|done]. exfalso. apply (elem_of_nil s). by apply Hf.
    + intros E. apply (saved_ids w Hw). unfold ANYWHERE. cbn in E. rewrite <- E.
      by apply (list_elem_of_fmap_2 (status_id ∘ step_status)).
  - destruct (proj1 (Hf s0)) as [H0 H1]; [by left|].
    destruct (step_isInitial s) eqn:E.
    + apply bool_decide_true. by rewrite (saved_initial w Hw s s0).
    + apply bool_decide_false. cbn. intros Hid. apply (saved_status_inj w) in Hid as ->; [congruence|done..].
Qed.

(** A transition as it was saved and as it is sent back. *)
Record sent_back (w : Workflow) (rules : list (string * list Rule)) (t : Transition) (i : TransitionInput) : Prop := {
  back_id : transitioninput_id i = Some (transition_id t);
  back_name : transitioninput_name i = transition_name t;
  back_description : transitioninput_description i = default EmptyString (transition_description t);
  back_anywhere : transition_fromStepId t = None → transitioninput_fromStatusId i = None;
  back_from : ∀ s, s ∈ workflow_steps w → transition_fromStepId t = Some (step_id s) →
    transitioninput_fromStatusId i = Some (status_id (step_status s));
  back_to : ∀ s, s ∈ workflow_steps w → transition_toStepId t = step_id s →
    transitioninput_toStatusId i = status_id (step_status s);
  back_rules : transitioninput_rules i =
    map (fun r => mkRuleInput (rule_kind r) (rule_type r) (default [] (rule_config r)))
      (default [] (jget rules (transition_id t)));
}.

Lemma read_transition_back w rules t :
  saved_ok w → t ∈ workflow_transitions w → sent_back w rules t (transition_input (read_transition w rules t)).
Proof.
  intros Hw Ht. pose proof (saved_ends w Hw) as Hends. rewrite Forall_forall in Hends.
  destruct (Hends t Ht) as [_ Hfrom]. unfold transition_input, read_transition. split; simpl; try done.
  - by intros ->.
  - intros s Hs E. rewrite E. destruct (Hfrom _ E) as (Hne & _).
    unfold truthy. rewrite bool_decide_false by done. simpl. rewrite statusOfStep_get by done. simpl.
    rewrite decide_False; [done|]. intros Hid. apply (saved_ids w Hw). rewrite <- Hid.
    by apply (list_elem_of_fmap_2 (status_id ∘ step_status)).
  - intros s Hs ->. by rewrite statusOfStep_get.
  - by rewrite map_map.
Qed.

(** The statuses of a workflow that are placed, and the ones that never were. *)
Definition placed_steps (w : Workflow) : list Step := filter (fun s => step_layout s ≠ None) (workflow_steps w).
Definition unplaced_steps (w : Workflow) : list Step := filter (fun s => step_layout s = None) (workflow_steps w).

(** C16: opening a saved workflow and saving it changes nothing but to place what
    was never placed: the statuses are sent in their order, which is the order they are
    stored in, the ones never placed behind the others; the same one of them initial, every
    placed status where it was, every other one clear of all the rest; and the transitions
    in their order, each with its id, name, description, ends and rules. *)
Theorem open_save_same w rules :
  saved_ok w →
  let input := toInput (fromWorkflow (mkWorkflowDetail w rules)) in
  input_name input = workflow_name w ∧
  input_description input = default EmptyString (workflow_description w) ∧
  map stepinput_statusId (input_steps input) = map (status_id ∘ step_status) (placed_steps w ++ unplaced_steps w) ∧
  (unplaced_steps w = [] → placed_steps w = workflow_steps w) ∧
  (∀ i s, i ∈ input_steps input → s ∈ workflow_steps w → stepinput_statusId i = status_id (step_status s) →
    stepinput_isInitial i = step_isInitial s ∧
    match step_layout s with
    | Some p => stepinput_layout i = p
    | None => ∀ i', i' ∈ input_steps input → stepinput_statusId i' ≠ stepinput_statusId i →
        overlap (rect_place anywhereRect) (stepinput_layout i) = false ∧
        overlap (stepinput_layout i') (stepinput_layout i) = false
    end) ∧
  Forall2 (sent_back w rules) (workflow_transitions w) (input_transitions input).
Proof.
  intros Hw input. set (detail := mkWorkflowDetail w rules) in *.
  assert (saved_ok (detail_workflow detail)) as Hd by done. split_and!; [done|done| | | |].
  - unfold input, toInput, fromWorkflow. cbn [input_steps design_nodes]. rewrite map_map, map_app.
    change (map _ (foldl _ _ _)) with (map node_statusId (foldl lay_out (saved_nodes (workflow_steps w)) (workflow_steps w))).
    by rewrite lay_out_ids, saved_nodes_ids.
  - unfold placed_steps, unplaced_steps. intros Hu. apply filter_every, Forall_forall. intros s Hs Hn.
    assert (s ∈ filter (fun s => step_layout s = None) (workflow_steps w)) as Hin by (by apply list_elem_of_filter). rewrite Hu in Hin. by apply elem_of_nil in Hin.
  - intros i s (n & -> & Hn)%list_elem_of_fmap Hs Hid. cbn in Hid. split.
    + cbn [stepinput_isInitial step_input]. rewrite Hid. by apply fromWorkflow_initial.
    + destruct (step_layout s) as [p|] eqn:E.
      * cbn. assert (placed (status_id (step_status s)) p ∈ design_nodes (fromWorkflow detail)) as Hp.
        { unfold fromWorkflow. cbn [design_nodes]. change (detail_workflow detail) with w.
          destruct (lay_out_clear (workflow_steps w) (saved_nodes (workflow_steps w))) as (added & -> & _).
          apply elem_of_app. left. apply list_elem_of_omap. exists s. by rewrite E. }
        rewrite (node_unique detail _ _ Hd Hn Hp) by done. by destruct p.
      * intros i' (n' & -> & Hn')%list_elem_of_fmap Hne. cbn in Hne |- *.
        apply (laid_out_apart (workflow_steps w) (saved_nodes (workflow_steps w))); [done| |done|congruence].
        intros (s' & Hs' & Hl)%list_elem_of_omap. destruct (step_layout s') as [p|] eqn:E'; [|done].
        simplify_eq/=. apply (saved_status_inj w) in Hid; [|done..]. congruence.
  - unfold input, toInput, fromWorkflow. cbn [input_transitions design_edges].
    rewrite map_map. apply Forall2_fmap_r, Forall_Forall2_diag, Forall_forall.
    intros t Ht. by apply read_transition_back.
Qed.

(** ** What stops a design from being saved *)

Definition no_bar (s : string) : bool := string_forall (fun c => negb (bool_decide (c = "|"%char))) s.

(** What two transitions from the same place may not share. *)
Definition leaving (e : Edge) : string * string := (edge_from e, toLowerCase (trim (edge_name e))).

Lemma app_inv_s (a b c : string) : a +:+ b = a +:+ c → b = c.
Proof. induction a as [|x a IH]; simpl; [done|]. intros [= H]. by apply IH. Qed.

Lemma twice_key_inj e e' :
  no_bar (edge_from e) = true → no_bar (edge_from e') = true →
  twice_key e = twice_key e' ↔ leaving e = leaving e'.
Proof.
  unfold no_bar, twice_key, leaving. intros He He'. split; [|by intros [= -> ->]].
  intros H. pose proof (f_equal (split "|"%char) H) as Hs. simpl in Hs.
  rewrite !split_app_sep in Hs by done. injection Hs as Hf _. rewrite Hf in *.
  apply app_inv_s in H. simpl in H. by injection H as ->.
Qed.

Lemma unnamed_spec s : unnamed s = false ↔ trim s ≠ EmptyString.
Proof. unfold unnamed. by rewrite bool_decide_eq_false. Qed.

Lemma twice_problems_nil words statuses seen edges :
  Forall (fun e => unnamed (edge_name e) = false) edges →
  twice_problems words statuses seen edges = [] ↔
  NoDup (map twice_key edges) ∧ ∀ e, e ∈ edges → twice_key e ∉ seen.
Proof.
  revert seen. induction edges as [|e edges IH]; intros seen Hn; cbn [twice_problems map].
  { split; [|done]. intros _. split; [constructor|]. intros e He. by apply elem_of_nil in He. }
  apply Forall_cons in Hn as [He Hn]. rewrite He. cbn [negb andb].
  rewrite app_nil, (IH _ Hn), NoDup_cons. clear IH.
  assert ((if bool_decide (twice_key e ∈ seen) then [twice_problem words statuses e] else []) = [] ↔ twice_key e ∉ seen) as ->.
  { case_bool_decide; naive_solver. }
  split.
  - intros (H1 & H2 & H3). split_and!; [|done|].
    + intros (e' & Hk & He')%list_elem_of_fmap. apply (H3 e' He'). rewrite elem_of_set_add. by left.
    + intros e' [->|He']%elem_of_cons; [done|]. intros Hs. apply (H3 e' He'). rewrite elem_of_set_add. by right.
  - intros ((H1 & H2) & H3). split_and!; [apply H3; by left|done|].
    intros e' He'. rewrite elem_of_set_add. intros [Hk|Hs].
    + apply H1. rewrite <- Hk. by apply list_elem_of_fmap_2.
    + by apply (H3 e'); [right|].
Qed.

Lemma NoDup_leaving edges :
  Forall (fun e => no_bar (edge_from e) = true) edges →
  NoDup (map twice_key edges) ↔ NoDup (map leaving edges).
Proof.
  induction edges as [|e edges IH]; intros Hb; [split; intros; constructor|].
  apply Forall_cons in Hb as [He Hb]. cbn [map]. rewrite !NoDup_cons, IH by done.
  apply and_iff_compat_r, not_iff_compat. rewrite Forall_forall in Hb. rewrite !list_elem_of_fmap.
  split; intros (e' & Hk & He'); exists e'; split; auto; apply twice_key_inj; auto.
Qed.

Record saveable (d : Design) : Prop := {
  can_name : trim (design_name d) ≠ EmptyString;
  can_statuses : design_nodes d ≠ [];
  can_initial : design_initialId d ≠ EmptyString;
  can_names : Forall (fun e => trim (edge_name e) ≠ EmptyString) (design_edges d);
  can_tell_apart : NoDup (map leaving (design_edges d));
}.

Lemma problems_nil words d statuses :
  Forall (fun e => no_bar (edge_from e) = true) (design_edges d) →
  problems words d statuses = [] ↔ saveable d.
Proof.
  intros Hb. unfold problems.
  destruct (unnamed (design_name d)) eqn:E1.
  { split; [done|]. intros H. apply can_name in H. apply unnamed_spec in H. congruence. }
  destruct (design_nodes d) eqn:E2.
  { split; [done|]. intros H. by apply can_statuses in H. }
  unfold truthy. case_bool_decide as E3; [|cbn [negb app]].
  { split; [done|]. intros H. by apply can_initial in H. }
  destruct (existsb _ _) eqn:E4.
  { split; [done|]. intros H. apply existsb_exists in E4 as (e & He & Hu).
    apply can_names in H. rewrite Forall_forall in H. rewrite <- list_elem_of_In in He.
    specialize (H e He). apply unnamed_spec in H. congruence. }
  assert (Forall (fun e => unnamed (edge_name e) = false) (design_edges d)) as Hn.
  { apply Forall_forall. intros e He. apply not_true_iff_false. intros Hu. apply not_true_iff_false in E4.
    apply E4, existsb_exists. exists e. by rewrite <- list_elem_of_In. }
  cbn [app]. rewrite (twice_problems_nil words statuses [] _ Hn), (NoDup_leaving _ Hb). split.
  - intros [H _]. split; try done; [by apply unnamed_spec|by rewrite E2|].
    eapply Forall_impl; [exact Hn|]. intros e. apply unnamed_spec.
  - intros H. split; [apply H|]. intros e _ []%elem_of_nil.
Qed.

(** The page lists no problem exactly when the workflow and all of its
    transitions are named, there is a status, one is chosen to open issues in,
    and no two transitions leave the same place under the same name, whatever
    their case and the spaces around them. *)
Theorem problems_nil_iff_saveable words d statuses :
  Forall (fun e => no_bar (edge_from e) = true) (design_edges d) →
  problems words d statuses = [] ↔ saveable d.
Proof. apply problems_nil. Qed.


(** ** The theorems on one workflow *)

Definition st_todo : Status := mkStatus "s1" "To Do" todo None 0.
Definition st_done : Status := mkStatus "s2" "Done" done_ None 1.

Definition two_steps : Workflow :=
  mkWorkflow "w1" "Simple" None
    [mkStep "p1" st_todo true 0 (Some (mkPlace 32 40)); mkStep "p2" st_done false 1 None]
    [mkTransition "t1" "Finish" None (Some "p1"%string) "p2" 0; mkTransition "t2" "Reopen" None None "p1" 1].

Lemma two_steps_ok : saved_ok two_steps.
Proof.
  split.
  - apply (bool_decide_unpack _). vm_compute. exact I.
  - apply (bool_decide_unpack _). vm_compute. exact I.
  - apply (bool_decide_unpack _). vm_compute. exact I.
  - apply (bool_decide_unpack _). vm_compute. exact I.
  - repeat constructor; intros n Hn; unfold new_key; simpl; congruence.
  - apply Forall_cons. split; [|apply Forall_cons; split; [|apply Forall_nil; exact I]]; split.
    + right. left.
    + intros from [= <-]. split_and!; [done|left|done].
    + left.
    + intros from [=].
  - intros s s' Hs Hs' Hi Hi'. cbn in Hs, Hs'.
    repeat (apply elem_of_cons in Hs as [->|Hs]); repeat (apply elem_of_cons in Hs' as [->|Hs']);
      try done; try (by apply elem_of_nil in Hs); by apply elem_of_nil in Hs'.
Defined.

Definition an_edit (s : Z * Design) : Z * Design :=
  perform (Move "s2" 400 300) (perform (Connect "s2" "s1" "Back") (perform (RemoveEdge "t2") s)).

Lemma reachable_design_ok_witness :
  design_ok 1 (an_edit (0, fromWorkflow (mkWorkflowDetail two_steps []))).2.
Proof.
  apply (reachable_design_ok (fromWorkflow (mkWorkflowDetail two_steps [])) 1).
  - right. exists (mkWorkflowDetail two_steps []). split; [reflexivity|exact two_steps_ok].
  - unfold an_edit.
    eapply rtc_l; [by apply (step_perform _ (RemoveEdge "t2"))|].
    eapply rtc_l; [by apply (step_perform _ (Connect "s2" "s1" "Back"))|].
    eapply rtc_l; [by apply (step_perform _ (Move "s2" 400 300))|].
    apply rtc_refl.
Defined.

Lemma open_save_same_witness :
  map stepinput_statusId (input_steps (toInput (fromWorkflow (mkWorkflowDetail two_steps [])))) = ["s1"; "s2"]%string.
Proof. exact (proj1 (proj2 (proj2 (open_save_same two_steps [] two_steps_ok)))). Defined.

(** A status that was never placed is saved behind the ones after it. *)
Example unplaced_goes_last :
  map stepinput_statusId (input_steps (toInput (fromWorkflow (mkWorkflowDetail (mkWorkflow "w1" "Simple" None
    [mkStep "p1" st_todo true 0 None; mkStep "p2" st_done false 1 (Some (mkPlace 32 40))] []) [])))) = ["s2"; "s1"]%string.
Proof. vm_compute. reflexivity. Qed.

Definition two_named : Design := fromWorkflow (mkWorkflowDetail two_steps []).

Lemma problems_nil_iff_saveable_witness : saveable two_named.
Proof.
  apply (problems_nil_iff_saveable problems_en two_named []).
  - repeat constructor.
  - reflexivity.
Defined.
