(* ===== verification/ValidateGraph.v ===== *)
(** The server's check of a workflow that is being saved:
    [backend/internal/workflow/graph.go], and [checkGraph] of [admin.go] before
    it; and what the designer's own hints promise about it. *)

From Stdlib Require Import ZArith QArith Lia Ascii String.
From stdpp Require Import base sets list strings.
From S2P Require Import Prelude JsString Config LibGraph Api Designer DesignerPlaces DesignerSession.

Open Scope Z_scope.

(** ** The check *)

(** The refusals, with the names they mention. *)
Inductive Refusal :=
  | WorkflowNeedsName
  | WorkflowNeedsStatus
  | NoSuchStatus
  | ListedTwice (status : string)
  | TwoInitial (status status' : string)
  | NoInitialStatus
  | TransitionNeedsName
  | LeadsOutside (transition : string)
  | LeavesOutside (transition : string)
  | BackToItself (transition status : string)
  | TwiceEverywhere (transition : string)
  | TwiceLeaving (transition status : string).

Definition uuid_Nil : string := "00000000-0000-0000-0000-000000000000".

(** [strings.TrimSpace] also trims the next-line control, which [trim] keeps. *)
Definition go_space (c : ascii) : bool := is_space c || (code c =? 133).

Fixpoint trim_left (s : string) : string :=
  match s with
  | EmptyString => EmptyString
  | String c s' => if go_space c then trim_left s' else s
  end.

Fixpoint trim_right (s : string) : string :=
  match s with
  | EmptyString => EmptyString
  | String c s' =>
      match trim_right s' with
      | EmptyString => if go_space c then EmptyString else String c EmptyString
      | r => String c r
      end
  end.

Definition TrimSpace (s : string) : string := trim_left (trim_right s).

(** What [checkGraph] tidies before it asks. *)
Definition tidy_transition (t : TransitionInput) : TransitionInput :=
  mkTransitionInput (transitioninput_id t) (TrimSpace (transitioninput_name t))
    (TrimSpace (transitioninput_description t)) (transitioninput_fromStatusId t)
    (transitioninput_toStatusId t) (transitioninput_rules t).

Definition tidy (i : GraphInput) : GraphInput :=
  mkGraphInput (TrimSpace (input_name i)) (TrimSpace (input_description i))
    (input_steps i) (map tidy_transition (input_transitions i)).

Section Validate.
Context (names : list (string * string)).

(** The loop over the steps: the ids seen, and the name of the initial status. *)
Fixpoint check_steps (seen : list string) (initial : string) (steps : list StepInput)
  : Refusal + (list string * string) :=
  match steps with
  | [] => inr (seen, initial)
  | s :: steps' =>
      match jget names (stepinput_statusId s) with
      | None => inl NoSuchStatus
      | Some name =>
          if decide (stepinput_statusId s ∈ seen) then inl (ListedTwice name)
          else
            let seen' := set_add seen (stepinput_statusId s) in
            if stepinput_isInitial s then
              if truthy initial then inl (TwoInitial initial name) else check_steps seen' name steps'
            else check_steps seen' initial steps'
      end
  end.

(** The loop over the transitions: the names given out so far, by the status
    each leaves. *)
Fixpoint validateEdges (inWorkflow : list string) (byName : list (string * string)) (ts : list TransitionInput)
  : option Refusal :=
  match ts with
  | [] => None
  | t :: ts' =>
      let name := transitioninput_name t in
      let to := transitioninput_toStatusId t in
      let status id := default EmptyString (jget names id) in
      if decide (name = EmptyString) then Some TransitionNeedsName
      else if decide (to ∉ inWorkflow) then Some (LeadsOutside name)
      else
        let rest from :=
          if decide ((from, name) ∈ byName) then
            Some (if decide (from = uuid_Nil) then TwiceEverywhere name else TwiceLeaving name (status from))
          else validateEdges inWorkflow (set_add byName (from, name)) ts' in
        match transitioninput_fromStatusId t with
        | None => rest uuid_Nil
        | Some from =>
            if decide (from ∉ inWorkflow) then Some (LeavesOutside name)
            else if decide (from = to) then Some (BackToItself name (status to))
            else rest from
        end
  end.

Definition ValidateGraph (i : GraphInput) : option Refusal :=
  if decide (input_name i = EmptyString) then Some WorkflowNeedsName
  else match input_steps i with
  | [] => Some WorkflowNeedsStatus
  | steps =>
      match check_steps [] EmptyString steps with
      | inl r => Some r
      | inr (seen, initial) =>
          if decide (initial = EmptyString) then Some NoInitialStatus
          else validateEdges seen [] (input_transitions i)
      end
  end.
End Validate.

(** ** Trimming on both sides of the wire *)

Definition no_next_line (s : string) : bool := string_forall (fun c => negb (code c =? 133)) s.

Lemma trim_right_trimEnd s : no_next_line s = true → trim_right s = trimEnd s.
Proof.
  unfold no_next_line. induction s as [|c s IH]; simpl; [done|]. intros [Hc Hs]%andb_true_iff.
  rewrite IH by done. destruct (trimEnd s); [|done]. unfold go_space.
  apply negb_true_iff in Hc. by rewrite Hc, orb_false_r.
Qed.

Lemma trim_left_trimStart s : no_next_line s = true → trim_left s = trimStart s.
Proof.
  unfold no_next_line. induction s as [|c s IH]; simpl; [done|]. intros [Hc Hs]%andb_true_iff.
  rewrite IH by done. unfold go_space. apply negb_true_iff in Hc. by rewrite Hc, orb_false_r.
Qed.

Lemma trimEnd_forall P s : string_forall P s = true → string_forall P (trimEnd s) = true.
Proof.
  induction s as [|c s IH]; simpl; [done|]. intros [Hc Hs]%andb_true_iff. specialize (IH Hs).
  destruct (trimEnd s) as [|a r]; [destruct (is_space c); simpl; by rewrite ?Hc|]. simpl in *. by rewrite Hc.
Qed.

Lemma TrimSpace_trim s : no_next_line s = true → TrimSpace s = trim s.
Proof.
  intros H. unfold TrimSpace, trim. rewrite trim_right_trimEnd by done.
  apply trim_left_trimStart. by apply trimEnd_forall.
Qed.

Lemma trim_no_next_line s : no_next_line s = true → no_next_line (trim s) = true.
Proof.
  intros H. apply trimEnd_forall in H. unfold trim. induction (trimEnd s) as [|c r IH]; [done|].
  cbn [trimStart]. destruct (is_space c); [|done]. apply IH. cbn [string_forall] in H. by apply andb_true_iff in H as [_ H].
Qed.

(** ** A design without problems is not refused *)

Section Accepted.
Context (names : list (string * string)) (d : Design).

Definition known (id : string) : Prop := ∃ name, jget names id = Some name ∧ name ≠ EmptyString.

Lemma not_seen_yet seen (id : string) ids :
  id ∉ ids → (∀ x, x ∈ id :: ids → x ∉ seen) → ∀ x, x ∈ ids → x ∉ seen ++ [id].
Proof.
  intros Hid Hs x Hx. rewrite elem_of_app, list_elem_of_singleton.
  intros [Hin| ->]; [|done]. apply (Hs x); [by right|done].
Qed.

(** Past the initial status, or before it. *)
Lemma check_steps_rest seen initial nodes :
  NoDup (map node_statusId nodes) → Forall known (map node_statusId nodes) →
  (∀ id, id ∈ map node_statusId nodes → id ∉ seen) →
  design_initialId d ∉ map node_statusId nodes →
  check_steps names seen initial (map (step_input d) nodes) = inr (seen ++ map node_statusId nodes, initial).
Proof.
  revert seen. induction nodes as [|n nodes IH]; intros seen HND Hk Hs Hi; cbn [map] in *.
  { by rewrite app_nil_r. }
  apply NoDup_cons in HND as [Hn HND]. apply Forall_cons in Hk as [(name & Hname & _) Hk].
  apply not_elem_of_cons in Hi as [Hi Hi']. cbn. rewrite Hname.
  rewrite decide_False by (apply Hs; by left). rewrite bool_decide_false by done.
  unfold set_add. rewrite decide_False by (apply Hs; by left).
  rewrite IH by (done || by apply not_seen_yet). by rewrite <- app_assoc.
Qed.

Lemma check_steps_initial seen nodes :
  NoDup (map node_statusId nodes) → Forall known (map node_statusId nodes) →
  (∀ id, id ∈ map node_statusId nodes → id ∉ seen) →
  design_initialId d ∈ map node_statusId nodes →
  ∃ name, name ≠ EmptyString ∧
  check_steps names seen EmptyString (map (step_input d) nodes) = inr (seen ++ map node_statusId nodes, name).
Proof.
  revert seen. induction nodes as [|n nodes IH]; intros seen HND Hk Hs Hi; cbn [map] in *.
  { by apply elem_of_nil in Hi. }
  apply NoDup_cons in HND as [Hn HND]. apply Forall_cons in Hk as [(name & Hname & Hne) Hk].
  cbn. rewrite Hname. rewrite decide_False by (apply Hs; by left).
  unfold set_add. rewrite decide_False by (apply Hs; by left).
  pose proof (not_seen_yet _ _ _ Hn Hs) as Hs'.
  case_bool_decide as E.
  - exists name. split; [done|]. rewrite check_steps_rest, <- app_assoc by (try done; by rewrite <- E). done.
  - apply elem_of_cons in Hi as [?|Hi]; [congruence|].
    destruct (IH (seen ++ [node_statusId n]) HND Hk Hs' Hi) as (nm & Hnm & ->).
    exists nm. by rewrite <- app_assoc.
Qed.

(** The name a transition goes by at the server, and where it leaves. *)
Definition told (e : Edge) : string * string :=
  (if decide (edge_from e = ANYWHERE) then uuid_Nil else edge_from e, TrimSpace (edge_name e)).

Lemma validateEdges_none ids byName edges :
  Forall (edge_ok ids) edges → Forall (fun e => TrimSpace (edge_name e) ≠ EmptyString) edges →
  NoDup (map told edges) → (∀ e, e ∈ edges → told e ∉ byName) →
  validateEdges names ids byName (map tidy_transition (map transition_input edges)) = None.
Proof.
  revert byName. induction edges as [|e edges IH]; intros byName Hok Hn HND Hb; [done|].
  cbn [map] in *. apply Forall_cons in Hok as [(Hto & Hfrom & Hne) Hok]. apply Forall_cons in Hn as [He Hn].
  apply NoDup_cons in HND as [Hte HND].
  assert (validateEdges names ids (set_add byName (told e)) (map tidy_transition (map transition_input edges)) = None) as Hrest.
  { apply IH; try done. intros e' He'. rewrite elem_of_set_add. intros [E|?].
    - apply Hte. rewrite <- E. by apply list_elem_of_fmap_2.
    - by apply (Hb e'); [right|]. }
  pose proof (Hb e ltac:(by left)) as Hbe. unfold told in Hbe, Hrest. cbn.
  rewrite decide_False by done. rewrite decide_False by (by intros []).
  destruct (decide (edge_from e = ANYWHERE)) as [E|E].
  - by rewrite decide_False.
  - destruct Hfrom as [?|Hfrom]; [done|]. rewrite decide_False by (by intros []).
    rewrite decide_False by done. by rewrite decide_False.
Qed.
End Accepted.

Lemma NoDup_told d :
  uuid_Nil ∉ node_ids d → Forall (edge_ok (node_ids d)) (design_edges d) →
  Forall (fun e => no_next_line (edge_name e) = true) (design_edges d) →
  NoDup (map leaving (design_edges d)) → NoDup (map told (design_edges d)).
Proof.
  intros Hnil. induction (design_edges d) as [|e edges IH]; [done|]. cbn [map].
  intros [(_ & Hf & _) Hok]%Forall_cons [Hp Hpl]%Forall_cons [He HND]%NoDup_cons. apply NoDup_cons.
  split; [|by apply IH]. intros (e' & Hk & He')%list_elem_of_fmap. apply He.
  apply list_elem_of_fmap. exists e'. split; [|done].
  rewrite Forall_forall in Hok, Hpl. destruct (Hok e' He') as (_ & Hf' & _). unfold leaving, told in *.
  rewrite (TrimSpace_trim (edge_name e)), (TrimSpace_trim (edge_name e')) in Hk by auto.
  injection Hk as Hfrom ->. f_equal. repeat case_decide; destruct Hf, Hf'; congruence.
Qed.

(** Whatever was edited, the server's check of the graph refuses no design the page lists
    no problem for. *)
Lemma graph_accepted nextKey d words statuses names :
  design_ok nextKey d →
  Forall (known names) (node_ids d) → uuid_Nil ∉ node_ids d →
  Forall (fun id => no_bar id = true) (node_ids d) →
  no_next_line (design_name d) = true →
  Forall (fun e => no_next_line (edge_name e) = true) (design_edges d) →
  problems words d statuses = [] →
  ValidateGraph names (tidy (toInput d)) = None.
Proof.
  intros Hok Hknown Hnil Hbar Hname Hnames Hp. pose proof (ok_edges _ d Hok) as Hedges.
  assert (saveable d) as Hs.
  { eapply problems_nil; [|exact Hp]. eapply Forall_impl; [exact Hedges|].
    intros e (_ & [->|Hf] & _); [done|]. rewrite Forall_forall in Hbar. by apply Hbar. }
  unfold ValidateGraph, tidy, toInput. cbn [input_name input_steps input_transitions].
  rewrite TrimSpace_trim, decide_False by (try done; apply Hs).
  destruct (check_steps_initial names d [] (design_nodes d)) as (name & Hne & Hc).
  { apply Hok. } { done. } { by intros id _ []%elem_of_nil. }
  { destruct (ok_initial _ d Hok) as [E|]; [by apply can_initial in Hs|done]. }
  pose proof (can_statuses d Hs) as Hnodes. destruct (design_nodes d) as [|n nodes] eqn:E; [done|].
  change (map (step_input d) (n :: nodes)) with (step_input d n :: map (step_input d) nodes) in *.
  cbv beta iota. rewrite Hc, decide_False by done. cbn [app].
  assert (map node_statusId (n :: nodes) = node_ids d) as -> by (unfold node_ids; by rewrite E).
  apply validateEdges_none; [done| | |by intros ?? []%elem_of_nil].
  - apply Forall_forall. intros e He. rewrite Forall_forall in Hnames. rewrite TrimSpace_trim by auto.
    pose proof (can_names d Hs) as H. rewrite Forall_forall in H. by apply H.
  - by apply NoDup_told; [..|apply Hs].
Qed.

(** The hints are stricter than the server: names that differ in case only are
    told apart by the server and not by the page. *)
Definition case_apart : Design :=
  with_edges
    [mkEdge "t1" (Some "t1"%string) "Go" EmptyString "s1" "s2" [];
     mkEdge "t2" (Some "t2"%string) "go" EmptyString "s1" "s2" []] two_named.

Example hints_stricter_than_server :
  problems problems_en case_apart [("s1"%string, st_todo)] = ["Two transitions called go leave To Do."%string] ∧
  ValidateGraph [("s1", "To Do"); ("s2", "Done")]%string (tidy (toInput case_apart)) = None.
Proof. split; vm_compute; reflexivity. Qed.
