(* ===== verification/WorkflowRules.v ===== *)
(** The rules on a transition, from where they are picked to where they are checked:
    [web/src/features/workflows/designer/RuleEditor.tsx], and of the server the
    registry of [backend/internal/workflow/rules.go], [ValidateRules] of [graph.go] and
    the refusals of a save in [admin.go].

    A configuration is an object of JSON.  Its keys are compared as they are written, where
    the server's decoder also takes the ones that differ in case. *)

From Stdlib Require Import ZArith Lia Ascii String.
From stdpp Require Import base sets list strings.
From S2P Require Import Prelude JsString Config Api Designer DesignerSession ValidateGraph.

Open Scope Z_scope.

(** ** The registry: [rules.go] *)

Definition ConditionOrgRole : string := "condition.org_role".
Definition PostAddComment : string := "postfunction.add_comment".

Definition OrgRoles : list string := ["owner"; "admin"; "member"; "customer"]%string.

Definition plain_rule (kind : RuleKind) (type label description : string) : RuleType := mkRuleType kind type label description [].

(** What [NewDefaultRegistry] describes, in the order [Catalogue] lists it. *)
Definition rule_catalogue : list RuleType :=
  [ plain_rule condition "condition.is_assignee" "Actor is the assignee" "Offered only to whoever the issue is assigned to.";
    plain_rule condition "condition.is_reporter" "Actor is the reporter" "Offered only to whoever reported the issue.";
    mkRuleType condition ConditionOrgRole "Actor holds a role" "Offered only to people whose account role is one of these."
      [mkRuleOption "roles" "Roles" roles_option true OrgRoles];
    plain_rule validator "validator.assignee_required" "Assignee required" "The issue has to be assigned to somebody, before or as part of the move.";
    plain_rule validator "validator.comment_required" "Comment required" "The move has to come with a comment.";
    plain_rule validator "validator.resolution_required" "Resolution required" "The move has to say why the issue is being closed.";
    mkRuleType postfunction PostAddComment "Add a comment" "A fixed comment is added to the issue." [mkRuleOption "text" "Comment" text_option true []];
    plain_rule postfunction "postfunction.assign_to_actor" "Assign to the actor" "Whoever makes the move becomes the assignee.";
    plain_rule postfunction "postfunction.clear_assignee" "Clear the assignee" "The issue is left unassigned.";
    plain_rule postfunction "postfunction.clear_resolved" "Mark unresolved" "The issue is marked unresolved again.";
    plain_rule postfunction "postfunction.set_resolved" "Mark resolved" "The issue is marked resolved." ].

#[export] Instance RuleKind_eq : EqDecision RuleKind.
Proof. solve_decision. Defined.

(** [Known]: whether a rule type is registered under its kind. *)
Definition Known (kind : RuleKind) (type : string) : bool :=
  bool_decide (Exists (fun r => ruletype_kind r = kind ∧ ruletype_type r = type) rule_catalogue).

(** A list of strings and a string out of a configuration; [None] is a value of another type. *)
Fixpoint string_list (l : list Json) : option (list string) :=
  match l with
  | [] => Some []
  | JString s :: l' => cons s <$> string_list l'
  | JNull :: l' => cons EmptyString <$> string_list l'
  | _ => None
  end.

Definition decode_roles (config : list (string * Json)) : option (list string) :=
  match jget config "roles" with
  | None | Some JNull => Some []
  | Some (JArray l) => string_list l
  | _ => None
  end.

Definition decode_text (config : list (string * Json)) : option string :=
  match jget config "text" with
  | None | Some JNull => Some EmptyString
  | Some (JString s) => Some s
  | _ => None
  end.

(** Why a rule is refused. *)
Inductive RuleRefusal :=
  | UnknownRule (transition : string) (kind : RuleKind) (type : string)
  | InvalidConfiguration (transition : string)
  | NeedsRole (transition : string)
  | NeedsText (transition : string).

(** [Known] and [Check] of the registry, which builds the rule once. *)
Definition check_rule (transition : string) (r : RuleInput) : option RuleRefusal :=
  let type := ruleinput_type r in
  if negb (Known (ruleinput_kind r) type) then Some (UnknownRule transition (ruleinput_kind r) type)
  else if decide (type = ConditionOrgRole) then
    match decode_roles (ruleinput_config r) with
    | None => Some (InvalidConfiguration transition)
    | Some [] => Some (NeedsRole transition)
    | Some _ => None
    end
  else if decide (type = PostAddComment) then
    match decode_text (ruleinput_config r) with
    | None => Some (InvalidConfiguration transition)
    | Some text => if decide (TrimSpace text = EmptyString) then Some (NeedsText transition) else None
    end
  else None.

Fixpoint check_rules (transition : string) (rules : list RuleInput) : option RuleRefusal :=
  match rules with
  | [] => None
  | r :: rules' => match check_rule transition r with Some why => Some why | None => check_rules transition rules' end
  end.

Fixpoint ValidateRules (transitions : list TransitionInput) : option RuleRefusal :=
  match transitions with
  | [] => None
  | t :: ts => match check_rules (transitioninput_name t) (transitioninput_rules t) with Some why => Some why | None => ValidateRules ts end
  end.

(** ** What a save is refused for: [CreateWorkflow] and [SaveWorkflow] of [admin.go] *)

Inductive SaveRefusal :=
  | RefusedGraph (why : Refusal)
  | RefusedRules (why : RuleRefusal)
  | NoSuchWorkflow
  | NameTaken (name : string).

(** A new workflow, or one that is stored, or was until somebody deleted it. *)
Inductive Saving := creating | replacing (stored : bool).

Section Saves.
(** The names of the organization's statuses, the database's [lower], and the names of the other workflows. *)
Context (names : list (string * string)) (lower : string → string) (others : list string).

Definition save_refused (saving : Saving) (i : GraphInput) : option SaveRefusal :=
  let i := tidy i in
  match ValidateGraph names i, ValidateRules (input_transitions i) with
  | Some why, _ => Some (RefusedGraph why)
  | None, Some why => Some (RefusedRules why)
  | None, None =>
      match saving with
      | replacing false => Some NoSuchWorkflow
      | _ => if decide (lower (input_name i) ∈ map lower others) then Some (NameTaken (input_name i)) else None
      end
  end.
End Saves.

(** ** The editor of a transition's rules: [RuleEditor.tsx] *)

Record RulePicker := mkRulePicker { picker_rules : list DraftRule; picker_picked : string; picker_config : list (string * Json) }.

Definition picker_opened (rules : list DraftRule) : RulePicker := mkRulePicker rules EmptyString [].

(** What is done with its controls. *)
Inductive PickerEvent :=
  | TypePicked (type : string)
  | ChoiceTicked (option choice : string) (on : bool)
  | OptionTyped (option text : string)
  | RuleAdded
  | RuleRemoved (index : nat).

Section Picker.
Context (catalogue : list RuleType).

Definition chosen (p : RulePicker) : option RuleType := head (filter (fun t => ruletype_type t = picker_picked p) catalogue).

(** [Array.isArray(value) ? value.length > 0 : typeof value === "string" && value.trim() !== ""]. *)
Definition filled_in (value : option Json) : bool :=
  match value with
  | Some (JArray l) => negb (bool_decide (l = []))
  | Some (JString s) => truthy (trim s)
  | _ => false
  end.

Definition complete (p : RulePicker) : bool :=
  match chosen p with
  | Some type => forallb (fun o => negb (option_required o) || filled_in (jget (picker_config p) (option_name o))) (ruletype_options type)
  | None => false
  end.

(** The roles ticked so far. *)
Definition ticked (p : RulePicker) (option : string) : list Json :=
  match jget (picker_config p) option with Some (JArray l) => l | _ => [] end.

Definition is_role (choice : string) (j : Json) : bool := match j with JString s => bool_decide (s = choice) | _ => false end.

(** The option a control is drawn for: a box to tick for each choice of roles, a field for anything else. *)
Definition offers (p : RulePicker) (name : string) (roles : bool) : bool :=
  match chosen p with
  | Some type => existsb (fun o => bool_decide (option_name o = name) && Bool.eqb roles (match option_kind o with roles_option => true | text_option => false end)) (ruletype_options type)
  | None => false
  end.

Definition with_option (p : RulePicker) (name : string) (value : Json) : RulePicker :=
  mkRulePicker (picker_rules p) (picker_picked p) (jset (picker_config p) name value).

Definition picker_step (p : RulePicker) (e : PickerEvent) : RulePicker :=
  match e with
  | TypePicked type => mkRulePicker (picker_rules p) type []
  | ChoiceTicked option choice on =>
      if offers p option true
      then with_option p option (JArray (if on then ticked p option ++ [JString choice] else filter (fun j => is_role choice j = false) (ticked p option)))
      else p
  | OptionTyped option text => if offers p option false then with_option p option (JString text) else p
  | RuleAdded =>
      match chosen p with
      | Some type =>
          if complete p
          then mkRulePicker (picker_rules p ++ [mkDraftRule (ruletype_kind type) (ruletype_type type) (picker_config p)]) EmptyString []
          else p
      | None => p
      end
  | RuleRemoved index => mkRulePicker (delete index (picker_rules p)) (picker_picked p) (picker_config p)
  end.

Definition picker_run (p : RulePicker) (es : list PickerEvent) : RulePicker := foldl picker_step p es.
End Picker.

(** ** What the editor adds is never refused *)

Definition rule_sent (r : DraftRule) : RuleInput := mkRuleInput (draft_kind r) (draft_type r) (draft_config r).

Definition accepted_rule (r : DraftRule) : Prop := ∀ transition, check_rule transition (rule_sent r) = None.

(** A text typed without the next-line control, which the server trims and the page does not. *)
Definition typed_ok (e : PickerEvent) : Prop := match e with OptionTyped _ text => no_next_line text = true | _ => True end.

Record picker_ok (p : RulePicker) : Prop := {
  picker_accepted : Forall accepted_rule (picker_rules p);
  picker_roles : picker_picked p = ConditionOrgRole → ∀ v, jget (picker_config p) "roles" = Some v → ∃ l, v = JArray (map JString l);
  picker_text : picker_picked p = PostAddComment → ∀ v, jget (picker_config p) "text" = Some v → ∃ s, v = JString s ∧ no_next_line s = true;
}.

Lemma string_list_map l : string_list (map JString l) = Some l.
Proof. induction l as [|s l IH]; [done|]. cbn. by rewrite IH. Qed.

Lemma filter_strings choice l :
  filter (fun j => is_role choice j = false) (map JString l) = map JString (filter (fun s => s ≠ choice) l).
Proof.
  induction l as [|s l IH]; [done|]. rewrite map_cons, !filter_cons. cbn [is_role]. destruct (decide (s = choice)) as [->|Hs].
  - rewrite bool_decide_eq_true_2, !decide_False by (auto || by intros []). exact IH.
  - rewrite bool_decide_eq_false_2, !decide_True by done. cbn [map]. by rewrite IH.
Qed.

Lemma chosen_in p t : chosen rule_catalogue p = Some t → t ∈ rule_catalogue ∧ ruletype_type t = picker_picked p.
Proof. unfold chosen. intros H%head_Some_elem_of%list_elem_of_filter. tauto. Qed.

(** A rule that is complete is one the server accepts. *)
Lemma added_accepted p t :
  picker_ok p → chosen rule_catalogue p = Some t → complete rule_catalogue p = true →
  accepted_rule (mkDraftRule (ruletype_kind t) (ruletype_type t) (picker_config p)).
Proof.
  intros [_ Hroles Htext] Ht Hc transition. unfold complete in Hc. rewrite Ht in Hc.
  apply chosen_in in Ht as [Hin Hp]. unfold rule_sent. cbn [draft_kind draft_type draft_config].
  unfold rule_catalogue, plain_rule in Hin. rewrite !elem_of_cons, elem_of_nil in Hin.
  destruct_or! Hin; subst t; try done; unfold check_rule; cbn [ruletype_kind ruletype_type ruleinput_kind ruleinput_type ruleinput_config ruletype_options] in *;
    try reflexivity; cbn [forallb option_required option_name negb orb] in Hc; rewrite andb_true_r in Hc.
  - change (negb (Known condition ConditionOrgRole)) with false. cbn [negb]. rewrite decide_True by done. unfold decode_roles.
    destruct (jget (picker_config p) "roles") as [v|] eqn:E; [|discriminate Hc].
    destruct (Hroles (eq_sym Hp) v eq_refl) as [l ->]. rewrite string_list_map. destruct l; [discriminate Hc|done].
  - change (negb (Known postfunction PostAddComment)) with false. cbn [negb]. rewrite decide_False by discriminate. rewrite decide_True by done. unfold decode_text.
    destruct (jget (picker_config p) "text") as [v|] eqn:E; [|discriminate Hc].
    destruct (Htext (eq_sym Hp) v eq_refl) as (s & -> & Hs). cbn [filled_in] in Hc. rewrite TrimSpace_trim by done.
    rewrite decide_False; [done|]. intros Hn. by rewrite Hn in Hc.
Qed.

(** The box to tick is drawn for the roles only, and the field for the comment. *)
Lemma offers_none p option roles :
  picker_picked p = (if roles : bool then PostAddComment else ConditionOrgRole) → offers rule_catalogue p option roles = false.
Proof.
  intros Hp. unfold offers, chosen. rewrite Hp. destruct roles;
    [change (head (filter _ rule_catalogue)) with (Some (mkRuleType postfunction PostAddComment "Add a comment" "A fixed comment is added to the issue." [mkRuleOption "text" "Comment" text_option true []]))
    |change (head (filter _ rule_catalogue)) with (Some (mkRuleType condition ConditionOrgRole "Actor holds a role" "Offered only to people whose account role is one of these." [mkRuleOption "roles" "Roles" roles_option true OrgRoles]))];
    cbn [existsb ruletype_options option_kind option_name Bool.eqb]; by rewrite andb_false_r.
Qed.

Lemma picker_step_ok p e : picker_ok p → typed_ok e → picker_ok (picker_step rule_catalogue p e).
Proof.
  intros Hok He. pose proof Hok as [Ha Hr Ht]. destruct e as [type|option choice on|option text| |index]; cbn [picker_step].
  - split; [done|by intros _ v|by intros _ v].
  - destruct (offers rule_catalogue p option true) eqn:Ho; [|done]. split; [done| |]; cbn [with_option picker_picked picker_config]; intros Hp v Hv; rewrite jget_jset in Hv; case_decide as Hd.
    + subst option. injection Hv as <-. unfold ticked.
      assert (∃ l, match jget (picker_config p) "roles" with Some (JArray l) => l | _ => [] end = map JString l) as [l ->].
      { destruct (jget (picker_config p) "roles") as [v|] eqn:E; [|by exists []]. destruct (Hr Hp v eq_refl) as [l ->]. by exists l. }
      destruct on; [exists (l ++ [choice]); by rewrite map_app|]. rewrite filter_strings. eauto.
    + by apply Hr.
    + by rewrite (offers_none p option true) in Ho.
    + by apply Ht.
  - destruct (offers rule_catalogue p option false) eqn:Ho; [|done]. split; [done| |]; cbn [with_option picker_picked picker_config]; intros Hp v Hv; rewrite jget_jset in Hv; case_decide as Hd.
    + by rewrite (offers_none p option false) in Ho.
    + by apply Hr.
    + injection Hv as <-. eauto.
    + by apply Ht.
  - destruct (chosen rule_catalogue p) as [t|] eqn:Ec; [|done]. destruct (complete rule_catalogue p) eqn:E; [|done].
    split; [|by intros _ v|by intros _ v]. apply Forall_app. split; [done|]. apply Forall_singleton. by apply added_accepted.
  - split; [by apply Forall_delete|done|done].
Qed.

(** The rules the editor of a transition leaves, begun with rules the server accepted. *)
Definition edited_rules (rules : list DraftRule) : Prop :=
  ∃ stored es, Forall accepted_rule stored ∧ Forall typed_ok es ∧ rules = picker_rules (picker_run rule_catalogue (picker_opened stored) es).

Lemma edited_accepted rules : edited_rules rules → Forall accepted_rule rules.
Proof.
  intros (stored & es & Hs & He & ->). apply picker_accepted. unfold picker_run.
  assert (picker_ok (picker_opened stored)) as Hok by (split; [done|by intros _ v|by intros _ v]). revert Hok. generalize (picker_opened stored).
  induction He as [|e es He _ IH]; intros p Hok; [done|]. cbn [foldl]. apply IH. by apply picker_step_ok.
Qed.

Lemma rules_accepted edges :
  Forall (fun e => Forall accepted_rule (edge_rules e)) edges → ValidateRules (map tidy_transition (map transition_input edges)) = None.
Proof.
  assert (∀ transition rules, Forall accepted_rule rules → check_rules transition (map rule_sent rules) = None) as Hrules.
  { intros transition rules. induction 1 as [|r rules Hr _ IH]; [done|]. cbn [map check_rules]. by rewrite Hr. }
  induction 1 as [|e edges He _ IH]; [done|]. cbn [map ValidateRules]. rewrite IH.
  change (transitioninput_rules _) with (map rule_sent (edge_rules e)). by rewrite Hrules.
Qed.

(** C5: whatever was edited, the server saves a design the page lists no problem for, unless
    somebody deleted the workflow meanwhile or another one has its name: its checks of the graph and of the
    rules pass.  The statuses are ones the server knows, with ids that are not zero and hold
    no bar, the names and the texts hold no next-line control, which only the server trims, and
    the rules are what their editor made of rules the server had accepted. *)
Theorem no_problem_accepted nextKey d words statuses names lower others saving :
  design_ok nextKey d →
  Forall (known names) (node_ids d) → uuid_Nil ∉ node_ids d →
  Forall (fun id => no_bar id = true) (node_ids d) →
  no_next_line (design_name d) = true →
  Forall (fun e => no_next_line (edge_name e) = true) (design_edges d) →
  Forall (fun e => edited_rules (edge_rules e)) (design_edges d) →
  problems words d statuses = [] →
  save_refused names lower others saving (toInput d) =
    match saving with
    | replacing false => Some NoSuchWorkflow
    | _ => if decide (lower (trim (design_name d)) ∈ map lower others) then Some (NameTaken (trim (design_name d))) else None
    end.
Proof.
  intros Hok Hknown Hnil Hbar Hname Hnames Hrules Hp. unfold save_refused. cbv zeta.
  rewrite (graph_accepted nextKey d words statuses) by done. unfold tidy, toInput. cbn [input_transitions input_name].
  rewrite rules_accepted, TrimSpace_trim by (done || by (eapply Forall_impl; [exact Hrules|]; intros e; apply edited_accepted)). done.
Qed.

(** Two steps, and a transition for the owner that leaves a comment. *)
Definition owner_events : list PickerEvent :=
  [TypePicked ConditionOrgRole; ChoiceTicked "roles" "owner" true; ChoiceTicked "roles" "member" true; ChoiceTicked "roles" "member" false; RuleAdded;
   TypePicked PostAddComment; RuleAdded; OptionTyped "text" " closed "; RuleAdded; TypePicked "validator.comment_required"; RuleAdded; RuleRemoved 2].

Definition owner_rules : list DraftRule := picker_rules (picker_run rule_catalogue (picker_opened []) owner_events).

Example owner_rules_are : owner_rules =
  [mkDraftRule condition ConditionOrgRole [("roles"%string, JArray [JString "owner"])]; mkDraftRule postfunction PostAddComment [("text"%string, JString " closed ")]].
Proof. vm_compute. reflexivity. Qed.

Definition owned : Design := updateEdge two_named "t1" (mkEdgePatch None None None None (Some owner_rules)).

Lemma no_problem_accepted_witness :
  save_refused [("s1", "To Do"); ("s2", "Done")]%string (fun s => s) ["Other"%string] (replacing true) (toInput owned) = None.
Proof.
  rewrite (no_problem_accepted 0 owned problems_en []); [reflexivity|..].
  - apply (perform_ok (0, two_named) (Patch "t1" None None (Some owner_rules))); [apply fromWorkflow_ok; exact two_steps_ok|]. apply (bool_decide_unpack _). vm_compute. exact I.
  - repeat constructor; eexists; (split; [reflexivity|discriminate]).
  - apply (bool_decide_unpack _). vm_compute. exact I.
  - repeat constructor.
  - reflexivity.
  - repeat constructor.
  - apply Forall_cons. split; [|apply Forall_cons; split; [|apply Forall_nil; exact I]].
    + exists [], owner_events. split; [constructor|]. split; [repeat constructor|]. vm_compute. reflexivity.
    + exists [], []. split; [constructor|]. split; [constructor|]. vm_compute. reflexivity.
  - vm_compute. reflexivity.
Defined.

(** A rule whose roles were all taken away again is not offered to be added, and the server would refuse it. *)
Example no_role_left :
  check_rule "Go" (mkRuleInput condition ConditionOrgRole [("roles"%string, JArray [])]) = Some (NeedsRole "Go") ∧
  complete rule_catalogue (picker_run rule_catalogue (picker_opened []) (take 4 owner_events)) = true ∧
  complete rule_catalogue (picker_run rule_catalogue (picker_opened []) (take 2 owner_events ++ [ChoiceTicked "roles" "owner" false])) = false.
Proof. split_and!; vm_compute; reflexivity. Qed.
