(* ===== verification/DesignerFlow.v ===== *)
(** What the designer hands to the graph library it is drawn with:
    [web/src/features/workflows/designer/flow.ts].

    The library's node and edge objects are records of the properties the code
    sets; the element attributes, which only a browser reads, are left out of
    them but for the ones that repeat the model. *)

From Stdlib Require Import ZArith QArith Lia Ascii String.
From stdpp Require Import base sets list strings.
From S2P Require Import Prelude JsString Config LibGraph Api Designer DesignerPlaces DesignerSession.

Open Scope Z_scope.

Definition ANYWHERE_NODE_ID : string := "anywhere".

Definition toNodeId (statusId : string) : string :=
  if decide (statusId = ANYWHERE) then ANYWHERE_NODE_ID else statusId.

Definition fromNodeId (nodeId : string) : string :=
  if decide (nodeId = ANYWHERE_NODE_ID) then ANYWHERE else nodeId.

Inductive HandleType := source_handle | target_handle.
Inductive Position := position_right | position_left.

Record NodeHandle := mkNodeHandle {
  handle_type : HandleType;
  handle_position : Position;
  handle_x : Z; handle_y : Z; handle_width : Z; handle_height : Z;
}.

(** The ring on the right edge, and the cover over the whole box. *)
Definition handlesOf (cover : bool) : list NodeHandle :=
  let ring := mkNodeHandle source_handle position_right
    (WORKFLOW_NODE_WIDTH - WORKFLOW_HANDLE_SIZE / 2)
    ((WORKFLOW_NODE_HEIGHT - WORKFLOW_HANDLE_SIZE) / 2)
    WORKFLOW_HANDLE_SIZE WORKFLOW_HANDLE_SIZE in
  if negb cover then [ring]
  else [mkNodeHandle target_handle position_left 0 0 WORKFLOW_NODE_WIDTH WORKFLOW_NODE_HEIGHT; ring].

Inductive Selection := select_none | select_node (statusId : string) | select_edge (key : string).

Inductive NodeData :=
  | StatusNodeData (status : Status) (initial readOnly : bool)
  | AnywhereNodeData (readOnly : bool).

(** [fn_usable] is what is draggable, selectable and focusable. *)
Record FlowNode := mkFlowNode {
  fn_id : string;
  fn_position : Place;
  fn_usable : bool;
  fn_connectable : bool;
  fn_handles : list NodeHandle;
  fn_selected : bool;
  fn_label : string;
  fn_data : NodeData;
}.

Record TransitionEdge := mkTransitionEdge {
  te_id : string;
  te_source : string;
  te_target : string;
  te_usable : bool;
  te_selected : bool;
  te_label : string;
  te_name : string;
  te_shape : EdgeShape;
}.

(** [t.workflows.canvas]. *)
Record CanvasWords := mkCanvasWords {
  canvas_initial : string;
  canvas_anyStatus : string;
  canvas_transition : string → string;
  canvas_unnamed : string;
}.

Section ToFlow.
Context (words : CanvasWords) (design : Design) (statuses : list (string * Status))
  (selection : Selection) (readOnly : bool).

Definition is_selected_node (id : string) : bool :=
  match selection with select_node s => bool_decide (s = id) | _ => false end.
Definition is_selected_edge (key : string) : bool :=
  match selection with select_edge k => bool_decide (k = key) | _ => false end.

Definition status_node (n : Node) : option FlowNode :=
  status ← jget statuses (node_statusId n);
  let initial := bool_decide (design_initialId design = node_statusId n) in
  Some (mkFlowNode (toNodeId (node_statusId n)) (node_place n) (negb readOnly) (negb readOnly)
    (handlesOf true) (is_selected_node (node_statusId n))
    (status_name status +:+ (if initial then canvas_initial words else EmptyString))
    (StatusNodeData status initial readOnly)).

Definition anywhere_node : FlowNode :=
  mkFlowNode ANYWHERE_NODE_ID (rect_place anywhereRect) false (negb readOnly)
    (handlesOf false) false (canvas_anyStatus words) (AnywhereNodeData readOnly).

(** The "any status" box only earns its place when a transition leaves it. *)
Definition showAnywhere : bool :=
  negb readOnly || existsb (fun e => bool_decide (edge_from e = ANYWHERE)) (design_edges design).

Definition flow_nodes : list FlowNode :=
  omap status_node (design_nodes design) ++ (if showAnywhere then [anywhere_node] else []).

Definition drawn_boxes : list (string * Rect) :=
  map (fun n => (fromNodeId (fn_id n), nodeRect (fn_position n))) flow_nodes.

Definition transition_edge `{MathHypot} (e : Edge) : option TransitionEdge :=
  from ← rectOf design (edge_from e);
  to ← rectOf design (edge_to e);
  let obstacles := map snd (filter (fun each => each.1 ≠ edge_from e ∧ each.1 ≠ edge_to e) drawn_boxes) in
  let base := default 0 (jget (bends (design_edges design)) (edge_key e)) in
  let bend := bendClearOf from to obstacles base WORKFLOW_EDGE_BEND in
  Some (mkTransitionEdge (edge_key e) (toNodeId (edge_from e)) (toNodeId (edge_to e)) (negb readOnly)
    (is_selected_edge (edge_key e))
    (canvas_transition words (if truthy (edge_name e) then edge_name e else canvas_unnamed words))
    (edge_name e) (edgeShape from to bend)).

Definition toFlow `{MathHypot} : list FlowNode * list TransitionEdge :=
  (flow_nodes, omap transition_edge (design_edges design)).
End ToFlow.

(** ** What is drawn *)

Lemma toNodeId_inj (ids : list string) a b :
  (∀ x, x ∈ ids → x ≠ ANYWHERE_NODE_ID) → (a = ANYWHERE ∨ a ∈ ids) → (b = ANYWHERE ∨ b ∈ ids) →
  toNodeId a = toNodeId b → a = b.
Proof.
  unfold toNodeId. intros Hids Ha Hb. pose proof (Hids a). pose proof (Hids b).
  repeat case_decide; naive_solver.
Qed.

Lemma fromNodeId_toNodeId id : id ≠ ANYWHERE_NODE_ID → fromNodeId (toNodeId id) = id.
Proof. unfold fromNodeId, toNodeId. intros H. repeat case_decide; congruence. Qed.

Lemma status_node_id words d statuses sel ro n fn :
  status_node words d statuses sel ro n = Some fn → fn_id fn = toNodeId (node_statusId n).
Proof. unfold status_node. destruct (jget _ _); simpl; intros ?; simplify_eq/=. done. Qed.

Lemma flow_status_ids words d statuses sel ro :
  (∀ id, id ∈ node_ids d → is_Some (jget statuses id)) →
  map fn_id (omap (status_node words d statuses sel ro) (design_nodes d)) = map toNodeId (node_ids d).
Proof.
  unfold node_ids. intros Hk. induction (design_nodes d) as [|n nodes IH]; [done|].
  cbn [omap list_omap map] in *. destruct (Hk (node_statusId n)) as [s Hs]; [by left|].
  unfold status_node at 1. rewrite Hs. cbn. rewrite IH; [done|]. intros id Hid. apply Hk. by right.
Qed.

Lemma find_node_some nodes id : id ∈ map node_statusId nodes → is_Some (find_node nodes id).
Proof.
  unfold find_node. intros (n & -> & Hn)%list_elem_of_fmap.
  destruct (filter _ nodes) as [|m l] eqn:E; [|by eexists].
  exfalso. apply (elem_of_nil n). rewrite <- E. by apply list_elem_of_filter.
Qed.

Lemma rectOf_some ids d e id :
  node_ids d = ids → edge_ok ids e → id = edge_from e ∨ id = edge_to e → is_Some (rectOf d id).
Proof.
  intros <- (Ht & Hf & _) Hid. unfold rectOf. case_decide; [by eexists|].
  apply fmap_is_Some, find_node_some. destruct Hid as [->| ->]; [|done]. by destruct Hf.
Qed.

(** For a design reached by editing, the drawing is a graph over it: every
    status is one node, every transition one edge with its own key, each end of
    an edge is a node that is drawn, and no two nodes share an id. *)
Theorem toFlow_faithful `{MathHypot} words nextKey d statuses sel ro :
  design_ok nextKey d → ANYWHERE_NODE_ID ∉ node_ids d →
  (∀ id, id ∈ node_ids d → is_Some (jget statuses id)) →
  let '(nodes, edges) := toFlow words d statuses sel ro in
  NoDup (map fn_id nodes) ∧
  (∀ id, id ∈ node_ids d → id ∈ map fn_id nodes) ∧
  map te_id edges = edge_keys d ∧
  Forall (fun te => te_source te ∈ map fn_id nodes ∧ te_target te ∈ map fn_id nodes ∧
                    te_source te ≠ te_target te) edges.
Proof.
  intros Hok Hany Hknown. unfold toFlow. pose proof (ok_edges _ d Hok) as Hedges.
  assert (∀ id, id ∈ node_ids d → toNodeId id = id) as Hid.
  { intros id Hid. unfold toNodeId. rewrite decide_False; [done|]. intros ->. by apply (ok_ids _ d Hok). }
  assert (map fn_id (flow_nodes words d statuses sel ro) =
    node_ids d ++ (if showAnywhere d ro then [ANYWHERE_NODE_ID] else [])) as Hids.
  { unfold flow_nodes. rewrite map_app, flow_status_ids by done. f_equal; [|by destruct showAnywhere].
    clear -Hid. induction (node_ids d) as [|x l IH]; [done|]. cbn [map].
    rewrite Hid by (by left). f_equal. apply IH. intros y Hy. apply Hid. by right. }
  rewrite Hids. split_and!.
  - apply NoDup_app. split_and!; [apply Hok| |destruct showAnywhere; apply NoDup_singleton || constructor].
    intros x Hx Hin. destruct showAnywhere; [|by apply elem_of_nil in Hin].
    apply list_elem_of_singleton in Hin as ->. done.
  - intros id Hin. apply elem_of_app. by left.
  - unfold edge_keys. clear Hids. assert (∀ es, Forall (edge_ok (node_ids d)) es →
      map te_id (omap (transition_edge words d statuses sel ro) es) = map edge_key es) as Hm; [|by apply Hm].
    intros es Hes. induction Hes as [|e es He Hes IH]; [done|]. cbn [omap list_omap map].
    unfold transition_edge at 1.
    destruct (rectOf_some _ d e (edge_from e) eq_refl He) as [r1 ->]; [by left|].
    destruct (rectOf_some _ d e (edge_to e) eq_refl He) as [r2 ->]; [by right|].
    cbn. by rewrite IH.
  - apply Forall_forall. intros te (e & He & Hte)%list_elem_of_omap.
    rewrite Forall_forall in Hedges. destruct (Hedges e He) as (Ht & Hf & Hne).
    assert (edge_from e = ANYWHERE → showAnywhere d ro = true) as Hshow.
    { intros E. unfold showAnywhere. apply orb_true_iff. right. apply existsb_exists. exists e.
      rewrite <- list_elem_of_In. by rewrite bool_decide_true. }
    unfold transition_edge in Hte. destruct (rectOf d (edge_from e)), (rectOf d (edge_to e)); simplify_eq/=.
    rewrite !elem_of_app. split_and!.
    + destruct Hf as [E|Hf]; [|left; by rewrite Hid]. right. rewrite (Hshow E), E. by left.
    + left. by rewrite Hid.
    + intros E. apply Hne. apply (toNodeId_inj (node_ids d)); [|done|by right|done].
      intros x Hx ->. done.
Qed.

Definition canvas_en : CanvasWords :=
  mkCanvasWords ", where new issues open" "Any status" (fun name => "Transition " +:+ name) "(unnamed)".

Lemma toFlow_faithful_witness :
  map te_id (@toFlow canvas_en two_named [("s1", st_todo); ("s2", st_done)]%string select_none false taxicabHypot).2 =
  edge_keys two_named.
Proof.
  refine (proj1 (proj2 (proj2 (@toFlow_faithful taxicabHypot canvas_en 0 two_named
    [("s1", st_todo); ("s2", st_done)]%string select_none false _ _ _)))).
  - apply fromWorkflow_ok. exact two_steps_ok.
  - apply (bool_decide_unpack _). vm_compute. exact I.
  - intros id Hid. cbn in Hid.
    apply elem_of_cons in Hid as [->|[->|[]%elem_of_nil]%elem_of_cons]; eexists; reflexivity.
Defined.
