(* ===== verification/JsDate.v ===== *)
(** Dates of the language, in UTC.

    A [Date] is its time value, in milliseconds since the epoch; one that is
    not a date is [None].  The calendar is the proleptic Gregorian one of
    ECMA-262, by the arithmetic of eras of 400 years. *)

From Stdlib Require Import ZArith QArith Qround Lia Lqa Ascii String.
From stdpp Require Import base list strings.
From S2P Require Import Prelude JsString Config.

Open Scope Z_scope.

Definition DAYS_PER_ERA : Z := 146097.

(** The days of an era before its year, counted from March. *)
Definition year_days (yoe : Z) : Z := yoe * 365 + yoe / 4 - yoe / 100.

(** The months counted from March, and the days before one. *)
Definition from_march (m : Z) : Z := if m <=? 2 then m + 9 else m - 3.
Definition month_days (mp : Z) : Z := (153 * mp + 2) / 5.

(** The day number of a date, its month from 1; the day may be any number. *)
Definition days_of (y m d : Z) : Z :=
  let y' := if m <=? 2 then y - 1 else y in
  (y' / 400) * DAYS_PER_ERA + year_days (y' mod 400) + month_days (from_march m) + d - 1 - 719468.

(** The year of an era a day falls in: an estimate by the mean length of a year,
    which is at most one off; the last day of the era is of its last year. *)
Definition era_year (doe : Z) : Z :=
  let e := doe * 400 / DAYS_PER_ERA in
  if doe <? year_days e then e - 1 else if (e <? 399) && (year_days (e + 1) <=? doe) then e + 1 else e.

(** The year, month and day within an era. *)
Definition era_civil (doe : Z) : Z * Z * Z :=
  let yoe := era_year doe in
  let doy := doe - year_days yoe in
  let mp := (5 * doy + 2) / 153 in
  let m := if mp <? 10 then mp + 3 else mp - 9 in
  (yoe + (if m <=? 2 then 1 else 0), m, doy - month_days mp + 1).

(** The year, the month from 1 and the day of a day number. *)
Definition civil_of (days : Z) : Z * Z * Z :=
  let z := days + 719468 in
  let '(y, m, d) := era_civil (z mod DAYS_PER_ERA) in
  (y + 400 * (z / DAYS_PER_ERA), m, d).

Definition day_number (t : Z) : Z := t / MS_PER_DAY.

Definition getUTCFullYear (t : Z) : Z := (civil_of (day_number t)).1.1.
(** From 0, as the language counts months. *)
Definition getUTCMonth (t : Z) : Z := (civil_of (day_number t)).1.2 - 1.
Definition getUTCDate (t : Z) : Z := (civil_of (day_number t)).2.
Definition getUTCDay (t : Z) : Z := (day_number t + 4) mod 7.

(** [Date.UTC(year, month, date)]: a month past the year's end carries over, and
    a year below 100 is one of the 1900s. *)
Definition date_UTC (year month date : Z) : Z :=
  let y := if (0 <=? year) && (year <=? 99) then 1900 + year else year in
  days_of (y + month / 12) (month mod 12 + 1) date * MS_PER_DAY.

(** ** The calendar and the day numbers are inverse *)

Ltac div_lia := Z.to_euclidean_division_equations; lia.

Lemma era_year_spec doe :
  0 <= doe < DAYS_PER_ERA →
  0 <= era_year doe < 400 ∧ year_days (era_year doe) <= doe ∧
  (doe < year_days (era_year doe + 1) ∨ era_year doe = 399).
Proof.
  intros H. unfold era_year. cbv zeta. set (e := doe * 400 / DAYS_PER_ERA).
  assert (146097 * e <= doe * 400 < 146097 * (e + 1)) as He by (unfold e, DAYS_PER_ERA; div_lia).
  clearbody e. unfold DAYS_PER_ERA in H. unfold year_days in *.
  destruct (Z.ltb_spec doe (e * 365 + e / 4 - e / 100)); [div_lia|].
  destruct (Z.ltb_spec e 399); cbn [andb]; [|div_lia].
  destruct (Z.leb_spec ((e + 1) * 365 + (e + 1) / 4 - (e + 1) / 100) doe); div_lia.
Qed.

Lemma era_year_unique yoe doy :
  0 <= yoe < 400 → 0 <= doy → (year_days yoe + doy < year_days (yoe + 1) ∨ (yoe = 399 ∧ doy <= 365)) →
  era_year (year_days yoe + doy) = yoe.
Proof.
  intros Hy Hd Hlt.
  assert (0 <= year_days yoe + doy < DAYS_PER_ERA) as Hdoe by (unfold year_days, DAYS_PER_ERA in *; div_lia).
  destruct (era_year_spec _ Hdoe) as (H1 & H2 & H3).
  revert H1 H2 H3. generalize (era_year (year_days yoe + doy)). intros y H1 H2 H3.
  assert (∀ a b, a < b → year_days (a + 1) <= year_days b) as Hmono by (intros; unfold year_days; div_lia).
  destruct (Z.lt_trichotomy y yoe) as [Hlt'|[->|Hgt]]; [|done|]; exfalso.
  - pose proof (Hmono y yoe Hlt'). lia.
  - pose proof (Hmono yoe y Hgt). lia.
Qed.

Lemma march_month doy mp :
  0 <= doy <= 365 → mp = (5 * doy + 2) / 153 →
  0 <= mp <= 11 ∧ month_days mp <= doy ∧ (doy < month_days (mp + 1)).
Proof. unfold month_days. intros Hd ->. div_lia. Qed.

Lemma march_month_unique mp doy :
  0 <= mp <= 11 → month_days mp <= doy < month_days (mp + 1) → (5 * doy + 2) / 153 = mp.
Proof. unfold month_days. intros. div_lia. Qed.

Lemma era_civil_spec doe :
  0 <= doe < DAYS_PER_ERA →
  let '(y, m, d) := era_civil doe in
  1 <= m <= 12 ∧ 1 <= d <= 31 ∧
  (if m <=? 2 then y - 1 else y) = era_year doe ∧
  year_days (era_year doe) + month_days (from_march m) + d - 1 = doe.
Proof.
  intros H. destruct (era_year_spec doe H) as (Hy & Hlo & Hhi).
  unfold era_civil. cbv zeta. set (doy := doe - year_days (era_year doe)).
  assert (0 <= doy <= 365) as Hdoy.
  { subst doy. unfold year_days, DAYS_PER_ERA in *. destruct Hhi as [?|E]; [|rewrite E in *]; div_lia. }
  destruct (march_month doy _ Hdoy eq_refl) as (Hm & H1 & H2).
  set (mp := (5 * doy + 2) / 153) in *. clearbody mp.
  assert (month_days (mp + 1) <= month_days mp + 31) by (unfold month_days; div_lia).
  unfold from_march. destruct (Z.ltb_spec mp 10).
  - destruct (Z.leb_spec (mp + 3) 2); [lia|]. replace (mp + 3 - 3) with mp by lia. subst doy. lia.
  - destruct (Z.leb_spec (mp - 9) 2); [|lia]. replace (mp - 9 + 9) with mp by lia. subst doy. lia.
Qed.

(** Every day number is the number of the date it is read as. *)
Lemma days_of_civil_of n :
  let '(y, m, d) := civil_of n in days_of y m d = n ∧ 1 <= m <= 12 ∧ 1 <= d <= 31.
Proof.
  unfold civil_of. set (z := n + 719468).
  pose proof (Z.mod_pos_bound z DAYS_PER_ERA ltac:(done)) as Hz.
  pose proof (era_civil_spec _ Hz) as H. pose proof (era_year_spec _ Hz) as (Hy & _).
  pose proof (Z.div_mod z DAYS_PER_ERA ltac:(done)) as Hdiv.
  destruct (era_civil (z mod DAYS_PER_ERA)) as [[y m] d]. destruct H as (Hm & Hd & Hy' & Hsum).
  split; [|done]. unfold days_of.
  assert ((if m <=? 2 then y + 400 * (z / DAYS_PER_ERA) - 1 else y + 400 * (z / DAYS_PER_ERA)) =
    era_year (z mod DAYS_PER_ERA) + z / DAYS_PER_ERA * 400) as ->.
  { rewrite <- Hy'. destruct (m <=? 2); lia. }
  rewrite Z.div_add, Z.mod_add by lia. rewrite Z.div_small, Z.mod_small by lia. lia.
Qed.

(** How many days the month has. *)
Definition days_in_month (y m : Z) : Z := days_of (y + m / 12) (m mod 12 + 1) 1 - days_of y m 1.

Definition march_year (y m : Z) : Z := if m <=? 2 then y - 1 else y.

Lemma days_of_march y m d :
  days_of y m d = march_year y m / 400 * DAYS_PER_ERA + year_days (march_year y m mod 400) +
    month_days (from_march m) + d - 1 - 719468.
Proof. done. Qed.

(** Evaluates the closed parts of a goal about one month. *)
Ltac close_terms :=
  repeat match goal with
  | |- context [Z.modulo ?a 12 + 1] => let v := eval vm_compute in (Z.modulo a 12 + 1) in change (Z.modulo a 12 + 1) with v
  | |- context [Z.div ?a 12] => let v := eval vm_compute in (Z.div a 12) in change (Z.div a 12) with v
  | |- context [from_march ?a] => let v := eval vm_compute in (from_march a) in change (from_march a) with v
  end.

(** A month is followed by the next of the year from March, or by March. *)
Lemma days_in_month_march y m :
  1 <= m <= 12 →
  let mp := from_march m in let yoe := march_year y m mod 400 in
  0 <= mp <= 11 ∧ 28 <= days_in_month y m <= 31 ∧
  (if mp =? 11 then days_in_month y m = 28 ∨ days_in_month y m = 29
   else days_in_month y m = month_days (mp + 1) - month_days mp) ∧
  (month_days mp + days_in_month y m <= year_days (yoe + 1) - year_days yoe ∨
   (yoe = 399 ∧ month_days mp + days_in_month y m <= 366)).
Proof.
  intros Hm. cbv zeta. unfold days_in_month. rewrite !days_of_march.
  assert (m = 1 ∨ m = 2 ∨ m = 3 ∨ m = 4 ∨ m = 5 ∨ m = 6 ∨ m = 7 ∨ m = 8 ∨ m = 9 ∨ m = 10 ∨ m = 11 ∨ m = 12) as Hcases by lia.
  destruct Hcases as [->|[->|[->|[->|[->|[->|[->|[->|[->|[->|[->| ->]]]]]]]]]]];
    close_terms; unfold march_year; cbn [Z.leb Z.eqb Z.compare Pos.compare Pos.compare_cont Pos.eqb];
    unfold month_days, year_days, DAYS_PER_ERA; div_lia.
Qed.

(** Every date of a month is read back from its day number. *)
Lemma civil_of_days_of y m d :
  1 <= m <= 12 → 1 <= d <= days_in_month y m → civil_of (days_of y m d) = (y, m, d).
Proof.
  intros Hm Hd. destruct (days_in_month_march y m Hm) as (Hmp & Hlen & Hnext & Hyear).
  set (mp := from_march m) in *. set (Y := march_year y m) in *.
  pose proof (Z.mod_pos_bound Y 400 ltac:(lia)) as Hyoe. pose proof (Z.div_mod Y 400 ltac:(lia)) as HY.
  set (yoe := Y mod 400) in *. set (era := Y / 400) in *.
  set (doy := month_days mp + d - 1).
  assert (0 <= doy) as Hdoy0 by (subst doy; unfold month_days; div_lia).
  assert (month_days mp <= doy < month_days (mp + 1)) as Hdoy.
  { subst doy. destruct (mp =? 11) eqn:E; [|lia]. apply Z.eqb_eq in E. rewrite E. unfold month_days. div_lia. }
  assert (era_year (year_days yoe + doy) = yoe) as Hera.
  { apply era_year_unique; [done|done|]. destruct Hyear as [?|[-> ?]]; [left|right]; lia. }
  assert (0 <= year_days yoe + doy < DAYS_PER_ERA) as Hdoe.
  { unfold year_days, DAYS_PER_ERA in *. destruct Hyear as [?|[-> ?]]; div_lia. }
  unfold civil_of. rewrite days_of_march. fold mp Y yoe era.
  replace (era * DAYS_PER_ERA + year_days yoe + month_days mp + d - 1 - 719468 + 719468)
    with (year_days yoe + doy + era * DAYS_PER_ERA) by (subst doy; lia).
  rewrite Z.mod_add, Z.div_add by done. rewrite Z.mod_small, Z.div_small by done.
  unfold era_civil. rewrite Hera. replace (year_days yoe + doy - year_days yoe) with doy by lia.
  rewrite (march_month_unique mp doy Hmp Hdoy). subst doy mp Y. unfold from_march, march_year in *.
  destruct (Z.leb_spec m 2).
  - destruct (Z.ltb_spec (m + 9) 10); [lia|]. replace (m + 9 - 9) with m by lia.
    destruct (Z.leb_spec m 2); [|lia]. repeat f_equal; lia.
  - destruct (Z.ltb_spec (m - 3) 10); [|lia]. replace (m - 3 + 3) with m by lia.
    destruct (Z.leb_spec m 2); [lia|]. repeat f_equal; lia.
Qed.

(** ** Parsing and writing days *)

(** A date the code is handed: an instant, or a day as the API writes it. *)
Definition four_digits (s : string) : bool :=
  (String.length s =? 4)%nat && string_forall is_digit s.
Definition two_digits (s : string) : bool :=
  (String.length s =? 2)%nat && string_forall is_digit s.

(** [new Date("YYYY-MM-DD")]: midnight in UTC, for a day the calendar has. *)
Definition parse_day (s : string) : option Z :=
  match split "-"%char s with
  | [y; m; d] =>
      if four_digits y && two_digits m && two_digits d then
        let y := digits_value 0 y in let m := digits_value 0 m in let d := digits_value 0 d in
        if (1 <=? m) && (m <=? 12) && (1 <=? d) && (d <=? days_in_month y m)
        then Some (days_of y m d * MS_PER_DAY) else None
      else None
  | _ => None
  end.

(** Two digits of a number below a bound, followed by the rest of a text. *)
Definition take_two (below : Z) (s : string) : option (Z * string) :=
  let d := sliceTo 2 s in
  if two_digits d && (digits_value 0 d <? below) then Some (digits_value 0 d, sliceFrom 2 s) else None.

Definition expect (c : ascii) (s : string) : option string :=
  match s with String d s' => if decide (d = c) then Some s' else None | EmptyString => None end.

(** The zone at the end of a timestamp, in minutes ahead of UTC. *)
Definition parse_zone (s : string) : option Z :=
  match s with
  | String c s' =>
      if decide (c = "Z"%char) then (if decide (s' = EmptyString) then Some 0 else None)
      else
        sign ← (if decide (c = "+"%char) then Some 1 else if decide (c = "-"%char) then Some (-1) else None);
        '(h, r) ← take_two 24 s'; r ← expect ":" r; '(m, r) ← take_two 60 r;
        if decide (r = EmptyString) then Some (sign * (h * 60 + m)) else None
  | EmptyString => None
  end.

(** A fraction of a second, in whole milliseconds. *)
Definition parse_fraction (s : string) : option (Z * string) :=
  match s with
  | String c s' =>
      if decide (c = "."%char) then
        let '(ds, r) := span_digits s' in
        if decide (ds = EmptyString) then None
        else Some (digits_value 0 ds * 1000 / 10 ^ Z.of_nat (String.length ds), r)
      else Some (0, s)
  | EmptyString => Some (0, s)
  end.

(** The milliseconds since midnight UTC of [HH:MM:SS.sssZ]. *)
Definition parse_time (s : string) : option Z :=
  '(h, r) ← take_two 24 s; r ← expect ":" r; '(m, r) ← take_two 60 r; r ← expect ":" r;
  '(sec, r) ← take_two 60 r; '(ms, r) ← parse_fraction r; zone ← parse_zone r;
  Some (((h * 60 + m - zone) * 60 + sec) * 1000 + ms).

(** [new Date(text)] and [Date.parse(text)] of the two forms the server writes:
    a day, and a timestamp. *)
Definition parse_date (s : string) : option Z :=
  match split "T"%char s with
  | [d] => parse_day d
  | [d; t] => a ← parse_day d; b ← parse_time t; Some (a + b)
  | _ => None
  end.

(** The year of [toISOString]: four digits, or a sign and six. *)
Definition iso_year (y : Z) : string :=
  if (0 <=? y) && (y <=? 9999) then padStart 4 (stringOfInt y)
  else (if y <? 0 then "-" else "+") +:+ padStart 6 (stringOfInt (Z.abs y)).

(** [toISOString().slice(0, 10)]. *)
Definition iso_slice (t : Z) : string :=
  let '(y, m, d) := civil_of (day_number t) in
  sliceTo 10 (iso_year y +:+ "-" +:+ padStart 2 (stringOfInt m) +:+ "-" +:+ padStart 2 (stringOfInt d)).

(** ** Days from the year 100 on

    Before it [Date.UTC] takes a year for one of the 1900s. *)

Definition MODERN : Z := days_of 100 1 1 * MS_PER_DAY.

Lemma modern_year t : MODERN <= t → 100 <= getUTCFullYear t.
Proof.
  intros Ht. unfold getUTCFullYear. pose proof (days_of_civil_of (day_number t)) as H.
  destruct (civil_of (day_number t)) as [[y m] d]. cbn [fst snd]. destruct H as (Hn & Hm & Hd).
  destruct (Z_lt_le_dec y 100) as [Hy|]; [exfalso|done].
  assert (days_of 100 1 1 <= day_number t) as Hge.
  { apply Z.div_le_lower_bound; [done|]. unfold MODERN in Ht. lia. }
  rewrite <- Hn in Hge. change (days_of 100 1 1) with (-683003) in Hge.
  rewrite days_of_march in Hge. unfold march_year, from_march, year_days, month_days, DAYS_PER_ERA in Hge.
  destruct (Z.leb_spec m 2); div_lia.
Qed.

Lemma day_number_bounds t : day_number t * MS_PER_DAY <= t < (day_number t + 1) * MS_PER_DAY.
Proof. unfold day_number, MS_PER_DAY. div_lia. Qed.

Lemma day_number_mult n : day_number (n * MS_PER_DAY) = n.
Proof. unfold day_number. by apply Z.div_mul. Qed.

Lemma modern_day_number t : MODERN <= t ↔ -683003 <= day_number t.
Proof. pose proof (day_number_bounds t). unfold MODERN. change (days_of 100 1 1) with (-683003). unfold MS_PER_DAY in *. lia. Qed.

Lemma date_UTC_modern y m d : 100 <= y → date_UTC y m d = days_of (y + m / 12) (m mod 12 + 1) d * MS_PER_DAY.
Proof. intros Hy. unfold date_UTC. destruct (Z.leb_spec 0 y), (Z.leb_spec y 99); try lia; done. Qed.

Lemma date_UTC_month y m d : 100 <= y → 1 <= m <= 12 → date_UTC y (m - 1) d = days_of y m d * MS_PER_DAY.
Proof.
  intros Hy Hm. rewrite date_UTC_modern by done.
  rewrite Z.div_small, Z.mod_small by lia. by rewrite Z.add_0_r, Z.sub_add.
Qed.

(** Midnight on the day of an instant. *)
Lemma midnight t :
  MODERN <= t → date_UTC (getUTCFullYear t) (getUTCMonth t) (getUTCDate t) = day_number t * MS_PER_DAY.
Proof.
  intros Ht. pose proof (modern_year t Ht) as Hy. revert Hy. unfold getUTCFullYear, getUTCMonth, getUTCDate.
  pose proof (days_of_civil_of (day_number t)) as H.
  destruct (civil_of (day_number t)) as [[y m] d]. cbn [fst snd]. destruct H as (Hn & Hm & _). intros Hy.
  by rewrite date_UTC_month, Hn.
Qed.

(** A date read from a day number is one its month has. *)
Lemma civil_of_valid n :
  let '(y, m, d) := civil_of n in 1 <= d <= days_in_month y m.
Proof.
  pose proof (days_of_civil_of n) as H. destruct (civil_of n) as [[y m] d] eqn:E. destruct H as (Hn & Hm & Hd).
  split; [lia|]. destruct (Z_le_gt_dec d (days_in_month y m)) as [|Hgt]; [done|]. exfalso.
  destruct (days_in_month_march y m Hm) as (_ & Hlen & _).
  assert (1 <= m mod 12 + 1 <= 12) as Hm' by div_lia.
  destruct (days_in_month_march (y + m / 12) (m mod 12 + 1) Hm') as (_ & Hlen' & _).
  assert (days_of (y + m / 12) (m mod 12 + 1) (d - days_in_month y m) = n) as Hn'.
  { rewrite <- Hn. unfold days_in_month. rewrite !days_of_march. lia. }
  pose proof (civil_of_days_of (y + m / 12) (m mod 12 + 1) (d - days_in_month y m) Hm' ltac:(lia)) as Hc.
  rewrite Hn', E in Hc. injection Hc as Hy Hmm Hdd. div_lia.
Qed.

(** A month starts before the days of it, and the next one after at least four
    weeks and at most 31 days. *)
Lemma month_start n :
  let '(y, m, d) := civil_of n in days_of y m 1 <= n ∧ n - 30 <= days_of y m 1.
Proof.
  pose proof (days_of_civil_of n) as H. destruct (civil_of n) as [[y m] d]. destruct H as (Hn & _ & Hd).
  rewrite !days_of_march in *. lia.
Qed.
