(* ===== verification/DayText.v ===== *)
(** Days as the API writes them, [YYYY-MM-DD]: the text of a day, what it is
    read as, and that the order of the texts is the order of the days. *)

From Stdlib Require Import ZArith Lia Ascii String.
From stdpp Require Import base list strings list_numbers.
From S2P Require Import Prelude JsString Config JsDate.

Open Scope Z_scope.

(** ** The first of each month *)

(** The first of the months counted from a year's January. *)
Definition month_start_of (y k : Z) : Z := days_of (y + k / 12) (k mod 12 + 1) 1.

Lemma month_start_next y k : 28 <= month_start_of y (k + 1) - month_start_of y k <= 31.
Proof.
  unfold month_start_of. assert (1 <= k mod 12 + 1 <= 12) as Hm by div_lia.
  destruct (days_in_month_march (y + k / 12) (k mod 12 + 1) Hm) as (_ & H & _).
  unfold days_in_month in H.
  replace (y + k / 12 + (k mod 12 + 1) / 12) with (y + (k + 1) / 12) in H by div_lia.
  replace ((k mod 12 + 1) mod 12) with ((k + 1) mod 12) in H by div_lia. done.
Qed.

Lemma month_start_civil y k : civil_of (month_start_of y k) = (y + k / 12, k mod 12 + 1, 1).
Proof.
  assert (1 <= k mod 12 + 1 <= 12) as Hm by div_lia.
  apply civil_of_days_of; [done|].
  destruct (days_in_month_march (y + k / 12) (k mod 12 + 1) Hm) as (_ & H & _). lia.
Qed.

Lemma month_start_mono y k n : 0 <= n → month_start_of y k + 28 * n <= month_start_of y (k + n).
Proof.
  intros Hn. revert n Hn.
  apply (natlike_ind (fun n => month_start_of y k + 28 * n <= month_start_of y (k + n))); [|intros n Hn IH].
  - replace (k + 0) with k by lia. lia.
  - pose proof (month_start_next y (k + n)).
    replace (k + Z.succ n) with (k + n + 1) by lia. set (month_start_of y k) in *. set (month_start_of y (k + n)) in *.
    set (month_start_of y (k + n + 1)) in *. lia.
Qed.

(** Where a day stands in its month. *)
Lemma day_in_month n :
  let '(y, m, d) := civil_of n in
  1 <= m <= 12 ∧ n = month_start_of 0 (12 * y + m - 1) + d - 1 ∧ 1 <= d ∧ n < month_start_of 0 (12 * y + m).
Proof.
  pose proof (days_of_civil_of n) as H. pose proof (civil_of_valid n) as Hv.
  destruct (civil_of n) as [[y m] d]. destruct H as (Hn & Hm & Hd). unfold days_in_month in Hv.
  assert (month_start_of 0 (12 * y + m - 1) = days_of y m 1) as E.
  { unfold month_start_of. f_equal; div_lia. }
  assert (month_start_of 0 (12 * y + m) = days_of (y + m / 12) (m mod 12 + 1) 1) as E'.
  { unfold month_start_of. f_equal; div_lia. }
  rewrite E, E'. assert (days_of y m d = days_of y m 1 + d - 1) by (rewrite !days_of_march; lia).
  split_and!; lia.
Qed.

(** The order of days is that of year, then month, then day of the month. *)
Lemma civil_order a b :
  let '(y, m, d) := civil_of a in let '(y', m', d') := civil_of b in
  Z.sgn (a - b) =
    if y =? y' then if m =? m' then Z.sgn (d - d') else Z.sgn (m - m') else Z.sgn (y - y').
Proof.
  pose proof (day_in_month a) as Ha. pose proof (day_in_month b) as Hb.
  destruct (civil_of a) as [[y m] d], (civil_of b) as [[y' m'] d'].
  destruct Ha as (Hm & Ea & Hd & Hla), Hb as (Hm' & Eb & Hd' & Hlb).
  assert (12 * y + m < 12 * y' + m' → a < b) as Hlt.
  { intros. pose proof (month_start_mono 0 (12 * y + m) (12 * y' + m' - 1 - (12 * y + m))) as H1.
    replace (12 * y + m + (12 * y' + m' - 1 - (12 * y + m))) with (12 * y' + m' - 1) in H1 by lia. lia. }
  assert (12 * y' + m' < 12 * y + m → b < a) as Hgt.
  { intros. pose proof (month_start_mono 0 (12 * y' + m') (12 * y + m - 1 - (12 * y' + m'))) as H1.
    replace (12 * y' + m' + (12 * y + m - 1 - (12 * y' + m'))) with (12 * y + m - 1) in H1 by lia. lia. }
  destruct (Z.eqb_spec y y'), (Z.eqb_spec m m'); subst; lia.
Qed.

(** ** Numbers of a fixed width *)

Fixpoint fixed (w : nat) (n : Z) : string :=
  match w with
  | O => EmptyString
  | S w' => fixed w' (n / 10) +:+ String (digit_unit (n mod 10)) EmptyString
  end.

Lemma fixed_pad (w : nat) n :
  (w = 2 ∨ w = 4)%nat → 0 <= n < 10 ^ Z.of_nat w → padStart w (stringOfInt n) = fixed w n.
Proof.
  intros Hw Hn.
  assert (∀ w, forallb (fun n => bool_decide (padStart w (stringOfInt n) = fixed w n)) (seqZ 0 (10 ^ Z.of_nat w)) = true →
    0 <= n < 10 ^ Z.of_nat w → padStart w (stringOfInt n) = fixed w n) as Hall.
  { intros w' H Hn'. rewrite forallb_forall in H. specialize (H n).
    apply bool_decide_eq_true in H; [done|]. apply list_elem_of_In, elem_of_seqZ. lia. }
  destruct Hw as [->| ->]; (apply Hall; [vm_compute; reflexivity|done]).
Qed.

Lemma fixed_length w n : String.length (fixed w n) = w.
Proof. revert n. induction w as [|w IH]; intros n; simpl; [done|]. rewrite length_app_s, IH. simpl. lia. Qed.

Lemma fixed_digits w n : 0 <= n → string_forall is_digit (fixed w n) = true.
Proof.
  revert n. induction w as [|w IH]; intros n Hn; simpl; [done|].
  rewrite string_forall_app, IH by div_lia. simpl. rewrite digit_unit_is_digit by div_lia. done.
Qed.

Lemma fixed_value w n : 0 <= n < 10 ^ Z.of_nat w → digits_value 0 (fixed w n) = n.
Proof.
  revert n. induction w as [|w IH]; intros n Hn.
  - simpl in *. lia.
  - rewrite Nat2Z.inj_succ, Z.pow_succ_r in Hn by lia. cbn [fixed].
    rewrite digits_value_app, IH by div_lia. simpl. rewrite digit_value_unit by div_lia. div_lia.
Qed.

(** Numbers of the same width compare as texts the way they do as numbers. *)
Lemma fixed_compare w a b r s :
  0 <= a → 0 <= b → 0 <= a < 10 ^ Z.of_nat w → 0 <= b < 10 ^ Z.of_nat w →
  Z.sgn (unit_compare (fixed w a +:+ r) (fixed w b +:+ s)) =
    if a =? b then Z.sgn (unit_compare r s) else Z.sgn (a - b).
Proof.
  revert a b r s. induction w as [|w IH]; intros a b r s Ha Hb Hwa Hwb.
  - simpl in *. assert (a = b) as -> by lia. by rewrite Z.eqb_refl.
  - rewrite Nat2Z.inj_succ, Z.pow_succ_r in Hwa, Hwb by lia. cbn [fixed]. rewrite !app_assoc_s.
    rewrite IH by div_lia. unfold digit_unit. simpl. rewrite !code_unit_of by div_lia.
    destruct (Z.eqb_spec (a / 10) (b / 10)), (Z.eqb_spec (48 + a mod 10) (48 + b mod 10)), (Z.eqb_spec a b);
      try done; try (subst; done); div_lia.
Qed.

(** ** The text of a day *)

Definition day_text (y m d : Z) : string :=
  padStart 4 (stringOfInt y) +:+ "-" +:+ padStart 2 (stringOfInt m) +:+ "-" +:+ padStart 2 (stringOfInt d).

(** The text of a day, counted from 1 January 1970. *)
Definition iso_day (n : Z) : string := let '(y, m, d) := civil_of n in day_text y m d.

(** The years that take four digits. *)
Definition four_digit_day (n : Z) : Prop := 0 <= (civil_of n).1.1 <= 9999.

Lemma day_text_fixed y m d :
  0 <= y <= 9999 → 1 <= m <= 12 → 1 <= d <= 31 → day_text y m d = fixed 4 y +:+ "-" +:+ fixed 2 m +:+ "-" +:+ fixed 2 d.
Proof. intros. unfold day_text. rewrite !fixed_pad by (simpl; auto || lia). done. Qed.

Lemma iso_day_fixed n :
  four_digit_day n →
  let '(y, m, d) := civil_of n in
  iso_day n = fixed 4 y +:+ "-" +:+ fixed 2 m +:+ "-" +:+ fixed 2 d ∧ 0 <= y <= 9999 ∧ 1 <= m <= 12 ∧ 1 <= d <= 31 ∧
  d <= days_in_month y m ∧ n = days_of y m d.
Proof.
  unfold four_digit_day, iso_day. pose proof (days_of_civil_of n) as H. pose proof (civil_of_valid n) as Hv.
  destruct (civil_of n) as [[y m] d]. destruct H as (Hn & Hm & Hd). cbn [fst snd]. intros Hy.
  destruct (days_in_month_march y m Hm) as (_ & Hlen & _).
  split_and!; try lia. apply day_text_fixed; lia.
Qed.

(** The order of the texts of days is the order of the days. *)
Lemma iso_day_order a b :
  four_digit_day a → four_digit_day b → Z.sgn (unit_compare (iso_day a) (iso_day b)) = Z.sgn (a - b).
Proof.
  intros Ha Hb. pose proof (iso_day_fixed a Ha) as Ea. pose proof (iso_day_fixed b Hb) as Eb.
  pose proof (civil_order a b) as Ho.
  destruct (civil_of a) as [[y m] d], (civil_of b) as [[y' m'] d'].
  destruct Ea as (-> & Hy & Hm & Hd & _ & _), Eb as (-> & Hy' & Hm' & Hd' & _ & _). rewrite Ho.
  rewrite fixed_compare by (simpl; lia). destruct (y =? y'); [|done].
  cbn [String.append unit_compare]. rewrite Z.eqb_refl.
  rewrite fixed_compare by (simpl; lia). destruct (m =? m'); [|done].
  cbn [String.append unit_compare]. rewrite Z.eqb_refl.
  rewrite <- (app_empty_r (fixed 2 d)), <- (app_empty_r (fixed 2 d')).
  rewrite fixed_compare by (simpl; lia). destruct (Z.eqb_spec d d'); [subst; simpl; lia|done].
Qed.

Lemma iso_day_inj a b : four_digit_day a → four_digit_day b → iso_day a = iso_day b → a = b.
Proof. intros Ha Hb E. pose proof (iso_day_order a b Ha Hb) as H. rewrite E in H. pose proof (cmp_refl unit_compare (iso_day b)). lia. Qed.

(** ** What the text of a day is read as *)

Lemma digits_no_dash s : string_forall is_digit s = true → string_forall (fun c => negb (bool_decide (c = "-"%char))) s = true.
Proof.
  induction s as [|c s IH]; simpl; [done|]. intros [Hc Hs]%andb_true_iff. rewrite IH by done.
  case_bool_decide; [by subst|done].
Qed.

(** The text of a day holds digits and dashes only. *)
Lemma iso_day_without c n :
  is_digit c = false → c ≠ "-"%char → four_digit_day n → string_forall (fun d => negb (bool_decide (d = c))) (iso_day n) = true.
Proof.
  intros Hc Hdash Hn. pose proof (iso_day_fixed n Hn) as H. destruct (civil_of n) as [[y m] d].
  destruct H as (-> & ? & ? & ? & _).
  assert (∀ w v, 0 <= v → string_forall (fun d => negb (bool_decide (d = c))) (fixed w v) = true) as Hf.
  { intros w v Hv. pose proof (fixed_digits w v Hv) as Hd. revert Hd. generalize (fixed w v).
    intros s. induction s as [|x s IH]; simpl; [done|]. intros [Hx Hs]%andb_true_iff. rewrite IH by done.
    case_bool_decide; [congruence|done]. }
  rewrite !string_forall_app, !Hf by lia. simpl. by rewrite bool_decide_false.
Qed.

Lemma iso_day_truthy n : truthy (iso_day n) = true.
Proof. unfold truthy. rewrite bool_decide_false; [done|]. unfold iso_day, day_text. destruct (civil_of n) as [[y m] d]. by destruct (padStart 4 _). Qed.

Lemma join_split sep s : join (String sep EmptyString) (split sep s) = s.
Proof.
  induction s as [|c s IH]; [done|]. simpl. case_decide as E.
  - subst. pose proof (split_nonnil sep s) as Hn. rewrite join_cons by done. by rewrite IH.
  - destruct (split sep s) as [|w ws] eqn:Es; [by apply split_nonnil in Es|].
    destruct ws; simpl in *; by rewrite <- IH.
Qed.

(** A text of digits is its number at its width. *)
Lemma fixed_digits_value s :
  string_forall is_digit s = true →
  s = fixed (String.length s) (digits_value 0 s) ∧ 0 <= digits_value 0 s < 10 ^ Z.of_nat (String.length s).
Proof.
  assert (∀ l, string_forall is_digit (string_of_list_ascii (rev l)) = true →
    string_of_list_ascii (rev l) = fixed (length l) (digits_value 0 (string_of_list_ascii (rev l))) ∧
    0 <= digits_value 0 (string_of_list_ascii (rev l)) < 10 ^ Z.of_nat (length l)) as Hrev.
  { assert (∀ l c, string_of_list_ascii (l ++ [c]) = string_of_list_ascii l +:+ String c EmptyString) as Happ.
    { intros l c. induction l as [|d l IH]; simpl; [done|]. by rewrite IH. }
    induction l as [|c l IH]; [simpl; intros; split; [done|lia]|]. cbn [rev length]. rewrite Happ, string_forall_app.
    intros [Hl Hc]%andb_true_iff. simpl in Hc. rewrite andb_true_r in Hc. destruct (IH Hl) as [E Hv].
    rewrite digits_value_app. cbn [digits_value fixed].
    set (v := digits_value 0 (string_of_list_ascii (rev l))) in *.
    unfold is_digit in Hc. apply andb_true_iff in Hc as [H1 H2]. unfold digit_value.
    assert (48 <= code c <= 57) as Hcode by lia. rewrite Nat2Z.inj_succ, Z.pow_succ_r by lia.
    replace ((10 * v + (code c - 48)) / 10) with v by div_lia.
    replace ((10 * v + (code c - 48)) mod 10) with (code c - 48) by div_lia. split; [|lia].
    rewrite <- E. unfold digit_unit. replace (48 + (code c - 48)) with (code c) by lia. by rewrite unit_of_code. }
  intros Hs. specialize (Hrev (rev (list_ascii_of_string s))). rewrite rev_involutive, string_of_list_ascii_of_string in Hrev.
  rewrite length_rev in Hrev. assert (length (list_ascii_of_string s) = String.length s) as Hlen.
  { clear. induction s; simpl; auto. }
  rewrite Hlen in Hrev. by apply Hrev.
Qed.

Lemma days_of_civil y m d :
  1 <= m <= 12 → 1 <= d <= days_in_month y m → civil_of (days_of y m d) = (y, m, d).
Proof.
  intros Hm Hd. apply civil_of_days_of; [done|]. destruct (days_in_month_march y m Hm) as (_ & Hlen & Hd').
  unfold days_in_month in *. lia.
Qed.

(** What a day is read as is the day that was written. *)
Lemma parse_iso_day n : four_digit_day n → parse_day (iso_day n) = Some (n * MS_PER_DAY).
Proof.
  intros Hn. pose proof (iso_day_fixed n Hn) as H. destruct (civil_of n) as [[y m] d].
  destruct H as (-> & Hy & Hm & Hd & Hv & ->). unfold parse_day.
  change (fixed 4 y +:+ "-" +:+ fixed 2 m +:+ "-" +:+ fixed 2 d)
    with (join (String "-" EmptyString) [fixed 4 y; fixed 2 m; fixed 2 d]).
  rewrite split_join; [|done|].
  - unfold four_digits, two_digits. rewrite !fixed_length, !fixed_digits by lia. cbn [Nat.eqb andb].
    rewrite !fixed_value by (simpl; lia).
    rewrite !(proj2 (Z.leb_le _ _)) by lia. done.
  - repeat constructor; apply digits_no_dash, fixed_digits; lia.
Qed.

(** A text that is read as a day is the text of that day. *)
Lemma parse_day_inv s t : parse_day s = Some t → ∃ n, t = n * MS_PER_DAY ∧ four_digit_day n ∧ s = iso_day n.
Proof.
  unfold parse_day. pose proof (join_split "-"%char s) as Hj.
  destruct (split "-"%char s) as [|y [|m [|d [|]]]]; try done. unfold four_digits, two_digits.
  destruct (_ && _ && _) eqn:E; [|done].
  rewrite !andb_true_iff, !Nat.eqb_eq in E. destruct E as [[[Ly Dy] [Lm Dm]] [Ld Dd]].
  destruct (fixed_digits_value y Dy) as [Ey Vy]. destruct (fixed_digits_value m Dm) as [Em Vm].
  destruct (fixed_digits_value d Dd) as [Ed Vd]. rewrite Ly in Ey, Vy. rewrite Lm in Em, Vm. rewrite Ld in Ed, Vd.
  revert Ey Em Ed Vy Vm Vd. generalize (digits_value 0 y) (digits_value 0 m) (digits_value 0 d). intros vy vm vd Ey Em Ed Vy Vm Vd.
  destruct ((1 <=? vm) && (vm <=? 12) && (1 <=? vd) && (vd <=? days_in_month vy vm)) eqn:E; [|done].
  rewrite !andb_true_iff, !Z.leb_le in E. destruct E as [[[H1 H2] H3] H4]. intros [= <-].
  exists (days_of vy vm vd). split; [done|].
  assert (four_digit_day (days_of vy vm vd)) as Hf.
  { unfold four_digit_day. rewrite days_of_civil by lia. simpl in *. lia. }
  split; [done|]. pose proof (iso_day_fixed _ Hf) as Hi. rewrite days_of_civil in Hi by lia.
  destruct Hi as [-> _]. rewrite <- Hj, <- Ey, <- Em, <- Ed. reflexivity.
Qed.
