(* ===== verification/Scale.v ===== *)
(** The plan's calendar: [web/src/features/plan/scale.ts].

    The mapping between dates and pixels, the rows of ticks above it, and where
    a drag lands.  Dates are time values; pixels are exact rationals.  The
    arithmetic on days is right from the year 100 on, the first [Date.UTC] does
    not take for one of the 1900s. *)

From Stdlib Require Import ZArith QArith Qround Qminmax Lia Lqa Ascii String.
From stdpp Require Import base list strings.
From S2P Require Import Prelude JsString JsDate Config.

Open Scope Z_scope.

Definition DAYS_PER_WEEK : Z := 7.

(** [Math.round]: halves go up. *)
Definition js_round (q : Q) : Z := Qfloor (q + (1 # 2)).

(** ** Zooms *)

Inductive ZoomId := fit | weeks | months | quarters.
#[export] Instance ZoomId_eq : EqDecision ZoomId.
Proof. solve_decision. Defined.

Inductive TickKind := tick_week | tick_month.

Record Zoom := mkZoom { zoom_id : ZoomId; zoom_pxPerDay : Q; zoom_ticks : TickKind }.

Definition ZOOM_FIT : Zoom := mkZoom fit 0 tick_week.
Definition ZOOM_WEEKS : Zoom := mkZoom weeks 22 tick_week.
Definition ZOOM_MONTHS : Zoom := mkZoom months 7 tick_week.
Definition ZOOM_QUARTERS : Zoom := mkZoom quarters (26 # 10) tick_month.
Definition ZOOMS : list Zoom := [ZOOM_FIT; ZOOM_WEEKS; ZOOM_MONTHS; ZOOM_QUARTERS].

Definition zoom_name (id : ZoomId) : string :=
  match id with fit => "fit" | weeks => "weeks" | months => "months" | quarters => "quarters" end.

Definition zoomFor (id : string) : Zoom :=
  default ZOOM_FIT (head (filter (fun z => zoom_name (zoom_id z) = id) ZOOMS)).

(** ** Days *)

(** Midnight UTC on the day a value falls in. *)
Definition day (t : Z) : Z := date_UTC (getUTCFullYear t) (getUTCMonth t) (getUTCDate t).

Definition addDays (from days : Z) : Z := from + days * MS_PER_DAY.

Definition daysBetween (from to : Z) : Z :=
  js_round (inject_Z (day to - day from) / inject_Z MS_PER_DAY).

Definition isoDay (t : Z) : string := iso_slice (day t).

Definition fitted (zoom : Zoom) (from to : Z) (width : Q) : Zoom :=
  if decide (zoom_id zoom = fit) then
    let days := Z.max 1 (daysBetween (day from) (day to)) in
    let pxPerDay := Qmax PLAN_MIN_PX_PER_DAY (width / inject_Z days) in
    mkZoom (zoom_id zoom) pxPerDay
      (if Qle_bool PLAN_WEEK_LABEL_MIN_PX_PER_DAY pxPerDay then tick_week else tick_month)
  else zoom.

Definition filled (from to : Z) (pxPerDay width : Q) : Z :=
  let shown := daysBetween (day from) (day to) in
  let needed := Qceiling (width / pxPerDay) in
  if needed <=? shown then day to else addDays (day from) needed.

(** ** The scale *)

Record Scale := mkScale { sc_from : Z; sc_to : Z; sc_pxPerDay : Q; sc_width : Q }.

Definition makeScale (from to : Z) (pxPerDay : Q) : Scale :=
  let start := day from in
  let end_ := day to in
  mkScale start end_ pxPerDay (Qmax 0 (inject_Z (daysBetween start end_) * pxPerDay)).

(** [scale.x], [scale.dateAt] and [scale.spanWidth]. *)
Definition x_at (s : Scale) (date : Z) : Q := inject_Z (daysBetween (sc_from s) (day date)) * sc_pxPerDay s.
Definition dateAt (s : Scale) (x : Q) : Z := addDays (sc_from s) (js_round (x / sc_pxPerDay s)).
Definition spanWidth (s : Scale) (start due : Z) : Q :=
  Qmax (sc_pxPerDay s) (inject_Z (daysBetween (day start) (day due) + 1) * sc_pxPerDay s).

(** ** Ticks *)

(** [t.plan.calendar]. *)
Record CalendarWords := mkCalendarWords {
  month_names : list string;
  word_month : string → Z → string;
  word_week : Z → string → string;
  word_quarter : Z → Z → string;
  word_halfDay : string → string;
}.

Definition calendar_en : CalendarWords := mkCalendarWords
  ["Jan"; "Feb"; "Mar"; "Apr"; "May"; "Jun"; "Jul"; "Aug"; "Sep"; "Oct"; "Nov"; "Dec"]%string
  (fun month year => month +:+ " " +:+ stringOfInt year)
  (fun date month => stringOfInt date +:+ " " +:+ month)
  (fun quarter year => "Q" +:+ stringOfInt quarter +:+ " " +:+ stringOfInt year)
  (fun name => name +:+ " (half day)").

Record Tick := mkTick {
  tick_key : string;
  tick_label : string;
  tick_x : Q;
  tick_width : Q;
  tick_emphasis : bool;
}.

Definition MONTHS_PER_QUARTER : Z := 3.

(** The [while] loop that the three rows share: [None] when the fuel runs out
    before the end of the scale. *)
Fixpoint tick_loop (fuel : nat) (next : Z → Z) (tick : Z → Z → Z → Tick) (s : Scale) (cursor : Z)
  : option (list Tick) :=
  if sc_to s <=? cursor then Some []
  else match fuel with
  | O => None
  | S f =>
      let next_ := next cursor in
      let from := if cursor <? sc_from s then sc_from s else cursor in
      let to := if sc_to s <? next_ then sc_to s else next_ in
      rest ← tick_loop f next tick s next_;
      Some (tick cursor from to :: rest)
  end.

(** A turn for each day, and for those of the quarter before the first, is enough. *)
Definition tick_fuel (s : Scale) : nat := Z.to_nat ((sc_to s - sc_from s) / MS_PER_DAY + 100).

Section Ticks.
Context (words : CalendarWords) (scale : Scale).

Definition monthName (month : Z) : string := default EmptyString (month_names words !! Z.to_nat month).

Definition tick_of (key label : string) (emphasis : bool) (from to : Z) : Tick :=
  mkTick key label (x_at scale from) (inject_Z (daysBetween from to) * sc_pxPerDay scale) emphasis.

Definition next_month (cursor : Z) : Z := date_UTC (getUTCFullYear cursor) (getUTCMonth cursor + 1) 1.

Definition month_tick (cursor from to : Z) : Tick :=
  tick_of (stringOfInt (getUTCFullYear cursor) +:+ "-" +:+ stringOfInt (getUTCMonth cursor))
    (word_month words (monthName (getUTCMonth cursor)) (getUTCFullYear cursor)) false from to.

Definition monthTicks : option (list Tick) :=
  tick_loop (tick_fuel scale) next_month month_tick scale
    (date_UTC (getUTCFullYear (sc_from scale)) (getUTCMonth (sc_from scale)) 1).

Definition next_week (cursor : Z) : Z := addDays cursor DAYS_PER_WEEK.

Definition week_tick (cursor from to : Z) : Tick :=
  tick_of (isoDay cursor) (word_week words (getUTCDate cursor) (monthName (getUTCMonth cursor)))
    (getUTCDate cursor <=? DAYS_PER_WEEK) from to.

Definition weekTicks : option (list Tick) :=
  let offset := (getUTCDay (sc_from scale) + DAYS_PER_WEEK - 1) mod DAYS_PER_WEEK in
  tick_loop (tick_fuel scale) next_week week_tick scale (addDays (sc_from scale) (- offset)).

Definition next_quarter (cursor : Z) : Z :=
  date_UTC (getUTCFullYear cursor) (getUTCMonth cursor + MONTHS_PER_QUARTER) 1.

Definition quarter_tick (cursor from to : Z) : Tick :=
  tick_of (stringOfInt (getUTCFullYear cursor) +:+ "-q" +:+ stringOfInt (getUTCMonth cursor / MONTHS_PER_QUARTER))
    (word_quarter words (getUTCMonth cursor / MONTHS_PER_QUARTER + 1) (getUTCFullYear cursor)) false from to.

Definition quarterTicks : option (list Tick) :=
  let firstMonthOfQuarter := getUTCMonth (sc_from scale) / MONTHS_PER_QUARTER * MONTHS_PER_QUARTER in
  tick_loop (tick_fuel scale) next_quarter quarter_tick scale
    (date_UTC (getUTCFullYear (sc_from scale)) firstMonthOfQuarter 1).

Definition ticksFor (zoom : Zoom) : option (list Tick) :=
  match zoom_ticks zoom with tick_month => monthTicks | tick_week => weekTicks end.

Definition headingTicks (zoom : Zoom) : option (list Tick) :=
  match zoom_ticks zoom with tick_month => quarterTicks | tick_week => monthTicks end.
End Ticks.

(** ** Bars and drags *)

(** A day as the API writes it: absent or empty is none at all; [scale.x] of a
    text that is no day is not a number, which the inner option says. *)
Definition said (day : option string) : option string :=
  match day with Some s => if truthy s then Some s else None | None => None end.

Definition barFor (s : Scale) (start due : option string) : option (option (Q * Q)) :=
  match said start, said due with
  | Some start, Some due =>
      Some (a ← parse_day start; b ← parse_day due; Some (x_at s a, spanWidth s a b))
  | _, _ => None
  end.

Inductive DragMode := drag_move | drag_start | drag_end.

Definition applyDrag (start due : Z) (mode : DragMode) (days : Z) : Z * Z :=
  if days =? 0 then (start, due)
  else match mode with
  | drag_move => (addDays start days, addDays due days)
  | drag_start => let moved := addDays start days in (if due <? moved then due else moved, due)
  | drag_end => let moved := addDays due days in (start, if moved <? start then start else moved)
  end.

Record Holiday := mkHoliday { holiday_day : string; holiday_name : string; holiday_half : bool }.

(** A place that is not a number is [None]. *)
Record HolidayBand := mkHolidayBand { band_key : string; band_label : string; band_x : option Q; band_width : Q }.

(** Whether a place is off the calendar; nothing is said of what is no number. *)
Definition off_calendar (s : Scale) (x : option Q) : bool :=
  match x with Some x => negb (Qle_bool 0 x) || Qle_bool (sc_width s) x | None => false end.

Definition holiday_band (words : CalendarWords) (s : Scale) (h : Holiday) : option HolidayBand :=
  let x := x_at s <$> parse_day (holiday_day h) in
  if off_calendar s x then None
  else Some (mkHolidayBand (holiday_day h)
    (if holiday_half h then word_halfDay words (holiday_name h) else holiday_name h) x (sc_pxPerDay s)).

Definition holidayBands (words : CalendarWords) (s : Scale) (holidays : list Holiday) : list HolidayBand :=
  omap (holiday_band words s) holidays.
