(* ===== verification/ScaleFacts.v ===== *)
(** What the plan's calendar keeps: dates and pixels agree, the rows of ticks
    tile the window, a drag never turns a range inside out. *)

From Stdlib Require Import ZArith QArith Qround Qminmax Qabs Lia Lqa Ascii String.
From stdpp Require Import base list strings.
From S2P Require Import Prelude JsString JsDate DayText Config Scale.

Open Scope Z_scope.

(** ** Days *)

Lemma day_modern t : MODERN <= t → day t = day_number t * MS_PER_DAY.
Proof. apply midnight. Qed.

Lemma day_idemp t : MODERN <= t → day (day t) = day t.
Proof.
  intros Ht. rewrite (day_modern t Ht), day_modern by (apply modern_day_number; rewrite day_number_mult; by apply modern_day_number).
  by rewrite day_number_mult.
Qed.

Lemma modern_day t : MODERN <= t → MODERN <= day t.
Proof. intros Ht. rewrite (day_modern t Ht). apply modern_day_number. rewrite day_number_mult. by apply modern_day_number. Qed.

Lemma js_round_Z n : js_round (inject_Z n) = n.
Proof.
  unfold js_round. pose proof (Qfloor_le (inject_Z n + (1 # 2))) as H1. pose proof (Qlt_floor (inject_Z n + (1 # 2))) as H2.
  revert H1 H2. generalize (Qfloor (inject_Z n + (1 # 2))). intros k H1 H2.
  assert (inject_Z n < inject_Z (k + 1))%Q as H3 by lra. rewrite <- Zlt_Qlt in H3.
  rewrite inject_Z_plus in H2.
  assert (inject_Z k < inject_Z (n + 1))%Q as H4 by (rewrite inject_Z_plus; change (inject_Z 1) with 1%Q; lra).
  rewrite <- Zlt_Qlt in H4. lia.
Qed.

#[export] Instance js_round_proper : Proper (Qeq ==> eq) js_round.
Proof. intros x y H. unfold js_round. by rewrite H. Qed.

(** Rounding is off by half at most. *)
Lemma js_round_near q : (inject_Z (js_round q) - q <= 1 # 2)%Q ∧ (q - inject_Z (js_round q) <= 1 # 2)%Q.
Proof.
  unfold js_round. pose proof (Qfloor_le (q + (1 # 2))) as H1. pose proof (Qlt_floor (q + (1 # 2))) as H2.
  rewrite inject_Z_plus in H2. change (inject_Z 1) with 1%Q in H2. split; lra.
Qed.

Lemma daysBetween_modern from to :
  MODERN <= from → MODERN <= to → daysBetween from to = day_number to - day_number from.
Proof.
  intros Hf Ht. unfold daysBetween. rewrite !day_modern by done.
  rewrite <- (js_round_Z (day_number to - day_number from)). apply js_round_proper.
  rewrite <- Z.mul_sub_distr_r, inject_Z_mult. unfold MS_PER_DAY. field.
Qed.

Lemma addDays_day_number t n : day_number (addDays t n) = day_number t + n.
Proof. unfold day_number, addDays. by rewrite Z.div_add. Qed.

(** ** The scale: dates to pixels and back *)

Definition midnight_at (t : Z) : Prop := t = day_number t * MS_PER_DAY.

Lemma day_midnight t : MODERN <= t → midnight_at (day t).
Proof. intros Ht. unfold midnight_at. rewrite day_modern by done. by rewrite day_number_mult. Qed.

Lemma x_at_modern s t :
  MODERN <= sc_from s → MODERN <= t →
  (x_at s t == inject_Z (day_number t - day_number (sc_from s)) * sc_pxPerDay s)%Q.
Proof.
  intros Hf Ht. unfold x_at. rewrite daysBetween_modern; [|done|by apply modern_day].
  rewrite (day_modern t Ht), day_number_mult. done.
Qed.

Lemma dateAt_number s x :
  MODERN <= sc_from s → midnight_at (sc_from s) →
  dateAt s x = (day_number (sc_from s) + js_round (x / sc_pxPerDay s)) * MS_PER_DAY.
Proof. intros Hf Hm. unfold dateAt, addDays, midnight_at in *. lia. Qed.

Lemma makeScale_from from to px : MODERN <= from → MODERN <= sc_from (makeScale from to px) ∧ midnight_at (sc_from (makeScale from to px)).
Proof. intros. split; [by apply modern_day|by apply day_midnight]. Qed.

Lemma x_dateAt s p :
  (0 < sc_pxPerDay s)%Q → MODERN <= sc_from s → midnight_at (sc_from s) → MODERN <= dateAt s p →
  (x_at s (dateAt s p) == inject_Z (js_round (p / sc_pxPerDay s)) * sc_pxPerDay s)%Q.
Proof.
  intros Hpx Hf Hm Hd. rewrite x_at_modern by done. rewrite dateAt_number by done.
  rewrite day_number_mult. by replace (_ + _ - _) with (js_round (p / sc_pxPerDay s)) by lia.
Qed.

Lemma dateAt_x s date :
  (0 < sc_pxPerDay s)%Q → MODERN <= sc_from s → midnight_at (sc_from s) → MODERN <= date →
  dateAt s (x_at s date) = day date.
Proof.
  intros Hpx Hf Hm Hd. rewrite dateAt_number by done.
  assert (x_at s date / sc_pxPerDay s == inject_Z (day_number date - day_number (sc_from s)))%Q as ->.
  { rewrite x_at_modern by done. field. lra. }
  rewrite js_round_Z, day_modern by done. f_equal. lia.
Qed.

Lemma x_near s p :
  (0 < sc_pxPerDay s)%Q → MODERN <= sc_from s → midnight_at (sc_from s) → MODERN <= dateAt s p →
  (Qabs (x_at s (dateAt s p) - p) <= sc_pxPerDay s / 2)%Q.
Proof.
  intros Hpx Hf Hm Hp. rewrite x_dateAt by done. destruct (js_round_near (p / sc_pxPerDay s)) as [H1 H2].
  assert (p == p / sc_pxPerDay s * sc_pxPerDay s)%Q as Hp' by (field; lra).
  revert H1 H2 Hp'. generalize (inject_Z (js_round (p / sc_pxPerDay s))) (p / sc_pxPerDay s)%Q. intros a b H1 H2 Hp'.
  assert (sc_pxPerDay s / 2 == sc_pxPerDay s * (1 # 2))%Q as -> by field.
  apply Qabs_Qle_condition. split; rewrite Hp'; nra.
Qed.

(** A day and its left edge say the same: the date at a day's pixel is that
    day, and the pixel of the date at a point is within half a day of it. *)
Theorem scale_roundtrip from to px date p :
  (0 < px)%Q → MODERN <= from → MODERN <= date →
  let s := makeScale from to px in
  dateAt s (x_at s date) = day date ∧
  (MODERN <= dateAt s p → (Qabs (x_at s (dateAt s p) - p) <= px / 2)%Q).
Proof.
  intros Hpx Hf Hd s. destruct (makeScale_from from to px Hf) as [Hsf Hsm].
  split; [by apply dateAt_x|by apply (x_near s)].
Qed.

(** ** Windows *)

(** Whatever the zoom, the window the calendar shows is at least as wide as
    the pane; and the fitted zoom shows the whole plan within the pane, unless
    a day would be narrower than the floor. *)
Theorem window_fills_pane zoom from to width :
  MODERN <= from → MODERN <= to → (0 <= width)%Q →
  let z := fitted zoom from to width in
  (0 < zoom_pxPerDay z)%Q →
  let s := makeScale from (filled from to (zoom_pxPerDay z) width) (zoom_pxPerDay z) in
  (width <= sc_width s)%Q ∧ day to <= sc_to s ∧
  (zoom_id zoom = fit → (PLAN_MIN_PX_PER_DAY < zoom_pxPerDay z)%Q →
   (inject_Z (daysBetween (day from) (day to)) * zoom_pxPerDay z <= width)%Q).
Proof.
  intros Hf Ht Hw z Hpx s. set (px := zoom_pxPerDay z) in *.
  assert (∀ k, 0 <= k → MODERN <= addDays (day from) k) as Hadd.
  { intros k Hk. apply modern_day_number. rewrite addDays_day_number. apply modern_day_number in Hf.
    rewrite day_modern by (by apply modern_day_number). rewrite day_number_mult. lia. }
  assert (0 <= Qceiling (width / px)) as Hceil0.
  { rewrite <- (Qceiling_Z 0). apply Qceiling_resp_le. apply Qle_shift_div_l; [done|]. change (inject_Z 0) with 0%Q. lra. }
  assert (width <= inject_Z (Qceiling (width / px)) * px)%Q as Hceil.
  { pose proof (Qle_ceiling (width / px)) as H. apply (Qmult_le_r _ _ px Hpx) in H.
    assert (width / px * px == width)%Q as E by (field; lra). rewrite E in H. exact H. }
  split_and!.
  - subst s. unfold makeScale, filled. cbn [sc_width]. cbv zeta.
    assert (daysBetween (day from) (day to) = day_number to - day_number from) as Hsh.
    { rewrite daysBetween_modern by (by apply modern_day). by rewrite !day_modern, !day_number_mult by done. }
    rewrite Hsh. eapply Qle_trans; [exact Hceil|]. eapply Qle_trans; [|apply Q.le_max_r].
    apply Qmult_le_compat_r; [|lra]. rewrite <- Zle_Qle. destruct (Z.leb_spec (Qceiling (width / px)) (day_number to - day_number from)).
    + rewrite (day_idemp to) by done. by rewrite Hsh.
    + rewrite daysBetween_modern; [|by apply modern_day|by apply modern_day, Hadd].
      rewrite !day_modern, !day_number_mult; [|done|by apply Hadd].
      rewrite addDays_day_number, day_number_mult. lia.
  - subst s. unfold makeScale, filled. cbn [sc_to]. cbv zeta.
    destruct (Z.leb_spec (Qceiling (width / px)) (daysBetween (day from) (day to))) as [|Hlt].
    + by rewrite day_idemp.
    + rewrite daysBetween_modern in Hlt by (by apply modern_day).
      rewrite !day_modern, !day_number_mult in Hlt by done.
      rewrite (day_modern (addDays _ _)) by (by apply Hadd). rewrite addDays_day_number, !day_modern, day_number_mult by done.
      unfold MS_PER_DAY. lia.
  - intros Hfit Hfloor. subst px z. unfold fitted in *. rewrite decide_True in * by done. cbn [zoom_pxPerDay] in *.
    set (days := Z.max 1 _) in *. assert (0 < inject_Z days)%Q as Hdays by (change 0%Q with (inject_Z 0); rewrite <- Zlt_Qlt; lia).
    destruct (Q.max_spec PLAN_MIN_PX_PER_DAY (width / inject_Z days)) as [[_ E]|[_ E]]; [|rewrite E in Hfloor; lra].
    rewrite E. assert (inject_Z (daysBetween (day from) (day to)) <= inject_Z days)%Q as Hd by (rewrite <- Zle_Qle; lia).
    assert (0 <= width / inject_Z days)%Q as Hq by (apply Qle_shift_div_l; [done|lra]).
    apply (Qmult_le_compat_r _ _ _ Hd) in Hq as H. eapply Qle_trans; [exact H|].
    apply Qle_lteq. right. field. lra.
Qed.

(** ** The rows of ticks *)

Record scale_ok (s : Scale) : Prop := {
  scale_modern : MODERN <= sc_from s;
  scale_from : midnight_at (sc_from s);
  scale_to : midnight_at (sc_to s);
  scale_order : sc_from s < sc_to s;
  scale_px : (0 < sc_pxPerDay s)%Q;
  scale_width : (sc_width s == inject_Z (day_number (sc_to s) - day_number (sc_from s)) * sc_pxPerDay s)%Q;
}.

Lemma makeScale_ok from to px :
  (0 < px)%Q → MODERN <= from → day_number from < day_number to → scale_ok (makeScale from to px).
Proof.
  intros Hpx Hf Hlt. assert (MODERN <= to) as Ht by (apply modern_day_number; apply modern_day_number in Hf; lia).
  split; cbn [makeScale sc_from sc_to sc_pxPerDay sc_width].
  - by apply modern_day.
  - by apply day_midnight.
  - by apply day_midnight.
  - rewrite !day_modern by done. unfold MS_PER_DAY. lia.
  - done.
  - rewrite daysBetween_modern by (by apply modern_day). rewrite !day_modern, !day_number_mult by done.
    apply Q.max_r. assert (0 <= inject_Z (day_number to - day_number from))%Q by (change 0%Q with (inject_Z 0); rewrite <- Zle_Qle; lia).
    apply Qmult_le_0_compat; [done|by apply Qlt_le_weak].
Qed.

(** Ticks side by side from one pixel to another, none of them empty. *)
Fixpoint tiled (x : Q) (ticks : list Tick) (end_ : Q) : Prop :=
  match ticks with
  | [] => (x == end_)%Q
  | t :: ts => (tick_x t == x)%Q ∧ (0 < tick_width t)%Q ∧ tiled (x + tick_width t) ts end_
  end.

Lemma tiled_proper x y ts e : (x == y)%Q → tiled x ts e → tiled y ts e.
Proof.
  revert x y. induction ts as [|t ts IH]; intros x y Hxy; simpl; [by rewrite Hxy|].
  intros (H1 & H2 & H3). split_and!; [by rewrite H1|done|]. eapply IH; [|exact H3]. by rewrite Hxy.
Qed.

Section TickLoop.
Context (s : Scale) (Hs : scale_ok s) (next : Z → Z) (tick : Z → Z → Z → Tick) (P : Z → Prop).
Context (Htick : ∀ c f t, tick_x (tick c f t) = x_at s f ∧
  tick_width (tick c f t) = (inject_Z (daysBetween f t) * sc_pxPerDay s)%Q).
Context (Hnext : ∀ c, P c → P (next c) ∧ midnight_at (next c) ∧ c + MS_PER_DAY <= next c ∧ sc_from s < next c).

Lemma tick_loop_tiles fuel c :
  P c → midnight_at c → sc_to s - c <= Z.of_nat fuel * MS_PER_DAY →
  ∃ l, tick_loop fuel next tick s c = Some l ∧
    tiled (x_at s (Z.min (Z.max c (sc_from s)) (sc_to s))) l (sc_width s).
Proof.
  pose proof (scale_modern s Hs) as Hmod. pose proof (scale_order s Hs) as Hlt. pose proof (scale_px s Hs) as Hpx.
  assert (∀ t, MODERN <= t → (x_at s t == inject_Z (day_number t - day_number (sc_from s)) * sc_pxPerDay s)%Q) as Hx.
  { intros t Ht. by apply x_at_modern. }
  revert c. induction fuel as [|f IH]; intros c Hc Hm Hf; cbn [tick_loop]; destruct (Z.leb_spec (sc_to s) c) as [Hto|Hto].
  1,3: exists []; split; [done|]; simpl; rewrite Z.min_r by lia; rewrite Hx by lia; by rewrite <- (scale_width s Hs).
  { lia. }
  destruct (Hnext c Hc) as (HP & Hmn & Hstep & Hfrom).
  destruct (IH (next c)) as (l & -> & Hl); [done|done|rewrite Nat2Z.inj_succ in Hf; lia|]. cbn [mbind option_bind].
  eexists. split; [done|]. cbn [tiled]. destruct (Htick c (if c <? sc_from s then sc_from s else c) (if sc_to s <? next c then sc_to s else next c)) as [-> ->].
  set (a := if c <? sc_from s then sc_from s else c). set (b := if sc_to s <? next c then sc_to s else next c).
  assert (a = Z.min (Z.max c (sc_from s)) (sc_to s) ∧ b = Z.min (Z.max (next c) (sc_from s)) (sc_to s) ∧
    midnight_at a ∧ midnight_at b ∧ a < b ∧ MODERN <= a) as (Ha & Hb & Hma & Hmb & Hab & Hmoda).
  { pose proof (scale_from s Hs). pose proof (scale_to s Hs). assert (0 < MS_PER_DAY) by done. unfold a, b.
    destruct (Z.ltb_spec c (sc_from s)), (Z.ltb_spec (sc_to s) (next c)); split_and!; try done; lia. }
  rewrite <- Ha. rewrite <- Hb in Hl. unfold midnight_at in Hma, Hmb.
  assert (day_number a < day_number b) as Hdn by (unfold MS_PER_DAY in *; lia).
  rewrite daysBetween_modern by lia. split_and!.
  - done.
  - apply Qmult_lt_0_compat; [|done]. change 0%Q with (inject_Z 0). rewrite <- Zlt_Qlt. lia.
  - eapply tiled_proper; [|exact Hl]. rewrite !Hx by lia. rewrite <- Qmult_plus_distr_l, <- inject_Z_plus.
    by replace (day_number a - day_number (sc_from s) + (day_number b - day_number a))
      with (day_number b - day_number (sc_from s)) by lia.
Qed.
End TickLoop.

(** A cursor at the first of a month, with the scale's start before the next one
    a row goes on to. *)
Definition month_cursor (s : Scale) (n c : Z) : Prop :=
  ∃ y k, 100 <= y ∧ 0 <= k ∧ c = month_start_of y k * MS_PER_DAY ∧
    sc_from s < month_start_of y (k + n) * MS_PER_DAY.

Lemma month_start_le y k n : 1 <= n <= 3 → month_start_of y k + 1 <= month_start_of y (k + n).
Proof.
  intros Hn. pose proof (month_start_next y k). pose proof (month_start_next y (k + 1)) as H1. pose proof (month_start_next y (k + 2)) as H2.
  replace (k + 1 + 1) with (k + 2) in H1 by lia. replace (k + 2 + 1) with (k + 3) in H2 by lia.
  assert (n = 1 ∨ n = 2 ∨ n = 3) as [->|[->| ->]] by lia; lia.
Qed.

Lemma month_cursor_next s c n :
  1 <= n <= 3 → month_cursor s n c →
  let c' := date_UTC (getUTCFullYear c) (getUTCMonth c + n) 1 in
  month_cursor s n c' ∧ midnight_at c' ∧ c + MS_PER_DAY <= c' ∧ sc_from s < c'.
Proof.
  intros Hn (y & k & Hy & Hk & -> & Hf). cbv zeta.
  unfold getUTCFullYear, getUTCMonth. rewrite day_number_mult, month_start_civil. cbn [fst snd].
  rewrite date_UTC_modern by div_lia.
  assert (days_of (y + k / 12 + (k mod 12 + 1 - 1 + n) / 12) ((k mod 12 + 1 - 1 + n) mod 12 + 1) 1 = month_start_of y (k + n)) as ->.
  { unfold month_start_of. f_equal; div_lia. }
  pose proof (month_start_le y k n Hn). pose proof (month_start_le y (k + n) n Hn).
  split_and!.
  - exists y, (k + n). split_and!; try done; [lia|]. unfold MS_PER_DAY in *. lia.
  - unfold midnight_at. by rewrite day_number_mult.
  - unfold MS_PER_DAY. lia.
  - done.
Qed.

(** The first cursor of a row: the month of the scale's start, or the first of
    its quarter. *)
Lemma first_month_cursor s n :
  scale_ok s → n = 1 ∨ n = 3 →
  let c := date_UTC (getUTCFullYear (sc_from s)) (getUTCMonth (sc_from s) / n * n) 1 in
  month_cursor s n c ∧ midnight_at c ∧ sc_from s - 99 * MS_PER_DAY <= c ∧ c <= sc_from s.
Proof.
  intros Hs Hn. cbv zeta. pose proof (modern_year _ (scale_modern s Hs)) as Hy.
  pose proof (scale_from s Hs) as Hm. unfold midnight_at in Hm.
  revert Hy. unfold getUTCFullYear, getUTCMonth.
  pose proof (days_of_civil_of (day_number (sc_from s))) as Hc. pose proof (civil_of_valid (day_number (sc_from s))) as Hv.
  destruct (civil_of (day_number (sc_from s))) as [[y m] d]. cbn [fst snd]. destruct Hc as (Hd & Hmm & _). intros Hy.
  rewrite date_UTC_modern by done. set (k := (m - 1) / n * n).
  assert (0 <= k <= m - 1 ∧ m - 1 <= k + n - 1) as Hk by (destruct Hn as [->| ->]; subst k; div_lia).
  change (days_of (y + k / 12) (k mod 12 + 1) 1) with (month_start_of y k).
  assert (month_start_of y (m - 1) = days_of y m 1) as Hms.
  { unfold month_start_of. rewrite Z.div_small, Z.mod_small by lia. by rewrite Z.add_0_r, Z.sub_add. }
  pose proof (month_start_next y (m - 1)) as Hnext. replace (m - 1 + 1) with m in Hnext by lia.
  assert (month_start_of y m = month_start_of y (m - 1) + days_in_month y m) as Hlen.
  { rewrite Hms. unfold days_in_month, month_start_of. lia. }
  assert (day_number (sc_from s) = days_of y m 1 + d - 1) as Hd1 by (rewrite <- Hd, !days_of_march; lia).
  assert (month_start_of y m <= month_start_of y (k + n) ∧
    month_start_of y (m - 1) - 62 <= month_start_of y k <= month_start_of y (m - 1)) as [Hhi Hlo].
  { assert (k + n = m ∨ k + n = m + 1 ∨ k + n = m + 2) as Hcases by (destruct Hn as [->| ->]; lia).
    pose proof (month_start_next y m). pose proof (month_start_next y (m + 1)) as A. replace (m + 1 + 1) with (m + 2) in A by lia.
    pose proof (month_start_next y (m - 2)) as B. replace (m - 2 + 1) with (m - 1) in B by lia.
    pose proof (month_start_next y (m - 3)) as C. replace (m - 3 + 1) with (m - 2) in C by lia.
    assert (k = m - 1 ∨ k = m - 2 ∨ k = m - 3) as Hk' by (destruct Hn as [->| ->]; lia).
    destruct Hcases as [->|[->| ->]], Hk' as [->|[->| ->]]; lia. }
  split_and!.
  - exists y, k. split_and!; try done; [lia|]. unfold MS_PER_DAY in *. lia.
  - unfold midnight_at. by rewrite day_number_mult.
  - unfold MS_PER_DAY in *. lia.
  - unfold MS_PER_DAY in *. lia.
Qed.

Lemma tick_fuel_enough s c :
  scale_ok s → sc_from s - 99 * MS_PER_DAY <= c → sc_to s - c <= Z.of_nat (tick_fuel s) * MS_PER_DAY.
Proof.
  intros Hs Hc. unfold tick_fuel. pose proof (scale_order s Hs). rewrite Z2Nat.id.
  - unfold MS_PER_DAY in *. div_lia.
  - assert (0 <= (sc_to s - sc_from s) / MS_PER_DAY) by (apply Z.div_pos; [lia|done]). lia.
Qed.

Lemma month_row_tiles s n tick :
  scale_ok s → n = 1 ∨ n = 3 →
  (∀ c f t, tick_x (tick c f t) = x_at s f ∧ tick_width (tick c f t) = (inject_Z (daysBetween f t) * sc_pxPerDay s)%Q) →
  ∃ l, tick_loop (tick_fuel s) (fun c => date_UTC (getUTCFullYear c) (getUTCMonth c + n) 1) tick s
         (date_UTC (getUTCFullYear (sc_from s)) (getUTCMonth (sc_from s) / n * n) 1) = Some l ∧
    tiled 0 l (sc_width s).
Proof.
  intros Hs Hn Htick. destruct (first_month_cursor s n Hs Hn) as (Hc & Hm & Hlo & Hle).
  destruct (tick_loop_tiles s Hs (fun c => date_UTC (getUTCFullYear c) (getUTCMonth c + n) 1) tick (month_cursor s n) Htick)
    with (fuel := tick_fuel s) (c := date_UTC (getUTCFullYear (sc_from s)) (getUTCMonth (sc_from s) / n * n) 1)
    as (l & Hl & Ht); [|done|done|by apply tick_fuel_enough|].
  { intros c Hc'. apply month_cursor_next; [lia|done]. }
  exists l. split; [done|]. eapply tiled_proper; [|exact Ht].
  pose proof (scale_order s Hs). rewrite Z.max_r, Z.min_l by lia.
  rewrite x_at_modern by (by apply scale_modern). rewrite Z.sub_diag. change (inject_Z 0) with 0%Q. lra.
Qed.

Lemma week_row_tiles words s : scale_ok s → ∃ l, weekTicks words s = Some l ∧ tiled 0 l (sc_width s).
Proof.
  intros Hs. unfold weekTicks. cbv zeta. set (offset := (getUTCDay (sc_from s) + DAYS_PER_WEEK - 1) mod DAYS_PER_WEEK).
  assert (0 <= offset <= 6) as Ho by (unfold offset, DAYS_PER_WEEK; div_lia).
  pose proof (scale_order s Hs). pose proof (scale_from s Hs) as Hf. unfold midnight_at in Hf.
  set (P := fun c => midnight_at c ∧ sc_from s < c + 7 * MS_PER_DAY).
  assert (P (addDays (sc_from s) (- offset))) as HP.
  { split; [|unfold addDays, MS_PER_DAY; lia]. unfold midnight_at. rewrite addDays_day_number. unfold addDays. lia. }
  destruct (tick_loop_tiles s Hs next_week (week_tick words s) P) with (fuel := tick_fuel s) (c := addDays (sc_from s) (- offset))
    as (l & -> & Hl); [done| |done|by apply HP| |].
  - intros c [Hm Hc]. unfold next_week, P, midnight_at, addDays, DAYS_PER_WEEK in *.
    assert (day_number (c + 7 * MS_PER_DAY) = day_number c + 7) by (apply (addDays_day_number c 7)).
    unfold MS_PER_DAY in *. split_and!; lia.
  - apply tick_fuel_enough; [done|]. unfold addDays, MS_PER_DAY. lia.
  - exists l. split; [done|]. eapply tiled_proper; [|exact Hl].
    rewrite Z.max_r, Z.min_l by (unfold addDays, MS_PER_DAY in *; lia).
    rewrite x_at_modern by (by apply scale_modern). rewrite Z.sub_diag. change (inject_Z 0) with 0%Q. lra.
Qed.

Lemma month_rows words s : scale_ok s →
  (∃ l, monthTicks words s = Some l ∧ tiled 0 l (sc_width s)) ∧ (∃ l, quarterTicks words s = Some l ∧ tiled 0 l (sc_width s)).
Proof.
  intros Hs. split.
  - destruct (month_row_tiles s 1 (month_tick words s) Hs) as (l & Hl & Ht); [by left|done|].
    rewrite Z.div_1_r, Z.mul_1_r in Hl. by exists l.
  - by apply (month_row_tiles s 3 (quarter_tick words s) Hs); [right|].
Qed.

(** C36: at every zoom, both rows above the calendar are made, and each tiles the
    window: its ticks begin at the left edge, follow each other without a gap,
    none is empty, and the last ends at the right edge. *)
Theorem header_rows_tile words from to px zoom :
  (0 < px)%Q → MODERN <= from → day_number from < day_number to →
  let s := makeScale from to px in
  (∃ l, ticksFor words s zoom = Some l ∧ tiled 0 l (sc_width s)) ∧
  (∃ l, headingTicks words s zoom = Some l ∧ tiled 0 l (sc_width s)).
Proof.
  intros Hpx Hf Hlt s. pose proof (makeScale_ok from to px Hpx Hf Hlt) as Hs. fold s in Hs.
  destruct (month_rows words s Hs), (week_row_tiles words s Hs).
  unfold ticksFor, headingTicks. destruct (zoom_ticks zoom); split; eauto.
Qed.

(** ** Drags *)

(** A drag never turns a range inside out; moving it keeps its length, and
    resizing keeps the other end where it was. *)
Theorem applyDrag_ordered start due mode days :
  start <= due →
  let '(start', due') := applyDrag start due mode days in
  start' <= due' ∧
  match mode with
  | drag_move => due' - start' = due - start ∧ start' = addDays start days
  | drag_start => due' = due ∧ start' = Z.min due (addDays start days)
  | drag_end => start' = start ∧ due' = Z.max start (addDays due days)
  end.
Proof.
  intros H. unfold applyDrag. destruct (Z.eqb_spec days 0) as [->|].
  - unfold addDays. destruct mode; repeat split; lia.
  - destruct mode; cbv zeta; [|destruct (Z.ltb_spec due (addDays start days))|destruct (Z.ltb_spec (addDays due days) start)];
      unfold addDays in *; repeat split; lia.
Qed.

Lemma scale_roundtrip_witness :
  let s := makeScale 1707523200000 1712275200000 7 in dateAt s (x_at s 1709251200000) = day 1709251200000.
Proof. exact (proj1 (scale_roundtrip 1707523200000 1712275200000 7 1709251200000 0 ltac:(reflexivity) ltac:(discriminate) ltac:(discriminate))). Defined.

Lemma window_fills_pane_witness :
  let z := fitted ZOOM_FIT 1707523200000 1712275200000 900 in
  (900 <= sc_width (makeScale 1707523200000 (filled 1707523200000 1712275200000 (zoom_pxPerDay z) 900) (zoom_pxPerDay z)))%Q.
Proof.
  exact (proj1 (window_fills_pane ZOOM_FIT 1707523200000 1712275200000 900 ltac:(discriminate) ltac:(discriminate)
    ltac:(discriminate) ltac:(vm_compute; reflexivity))).
Defined.

Lemma header_rows_tile_witness :
  ∃ l, headingTicks calendar_en (makeScale 1707523200000 1712275200000 (26 # 10)) ZOOM_QUARTERS = Some l ∧
    tiled 0 l (sc_width (makeScale 1707523200000 1712275200000 (26 # 10))).
Proof.
  exact (proj2 (header_rows_tile calendar_en 1707523200000 1712275200000 (26 # 10) ZOOM_QUARTERS
    ltac:(reflexivity) ltac:(discriminate) ltac:(reflexivity))).
Defined.

Lemma applyDrag_ordered_witness :
  let '(start', due') := applyDrag 0 864000000 drag_start 12 in start' <= due'.
Proof. exact (proj1 (applyDrag_ordered 0 864000000 drag_start 12 ltac:(discriminate))). Defined.
