(* ===== verification/ApiPlan.v ===== *)
(** The data the server answers with, continued: issues, sprints, milestones and
    the plan, of [web/src/api]. *)

From Stdlib Require Import ZArith QArith Ascii String.
From stdpp Require Import base list strings decidable.
From S2P Require Import Prelude JsString JsDate Api.

Open Scope Z_scope.

(** ** Issues: [api/issues.ts] *)

Definition LEVEL_SUBTASK : Z := -1.
Definition LEVEL_STANDARD : Z := 0.
Definition LEVEL_EPIC : Z := 1.

Record TypeRef := mkTypeRef {
  type_id : string;
  type_name : string;
  type_icon : string;
  type_level : Z;
  type_isSubtask : bool;
}.

Record ParentRef := mkParentRef {
  parentref_id : string;
  parentref_key : string;
  parentref_summary : string;
  parentref_type : TypeRef;
}.

Record UserRef := mkUserRef {
  user_id : string;
  user_name : string;
  user_email : option string;
  user_avatarUrl : option string;
}.

Inductive LabelColor := gray | red | orange | amber | green | teal | blue | purple | pink.

Record LabelRef := mkLabelRef { label_id : string; label_name : string; label_color : LabelColor }.

Inductive SprintState := future | active | closed.
#[export] Instance SprintState_eq : EqDecision SprintState.
Proof. solve_decision. Defined.

Record SprintRef := mkSprintRef { sprintref_id : string; sprintref_name : string; sprintref_state : SprintState }.

(** A thing referred to by its id and its name. *)
Record Named := mkNamed { named_id : string; named_name : string }.

Record VersionRef := mkVersionRef { version_id : string; version_name : string; version_released : bool }.

Record Issue := mkIssue {
  issue_id : string;
  issue_key : string;
  issue_type : TypeRef;
  issue_projectId : string;
  issue_projectKey : string;
  issue_summary : string;
  issue_description : option (list Json);
  issue_status : Status;
  issue_priority : Priority;
  issue_assignee : option UserRef;
  issue_reporter : option UserRef;
  issue_parentId : option string;
  issue_parentKey : option string;
  issue_parent : option ParentRef;
  issue_startDate : option string;
  issue_dueDate : option string;
  issue_sprintId : option string;
  issue_sprint : option SprintRef;
  issue_milestoneId : option string;
  issue_milestone : option Named;
  issue_estimate : option Q;
  issue_teamId : option string;
  issue_team : option Named;
  issue_requestTypeId : option string;
  issue_requestTypeName : option string;
  issue_company : option Named;
  issue_sharedWithCompany : option bool;
  issue_timeEstimateMinutes : option Z;
  issue_timeRemainingMinutes : option Z;
  issue_timeSpentMinutes : Z;
  issue_labels : list LabelRef;
  issue_fixVersions : list VersionRef;
  issue_affectsVersions : list VersionRef;
  issue_components : list Named;
  issue_createdAt : string;
  issue_updatedAt : string;
  issue_resolvedAt : option string;
  issue_childCount : option Z;
  issue_commentCount : option Z;
}.

Record Progress := mkProgress {
  progress_total : Z;
  progress_done : Z;
  progress_inProgress : Z;
  progress_todo : Z;
}.

(** ** Sprints: [api/sprints.ts] *)

Record Sprint := mkSprint {
  sprint_id : string;
  sprint_projectId : string;
  sprint_projectKey : string;
  sprint_teamId : option string;
  sprint_teamName : option string;
  sprint_name : string;
  sprint_goal : option string;
  sprint_state : SprintState;
  sprint_startsOn : option string;
  sprint_endsOn : option string;
  sprint_capacity : option Q;
  sprint_position : Z;
  sprint_startedAt : option string;
  sprint_completedAt : option string;
  sprint_committed : option Q;
  sprint_completed : option Q;
  sprint_createdAt : string;
  sprint_updatedAt : string;
}.

Record SprintPlan := mkSprintPlan {
  plan_sprint : Sprint;
  plan_committed : Q;
  plan_completed : Q;
  plan_issues : Z;
  plan_unestimated : Z;
  plan_availableHours : option Q;
  plan_nominalHours : option Q;
}.

(** ** Milestones: [api/milestones.ts] *)

Record MilestoneProgress := mkMilestoneProgress {
  mp_issues : Z;
  mp_done : Z;
  mp_inProgress : Z;
  mp_todo : Z;
  mp_percent : Z;
}.

Record Milestone := mkMilestone {
  milestone_id : string;
  milestone_projectId : string;
  milestone_projectKey : string;
  milestone_name : string;
  milestone_description : option string;
  milestone_dueOn : option string;
  milestone_closedAt : option string;
  milestone_position : Z;
  milestone_progress : MilestoneProgress;
  milestone_createdAt : string;
  milestone_updatedAt : string;
}.

(** ** The plan: [api/plan.ts] *)

Inductive PlanItem := mkPlanItem {
  item_issue : Issue;
  item_depth : Z;
  item_start : option string;
  item_due : option string;
  item_derived : bool;
  item_estimate : option Q;
  item_estimateDerived : option bool;
  item_progress : Progress;
  item_children : list PlanItem;
}.

Inductive WarningKind :=
  | blocked_too_early | outside_parent | half_scheduled | over_capacity
  | outside_sprint | past_milestone | over_load | over_allocated.
#[export] Instance WarningKind_eq : EqDecision WarningKind.
Proof. solve_decision. Defined.

Record PlanWarning := mkPlanWarning {
  warning_issueKey : option string;
  warning_sprint : option string;
  warning_team : option string;
  warning_person : option string;
  warning_kind : WarningKind;
  warning_message : string;
}.

Record LoadWeek := mkLoadWeek {
  week_start : string;
  week_load : Q;
  week_capacity : option Q;
  week_nominalCapacity : option Q;
  week_daysAway : option Q;
  week_holidays : option Z;
  week_issues : Z;
  week_unestimated : Z;
}.

Inductive TeamLoadKind := load_team | load_unassigned | load_total.

Record TeamLoad := mkTeamLoad {
  load_teamId : option string;
  load_team_name : string;
  load_kind : TeamLoadKind;
  load_weeklyCapacity : option Q;
  load_weeks : list LoadWeek;
  load_unscheduled : Z;
}.

Record Load := mkLoad { weeks_of_load : list string; rows_of_load : list TeamLoad }.

Record PlanSpan := mkPlanSpan { span_startDate : string; span_dueDate : string }.

Record PlanMove := mkPlanMove {
  move_issueKey : string;
  move_from : option PlanSpan;
  move_to : PlanSpan;
  move_placed : option bool;
  move_workingDays : Z;
  move_after : string;
}.

Record Unplaced := mkUnplaced { unplaced_issueKey : string; unplaced_reason : string }.

Record Alignment := mkAlignment {
  alignment_projectKey : string;
  alignment_moves : list PlanMove;
  alignment_unplaced : list Unplaced;
  alignment_warnings : list PlanWarning;
}.

(** [null] is an unset day. *)
Record ScheduleMoveInput := mkScheduleMoveInput {
  schedule_key : string;
  schedule_expected : option string * option string;
  schedule_startDate : option string;
  schedule_dueDate : option string;
}.

(** ** Induction over the items of a plan *)

Fixpoint PlanItem_ind' (P : PlanItem → Prop)
  (H : ∀ issue depth start due derived estimate estimateDerived progress children, Forall P children →
    P (mkPlanItem issue depth start due derived estimate estimateDerived progress children))
  (i : PlanItem) : P i :=
  match i with
  | mkPlanItem issue depth start due derived estimate estimateDerived progress children =>
      H issue depth start due derived estimate estimateDerived progress children
        ((fix all (l : list PlanItem) : Forall P l :=
            match l with
            | [] => Forall_nil_2 _
            | c :: l' => Forall_cons_2 _ _ _ (PlanItem_ind' P H c) (all l')
            end) children)
  end.
