(* ===== verification/Views.v ===== *)
(** The plan read several ways: [web/src/features/plan/views.ts].

    What a reader cuts and filters away, the numbers over the plan, and the rows
    each view draws. *)

From Stdlib Require Import ZArith QArith Lia Ascii String.
From Stdlib Require SpecFloat.
From stdpp Require Import base sets list strings sorting.
From S2P Require Import Prelude JsString JsDate Config Api ApiPlan.

Open Scope Z_scope.

(** ** Doubles *)

(** Numbers of the language as the doubles they are, where a result depends on
    rounding: IEEE 754 binary64, by the Standard Library's specification. *)
Module Binary64.
Import SpecFloat.

Definition double : Type := spec_float.

Definition prec64 : Z := 53.
Definition emax64 : Z := 1024.

Definition double_of_Z (n : Z) : double := binary_normalize prec64 emax64 n 0 false.
Definition double_mul : double → double → double := SFmul prec64 emax64.
Definition double_div : double → double → double := SFdiv prec64 emax64.
Definition double_add : double → double → double := SFadd prec64 emax64.
Definition double_sub : double → double → double := SFsub prec64 emax64.

(** [Math.floor] of a finite double; the others are [None]. *)
Definition double_floor (x : double) : option Z :=
  match x with
  | S754_zero _ => Some 0
  | S754_finite s m e =>
      let n := if s : bool then Zneg m else Zpos m in
      Some (if 0 <=? e then n * 2 ^ e else n / 2 ^ (- e))
  | S754_infinity _ | S754_nan => None
  end.
End Binary64.
Import Binary64.

(** ** Views and filters *)

Inductive PlanView := management | sprints_view | dependencies.
#[export] Instance PlanView_eq : EqDecision PlanView.
Proof. solve_decision. Defined.

Definition view_id (v : PlanView) : string :=
  match v with management => "management" | sprints_view => "sprints" | dependencies => "dependencies" end.

Definition PLAN_VIEWS : list PlanView := [management; sprints_view; dependencies].

Definition viewFor (id : option string) : PlanView :=
  default management (head (filter (fun v => Some (view_id v) = id) PLAN_VIEWS)).

Record Filters := mkFilters {
  filter_types : list string;
  filter_milestoneId : string;
  filter_teamId : string;
}.

Definition NO_FILTERS : Filters := mkFilters [] EmptyString EmptyString.

(** [cut_matched] is a set of keys, absent when there is no query. *)
Record Cut := mkCut { cut_closedForDays : option Z; cut_matched : option (list string) }.

Definition NO_CUT : Cut := mkCut None None.

(** When a done issue was closed; the inner [None] is a time that is no date. *)
Definition closedAt (i : Issue) : option (option Z) :=
  match status_category (issue_status i) with
  | done_ => Some (parse_date (default (issue_updatedAt i) (issue_resolvedAt i)))
  | _ => None
  end.

Definition survives (cut : Cut) (now : Z) (item : PlanItem) : bool :=
  let issue := item_issue item in
  match cut_matched cut with
  | Some keys => bool_decide (issue_key issue ∈ keys)
  | None => true
  end &&
  match cut_closedForDays cut with
  | None => true
  | Some days =>
      match closedAt issue with
      | None => true
      | Some None => false
      | Some (Some at_) => now - at_ <=? days * MS_PER_DAY
      end
  end.

(** [filterItems] compares with the very object [NO_FILTERS], of which there is
    one; any other filters are [Some]. *)
Definition matches (f : Filters) (item : PlanItem) : bool :=
  let issue := item_issue item in
  (bool_decide (filter_types f = []) || bool_decide (type_name (issue_type issue) ∈ filter_types f)) &&
  (negb (truthy (filter_milestoneId f)) || bool_decide (issue_milestoneId issue = Some (filter_milestoneId f))) &&
  (negb (truthy (filter_teamId f)) || bool_decide (issue_teamId issue = Some (filter_teamId f))).

(** ** Walking the items *)

Fixpoint flatten_item (i : PlanItem) : list PlanItem :=
  i :: flat_map flatten_item (item_children i).

Definition flatten (items : list PlanItem) : list PlanItem := flat_map flatten_item items.

Definition with_children (i : PlanItem) (children : list PlanItem) : PlanItem :=
  mkPlanItem (item_issue i) (item_depth i) (item_start i) (item_due i) (item_derived i)
    (item_estimate i) (item_estimateDerived i) (item_progress i) children.

(** One turn of the loop of [keepWhere]: the row with what is kept beneath it,
    or nothing. *)
Fixpoint keep_item (keep : PlanItem → bool) (i : PlanItem) : list PlanItem :=
  let children := flat_map (keep_item keep) (item_children i) in
  if keep i || (0 <? length children)%nat then [with_children i children] else [].

Definition keepWhere (items : list PlanItem) (keep : PlanItem → bool) : list PlanItem :=
  flat_map (keep_item keep) items.

Definition cutItems (items : list PlanItem) (cut : Cut) (now : Z) : list PlanItem :=
  match cut with
  | mkCut None None => items
  | _ => keepWhere items (survives cut now)
  end.

Definition filterItems (items : list PlanItem) (filters : option Filters) : list PlanItem :=
  match filters with
  | None => items
  | Some f => keepWhere items (matches f)
  end.

(** ** The numbers over the plan *)

Record TypeCount := mkTypeCount { tc_name : string; tc_icon : string; tc_count : Z }.

Record Meter := mkMeter {
  meter_total : Z;
  meter_scheduled : Z;
  meter_done : Z;
  meter_inProgress : Z;
  meter_todo : Z;
  meter_points : Q;
  meter_donePercent : option Z;
  meter_byType : list TypeCount;
}.

Definition given (s : option string) : bool := match s with Some s => truthy s | None => false end.

(** The loop's variables after one more item. *)
Definition count_type (m : list (string * TypeCount)) (item : PlanItem) : list (string * TypeCount) :=
  let type := issue_type (item_issue item) in
  let seen := default (mkTypeCount (type_name type) (type_icon type) 0) (jget m (type_name type)) in
  jset m (tc_name seen) (mkTypeCount (tc_name seen) (tc_icon seen) (tc_count seen + 1)).

Definition in_category (c : StatusCategory) (item : PlanItem) : bool :=
  bool_decide (status_category (issue_status (item_issue item)) = c).

Definition count_where (P : PlanItem → bool) (items : list PlanItem) : Z :=
  Z.of_nat (length (filter (fun i => P i = true) items)).

(** The points of what carries its own estimate. *)
Definition own_points (item : PlanItem) : Q :=
  match item_estimate item with
  | Some e => if default false (item_estimateDerived item) then 0 else e
  | None => 0
  end.

(** [Math.floor((done / total) * 100)], in doubles. *)
Definition donePercent (done total : Z) : option Z :=
  if total =? 0 then Some 0
  else double_floor (double_mul (double_div (double_of_Z done) (double_of_Z total)) (double_of_Z 100)).

Definition byType_order `{Collation} (a b : TypeCount) : Z :=
  cmp_or (cmp_on tc_count (fun x y => y - x)) (cmp_on tc_name localeCompare) a b.

Definition meter `{Collation} (items : list PlanItem) : Meter :=
  let all := flatten items in
  let total := Z.of_nat (length all) in
  let done := count_where (in_category done_) all in
  mkMeter total
    (count_where (fun i => given (item_start i) && given (item_due i)) all)
    done
    (count_where (in_category in_progress) all)
    (count_where (in_category todo) all)
    (foldl (fun sum i => sum + own_points i)%Q 0%Q all)
    (donePercent done total)
    (sort_by byType_order (jvals (foldl count_type [] all))).

(** ** Rows *)

Record GroupRow := mkGroupRow {
  group_key : string;
  group_label : string;
  group_sprint : option SprintPlan;
  group_count : Z;
  group_detail : option string;
  group_collapsed : bool;
}.

Inductive Row :=
  | IssueRow (key : string) (item : PlanItem) (hasChildren collapsed : bool)
  | GroupRowOf (g : GroupRow)
  | LoadRow (key : string) (row : TeamLoad)
  | AddRow (key label : string) (group : option GroupRow).

Definition row_item (r : Row) : option PlanItem :=
  match r with IssueRow _ item _ _ => Some item | _ => None end.

Definition BACKLOG_KEY : string := "sprint:backlog".
Definition PLAN_ADD_KEY : string := "add:plan".

Definition nonempty {A} (l : list A) : bool := (0 <? length l)%nat.

Fixpoint hierarchy_item (collapsed : list string) (i : PlanItem) : list Row :=
  let isCollapsed := bool_decide (issue_key (item_issue i) ∈ collapsed) in
  IssueRow (issue_key (item_issue i)) i (nonempty (item_children i)) isCollapsed ::
  (if isCollapsed then [] else flat_map (hierarchy_item collapsed) (item_children i)).

Definition hierarchyRows (items : list PlanItem) (collapsed : list string) : list Row :=
  flat_map (hierarchy_item collapsed) items.

(** [{ ...item, depth: 0, children: [] }]. *)
Definition flat_item (i : PlanItem) : PlanItem :=
  mkPlanItem (item_issue i) 0 (item_start i) (item_due i) (item_derived i)
    (item_estimate i) (item_estimateDerived i) (item_progress i) [].

(** Work to be taken on: what holds nothing, and what a sprint holds itself. *)
Definition in_iterations (i : PlanItem) : bool :=
  negb (nonempty (item_children i)) || given (issue_sprintId (item_issue i)).

Definition sprint_members (all : list PlanItem) (id : string) : list PlanItem :=
  filter (fun i => issue_sprintId (item_issue i) = Some id) all.

Definition in_backlog (known : list string) (i : PlanItem) : bool :=
  match issue_sprintId (item_issue i) with
  | Some id => negb (truthy id) || negb (bool_decide (id ∈ known))
  | None => true
  end.

(** The closure [group]: a heading, and unless it is collapsed its members and
    a line to add to it. *)
Definition group_rows (collapsed : list string) (key label : string) (sprint : option SprintPlan)
    (members : list PlanItem) : list Row :=
  let isCollapsed := bool_decide (key ∈ collapsed) in
  let head := mkGroupRow key label sprint (Z.of_nat (length members)) None isCollapsed in
  GroupRowOf head ::
  (if isCollapsed then []
   else map (fun i => IssueRow (issue_key (item_issue i)) i false false) members ++
        [AddRow ("add:" +:+ key) label (Some head)]).

(** [t.plan.views]. *)
Record ViewWords := mkViewWords { word_backlog : string; word_addToPlan : string }.
Definition views_en : ViewWords := mkViewWords "Backlog" "plan".

Section Rows.
Context (words : ViewWords).

Definition iteration_items (items : list PlanItem) : list PlanItem :=
  map flat_item (filter (fun i => in_iterations i = true) (flatten items)).

Definition sprintRows (items : list PlanItem) (sprints : list SprintPlan) (collapsed : list string) : list Row :=
  let all := iteration_items items in
  let known := map (fun p => sprint_id (plan_sprint p)) sprints in
  flat_map (fun p => group_rows collapsed ("sprint:" +:+ sprint_id (plan_sprint p)) (sprint_name (plan_sprint p))
                       (Some p) (sprint_members all (sprint_id (plan_sprint p)))) sprints ++
  group_rows collapsed BACKLOG_KEY (word_backlog words) None
    (filter (fun i => in_backlog known i = true) all).

Definition rowsFor (view : PlanView) (items : list PlanItem) (sprints : list SprintPlan) (collapsed : list string)
  : list Row :=
  match view with
  | sprints_view => sprintRows items sprints collapsed
  | _ => hierarchyRows items collapsed ++ [AddRow PLAN_ADD_KEY (word_addToPlan words) None]
  end.
End Rows.
