(* ===== verification/ViewsFacts.v ===== *)
(** What the plan's views keep: a filter shows what matches and the way to it,
    the counts add up, and the sprint view shows each piece of work once. *)

From Stdlib Require Import ZArith QArith Lia Ascii String.
From stdpp Require Import base sets list strings sorting.
From S2P Require Import Prelude JsString JsDate Config Api ApiPlan Views.

Open Scope Z_scope.

(** ** What a filter keeps *)

(** Whether a row or one beneath it passes a test. *)
Definition kept (keep : PlanItem → bool) (i : PlanItem) : bool := existsb keep (flatten_item i).

Lemma existsb_flat_map {A B} (P : B → bool) (f : A → list B) (l : list A) :
  existsb P (flat_map f l) = existsb (fun x => existsb P (f x)) l.
Proof. induction l as [|x l IH]; [done|]. simpl. by rewrite existsb_app, IH. Qed.

Lemma filter_none {A} (P : A → bool) (l : list A) : existsb P l = false → filter (fun x => P x = true) l = [].
Proof.
  induction l as [|x l IH]; [done|]. simpl. intros [Hx Hl]%orb_false_iff.
  rewrite filter_cons, Hx, decide_False by done. by apply IH.
Qed.

Lemma nonempty_spec {A} (l : list A) : nonempty l = false ↔ l = [].
Proof. unfold nonempty. destruct l; simpl; split; done. Qed.

Section KeepWhere.
Context (keep : PlanItem → bool).

Lemma keep_item_kept i : nonempty (keep_item keep i) = kept keep i.
Proof.
  induction i as [issue depth start due derived est estd prog children IH] using PlanItem_ind'.
  unfold kept. cbn [keep_item flatten_item item_children existsb].
  set (i := mkPlanItem _ _ _ _ _ _ _ _ _). destruct (keep i); [done|]. cbn [orb].
  assert ((0 <? length (flat_map (keep_item keep) children))%nat = existsb keep (flat_map flatten_item children)) as ->;
    [|by destruct (existsb keep _)].
  rewrite existsb_flat_map. induction IH as [|c children Hc _ IH]; [done|]. cbn [flat_map existsb].
  rewrite length_app, <- IH. fold (kept keep c). rewrite <- Hc. unfold nonempty.
  destruct (length (keep_item keep c)); [done|]. destruct (length (flat_map (keep_item keep) children)); done.
Qed.

(** The rows left are the rows that pass or hold one that does, in their order. *)
Lemma keep_item_flatten i :
  map item_issue (flatten (keep_item keep i)) =
  map item_issue (filter (fun j => kept keep j = true) (flatten_item i)).
Proof.
  induction i as [issue depth start due derived est estd prog children IH] using PlanItem_ind'.
  pose proof (keep_item_kept (mkPlanItem issue depth start due derived est estd prog children)) as Hk.
  cbn [keep_item flatten_item item_children] in *. set (i := mkPlanItem _ _ _ _ _ _ _ _ _) in *.
  rewrite filter_cons.
  assert (map item_issue (flatten (flat_map (keep_item keep) children)) =
          map item_issue (filter (fun j => kept keep j = true) (flat_map flatten_item children))) as Hchildren.
  { clear Hk. unfold flatten in *. induction IH as [|c children Hc _ IH]; [done|].
    cbn [flat_map]. rewrite flat_map_app, filter_app, !map_app. by rewrite Hc, IH. }
  destruct (keep i || (0 <? length (flat_map (keep_item keep) children))%nat).
  - rewrite decide_True by (by rewrite <- Hk). unfold flatten. cbn [flat_map]. cbn [flatten_item with_children item_children].
    rewrite app_nil_r. cbn [map item_issue]. f_equal. exact Hchildren.
  - rewrite decide_False by (by rewrite <- Hk). symmetry. rewrite filter_none; [done|].
    unfold kept in *. cbn [flatten_item item_children existsb] in Hk. symmetry in Hk.
    apply orb_false_iff in Hk as [_ Hk]. apply not_true_iff_false. intros (j & Hj & Hjk)%existsb_exists.
    apply not_true_iff_false in Hk. apply Hk. apply existsb_exists in Hjk as (x & Hx & Hxk).
    apply existsb_exists. exists x. split; [|done].
    apply in_flat_map in Hj as (c & Hc & Hj). apply in_flat_map. exists c. split; [done|].
    clear -Hx Hj. revert j Hj Hx. induction c as [issue depth start due derived est estd prog children IH] using PlanItem_ind'.
    intros j Hj Hx. cbn [flatten_item item_children] in *. destruct Hj as [<-|Hj]; [done|].
    right. apply in_flat_map in Hj as (c & Hc & Hj). apply in_flat_map. exists c. split; [done|].
    rewrite Forall_forall in IH. apply (IH c) with j; [by apply list_elem_of_In|done|done].
Qed.
End KeepWhere.

Lemma keepWhere_flatten keep items :
  map item_issue (flatten (keepWhere items keep)) =
  map item_issue (filter (fun i => existsb keep (flatten_item i) = true) (flatten items)).
Proof.
  unfold keepWhere, flatten. induction items as [|i items IH]; [done|]. cbn [flat_map].
  rewrite flat_map_app, filter_app, !map_app, IH. f_equal. apply keep_item_flatten.
Qed.

(** What a reader filters or cuts away is exactly what neither passes nor has
    something beneath it that does: the rows left are the others, in the order
    they had, each under the rows it was under. *)
Theorem filtered_rows items f cut now :
  (map item_issue (flatten (filterItems items (Some f))) =
   map item_issue (filter (fun i => existsb (matches f) (flatten_item i) = true) (flatten items))) ∧
  (map item_issue (flatten (cutItems items cut now)) =
   map item_issue (filter (fun i => existsb (survives cut now) (flatten_item i) = true) (flatten items))).
Proof.
  split; [apply keepWhere_flatten|]. unfold cutItems.
  destruct cut as [[days|] [keys|]]; try apply keepWhere_flatten.
  f_equal. induction (flatten items) as [|i l IH]; [done|]. rewrite filter_cons, decide_True; [by rewrite <- IH|].
  by destruct i.
Qed.

(** ** The numbers over the plan *)

Definition sum_of (l : list Z) : Z := foldr Z.add 0 l.

Lemma sum_of_perm l l' : l ≡ₚ l' → sum_of l = sum_of l'.
Proof. unfold sum_of. induction 1; simpl; lia. Qed.

Lemma sum_of_app l l' : sum_of (l ++ l') = sum_of l + sum_of l'.
Proof. unfold sum_of. induction l; simpl; lia. Qed.

(** Setting a key changes a total by what the key gained. *)
Lemma sum_jset {V} (f : V → Z) (m : list (string * V)) k v :
  sum_of (map f (jvals (jset m k v))) =
  sum_of (map f (jvals m)) + f v - match jget m k with Some old => f old | None => 0 end.
Proof.
  unfold jvals, sum_of. induction m as [|[a b] m IH]; csimpl; [lia|].
  case_decide; csimpl; [lia|]. rewrite IH. lia.
Qed.

Definition of_type (name : string) (i : PlanItem) : bool := bool_decide (type_name (issue_type (item_issue i)) = name).

Lemma count_where_snoc P l x : count_where P (l ++ [x]) = count_where P l + (if P x then 1 else 0).
Proof.
  unfold count_where. rewrite filter_app, length_app, filter_cons, filter_nil.
  destruct (P x); [rewrite decide_True by done|rewrite decide_False by done]; simpl; lia.
Qed.

(** The counts by type, after any number of items. *)
Lemma count_types all :
  let m := foldl count_type [] all in
  NoDup (jkeys m) ∧
  (∀ name, jget m name = None ↔ count_where (of_type name) all = 0) ∧
  (∀ name tc, jget m name = Some tc → tc_name tc = name ∧ tc_count tc = count_where (of_type name) all) ∧
  sum_of (map tc_count (jvals m)) = Z.of_nat (length all).
Proof.
  cbv zeta. induction all as [|x all IH] using rev_ind.
  { split_and!; [constructor|done|done|done]. }
  rewrite foldl_snoc. destruct IH as (HND & Hnone & Hget & Hsum).
  set (m := foldl count_type [] all) in *. set (name := type_name (issue_type (item_issue x))).
  assert (count_type m x = jset m name (mkTypeCount name (tc_icon (default (mkTypeCount name (type_icon (issue_type (item_issue x))) 0) (jget m name)))
    (count_where (of_type name) all + 1))) as Hc.
  { unfold count_type. fold name. destruct (jget m name) as [tc|] eqn:E; cbn [default from_option id].
    - destruct (Hget _ _ E) as [-> ->]. done.
    - cbn [tc_name tc_count tc_icon]. by rewrite (proj1 (Hnone name) E). }
  rewrite Hc. assert (∀ n, of_type n x = bool_decide (name = n)) as Hx by done.
  assert (∀ n, 0 <= count_where (of_type n) all) as Hpos by (intros n; unfold count_where; lia).
  split_and!.
  - by apply NoDup_jkeys_jset.
  - intros n. rewrite jget_jset, count_where_snoc, Hx. case_decide; case_bool_decide; try done.
    + split; [done|]. specialize (Hpos n). lia.
    + rewrite Hnone. lia.
  - intros n tc. rewrite jget_jset, count_where_snoc, Hx. case_decide as E; case_bool_decide; try done.
    + intros [= <-]. cbn [tc_name tc_count]. by subst n.
    + intros Ht. destruct (Hget _ _ Ht) as [-> ->]. split; [done|]. lia.
  - rewrite sum_jset, Hsum, length_app. cbn [tc_count length].
    destruct (jget m name) as [tc|] eqn:E; [rewrite (proj2 (Hget _ _ E))|rewrite (proj1 (Hnone name) E)]; lia.
Qed.

Lemma categories_total all :
  count_where (in_category done_) all + count_where (in_category in_progress) all + count_where (in_category todo) all =
  Z.of_nat (length all).
Proof.
  induction all as [|x all IH] using rev_ind; [done|]. rewrite !count_where_snoc, length_app.
  unfold in_category at 2 4 6. destruct (status_category (issue_status (item_issue x))); simpl; lia.
Qed.

(** The numbers over the plan add up: every row is done, in progress or to
    do; the counts by type cover every row once, each right for its type, with
    no type listed twice and the largest first. *)
Theorem meter_adds_up `{Collation} items :
  let m := meter items in
  meter_total m = Z.of_nat (length (flatten items)) ∧
  meter_done m + meter_inProgress m + meter_todo m = meter_total m ∧
  sum_of (map tc_count (meter_byType m)) = meter_total m ∧
  NoDup (map tc_name (meter_byType m)) ∧
  (∀ tc, tc ∈ meter_byType m → tc_count tc = count_where (of_type (tc_name tc)) (flatten items)) ∧
  StronglySorted (fun a b => tc_count b <= tc_count a) (meter_byType m).
Proof.
  unfold meter. cbv zeta. cbn [meter_total meter_done meter_inProgress meter_todo meter_byType].
  set (all := flatten items). destruct (count_types all) as (HND & _ & Hget & Hsum).
  set (m := foldl count_type [] all) in *.
  assert (∀ name tc, (name, tc) ∈ m → tc_name tc = name ∧ tc_count tc = count_where (of_type name) all) as Hm.
  { intros name tc Hin. apply Hget. by apply jget_NoDup. }
  assert (map tc_name (jvals m) = jkeys m) as Hnames.
  { unfold jvals, jkeys. clear -Hm. induction m as [|[n tc] m IH]; [done|]. csimpl. f_equal.
    - apply (Hm n tc). by left.
    - apply IH. intros name t Hin. apply Hm. by right. }
  split_and!; [done|apply categories_total| | | |].
  - rewrite <- Hsum. apply sum_of_perm. by rewrite sort_by_Permutation.
  - rewrite sort_by_Permutation, Hnames. done.
  - intros tc Htc. rewrite elem_of_sort_by in Htc. unfold jvals in Htc.
    apply list_elem_of_fmap in Htc as ([name tc'] & -> & Hin). simpl.
    destruct (Hm _ _ Hin) as [-> ->]. done.
  -
    pose proof (sort_by_sorted byType_order (jvals m)) as Hs.
    induction Hs as [|x l _ IH Hall]; constructor; [done|].
    eapply Forall_impl; [exact Hall|]. intros y Hy. unfold cmp_le, byType_order, cmp_or, cmp_on in Hy.
    destruct (Z.eqb_spec (tc_count y - tc_count x) 0) in Hy; lia.
Qed.

(** Twenty-nine of a hundred done reads twenty-eight per cent: the division is
    rounded before the product is. *)
Example donePercent_rounds : donePercent 29 100 = Some 28.
Proof. vm_compute. reflexivity. Qed.

(** ** The sprint view *)

Lemma filter_split {A} (P Q : A → Prop) `{∀ x, Decision (P x), ∀ x, Decision (Q x)} (l : list A) :
  (∀ x, x ∈ l → Q x ↔ ¬ P x) → filter P l ++ filter Q l ≡ₚ l.
Proof.
  induction l as [|x l IH]; intros H'; [done|]. rewrite !filter_cons.
  pose proof (H' x ltac:(by left)) as Hx. destruct (decide (P x)).
  - rewrite decide_False by tauto. simpl. rewrite IH; [done|]. intros y Hy. apply H'. by right.
  - rewrite decide_True by tauto. rewrite <- Permutation_middle, IH; [done|]. intros y Hy. apply H'. by right.
Qed.

Definition sprint_in (ids : list string) (i : PlanItem) : bool :=
  match issue_sprintId (item_issue i) with Some id => bool_decide (id ∈ ids) | None => false end.

(** The sprints take what names them, each its own. *)
Lemma sprint_members_partition all ids :
  NoDup ids → flat_map (sprint_members all) ids ≡ₚ filter (fun i => sprint_in ids i = true) all.
Proof.
  intros HND. induction HND as [|id ids Hid HND IH].
  - simpl. rewrite filter_none; [done|]. induction all as [|x all IH]; [done|]. simpl. rewrite IH.
    unfold sprint_in. destruct (issue_sprintId _); [|done]. by rewrite bool_decide_false by apply not_elem_of_nil.
  - cbn [flat_map]. rewrite IH. unfold sprint_members. clear IH.
    induction all as [|x all IH]; [done|]. rewrite !filter_cons.
    unfold sprint_in in *. destruct (issue_sprintId (item_issue x)) as [s|].
    + destruct (decide (s = id)) as [->|Hne].
      * rewrite (decide_True (P := Some id = Some id)) by done.
        rewrite (decide_False (P := bool_decide (id ∈ ids) = true)) by (by rewrite bool_decide_eq_true).
        rewrite decide_True by (rewrite bool_decide_eq_true; by left). simpl. by rewrite IH.
      * rewrite (decide_False (P := Some s = Some id)) by congruence.
        destruct (decide (s ∈ ids)).
        -- rewrite (decide_True (P := bool_decide (s ∈ ids) = true)) by (by rewrite bool_decide_eq_true).
           rewrite decide_True by (rewrite bool_decide_eq_true; by right).
           rewrite <- Permutation_middle. by rewrite IH.
        -- rewrite (decide_False (P := bool_decide (s ∈ ids) = true)) by (by rewrite bool_decide_eq_true).
           rewrite decide_False by (rewrite bool_decide_eq_true; intros [?|?]%elem_of_cons; done). done.
    + by rewrite !decide_False by done.
Qed.

Lemma backlog_rest ids i : EmptyString ∉ ids → in_backlog ids i = negb (sprint_in ids i).
Proof.
  intros Hne. unfold in_backlog, sprint_in. destruct (issue_sprintId (item_issue i)) as [s|]; [|done].
  unfold truthy. rewrite negb_involutive. case_bool_decide as E; [|done]. subst s. simpl.
  by rewrite bool_decide_false.
Qed.

Lemma iterations_partition all ids :
  NoDup ids → EmptyString ∉ ids →
  flat_map (sprint_members all) ids ++ filter (fun i => in_backlog ids i = true) all ≡ₚ all.
Proof.
  intros HND Hne. rewrite sprint_members_partition by done. apply filter_split.
  intros i _. rewrite backlog_rest by done. destruct (sprint_in ids i); simpl; split; try done; intros; congruence.
Qed.

(** Every group a view has, open or not. *)
Definition groups_of (rows : list Row) : list GroupRow :=
  omap (fun r => match r with GroupRowOf g => Some g | _ => None end) rows.

Lemma group_rows_items key label sprint members :
  omap row_item (group_rows [] key label sprint members) = members.
Proof.
  unfold group_rows. rewrite bool_decide_false by apply not_elem_of_nil. rewrite omap_cons. cbn [row_item].
  rewrite omap_app, omap_cons. cbn [row_item]. rewrite app_nil_r.
  induction members as [|m l IH]; [done|]. cbn [map]. rewrite omap_cons. cbn [row_item]. by rewrite IH.
Qed.

Lemma group_rows_groups collapsed key label sprint members :
  map group_count (groups_of (group_rows collapsed key label sprint members)) = [Z.of_nat (length members)].
Proof.
  unfold group_rows, groups_of. rewrite omap_cons. cbn [map group_count]. f_equal.
  destruct (bool_decide (key ∈ collapsed)); [done|].
  match goal with |- context [AddRow _ _ ?g] => generalize g end. intros gr.
  induction members as [|m l IH]; [done|]. cbn [map app]. rewrite omap_cons. exact IH.
Qed.

(** The sprint view shows each piece of work once: with every group open its
    rows are the work to be taken on, none twice and none left out; and
    whatever is collapsed, the counts on the groups add up to all of it. *)
Theorem sprintRows_partition words items sprints collapsed :
  let ids := map (fun p => sprint_id (plan_sprint p)) sprints in
  NoDup ids → EmptyString ∉ ids →
  omap row_item (sprintRows words items sprints []) ≡ₚ iteration_items items ∧
  sum_of (map group_count (groups_of (sprintRows words items sprints collapsed))) =
    Z.of_nat (length (iteration_items items)).
Proof.
  intros ids HND Hne. pose proof (iterations_partition (iteration_items items) ids HND Hne) as Hp.
  set (all := iteration_items items) in *. unfold sprintRows. fold all. fold ids. split.
  - rewrite omap_app, group_rows_items. rewrite <- Hp at 2. apply Permutation_app_tail.
    unfold ids. clear. induction sprints as [|p sprints IH]; [done|]. cbn [flat_map map].
    rewrite omap_app, group_rows_items. by apply Permutation_app_head.
  - rewrite <- (Permutation_length Hp), length_app. unfold groups_of. rewrite omap_app, map_app, sum_of_app.
    change (omap (λ r : Row, match r with GroupRowOf g => Some g | _ => None end)) with groups_of.
    rewrite group_rows_groups. cbn [sum_of foldr]. rewrite Nat2Z.inj_add, Z.add_0_r. f_equal.
    unfold ids. clear. induction sprints as [|p sprints IH]; [done|]. cbn [flat_map map].
    unfold groups_of in *. rewrite omap_app, map_app, sum_of_app, IH, length_app.
    change (omap (λ r : Row, match r with GroupRowOf g => Some g | _ => None end)) with groups_of.
    rewrite group_rows_groups. cbn [sum_of foldr]. lia.
Qed.

(** With nothing collapsed the hierarchy lists every row of the plan once, in
    order; collapsing hides rows and never adds or reorders them. *)
Theorem hierarchyRows_rows items collapsed :
  omap row_item (hierarchyRows items []) = flatten items ∧
  omap row_item (hierarchyRows items collapsed) `sublist_of` flatten items.
Proof.
  assert (∀ col i, omap row_item (hierarchy_item col i) `sublist_of` flatten_item i) as Hsub.
  { intros col i. induction i as [issue depth start due derived est estd prog children IH] using PlanItem_ind'.
    cbn [hierarchy_item flatten_item item_children]. rewrite omap_cons. cbn [row_item]. apply sublist_skip.
    destruct (bool_decide _); [apply sublist_nil_l|].
    induction IH as [|c children Hc _ IH]; [done|]. cbn [flat_map]. rewrite omap_app. by apply sublist_app. }
  assert (∀ i, omap row_item (hierarchy_item [] i) = flatten_item i) as Heq.
  { intros i. induction i as [issue depth start due derived est estd prog children IH] using PlanItem_ind'.
    cbn [hierarchy_item flatten_item item_children]. rewrite bool_decide_false by apply not_elem_of_nil.
    rewrite omap_cons. cbn [row_item]. f_equal.
    induction IH as [|c children Hc _ IH]; [done|]. cbn [flat_map]. by rewrite omap_app, Hc, IH. }
  unfold hierarchyRows, flatten. split.
  - induction items as [|i items IH]; [done|]. cbn [flat_map]. by rewrite omap_app, Heq, IH.
  - induction items as [|i items IH]; [done|]. cbn [flat_map]. rewrite omap_app. by apply sublist_app.
Qed.

(** ** A small plan *)

Definition plain_type : TypeRef := mkTypeRef "t1" "Story" "book" 0 false.
Definition plain_status : Status := mkStatus "s1" "To Do" todo None 0.

Definition plain_issue (key : string) (sprintId : option string) : Issue :=
  mkIssue key key plain_type "p1" "PR" key None plain_status medium None None None None None None None sprintId None
    None None None None None None None None None None None 0 [] [] [] []
    "2024-01-01T00:00:00Z" "2024-01-01T00:00:00Z" None None None.

Definition plain_item (key : string) (sprintId : option string) (children : list PlanItem) : PlanItem :=
  mkPlanItem (plain_issue key sprintId) 0 None None false None None (mkProgress 0 0 0 0) children.

Definition plain_sprint (id : string) : SprintPlan :=
  mkSprintPlan (mkSprint id "p1" "PR" None None id None active None None None 0 None None None None
    "2024-01-01T00:00:00Z" "2024-01-01T00:00:00Z") 0 0 0 0 None None.

Lemma sprintRows_partition_witness :
  omap row_item (sprintRows views_en [plain_item "PR-1" None [plain_item "PR-2" (Some "a"%string) []; plain_item "PR-3" None []]]
    [plain_sprint "a"; plain_sprint "b"] []) ≡ₚ
  iteration_items [plain_item "PR-1" None [plain_item "PR-2" (Some "a"%string) []; plain_item "PR-3" None []]].
Proof.
  refine (proj1 (sprintRows_partition views_en _ [plain_sprint "a"; plain_sprint "b"] [] _ _)).
  - apply (bool_decide_unpack _). vm_compute. exact I.
  - apply (bool_decide_unpack _). vm_compute. exact I.
Defined.
