(* ===== verification/PlanPieces.v ===== *)
(** The smaller parts of the plan page: [web/src/features/plan] — [load.ts],
    [autoplan.ts], [reparent.ts], [warnings.ts], [create.ts], [markers.ts],
    [layout.ts] and [settings.ts]. *)

From Stdlib Require Import ZArith QArith Qround Qminmax Qabs Lia Lqa Ascii String.
From stdpp Require Import base sets list strings sorting.
From S2P Require Import Prelude JsString JsDate Config Api ApiPlan Scale Views.

Open Scope Z_scope.

(** ** Numbers as a person writes them: [number] of [SprintBands.tsx] *)

(** A whole number of hundredths, as [String] writes it. *)
Definition stringOfHundredths (n : Z) : string :=
  let frac := Z.abs n mod 100 in
  (if n <? 0 then "-" else EmptyString) +:+ stringOfInt (Z.abs n / 100) +:+
  (if frac =? 0 then EmptyString
   else "." +:+ (if frac mod 10 =? 0 then stringOfInt (frac / 10) else padStart 2 (stringOfInt frac))).

Definition number (value : Q) : string := stringOfHundredths (js_round (value * 100)).

(** ** The load rows: [load.ts] *)

(** [t.plan.load], and the way each language counts. *)
Record LoadWords := mkLoadWords {
  load_word_group : string;
  load_word_groupDetail : string;
  load_word_perWeek : string → string;
  load_word_noCapacity : string;
  load_word_unscheduled : Z → string;
  load_word_points : string → string;
  load_word_pointsOf : string → string → string;
  load_word_unestimated : Z → string;
  load_word_week : string → string → string → Z → string → string;
  load_word_shortBy : string → string → string → string → string;
  load_word_daysAway : string → Q → string;
  load_word_holidays : Z → string;
  load_word_and : string;
}.

Definition plural (n : Z) (one many : string) : string :=
  stringOfInt n +:+ " " +:+ (if n =? 1 then one else many).

Definition load_en : LoadWords := mkLoadWords
  "Load by team" "points per week against capacity"
  (fun points => points +:+ " pts/week") "no capacity set"
  (fun count => stringOfInt count +:+ " unscheduled")
  (fun points => points +:+ " pts")
  (fun load capacity => load +:+ "/" +:+ capacity +:+ " pts")
  (fun count => ", " +:+ stringOfInt count +:+ " unestimated")
  (fun team start load issues extra =>
     team +:+ ", week of " +:+ start +:+ ": " +:+ load +:+ " over " +:+ plural issues "issue" "issues" +:+ extra)
  (fun said nominal capacity why => said +:+ ". Capacity " +:+ nominal +:+ " pts, " +:+ capacity +:+ " after " +:+ why)
  (fun days count => days +:+ " day" +:+ (if Qeq_bool count 1 then EmptyString else "s") +:+ " away")
  (fun count => plural count "holiday" "holidays")
  " and ".

Definition LOAD_GROUP_KEY : string := "load".

Inductive Utilisation := unmeasured | under | full | over.

Definition utilisation (load : Q) (capacity : option Q) : Utilisation :=
  match capacity with
  | None => unmeasured
  | Some c =>
      if negb (Qle_bool load c) then over
      else if Qle_bool (c * PLAN_LOAD_FULL_RATIO) load && negb (Qle_bool c 0) then full
      else under
  end.

Record WeekCell := mkWeekCell { cell_key : string; cell_x : Q; cell_width : Q; cell_week : LoadWeek }.

(** A week clipped to the canvas, if any of it is on it. *)
Definition week_cell (s : Scale) (week : LoadWeek) : option WeekCell :=
  start ← parse_date (week_start week);
  let rawX := x_at s start in
  let x := Qmax 0 rawX in
  let right := Qmin (sc_width s) (rawX + inject_Z DAYS_PER_WEEK * sc_pxPerDay s) in
  if Qle_bool right x then None else Some (mkWeekCell (isoDay start) x (right - x) week).

(** [None] is the exception [toISOString] throws for a week that begins on no day. *)
Definition weekCells (s : Scale) (row : TeamLoad) : option (list WeekCell) :=
  if forallb (fun w => bool_decide (is_Some (parse_date (week_start w)))) (load_weeks row)
  then Some (omap (week_cell s) (load_weeks row)) else None.

Definition max_of (l : list Q) (init : Q) : Q := foldl Qmax init l.

Definition barShare (row : TeamLoad) (week : LoadWeek) : Q :=
  let ceiling := match week_capacity week with
    | Some c => Qmax c (week_load week)
    | None => max_of (map week_load (load_weeks row)) 1
    end in
  if Qle_bool ceiling 0 then 0 else Qmin 1 (week_load week / ceiling).

(** [" · "]. *)
Definition middle_dot : string := " " +:+ String (unit_of 183) " ".

Section LoadText.
Context (words : LoadWords).

Definition loadRows (load : Load) (filters : Filters) (collapsed : list string) : list Row :=
  let rows := if truthy (filter_teamId filters)
    then filter (fun r => load_teamId r = Some (filter_teamId filters)) (rows_of_load load)
    else rows_of_load load in
  if negb (nonempty rows) || negb (nonempty (weeks_of_load load)) then []
  else
    let isCollapsed := bool_decide (LOAD_GROUP_KEY ∈ collapsed) in
    GroupRowOf (mkGroupRow LOAD_GROUP_KEY (load_word_group words) None (Z.of_nat (length rows))
                  (Some (load_word_groupDetail words)) isCollapsed) ::
    (if isCollapsed then [] else map (fun r => LoadRow ("load:" +:+ load_team_name r) r) rows).

Definition describeLoad (row : TeamLoad) : string :=
  join middle_dot ((match load_weeklyCapacity row with
                | Some c => load_word_perWeek words (number c)
                | None => load_word_noCapacity words
                end) ::
               (if 0 <? load_unscheduled row then [load_word_unscheduled words (load_unscheduled row)] else [])).

Definition daysOff (week : LoadWeek) : string :=
  join (load_word_and words)
    ((match week_daysAway week with
      | Some d => if Qeq_bool d 0 then [] else [load_word_daysAway words (number d) d]
      | None => []
      end) ++
     (match week_holidays week with
      | Some h => if h =? 0 then [] else [load_word_holidays words h]
      | None => []
      end)).

Definition capitalised (text : string) : string :=
  match text with EmptyString => EmptyString | String c s => String (upper c) s end.

(** [start] is the week's first day, as [isoDay] writes it. *)
Definition describe_week (row : TeamLoad) (week : LoadWeek) (start : string) : string :=
  let load := match week_capacity week with
    | Some c => load_word_pointsOf words (number (week_load week)) (number c)
    | None => load_word_points words (number (week_load week))
    end in
  let extra := if 0 <? week_unestimated week then load_word_unestimated words (week_unestimated week) else EmptyString in
  let said := load_word_week words (load_team_name row) start load (week_issues week) extra in
  let why := daysOff week in
  if negb (truthy why) then said
  else match week_nominalCapacity week, week_capacity week with
  | Some nominal, Some capacity => load_word_shortBy words said (number nominal) (number capacity) why
  | _, _ => said +:+ ". " +:+ capitalised why
  end.

(** [toISOString] throws for a week that begins on no day. *)
Definition describeWeek (row : TeamLoad) (week : LoadWeek) : option string :=
  start ← parse_date (week_start week); Some (describe_week row week (isoDay start)).
End LoadText.

(** ** The auto plan: [autoplan.ts] *)

Definition dayOf (value : string) : string := sliceTo 10 value.

Definition movesToSave (a : Alignment) : list ScheduleMoveInput :=
  map (fun move => mkScheduleMoveInput (move_issueKey move)
    (match move_from move with
     | Some from => (Some (dayOf (span_startDate from)), Some (dayOf (span_dueDate from)))
     | None => (None, None)
     end)
    (Some (dayOf (span_startDate (move_to move)))) (Some (dayOf (span_dueDate (move_to move)))))
    (alignment_moves a).

Definition proposedBars (a : option Alignment) : option (list (string * (string * string))) :=
  (fun a => jof (map (fun move => (move_issueKey move,
     (dayOf (span_startDate (move_to move)), dayOf (span_dueDate (move_to move))))) (alignment_moves a))) <$> a.

Definition movesBack (applied : list ScheduleMoveInput) : list ScheduleMoveInput :=
  map (fun move => mkScheduleMoveInput (schedule_key move)
    (schedule_startDate move, schedule_dueDate move) (schedule_expected move).1 (schedule_expected move).2) applied.

(** [t.plan.autoPlan]. *)
Record AutoPlanWords := mkAutoPlanWords {
  auto_workingDays : Z → string;
  auto_after : string → string;
  auto_placedFrom : string → string → string → string;
  auto_movesFrom : string → string → string → string → string;
  auto_issues : Z → string;
  auto_wouldMove : string → string;
  auto_wouldPlace : string → string;
  auto_nothingPlaceable : string;
  auto_alreadyAligned : string;
  auto_summary : list string → string;
  auto_undoChanged : string → string;
  auto_undoFailed : string;
  auto_followMessage : string → string → bool → string;
  auto_followAction : string → string;
}.

Definition autoPlan_en : AutoPlanWords := mkAutoPlanWords
  (fun days => plural days "working day" "working days")
  (fun key => ", after " +:+ key)
  (fun to days after => "is placed from " +:+ to +:+ ", " +:+ days +:+ after)
  (fun from to days after => "moves from " +:+ from +:+ " to " +:+ to +:+ ", " +:+ days +:+ after)
  (fun count => plural count "issue" "issues")
  (fun issues => issues +:+ " would move to start after the issues blocking them")
  (fun issues => issues +:+ " without dates would be placed")
  "Nothing can be placed or needs to move."
  "Every issue already starts after the issues blocking it."
  (fun parts => capitalised (join ", and " parts +:+ ". Nothing is saved until you apply."))
  (fun key => key +:+ " was changed after the auto plan, so nothing was undone. Move it back by hand or run auto plan again.")
  "The auto plan could not be undone. Try again."
  (fun issues key one => issues +:+ " that " +:+ key +:+ " blocks now " +:+ (if one : bool then "starts" else "start") +:+ " before it ends.")
  (fun issues => "Move the " +:+ issues +:+ " it blocks").

Section AutoPlan.
Context (words : AutoPlanWords) (formatDay : string → string).

Definition describeMove (move : PlanMove) : string :=
  let days := auto_workingDays words (move_workingDays move) in
  let to := formatDay (dayOf (span_startDate (move_to move))) in
  let after := if truthy (move_after move) then auto_after words (move_after move) else EmptyString in
  match move_from move with
  | None => auto_placedFrom words to days after
  | Some from => auto_movesFrom words (formatDay (dayOf (span_startDate from))) to days after
  end.

Definition summarise (a : Alignment) : string :=
  let placed := Z.of_nat (length (filter (fun m => move_from m = None) (alignment_moves a))) in
  let moved := Z.of_nat (length (alignment_moves a)) - placed in
  let parts :=
    (if 0 <? moved then [auto_wouldMove words (auto_issues words moved)] else []) ++
    (if 0 <? placed then [auto_wouldPlace words (auto_issues words placed)] else []) in
  let parts := filter (fun s => truthy s = true) parts in
  match parts with
  | [] => if nonempty (alignment_unplaced a) then auto_nothingPlaceable words else auto_alreadyAligned words
  | _ => auto_summary words parts
  end.

(** What was thrown: an answer of the server with a code and fields, an error
    with a message, or anything else. *)
Inductive Thrown :=
  | ApiErrorThrown (code message : string) (fields : list (string * string))
  | ErrorThrown (message : string)
  | OtherThrown.

Definition undoRefusal (error : Thrown) : string :=
  let key := match error with
    | ApiErrorThrown code _ fields => if decide (code = "moved_since"%string) then jget fields "issueKey"%string else None
    | _ => None
    end in
  match key with
  | Some k => if truthy k then auto_undoChanged words k
              else match error with ApiErrorThrown _ m _ | ErrorThrown m => m | OtherThrown => auto_undoFailed words end
  | None => match error with ApiErrorThrown _ m _ | ErrorThrown m => m | OtherThrown => auto_undoFailed words end
  end.

Definition followOffer (key : string) (moves : Z) : option (string * string) :=
  if moves =? 0 then None
  else
    let issues := auto_issues words moves in
    Some (auto_followMessage words issues key (moves =? 1), auto_followAction words issues).
End AutoPlan.

(** ** Dropping an issue on another: [reparent.ts] *)

Inductive DropTarget := drop_row (item : PlanItem) | drop_top.

Inductive Decision :=
  | decide_into (parentKey : string)
  | decide_beside (parentKey : option string)
  | decide_top
  | decide_refused (why : string).

(** [t.plan.reparent]. *)
Record ReparentWords := mkReparentWords {
  reparent_needsParent : string → string;
  reparent_ownParent : string;
  reparent_underItself : string;
  reparent_wrongParent : string → string → string → string;
}.

Definition rowAt (rows : list Row) (y : Q) : option DropTarget :=
  if negb (Qle_bool 0 y) then Some drop_top
  else match rows !! Z.to_nat (Qfloor (y / inject_Z PLAN_ROW_HEIGHT)) with
  | Some (IssueRow _ item _ _) => Some (drop_row item)
  | _ => None
  end.

(** [decide] of the file; the name is the library's here. *)
Definition decide_drop (words : ReparentWords) (dragged : PlanItem) (target : DropTarget) : Decision :=
  let type := issue_type (item_issue dragged) in
  match target with
  | drop_top =>
      if type_level type <? LEVEL_STANDARD then decide_refused (reparent_needsParent words (type_name type))
      else decide_top
  | drop_row held_over =>
      let other := item_issue held_over in
      if decide (issue_key other = issue_key (item_issue dragged)) then decide_refused (reparent_ownParent words)
      else if existsb (fun child => bool_decide (issue_key (item_issue child) = issue_key other))
                (flatten (item_children dragged))
      then decide_refused (reparent_underItself words)
      else if type_level (issue_type other) =? type_level type + 1 then decide_into (issue_key other)
      else if type_level (issue_type other) =? type_level type then
        if negb (given (issue_parentKey other)) && (type_level type <? LEVEL_STANDARD)
        then decide_refused (reparent_needsParent words (type_name type))
        else decide_beside (issue_parentKey other)
      else decide_refused (reparent_wrongParent words (issue_key other) (type_name (issue_type other)) (type_name type))
  end.

(** ** Warnings: [warnings.ts] *)

Inductive Severity := warning | error.
#[export] Instance Severity_eq : EqDecision Severity.
Proof. solve_decision. Defined.

Definition ERRORS : list WarningKind := [blocked_too_early; outside_parent; past_milestone].

Definition severityOf (kind : WarningKind) : Severity :=
  if bool_decide (kind ∈ ERRORS) then error else warning.

Definition worstOf (warnings : list PlanWarning) : option Severity :=
  match warnings with
  | [] => None
  | _ => Some (if existsb (fun w => bool_decide (severityOf (warning_kind w) = error)) warnings then error else warning)
  end.

Definition newline : string := String (unit_of 10) EmptyString.
Definition wordsOf (warnings : list PlanWarning) : string := join newline (map warning_message warnings).

(** ** Making an issue by dragging: [create.ts] *)

Record Placement := mkPlacement { placement_sprintId : option string; placement_teamId : option string }.

Definition dragRange (s : Scale) (anchorX x : Q) : Z * Z :=
  let a := dateAt s (Qmin anchorX x) in
  let b := dateAt s (Qmax anchorX x) in
  let start := day a in
  let due := if daysBetween start (day b) <? 0 then start else day b in
  (start, if due <? start then start else due).

Definition isRealDrag (anchorX x min : Q) : bool := Qle_bool min (Qabs (x - anchorX)).

Definition draftBox (s : Scale) (start due : Z) (canvasWidth : Q) : Q * Q :=
  let min := inject_Z PLAN_DRAFT_INPUT_MIN_PX in
  let width := Qmax min (spanWidth s start due) in
  let left := Qmax 0 (Qmin (x_at s start) (Qmax 0 (canvasWidth - width))) in
  (left, Qmin width (Qmax min canvasWidth)).

Definition placementFor (row : option GroupRow) : Placement :=
  match row with
  | Some g =>
      match group_sprint g with
      | Some p => mkPlacement (Some (sprint_id (plan_sprint p))) (sprint_teamId (plan_sprint p))
      | None => mkPlacement None None
      end
  | None => mkPlacement None None
  end.

Definition defaultRange (today spanDays : Z) : Z * Z := let start := day today in (start, addDays start spanDays).

(** ** Milestones on the calendar: [markers.ts] *)

Record Marker := mkMarker { marker_milestone : Milestone; marker_x : option Q }.

Definition marker_for (s : Scale) (m : Milestone) : option Marker :=
  match said (milestone_dueOn m) with
  | None => None
  | Some due =>
      let x := x_at s <$> parse_date due in
      if off_calendar s x then None else Some (mkMarker m x)
  end.

(** A difference that is no number counts as none. *)
Definition marker_order (a b : Marker) : Z :=
  match marker_x a, marker_x b with Some x, Some y => q_sub x y | _, _ => 0 end.

Definition markersFor (s : Scale) (milestones : list Milestone) : list Marker :=
  sort_by marker_order (omap (marker_for s) milestones).

(** ** The header above the rows: [layout.ts] *)

Record HeaderLayout := mkHeaderLayout {
  layout_header : Z; layout_sprintBand : Z; layout_milestoneBand : Z; layout_total : Z;
}.

Definition headerLayout (sprints milestones : bool) : HeaderLayout :=
  let header := 2 * PLAN_HEADER_ROW_HEIGHT in
  let sprintBand := if sprints then PLAN_SPRINT_BAND_HEIGHT else 0 in
  let milestoneBand := if milestones then PLAN_MILESTONE_BAND_HEIGHT else 0 in
  mkHeaderLayout header sprintBand milestoneBand (header + sprintBand + milestoneBand).

Inductive FlagSide := flag_right | flag_left.

Definition flagSide (x calendarWidth : Q) : FlagSide :=
  if Qle_bool (x + inject_Z PLAN_MILESTONE_FLAG_WIDTH) calendarWidth then flag_right else flag_left.

Definition labelledFlags (xs : list Q) : list bool :=
  imap (fun i x => match xs !! S i with
                   | None => true
                   | Some next => Qle_bool (inject_Z PLAN_MILESTONE_FLAG_WIDTH) (next - x)
                   end) xs.

(** ** How long done work stays: [settings.ts] *)

Definition EVERYTHING : string := "all".

(** What the browser's storage holds under the key; [None] when nothing is
    there or it cannot be read. *)
Definition readClosedForDays (stored : option string) : option Z :=
  match stored with
  | Some value =>
      if decide (value = EVERYTHING) then None
      else if truthy value && string_forall is_digit value then Some (digits_value 0 value)
      else Some PLAN_DEFAULT_CLOSED_FOR_DAYS
  | None => Some PLAN_DEFAULT_CLOSED_FOR_DAYS
  end.

Definition writeClosedForDays (days : option Q) : string :=
  match days with
  | None => EVERYTHING
  | Some d => stringOfInt (Z.max 0 (Qfloor d))
  end.
