(* ===== verification/PlanPiecesFacts.v ===== *)
(** What the smaller parts of the plan page keep: an undo that restores, drops
    that make no circle, ranges that run forwards, boxes and labels that stay on
    the canvas, settings that are read back as they were written. *)

From Stdlib Require Import ZArith QArith Qround Qminmax Qabs Lia Lqa Ascii String.
From stdpp Require Import base sets list strings sorting.
From S2P Require Import Prelude JsString JsDate Config Api ApiPlan Scale ScaleFacts Views ViewsFacts PlanPieces.

Open Scope Z_scope.

(** ** Undoing an auto plan *)

(** The dates of the issues, by key. *)
Definition Schedule := list (string * (option string * option string)).

(** What the server promises of a set of moves: each is made only on the dates
    it expects, and all are made or none. *)
Definition apply_move (m : ScheduleMoveInput) (s : Schedule) : option Schedule :=
  if decide (jget s (schedule_key m) = Some (schedule_expected m))
  then Some (jset s (schedule_key m) (schedule_startDate m, schedule_dueDate m)) else None.

Fixpoint apply_moves (ms : list ScheduleMoveInput) (s : Schedule) : option Schedule :=
  match ms with
  | [] => Some s
  | m :: ms' => s' ← apply_move m s; apply_moves ms' s'
  end.

Lemma jset_same {V} (m : list (string * V)) k v : jget m k = Some v → jset m k v = m.
Proof.
  induction m as [|[a b] m IH]; simpl; [done|]. case_decide as E; [by intros [= ->]|]. intros H. by rewrite IH.
Qed.

Lemma jset_jset {V} (m : list (string * V)) k v w : jset (jset m k v) k w = jset m k w.
Proof.
  induction m as [|[a b] m IH]; simpl; [by rewrite decide_True|].
  case_decide as E; simpl; [by rewrite decide_True|]. rewrite decide_False by done. by rewrite IH.
Qed.

Lemma jset_comm {V} (m : list (string * V)) k k' v v' :
  k ≠ k' → is_Some (jget m k) → is_Some (jget m k') → jset (jset m k v) k' v' = jset (jset m k' v') k v.
Proof.
  intros Hne. induction m as [|[a b] m IH]; simpl; [by intros [? [=]]|]. intros Hk Hk'.
  repeat case_decide; simplify_eq/=; repeat case_decide; simplify_eq/=; try done. by rewrite IH.
Qed.

Lemma apply_moves_get ms s s' k :
  apply_moves ms s = Some s' → k ∉ map schedule_key ms → jget s' k = jget s k.
Proof.
  revert s. induction ms as [|m ms IH]; intros s; simpl; [by intros [= ->]|].
  rewrite not_elem_of_cons. unfold apply_move. case_decide; simpl; [|done].
  intros H' [Hk Hks]. rewrite (IH _ H' Hks). by apply jget_jset_ne.
Qed.

(** A move of one key passes over moves of others. *)
Lemma apply_moves_jset ms s s' k v :
  apply_moves ms s = Some s' → k ∉ map schedule_key ms → is_Some (jget s k) →
  apply_moves ms (jset s k v) = Some (jset s' k v).
Proof.
  revert s. induction ms as [|m ms IH]; intros s; simpl; [by intros [= ->]|].
  rewrite not_elem_of_cons. unfold apply_move. intros Hs [Hk Hks] Hsome.
  rewrite jget_jset_ne by done. case_decide as E; simpl in *; [|done].
  rewrite (jset_comm s k) by (rewrite ?E; eauto). apply IH; [done|done|]. by rewrite jget_jset_ne.
Qed.

(** Undoing an auto plan puts everything back: after the moves were made, and
    while nothing else has changed, the moves back are accepted and leave every
    issue with the dates it had. *)
Theorem movesBack_restores moves before after :
  NoDup (map schedule_key moves) →
  apply_moves moves before = Some after →
  apply_moves (movesBack moves) after = Some before.
Proof.
  revert before after. induction moves as [|m moves IH]; intros before after; simpl.
  { by intros _ [= ->]. }
  rewrite NoDup_cons. intros [Hm HND]. unfold apply_move at 1. case_decide as E; simpl; [|done]. intros Happ.
  assert (jget after (schedule_key m) = Some (schedule_startDate m, schedule_dueDate m)) as Hget.
  { rewrite (apply_moves_get _ _ _ _ Happ Hm). apply jget_jset_eq. }
  pose proof (IH _ _ HND Happ) as Hback.
  unfold apply_move. cbn [schedule_key schedule_expected schedule_startDate schedule_dueDate].
  rewrite decide_True by done. simpl. rewrite <- surjective_pairing.
  assert (schedule_key m ∉ map schedule_key (movesBack moves)) as Hm'.
  { unfold movesBack. rewrite map_map. done. }
  rewrite (apply_moves_jset _ _ _ _ (schedule_expected m) Hback Hm' ltac:(rewrite Hget; eauto)).
  f_equal. rewrite jset_jset. by apply jset_same.
Qed.

Definition one_move : ScheduleMoveInput :=
  mkScheduleMoveInput "PR-1" (Some "2024-01-01", Some "2024-01-05")%string (Some "2024-01-08"%string) (Some "2024-01-12"%string).

Lemma movesBack_restores_witness :
  apply_moves (movesBack [one_move]) [("PR-1", (Some "2024-01-08", Some "2024-01-12")); ("PR-2", (None, None))]%string =
  Some [("PR-1", (Some "2024-01-01", Some "2024-01-05")); ("PR-2", (None, None))]%string.
Proof.
  apply movesBack_restores; [|reflexivity]. apply (bool_decide_unpack _). vm_compute. exact I.
Defined.

(** ** Dropping an issue *)

(** What a decision may do: the parent it names is one level up and neither the
    issue nor anything beneath it; the neighbour whose parent it takes is on its
    own level. *)
Definition allowed (dragged : PlanItem) (target : DropTarget) (d : Decision) : Prop :=
  let level i := type_level (issue_type (item_issue i)) in
  let beneath k := k ∈ map (fun i => issue_key (item_issue i)) (flatten_item dragged) in
  match d, target with
  | decide_into k, drop_row o => k = issue_key (item_issue o) ∧ level o = level dragged + 1 ∧ ¬ beneath k
  | decide_beside p, drop_row o => p = issue_parentKey (item_issue o) ∧ level o = level dragged ∧
      ¬ beneath (issue_key (item_issue o)) ∧ (level dragged < LEVEL_STANDARD → given p = true)
  | decide_top, drop_top => LEVEL_STANDARD <= level dragged
  | decide_refused _, drop_top => level dragged < LEVEL_STANDARD
  | decide_refused _, drop_row o =>
      beneath (issue_key (item_issue o)) ∨ (level o ≠ level dragged + 1 ∧ level o ≠ level dragged) ∨
      (level o = level dragged ∧ given (issue_parentKey (item_issue o)) = false ∧ level dragged < LEVEL_STANDARD)
  | _, _ => False
  end.

Lemma drop_allowed words dragged target :
  allowed dragged target (decide_drop words dragged target).
Proof.
  unfold decide_drop. destruct target as [o|]; cbv zeta; [|destruct (Z.ltb_spec (type_level (issue_type (item_issue dragged))) LEVEL_STANDARD); simpl; lia].
  assert (map (fun i => issue_key (item_issue i)) (flatten_item dragged) =
    issue_key (item_issue dragged) :: map (fun i => issue_key (item_issue i)) (flatten (item_children dragged))) as Hf by (by destruct dragged).
  case_decide as E1; [left; rewrite Hf, E1; by left|].
  destruct (existsb _ _) eqn:E2.
  { left. rewrite Hf. right. apply existsb_exists in E2 as (c & Hc & Hk%bool_decide_eq_true).
    rewrite <- Hk. apply list_elem_of_In in Hc. by apply (list_elem_of_fmap_2 (fun i => issue_key (item_issue i))). }
  assert (issue_key (item_issue o) ∉ map (fun i => issue_key (item_issue i)) (flatten_item dragged)) as Hnot.
  { rewrite Hf. intros [?|Hin]%elem_of_cons; [done|]. apply not_true_iff_false in E2. apply E2.
    apply list_elem_of_fmap in Hin as (c & Hk & Hc). apply existsb_exists. exists c. rewrite <- list_elem_of_In.
    split; [done|]. by apply bool_decide_eq_true. }
  destruct (Z.eqb_spec (type_level (issue_type (item_issue o))) (type_level (issue_type (item_issue dragged)) + 1)); [done|].
  destruct (Z.eqb_spec (type_level (issue_type (item_issue o))) (type_level (issue_type (item_issue dragged)))).
  - destruct (given _) eqn:E5; cbn [negb andb]; [by simpl|].
    destruct (Z.ltb_spec (type_level (issue_type (item_issue dragged))) LEVEL_STANDARD).
    + right. right. by split_and!.
    + simpl. split_and!; try done. lia.
  - right. left. done.
Qed.

(** C37: a drop is made exactly when it is allowed: it never puts an issue beneath
    itself, never under a parent that is not one level up, and never leaves a
    subtask without a parent. *)
Theorem decide_drop_allowed words dragged target :
  allowed dragged target (decide_drop words dragged target).
Proof. apply drop_allowed. Qed.

(** ** Drags and boxes *)

Lemma js_round_mono x y : (x <= y)%Q → js_round x <= js_round y.
Proof. intros H. unfold js_round. apply Qfloor_resp_le. lra. Qed.

Lemma dateAt_mono s x y : (0 < sc_pxPerDay s)%Q → (x <= y)%Q → dateAt s x <= dateAt s y.
Proof.
  intros Hpx H. unfold dateAt, addDays. assert (js_round (x / sc_pxPerDay s) <= js_round (y / sc_pxPerDay s)) as Hr.
  { apply js_round_mono. unfold Qdiv. apply Qmult_le_compat_r; [done|]. apply Qlt_le_weak. by apply Qinv_lt_0_compat. }
  unfold MS_PER_DAY. lia.
Qed.

Lemma day_of_midnight t : MODERN <= t → midnight_at t → day t = t.
Proof. intros Ht Hm. rewrite (day_modern t Ht). symmetry. exact Hm. Qed.

Lemma dateAt_ext s p q : (p == q)%Q → dateAt s p = dateAt s q.
Proof. intros E. unfold dateAt. f_equal. apply js_round_proper. by rewrite E. Qed.

Lemma dateAt_midnight s p : MODERN <= sc_from s → midnight_at (sc_from s) → midnight_at (dateAt s p).
Proof. intros Hf Hm. unfold midnight_at. rewrite dateAt_number by done. by rewrite day_number_mult. Qed.

Lemma drag_between a b :
  MODERN <= a → a <= b → midnight_at a → midnight_at b →
  let start := day a in
  let due := if daysBetween start (day b) <? 0 then start else day b in
  (start, if due <? start then start else due) = (a, b).
Proof.
  intros Ha Hab Hma Hmb. rewrite (day_of_midnight a Ha Hma), (day_of_midnight b ltac:(lia) Hmb).
  cbv zeta. rewrite daysBetween_modern by lia. unfold midnight_at in *.
  destruct (Z.ltb_spec (day_number b - day_number a) 0); [unfold MS_PER_DAY in *; lia|].
  destruct (Z.ltb_spec b a); [lia|]. reflexivity.
Qed.

Lemma dragRange_between s a b :
  (0 < sc_pxPerDay s)%Q → MODERN <= sc_from s → midnight_at (sc_from s) → MODERN <= dateAt s (Qmin a b) →
  dragRange s a b = (dateAt s (Qmin a b), dateAt s (Qmax a b)) ∧ dateAt s (Qmin a b) <= dateAt s (Qmax a b).
Proof.
  intros Hpx Hf Hm Hmin.
  assert (dateAt s (Qmin a b) <= dateAt s (Qmax a b)) as Hle.
  { apply dateAt_mono; [done|]. eapply Qle_trans; [apply Q.le_min_l|apply Q.le_max_l]. }
  split; [|exact Hle]. unfold dragRange. apply drag_between; [exact Hmin|exact Hle|..]; by apply dateAt_midnight.
Qed.

(** A drag over the empty calendar covers the days from the one under its
    left end to the one under its right end, whichever way it went. *)
Theorem dragRange_covers s anchorX x :
  (0 < sc_pxPerDay s)%Q → MODERN <= sc_from s → midnight_at (sc_from s) → MODERN <= dateAt s (Qmin anchorX x) →
  dragRange s anchorX x = (dateAt s (Qmin anchorX x), dateAt s (Qmax anchorX x)) ∧
  dragRange s x anchorX = dragRange s anchorX x ∧
  dateAt s (Qmin anchorX x) <= dateAt s (Qmax anchorX x).
Proof.
  intros Hpx Hf Hm Hmin. destruct (dragRange_between s anchorX x Hpx Hf Hm Hmin) as [E Hle].
  pose proof (dateAt_ext s _ _ (Q.min_comm x anchorX)) as Ec1. pose proof (dateAt_ext s _ _ (Q.max_comm x anchorX)) as Ec2.
  destruct (dragRange_between s x anchorX Hpx Hf Hm) as [E' _]; [rewrite Ec1; exact Hmin|].
  rewrite E, E', Ec1, Ec2. split; [reflexivity|]. split; [reflexivity|exact Hle].
Qed.

Definition february : Scale := makeScale 1707523200000 1712275200000 7.

Lemma dragRange_covers_witness : dragRange february 30 100 = dragRange february 100 30.
Proof.
  apply (dragRange_covers february 100 30).
  - reflexivity.
  - vm_compute. discriminate.
  - vm_compute. reflexivity.
  - vm_compute. discriminate.
Defined.

(** The box for a new issue's summary is wide enough to type in and stays on
    the canvas, so long as the canvas can hold it at all. *)
Theorem draftBox_on_canvas s start due canvasWidth :
  let '(x, width) := draftBox s start due canvasWidth in
  let min := inject_Z PLAN_DRAFT_INPUT_MIN_PX in
  (0 <= x)%Q ∧ (min <= width)%Q ∧ ((min <= canvasWidth)%Q → (x + width <= canvasWidth)%Q).
Proof.
  unfold draftBox. cbv zeta. set (min := inject_Z PLAN_DRAFT_INPUT_MIN_PX).
  assert (0 < min)%Q as Hmin by reflexivity.
  set (w := Qmax min (spanWidth s start due)). assert (min <= w)%Q by apply Q.le_max_l.
  split; [apply Q.le_max_l|split].
  - apply Q.min_glb; [done|apply Q.le_max_l].
  - intros Hc. set (room := Qmax 0 (canvasWidth - w)).
    assert (Qmax 0 (Qmin (x_at s start) room) <= room)%Q as Hleft.
    { apply Q.max_lub; [apply Q.le_max_l|apply Q.le_min_r]. }
    assert (Qmax min canvasWidth == canvasWidth)%Q as Hcw by (by apply Q.max_r).
    destruct (Qlt_le_dec canvasWidth w).
    + assert (room == 0)%Q as Hr by (apply Q.max_l; lra). rewrite Hr in Hleft at 2.
      assert (Qmin w (Qmax min canvasWidth) <= canvasWidth)%Q by (rewrite <- Hcw at 2; apply Q.le_min_r). lra.
    + assert (room == canvasWidth - w)%Q as Hr by (apply Q.max_r; lra). rewrite Hr in Hleft at 2.
      assert (Qmin w (Qmax min canvasWidth) <= w)%Q by apply Q.le_min_l. lra.
Qed.

(** ** Flags *)

(** No label is drawn where another flag stands: with the flags in the order
    of their days, one that keeps its words has its own width free of every
    later flag, and the last always keeps them. *)
Theorem labelledFlags_apart xs i x :
  StronglySorted Qle xs → xs !! i = Some x →
  labelledFlags xs !! i = Some true →
  ∀ j y, (i < j)%nat → xs !! j = Some y → (x + inject_Z PLAN_MILESTONE_FLAG_WIDTH <= y)%Q.
Proof.
  intros Hs Hi. unfold labelledFlags. rewrite list_lookup_imap, Hi. cbn [fmap option_fmap option_map].
  intros [= Hl] j y Hij Hj.
  assert (is_Some (xs !! S i)) as [next Hn].
  { apply lookup_lt_is_Some. apply lookup_lt_Some in Hj. lia. }
  rewrite Hn in Hl. apply Qle_bool_iff in Hl.
  assert (next <= y)%Q; [|lra]. destruct (decide (j = S i)) as [->|].
  - rewrite Hn in Hj. injection Hj as ->. apply Qle_refl.
  - clear Hl Hi. revert i j Hij Hj Hn n. induction Hs as [|a l Hs IH Hall]; intros i j Hij Hj Hn Hne; [done|].
    destruct j as [|j]; [lia|]. simpl in *. destruct i as [|i]; simpl in *.
    + destruct l as [|b l]; [done|]. simpl in Hn. injection Hn as ->.
      destruct j as [|j]; [lia|]. simpl in Hj. apply StronglySorted_inv in Hs as [_ Hb].
      rewrite Forall_forall in Hb. apply Hb. by eapply list_elem_of_lookup_2.
    + apply (IH i j); [lia|done|done|lia].
Qed.

Lemma labelledFlags_apart_witness : (10 + 160 <= 300)%Q.
Proof.
  apply (labelledFlags_apart [10; 300; 320]%Q 0 10 ltac:(repeat constructor; discriminate) eq_refl eq_refl 1 300); [lia|reflexivity].
Defined.

(** ** Settings *)

Lemma digits_span_forall s : truthy s = true → s ≠ EmptyString.
Proof. unfold truthy. by destruct s. Qed.

(** The number of days a reader sets is the number that is read back, cut to
    a whole number that is not negative; and so is "everything". *)
Theorem closedForDays_roundtrip days :
  readClosedForDays (Some (writeClosedForDays days)) = (fun d => Z.max 0 (Qfloor d)) <$> days.
Proof.
  unfold readClosedForDays, writeClosedForDays. destruct days as [d|]; [|done]. simpl.
  set (n := Z.max 0 (Qfloor d)). assert (0 <= n) as Hn by lia. unfold stringOfInt.
  destruct (Z.ltb_spec n 0); [lia|].
  pose proof (digits_all n Hn) as Hall. pose proof (digits_nonempty n Hn) as Hne.
  rewrite decide_False by (intros E; rewrite E in Hall; done).
  unfold truthy. rewrite bool_decide_false, Hall by done. simpl. by rewrite digits_value_digits.
Qed.
