(* ===== verification/DashFilter.v ===== *)
(** A dashboard's filter: [web/src/features/dashboard/filter.ts].

    The filter, the query it becomes, and how it travels in the address; with
    the quoted literals of the search language as the server reads them
    ([backend/internal/nql/lexer.go]). *)

From Stdlib Require Import ZArith QArith Qround Lia Ascii String.
From stdpp Require Import base list strings.
From S2P Require Import Prelude JsString Api.

Open Scope Z_scope.

(** ** Data *)

(** The empty category is [None]. *)
Definition Category := option StatusCategory.

Inductive DateField := created | updated | resolved.
#[export] Instance DateField_eq : EqDecision DateField.
Proof. solve_decision. Defined.

Record FilterSpec := mkFilterSpec {
  spec_types : list string;
  spec_team : string;
  spec_assignee : string;
  spec_category : Category;
  spec_field : DateField;
  spec_days : Z;
  spec_milestone : string;
  spec_query : string;
  spec_filterId : string;
}.

Definition FILTER_TEXT_KEYS : list string :=
  ["types"; "team"; "assignee"; "category"; "field"; "milestone"; "fq"; "sf"]%string.

Definition UNASSIGNED : string := "-".

Definition EMPTY_FILTER : FilterSpec :=
  mkFilterSpec [] EmptyString EmptyString None created 0 EmptyString EmptyString EmptyString.

Definition category_text (c : Category) : string :=
  match c with
  | None => EmptyString
  | Some todo => "todo"
  | Some in_progress => "in_progress"
  | Some done_ => "done"
  end.

Definition field_text (f : DateField) : string :=
  match f with created => "created" | updated => "updated" | resolved => "resolved" end.

Definition CATEGORIES : list Category := [None; Some todo; Some in_progress; Some done_].
Definition FIELDS : list DateField := [created; updated; resolved].

(** ** Query literals *)

Definition backslash : ascii := "\"%char.
Definition dquote : ascii := ascii_of_nat 34.

(** Every occurrence of a unit replaced by itself with a backslash before it. *)
Fixpoint escape_unit (c : ascii) (s : string) : string :=
  match s with
  | EmptyString => EmptyString
  | String d s' => if decide (d = c) then String backslash (String d (escape_unit c s')) else String d (escape_unit c s')
  end.

Definition quote (text : string) : string :=
  String dquote (escape_unit dquote (escape_unit backslash text) +:+ String dquote EmptyString).

(** The server's reading of a literal, after the quote that opens it: the text
    up to the next quote that no backslash stands before, and what follows. *)
Fixpoint scan_quoted (r : ascii) (s : string) : option (string * string) :=
  match s with
  | EmptyString => None
  | String c s' =>
      match decide (c = backslash), s' with
      | left _, String d s'' => '(b, rest) ← scan_quoted r s''; Some (String d b, rest)
      | _, _ =>
          if decide (c = r) then Some (EmptyString, s')
          else '(b, rest) ← scan_quoted r s'; Some (String c b, rest)
      end
  end.

(** ** The query a filter becomes *)

Definition literals (names : list string) : string := join ", " (map quote names).

Definition type_part (types : list string) : list string :=
  match types with
  | [] => []
  | [type] => ["type = " +:+ quote type]
  | _ => ["type IN (" +:+ literals types +:+ ")"]
  end.

Definition assignee_part (assignee : string) : list string :=
  if decide (assignee = UNASSIGNED) then ["assignee IS EMPTY"%string]
  else if truthy assignee then ["assignee = " +:+ quote assignee] else [].

Definition when (b : bool) (part : string) : list string := if b then [part] else [].

Definition composeQuery (spec : FilterSpec) (savedQuery : string → option string) : string :=
  let fromSaved := if truthy (spec_filterId spec) then trim <$> savedQuery (spec_filterId spec) else None in
  let parts :=
    match fromSaved with Some q => when (truthy q) ("(" +:+ q +:+ ")") | None => [] end ++
    type_part (spec_types spec) ++
    when (truthy (spec_team spec)) ("team = " +:+ quote (spec_team spec)) ++
    assignee_part (spec_assignee spec) ++
    match spec_category spec with Some c => ["statusCategory = " +:+ category_text (Some c)] | None => [] end ++
    when (0 <? spec_days spec) (field_text (spec_field spec) +:+ " >= -" +:+ stringOfInt (spec_days spec) +:+ "d") ++
    when (truthy (spec_milestone spec)) ("milestone = " +:+ quote (spec_milestone spec)) in
  let extra := trim (spec_query spec) in
  join " AND " (parts ++ when (truthy extra) (match parts with [] => extra | _ => "(" +:+ extra +:+ ")" end)).

(** ** How much of it is set *)

Definition activeCount (spec : FilterSpec) : Z :=
  Z.of_nat (length (filter (fun b => b = true)
    [negb (bool_decide (spec_types spec = [])); truthy (spec_team spec); truthy (spec_assignee spec);
     negb (bool_decide (spec_category spec = None)); 0 <? spec_days spec; truthy (spec_milestone spec);
     truthy (trim (spec_query spec)); truthy (spec_filterId spec)])).

Definition isEmpty (spec : FilterSpec) : bool := activeCount spec =? 0.

(** ** In the address *)

(** [Number(value)] of what came in the address. *)
Definition json_number (j : Json) : option Q :=
  match j with
  | JNull => Some 0%Q
  | JBool b => Some (if b then 1%Q else 0%Q)
  | JNumber n => Some (inject_Z n)
  | JString s => numberOf s
  | JArray _ | JObject _ => numberOf (json_string j)
  end.

Definition text_of (search : list (string * Json)) (key : string) : option string :=
  match jget search key with Some (JString s) => Some s | _ => None end.

(** [text.split(",").filter(Boolean)]. *)
Definition split_list (s : string) : list string := filter (fun w => truthy w = true) (split ","%char s).

Definition parseSearch (search : list (string * Json)) (fallback : FilterSpec) : FilterSpec :=
  let text := text_of search in
  let category := text "category"%string in
  let field := text "field"%string in
  (* absent, it is not a number *)
  let days := match jget search "days"%string with Some j => json_number j | None => None end in
  let touched := jhas search "days"%string ||
    existsb (fun key => bool_decide (is_Some (text key))) FILTER_TEXT_KEYS in
  if negb touched then fallback
  else mkFilterSpec
    (match text "types"%string with Some s => if truthy s then split_list s else [] | None => [] end)
    (default EmptyString (text "team"%string))
    (default EmptyString (text "assignee"%string))
    (default None (head (filter (fun c => Some (category_text c) = category) CATEGORIES)))
    (default created (head (filter (fun f => Some (field_text f) = field) FIELDS)))
    (match days with Some d => if negb (Qle_bool d 0) then Qfloor d else 0 | None => 0 end)
    (default EmptyString (text "milestone"%string))
    (default EmptyString (text "fq"%string))
    (default EmptyString (text "sf"%string)).

Record FilterSearch := mkFilterSearch {
  search_types : option string;
  search_team : option string;
  search_assignee : option string;
  search_category : option string;
  search_field : option string;
  search_days : Z;
  search_milestone : option string;
  search_fq : option string;
  search_sf : option string;
}.

Definition toSearch (spec : FilterSpec) : FilterSearch :=
  mkFilterSearch
    (match spec_types spec with [] => None | types => Some (join "," types) end)
    (or_undefined (spec_team spec)) (or_undefined (spec_assignee spec))
    (or_undefined (category_text (spec_category spec)))
    (if (0 <? spec_days spec) && negb (bool_decide (spec_field spec = created)) then Some (field_text (spec_field spec)) else None)
    (spec_days spec) (or_undefined (spec_milestone spec)) (or_undefined (trim (spec_query spec)))
    (or_undefined (spec_filterId spec)).

(** The parameters the router writes: the ones that are not undefined. *)
Definition search_entries (s : FilterSearch) : list (string * Json) :=
  let entry key (v : option string) := match v with Some t => [(key, JString t)] | None => [] end in
  entry "types"%string (search_types s) ++ entry "team"%string (search_team s) ++
  entry "assignee"%string (search_assignee s) ++ entry "category"%string (search_category s) ++
  entry "field"%string (search_field s) ++ [("days"%string, JNumber (search_days s))] ++
  entry "milestone"%string (search_milestone s) ++ entry "fq"%string (search_fq s) ++ entry "sf"%string (search_sf s).

(** ** Literals are read as they were written *)

Lemma scan_escaped text rest :
  scan_quoted dquote (escape_unit dquote (escape_unit backslash text) +:+ String dquote rest) = Some (text, rest).
Proof.
  induction text as [|c text IH]; [done|]. cbn [escape_unit].
  destruct (decide (c = backslash)) as [->|Hb].
  - cbn [escape_unit]. rewrite (decide_False (P := backslash = dquote)) by done.
    cbn [escape_unit]. rewrite (decide_False (P := backslash = dquote)) by done. simpl.
    by rewrite IH.
  - cbn [escape_unit]. destruct (decide (c = dquote)) as [->|Hq].
    + simpl. by rewrite IH.
    + simpl. destruct (decide (c = backslash)); [done|]. rewrite decide_False by done. by rewrite IH.
Qed.

(** Whatever a name holds, quotes and backslashes among it, the server reads
    the literal it becomes as exactly that name, and goes on after it: no name
    can end its literal early or reach into the query around it. *)
Theorem quote_read_back text rest :
  ∃ body, quote text +:+ rest = String dquote body ∧ scan_quoted dquote body = Some (text, rest).
Proof.
  eexists. split; [reflexivity|]. rewrite app_assoc_s. apply scan_escaped.
Qed.

(** ** The address is read as it was written *)

(** What the address keeps of a filter: the query without the spaces around it,
    and the date field only while it is asked about. *)
Definition in_address (spec : FilterSpec) : FilterSpec :=
  mkFilterSpec (spec_types spec) (spec_team spec) (spec_assignee spec) (spec_category spec)
    (if 0 <? spec_days spec then spec_field spec else created) (spec_days spec)
    (spec_milestone spec) (trim (spec_query spec)) (spec_filterId spec).

Definition no_comma (s : string) : bool := string_forall (fun c => negb (bool_decide (c = ","%char))) s.

Lemma split_list_join l :
  l ≠ [] → Forall (fun w => truthy w = true ∧ no_comma w = true) l →
  truthy (join "," l) = true ∧ split_list (join "," l) = l.
Proof.
  intros Hl Hall. split.
  - unfold truthy. rewrite bool_decide_false; [done|]. apply join_nonempty; [done|].
    eapply Forall_impl; [exact Hall|]. intros w [Hw _] ->. done.
  - unfold split_list. change ","%string with (String ","%char EmptyString). rewrite split_join; [|done|].
    + clear Hl. induction Hall as [|w l [Hw _] _ IH]; [done|]. by rewrite filter_cons, decide_True, IH.
    + eapply Forall_impl; [exact Hall|]. by intros w [_ Hw].
Qed.

Lemma default_or_undefined s : default EmptyString (or_undefined s) = s.
Proof. unfold or_undefined, truthy. by case_bool_decide. Qed.

Lemma or_undefined_text (search : list (string * Json)) key o :
  jget search key = JString <$> o → text_of search key = o.
Proof. unfold text_of. intros ->. by destruct o. Qed.

Lemma jget_app {V} (l1 l2 : list (string * V)) key :
  jget (l1 ++ l2) key = match jget l1 key with Some v => Some v | None => jget l2 key end.
Proof. induction l1 as [|[k v] l1 IH]; [done|]. simpl. by case_decide. Qed.

Lemma jget_entry (key k : string) (v : option string) :
  jget (match v with Some t => [(k, JString t)] | None => [] end) key = if decide (k = key) then JString <$> v else None.
Proof. destruct v; simpl; by case_decide. Qed.

Ltac search_key := intros; unfold search_entries; rewrite ?jget_app, ?jget_entry; simpl;
  repeat (rewrite decide_False by discriminate); simpl;
  repeat match goal with |- context [JString <$> ?o] => destruct o; simpl; try done end.

Lemma search_types_get s : jget (search_entries s) "types"%string = JString <$> search_types s.
Proof. search_key. Qed.
Lemma search_team_get s : jget (search_entries s) "team"%string = JString <$> search_team s.
Proof. search_key. Qed.
Lemma search_assignee_get s : jget (search_entries s) "assignee"%string = JString <$> search_assignee s.
Proof. search_key. Qed.
Lemma search_category_get s : jget (search_entries s) "category"%string = JString <$> search_category s.
Proof. search_key. Qed.
Lemma search_field_get s : jget (search_entries s) "field"%string = JString <$> search_field s.
Proof. search_key. Qed.
Lemma search_days_get s : jget (search_entries s) "days"%string = Some (JNumber (search_days s)).
Proof. search_key. rewrite ?decide_True by done. done. Qed.
Lemma search_milestone_get s : jget (search_entries s) "milestone"%string = JString <$> search_milestone s.
Proof. search_key. Qed.
Lemma search_fq_get s : jget (search_entries s) "fq"%string = JString <$> search_fq s.
Proof. search_key. Qed.
Lemma search_sf_get s : jget (search_entries s) "sf"%string = JString <$> search_sf s.
Proof. search_key. Qed.

Lemma filter_read_back spec fallback :
  0 <= spec_days spec →
  Forall (fun w => truthy w = true ∧ no_comma w = true) (spec_types spec) →
  parseSearch (search_entries (toSearch spec)) fallback = in_address spec.
Proof.
  intros Hd Ht. unfold parseSearch.
  assert (jhas (search_entries (toSearch spec)) "days"%string = true) as ->.
  { unfold jhas. apply bool_decide_true. rewrite search_days_get. eauto. }
  cbn [orb negb]. rewrite search_days_get. cbn [json_number].
  rewrite (or_undefined_text _ _ _ (search_types_get _)), (or_undefined_text _ _ _ (search_team_get _)),
    (or_undefined_text _ _ _ (search_assignee_get _)), (or_undefined_text _ _ _ (search_category_get _)),
    (or_undefined_text _ _ _ (search_field_get _)), (or_undefined_text _ _ _ (search_milestone_get _)),
    (or_undefined_text _ _ _ (search_fq_get _)), (or_undefined_text _ _ _ (search_sf_get _)).
  unfold in_address, toSearch. cbn [search_types search_team search_assignee search_category search_field search_days search_milestone search_fq search_sf].
  rewrite !default_or_undefined. f_equal.
  - destruct (spec_types spec) as [|w l] eqn:E; [done|].
    destruct (split_list_join (w :: l)) as [H1 H2]; [done|done|]. by rewrite H1, H2.
  - by destruct (spec_category spec) as [[]|].
  - destruct (0 <? spec_days spec); [|done]. by destruct (spec_field spec).
  - destruct (Qle_bool (inject_Z (spec_days spec)) 0) eqn:E; cbn [negb].
    + apply Qle_bool_iff in E. change 0%Q with (inject_Z 0) in E. rewrite <- Zle_Qle in E. lia.
    + apply Qfloor_Z.
Qed.

(** What the address drops narrows nothing. *)
Lemma in_address_composed spec savedQuery : composeQuery (in_address spec) savedQuery = composeQuery spec savedQuery.
Proof.
  unfold composeQuery, in_address. cbn [spec_types spec_team spec_assignee spec_category spec_field spec_days spec_milestone spec_query spec_filterId].
  rewrite trim_idem. by destruct (0 <? spec_days spec).
Qed.

(** C29: a filter read back from the address is the one that was written there, so
    long as no type's name is empty or holds the comma the names are joined with:
    every field is the same, but for the spaces around the query and for the date
    field of a filter that asks about no days, and neither of the two is in the query the
    widgets are asked with or counts as set. *)
Theorem filter_address_roundtrip spec fallback :
  0 <= spec_days spec →
  Forall (fun w => truthy w = true ∧ no_comma w = true) (spec_types spec) →
  let read := parseSearch (search_entries (toSearch spec)) fallback in
  (spec_types read = spec_types spec ∧ spec_team read = spec_team spec ∧ spec_assignee read = spec_assignee spec ∧
   spec_category read = spec_category spec ∧ spec_days read = spec_days spec ∧ spec_milestone read = spec_milestone spec ∧
   spec_filterId read = spec_filterId spec ∧ spec_query read = trim (spec_query spec) ∧
   (0 < spec_days spec → spec_field read = spec_field spec)) ∧
  (∀ savedQuery, composeQuery read savedQuery = composeQuery spec savedQuery) ∧
  activeCount read = activeCount spec ∧ toSearch read = toSearch spec.
Proof.
  intros Hd Ht. cbv zeta. rewrite filter_read_back by done. split_and!; try done.
  - cbn. intros Hp. by destruct (Z.ltb_spec 0 (spec_days spec)); [|lia].
  - intros savedQuery. apply in_address_composed.
  - unfold activeCount, in_address. cbn [spec_types spec_team spec_assignee spec_category spec_days spec_milestone spec_query spec_filterId]. by rewrite trim_idem.
  - unfold toSearch, in_address. cbn [spec_types spec_team spec_assignee spec_category spec_field spec_days spec_milestone spec_query spec_filterId].
    rewrite trim_idem. by destruct (0 <? spec_days spec).
Qed.

Definition two_types : FilterSpec :=
  mkFilterSpec ["Bug"; "Task"]%string "Core" "-" (Some todo) updated 14 EmptyString " text ~ x " EmptyString.

Lemma filter_address_roundtrip_witness :
  spec_types (parseSearch (search_entries (toSearch two_types)) EMPTY_FILTER) = ["Bug"; "Task"]%string.
Proof. apply (filter_address_roundtrip two_types EMPTY_FILTER); [done|]. repeat constructor. Defined.

(** A type whose name holds a comma comes back as two. *)
Example comma_in_type :
  spec_types (parseSearch (search_entries (toSearch
    (mkFilterSpec ["Bug, minor"%string] EmptyString EmptyString None created 0 EmptyString EmptyString EmptyString))) EMPTY_FILTER) =
  ["Bug"; " minor"]%string.
Proof. vm_compute. reflexivity. Qed.

(** ** When a filter narrows nothing *)

(** The saved search, as the clause it adds. *)
Definition saved_part (spec : FilterSpec) (savedQuery : string → option string) : string :=
  if truthy (spec_filterId spec) then default EmptyString (trim <$> savedQuery (spec_filterId spec)) else EmptyString.

Definition without_saved (spec : FilterSpec) : FilterSpec :=
  mkFilterSpec (spec_types spec) (spec_team spec) (spec_assignee spec) (spec_category spec) (spec_field spec)
    (spec_days spec) (spec_milestone spec) (spec_query spec) EmptyString.

Lemma truthy_false s : truthy s = false ↔ s = EmptyString.
Proof. unfold truthy. by case_bool_decide. Qed.

Lemma when_nil b part : when b part = [] ↔ b = false.
Proof. by destruct b. Qed.

Lemma join_nil sep l : Forall (fun w => w ≠ EmptyString) l → join sep l = EmptyString ↔ l = [].
Proof.
  intros Hl. split; [|by intros ->]. intros Hj. destruct l as [|w l]; [done|].
  exfalso. by apply (join_nonempty sep (w :: l)).
Qed.

Lemma when_nonempty b part : part ≠ EmptyString → Forall (fun w => w ≠ EmptyString) (when b part).
Proof. intros. destruct b; by repeat constructor. Qed.

Lemma extra_nonempty (parts : list string) extra :
  Forall (fun w => w ≠ EmptyString) (when (truthy extra) (match parts with [] => extra | _ => "(" +:+ extra +:+ ")" end)).
Proof.
  destruct (truthy extra) eqn:E; [|constructor]. constructor; [|constructor].
  destruct parts; [|done]. by intros ->.
Qed.

Lemma type_part_nil types : type_part types = [] ↔ types = [].
Proof. by destruct types as [|? []]. Qed.

Lemma assignee_part_nil a : assignee_part a = [] ↔ truthy a = false.
Proof. unfold assignee_part. case_decide; [by subst|]. by destruct (truthy a). Qed.

(** The query is empty exactly when the controls say nothing and the saved
    search, if one is picked, is unknown or blank: no control that counts as set
    is lost on the way to the query, and none that is not set adds a clause. *)
Theorem composeQuery_empty spec savedQuery :
  composeQuery spec savedQuery = EmptyString ↔
  isEmpty (without_saved spec) = true ∧ saved_part spec savedQuery = EmptyString.
Proof.
  unfold composeQuery, isEmpty, activeCount, without_saved, saved_part. cbn [spec_types spec_team spec_assignee spec_category spec_field spec_days spec_milestone spec_query spec_filterId].
  rewrite join_nil.
  2: { repeat apply Forall_app_2; try apply extra_nonempty; try (apply when_nonempty; by destruct (spec_field spec)).
    - destruct (truthy (spec_filterId spec)); [|constructor]. destruct (savedQuery _); simpl; [|constructor]. by apply when_nonempty.
    - destruct (spec_types spec) as [|? []]; by repeat constructor.
    - unfold assignee_part. case_decide; [by repeat constructor|]. destruct (truthy _); by repeat constructor.
    - destruct (spec_category spec); by repeat constructor. }
  rewrite !app_nil, !when_nil, type_part_nil, assignee_part_nil.
  destruct (spec_types spec), (truthy (spec_team spec)), (truthy (spec_assignee spec)), (spec_category spec),
    (0 <? spec_days spec), (truthy (spec_milestone spec)), (truthy (trim (spec_query spec))); 
    (* each control that is set adds one to the count *)
    try (split; [intros; destruct_and!; done|intros [Hc _]; vm_compute in Hc; done]).
  destruct (truthy (spec_filterId spec)); [|naive_solver].
  destruct (savedQuery _) as [q|]; csimpl; [|naive_solver].
  rewrite when_nil, truthy_false. naive_solver.
Qed.
