(* ===== verification/BoardFilter.v ===== *)
(** A board's quick filter: [web/src/features/board/quickFilter.ts].

    Narrowing the cards a board already loaded, what its chips offer, and how it
    travels in the address. *)

From Stdlib Require Import ZArith Lia Ascii String.
From stdpp Require Import base sets list strings.
From S2P Require Import Prelude JsString Api ApiPlan DashFilter.

Open Scope Z_scope.

(** ** Data: [api/boards.ts] *)

Record Card := mkCard {
  card_labels : list LabelRef;
  card_id : string;
  card_key : string;
  card_summary : string;
  card_type : TypeRef;
  card_parent : option ParentRef;
  card_status : Status;
  card_priority : Priority;
  card_assignee : option UserRef;
  card_parentKey : option string;
  card_rank : string;
  card_group : option string;
  card_updatedAt : string;
}.

(** A [mine] that is absent is one that is false. *)
Record QuickFilter := mkQuickFilter {
  qf_mine : bool;
  qf_assignees : list string;
  qf_labels : list string;
  qf_types : list string;
  qf_epics : list string;
  qf_q : option string;
}.

Definition UNASSIGNED : string := "-".

Definition EMPTY_QUICK_FILTER : QuickFilter := mkQuickFilter false [] [] [] [] None.

Definition asks_text (filter : QuickFilter) : string := default EmptyString (trim <$> qf_q filter).

Definition isFiltered (filter : QuickFilter) : bool :=
  qf_mine filter ||
  (0 <? Z.of_nat (length (qf_assignees filter) + length (qf_labels filter) + length (qf_types filter) + length (qf_epics filter))) ||
  truthy (asks_text filter).

(** ** Which cards pass *)

Definition holder (card : Card) : string := from_option user_id UNASSIGNED (card_assignee card).

(** [list.length > 0 && !test]: what a chip that is set turns away. *)
Definition turns_away (chip : list string) (test : bool) : bool := negb (bool_decide (chip = [])) && negb test.

Definition passes (filter : QuickFilter) (meId text : string) (card : Card) : bool :=
  if qf_mine filter && (negb (truthy meId) || negb (bool_decide (holder card = meId))) then false
  else if turns_away (qf_assignees filter) (bool_decide (holder card ∈ qf_assignees filter)) then false
  else if turns_away (qf_labels filter) (existsb (fun label => bool_decide (label_id label ∈ qf_labels filter)) (card_labels card)) then false
  else if turns_away (qf_types filter) (bool_decide (type_name (card_type card) ∈ qf_types filter)) then false
  else if turns_away (qf_epics filter)
    (match card_parent card with Some parent => bool_decide (parentref_key parent ∈ qf_epics filter) | None => false end) then false
  else if truthy text && negb (includes (toLowerCase (card_key card)) text) && negb (includes (toLowerCase (card_summary card)) text) then false
  else true.

Definition filterCards (cards : list Card) (filter : QuickFilter) (meId : string) : list Card :=
  if negb (isFiltered filter) then cards
  else
    let text := toLowerCase (asks_text filter) in
    base.filter (fun card => passes filter meId text card = true) cards.

(** ** What the chips offer *)

Record QuickFilterOptions := mkQuickFilterOptions {
  opt_assignees : list UserRef;
  opt_labels : list LabelRef;
  opt_types : list TypeRef;
  opt_epics : list ParentRef;
}.

(** What the loop over the cards gathers. *)
Record Gathered := mkGathered {
  g_assignees : list (string * UserRef);
  g_labels : list (string * LabelRef);
  g_types : list (string * TypeRef);
  g_epics : list (string * ParentRef);
  g_unassigned : bool;
}.

Definition gather (g : Gathered) (card : Card) : Gathered :=
  mkGathered
    (match card_assignee card with Some u => jset (g_assignees g) (user_id u) u | None => g_assignees g end)
    (foldl (fun labels label => jset labels (label_id label) label) (g_labels g) (card_labels card))
    (jset (g_types g) (type_name (card_type card)) (card_type card))
    (match card_parent card with Some p => jset (g_epics g) (parentref_key p) p | None => g_epics g end)
    (match card_assignee card with Some _ => g_unassigned g | None => true end).

Definition gathered (cards : list Card) : Gathered := foldl gather (mkGathered [] [] [] [] false) cards.

Section Options.
Context `{!Collation}.

Definition optionsFrom (unassigned_word : string) (cards : list Card) : QuickFilterOptions :=
  let g := gathered cards in
  mkQuickFilterOptions
    (sort_by (cmp_on user_name localeCompare) (jvals (g_assignees g)) ++
     (if g_unassigned g then [mkUserRef UNASSIGNED unassigned_word None None] else []))
    (sort_by (cmp_on label_name localeCompare) (jvals (g_labels g)))
    (sort_by (cmp_on type_name localeCompare) (jvals (g_types g)))
    (sort_by (cmp_on parentref_summary localeCompare) (jvals (g_epics g))).
End Options.

(** ** In the address *)

Record QuickFilterSearch := mkQuickFilterSearch {
  qs_mine : bool;
  qs_assignee : option string;
  qs_label : option string;
  qs_type : option string;
  qs_epic : option string;
  qs_q : option string;
}.

Definition list_of (search : list (string * Json)) (key : string) : list string :=
  match jget search key with Some (JString s) => split_list s | _ => [] end.

Definition parseSearch (search : list (string * Json)) : QuickFilter :=
  let q := match jget search "q"%string with
           | Some (JString s) => s
           | Some (JNumber n) => stringOfInt n
           | _ => EmptyString
           end in
  mkQuickFilter
    (match jget search "mine"%string with
     | Some (JBool true) => true
     | Some (JString s) => bool_decide (s = "true"%string)
     | _ => false
     end)
    (list_of search "assignee") (list_of search "label") (list_of search "type") (list_of search "epic")
    (if truthy (trim q) then Some q else None).

Definition joined (values : list string) : option string :=
  match values with [] => None | _ => Some (join "," values) end.

Definition toSearch (filter : QuickFilter) : QuickFilterSearch :=
  mkQuickFilterSearch (qf_mine filter) (joined (qf_assignees filter)) (joined (qf_labels filter))
    (joined (qf_types filter)) (joined (qf_epics filter))
    (if truthy (asks_text filter) then qf_q filter else None).

Definition text_entry (key : string) (value : option string) : list (string * Json) :=
  match value with Some t => [(key, JString t)] | None => [] end.

(** The parameters the router writes: the ones that are not undefined. *)
Definition search_params (s : QuickFilterSearch) : list (string * Json) :=
  (if qs_mine s then [("mine"%string, JBool true)] else []) ++
  text_entry "assignee" (qs_assignee s) ++ text_entry "label" (qs_label s) ++ text_entry "type" (qs_type s) ++
  text_entry "epic" (qs_epic s) ++ text_entry "q" (qs_q s).

(** ** The chips offer what can match *)

(** Values gathered under their own keys. *)
Section OwnKeys.
Context {A : Type} (key : A → string).

Definition set_own (m : list (string * A)) (x : A) : list (string * A) := jset m (key x) x.
Definition own (m : list (string * A)) : Prop := key <$> jvals m = jkeys m.

Lemma own_jset m x : own m → own (jset m (key x) x).
Proof.
  unfold own, jvals, jkeys. induction m as [|[k v] m IH]; csimpl; [done|]. intros [= Hk Hm].
  case_decide; csimpl; [congruence|]. by rewrite Hk, IH.
Qed.

Lemma own_foldl m l : own m → own (foldl set_own m l).
Proof. revert m. induction l as [|x l IH]; intros m Hm; simpl; [done|]. by apply IH, own_jset. Qed.

Lemma jkeys_foldl_own m l k : k ∈ jkeys (foldl set_own m l) ↔ k ∈ jkeys m ∨ k ∈ key <$> l.
Proof.
  revert m. induction l as [|x l IH]; intros m; csimpl; [rewrite elem_of_nil; naive_solver|].
  rewrite IH, elem_of_cons. unfold set_own. rewrite elem_of_jkeys_jset. naive_solver.
Qed.

(** The keys of the values are the keys of what was gathered. *)
Lemma gathered_keys l k : k ∈ key <$> jvals (foldl set_own [] l) ↔ k ∈ key <$> l.
Proof. rewrite (own_foldl [] l eq_refl), jkeys_foldl_own. unfold jkeys. simpl. rewrite elem_of_nil. naive_solver. Qed.
End OwnKeys.

Lemma gathered_fields cards :
  let g := gathered cards in
  g_assignees g = foldl (set_own user_id) [] (omap card_assignee cards) ∧
  g_labels g = foldl (set_own label_id) [] (concat (map card_labels cards)) ∧
  g_types g = foldl (set_own type_name) [] (map card_type cards) ∧
  g_epics g = foldl (set_own parentref_key) [] (omap card_parent cards) ∧
  (g_unassigned g = true ↔ ∃ card, card ∈ cards ∧ card_assignee card = None).
Proof.
  unfold gathered. induction cards as [|card cards IH] using rev_ind; cbv zeta in *.
  - split_and!; try done. simpl. split; [done|]. intros (? & []%elem_of_nil & _).
  - destruct IH as (Ha & Hl & Ht & He & Hu).
    rewrite !foldl_app, !omap_app, !map_app, concat_app, !foldl_app. cbn [foldl map concat]. rewrite app_nil_r, !omap_cons.
    cbn [gather g_assignees g_labels g_types g_epics g_unassigned]. rewrite Ha, Hl, Ht, He. split_and!.
    + by destruct (card_assignee card).
    + done.
    + done.
    + by destruct (card_parent card).
    + destruct (card_assignee card) eqn:E.
      * rewrite Hu. setoid_rewrite elem_of_app. setoid_rewrite list_elem_of_singleton. naive_solver.
      * split; [|done]. intros _. exists card. split; [|done]. apply elem_of_app. right. by apply list_elem_of_singleton.
Qed.

Inductive Chip := chip_assignee | chip_label | chip_type | chip_epic.

(** A filter with one chip set to one value, and the values the chip offers. *)
Definition only (chip : Chip) (value : string) : QuickFilter :=
  match chip with
  | chip_assignee => mkQuickFilter false [value] [] [] [] None
  | chip_label => mkQuickFilter false [] [value] [] [] None
  | chip_type => mkQuickFilter false [] [] [value] [] None
  | chip_epic => mkQuickFilter false [] [] [] [value] None
  end.

Definition offers (options : QuickFilterOptions) (chip : Chip) : list string :=
  match chip with
  | chip_assignee => user_id <$> opt_assignees options
  | chip_label => label_id <$> opt_labels options
  | chip_type => type_name <$> opt_types options
  | chip_epic => parentref_key <$> opt_epics options
  end.

(** The values of a chip a card has. *)
Definition has_value (chip : Chip) (card : Card) (value : string) : Prop :=
  match chip with
  | chip_assignee => holder card = value
  | chip_label => value ∈ label_id <$> card_labels card
  | chip_type => type_name (card_type card) = value
  | chip_epic => parentref_key <$> card_parent card = Some value
  end.

Lemma only_passes chip value meId card : passes (only chip value) meId EmptyString card = true ↔ has_value chip card value.
Proof.
  unfold passes. destruct chip; cbn [only qf_mine qf_assignees qf_labels qf_types qf_epics andb has_value];
    unfold turns_away; rewrite ?(bool_decide_true ([] = [])), ?(bool_decide_false ([_] = [])) by done; cbn [negb andb].
  - case_bool_decide as E; rewrite list_elem_of_singleton in E; simpl; split; congruence || done.
  - destruct (existsb _ _) eqn:E; simpl; (split; [intros H; try done|intros H; try done]).
    + apply existsb_exists in E as (l & Hl & E). apply bool_decide_eq_true, list_elem_of_singleton in E. subst value.
      apply list_elem_of_fmap. exists l. split; [done|]. by apply list_elem_of_In.
    + exfalso. apply not_true_iff_false in E. apply E, existsb_exists. apply list_elem_of_fmap in H as (l & -> & Hl).
      exists l. split; [by apply list_elem_of_In|]. apply bool_decide_true, list_elem_of_singleton. done.
  - case_bool_decide as E; rewrite list_elem_of_singleton in E; simpl; split; congruence || done.
  - destruct (card_parent card) as [p|]; simpl; [|split; done].
    case_bool_decide as E; rewrite list_elem_of_singleton in E; simpl; split; naive_solver.
Qed.

Section OptionFacts.
Context `{!Collation}.

Lemma offered_value word cards chip value :
  value ∈ offers (optionsFrom word cards) chip ↔ ∃ card, card ∈ cards ∧ has_value chip card value.
Proof.
  destruct (gathered_fields cards) as (Ha & Hl & Ht & He & Hu). unfold optionsFrom.
  destruct chip; cbn [offers opt_assignees opt_labels opt_types opt_epics has_value].
  - rewrite fmap_app, elem_of_app, sort_by_Permutation, Ha, gathered_keys, list_elem_of_fmap.
    setoid_rewrite list_elem_of_omap. unfold holder. split.
    + intros [(u & -> & card & Hc & E)|Hin]; [exists card; by rewrite E|].
      destruct (g_unassigned _); [|by apply elem_of_nil in Hin].
      apply list_elem_of_singleton in Hin as ->. destruct (proj1 Hu eq_refl) as (card & Hc & E).
      exists card. by rewrite E.
    + intros (card & Hc & E). destruct (card_assignee card) as [u|] eqn:Eu; simpl in E.
      * left. exists u. split; [done|]. by exists card.
      * right. rewrite (proj2 Hu) by eauto. subst. by apply list_elem_of_singleton.
  - rewrite sort_by_Permutation, Hl, gathered_keys. rewrite list_elem_of_fmap.
    setoid_rewrite list_elem_of_fmap. setoid_rewrite list_elem_of_In. setoid_rewrite in_concat. setoid_rewrite in_map_iff.
    naive_solver.
  - rewrite sort_by_Permutation, Ht, gathered_keys, list_elem_of_fmap. setoid_rewrite list_elem_of_In. setoid_rewrite in_map_iff.
    naive_solver.
  - rewrite sort_by_Permutation, He, gathered_keys, list_elem_of_fmap. setoid_rewrite list_elem_of_omap.
    setoid_rewrite fmap_Some. naive_solver.
Qed.

(** C40: a chip offers a value exactly when picking that value alone leaves a card
    on the board: nothing that can match is missing, nothing offered comes up
    empty, and every card's own values are offered. *)
Theorem options_can_match word cards chip value meId :
  value ∈ offers (optionsFrom word cards) chip ↔ filterCards cards (only chip value) meId ≠ [].
Proof.
  rewrite offered_value. unfold filterCards.
  assert (isFiltered (only chip value) = true) as -> by (by destruct chip). cbn [negb].
  assert (toLowerCase (asks_text (only chip value)) = EmptyString) as -> by (by destruct chip).
  setoid_rewrite <- (only_passes chip value meId). split.
  - intros (card & Hc & Hp) E. assert (card ∈ filter (fun card => passes (only chip value) meId EmptyString card = true) cards) as Hin
      by (by apply list_elem_of_filter). rewrite E in Hin. by apply elem_of_nil in Hin.
  - intros Hne. destruct (filter (fun card => passes (only chip value) meId EmptyString card = true) cards) as [|card l] eqn:E; [done|].
    assert (card ∈ filter (fun card => passes (only chip value) meId EmptyString card = true) cards) as [Hp Hc]%list_elem_of_filter
      by (rewrite E; left). by exists card.
Qed.
End OptionFacts.

(** ** The address is read as it was written *)

(** Values that travel in a list: not empty, without the comma that joins them. *)
Definition listable (values : list string) : Prop := Forall (fun w => truthy w = true ∧ no_comma w = true) values.

Lemma list_of_joined search key values :
  listable values → jget search key = JString <$> joined values → list_of search key = values.
Proof.
  intros Hl E. unfold list_of. rewrite E. destruct values as [|w ws]; [done|]. simpl.
  by destruct (split_list_join (w :: ws)) as [_ H].
Qed.

Lemma jget_text_entry (key k : string) (v : option string) :
  jget (text_entry k v) key = if decide (k = key) then JString <$> v else None.
Proof. apply jget_entry. Qed.

Ltac param_key := intros; unfold search_params; rewrite ?jget_app, ?jget_text_entry; simpl;
  repeat (rewrite decide_False by discriminate); simpl;
  repeat match goal with |- context [JString <$> ?o] => destruct o; simpl; try done end;
  try (match goal with |- context [qs_mine ?s] => destruct (qs_mine s) end); done.

Lemma params_mine s : jget (search_params s) "mine"%string = if qs_mine s then Some (JBool true) else None.
Proof. param_key. Qed.
Lemma params_assignee s : jget (search_params s) "assignee"%string = JString <$> qs_assignee s.
Proof. param_key. Qed.
Lemma params_label s : jget (search_params s) "label"%string = JString <$> qs_label s.
Proof. param_key. Qed.
Lemma params_type s : jget (search_params s) "type"%string = JString <$> qs_type s.
Proof. param_key. Qed.
Lemma params_epic s : jget (search_params s) "epic"%string = JString <$> qs_epic s.
Proof. param_key. Qed.
Lemma params_q s : jget (search_params s) "q"%string = JString <$> qs_q s.
Proof. param_key. Qed.

Theorem quick_filter_roundtrip f :
  listable (qf_assignees f) → listable (qf_labels f) → listable (qf_types f) → listable (qf_epics f) →
  parseSearch (search_params (toSearch f)) =
    mkQuickFilter (qf_mine f) (qf_assignees f) (qf_labels f) (qf_types f) (qf_epics f)
      (if truthy (asks_text f) then qf_q f else None).
Proof.
  intros Ha Hl Ht He. unfold parseSearch. rewrite params_mine, params_q.
  rewrite (list_of_joined _ "assignee" _ Ha), (list_of_joined _ "label" _ Hl), (list_of_joined _ "type" _ Ht),
    (list_of_joined _ "epic" _ He) by (by rewrite ?params_assignee, ?params_label, ?params_type, ?params_epic).
  unfold toSearch; cbn [qs_mine qs_q]. f_equal; [by destruct (qf_mine f)|].
  unfold asks_text. destruct (qf_q f) as [q|]; csimpl; [|done].
  destruct (truthy (trim q)) eqn:E; csimpl; [by rewrite E|done].
Qed.
