(* ===== verification/Duration.v ===== *)
(** Time the way people write it on a ticket: [web/src/features/time/duration.ts].

    Amounts are exact rationals: a fraction of a unit is not rounded before the
    minutes it comes to are. *)

From Stdlib Require Import ZArith QArith Qround Qminmax Lia Lqa Ascii String.
From stdpp Require Import base list strings.
From S2P Require Import Prelude JsString JsDate Scale ScaleFacts.

Open Scope Z_scope.

Definition MINUTES_PER_HOUR : Z := 60.
Definition HOURS_PER_DAY : Z := 8.
Definition MINUTES_PER_DAY : Z := MINUTES_PER_HOUR * HOURS_PER_DAY.

(** ** Parsing *)

(** [\d+(\.\d+)?] at the start of a text: the digits before the point, those
    after it, and the rest. *)
Definition take_amount (s : string) : option (string * string * string) :=
  let '(whole, rest) := span_digits s in
  if truthy whole then
    match rest with
    | String "." rest' =>
        let '(fraction, rest'') := span_digits rest' in
        if truthy fraction then Some (whole, fraction, rest'') else Some (whole, EmptyString, rest)
    | _ => Some (whole, EmptyString, rest)
    end
  else None.

(** [Number] of such a text. *)
Definition amount (whole fraction : string) : Q :=
  (inject_Z (digits_value 0 (whole +:+ fraction)) / inject_Z (10 ^ Z.of_nat (String.length fraction)))%Q.

Definition is_unit (c : ascii) : bool := bool_decide (c ∈ ["d"; "h"; "m"]%char).

Definition unit_minutes (unit : ascii) : Z :=
  if decide (unit = "d"%char) then MINUTES_PER_DAY
  else if decide (unit = "h"%char) then MINUTES_PER_HOUR
  else 1.

Record Part := mkPart { part_amount : Q; part_unit : ascii; part_length : nat }.

(** [PART] at the start of a text.  It is greedy and what follows each piece
    cannot be part of it, so there is one way to match. *)
Definition part_at (s : string) : option Part :=
  '(whole, fraction, rest) ← take_amount s;
  match trimStart rest with
  | String unit after =>
      if is_unit unit
      then Some (mkPart (amount whole fraction) unit (String.length s - String.length after))
      else None
  | EmptyString => None
  end.

(** [text.matchAll(PART)], after skipping what the match before took. *)
Fixpoint matchAll (skip : nat) (s : string) : list Part :=
  match s with
  | EmptyString => []
  | String c s' =>
      match skip with
      | S skip' => matchAll skip' s'
      | O => match part_at s with
             | Some part => part :: matchAll (part_length part - 1) s'
             | None => matchAll O s'
             end
      end
  end.

(** The text of the matches, which is what is left of the text without the rest. *)
Fixpoint consumed (skip : nat) (s : string) : string :=
  match s with
  | EmptyString => EmptyString
  | String c s' =>
      match skip with
      | S skip' => String c (consumed skip' s')
      | O => match part_at s with
             | Some part => String c (consumed (part_length part - 1) s')
             | None => consumed O s'
             end
      end
  end.

(** [text.replace(/\s+/g, '')]. *)
Fixpoint without_spaces (s : string) : string :=
  match s with
  | EmptyString => EmptyString
  | String c s' => if is_space c then without_spaces s' else String c (without_spaces s')
  end.

Definition bare_number (s : string) : option Q :=
  match take_amount s with
  | Some (whole, fraction, EmptyString) => Some (amount whole fraction)
  | _ => None
  end.

Definition minutes_of (part : Part) : Q := (part_amount part * inject_Z (unit_minutes (part_unit part)))%Q.

Definition parseDuration (text : string) : option Z :=
  let trimmed := toLowerCase (trim text) in
  if decide (trimmed = EmptyString) then Some 0
  else match bare_number trimmed with
  | Some n => Some (js_round (n * inject_Z MINUTES_PER_HOUR))
  | None =>
      let minutes := foldl (fun sum part => sum + minutes_of part)%Q 0%Q (matchAll O trimmed) in
      let text_ := consumed O trimmed in
      if decide (text_ = EmptyString) then None
      else if decide (without_spaces trimmed = without_spaces text_) then Some (js_round minutes)
      else None
  end.

(** ** Formatting *)

Definition piece (n : Z) (unit : ascii) : list (Z * ascii) := if n =? 0 then [] else [(n, unit)].
Definition piece_text (p : Z * ascii) : string := stringOfInt p.1 +:+ String p.2 EmptyString.

Definition formatDuration (minutes : option Z) : string :=
  match minutes with
  | None => EmptyString
  | Some minutes =>
      if minutes <=? 0 then "0m"
      else
        let days := minutes / MINUTES_PER_DAY in
        let hours := (minutes mod MINUTES_PER_DAY) / MINUTES_PER_HOUR in
        let rest := minutes mod MINUTES_PER_HOUR in
        join " " (map piece_text (piece days "d"%char ++ piece hours "h"%char ++ piece rest "m"%char))
  end.

(** How far along the time is. *)
Definition timeProgress (spent : Q) (remaining estimate : option Q) : Q :=
  let total := match remaining with Some r => spent + r | None => default 0 estimate end%Q in
  if Qle_bool total 0 then (if negb (Qle_bool spent 0) then 1 else 0)
  else Qmin 1 (spent / total).

Example parse_spaced : parseDuration " 1d 2.5H 3 m " = Some 633. Proof. vm_compute. reflexivity. Qed.
Example parse_bare : parseDuration "1.5" = Some 90. Proof. vm_compute. reflexivity. Qed.
Example parse_left_over : parseDuration "2h or so" = None. Proof. vm_compute. reflexivity. Qed.
Example parse_nothing : parseDuration "soon" = None. Proof. vm_compute. reflexivity. Qed.
Example parse_point : parseDuration "2h.5m" = None. Proof. vm_compute. reflexivity. Qed.

(** ** Reading back what was written *)

Lemma matchAll_skip w r : matchAll (String.length w) (w +:+ r) = matchAll O r.
Proof. induction w as [|c w IH]; [by destruct r|]. apply IH. Qed.

Lemma consumed_skip w r : consumed (String.length w) (w +:+ r) = w +:+ consumed O r.
Proof. induction w as [|c w IH]; [by destruct r|]. simpl. by rewrite IH. Qed.

(** A match at the start of a text, and what is matched after it. *)
Lemma match_first c w r part :
  part_at (String c (w +:+ r)) = Some part → part_length part = S (String.length w) →
  matchAll O (String c (w +:+ r)) = part :: matchAll O r ∧
  consumed O (String c (w +:+ r)) = String c w +:+ consumed O r.
Proof.
  intros E Hl. cbn [matchAll consumed]. rewrite E, Hl. cbn [Nat.sub].
  rewrite Nat.sub_0_r, matchAll_skip, consumed_skip. done.
Qed.

(** A piece: a number of days, hours or minutes. *)
Definition is_piece (p : Z * ascii) : Prop := 0 <= p.1 ∧ is_unit p.2 = true.

Definition part_of (p : Z * ascii) : Part := mkPart (amount (digits p.1) EmptyString) p.2 (S (String.length (digits p.1))).

Lemma is_unit_cases c : is_unit c = true → c = "d"%char ∨ c = "h"%char ∨ c = "m"%char.
Proof. intros H%bool_decide_eq_true. rewrite !elem_of_cons, elem_of_nil in H. tauto. Qed.

Lemma piece_text_digits p : is_piece p → piece_text p = digits p.1 +:+ String p.2 EmptyString.
Proof. intros [Hp _]. unfold piece_text, stringOfInt. by rewrite (proj2 (Z.ltb_ge p.1 0)) by lia. Qed.

Lemma part_at_piece p r : is_piece p → part_at (piece_text p +:+ r) = Some (part_of p).
Proof.
  intros Hp. rewrite piece_text_digits by done. destruct Hp as [Hn Hu]. rewrite app_assoc_s. cbn [String.append].
  unfold part_at, take_amount.
  pose proof (is_unit_cases _ Hu) as Hc.
  rewrite span_digits_app; [|by apply digits_all|by destruct Hc as [->|[->| ->]]].
  unfold truthy. rewrite bool_decide_false by (by apply digits_nonempty). cbn [negb].
  assert (is_space p.2 = false) as Hs by (by destruct Hc as [->|[->| ->]]).
  assert ((String.length (digits p.1 +:+ String p.2 r) - String.length r)%nat = S (String.length (digits p.1))) as Hlen.
  { rewrite length_app_s. simpl. lia. }
  unfold part_of. destruct Hc as [E|[E|E]]; rewrite E in *; cbn [mbind option_bind trimStart]; rewrite ?Hs, Hu, Hlen; reflexivity.
Qed.

Lemma piece_text_first p : is_piece p → ∃ c w, piece_text p = String c w ∧ is_digit c = true ∧ String.length w = String.length (digits p.1).
Proof.
  intros Hp. rewrite piece_text_digits by done. destruct Hp as [Hn _].
  pose proof (digits_nonempty _ Hn) as Hne. pose proof (digits_all _ Hn) as Hd.
  destruct (digits p.1) as [|c w]; [done|]. simpl in Hd. apply andb_true_iff in Hd as [Hc _].
  exists c, (w +:+ String p.2 EmptyString). split_and!; [done..|]. rewrite length_app_s. simpl. lia.
Qed.

Lemma match_piece p r :
  is_piece p → matchAll O (piece_text p +:+ r) = part_of p :: matchAll O r ∧
  consumed O (piece_text p +:+ r) = piece_text p +:+ consumed O r.
Proof.
  intros Hp. pose proof (part_at_piece p r Hp) as E. destruct (piece_text_first p Hp) as (c & w & Et & _ & Hl).
  rewrite Et in *. apply (match_first c w r _ E). cbn [part_length part_of]. lia.
Qed.

Lemma piece_no_space p : is_piece p → string_forall (fun c => negb (is_space c)) (piece_text p) = true.
Proof.
  intros Hp. rewrite piece_text_digits by done. destruct Hp as [Hn Hu]. rewrite string_forall_app.
  rewrite digit_units by (by apply digits_all). simpl. by destruct (is_unit_cases _ Hu) as [->|[->| ->]].
Qed.

Lemma without_spaces_app a b : without_spaces (a +:+ b) = without_spaces a +:+ without_spaces b.
Proof. induction a as [|c a IH]; simpl; [done|]. destruct (is_space c); [done|]. by rewrite IH. Qed.

Lemma without_spaces_id s : string_forall (fun c => negb (is_space c)) s = true → without_spaces s = s.
Proof. induction s as [|c s IH]; simpl; [done|]. destruct (is_space c); simpl; [done|]. intros. by rewrite IH. Qed.

Lemma space_first s : matchAll O (" " +:+ s) = matchAll O s ∧ consumed O (" " +:+ s) = consumed O s.
Proof. done. Qed.

Definition pieces_text (l : list (Z * ascii)) : string := join EmptyString (map piece_text l).

Lemma match_pieces l :
  l ≠ [] → Forall is_piece l →
  let s := join " " (map piece_text l) in
  matchAll O s = map part_of l ∧ consumed O s = pieces_text l ∧
  without_spaces s = pieces_text l ∧ without_spaces (pieces_text l) = pieces_text l.
Proof.
  intros _ Hl. cbv zeta. induction Hl as [|p l Hp Hl IH]; [done|].
  destruct l as [|q l].
  - unfold pieces_text. cbn [map join]. destruct (match_piece p EmptyString Hp) as [E1 E2]. rewrite app_empty_r in E1, E2.
    rewrite E1, E2, !without_spaces_id by (by apply piece_no_space). by rewrite app_empty_r.
  - destruct IH as (IH1 & IH2 & IH3 & IH4). unfold pieces_text in *. cbn [map] in *. rewrite (join_cons " "), (join_cons EmptyString) by done.
    destruct (match_piece p (" " +:+ join " " (piece_text q :: map piece_text l)) Hp) as [-> ->].
    destruct (space_first (join " " (piece_text q :: map piece_text l))) as [Es Ec]. rewrite Es, Ec, IH1, IH2.
    rewrite !without_spaces_app. cbn [without_spaces is_space]. rewrite (without_spaces_id (piece_text p)) by (by apply piece_no_space).
    rewrite IH3, IH4. done.
Qed.

Definition minutes_in (p : Z * ascii) : Z := p.1 * unit_minutes p.2.

Lemma minutes_of_part p : is_piece p → (minutes_of (part_of p) == inject_Z (minutes_in p))%Q.
Proof.
  intros [Hn _]. unfold minutes_of, minutes_in, part_of, amount. cbn [part_amount part_unit].
  rewrite app_empty_r, digits_value_digits by done. rewrite inject_Z_mult.
  change (inject_Z (10 ^ Z.of_nat (String.length EmptyString))) with 1%Q. field.
Qed.

Lemma sum_minutes l a :
  Forall is_piece l →
  (foldl (fun sum part => sum + minutes_of part) a (map part_of l) == a + inject_Z (foldr (fun p acc => minutes_in p + acc)%Z 0%Z l))%Q.
Proof.
  intros Hl. revert a. induction Hl as [|p l Hp _ IH]; intros a; simpl; [ring|].
  rewrite IH, minutes_of_part, inject_Z_plus by done. ring.
Qed.

Definition plain (c : ascii) : bool := bool_decide (lower c = c).

Lemma toLowerCase_plain s : string_forall plain s = true → toLowerCase s = s.
Proof. induction s as [|c s IH]; simpl; [done|]. intros [Hc%bool_decide_eq_true Hs]%andb_true_iff. by rewrite Hc, IH. Qed.

Lemma digits_plain s : string_forall is_digit s = true → string_forall plain s = true.
Proof.
  induction s as [|c s IH]; simpl; [done|]. intros [Hc Hs]%andb_true_iff. rewrite IH, andb_true_r by done.
  apply bool_decide_true. unfold is_digit in Hc. apply andb_true_iff in Hc as [H1 H2].
  unfold lower. repeat match goal with |- context [if ?b then _ else _] => destruct b eqn:?; [|done] end; lia.
Qed.

Lemma pieces_plain l : Forall is_piece l → string_forall plain (join " " (map piece_text l)) = true.
Proof.
  assert (∀ p, is_piece p → string_forall plain (piece_text p) = true) as Hpiece.
  { intros p Hp. rewrite piece_text_digits by done. destruct Hp as [Hn Hu]. rewrite string_forall_app.
    rewrite digits_plain by (by apply digits_all). by destruct (is_unit_cases _ Hu) as [->|[->| ->]]. }
  induction 1 as [|p l Hp Hl IH]; [done|]. destruct l as [|q l]; [by apply Hpiece|].
  cbn [map] in *. rewrite join_cons by done. rewrite !string_forall_app, IH, (Hpiece p Hp). done.
Qed.

(** A text of pieces starts with a digit and ends with a unit. *)
Lemma pieces_ends l :
  l ≠ [] → Forall is_piece l →
  let s := join " " (map piece_text l) in
  (∃ c w, s = String c w ∧ is_digit c = true) ∧ (∃ w c, s = w +:+ String c EmptyString ∧ is_unit c = true).
Proof.
  intros Hne Hl. cbv zeta. split.
  - destruct Hl as [|p l Hp Hl]; [done|]. destruct (piece_text_first p Hp) as (c & w & E & Hc & _).
    exists c. destruct l as [|q l]; cbn [map]; [exists w; by rewrite E|].
    rewrite join_cons by done. eexists. by rewrite E.
  - induction Hl as [|p l Hp Hl IH]; [done|]. destruct l as [|q l].
    + exists (digits p.1), p.2. cbn [map join]. split; [by apply piece_text_digits|apply Hp].
    + destruct IH as (w & c & E & Hc); [done|]. cbn [map] in *. rewrite join_cons by done. rewrite E.
      exists (piece_text p +:+ " " +:+ w), c. split; [|done]. by rewrite !app_assoc_s.
Qed.

Lemma bare_pieces l : l ≠ [] → Forall is_piece l → bare_number (join " " (map piece_text l)) = None.
Proof.
  intros Hne Hl. destruct Hl as [|p l Hp Hl]; [done|].
  assert (∃ r, join " " (map piece_text (p :: l)) = digits p.1 +:+ String p.2 r) as (r & ->).
  { destruct l as [|q l]; cbn [map]; [exists EmptyString; by apply piece_text_digits|].
    rewrite join_cons by done. rewrite piece_text_digits by done. eexists. by rewrite app_assoc_s. }
  destruct Hp as [Hn Hu]. unfold bare_number, take_amount. pose proof (is_unit_cases _ Hu) as Hc.
  rewrite span_digits_app; [|by apply digits_all|by destruct Hc as [->|[->| ->]]].
  unfold truthy. rewrite bool_decide_false by (by apply digits_nonempty). cbn [negb].
  by destruct Hc as [->|[->| ->]].
Qed.

Lemma parse_pieces l :
  l ≠ [] → Forall is_piece l → parseDuration (join " " (map piece_text l)) = Some (foldr (fun p acc => minutes_in p + acc) 0 l).
Proof.
  intros Hne Hl. unfold parseDuration.
  destruct (pieces_ends l Hne Hl) as [(c & w & Ec & Hc) (w' & c' & Ec' & Hc')].
  assert (trim (join " " (map piece_text l)) = join " " (map piece_text l)) as ->.
  { unfold trim. rewrite Ec' at 1. rewrite trimEnd_app by (by destruct (is_unit_cases _ Hc') as [->|[->| ->]]).
    rewrite <- Ec', Ec. apply trimStart_id. by apply digit_not_space. }
  rewrite toLowerCase_plain by (by apply pieces_plain).
  rewrite decide_False by (by rewrite Ec). rewrite bare_pieces by done.
  destruct (match_pieces l Hne Hl) as (E1 & E2 & E3 & E4). rewrite E1, E2, E3, E4.
  rewrite decide_False.
  2: { destruct Hl as [|p l Hp _]; [done|]. destruct (piece_text_first p Hp) as (c1 & w1 & E & _).
    unfold pieces_text. cbn [map]. destruct l; cbn [map]; [by rewrite E|]. rewrite join_cons by done. by rewrite E. }
  rewrite decide_True by done. f_equal. etransitivity; [|apply ScaleFacts.js_round_Z].
  apply ScaleFacts.js_round_proper. rewrite sum_minutes by done. ring.
Qed.

(** C31: time is read back as it was written: the minutes a duration is formatted
    from are the minutes its text is parsed as. *)
Theorem duration_roundtrip minutes : 0 <= minutes → parseDuration (formatDuration (Some minutes)) = Some minutes.
Proof.
  intros Hm. unfold formatDuration. destruct (Z.leb_spec minutes 0) as [Hle|Hgt].
  { assert (minutes = 0) as -> by lia. vm_compute. reflexivity. }
  set (l := _ ++ _ ++ _).
  assert (Forall is_piece l ∧ foldr (fun p acc => minutes_in p + acc) 0 l = minutes) as [Hl Hsum].
  { subst l. unfold MINUTES_PER_DAY, MINUTES_PER_HOUR, HOURS_PER_DAY in *. change (60 * 8) with 480 in *.
    assert (0 <= minutes / 480) by div_lia. assert (0 <= minutes mod 480 / 60) by div_lia. assert (0 <= minutes mod 60) by div_lia.
    unfold piece. destruct (Z.eqb_spec (minutes / 480) 0), (Z.eqb_spec (minutes mod 480 / 60) 0), (Z.eqb_spec (minutes mod 60) 0);
      (split; [repeat constructor; done|]); unfold minutes_in; cbn [app foldr fst snd];
      change (unit_minutes "d") with 480; change (unit_minutes "h") with 60; change (unit_minutes "m") with 1; div_lia. }
  rewrite parse_pieces; [by rewrite Hsum| |done].
  intros E. rewrite E in Hsum. simpl in Hsum. lia.
Qed.

Lemma duration_roundtrip_witness : parseDuration (formatDuration (Some 575)) = Some 575 ∧ formatDuration (Some 575) = "1d 1h 35m"%string.
Proof. split; [apply (duration_roundtrip 575); lia|reflexivity]. Defined.

Lemma progress_bounds spent remaining estimate :
  (0 <= spent)%Q → (0 <= timeProgress spent remaining estimate <= 1)%Q.
Proof.
  intros Hs. unfold timeProgress. set (total := match remaining with Some r => _ | None => _ end).
  destruct (Qle_bool total 0) eqn:E; [destruct (negb _); split; lra|].
  assert (0 < total)%Q by (apply Qnot_le_lt; intros Hle; apply Qle_bool_iff in Hle; congruence).
  split; [|apply Q.le_min_l]. apply Q.min_glb; [lra|]. apply Qle_shift_div_l; lra.
Qed.
