(* ===== verification/Calendar.v ===== *)
(** A project's month calendar: [web/src/features/calendar/grid.ts] and
    [settings.ts].

    A date of the reader's own calendar is the number of its day, counted from
    1 January 1970; the instant its midnight is at is the zone's. *)

From Stdlib Require Import ZArith QArith Qround Lia Lqa Ascii String.
From stdpp Require Import base sets list strings list_numbers sorting.
From S2P Require Import Prelude JsString Config JsDate DayText Scale.

Open Scope Z_scope.

(** ** Local dates *)

(** The reader's time zone: the instant of the midnight a day starts with. *)
Class Zone := midnight_of : Z → Z.

(** [new Date(year, monthIndex, date)], read like [Date.UTC] reads its numbers. *)
Definition local_date (year month date : Z) : Z := day_number (date_UTC year month date).

Definition getFullYear (d : Z) : Z := (civil_of d).1.1.
Definition getMonth (d : Z) : Z := (civil_of d).1.2 - 1.
Definition getDate (d : Z) : Z := (civil_of d).2.
Definition getDay (d : Z) : Z := (d + 4) mod 7.

Definition isoDay (d : Z) : string :=
  stringOfInt (getFullYear d) +:+ "-" +:+ padStart 2 (stringOfInt (getMonth d + 1)) +:+ "-" +:+ padStart 2 (stringOfInt (getDate d)).

(** A number as a date takes it: without its fraction. *)
Definition whole_part (q : Q) : Z := if Qle_bool 0 q then Qfloor q else Qceiling q.

(** [None] is an invalid date. *)
Definition parseDay (s : string) : option Z :=
  let numbers := map numberOf (split "-"%char s) in
  y ← mjoin (numbers !! 0%nat);
  m ← default (Some 1%Q) (numbers !! 1%nat);
  d ← default (Some 1%Q) (numbers !! 2%nat);
  Some (local_date (whole_part y) (whole_part (m - 1)) (whole_part d)).

Definition shiftDay (s : string) (days : Z) : option string :=
  d ← parseDay s; Some (isoDay (d + days)).

Section Between.
Context `{!Zone}.

Definition daysBetween (a b : string) : option Z :=
  db ← parseDay b; da ← parseDay a;
  Some (js_round (inject_Z (midnight_of db - midnight_of da) / inject_Z 86400000)).
End Between.

(** ** The grid *)

Record Cell := mkCell {
  cell_day : string;
  cell_inMonth : bool;
  cell_weekend : bool;
  cell_holiday : option string;
}.

Definition cell_of (month d : Z) : Cell :=
  mkCell (isoDay d) (getMonth d =? month - 1) ((getDay d =? 0) || (getDay d =? 6)) None.

Definition monthGrid (year month : Z) : list Cell :=
  let first := local_date year (month - 1) 1 in
  let lead := (getDay first + 6) mod 7 in
  let start := local_date year (month - 1) (1 - lead) in
  map (fun i => cell_of month (local_date (getFullYear start) (getMonth start) (getDate start + i)))
    (seqZ 0 CALENDAR_GRID_DAYS).

Definition shiftMonth (year month by_ : Z) : Z * Z :=
  let d := local_date year (month - 1 + by_) 1 in (getFullYear d, getMonth d + 1).

(** ** What lies on the days: [api/calendar.ts] *)

Inductive CalendarKind := kind_issue | kind_sprint | kind_milestone | kind_version | kind_holiday | kind_absence.
#[export] Instance CalendarKind_eq : EqDecision CalendarKind.
Proof. solve_decision. Defined.

Record CalendarItem := mkCalendarItem {
  ci_kind : CalendarKind;
  ci_id : string;
  ci_key : option string;
  ci_title : string;
  ci_from : string;
  ci_to : string;
  ci_category : option string;
  ci_done : bool;
  ci_calendar : option string;
  ci_halfDay : bool;
}.

Record Placed := mkPlaced { placed_item : CalendarItem; placed_starts : bool; placed_ends : bool }.
Record DayItems := mkDayItems { di_shown : list Placed; di_more : Z }.

(** [text <= other] of two texts. *)
Definition text_le (a b : string) : bool := unit_compare a b <=? 0.

Definition covers (day : string) (it : CalendarItem) : bool := text_le (ci_from it) day && text_le day (ci_to it).

Section Placing.
Context `{!Zone, !Collation}.

Definition span_of (it : CalendarItem) : option Z := daysBetween (ci_from it) (ci_to it).

(** A span that is not a number is different from every other, and the
    difference is not a number either, which the sort takes for zero. *)
Definition item_order (a b : CalendarItem) : Z :=
  match span_of a, span_of b with
  | Some spanA, Some spanB =>
      if spanA =? spanB then
        if decide (ci_from a = ci_from b) then localeCompare (ci_title a) (ci_title b)
        else localeCompare (ci_from a) (ci_from b)
      else spanB - spanA
  | _, _ => 0
  end.

Definition place (max : Z) (sorted : list CalendarItem) (day : string) : DayItems :=
  let onDay := filter (fun it => covers day it = true) sorted in
  let placed := map (fun it => mkPlaced it (bool_decide (ci_from it = day)) (bool_decide (ci_to it = day))) onDay in
  mkDayItems (slice_to max placed) (Z.max 0 (Z.of_nat (length placed) - max)).

Definition placeItems (cells : list Cell) (items : list CalendarItem) (max : Z) : list (string * DayItems) :=
  let sorted := sort_by item_order items in
  foldl (fun byDay cell => jset byDay (cell_day cell) (place max sorted (cell_day cell))) [] cells.

(** Where an issue lands when its bar is dragged by some days. *)
Definition draggedSchedule (item : CalendarItem) (toDay grabbedDay : string) : option (string * string) :=
  by_ ← daysBetween grabbedDay toDay;
  start ← shiftDay (ci_from item) by_; due ← shiftDay (ci_to item) by_; Some (start, due).
End Placing.

(** ** Days off *)

(** [t.schedule.calendar]. *)
Record ChipWords := mkChipWords {
  chip_halfDay : string → string;
  chip_away : string → string;
  chip_awayHalfDay : string → string;
}.

Definition chip_en : ChipWords :=
  mkChipWords (fun title => title +:+ " (half day)") (fun name => name +:+ " away") (fun name => name +:+ " away half the day").

Definition isDefaultHoliday (item : CalendarItem) : bool :=
  bool_decide (ci_kind item = kind_holiday) && negb (from_option truthy false (ci_calendar item)).

Definition holiday_names (words : ChipWords) (items : list CalendarItem) : list (string * string) :=
  foldl (fun names item =>
    if isDefaultHoliday item
    then jset names (ci_from item) (if ci_halfDay item then chip_halfDay words (ci_title item) else ci_title item)
    else names) [] items.

Definition withHolidays (words : ChipWords) (cells : list Cell) (items : list CalendarItem) : list Cell :=
  let names := holiday_names words items in
  map (fun cell =>
    match jget names (cell_day cell) with
    | Some name => mkCell (cell_day cell) (cell_inMonth cell) (cell_weekend cell) (Some name)
    | None => cell
    end) cells.

Definition listedItems (items : list CalendarItem) (showDaysOff : bool) : list CalendarItem :=
  filter (fun item =>
    (if negb (bool_decide (ci_kind item = kind_holiday)) && negb (bool_decide (ci_kind item = kind_absence)) then true
     else showDaysOff && negb (isDefaultHoliday item)) = true) items.

Definition labelOf (words : ChipWords) (item : CalendarItem) : string :=
  if decide (ci_kind item = kind_absence) then
    if ci_halfDay item then chip_awayHalfDay words (ci_title item) else chip_away words (ci_title item)
  else if bool_decide (ci_kind item = kind_holiday) && ci_halfDay item then chip_halfDay words (ci_title item)
  else match ci_key item with
       | Some key => if truthy key then key +:+ " " +:+ ci_title item else ci_title item
       | None => ci_title item
       end.

(** ** The stored setting: [settings.ts] *)

Definition STORAGE_KEY : string := "armature.calendar.daysOff".
Definition HIDDEN : string := "hidden".

(** The browser's storage; [None] is one that throws. *)
Definition Storage : Type := option (list (string * string)).

Definition readShowDaysOff (storage : Storage) : bool :=
  match storage with
  | Some items => negb (bool_decide (jget items STORAGE_KEY = Some HIDDEN))
  | None => true
  end.

Definition writeShowDaysOff (storage : Storage) (show : bool) : Storage :=
  match storage with
  | Some items =>
      Some (if show then filter (fun e => e.1 ≠ STORAGE_KEY) items else jset items STORAGE_KEY HIDDEN)
  | None => None
  end.
