(* ===== verification/CalendarFacts.v ===== *)
(** What holds of the month calendar: the grid is six whole weeks around the
    month, every item lies on its days, and a drag keeps an item's length. *)

From Stdlib Require Import ZArith QArith Qround Lia Lqa Ascii String.
From stdpp Require Import base sets list strings list_numbers sorting.
From S2P Require Import Prelude JsString Config JsDate DayText Scale ScaleFacts Calendar.

Open Scope Z_scope.

(** ** Local dates *)

Lemma local_date_days y m d : 100 <= y → local_date y m d = days_of (y + m / 12) (m mod 12 + 1) d.
Proof. intros Hy. unfold local_date. rewrite date_UTC_modern by done. apply day_number_mult. Qed.

Lemma days_of_date y m d : days_of y m d = days_of y m 1 + d - 1.
Proof. rewrite !days_of_march. lia. Qed.

(** A date made of another's year, month and day, some days on. *)
Lemma local_date_shift n i : 100 <= getFullYear n → local_date (getFullYear n) (getMonth n) (getDate n + i) = n + i.
Proof.
  unfold getFullYear, getMonth, getDate. pose proof (days_of_civil_of n) as H.
  destruct (civil_of n) as [[y m] d]. destruct H as (Hn & Hm & Hd). cbn [fst snd]. intros Hy.
  rewrite local_date_days by done.
  replace ((m - 1) / 12) with 0 by div_lia. replace ((m - 1) mod 12 + 1) with m by div_lia. rewrite Z.add_0_r.
  rewrite (days_of_date y m (d + i)). rewrite (days_of_date y m d) in Hn. lia.
Qed.

Lemma local_date_month y m d : 100 <= y → 1 <= m <= 12 → local_date y (m - 1) d = month_start_of 0 (12 * y + m - 1) + d - 1.
Proof.
  intros Hy Hm. rewrite local_date_days, days_of_date by done. unfold month_start_of.
  replace (0 + (12 * y + m - 1) / 12) with (y + (m - 1) / 12) by div_lia.
  by replace ((12 * y + m - 1) mod 12 + 1) with ((m - 1) mod 12 + 1) by div_lia.
Qed.

(** A day is in a month when it lies between the month's first and the next's. *)
Lemma month_of_day n y m :
  1 <= m <= 12 →
  month_start_of 0 (12 * y + m - 1) <= n < month_start_of 0 (12 * y + m) ↔ getFullYear n = y ∧ getMonth n = m - 1.
Proof.
  intros Hm. unfold getFullYear, getMonth. pose proof (day_in_month n) as H.
  destruct (civil_of n) as [[y' m'] d]. destruct H as (Hm' & Hn & Hd & Hlt). cbn [fst snd]. split.
  - intros Hin.
    assert (12 * y' + m' = 12 * y + m); [|lia].
    destruct (Z_lt_le_dec (12 * y' + m') (12 * y + m)).
    + pose proof (month_start_mono 0 (12 * y' + m') (12 * y + m - 1 - (12 * y' + m')) ltac:(lia)) as H.
      replace (12 * y' + m' + (12 * y + m - 1 - (12 * y' + m'))) with (12 * y + m - 1) in H by lia. lia.
    + destruct (Z.eq_dec (12 * y' + m') (12 * y + m)); [done|].
      pose proof (month_start_mono 0 (12 * y + m) (12 * y' + m' - 1 - (12 * y + m)) ltac:(lia)) as H.
      replace (12 * y + m + (12 * y' + m' - 1 - (12 * y + m))) with (12 * y' + m' - 1) in H by lia. lia.
  - intros [-> E]. replace m' with m in * by lia. lia.
Qed.

Lemma modern_year_of n : 0 <= n + 683003 ↔ 100 <= getFullYear n.
Proof.
  unfold getFullYear. pose proof (civil_order n (-683003)) as Ho. change (civil_of (-683003)) with (100, 1, 1) in Ho.
  pose proof (day_in_month n) as Hd. destruct (civil_of n) as [[y m] d]. cbn [fst snd].
  destruct Hd as (Hm & _ & Hd & _). destruct (Z.eqb_spec y 100), (Z.eqb_spec m 1); lia.
Qed.

Lemma later_year_of n : 101 <= getFullYear n → 0 <= n + 682638.
Proof.
  unfold getFullYear. pose proof (civil_order n (-682638)) as Ho. change (civil_of (-682638)) with (101, 1, 1) in Ho.
  pose proof (day_in_month n) as Hd. destruct (civil_of n) as [[y m] d]. cbn [fst snd].
  destruct Hd as (Hm & _ & Hd & _). destruct (Z.eqb_spec y 101), (Z.eqb_spec m 1); lia.
Qed.

Lemma year_before n start : 101 <= getFullYear n → n - 6 <= start → 100 <= getFullYear start.
Proof. intros Hn%later_year_of Hs. apply modern_year_of. lia. Qed.

Lemma same_year n y m :
  1 <= m <= 12 → getMonth n = m - 1 →
  month_start_of 0 (12 * y + m - 1) - 60 <= n <= month_start_of 0 (12 * y + m - 1) + 60 → getFullYear n = y.
Proof.
  intros Hm E Hn. pose proof (proj2 (month_of_day n (getFullYear n) m Hm) (conj eq_refl E)) as Hy.
  set (y' := getFullYear n) in *.
  destruct (Z.lt_total y' y) as [Hlt|[->|Hgt]]; [|done|].
  - pose proof (month_start_mono 0 (12 * y' + m) (12 * y + m - 1 - (12 * y' + m)) ltac:(lia)) as H.
    replace (12 * y' + m + (12 * y + m - 1 - (12 * y' + m))) with (12 * y + m - 1) in H by lia. lia.
  - pose proof (month_start_mono 0 (12 * y + m - 1) (12 * y' + m - 1 - (12 * y + m - 1)) ltac:(lia)) as H.
    replace (12 * y + m - 1 + (12 * y' + m - 1 - (12 * y + m - 1))) with (12 * y' + m - 1) in H by lia. lia.
Qed.

(** The grid of a month is six whole weeks, Monday first, that hold the month:
    one cell for each of 42 days in a row, the first a Monday at most six days
    before the month's first; the cells of the month are the ones marked so,
    and all its days are among them; and the weekends are the last two columns. *)
Theorem monthGrid_weeks year month :
  101 <= year → 1 <= month <= 12 →
  let first := local_date year (month - 1) 1 in
  let next := local_date year month 1 in
  ∃ start, getDay start = 1 ∧ start <= first < start + 7 ∧ next <= start + 42 ∧
    length (monthGrid year month) = 42%nat ∧
    ∀ i, 0 <= i < 42 →
      monthGrid year month !! Z.to_nat i =
        Some (mkCell (isoDay (start + i)) (bool_decide (first <= start + i < next)) (bool_decide (5 <= i mod 7)) None).
Proof.
  intros Hy Hm. cbv zeta.
  assert (local_date year month 1 = month_start_of 0 (12 * year + month)) as ->.
  { rewrite local_date_days by lia. unfold month_start_of. f_equal; div_lia. }
  pose proof (local_date_month year month 1 ltac:(lia) Hm) as Ef.
  replace (month_start_of 0 (12 * year + month - 1) + 1 - 1) with (month_start_of 0 (12 * year + month - 1)) in Ef by lia.
  pose proof (month_start_next 0 (12 * year + month - 1)) as Hlen.
  replace (12 * year + month - 1 + 1) with (12 * year + month) in Hlen by lia.
  unfold monthGrid. rewrite Ef. set (first := month_start_of 0 (12 * year + month - 1)) in *.
  set (lead := (getDay first + 6) mod 7). rewrite (local_date_month year month (1 - lead)) by lia. fold first.
  replace (first + (1 - lead) - 1) with (first - lead) by lia.
  assert (0 <= lead < 7 ∧ getDay (first - lead) = 1) as [Hlead Hmon] by (unfold lead, getDay; div_lia).
  set (start := first - lead) in *.
  assert (100 <= getFullYear start) as Hstart.
  { apply (year_before first); [|lia]. destruct (proj1 (month_of_day first year month Hm)) as [-> _]; [fold first; lia|done]. }
  exists start. split; [done|]. split; [lia|]. split; [lia|]. split.
  { rewrite length_map, length_seqZ. done. }
  intros i Hi. rewrite list_lookup_fmap. rewrite lookup_seqZ_lt by (change CALENDAR_GRID_DAYS with 42; lia). cbn [fmap option_fmap option_map].
  f_equal. rewrite local_date_shift by done. replace (0 + Z.of_nat (Z.to_nat i)) with i by lia.
  unfold cell_of. f_equal.
  - apply eq_true_iff_eq. rewrite Z.eqb_eq, bool_decide_eq_true. unfold first. rewrite month_of_day by done.
    split; [|tauto]. intros E. split; [|done].
    by apply (same_year (start + i) year month); fold first; lia.
  - apply eq_true_iff_eq. rewrite orb_true_iff, !Z.eqb_eq, bool_decide_eq_true. unfold getDay in *. div_lia.
Qed.

Lemma monthGrid_weeks_witness : ∃ start, getDay start = 1 ∧ monthGrid 2024 2 !! 3%nat = Some (mkCell (isoDay (start + 3)) true false None).
Proof.
  destruct (monthGrid_weeks 2024 2) as (start & Hs & Hf & _ & _ & Hc); [lia|lia|].
  exists start. split; [done|]. specialize (Hc 3 ltac:(lia)). etransitivity; [exact Hc|].
  assert (local_date 2024 (2 - 1) 1 = 19754 ∧ local_date 2024 2 1 = 19783) as [E1 E2] by (split; vm_compute; reflexivity).
  rewrite E1, E2 in *. rewrite bool_decide_true; [done|]. unfold getDay in Hs. div_lia.
Defined.

(** ** What lies on a day *)

Section Placing.
Context `{!Zone, !Collation}.

Lemma placeItems_day cells items max day :
  day ∈ cell_day <$> cells → jget (placeItems cells items max) day = Some (place max (sort_by item_order items) day).
Proof.
  unfold placeItems. set (sorted := sort_by item_order items).
  assert (∀ acc, day ∈ cell_day <$> cells ∨ jget acc day = Some (place max sorted day) →
    jget (foldl (fun byDay cell => jset byDay (cell_day cell) (place max sorted (cell_day cell))) acc cells) day =
      Some (place max sorted day)) as Hall; [|by auto].
  induction cells as [|cell cells IH]; intros acc; csimpl; [intros [[]%elem_of_nil|]; done|].
  rewrite elem_of_cons. intros Hin. apply IH. rewrite jget_jset. case_decide as E; [subst; by right|].
  destruct Hin as [[->|Hin]|Hin]; [done|by left|by right].
Qed.

(** The cells of a month show their items in one common order, of all the
    items: a cell's are the first of those that lie on its day, as many as it
    has room for, each once, and the rest of them are counted; an item's bar
    starts and ends on its own first and last day. *)
Theorem placeItems_shown cells items max :
  0 <= max →
  ∃ sorted, sorted ≡ₚ items ∧
    ∀ day, day ∈ cell_day <$> cells → ∃ di,
      jget (placeItems cells items max) day = Some di ∧
      placed_item <$> di_shown di = take (Z.to_nat max) (filter (fun it => covers day it = true) sorted) ∧
      Z.of_nat (length (di_shown di)) <= max ∧
      Z.of_nat (length (di_shown di)) + di_more di = Z.of_nat (length (filter (fun it => covers day it = true) items)) ∧
      Forall (fun p => placed_starts p = bool_decide (ci_from (placed_item p) = day) ∧
                       placed_ends p = bool_decide (ci_to (placed_item p) = day)) (di_shown di).
Proof.
  intros Hmax. exists (sort_by item_order items). split; [apply sort_by_Permutation|]. intros day Hday.
  rewrite placeItems_day by done. eexists. split; [done|]. unfold place; cbn [di_shown di_more].
  unfold slice_to, slice_index. rewrite (proj2 (Z.ltb_ge max 0)) by lia.
  set (onDay := filter (fun it => covers day it = true) (sort_by item_order items)).
  assert (length onDay = length (filter (fun it => covers day it = true) items)) as Hlen.
  { unfold onDay. by rewrite sort_by_Permutation. }
  rewrite length_take, !length_map. split_and!.
  - rewrite fmap_take. f_equal. change (map ?f onDay) with (f <$> onDay). rewrite <- list_fmap_compose. apply list_fmap_id.
  - lia.
  - rewrite <- Hlen. lia.
  - apply Forall_take, Forall_map, Forall_forall. intros it _. done.
Qed.

End Placing.

(** ** Days are read back as they were written *)

Lemma unsigned_digits s :
  truthy s = true → string_forall is_digit s = true → unsigned_decimal s = Some (inject_Z (digits_value 0 s)).
Proof.
  intros Ht Hs. unfold unsigned_decimal. rewrite span_digits_all by done. cbn iota beta. rewrite Ht. cbn [orb exponent mbind option_bind].
  change (exponent EmptyString) with (Some 0). cbn [mbind option_bind]. rewrite app_empty_r. cbn [String.length Z.of_nat].
  unfold scale10, inject_Z, Qmult. simpl. by rewrite Z.mul_1_r.
Qed.

Lemma numberOf_digits s :
  truthy s = true → string_forall is_digit s = true → numberOf s = Some (inject_Z (digits_value 0 s)).
Proof.
  intros Ht Hs. unfold numberOf. rewrite trim_id by (by apply digit_units).
  destruct s as [|c t]; [done|]. pose proof Hs as Hall. simpl in Hs. apply andb_true_iff in Hs as [Hc Hs].
  assert (∀ x, is_digit x = true → 48 <= code x <= 57) as Hcode.
  { intros x Hx. unfold is_digit in Hx. lia. }
  pose proof (Hcode c Hc). destruct t as [|x body]; [by apply unsigned_digits|].
  simpl in Hs. apply andb_true_iff in Hs as [Hx Hb]. pose proof (Hcode x Hx).
  assert (lower x = x) as ->.
  { unfold lower. repeat match goal with |- context [if ?b then _ else _] => destruct b eqn:?; [|done] end; lia. }
  rewrite (proj2 (Z.eqb_neq (code x) 120)), (proj2 (Z.eqb_neq (code x) 111)), (proj2 (Z.eqb_neq (code x) 98)),
    (proj2 (Z.eqb_neq (code c) 45)), (proj2 (Z.eqb_neq (code c) 43)) by lia.
  rewrite !andb_false_r. by apply unsigned_digits.
Qed.

(** The days whose year takes four digits and starts with none that is zero. *)
Definition long_year (n : Z) : Prop := 1000 <= getFullYear n <= 9999.

Lemma fixed_truthy w n : truthy (fixed (S w) n) = true.
Proof. unfold truthy. apply negb_true_iff, bool_decide_false. cbn [fixed]. by destruct (fixed w (n / 10)). Qed.

Lemma stringOfInt_year y : 1000 <= y <= 9999 → stringOfInt y = fixed 4 y.
Proof.
  intros Hy. rewrite <- (fixed_pad 4 y); [|by right|simpl; lia]. unfold padStart.
  assert (String.length (stringOfInt y) = 4%nat) as ->; [|done].
  assert (forallb (fun n => (String.length (stringOfInt n) =? 4)%nat) (seqZ 1000 9000) = true) as Hall by (vm_compute; reflexivity).
  rewrite forallb_forall in Hall. apply Nat.eqb_eq, Hall, list_elem_of_In, elem_of_seqZ. lia.
Qed.

Lemma isoDay_fixed n :
  long_year n →
  let '(y, m, d) := civil_of n in
  isoDay n = join "-" [fixed 4 y; fixed 2 m; fixed 2 d] ∧ 1000 <= y <= 9999 ∧ 1 <= m <= 12 ∧ 1 <= d <= 31 ∧ n = days_of y m d.
Proof.
  unfold long_year, isoDay, getFullYear, getMonth, getDate. pose proof (days_of_civil_of n) as H.
  destruct (civil_of n) as [[y m] d]. destruct H as (Hn & Hm & Hd). cbn [fst snd]. intros Hy.
  rewrite Z.sub_add, stringOfInt_year, !fixed_pad by (simpl; auto || lia). done.
Qed.

Lemma isoDay_iso n : long_year n → isoDay n = iso_day n.
Proof.
  intros Hn. pose proof (isoDay_fixed n Hn) as H. unfold long_year, getFullYear in Hn.
  pose proof (iso_day_fixed n) as H'. unfold four_digit_day in H'. destruct (civil_of n) as [[y m] d]. cbn [fst snd] in *.
  destruct H as [-> _]. destruct H' as [-> _]; [lia|done].
Qed.

Lemma parse_isoDay n : long_year n → parseDay (isoDay n) = Some n.
Proof.
  intros Hn. pose proof (isoDay_fixed n Hn) as H. destruct (civil_of n) as [[y m] d].
  destruct H as (-> & Hy & Hm & Hd & ->). unfold parseDay. change "-"%string with (String "-" EmptyString).
  rewrite split_join; [|done|repeat constructor; apply digits_no_dash, fixed_digits; lia].
  cbn [map]. rewrite !numberOf_digits by (apply fixed_truthy || (apply fixed_digits; lia)).
  rewrite !fixed_value by (simpl; lia). cbn -[Qminus inject_Z whole_part local_date days_of].
  assert (∀ z, 0 <= z → whole_part (inject_Z z) = z) as Hw.
  { intros z Hz. unfold whole_part. rewrite (proj2 (Qle_bool_iff 0 (inject_Z z))); [apply Qfloor_Z|].
    change 0%Q with (inject_Z 0). rewrite <- Zle_Qle. done. }
  assert (inject_Z m - 1 = inject_Z (m - 1))%Q as ->.
  { unfold inject_Z, Qminus, Qplus, Qopp. simpl. f_equal. lia. }
  rewrite !Hw by lia. f_equal. rewrite local_date_days by lia.
  replace ((m - 1) / 12) with 0 by div_lia. replace ((m - 1) mod 12 + 1) with m by div_lia. by rewrite Z.add_0_r.
Qed.

(** ** A drag keeps an item's length *)

(** Between some days, the clocks move by less than half a day. *)
Definition steady (z : Zone) (a b : Z) : Prop :=
  2 * Z.abs (@midnight_of z b - @midnight_of z a - (b - a) * 86400000) < 86400000.

Section Dragging.
Context `{!Zone}.

Lemma daysBetween_steady a b :
  long_year a → long_year b → steady _ a b → daysBetween (isoDay a) (isoDay b) = Some (b - a).
Proof.
  intros Ha Hb Hs. unfold daysBetween. rewrite !parse_isoDay by done. cbn [mbind option_bind]. f_equal.
  unfold steady in Hs. unfold js_round.
  set (x := midnight_of b - midnight_of a) in *.
  assert (inject_Z x / inject_Z 86400000 + (1 # 2) == (inject_Z (2 * x + 86400000)) / inject_Z 172800000)%Q as ->.
  { rewrite inject_Z_plus, inject_Z_mult. field. }
  change (Qfloor (inject_Z (2 * x + 86400000) / inject_Z 172800000)) with ((2 * x + 86400000) * 1 / 172800000).
  rewrite Z.mul_1_r. div_lia.
Qed.

(** Dragging an item moves both its ends by the days between where it was
    grabbed and where it was let go, so it stays as long as it was, whatever
    the clocks do on the way. *)
Theorem draggedSchedule_moves item a b grabbed to :
  ci_from item = isoDay a → ci_to item = isoDay b →
  long_year a → long_year b → long_year grabbed → long_year to → steady _ grabbed to →
  draggedSchedule item (isoDay to) (isoDay grabbed) = Some (isoDay (a + (to - grabbed)), isoDay (b + (to - grabbed))).
Proof.
  intros Ea Eb Ha Hb Hg Ht Hs. unfold draggedSchedule. rewrite daysBetween_steady by done. cbn [mbind option_bind].
  unfold shiftDay. rewrite Ea, Eb, !parse_isoDay by done. done.
Qed.
End Dragging.

(** A zone an hour ahead of UTC that is two ahead from 31 March 2024 to 27
    October. *)
Definition summer_zone : Zone := fun n =>
  n * 86400000 - (if (19814 <=? n) && (n <=? 20023) then 7200000 else 3600000).

Definition spring_item : CalendarItem :=
  mkCalendarItem kind_issue "1" (Some "ARM-1"%string) "Work" "2024-03-29" "2024-04-02" None false None false.

Lemma draggedSchedule_moves_witness :
  @draggedSchedule summer_zone spring_item (isoDay 19815) (isoDay 19812) = Some ("2024-04-01", "2024-04-05")%string.
Proof.
  assert (ci_from spring_item = isoDay 19811) as E1 by (vm_compute; reflexivity).
  assert (ci_to spring_item = isoDay 19815) as E2 by (vm_compute; reflexivity).
  assert (long_year 19811 ∧ long_year 19815 ∧ long_year 19812) as (L1 & L2 & L3) by (vm_compute; split_and!; congruence).
  assert (steady summer_zone 19812 19815) as Hs by (vm_compute; congruence).
  rewrite (@draggedSchedule_moves summer_zone spring_item 19811 19815 19812 19815 E1 E2 L1 L2 L3 L2 Hs).
  vm_compute. reflexivity.
Defined.

Definition spring_cells : list Cell := [cell_of 4 19814; cell_of 4 19815].

Lemma placeItems_shown_witness :
  ∃ di, jget (@placeItems summer_zone unitCollation spring_cells [spring_item] 4) (isoDay 19815) = Some di ∧
    Z.of_nat (length (di_shown di)) <= 4.
Proof.
  destruct (@placeItems_shown summer_zone unitCollation spring_cells [spring_item] 4 ltac:(lia)) as (sorted & _ & Hs).
  destruct (Hs (isoDay 19815)) as (di & E & _ & Hl & _); [right; left|].
  exists di. split; [exact E|exact Hl].
Defined.
