(* ===== verification/Week.v ===== *)
(** Working weeks and absences: [web/src/lib/week.ts]. *)

From Stdlib Require Import ZArith QArith Qround Lia Lqa Ascii String.
From stdpp Require Import base list strings list_numbers.
From S2P Require Import Prelude JsString Config JsDate DayText Scale ScaleFacts PlanPieces.

Open Scope Z_scope.

(** ** Weekdays: [api/availability.ts] *)

Inductive Weekday := mon | tue | wed | thu | fri | sat | sun.
#[export] Instance Weekday_eq : EqDecision Weekday.
Proof. solve_decision. Defined.

Definition WEEKDAYS : list Weekday := [mon; tue; wed; thu; fri; sat; sun].

Record Absence := mkAbsence {
  absence_id : string;
  absence_userId : string;
  absence_userName : string;
  absence_startsOn : string;
  absence_endsOn : string;
  absence_halfDay : bool;
}.

(** ** Hours *)

(** [Number(x.toFixed(2))] in whole hundredths, of a number that is not negative:
    the nearest, and the larger of two as near. *)
Definition hours_hundredths (minutes : Z) : Z :=
  js_round (inject_Z minutes / inject_Z MINUTES_PER_HOUR * inject_Z (10 ^ WORKING_HOURS_DECIMALS)).

Definition hoursText (minutes : Z) : string := stringOfHundredths (hours_hundredths minutes).

(** [text.replace(",", ".")]: the first comma. *)
Fixpoint comma_to_point (s : string) : string :=
  match s with
  | EmptyString => EmptyString
  | String c s' => if decide (c = ","%char) then String "." s' else String c (comma_to_point s')
  end.

Definition minutesFromHours (text : string) : option Z :=
  let trimmed := comma_to_point (trim text) in
  if decide (trimmed = EmptyString) then Some 0
  else
    hours ← numberOf trimmed;
    if negb (Qle_bool 0 hours) || negb (Qle_bool hours (inject_Z HOURS_PER_DAY)) then None
    else Some (js_round (hours * inject_Z MINUTES_PER_HOUR)).

(** The minutes by the names of the days; a day that is not there holds none. *)
Definition weekTotal (minutes : list (Weekday * Z)) : Z :=
  foldl (fun sum day => sum + default 0 (jget minutes day)) 0 WEEKDAYS.

(** ** Days *)

(** The text of a local date. *)
Definition today (now : Z) : string :=
  let '(y, m, d) := civil_of now in
  stringOfInt y +:+ "-" +:+ padStart 2 (stringOfInt m) +:+ "-" +:+ padStart 2 (stringOfInt d).

Definition absencesListedFrom (now : Z) : string := today (now - ABSENCES_LISTED_DAYS_BEHIND).

(** What a formatter of the reader's language makes of an instant; [None] is a
    locale it throws for. *)
Definition Formatter : Type := Z → option string.

Definition weekday_index (day : Weekday) : Z :=
  match day with mon => 0 | tue => 1 | wed => 2 | thu => 3 | fri => 4 | sat => 5 | sun => 6 end.

Definition weekday_text (day : Weekday) : string :=
  match day with mon => "mon" | tue => "tue" | wed => "wed" | thu => "thu" | fri => "fri" | sat => "sat" | sun => "sun" end.

(** [`${day}T00:00:00Z`] as an instant. *)
Definition midnight_utc (day : string) : option Z := parse_date (day +:+ "T00:00:00Z").

Definition weekdayName (format : Formatter) (day : Weekday) : option string :=
  date ← midnight_utc WEEKDAY_REFERENCE_MONDAY;
  Some (default (weekday_text day) (format (date + weekday_index day * MS_PER_DAY))).

Definition formatDay (format : Formatter) (day : string) : string :=
  match midnight_utc day with
  | None => day
  | Some date => default day (format date)
  end.

(** ** Absences *)

(** [t.schedule.absences]. *)
Record AbsenceWords := mkAbsenceWords {
  word_noFirstDay : string;
  word_lastBeforeFirst : string;
  word_tooLong : Z → string;
  word_halfDayIsOneDay : string;
  word_range : string → string → string;
  word_halfOf : string → string;
}.

Definition absence_en : AbsenceWords := mkAbsenceWords
  "Choose the first day away."
  "The last day is before the first. Swap them."
  (fun max => "One absence runs at most " +:+ stringOfInt max +:+ " days. Record a longer one in parts.")
  "Only a single day can be a half day. Make the last day the first, or untick half day."
  (fun first last_ => first +:+ " to " +:+ last_)
  (fun day => day +:+ ", half the day").

Definition absenceProblem (words : AbsenceWords) (startsOn endsOn : string) (halfDay : bool) : option string :=
  if negb (truthy startsOn) then Some (word_noFirstDay words)
  else if unit_compare endsOn startsOn <? 0 then Some (word_lastBeforeFirst words)
  else
    let days := a ← midnight_utc endsOn; b ← midnight_utc startsOn; Some (inject_Z (a - b) / inject_Z MS_PER_DAY)%Q in
    (* a number of days that is not one is not too many *)
    if from_option (fun days => Qle_bool (inject_Z ABSENCE_MAX_DAYS) days) false days then Some (word_tooLong words ABSENCE_MAX_DAYS)
    else if halfDay && negb (bool_decide (endsOn = startsOn)) then Some (word_halfDayIsOneDay words)
    else None.

Definition formatAbsence (words : AbsenceWords) (format : Formatter) (absence : Absence) : string :=
  let first := formatDay format (absence_startsOn absence) in
  if negb (bool_decide (absence_startsOn absence = absence_endsOn absence))
  then word_range words first (formatDay format (absence_endsOn absence))
  else if absence_halfDay absence then word_halfOf words first else first.

(** ** Hours are read back as they were written *)

(** The minutes of a day, from none to all of them, come back from the hours
    they are shown as. *)
Theorem hours_roundtrip minutes :
  0 <= minutes <= 1440 → minutesFromHours (hoursText minutes) = Some minutes.
Proof.
  intros Hm.
  assert (forallb (fun m => bool_decide (minutesFromHours (hoursText m) = Some m)) (seqZ 0 1441) = true) as Hall
    by (vm_compute; reflexivity).
  rewrite forallb_forall in Hall. specialize (Hall minutes).
  apply bool_decide_eq_true in Hall; [done|]. apply list_elem_of_In, elem_of_seqZ. lia.
Qed.

Lemma hours_roundtrip_witness : minutesFromHours (hoursText 455) = Some 455 ∧ hoursText 455 = "7.58"%string.
Proof. split; [apply (hours_roundtrip 455); lia|vm_compute; reflexivity]. Defined.

(** ** What is accepted *)

Lemma midnight_iso n : four_digit_day n → midnight_utc (iso_day n) = Some (n * MS_PER_DAY).
Proof.
  intros Hn. unfold midnight_utc, parse_date. change (iso_day n +:+ "T00:00:00Z") with (iso_day n +:+ String "T" "00:00:00Z").
  rewrite split_app_sep by (by apply iso_day_without).
  change (split "T" "00:00:00Z") with ["00:00:00Z"%string]. cbn iota beta. rewrite parse_iso_day by done.
  change (parse_time "00:00:00Z") with (Some 0). cbn [mbind option_bind]. f_equal. lia.
Qed.

(** An absence is accepted exactly when its last day is not before its first,
    it runs for at most the days one may, counting both, and it is a half day
    only of a single day. *)
Theorem absence_accepted words first last_ halfDay :
  four_digit_day first → four_digit_day last_ →
  absenceProblem words (iso_day first) (iso_day last_) halfDay = None ↔
    first <= last_ ∧ last_ - first + 1 <= ABSENCE_MAX_DAYS ∧ (halfDay = true → last_ = first).
Proof.
  intros Hf Hl. unfold absenceProblem.
  rewrite iso_day_truthy.
  cbn [negb]. pose proof (iso_day_order last_ first Hl Hf) as Ho.
  destruct (Z.ltb_spec (unit_compare (iso_day last_) (iso_day first)) 0); [split; [done|lia]|].
  rewrite !midnight_iso by done. cbn [mbind option_bind from_option].
  assert (inject_Z (last_ * MS_PER_DAY - first * MS_PER_DAY) / inject_Z MS_PER_DAY == inject_Z (last_ - first))%Q as Hq.
  { rewrite <- Z.mul_sub_distr_r, inject_Z_mult. apply Qdiv_mult_l. unfold MS_PER_DAY. discriminate. }
  destruct (Qle_bool _ _) eqn:E.
  { apply Qle_bool_iff in E. rewrite Hq, <- Zle_Qle in E. split; [done|lia]. }
  assert (¬ ABSENCE_MAX_DAYS <= last_ - first) as Hmax.
  { rewrite Zle_Qle, <- Hq, <- Qle_bool_iff. congruence. }
  case_bool_decide as Ee.
  - apply iso_day_inj in Ee; [|done..]. subst. rewrite andb_false_r. split; [intros _|done]. split_and!; lia || done.
  - assert (last_ ≠ first) by (intros ->; done). rewrite andb_true_r.
    destruct halfDay; split; [done|intros (_ & _ & Heq); by specialize (Heq eq_refl)|intros _; split_and!; lia || done|done].
Qed.

Lemma absence_accepted_witness :
  absenceProblem absence_en (iso_day 19783) (iso_day 20148) false = None.
Proof. apply absence_accepted; [vm_compute; split; congruence..|]. split_and!; [lia|vm_compute; congruence|done]. Defined.
