(* ===== verification/DashChart.v ===== *)
(** The chart widget: [web/src/features/dashboard/chart.ts].

    Which colour a group wears, how a tail folds into Other, where an arc or a
    bar sits.  Values are exact rationals. *)

From Stdlib Require Import ZArith QArith Qround Qminmax Lia Lqa Ascii String.
From stdpp Require Import base sets list strings sorting.
From S2P Require Import Prelude JsString Config Scale.

Open Scope Z_scope.

(** ** Data: [api/reports.tsx] and [charts.tsx] *)

Record ChartPart := mkChartPart { part_label : string; part_value : Q }.

Record ChartGroup := mkChartGroup {
  cg_label : string;
  cg_category : option string;
  cg_value : Q;
  cg_parts : list ChartPart;
}.

Record ChartPoint := mkChartPoint { cp_start : string; cp_value : Q }.
Record ChartLine := mkChartLine { cl_name : string; cl_points : list ChartPoint }.

Record ChartSeriesReport := mkChartSeriesReport {
  csr_series : list ChartLine;
  csr_interval : string;
  csr_days : Z;
  csr_measure : string;
  csr_groupBy : option string;
  csr_counts : string;
}.

Record SeriesPoint := mkSeriesPoint { sp_x : Z; sp_y : Q }.

Record Series := mkSeries {
  series_name : string;
  series_tone : string;
  series_points : list SeriesPoint;
  series_dashed : bool;
  series_step : bool;
}.

(** ** The fields of a group *)

Inductive GroupField :=
| by_status | by_statusCategory | by_type | by_priority | by_assignee
| by_team | by_milestone | by_label | by_fixVersion | by_component.

Definition GROUP_FIELDS : list GroupField :=
  [by_status; by_statusCategory; by_type; by_priority; by_assignee; by_team; by_milestone; by_label; by_fixVersion; by_component].

(** [t.dashboard.chart.fields]. *)
Record FieldWords := mkFieldWords {
  word_status : string; word_statusCategory : string; word_type : string; word_priority : string;
  word_assignee : string; word_team : string; word_milestone : string; word_label : string;
  word_fixVersion : string; word_component : string;
}.

Definition fields_en : FieldWords :=
  mkFieldWords "Status" "Status category" "Issue type" "Priority" "Assignee" "Team" "Milestone" "Label" "Fix version" "Component".

Definition fieldLabel (words : FieldWords) (field : GroupField) : string :=
  match field with
  | by_status => word_status words
  | by_statusCategory => word_statusCategory words
  | by_type => word_type words
  | by_priority => word_priority words
  | by_assignee => word_assignee words
  | by_team => word_team words
  | by_milestone => word_milestone words
  | by_label => word_label words
  | by_fixVersion => word_fixVersion words
  | by_component => word_component words
  end.

(** ** Colours *)

Definition CHART_TONES : list string :=
  ["text-chart-1"; "text-chart-2"; "text-chart-3"; "text-chart-4"; "text-chart-5"; "text-chart-6"]%string.

Definition OTHER : string := "Other".
Definition OTHER_TONE : string := "text-ink-subtle".

Definition categoryTone : list (string * string) :=
  [("todo", "text-status-todo"); ("in_progress", "text-status-progress"); ("done", "text-status-done")]%string.

Definition tone_at (index : nat) : string := nth (index mod length CHART_TONES) CHART_TONES EmptyString.

Section Colours.
Context `{!Collation}.

Definition alphabetical (names : list string) : list string := sort_by localeCompare names.

Definition named_tones (groups : list ChartGroup) : list (string * string) :=
  let named := alphabetical (cg_label <$> filter (fun g => cg_label g ≠ OTHER) groups) in
  foldl (fun tones '(index, label) => jset tones label (tone_at index)) [] (imap pair named).

Definition category_tone (tones : list (string * string)) (g : ChartGroup) : list (string * string) :=
  match cg_category g with
  | Some c => match jget categoryTone c with Some tone => jset tones (cg_label g) tone | None => tones end
  | None => tones
  end.

Definition tonesFor (groups : list ChartGroup) : list (string * string) :=
  let tones := foldl category_tone (named_tones groups) groups in
  if existsb (fun g => bool_decide (cg_label g = OTHER)) groups then jset tones OTHER OTHER_TONE else tones.

(** The names a stack is split by. *)
Definition segmentNames (groups : list ChartGroup) : list string :=
  alphabetical (set_of (concat (map (fun g => part_label <$> cg_parts g) groups))).

(** [names.indexOf(name)]; -1 when it is not there. *)
Fixpoint indexOf (names : list string) (name : string) : Z :=
  match names with
  | [] => -1
  | n :: names' =>
      if decide (n = name) then 0
      else let i := indexOf names' name in if i =? -1 then -1 else i + 1
  end.

Definition seriesFrom (report : ChartSeriesReport) : list Series :=
  let names := alphabetical (cl_name <$> csr_series report) in
  map (fun line =>
    mkSeries (cl_name line) (tone_at (Z.to_nat (indexOf names (cl_name line))))
      (imap (fun x point => mkSeriesPoint (Z.of_nat x) (cp_value point)) (cl_points line)) false false)
    (csr_series report).
End Colours.

(** ** The tail *)

Definition sum_of {A} (value : A → Q) (l : list A) : Q := foldl (fun sum x => sum + value x)%Q 0%Q l.

Definition add_part (parts : list (string * Q)) (part : ChartPart) : list (string * Q) :=
  jset parts (part_label part) (default 0%Q (jget parts (part_label part)) + part_value part)%Q.

(** [b.value - a.value]. *)
Definition by_value (a b : ChartPart) : Z := q_sub (part_value b) (part_value a).

Definition other_group (tail : list ChartGroup) : ChartGroup :=
  let parts := foldl add_part [] (concat (map cg_parts tail)) in
  mkChartGroup OTHER None (sum_of cg_value tail)
    (sort_by by_value (map (fun '(label, value) => mkChartPart label value) parts)).

Definition foldTail (groups : list ChartGroup) (max : Z) : list ChartGroup :=
  if Z.of_nat (length groups) <=? max then groups
  else slice_to (max - 1) groups ++ [other_group (slice_from (max - 1) groups)].

(** ** Donuts *)

Record Arc := mkArc { arc_label : string; arc_value : Q; arc_start : Q; arc_end : Q; arc_share : Q }.

Fixpoint arcs_from (total at_ : Q) (groups : list ChartGroup) : list Arc :=
  match groups with
  | [] => []
  | g :: groups' =>
      let share := (cg_value g / total)%Q in
      mkArc (cg_label g) (cg_value g) at_ (at_ + share)%Q share :: arcs_from total (at_ + share)%Q groups'
  end.

Definition positive (q : Q) : bool := negb (Qle_bool q 0).

Definition donutLayout (groups : list ChartGroup) : list Arc :=
  let total := sum_of cg_value groups in
  if Qle_bool total 0 then [] else arcs_from total 0 (filter (fun g => positive (cg_value g) = true) groups).

(** ** Columns *)

Record Segment := mkSegment { seg_label : string; seg_value : Q; seg_height : Q }.
Record Column := mkColumn { col_label : string; col_value : Q; col_height : Q; col_segments : list Segment }.

Definition tallest (groups : list ChartGroup) : Q := foldl Qmax 0%Q (map cg_value groups).

Definition columnLayout (groups : list ChartGroup) : list Column :=
  let max := tallest groups in
  let scale (value : Q) := if positive max then (value / max)%Q else 0%Q in
  map (fun g =>
    mkColumn (cg_label g) (cg_value g) (scale (cg_value g))
      (map (fun part => mkSegment (part_label part) (part_value part) (scale (part_value part))) (cg_parts g))) groups.

(** ** Figures *)

Definition is_integer (value : Q) : bool := (Zpos (Qden (Qred value)) =? 1).

(** [value.toFixed(1)] of a number that is not negative. *)
Definition tenths (value : Q) : string :=
  let n := js_round (value * 10) in
  stringOfInt (n / 10) +:+ "." +:+ stringOfInt (n mod 10).

Definition figure (value : Q) : string :=
  if is_integer value then stringOfInt (Qnum (Qred value))
  else if Qle_bool 0 value then tenths value else "-" +:+ tenths (- value).

Definition round (v : Q) : Q := (inject_Z (js_round (v * 100)) / 100)%Q.

Example figure_whole : figure (14 # 2) = "7"%string. Proof. reflexivity. Qed.
Example figure_tenth : figure (-(13 # 4)) = "-3.3"%string. Proof. reflexivity. Qed.

(** ** Sums *)

Definition total_of {A} (value : A → Q) (l : list A) : Q := foldr (fun x acc => value x + acc)%Q 0%Q l.

Lemma positive_spec q : positive q = true ↔ (0 < q)%Q.
Proof.
  unfold positive. destruct (Qlt_le_dec 0 q) as [Hq|Hq].
  - split; [done|]. intros _. destruct (Qle_bool q 0) eqn:E; [|done]. apply Qle_bool_iff in E. lra.
  - split; [|lra]. by rewrite (proj2 (Qle_bool_iff q 0) Hq).
Qed.

Section Sums.
Context {A : Type} (value : A → Q).

Lemma total_of_app l1 l2 : (total_of value (l1 ++ l2) == total_of value l1 + total_of value l2)%Q.
Proof. induction l1 as [|x l1 IH]; simpl; [ring|]. rewrite IH. ring. Qed.

Lemma foldl_sum a l : (foldl (fun sum x => sum + value x)%Q a l == a + total_of value l)%Q.
Proof. revert a. induction l as [|x l IH]; intros a; simpl; [ring|]. rewrite IH. ring. Qed.

Lemma sum_of_total l : (sum_of value l == total_of value l)%Q.
Proof. unfold sum_of. rewrite foldl_sum. ring. Qed.

Lemma total_of_Permutation l1 l2 : l1 ≡ₚ l2 → (total_of value l1 == total_of value l2)%Q.
Proof.
  induction 1 as [|x l1 l2 _ IH|x y l|l1 l2 l3 _ IH1 _ IH2]; simpl; [ring|by rewrite IH|ring|by rewrite IH1].
Qed.

Lemma total_of_nonneg l : Forall (fun x => 0 <= value x)%Q l → (0 <= total_of value l)%Q.
Proof. induction 1; simpl; lra. Qed.

Lemma total_of_filter_positive l :
  Forall (fun x => 0 <= value x)%Q l → (total_of value (filter (fun x => positive (value x) = true) l) == total_of value l)%Q.
Proof.
  induction 1 as [|x l Hx _ IH]; [done|]. rewrite filter_cons. destruct (decide _) as [Hp|Hp]; simpl; rewrite IH; [done|].
  assert (¬ 0 < value x)%Q by (by rewrite <- positive_spec). lra.
Qed.
End Sums.

(** ** The tail keeps what it folds *)

(** What a label comes to over a list of parts. *)
Definition part_sum (label : string) (parts : list ChartPart) : Q :=
  total_of part_value (filter (fun p => part_label p = label) parts).

Lemma part_sum_cons label p parts :
  (part_sum label (p :: parts) == (if decide (part_label p = label) then part_value p else 0) + part_sum label parts)%Q.
Proof. unfold part_sum. rewrite filter_cons. case_decide; simpl; [done|ring]. Qed.

Lemma part_sum_app label l1 l2 : (part_sum label (l1 ++ l2) == part_sum label l1 + part_sum label l2)%Q.
Proof. unfold part_sum. rewrite filter_app. apply total_of_app. Qed.

Lemma add_parts_get label acc parts :
  (default 0%Q (jget (foldl add_part acc parts) label) == default 0%Q (jget acc label) + part_sum label parts)%Q.
Proof.
  revert acc. induction parts as [|p parts IH]; intros acc; simpl; [unfold part_sum; simpl; ring|].
  rewrite IH, part_sum_cons. unfold add_part at 1. rewrite jget_jset.
  case_decide; subst; simpl; ring.
Qed.

Lemma add_parts_NoDup acc parts : NoDup (jkeys acc) → NoDup (jkeys (foldl add_part acc parts)).
Proof. revert acc. induction parts as [|p parts IH]; intros acc Hacc; simpl; [done|]. by apply IH, NoDup_jkeys_jset. Qed.

Lemma part_sum_entries label (es : list (string * Q)) :
  NoDup (jkeys es) → (part_sum label (map (fun '(l, v) => mkChartPart l v) es) == default 0%Q (jget es label))%Q.
Proof.
  unfold jkeys. induction es as [|[l v] es IH]; csimpl; [done|]. rewrite NoDup_cons. intros [Hl Hes].
  rewrite part_sum_cons. simpl. rewrite (IH Hes). case_decide; [subst|ring].
  assert (jget es label = None) as -> by (by apply jget_None). simpl. ring.
Qed.

Lemma part_sum_Permutation label l1 l2 : l1 ≡ₚ l2 → (part_sum label l1 == part_sum label l2)%Q.
Proof. intros H. apply total_of_Permutation. by rewrite H. Qed.

Definition parts_of (groups : list ChartGroup) : list ChartPart := concat (map cg_parts groups).

Lemma other_parts label tail :
  (part_sum label (cg_parts (other_group tail)) == part_sum label (parts_of tail))%Q.
Proof.
  unfold other_group; cbn [cg_parts]. rewrite (part_sum_Permutation _ _ _ (sort_by_Permutation _ _)).
  rewrite part_sum_entries by (apply add_parts_NoDup; constructor).
  rewrite add_parts_get. simpl. unfold parts_of. ring.
Qed.

(** Folding the tail loses nothing: the chart still adds up to the same
    total, and so does each part of its stacks; there are never more groups
    than the palette has colours, and the groups before the fold are kept as
    they were, in order. *)
Theorem foldTail_conserves groups max :
  1 <= max →
  (sum_of cg_value (foldTail groups max) == sum_of cg_value groups)%Q ∧
  (∀ label, part_sum label (parts_of (foldTail groups max)) == part_sum label (parts_of groups))%Q ∧
  Z.of_nat (length (foldTail groups max)) <= max ∧
  take (Z.to_nat (max - 1)) (foldTail groups max) = take (Z.to_nat (max - 1)) groups.
Proof.
  intros Hmax. unfold foldTail. destruct (Z.leb_spec (Z.of_nat (length groups)) max) as [Hle|Hgt]; [done|].
  unfold slice_to, slice_from, slice_index. rewrite (proj2 (Z.ltb_ge (max - 1) 0)) by lia.
  set (n := Z.to_nat (max - 1)). assert (length (take n groups) = n) as Hn by (rewrite length_take; lia).
  split; [|split; [|split]].
  - rewrite !sum_of_total, total_of_app. cbn [total_of foldr other_group cg_value]. rewrite sum_of_total.
    rewrite <- (take_drop n groups) at 3. rewrite total_of_app. ring.
  - intros label. unfold parts_of at 1. rewrite map_app, concat_app, part_sum_app. cbn [map concat].
    rewrite app_nil_r, other_parts. rewrite <- (take_drop n groups) at 3.
    unfold parts_of. rewrite map_app, concat_app, part_sum_app. ring.
  - rewrite length_app. simpl. lia.
  - rewrite take_app_le by lia. rewrite take_take. f_equal. lia.
Qed.

(** ** The slices go round once *)

(** Each slice starts where the one before it ends. *)
Inductive goes_round : Q → Q → list Arc → Prop :=
| round_done a b : (a == b)%Q → goes_round a b []
| round_arc a b arc arcs :
    arc_start arc = a → (arc_start arc < arc_end arc)%Q → (arc_end arc - arc_start arc == arc_share arc)%Q →
    goes_round (arc_end arc) b arcs → goes_round a b (arc :: arcs).

Lemma goes_round_eq a b c arcs : (b == c)%Q → goes_round a b arcs → goes_round a c arcs.
Proof. intros Hbc. induction 1; constructor; try done; [lra|by auto]. Qed.

Lemma arcs_go_round total a groups :
  (0 < total)%Q → Forall (fun g => 0 < cg_value g)%Q groups →
  goes_round a (a + total_of cg_value groups / total) (arcs_from total a groups).
Proof.
  intros Ht Hg. revert a. induction Hg as [|g groups Hv _ IH]; intros a; simpl.
  - constructor. field. lra.
  - assert (0 < cg_value g / total)%Q by (apply Qlt_shift_div_l; lra).
    constructor; simpl; [done|lra|ring|].
    eapply goes_round_eq; [|apply IH]. field. lra.
Qed.

Lemma arcs_labels total a groups : arc_label <$> arcs_from total a groups = cg_label <$> groups.
Proof. revert a. induction groups as [|g groups IH]; intros a; csimpl; [done|]. by rewrite IH. Qed.

(** The slices of a donut go round exactly once: the first starts at the
    top, each starts where the one before it ends, none is empty, and the last
    ends at the top again; and there is one for each group with anything in
    it, in order. *)
Theorem donut_whole_turn groups :
  Forall (fun g => 0 <= cg_value g)%Q groups → Exists (fun g => 0 < cg_value g)%Q groups →
  goes_round 0 1 (donutLayout groups) ∧
  arc_label <$> donutLayout groups = cg_label <$> filter (fun g => positive (cg_value g) = true) groups.
Proof.
  intros Hnn Hex. unfold donutLayout.
  assert (0 < total_of cg_value groups)%Q as Ht.
  { induction Hex as [g l Hg|g l _ IH]; inversion_clear Hnn as [|? ? Hv Hl]; simpl.
    - pose proof (total_of_nonneg cg_value l Hl). lra.
    - specialize (IH Hl). lra. }
  destruct (Qle_bool (sum_of cg_value groups) 0) eqn:E.
  { apply Qle_bool_iff in E. rewrite sum_of_total in E. lra. }
  split; [|apply arcs_labels].
  eapply goes_round_eq; [|apply arcs_go_round].
  - rewrite total_of_filter_positive, sum_of_total by done. field. lra.
  - by rewrite sum_of_total.
  - apply Forall_forall. intros g [Hg _]%list_elem_of_filter. by apply positive_spec.
Qed.

Definition two_groups : list ChartGroup :=
  [mkChartGroup "Bug" None 3 [mkChartPart "todo" 1; mkChartPart "done" 2]; mkChartGroup "Task" None 1 [mkChartPart "done" 1]].

Lemma foldTail_conserves_witness : (sum_of cg_value (foldTail two_groups 1) == sum_of cg_value two_groups)%Q.
Proof. apply (foldTail_conserves two_groups 1). lia. Defined.

Lemma donut_whole_turn_witness : goes_round 0 1 (donutLayout two_groups).
Proof.
  apply donut_whole_turn; [repeat constructor; by apply Qle_bool_iff|].
  constructor 1. reflexivity.
Defined.

(** ** A colour follows the entity *)

Section ColourFacts.
Context `{!Collation}.

Definition known_tone (label : string) (g : ChartGroup) : option string :=
  if decide (cg_label g = label) then c ← cg_category g; jget categoryTone c else None.

Lemma category_tones_get acc groups label :
  jget (foldl category_tone acc groups) label =
    match last (omap (known_tone label) groups) with Some tone => Some tone | None => jget acc label end.
Proof.
  induction groups as [|g groups IH] using rev_ind; [done|].
  rewrite foldl_app, omap_app. cbn [foldl]. rewrite omap_cons. set (m := foldl category_tone acc groups) in *.
  change (omap (known_tone label) []) with (@nil string).
  unfold category_tone, known_tone at 2.
  destruct (cg_category g) as [c|]; cbn [mbind option_bind]; [destruct (jget categoryTone c) as [tone|]|].
  - rewrite jget_jset. case_decide; [by rewrite last_snoc|]. by rewrite app_nil_r.
  - case_decide; by rewrite app_nil_r.
  - case_decide; by rewrite app_nil_r.
Qed.

Lemma known_tones_short label groups :
  NoDup (cg_label <$> groups) → (length (omap (known_tone label) groups) <= 1)%nat.
Proof.
  induction groups as [|g groups IH]; csimpl; [lia|]. rewrite NoDup_cons. intros [Hg Hnd].
  unfold known_tone at 1. case_decide as E; [|by apply IH].
  assert (omap (known_tone label) groups = []) as ->.
  { clear -Hg E. induction groups as [|g' groups IH]; [done|]. rewrite omap_cons. csimpl in Hg.
    apply not_elem_of_cons in Hg as [Hne Hg]. unfold known_tone at 1.
    rewrite decide_False by congruence. auto. }
  destruct (cg_category g) as [c|]; cbn [mbind option_bind]; [destruct (jget categoryTone c)|]; simpl; lia.
Qed.

Lemma Permutation_short {A} (l1 l2 : list A) : l1 ≡ₚ l2 → (length l1 <= 1)%nat → l1 = l2.
Proof.
  intros Hp Hl. destruct l1 as [|x [|]]; simpl in Hl; [|by apply Permutation_singleton_l in Hp|lia].
  by apply Permutation_nil_l in Hp.
Qed.

(** The collation tells the labels apart. *)
Definition separates (labels : list string) : Prop :=
  ∀ a b, a ∈ labels → b ∈ labels → localeCompare a b = 0 → a = b.

Lemma alphabetical_unique l1 l2 : l1 ≡ₚ l2 → separates l1 → alphabetical l1 = alphabetical l2.
Proof.
  intros Hp Hs. unfold alphabetical.
  apply (StronglySorted_unique_strong (cmp_le localeCompare)); [|apply sort_by_sorted, _|apply sort_by_sorted, _|by rewrite !sort_by_Permutation].
  intros a b Ha Hb Hab Hba. apply Hs.
  - by apply elem_of_sort_by in Ha.
  - rewrite Hp. by apply elem_of_sort_by in Hb.
  - unfold cmp_le in *. pose proof (cmp_antisym (cmp := localeCompare) a b). lia.
Qed.

(** A group by its name and what it is. *)
Definition entity (g : ChartGroup) : string * option string := (cg_label g, cg_category g).

Lemma known_tone_entity label (groups : list ChartGroup) :
  omap (known_tone label) groups =
    omap (fun '(l, category) => if decide (l = label) then c ← category; jget categoryTone c else None) (entity <$> groups).
Proof. induction groups as [|g groups IH]; [done|]. csimpl. rewrite IH. done. Qed.

Lemma labels_entity (groups : list ChartGroup) : cg_label <$> groups = (entity <$> groups).*1.
Proof. by rewrite <- list_fmap_compose. Qed.

Lemma named_labels (groups : list ChartGroup) : cg_label <$> filter (fun g => cg_label g ≠ OTHER) groups = filter (fun l => l ≠ OTHER) (cg_label <$> groups).
Proof. induction groups as [|g groups IH]; [done|]. csimpl. rewrite !filter_cons. case_decide; csimpl; by rewrite IH. Qed.

(** Colour follows the entity, not its rank: two readings of a chart with
    the same groups, whatever their sizes, parts and order today, give every
    label the same colour. *)
Theorem tones_follow_entity groups groups' label :
  entity <$> groups ≡ₚ entity <$> groups' → NoDup (cg_label <$> groups) → separates (cg_label <$> groups) →
  jget (tonesFor groups) label = jget (tonesFor groups') label.
Proof.
  intros Hp Hnd Hs.
  assert (cg_label <$> groups ≡ₚ cg_label <$> groups') as Hl by (rewrite !labels_entity; by f_equiv).
  assert (named_tones groups = named_tones groups') as Hn.
  { unfold named_tones. rewrite (alphabetical_unique _ (cg_label <$> filter (fun g => cg_label g ≠ OTHER) groups')); [done| |].
    - rewrite !named_labels. by rewrite Hl.
    - rewrite named_labels. intros a b [_ Ha]%list_elem_of_filter [_ Hb]%list_elem_of_filter. by apply Hs. }
  assert (omap (known_tone label) groups = omap (known_tone label) groups') as Hk.
  { apply Permutation_short; [|by apply known_tones_short]. rewrite !known_tone_entity. by rewrite Hp. }
  assert (existsb (fun g => bool_decide (cg_label g = OTHER)) groups = existsb (fun g => bool_decide (cg_label g = OTHER)) groups') as Ho.
  { apply eq_true_iff_eq. rewrite !existsb_exists. setoid_rewrite bool_decide_eq_true.
    assert (∀ gs, (∃ g, In g gs ∧ cg_label g = OTHER) ↔ OTHER ∈ cg_label <$> gs) as E.
    { intros gs. rewrite list_elem_of_fmap. setoid_rewrite list_elem_of_In. naive_solver. }
    rewrite !E. by rewrite Hl. }
  unfold tonesFor. rewrite Ho. destruct (existsb _ groups'); rewrite ?jget_jset, ?category_tones_get, Hk, Hn; done.
Qed.
End ColourFacts.

Definition swapped_groups : list ChartGroup :=
  [mkChartGroup "Task" None 9 []; mkChartGroup "Bug" None 3 []].

Lemma tones_follow_entity_witness :
  jget (@tonesFor unitCollation two_groups) "Task" = jget (@tonesFor unitCollation swapped_groups) "Task".
Proof.
  apply tones_follow_entity.
  - apply Permutation_swap.
  - apply (bool_decide_unpack _). vm_compute. exact I.
  - intros a b _ _ H. by apply unit_compare_eq.
Defined.
