(* ===== verification/DashBurndown.v ===== *)
(** The burndown: [web/src/features/dashboard/burndown.ts].

    The days a sprint's chart spans, its three lines, and what is said under
    it.  Values are exact rationals. *)

From Stdlib Require Import ZArith QArith Qround Lia Lqa Ascii String.
From stdpp Require Import base sets list strings sorting.
From S2P Require Import Prelude JsString Config JsDate DayText Scale ScaleFacts DashChart.

Open Scope Z_scope.

(** ** Data: [api/reports.tsx] *)

Record SprintSummary := mkSprintSummary {
  summary_id : string;
  summary_name : string;
  summary_startsOn : option string;
  summary_endsOn : option string;
}.

Record BurndownPoint := mkBurndownPoint {
  bp_day : string;
  bp_scope : Q;
  bp_done : Q;
  bp_remaining : Q;
  bp_issues : Z;
  bp_issuesDone : Z;
  bp_unestimated : Z;
}.

Record SprintBurndown := mkSprintBurndown {
  curve_sprint : SprintSummary;
  curve_points : list BurndownPoint;
  curve_live : bool;
}.

(** [t.dashboard.burndown] and [t.dashboard.chart.dayMonth]. *)
Record BurndownWords := mkBurndownWords {
  word_scope : string;
  word_ideal : string;
  word_remaining : string;
  word_noDay : string;
  word_left : Q → Q → string;
  word_scopeMoved : Q → Q → string;
  word_unestimated : Z → string;
  word_issuesDone : Z → Z → string;
  word_dayMonth : Z → Z → string;
}.

(** ** The days of the chart *)

(** [Math.round]; [None] is [NaN], the time of a date that could not be read. *)
Definition dayIndex (from : Z) (iso : string) : option Z :=
  t ← parse_date (sliceTo 10 iso); Some (js_round (inject_Z (t - from) / inject_Z MS_PER_DAY)).

(** [[a, b].filter(Boolean).sort()]. *)
Definition given_days (a b : option string) : list string :=
  sort_by unit_compare (filter (fun d => truthy d = true) (omap (fun o => o) [a; b])).

Definition day_part (iso : string) : string := sliceTo 10 iso.

(** The first and the last day as texts; [now] is the present. *)
Definition span_days (curve : SprintBurndown) (now : Z) : string * string :=
  let days := map (fun p => day_part (bp_day p)) (curve_points curve) in
  let firstDays := given_days (day_part <$> summary_startsOn (curve_sprint curve)) (head days) in
  let lastDays := given_days (day_part <$> summary_endsOn (curve_sprint curve)) (last days) in
  let first := default (iso_slice now) (head firstDays) in
  let last_ := default first (last lastDays) in
  (first, if unit_compare last_ first <? 0 then first else last_).

Definition chartSpan (curve : SprintBurndown) (now : Z) : option Z * option Z :=
  let '(first, last_) := span_days curve now in (parse_date first, parse_date last_).

(** ** The three lines *)

Record ChartDot := mkChartDot { dot_x : option Z; dot_y : Q }.

Record Line := mkLine {
  line_name : string;
  line_tone : string;
  line_points : list ChartDot;
  line_dashed : bool;
  line_step : bool;
}.

(** [Math.max(1, n)], where a value that is not a number stays one. *)
Definition at_least_one (n : option Z) : option Z := Z.max 1 <$> n.

Definition burndownSeries (words : BurndownWords) (curve : SprintBurndown) (now : Z) : option (list Line) :=
  let '(from, to) := chartSpan curve now in
  let index iso := f ← from; dayIndex f iso in
  let at_ (p : BurndownPoint) := index (bp_day p) in
  let remaining := map (fun p => mkChartDot (at_ p) (bp_remaining p)) (curve_points curve) in
  let scope := map (fun p => mkChartDot (at_ p) (bp_scope p)) (curve_points curve) in
  (* a span that ends on no day throws where it is written as text *)
  endsOn ← match summary_endsOn (curve_sprint curve) with Some d => Some d | None => iso_slice <$> to end;
  let lastDay := at_least_one (index endsOn) in
  let ideal := match head (curve_points curve) with
               | Some first => [mkChartDot (at_ first) (bp_scope first); mkChartDot lastDay 0]
               | None => []
               end in
  Some [mkLine (word_scope words) "text-ink-subtle" scope false true;
        mkLine (word_ideal words) "text-ink-muted" ideal true false;
        mkLine (word_remaining words) "text-accent" remaining false false].

(** ** What is said under it *)

Definition dot_separator : string := " " +:+ String (unit_of 183) " ".

Definition describeScope (words : BurndownWords) (curve : SprintBurndown) : string :=
  match head (curve_points curve), last (curve_points curve) with
  | Some first, Some last_ =>
      join dot_separator
        ([word_left words (bp_remaining last_) (bp_scope last_)] ++
         (if Qeq_bool (bp_scope last_) (bp_scope first) then [] else [word_scopeMoved words (bp_scope first) (bp_scope last_)]) ++
         (if 0 <? bp_unestimated last_ then [word_unestimated words (bp_unestimated last_)] else []) ++
         [word_issuesDone words (bp_issuesDone last_) (bp_issues last_)])
  | _, _ => word_noDay words
  end.

(** [None] is the label of a day that could not be read. *)
Definition axisLabels (words : BurndownWords) (curve : SprintBurndown) (now : Z) : list (option string) :=
  let '(from, to) := chartSpan curve now in
  let label t := word_dayMonth words (getUTCDate t) (getUTCMonth t + 1) in
  (* [new Date] of a middle that is not whole drops the fraction *)
  let mid := f ← from; t ← to; Some (Z.quot (f + t) 2) in
  [label <$> from; label <$> mid; label <$> to].

(** ** Every day is on the chart *)

Definition on_day (text : string) (n : Z) : Prop := four_digit_day n ∧ day_part text = iso_day n.

(** An optional date that is a day, if it is given. *)
Definition maybe_day (text : option string) (n : option Z) : Prop :=
  match text, n with Some text, Some n => on_day text n | None, None => True | _, _ => False end.

Lemma iso_day_le a b : four_digit_day a → four_digit_day b → (unit_compare (iso_day a) (iso_day b) <=? 0) = (a <=? b).
Proof.
  intros Ha Hb. pose proof (iso_day_order a b Ha Hb).
  destruct (Z.leb_spec (unit_compare (iso_day a) (iso_day b)) 0), (Z.leb_spec a b); lia.
Qed.

Lemma given_days_spec sa sb a b :
  maybe_day sa a → maybe_day sb b →
  head (given_days (day_part <$> sa) (day_part <$> sb)) = iso_day <$> union_with (fun x y => Some (Z.min x y)) a b ∧
  last (given_days (day_part <$> sa) (day_part <$> sb)) = iso_day <$> union_with (fun x y => Some (Z.max x y)) a b.
Proof.
  destruct sa as [sa|], a as [a|]; try done; destruct sb as [sb|], b as [b|]; try done; intros Ha Hb;
    unfold given_days; rewrite ?omap_cons; cbn [fmap option_fmap option_map omap list_omap];
    repeat match goal with H : maybe_day (Some _) _ |- _ => destruct H as [? ->] end;
    rewrite ?filter_cons, ?decide_True by apply iso_day_truthy; cbn [filter list_filter sort_by foldr sort_insert]; [|done..].
  rewrite iso_day_le by done. destruct (Z.leb_spec a b); simpl.
  - rewrite Z.min_l, Z.max_r by lia. done.
  - rewrite Z.min_r, Z.max_l by lia. done.
Qed.

Lemma slice_ten s : (String.length s <= 10)%nat → sliceTo 10 s = s.
Proof.
  generalize 10%nat. intros n. revert s. induction n as [|n IH]; intros [|c s] H; simpl in *; try done; [lia|].
  rewrite IH by lia. done.
Qed.

Lemma iso_day_length n : four_digit_day n → String.length (iso_day n) = 10%nat.
Proof.
  intros Hn. pose proof (iso_day_fixed n Hn) as H. destruct (civil_of n) as [[y m] d]. destruct H as [-> _].
  rewrite !length_app_s, !fixed_length. done.
Qed.

Lemma iso_day_no_T n : four_digit_day n → parse_date (iso_day n) = Some (n * MS_PER_DAY).
Proof.
  intros Hn. unfold parse_date. rewrite <- (parse_iso_day n Hn).
  rewrite split_no_sep; [done|by apply iso_day_without].
Qed.

Lemma dayIndex_spec f text n : on_day text n → dayIndex (f * MS_PER_DAY) text = Some (n - f).
Proof.
  intros [Hn E]. unfold dayIndex. unfold day_part in E. rewrite E, iso_day_no_T by done. cbn [mbind option_bind].
  f_equal. rewrite <- Z.mul_sub_distr_r, inject_Z_mult. etransitivity; [|apply js_round_Z].
  apply js_round_proper, Qdiv_mult_l. unfold MS_PER_DAY. discriminate.
Qed.

Lemma ordered_bounds ds (n : Z) :
  StronglySorted Z.le ds → n ∈ ds → ∃ a b, head ds = Some a ∧ last ds = Some b ∧ a <= n <= b.
Proof.
  intros Hs Hn. destruct ds as [|a ds]; [by apply elem_of_nil in Hn|].
  destruct (last (a :: ds)) as [b|] eqn:Hb; [|by apply last_None in Hb].
  exists a, b. split_and!; try done.
  - apply StronglySorted_inv in Hs as [_ Hs]. apply elem_of_cons in Hn as [->|Hn]; [lia|].
    rewrite Forall_forall in Hs. by apply Hs.
  - clear -Hs Hn Hb. revert Hs Hn Hb. generalize (a :: ds). intros l' Hs Hn Hb. apply last_Some in Hb as [l ->]. apply elem_of_app in Hn as [Hn|Hn%list_elem_of_singleton]; [|lia].
    clear -Hs Hn. induction l as [|x l IH]; [by apply elem_of_nil in Hn|]. simpl in Hs.
    apply StronglySorted_inv in Hs as [Hs Hx]. apply elem_of_cons in Hn as [->|Hn]; [|auto].
    rewrite Forall_forall in Hx. apply Hx, elem_of_app. right. by apply list_elem_of_singleton.
Qed.

Lemma maybe_head (points : list BurndownPoint) ds :
  Forall2 (fun p n => on_day (bp_day p) n) points ds →
  maybe_day (head (map bp_day points)) (head ds) ∧ maybe_day (last (map bp_day points)) (last ds).
Proof.
  intros Hp. split; [by destruct Hp|].
  induction Hp as [|p n points ds Hpn Hp IH]; [done|]. by destruct Hp.
Qed.

Lemma day_part_map points : map (fun p => day_part (bp_day p)) points = day_part <$> map bp_day points.
Proof. induction points as [|p points IH]; csimpl; [done|]. by rewrite IH. Qed.

(** The first and the last day of the chart: those of the points, widened to the
    sprint's dates. *)
Lemma chartSpan_days curve now ds s e a b :
  Forall2 (fun p n => on_day (bp_day p) n) (curve_points curve) ds →
  maybe_day (summary_startsOn (curve_sprint curve)) s → maybe_day (summary_endsOn (curve_sprint curve)) e →
  head ds = Some a → last ds = Some b → a <= b →
  chartSpan curve now =
    (Some (from_option (Z.min a) a s * MS_PER_DAY), Some (from_option (Z.max b) b e * MS_PER_DAY)).
Proof.
  intros Hp Hs He Ha Hb Hab. destruct (maybe_head _ _ Hp) as [Hh Hla].
  destruct (given_days_spec _ _ _ _ Hs Hh) as [E1 _]. destruct (given_days_spec _ _ _ _ He Hla) as [_ E2].
  unfold chartSpan, span_days. rewrite !day_part_map, fmap_last.
  assert (head (day_part <$> map bp_day (curve_points curve)) = day_part <$> head (map bp_day (curve_points curve))) as ->
    by (by destruct (curve_points curve)).
  rewrite E1, E2, Ha, Hb.
  rewrite Ha in Hh. rewrite Hb in Hla. destruct (head (map bp_day _)) as [pa|]; [|done]. destruct (last (map bp_day _)) as [pb|]; [|done].
  destruct Hh as [Hfa _], Hla as [Hfb _].
  assert (∀ x, four_digit_day x → ∀ y, four_digit_day y → (unit_compare (iso_day x) (iso_day y) <? 0) = (x <? y)) as Hlt.
  { intros x Hx y Hy. pose proof (iso_day_order x y Hx Hy).
    destruct (Z.ltb_spec (unit_compare (iso_day x) (iso_day y)) 0), (Z.ltb_spec x y); lia. }
  assert (∃ f, from_option (Z.min a) a s = f ∧ union_with (fun x y => Some (Z.min x y)) s (Some a) = Some f ∧ four_digit_day f ∧ f <= a) as (f & -> & -> & Hf & Hfle).
  { destruct s as [s|]; [|eexists; split_and!; [reflexivity..|done|simpl; lia]].
    destruct (summary_startsOn _); [|done]. destruct Hs as [Hs _]. exists (Z.min a s). simpl. rewrite (Z.min_comm s a).
    split_and!; try done; [destruct (Z.min_spec a s) as [[_ ->]|[_ ->]]; done|lia]. }
  assert (∃ t, from_option (Z.max b) b e = t ∧ union_with (fun x y => Some (Z.max x y)) e (Some b) = Some t ∧ four_digit_day t ∧ b <= t) as (t & -> & -> & Ht & Htle).
  { destruct e as [e|]; [|eexists; split_and!; [reflexivity..|done|simpl; lia]].
    destruct (summary_endsOn _); [|done]. destruct He as [He _]. exists (Z.max b e). simpl. rewrite (Z.max_comm e b).
    split_and!; try done; [destruct (Z.max_spec b e) as [[_ ->]|[_ ->]]; done|lia]. }
  cbn [fmap option_fmap option_map default from_option id]. rewrite (Hlt t Ht f Hf), (proj2 (Z.ltb_ge t f)) by lia.
  by rewrite !iso_day_no_T.
Qed.

(** A burndown keeps every day: the chart spans the sprint's dates and every
    point's day, so a sprint that started early or ended late loses none, and
    each point stands as many days along as its day is from the first. *)
Theorem burndown_on_chart curve now ds s e :
  ds ≠ [] → StronglySorted Z.le ds →
  Forall2 (fun p n => on_day (bp_day p) n) (curve_points curve) ds →
  maybe_day (summary_startsOn (curve_sprint curve)) s → maybe_day (summary_endsOn (curve_sprint curve)) e →
  ∃ f t, chartSpan curve now = (Some (f * MS_PER_DAY), Some (t * MS_PER_DAY)) ∧
    (∀ n, s = Some n → f <= n) ∧ (∀ n, e = Some n → n <= t) ∧
    Forall2 (fun p n => dayIndex (f * MS_PER_DAY) (bp_day p) = Some (n - f) ∧ 0 <= n - f <= t - f) (curve_points curve) ds.
Proof.
  intros Hne Hsorted Hp Hs He.
  assert (∃ a, head ds = Some a ∧ a ∈ ds) as (a & Ha & Hin) by (destruct ds; [done|]; eexists; split; [done|left]).
  destruct (ordered_bounds ds a Hsorted Hin) as (a' & b & Ha' & Hb & Hab).
  assert (a' = a) as -> by congruence. clear Ha'.
  exists (from_option (Z.min a) a s), (from_option (Z.max b) b e).
  split; [apply (chartSpan_days curve now ds s e a b Hp Hs He Ha Hb); lia|].
  split; [intros n ->; simpl; lia|]. split; [intros n ->; simpl; lia|].
  apply Forall2_same_length_lookup_2; [by eapply Forall2_length|].
  intros i p n Hi Hn. destruct (Forall2_lookup_lr _ _ _ _ _ _ Hp Hi Hn) as [Hf E].
  split; [apply dayIndex_spec; split; done|].
  destruct (ordered_bounds ds n Hsorted) as (a' & b' & Ha' & Hb' & Hn'); [by eapply list_elem_of_lookup_2|].
  simplify_eq. destruct s, e; simpl; lia.
Qed.

Definition late_sprint : SprintBurndown :=
  mkSprintBurndown (mkSprintSummary "s" "S" (Some "2024-03-04T00:00:00Z"%string) (Some "2024-03-15"%string))
    [mkBurndownPoint "2024-03-01" 8 0 8 4 0 0; mkBurndownPoint "2024-03-18" 9 9 0 4 4 0] false.

Lemma burndown_on_chart_witness :
  ∃ f t, chartSpan late_sprint 0 = (Some (f * MS_PER_DAY), Some (t * MS_PER_DAY)) ∧ f <= 19786 ∧ 19797 <= t.
Proof.
  destruct (burndown_on_chart late_sprint 0 [19783; 19800] (Some 19786) (Some 19797)) as (f & t & E & Hs & He & _).
  - discriminate.
  - apply (bool_decide_unpack _). vm_compute. exact I.
  - repeat constructor; vm_compute; congruence.
  - split; [split; vm_compute; congruence|reflexivity].
  - split; [split; vm_compute; congruence|reflexivity].
  - exists f, t. split_and!; [done|by apply Hs|by apply He].
Defined.
