(* ===== verification/Features.v ===== *)
(** A project's features and settings pages:
    [web/src/features/projects/features.ts] and [settingsTabs.ts], with the
    project itself from [web/src/api/projects.ts].

    Which pages a project has, which page an address belongs to, and where the
    pages that became tabs of the settings now live. *)

From Stdlib Require Import ZArith Lia Ascii String.
From stdpp Require Import base sets list strings.
From S2P Require Import Prelude JsString.

Open Scope Z_scope.

(** ** Data: [api/projects.ts] *)

Inductive ProjectKind := software | service | business.
Inductive PlanningMethod := scrum | kanban.
Inductive ResourceGrouping := by_team | by_person.
Inductive Health := on_track | at_risk | off_track.

Inductive Feature :=
| f_board
| f_sprints
| f_plan
| f_calendar
| f_resources
| f_milestones
| f_releases
| f_components
| f_hierarchy
| f_dashboard
| f_queues
| f_desk
| f_teams
| f_repositories
| f_automation
| f_import.
#[export] Instance Feature_eq : EqDecision Feature.
Proof. solve_decision. Defined.

Record StatusUpdate := mkStatusUpdate {
  su_id : string;
  su_projectKey : string;
  su_status : Health;
  su_note : string;
  su_targetOn : option string;
  su_authorId : option string;
  su_authorName : string;
  su_createdAt : string;
}.

Record Project := mkProject {
  project_id : string;
  project_key : string;
  project_name : string;
  project_description : string;
  project_kind : ProjectKind;
  project_leadId : option string;
  project_leadName : option string;
  project_workflowSchemeId : option string;
  project_template : option string;
  project_docsUrl : option string;
  project_docsLabel : option string;
  project_issueCount : Z;
  project_openIssueCount : Z;
  project_status : option StatusUpdate;
  project_portalVerifies : bool;
  project_revealsIssues : bool;
  project_trustedDomains : list string;
  project_mailRequestTypeId : option string;
  project_features : list Feature;
  project_planningMethod : PlanningMethod;
  project_resourceGrouping : ResourceGrouping;
  project_createdAt : string;
  project_updatedAt : string;
  project_archivedAt : option string;
}.

(** The text of a feature, which is its name in the code. *)
Definition feature_text (f : Feature) : string :=
  match f with
  | f_board => "board"
  | f_sprints => "sprints"
  | f_plan => "plan"
  | f_calendar => "calendar"
  | f_resources => "resources"
  | f_milestones => "milestones"
  | f_releases => "releases"
  | f_components => "components"
  | f_hierarchy => "hierarchy"
  | f_dashboard => "dashboard"
  | f_queues => "queues"
  | f_desk => "desk"
  | f_teams => "teams"
  | f_repositories => "repositories"
  | f_automation => "automation"
  | f_import => "import"
  end.

(** ** The features: [features.ts] *)

(** [t.projectSetup.features] of one feature. *)
Record FeatureWord := mkFeatureWord { fw_label : string; fw_word : string; fw_listed : string }.

Definition FeatureWords : Type := Feature → FeatureWord.

Definition feature_words_en (f : Feature) : FeatureWord :=
  match f with
  | f_board => mkFeatureWord "Board" "the board" "board"
  | f_sprints => mkFeatureWord "Sprints" "sprints" "sprints"
  | f_plan => mkFeatureWord "Plan" "the plan" "plan"
  | f_calendar => mkFeatureWord "Calendar" "the calendar" "calendar"
  | f_resources => mkFeatureWord "Resources" "resource planning" "resources"
  | f_milestones => mkFeatureWord "Milestones" "milestones" "milestones"
  | f_releases => mkFeatureWord "Releases" "releases" "releases"
  | f_components => mkFeatureWord "Components" "components" "components"
  | f_hierarchy => mkFeatureWord "Hierarchy" "the hierarchy" "hierarchy"
  | f_dashboard => mkFeatureWord "Dashboard" "dashboards" "dashboard"
  | f_queues => mkFeatureWord "Queues" "queues" "queues"
  | f_desk => mkFeatureWord "Service desk" "the service desk" "service desk"
  | f_teams => mkFeatureWord "Teams" "teams" "teams"
  | f_repositories => mkFeatureWord "Repositories" "repositories" "repositories"
  | f_automation => mkFeatureWord "Automation" "automation" "automation"
  | f_import => mkFeatureWord "Import" "imports" "import"
  end.

Record FeatureEntry := mkFeatureEntry {
  fe_key : Feature;
  fe_label : string;
  fe_word : string;
  fe_listed : string;
  fe_deskOnly : bool;
}.

Definition FEATURES (w : FeatureWords) : list FeatureEntry :=
  [mkFeatureEntry f_board (fw_label (w f_board)) (fw_word (w f_board)) (fw_listed (w f_board)) false;
   mkFeatureEntry f_sprints (fw_label (w f_sprints)) (fw_word (w f_sprints)) (fw_listed (w f_sprints)) false;
   mkFeatureEntry f_plan (fw_label (w f_plan)) (fw_word (w f_plan)) (fw_listed (w f_plan)) false;
   mkFeatureEntry f_calendar (fw_label (w f_calendar)) (fw_word (w f_calendar)) (fw_listed (w f_calendar)) false;
   mkFeatureEntry f_resources (fw_label (w f_resources)) (fw_word (w f_resources)) (fw_listed (w f_resources)) false;
   mkFeatureEntry f_milestones (fw_label (w f_milestones)) (fw_word (w f_milestones)) (fw_listed (w f_milestones)) false;
   mkFeatureEntry f_releases (fw_label (w f_releases)) (fw_word (w f_releases)) (fw_listed (w f_releases)) false;
   mkFeatureEntry f_components (fw_label (w f_components)) (fw_word (w f_components)) (fw_listed (w f_components)) false;
   mkFeatureEntry f_hierarchy (fw_label (w f_hierarchy)) (fw_word (w f_hierarchy)) (fw_listed (w f_hierarchy)) false;
   mkFeatureEntry f_dashboard (fw_label (w f_dashboard)) (fw_word (w f_dashboard)) (fw_listed (w f_dashboard)) false;
   mkFeatureEntry f_queues (fw_label (w f_queues)) (fw_word (w f_queues)) (fw_listed (w f_queues)) true;
   mkFeatureEntry f_desk (fw_label (w f_desk)) (fw_word (w f_desk)) (fw_listed (w f_desk)) true;
   mkFeatureEntry f_teams (fw_label (w f_teams)) (fw_word (w f_teams)) (fw_listed (w f_teams)) false;
   mkFeatureEntry f_repositories (fw_label (w f_repositories)) (fw_word (w f_repositories)) (fw_listed (w f_repositories)) false;
   mkFeatureEntry f_automation (fw_label (w f_automation)) (fw_word (w f_automation)) (fw_listed (w f_automation)) false;
   mkFeatureEntry f_import (fw_label (w f_import)) (fw_word (w f_import)) (fw_listed (w f_import)) false].

Definition featureWord (w : FeatureWords) (feature : Feature) : string :=
  match head (filter (fun f => fe_key f = feature) (FEATURES w)) with
  | Some f => fe_word f
  | None => feature_text feature
  end.

(** The route slug under a project that each feature owns. *)
Definition slugs : list (string * Feature) :=
  [("board"%string, f_board);
   ("sprints"%string, f_sprints);
   ("plan"%string, f_plan);
   ("calendar"%string, f_calendar);
   ("resources"%string, f_resources);
   ("milestones"%string, f_milestones);
   ("releases"%string, f_releases);
   ("components"%string, f_components);
   ("hierarchy"%string, f_hierarchy);
   ("dashboard"%string, f_dashboard);
   ("queues"%string, f_queues);
   ("service-desk"%string, f_desk);
   ("teams"%string, f_teams);
   ("repositories"%string, f_repositories);
   ("automation"%string, f_automation);
   ("import"%string, f_import)].

Definition project_prefix (projectKey : string) : string := "/projects/" +:+ projectKey +:+ "/".

Definition featureOfPath (projectKey pathname : string) : option Feature :=
  let prefix := project_prefix projectKey in
  if negb (startsWith pathname prefix) then None
  else
    let slug := default EmptyString (head (split "/"%char (sliceFrom (String.length prefix) pathname))) in
    jget slugs slug.

Definition hasFeature (project : option Project) (feature : option Feature) : bool :=
  match feature, project with
  | Some f, Some p => bool_decide (f ∈ project_features p)
  | _, _ => true
  end.

Definition leftOut (w : FeatureWords) (features : list Feature) : list string :=
  fe_listed <$> filter (fun f => fe_deskOnly f = false ∧ fe_key f ∉ features) (FEATURES w).

(** ** The settings pages: [settingsTabs.ts] *)

Inductive SettingsSection := sec_general | sec_work | sec_workflow | sec_integrations | sec_import.

Record SetupPage := mkSetupPage {
  page_path : string;
  page_section : SettingsSection;
  page_label : string;
  page_tab : string;
  page_icon : string;
  page_feature : option Feature;
  page_adminOnly : bool;
}.

(** [t.shell.projectPages] and [t.projectSetup.settings.general]. *)
Record PageWords := mkPageWords {
  pw_settings : string;
  pw_general : string;
  pw_issueTypes : string;
  pw_fields : string;
  pw_issueView : string;
  pw_workflow : string;
  pw_components : string;
  pw_repositories : string;
  pw_automation : string;
  pw_import : string;
}.

Definition page_words_en : PageWords :=
  mkPageWords "Project settings" "General" "Issue types" "Fields" "Issue view" "Workflow" "Components" "Repositories" "Automation" "Import".

Definition projectSettingsPage (w : PageWords) : SetupPage :=
  mkSetupPage "/settings" sec_general (pw_settings w) (pw_general w) "Settings" None false.

Definition projectSetupPages (w : PageWords) : list SetupPage :=
  [projectSettingsPage w;
   mkSetupPage "/issue-types" sec_work (pw_issueTypes w) (pw_issueTypes w) "Tag" None false;
   mkSetupPage "/fields" sec_work (pw_fields w) (pw_fields w) "Field" None false;
   mkSetupPage "/issue-view" sec_work (pw_issueView w) (pw_issueView w) "Issue" None false;
   mkSetupPage "/workflows" sec_workflow (pw_workflow w) (pw_workflow w) "Workflow" None false;
   mkSetupPage "/components" sec_integrations (pw_components w) (pw_components w) "Component" (Some f_components) false;
   mkSetupPage "/repositories" sec_integrations (pw_repositories w) (pw_repositories w) "Repository" (Some f_repositories) false;
   mkSetupPage "/automation" sec_integrations (pw_automation w) (pw_automation w) "Bolt" (Some f_automation) true;
   mkSetupPage "/import" sec_import (pw_import w) (pw_import w) "Upload" (Some f_import) true].

(** The path of the page that opens the settings. *)
Definition settings_path : string := "/settings".

Definition setupAddress (path : string) : string := if decide (path = settings_path) then path else "/settings" +:+ path.

Definition settingsPagesFor (w : PageWords) (project : option Project) (administers : bool) : list SetupPage :=
  filter (fun page => hasFeature project (page_feature page) && (administers || negb (page_adminOnly page)) = true) (projectSetupPages w).

Definition MOVED_PROJECT_PAGES (w : PageWords) : list string :=
  filter (fun path => path ≠ settings_path) (map page_path (projectSetupPages w)).

Definition movedProjectAddress (w : PageWords) (projectKey slug searchStr hash : string) : option string :=
  if negb (bool_decide (("/" +:+ slug)%string ∈ MOVED_PROJECT_PAGES w)) then None
  else Some ("/projects/" +:+ projectKey +:+ setupAddress ("/" +:+ slug) +:+ searchStr +:+ (if truthy hash then "#" +:+ hash else EmptyString)).

(** ** What holds of them *)

(** Every feature a project may have is known throughout: it is listed among
    the features once and has its own word, and one route slug owns it. *)
Theorem features_complete w f :
  filter (fun e => fe_key e = f) (FEATURES w) = [mkFeatureEntry f (fw_label (w f)) (fw_word (w f)) (fw_listed (w f)) (bool_decide (f = f_queues ∨ f = f_desk))] ∧
  featureWord w f = fw_word (w f) ∧
  ∃ slug, filter (fun e => e.2 = f) slugs = [(slug, f)] ∧ jget slugs slug = Some f.
Proof. destruct f; (split_and!; [reflexivity|reflexivity|eexists; split; reflexivity]). Qed.

Lemma startsWith_app p s : startsWith (p +:+ s) p = true.
Proof. induction p as [|c p IH]; [by destruct s|]. simpl. by rewrite bool_decide_true. Qed.

Lemma sliceFrom_app p s : sliceFrom (String.length p) (p +:+ s) = s.
Proof. induction p as [|c p IH]; [by destruct s|]. done. Qed.

Definition no_slash (s : string) : bool := string_forall (fun c => negb (bool_decide (c = "/"%char))) s.

(** The feature of a page under a project is the one its first part names. *)
Lemma featureOfPath_slug key slug rest :
  no_slash slug = true → (rest = EmptyString ∨ ∃ r, rest = String "/" r) →
  featureOfPath key (project_prefix key +:+ slug +:+ rest) = jget slugs slug.
Proof.
  intros Hs Hr. unfold featureOfPath. rewrite startsWith_app. cbn [negb]. rewrite sliceFrom_app. f_equal.
  destruct Hr as [->|(r & ->)].
  - rewrite app_empty_r, split_no_sep by done. done.
  - rewrite split_app_sep by done. done.
Qed.

(** The settings and the routes agree on what a page belongs to: the old
    address of a page that became a tab opens the feature the tab belongs to,
    and moves to the address the tab has under the settings, where search and
    hash are kept; every tab's address is its own. *)
Theorem moved_pages w key page search hash :
  page ∈ projectSetupPages w →
  featureOfPath key ("/projects/" +:+ key +:+ page_path page) = page_feature page ∧
  (page_path page ≠ settings_path →
    movedProjectAddress w key (sliceFrom 1 (page_path page)) search hash =
      Some ("/projects/" +:+ key +:+ "/settings" +:+ page_path page +:+ search +:+ (if truthy hash then "#" +:+ hash else EmptyString))) ∧
  (∀ other, other ∈ projectSetupPages w → setupAddress (page_path other) = setupAddress (page_path page) → other = page).
Proof.
  intros Hp. split; [|split].
  - assert (∃ slug, page_path page = String "/" slug ∧ no_slash slug = true ∧ jget slugs slug = page_feature page) as (slug & -> & Hs & <-).
    { unfold projectSetupPages in Hp. rewrite !elem_of_cons, elem_of_nil in Hp.
      repeat destruct Hp as [->|Hp]; try done; eexists; split_and!; reflexivity. }
    rewrite <- (featureOfPath_slug key slug EmptyString) by auto. rewrite app_empty_r.
    unfold project_prefix. by rewrite !app_assoc_s.
  - unfold projectSetupPages in Hp. rewrite !elem_of_cons, elem_of_nil in Hp.
    repeat destruct Hp as [->|Hp]; try done; intros _; reflexivity.
  - intros other Ho. unfold projectSetupPages in Hp, Ho. rewrite !elem_of_cons, elem_of_nil in Hp, Ho.
    repeat destruct Hp as [->|Hp]; try done; repeat destruct Ho as [->|Ho]; done.
Qed.

Lemma moved_pages_witness :
  movedProjectAddress page_words_en "ARM" "automation" "?q=1" "top" = Some "/projects/ARM/settings/automation?q=1#top"%string.
Proof.
  apply (moved_pages page_words_en "ARM" (mkSetupPage "/automation" sec_integrations "Automation" "Automation" "Bolt" (Some f_automation) true) "?q=1" "top").
  - do 7 right. left.
  - discriminate.
Defined.
