(* ===== verification/Client.v ===== *)
(** The one place that talks to the API: [web/src/api/client.ts], the error
    middleware of [api/generated.ts], [api/mutation.ts] and the query client of
    [lib/queryClient.ts].

    What a response is unwrapped to, which failures end the session, and who
    hears of a change that could not be saved.  JSON's own reading and writing
    of texts is a parameter. *)

From Stdlib Require Import ZArith Lia Ascii String.
From stdpp Require Import base sets list strings.
From S2P Require Import Prelude JsString Api.

Open Scope Z_scope.

(** [JSON.parse], where [None] throws, and [JSON.stringify]. *)
Class JSON := {
  json_parse : string → option Json;
  json_stringify : Json → string;
  json_parse_empty : json_parse EmptyString = None;
}.

(** ** Errors: [client.ts] *)

Definition HTTP_UNAUTHORIZED : Z := 401.
Definition SESSION_MISSING_CODE : string := "unauthorized".
Definition BASE : string := "/api/v1".

(** [value.name], of a value that is neither null nor undefined. *)
Definition property (value : Json) (name : string) : option Json :=
  match value with JObject fields => jget fields name | _ => None end.

(** What is thrown: the fields of the body, as the server sent them. *)
Record ApiError := mkApiError {
  error_status : Z;
  error_code : option Json;
  error_message : option Json;
  error_fields : Json;
  error_position : option Json;
  error_project : option Json;
  error_requestId : option Json;
}.

(** [a ?? b]. *)
Definition or_else (a : option Json) (b : Json) : Json :=
  match a with Some JNull | None => b | Some v => v end.

Definition newApiError (status : Z) (body : Json) : ApiError :=
  mkApiError status (property body "code") (property body "message") (or_else (property body "fields") (JObject []))
    (property body "position") (property body "project") (property body "requestId").

Definition isUnauthenticated (e : ApiError) : bool := error_status e =? HTTP_UNAUTHORIZED.

Definition code_is (e : ApiError) (code : string) : bool :=
  match error_code e with Some (JString c) => bool_decide (c = code) | _ => false end.

Definition isSessionMissing (e : ApiError) : bool :=
  (error_status e =? HTTP_UNAUTHORIZED) && code_is e SESSION_MISSING_CODE.

(** ** Requests *)

Inductive Method := GET | POST | PUT | PATCH | DELETE.

Record RequestOptions := mkRequestOptions { option_method : option Method; option_body : option Json }.

Record FetchInit := mkFetchInit {
  init_url : string;
  init_method : Method;
  init_credentials : string;
  init_headers : list (string * string);
  init_body : option string;
}.

(** A response, with its body as text. *)
Record Response := mkResponse { response_status : Z; response_text : string }.

Definition response_ok (r : Response) : bool := (200 <=? response_status r) && (response_status r <=? 299).

(** What a call that may throw comes to. *)
Inductive Outcome (A : Type) := Returned (value : A) | Thrown (error : ApiError).
Arguments Returned {_} _.
Arguments Thrown {_} _.

Section Requests.
Context `{!JSON}.

Definition request_init (path : string) (options : RequestOptions) : FetchInit :=
  mkFetchInit (BASE +:+ path) (default GET (option_method options)) "same-origin"
    (match option_body options with None => [] | Some _ => [("Content-Type", "application/json")%string] end)
    (json_stringify <$> option_body options).

Definition unexpected_response (status : Z) : Json :=
  JObject [("code"%string, JString "unexpected_response"); ("message"%string, JString ("The server returned " +:+ stringOfInt status +:+ "."))].

(** [parsed?.error]. *)
Definition envelope_of (parsed : option Json) : option Json :=
  match parsed with None | Some JNull => None | Some v => property v "error" end.

(** What a response is unwrapped to; a value that is undefined is [None]. *)
Definition unwrap (response : Response) : Outcome (option Json) :=
  if response_status response =? 204 then Returned None
  else
    let text := response_text response in
    match (if truthy text then match json_parse text with Some v => inr (Some v) | None => inl tt end else inr None) with
    | inl _ =>
        if negb (response_ok response)
        then Thrown (newApiError (response_status response) (unexpected_response (response_status response)))
        else Returned None
    | inr parsed =>
        if negb (response_ok response)
        then Thrown (newApiError (response_status response) (or_else (envelope_of parsed) (unexpected_response (response_status response))))
        else Returned parsed
    end.

(** [fetch], and what the server answered it with. *)
Definition request (fetch : FetchInit → Response) (path : string) (options : RequestOptions) : Outcome (option Json) :=
  unwrap (fetch (request_init path options)).

(** The middleware of the generated client: [generated.ts]. *)
Definition raiseOnError (response : Response) : Outcome Response :=
  if response_ok response then Returned response
  else
    let body := json_parse (response_text response) in
    Thrown (newApiError (response_status response) (or_else (envelope_of body) (unexpected_response (response_status response)))).

(** ** What holds of them *)

(** The error the server wrote in a response: what its body holds under [error],
    when the body is JSON, an object, and holds something there. *)
Definition written_error (r : Response) (body : Json) : Prop :=
  ∃ fields, json_parse (response_text r) = Some (JObject fields) ∧ jget fields "error" = Some body ∧ body ≠ JNull.

(** What a response is to come to, by the server's status and body. *)
Inductive comes_to (r : Response) : Outcome (option Json) → Prop :=
  | no_content : response_status r = 204 → comes_to r (Returned None)
  | a_value v : response_ok r = true → response_status r ≠ 204 → json_parse (response_text r) = Some v → comes_to r (Returned (Some v))
  | unreadable : response_ok r = true → json_parse (response_text r) = None → comes_to r (Returned None)
  | server_error body : response_ok r = false → written_error r body →
      comes_to r (Thrown {| error_status := response_status r; error_code := property body "code"; error_message := property body "message";
        error_fields := match property body "fields" with Some JNull | None => JObject [] | Some fields => fields end;
        error_position := property body "position"; error_project := property body "project"; error_requestId := property body "requestId" |})
  | other_error : response_ok r = false → (∀ body, ¬ written_error r body) →
      comes_to r (Thrown {| error_status := response_status r; error_code := Some (JString "unexpected_response");
        error_message := Some (JString ("The server returned " +:+ stringOfInt (response_status r) +:+ "."));
        error_fields := JObject []; error_position := None; error_project := None; error_requestId := None |}).

(** A response comes to one thing. *)
Lemma comes_to_one r o o' : comes_to r o → comes_to r o' → o = o'.
Proof.
  assert (response_status r = 204 → response_ok r = true) as H204 by (unfold response_ok; intros ->; done).
  assert (∀ body body', written_error r body → written_error r body' → body = body') as Hone by (intros b b' (f & ? & ? & _) (f' & ? & ? & _); congruence).
  assert (∀ body, written_error r body → (∀ b, ¬ written_error r b) → False) as Hnone by (intros b Hb Hn; by eapply Hn).
  intros [] []; try done; try congruence; try (exfalso; eauto; intuition congruence).
  by match goal with H : written_error r ?a, H' : written_error r ?b |- _ => rewrite (Hone a b) by done end.
Qed.

(** What is thrown for a body, by whether the server wrote an error in it. *)
Lemma thrown_comes_to r : response_ok r = false →
  comes_to r (Thrown (newApiError (response_status r) (or_else (envelope_of (json_parse (response_text r))) (unexpected_response (response_status r))))).
Proof.
  intros Hok. destruct (json_parse (response_text r)) as [parsed|] eqn:Ej; [|apply (other_error r Hok); intros body (f & ? & _); congruence].
  destruct (envelope_of (Some parsed)) as [body|] eqn:Ee; [assert (body = JNull ∨ body ≠ JNull) as [->|Hn] by (destruct body; auto)|].
  - apply (other_error r Hok). intros body (f & Hf & Hb & Hn). rewrite Ej in Hf. injection Hf as ->. simpl in Ee. congruence.
  - replace (or_else (Some body) _) with body by (by destruct body). apply (server_error r body Hok).
    destruct parsed as [| | | | |fields]; try discriminate Ee. by exists fields.
  - apply (other_error r Hok). intros body (f & Hf & Hb & Hn). rewrite Ej in Hf. injection Hf as ->. simpl in Ee. congruence.
Qed.

(** C34: what every response comes to.  A success is the value its body parses to, and
    nothing when there is no content or the body is not JSON; a failure is thrown
    with its status: with the code, the message and the rest of the error the server
    wrote, each as it was written, and with [unexpected_response] when the body is no
    error the server wrote. *)
Theorem unwrap_outcome response outcome : unwrap response = outcome ↔ comes_to response outcome.
Proof.
  assert (comes_to response (unwrap response)) as Hc.
  { unfold unwrap. destruct (Z.eqb_spec (response_status response) 204) as [E|E]; [by apply no_content|]. cbv zeta.
    assert (json_parse (response_text response) = if truthy (response_text response) then json_parse (response_text response) else None) as Ht.
    { unfold truthy. case_bool_decide as Ht; [|done]. rewrite Ht. apply json_parse_empty. }
    destruct (response_ok response) eqn:Hok; cbn [negb].
    - destruct (truthy (response_text response)); [destruct (json_parse (response_text response)) eqn:Ej|]; [by apply a_value|by apply unreadable..].
    - pose proof (thrown_comes_to response Hok) as Hthrown. rewrite Ht in Hthrown.
      destruct (truthy (response_text response)); [destruct (json_parse (response_text response))|]; exact Hthrown. }
  split; [by intros <-|]. intros Ho. by apply (comes_to_one response).
Qed.

(** The hand-written and the generated client fail alike: for every response
    that is a failure they throw the same error. *)
Theorem clients_fail_alike response :
  match unwrap response, raiseOnError response with
  | Thrown e, Thrown e' => e = e'
  | Returned _, Returned _ => True
  | _, _ => False
  end.
Proof.
  unfold unwrap, raiseOnError, response_ok. destruct (Z.eqb_spec (response_status response) 204) as [E|_]; [by rewrite E|].
  destruct ((200 <=? response_status response) && (response_status response <=? 299)); cbn [negb].
  - destruct (truthy _); [by destruct (json_parse _)|done].
  - destruct (truthy (response_text response)) eqn:Et; [by destruct (json_parse _)|].
    unfold truthy in Et. apply negb_false_iff, bool_decide_eq_true in Et. by rewrite Et, json_parse_empty.
Qed.
End Requests.
