(* ===== verification/QueryClient.v ===== *)
(** The query client and the mutation hook: [web/src/lib/queryClient.ts] and
    [api/mutation.ts].

    A state machine over what goes wrong: the end of a session is announced
    once, and a change that failed is heard of by whoever shows failures. *)

From Stdlib Require Import ZArith Lia Ascii String.
From stdpp Require Import base sets list strings.
From S2P Require Import Prelude JsString Api Client.

Open Scope Z_scope.

(** [api/secondFactor.ts]. *)
Definition SECOND_FACTOR_REQUIRED_CODE : string := "second_factor_required".

Definition UNSAVED_MESSAGE : string := "That change could not be saved. Check your connection and try again.".

(** What a request fails with: an error of the API, or anything else. *)
Inductive Failure := api_failure (e : ApiError) | other_failure.

(** The message a failure is told with; one that is not a text is written as one. *)
Definition failure_message (f : Failure) : string :=
  match f with
  | api_failure e => from_option json_string EmptyString (error_message e)
  | other_failure => UNSAVED_MESSAGE
  end.

(** ** The client's state

    Whether it believes in a session (it holds data under [meQueryKey]), how
    often it has announced that one ended and asked for it again, who listens
    for failed changes, and what they have heard. *)
Record ClientState := mkClientState {
  cs_session : bool;
  cs_ended : nat;
  cs_reread : nat;
  cs_listeners : list nat;
  cs_heard : list (nat * string);
}.

(** What happens to it. *)
Inductive Event :=
| signed_in
| listen (listener : nat)
| stop_listening (listener : nat)
| query_failed (error : Failure)
| mutation_failed (error : Failure) (handlesError : bool).

Definition refused (error : Failure) (s : ClientState) : bool * ClientState :=
  match error with
  | api_failure e =>
      if negb (isSessionMissing e) then (false, s)
      else if cs_session s
      then (true, mkClientState false (S (cs_ended s)) (cs_reread s) (cs_listeners s) (cs_heard s))
      else (true, s)
  | other_failure => (false, s)
  end.

Definition held (error : Failure) (s : ClientState) : ClientState :=
  match error with
  | api_failure e =>
      if code_is e SECOND_FACTOR_REQUIRED_CODE
      then mkClientState (cs_session s) (cs_ended s) (S (cs_reread s)) (cs_listeners s) (cs_heard s)
      else s
  | other_failure => s
  end.

(** [queryCache.onError]. *)
Definition on_query_error (error : Failure) (s : ClientState) : ClientState :=
  let '(was_refused, s') := refused error s in if was_refused then s' else held error s'.

(** [mutationCache.onError]. *)
Definition on_mutation_error (error : Failure) (handlesError : bool) (s : ClientState) : ClientState :=
  let '(was_refused, s') := refused error s in
  if was_refused || handlesError then s'
  else mkClientState (cs_session s') (cs_ended s') (cs_reread s') (cs_listeners s')
         (cs_heard s' ++ map (fun l => (l, failure_message error)) (cs_listeners s')).

(** [onUnreportedMutationError] and what it returns. *)
Definition add_listener (l : nat) (s : ClientState) : ClientState :=
  mkClientState (cs_session s) (cs_ended s) (cs_reread s) (set_add (cs_listeners s) l) (cs_heard s).
Definition remove_listener (l : nat) (s : ClientState) : ClientState :=
  mkClientState (cs_session s) (cs_ended s) (cs_reread s) (filter (fun x => x ≠ l) (cs_listeners s)) (cs_heard s).

Definition step (s : ClientState) (e : Event) : ClientState :=
  match e with
  | signed_in => mkClientState true (cs_ended s) (cs_reread s) (cs_listeners s) (cs_heard s)
  | listen l => add_listener l s
  | stop_listening l => remove_listener l s
  | query_failed error => on_query_error error s
  | mutation_failed error handles => on_mutation_error error handles s
  end.

Definition createQueryClient : ClientState := mkClientState false 0 0 [] [].

Definition run (events : list Event) (s : ClientState) : ClientState := foldl step s events.

(** ** The mutation hook: [mutation.ts] *)

(** Whether its caller said it shows failures, and whether it was seen to. *)
Record MutationHook := mkMutationHook { hook_declared : bool; hook_shown : bool }.

Inductive HookRead := read_error | read_isError | read_failureReason | read_mutateAsync.

Inductive HookUse := hook_reads (what : HookRead) | hook_mutates (onError : bool).

Definition use_hook (h : MutationHook) (u : HookUse) : MutationHook :=
  match u with
  | hook_reads _ => mkMutationHook (hook_declared h) true
  | hook_mutates true => mkMutationHook (hook_declared h) true
  | hook_mutates false => h
  end.

(** The getter the client asks at the time of a failure. *)
Definition handlesError (h : MutationHook) : bool := hook_declared h || hook_shown h.

Definition useMutation (declared : bool) (uses : list HookUse) : MutationHook :=
  foldl use_hook (mkMutationHook declared false) uses.

(** ** The end of a session *)

(** The failures that end a session. *)
Definition ends_session (e : Event) : bool :=
  match e with
  | query_failed (api_failure e) | mutation_failed (api_failure e) _ => isSessionMissing e
  | _ => false
  end.

Lemma step_session s e :
  cs_session (step s e) = (match e with signed_in => true | _ => cs_session s && negb (ends_session e) end) ∧
  cs_ended (step s e) = (cs_ended s + if cs_session s && ends_session e then 1 else 0)%nat.
Proof.
  destruct e as [|l|l|f|f handles]; simpl; try (rewrite ?andb_true_r, andb_false_r; split; [done|lia]).
  - unfold on_query_error, refused, held. destruct f as [e|]; simpl; [|rewrite andb_true_r, andb_false_r; split; [done|lia]].
    destruct (isSessionMissing e), (cs_session s) eqn:Es; simpl; rewrite ?Es; try (split; [done|lia]);
      destruct (code_is e SECOND_FACTOR_REQUIRED_CODE); simpl; rewrite ?Es; (split; [done|lia]).
  - unfold on_mutation_error, refused. destruct f as [e|]; simpl.
    + destruct (isSessionMissing e), (cs_session s) eqn:Es, handles; simpl; rewrite ?Es; (split; [done|lia]).
    + destruct handles; simpl; rewrite andb_true_r, andb_false_r; (split; [done|lia]).
Qed.

(** C25: the end of a session is announced once, however many requests in flight
    fail with it, queries and changes alike; the failures of a session that is
    already dropped are not announced at all; and nothing is announced while
    no request says the session is missing. *)
Theorem session_ends_once events s :
  signed_in ∉ events →
  (Exists (fun e => ends_session e = true) events → cs_session s = true →
    cs_ended (run events s) = S (cs_ended s) ∧ cs_session (run events s) = false) ∧
  (cs_session s = false → cs_ended (run events s) = cs_ended s ∧ cs_session (run events s) = false) ∧
  (Forall (fun e => ends_session e = false) events →
    cs_ended (run events s) = cs_ended s ∧ cs_session (run events s) = cs_session s).
Proof.
  unfold run. revert s. induction events as [|e events IH]; intros s Hno; simpl.
  - split_and!; [intros H; by apply Exists_nil in H|done|done].
  - apply not_elem_of_cons in Hno as [He Hno]. destruct (step_session s e) as [Hs Hn].
    assert (cs_session (step s e) = cs_session s && negb (ends_session e)) as Hs' by (rewrite Hs; by destruct e).
    destruct (IH (step s e) Hno) as (IH1 & IH2 & IH3). rewrite Hn, Hs' in *. split_and!.
    + rewrite Exists_cons. intros Hex Hsess. rewrite Hsess in *. simpl in *.
      destruct (ends_session e); simpl in *; [destruct (IH2 eq_refl) as [-> ->]; split; [lia|done]|].
      destruct Hex as [|Hex]; [done|]. destruct (IH1 Hex eq_refl) as [-> ->]. split; [lia|done].
    + intros Hsess. rewrite Hsess in *. simpl in *. destruct (IH2 eq_refl) as [-> ->]. split; [lia|done].
    + rewrite Forall_cons. intros [Hf Hall]. rewrite Hf in *. simpl in *. rewrite andb_false_r, andb_true_r in *.
      destruct (IH3 Hall) as [-> ->]. split; [lia|done].
Qed.

Definition session_missing : Failure :=
  api_failure (mkApiError 401 (Some (JString "unauthorized")) None (JObject []) None None None).

Lemma session_ends_once_witness :
  cs_ended (run [query_failed session_missing; mutation_failed session_missing false] (run [signed_in] createQueryClient)) = 1%nat.
Proof.
  destruct (session_ends_once [query_failed session_missing; mutation_failed session_missing false] (run [signed_in] createQueryClient)) as (H & _ & _).
  - intros [[=]|[[=]|[]%elem_of_nil]%elem_of_cons]%elem_of_cons.
  - destruct H as [H _]; [by constructor|done|]. exact H.
Defined.

(** ** Who hears of a failed change *)

Lemma heard_grows e s : cs_heard s `prefix_of` cs_heard (step s e).
Proof.
  destruct e as [|l|l|f|f handles]; simpl; try done.
  - unfold on_query_error, refused, held. destruct f as [e|]; simpl; [|done].
    destruct (negb _); [destruct (code_is _ _)|destruct (cs_session s)]; done.
  - unfold on_mutation_error. destruct (refused f s) as [r s'] eqn:E.
    assert (cs_heard s' = cs_heard s) as Hh.
    { unfold refused in E. destruct f; [|by simplify_eq]. destruct (negb _); [by simplify_eq|].
      destruct (cs_session s); by simplify_eq. }
    destruct (r || handles); simpl; rewrite Hh; [done|by apply prefix_app_r].
Qed.

Lemma heard_kept events s : cs_heard s `prefix_of` cs_heard (run events s).
Proof.
  unfold run. revert s. induction events as [|e events IH]; intros s; simpl; [done|].
  etransitivity; [apply heard_grows|apply IH].
Qed.

Lemma step_listeners s e :
  cs_listeners (step s e) =
    match e with listen l => set_add (cs_listeners s) l | stop_listening l => filter (fun x => x ≠ l) (cs_listeners s) | _ => cs_listeners s end.
Proof.
  destruct e as [|l|l|f|f handles]; simpl; try done.
  - unfold on_query_error, refused, held. destruct f as [e|]; simpl; [|done].
    destruct (negb _); [destruct (code_is _ _)|destruct (cs_session s)]; done.
  - unfold on_mutation_error, refused. destruct f as [e|]; simpl; [|by destruct handles].
    destruct (negb (isSessionMissing e)); [by destruct handles|by destruct (cs_session s)].
Qed.

Lemma listening events s l :
  l ∈ cs_listeners s → stop_listening l ∉ events → l ∈ cs_listeners (run events s).
Proof.
  unfold run. revert s. induction events as [|e events IH]; intros s Hl; simpl; [done|].
  intros [He Hno]%not_elem_of_cons. apply IH; [|done]. rewrite step_listeners.
  destruct e; try done; [apply elem_of_set_add; by right|].
  apply list_elem_of_filter. split; [|done]. intros ->. by apply He.
Qed.

(** C35: no failed change goes unheard: whatever happened before, and whatever
    happens after, a change that fails without ending the session, and whose
    caller does not show the failure itself, is heard of, with its message, by
    everybody who had started listening and had not stopped. *)
Theorem failure_is_heard before between after error hook l :
  handlesError hook = false → ends_session (mutation_failed error false) = false →
  stop_listening l ∉ between →
  (l, failure_message error) ∈
    cs_heard (run (before ++ [listen l] ++ between ++ [mutation_failed error (handlesError hook)] ++ after) createQueryClient).
Proof.
  intros Hh He Hno. rewrite Hh. unfold run. rewrite !foldl_app. fold (run before createQueryClient).
  set (s := run before createQueryClient). simpl. fold (run between (add_listener l s)).
  assert (l ∈ cs_listeners (run between (add_listener l s))) as Hl.
  { apply listening; [|done]. apply elem_of_set_add. by left. }
  set (s' := run between (add_listener l s)) in *. fold (run after (on_mutation_error error false s')).
  destruct (heard_kept after (on_mutation_error error false s')) as [later ->]. apply elem_of_app. left.
  unfold on_mutation_error, refused. destruct error as [e|]; simpl in He.
  - rewrite He. simpl. apply elem_of_app. right. apply list_elem_of_fmap. by exists l.
  - simpl. apply elem_of_app. right. apply list_elem_of_fmap. by exists l.
Qed.

Lemma failure_is_heard_witness :
  (7%nat, UNSAVED_MESSAGE) ∈ cs_heard (run ([signed_in] ++ [listen 7] ++ [listen 8] ++
    [mutation_failed other_failure (handlesError (useMutation false [hook_mutates false]))] ++ [stop_listening 7]) createQueryClient).
Proof.
  apply (failure_is_heard [signed_in] [listen 8] [stop_listening 7] other_failure (useMutation false [hook_mutates false]) 7); [done|done|].
  intros [[=]|[]%elem_of_nil]%elem_of_cons.
Defined.

(** A caller that reads the failure in any way, or hands one of its own, is left
    to tell of it: the hook handles the error from then on. *)
Lemma shown_from_use declared uses u :
  u ≠ hook_mutates false → u ∈ uses → handlesError (useMutation declared uses) = true.
Proof.
  intros Hu Hin. unfold useMutation.
  assert (∀ h, hook_shown h = true ∨ u ∈ uses → hook_shown (foldl use_hook h uses) = true) as Hall.
  { clear Hin. induction uses as [|v uses IH]; intros h; simpl; [intros [|[]%elem_of_nil]; done|].
    intros Hh. apply IH. destruct Hh as [Hh|[<-|Hin]%elem_of_cons]; [left|left|by right].
    - by destruct v as [|[]].
    - by destruct u as [|[]]. }
  unfold handlesError. rewrite Hall by (by right). apply orb_true_r.
Qed.
