(* ===== verification/Overlay.v ===== *)
(** What the kit's overlays share: [web/src/components/ui/overlay.ts].

    The stack that hands Escape to the newest overlay, the focus a dialog traps,
    the scroll lock, and the box a panel is anchored in.  Pixels are exact
    rationals. *)

From Stdlib Require Import ZArith QArith Qround Qminmax Lia Lqa Ascii String.
From stdpp Require Import base sets list strings.
From S2P Require Import Prelude JsString Config.

Open Scope Z_scope.

(** ** Escape

    An overlay is the number of its ref; what the ref holds now is the callback
    it closes with and whether Escape is its own while somebody types. *)

Record EscapeEntry := mkEscapeEntry { entry_onClose : string; entry_whileEditing : bool }.

Record EscapeState := mkEscapeState {
  escapeStack : list nat;
  entry_of : nat → option EscapeEntry;
  listening : bool;
}.

Record KeyEvent := mkKeyEvent { event_key : string; event_prevented : bool; event_editing : bool }.

(** What a key press comes to: the callback that is called, if any, and whether
    the browser's own action is prevented. *)
Record Pressed := mkPressed { called : option string; prevented : bool }.

Definition onEscape (s : EscapeState) (event : KeyEvent) : Pressed :=
  if negb (bool_decide (event_key event = "Escape"%string)) || event_prevented event
  then mkPressed None (event_prevented event)
  else
    match last (escapeStack s) ≫= entry_of s with
    | None => mkPressed None false
    | Some top =>
        if negb (entry_whileEditing top) && event_editing event then mkPressed None false
        else mkPressed (Some (entry_onClose top)) true
    end.

(** The document hears the key only while the listener is added. *)
Definition press (s : EscapeState) (event : KeyEvent) : Pressed :=
  if listening s then onEscape s event else mkPressed None (event_prevented event).

(** The effect of an overlay that opens, and what it returns. *)
Definition open_overlay (i : nat) (s : EscapeState) : EscapeState :=
  let stack := escapeStack s ++ [i] in
  mkEscapeState stack (entry_of s) (if (length stack =? 1)%nat then true else listening s).

(** [stack.splice(stack.indexOf(i), 1)]: what is not there takes the last. *)
Fixpoint without_first (i : nat) (l : list nat) : option (list nat) :=
  match l with
  | [] => None
  | j :: l' => if decide (j = i) then Some l' else cons j <$> without_first i l'
  end.

Definition spliced (i : nat) (l : list nat) : list nat :=
  match without_first i l with Some l' => l' | None => removelast l end.

Definition close_overlay (i : nat) (s : EscapeState) : EscapeState :=
  let stack := spliced i (escapeStack s) in
  mkEscapeState stack (entry_of s) (if (length stack =? 0)%nat then false else listening s).

(** Every render writes the ref anew. *)
Definition render (i : nat) (entry : EscapeEntry) (s : EscapeState) : EscapeState :=
  mkEscapeState (escapeStack s) (fun j => if decide (j = i) then Some entry else entry_of s j) (listening s).

Definition no_overlays : EscapeState := mkEscapeState [] (fun _ => None) false.

(** What happens to overlays, the latest last. *)
Inductive Happening := happens_render (i : nat) (entry : EscapeEntry) | happens_open (i : nat) | happens_close (i : nat).

Definition happen (s : EscapeState) (h : Happening) : EscapeState :=
  match h with
  | happens_render i entry => render i entry s
  | happens_open i => open_overlay i s
  | happens_close i => close_overlay i s
  end.

(** What React does with them: an overlay is rendered before its effect runs,
    runs the effect once for each time it opens, and cleans up after it once, in
    any order. *)
Inductive history : list Happening → EscapeState → Prop :=
| history_start : history [] no_overlays
| history_render hs s i entry : history hs s → history (hs ++ [happens_render i entry]) (happen s (happens_render i entry))
| history_open hs s i :
    history hs s → i ∉ escapeStack s → is_Some (entry_of s i) → history (hs ++ [happens_open i]) (happen s (happens_open i))
| history_close hs s i :
    history hs s → i ∈ escapeStack s → history (hs ++ [happens_close i]) (happen s (happens_close i)).

(** *** The promise: Escape goes to the newest that is still open *)

(** The overlays that were opened and not closed since, in the order they opened. *)
Definition open_order (hs : list Happening) : list nat :=
  foldl (fun l h => match h with
    | happens_open i => l ++ [i]
    | happens_close i => filter (fun j => j ≠ i) l
    | happens_render _ _ => l
    end) [] hs.

(** What an overlay was last rendered with. *)
Definition last_render (hs : list Happening) (i : nat) : option EscapeEntry :=
  foldl (fun e h => match h with happens_render j entry => if decide (i = j) then Some entry else e | _ => e end) None hs.

(** *** What holds of every reachable state *)

Definition escape_ok (s : EscapeState) : Prop :=
  NoDup (escapeStack s) ∧ (listening s = true ↔ escapeStack s ≠ []) ∧
  (∀ i, i ∈ escapeStack s → is_Some (entry_of s i)).

Lemma without_first_filter i l : NoDup l → i ∈ l → without_first i l = Some (filter (fun j => j ≠ i) l).
Proof.
  induction l as [|j l IH]; [by intros _ ?%elem_of_nil|]. rewrite NoDup_cons. intros [Hj Hl] Hi. simpl.
  rewrite filter_cons. destruct (decide (j = i)) as [->|Hne].
  - rewrite decide_False by (intros H; done). f_equal. symmetry. clear -Hj.
    induction l as [|k l IH]; [done|]. apply not_elem_of_cons in Hj as [Hk Hj].
    rewrite filter_cons, decide_True by congruence. by rewrite IH.
  - rewrite decide_True by done. apply elem_of_cons in Hi as [->|Hi]; [done|]. by rewrite IH.
Qed.

(** Closing an overlay takes it out, and leaves the others in their order. *)
Lemma close_stack i s : NoDup (escapeStack s) → i ∈ escapeStack s → escapeStack (close_overlay i s) = filter (fun j => j ≠ i) (escapeStack s).
Proof. intros Hnd Hi. unfold close_overlay, spliced; cbn [escapeStack]. by rewrite without_first_filter. Qed.

Lemma history_escape_ok hs s : history hs s → escape_ok s.
Proof.
  induction 1 as [|hs s i entry _ (Hnd & Hl & He)|hs s i _ (Hnd & Hl & He) Hi Hent|hs s i _ (Hnd & Hl & He) Hi]; unfold escape_ok; cbn [happen].
  - split_and!; [constructor|simpl; split; [done|intros H; by destruct H]|intros i Hi; by apply elem_of_nil in Hi].
  - split_and!; [done..|]. intros j Hj. simpl. case_decide; [done|by apply He].
  - cbn [escapeStack open_overlay entry_of listening]. split_and!.
    + apply NoDup_app. split_and!; [done| |apply NoDup_singleton].
      intros j Hj Hj'%list_elem_of_singleton. by subst.
    + rewrite length_app. simpl. split; [intros _ E; by apply app_eq_nil in E as [_ ?]|intros _].
      destruct (escapeStack s) as [|n l]; [done|]. destruct (Nat.eqb_spec (length (n :: l) + 1) 1); [done|]. by apply Hl.
    + intros j [Hj|Hj%list_elem_of_singleton]%elem_of_app; [by apply He|by subst].
  - pose proof (close_stack i s Hnd Hi) as Ec. split_and!.
    + rewrite Ec. by apply NoDup_filter.
    + cbn [listening close_overlay]. cbn [close_overlay escapeStack] in Ec |- *. rewrite Ec.
      destruct (filter (fun j => j ≠ i) (escapeStack s)) as [|k l] eqn:E; simpl; [by split|].
      split; [done|intros _]. apply Hl. intros E'. rewrite E' in Hi. by apply elem_of_nil in Hi.
    + intros j Hj. rewrite Ec in Hj. apply list_elem_of_filter in Hj as [_ Hj]. by apply He.
Qed.

Lemma history_order hs s : history hs s → escapeStack s = open_order hs ∧ ∀ i, entry_of s i = last_render hs i.
Proof.
  induction 1 as [|hs s i entry Hh [IHs IHe]|hs s i Hh [IHs IHe] Hi Hent|hs s i Hh [IHs IHe] Hi]; [done|..];
    unfold open_order, last_render in *; rewrite !foldl_app; simpl; rewrite <- ?IHs.
  - split; [done|]. intros j. rewrite foldl_app. simpl. by rewrite IHe.
  - split; [done|]. intros j. rewrite foldl_app. simpl. by rewrite IHe.
  - split; [|intros j; rewrite foldl_app; simpl; by rewrite IHe].
    destruct (history_escape_ok hs s Hh) as (Hnd & _). by apply close_stack.
Qed.

(** C24: whatever overlays opened and closed before, in any order, Escape goes to
    the newest that is still open and to it alone, to be closed with the
    callback it was last rendered with, and the browser does nothing of its own;
    in a field, one that leaves Escape to the field is not closed; and without
    an open overlay, or for another key, nothing happens. *)
Theorem escape_newest hs s event :
  history hs s →
  press s event =
    match last (open_order hs) with
    | Some i =>
        match last_render hs i with
        | Some entry =>
            if bool_decide (event_key event = "Escape"%string) && negb (event_prevented event) &&
               (entry_whileEditing entry || negb (event_editing event))
            then mkPressed (Some (entry_onClose entry)) true
            else mkPressed None (event_prevented event)
        | None => mkPressed None (event_prevented event)
        end
    | None => mkPressed None (event_prevented event)
    end.
Proof.
  intros Hh. destruct (history_escape_ok hs s Hh) as (_ & Hl & He). destruct (history_order hs s Hh) as [Es Ee].
  unfold press, onEscape. rewrite <- Es.
  destruct (last (escapeStack s)) as [i|] eqn:El.
  - assert (escapeStack s ≠ []) as Hne by (intros E; by rewrite E in El).
    rewrite (proj2 Hl Hne). rewrite <- Ee.
    destruct (He i) as [entry E].
    { apply last_Some in El as [l ->]. apply elem_of_app. right. by apply list_elem_of_singleton. }
    simpl. rewrite E. destruct event as [key [] []], entry as [onClose []]; simpl; case_bool_decide; done.
  - apply last_None in El. destruct (listening s); [exfalso; by apply (proj1 Hl eq_refl)|done].
Qed.

Definition drawer : EscapeEntry := mkEscapeEntry "drawer" true.
Definition menu : EscapeEntry := mkEscapeEntry "menu" false.

(** A menu opens over a drawer, and the drawer is closed under it. *)
Definition menu_over_drawer : list Happening :=
  [happens_render 1 drawer; happens_open 1; happens_render 2 menu; happens_open 2; happens_close 1].

Lemma escape_newest_witness :
  called (press (foldl happen no_overlays menu_over_drawer) (mkKeyEvent "Escape" false false)) = Some "menu"%string.
Proof.
  pose proof (history_render _ _ 1 drawer history_start) as h1.
  pose proof (history_open _ _ 1 h1 ltac:(apply not_elem_of_nil) ltac:(by eexists)) as h2.
  pose proof (history_render _ _ 2 menu h2) as h3.
  pose proof (history_open _ _ 2 h3 ltac:(apply (bool_decide_unpack _); vm_compute; exact I) ltac:(by eexists)) as h4.
  pose proof (history_close _ _ 1 h4 ltac:(apply (bool_decide_unpack _); vm_compute; exact I)) as h5.
  etransitivity; [exact (f_equal called (escape_newest _ _ (mkKeyEvent "Escape" false false) h5))|].
  vm_compute. reflexivity.
Defined.

(** ** Focus *)

(** Something focus can land on, and whether it asks to be the last choice. *)
Record Focusable := mkFocusable { focus_id : nat; focus_last : bool }.

(** Where focus goes when an overlay opens; [None] is the overlay itself. *)
Definition first_focus (candidates : list Focusable) : option nat :=
  match head (filter (fun el => focus_last el = false) candidates) with
  | Some el => Some (focus_id el)
  | None => focus_id <$> head candidates
  end.

(** What Tab does in an overlay that traps it: the element focused instead, if
    any, and whether the browser's own move is prevented. *)
Definition tab_trapped (items : list nat) (active : nat) (shift : bool) : option nat * bool :=
  match head items, last items with
  | Some firstItem, Some lastItem =>
      if shift && bool_decide (active = firstItem) then (Some lastItem, true)
      else if negb shift && bool_decide (active = lastItem) then (Some firstItem, true)
      else (None, false)
  | _, _ => (None, true)
  end.

(** ** The scroll lock

    What the page's body overflows with, and what each open dialog found. *)

Record ScrollState := mkScrollState { body_overflow : string; found : list (nat * string) }.

Definition lock (i : nat) (s : ScrollState) : ScrollState :=
  mkScrollState "hidden" (jset (found s) i (body_overflow s)).

Definition unlock (i : nat) (s : ScrollState) : ScrollState :=
  match jget (found s) i with
  | Some before => mkScrollState before (filter (fun e => e.1 ≠ i) (found s))
  | None => s
  end.

(** Dialogs that close the newest first give the page back as it was. *)
Lemma lock_unlock i s : unlock i (lock i s) = mkScrollState (body_overflow s) (filter (fun e => e.1 ≠ i) (found (lock i s))).
Proof. unfold unlock, lock; cbn [found]. by rewrite jget_jset_eq. Qed.

(** Two dialogs that close in the order they opened leave the page unable to
    scroll, with no dialog open. *)
Example lock_sticks :
  unlock 2 (unlock 1 (lock 2 (lock 1 (mkScrollState EmptyString [])))) = mkScrollState "hidden" [].
Proof. vm_compute. reflexivity. Qed.

(** ** Ids *)

Definition nextId (prefix : string) (counter : Z) : string * Z :=
  (prefix +:+ "-" +:+ stringOfInt (counter + 1), counter + 1).

(** ** Anchored panels *)

Inductive AnchoredSide := side_top | side_bottom | side_right.
#[export] Instance AnchoredSide_eq : EqDecision AnchoredSide.
Proof. solve_decision. Defined.
Inductive Align := align_start | align_end.
#[export] Instance Align_eq : EqDecision Align.
Proof. solve_decision. Defined.

Record Size := mkSize { size_width : Q; size_height : Q }.
Record Rect := mkRect { rect_top : Q; rect_bottom : Q; rect_left : Q; rect_right : Q; rect_height : Q }.

Record AnchoredBox := mkAnchoredBox {
  box_top : Q;
  box_left : option Q;
  box_right : option Q;
  box_maxHeight : Q;
}.

Open Scope Q_scope.

Definition q_leb (a b : Q) : bool := Qle_bool a b.
Definition q_ltb (a b : Q) : bool := negb (Qle_bool b a).

Definition anchoredBox (anchor : Rect) (panel view : Size) (align : Align) (side : AnchoredSide) : AnchoredBox :=
  let gap := inject_Z MENU_GAP_PX in
  let edge := inject_Z POPOVER_EDGE_PX in
  let limit := inject_Z POPOVER_MAX_HEIGHT_PX in
  if decide (side = side_right) then
    let maxHeight := Qmin limit (size_height view - 2 * edge) in
    let height := Qmin (size_height panel) maxHeight in
    mkAnchoredBox
      (Qmax edge (Qmin (rect_top anchor + rect_height anchor / 2 - height / 2) (size_height view - edge - height)))
      (Some (Qmin (rect_right anchor + gap) (size_width view - size_width panel))) None maxHeight
  else
    let below := rect_bottom anchor + gap in
    let roomBelow := size_height view - edge - below in
    let roomAbove := rect_top anchor - gap - edge in
    let fitsBelow := q_leb (size_height panel) roomBelow in
    let fitsAbove := q_leb (size_height panel) roomAbove in
    let goesBelow := if decide (side = side_bottom)
      then fitsBelow || (negb fitsAbove && q_leb roomAbove roomBelow)
      else negb fitsAbove && (fitsBelow || q_ltb roomAbove roomBelow) in
    let maxHeight := Qmax 0 (Qmin limit (if goesBelow then roomBelow else roomAbove)) in
    let top := if goesBelow then below else rect_top anchor - gap - Qmin (size_height panel) maxHeight in
    if decide (align = align_end)
    then mkAnchoredBox top None (Some (Qmax 0 (size_width view - rect_right anchor))) maxHeight
    else mkAnchoredBox top (Some (Qmax 0 (Qmin (rect_left anchor) (size_width view - size_width panel)))) None maxHeight.

(** How tall a panel is drawn: what it asks for, and no more than it may. *)
Definition drawn_height (panel : Size) (box : AnchoredBox) : Q := Qmin (size_height panel) (box_maxHeight box).

Lemma q_leb_true a b : q_leb a b = true ↔ a <= b.
Proof. apply Qle_bool_iff. Qed.
Lemma q_leb_false a b : q_leb a b = false ↔ b < a.
Proof. unfold q_leb. rewrite <- not_true_iff_false, Qle_bool_iff. split; [apply Qnot_le_lt|apply Qlt_not_le]. Qed.

Lemma goes_below_room (p below above : Q) (b : bool) :
  0 <= p → 0 <= below ∨ 0 <= above →
  b = (if b then true else false) →
  (b = true → p <= below ∨ (above < p ∧ above <= below) ∨ (above < p ∧ above < below)) →
  (b = false → p <= above ∨ (below < p ∧ below <= above)) →
  0 <= (if b then below else above) ∧ ((p <= below ∨ p <= above) → p <= (if b then below else above)).
Proof.
  intros Hp Hroom _ Ht Hf. destruct b.
  - destruct (Ht eq_refl) as [?|[[? ?]|[? ?]]]; split; try lra; (destruct Hroom; lra).
  - destruct (Hf eq_refl) as [?|[? ?]]; split; try lra; destruct Hroom; lra.
Qed.

(** A panel above or below its anchor stays on the page: with room on either
    side of an anchor that is in view, the panel as it is drawn keeps the edge's
    distance from the top and the bottom, is drawn whole when it fits on a side
    and is not too tall for one, and does not leave the page to the left, nor
    to the right when it is no wider than the page. *)
Theorem anchored_in_view anchor panel view align side :
  side ≠ side_right → 0 <= size_height panel →
  4 <= rect_bottom anchor → rect_top anchor <= size_height view - 4 →
  0 <= size_height view - 8 - (rect_bottom anchor + 4) ∨ 0 <= rect_top anchor - 4 - 8 →
  let box := anchoredBox anchor panel view align side in
  8 <= box_top box ∧ box_top box + drawn_height panel box <= size_height view - 8 ∧
  (size_height panel <= size_height view - 8 - (rect_bottom anchor + 4) ∨ size_height panel <= rect_top anchor - 4 - 8 →
    size_height panel <= 560 → drawn_height panel box == size_height panel) ∧
  (∀ left, box_left box = Some left → 0 <= left ∧ (size_width panel <= size_width view → left + size_width panel <= size_width view)) ∧
  (∀ right, box_right box = Some right → 0 <= right).
Proof.
  intros Hside Hp Hb Ht Hroom box.
  set (below := size_height view - 8 - (rect_bottom anchor + 4)) in *. set (above := rect_top anchor - 4 - 8) in *.
  assert (∃ b : bool, (b = true → size_height panel <= below ∨ (above < size_height panel ∧ above <= below) ∨ (above < size_height panel ∧ above < below)) ∧
    (b = false → size_height panel <= above ∨ (below < size_height panel ∧ below <= above)) ∧
    box_maxHeight box = Qmax 0 (Qmin 560 (if b then below else above)) ∧
    box_top box = (if b then rect_bottom anchor + 4 else rect_top anchor - 4 - Qmin (size_height panel) (box_maxHeight box)) ∧
    (∀ left, box_left box = Some left → left = Qmax 0 (Qmin (rect_left anchor) (size_width view - size_width panel))) ∧
    (∀ right, box_right box = Some right → right = Qmax 0 (size_width view - rect_right anchor))) as (b & Htrue & Hfalse & Emax & Etop & El & Er).
  { subst box. unfold anchoredBox. change (inject_Z MENU_GAP_PX) with 4. change (inject_Z POPOVER_EDGE_PX) with 8.
    change (inject_Z POPOVER_MAX_HEIGHT_PX) with 560. rewrite (decide_False (P := side = side_right)) by done.
    fold below above. set (b := if decide (side = side_bottom) then _ else _). exists b. split_and!.
    - subst b. destruct (decide (side = side_bottom)); intros Hgo.
      + apply orb_true_iff in Hgo as [Hgo%q_leb_true|[Hn%negb_true_iff%q_leb_false Hgo%q_leb_true]%andb_true_iff]; auto.
      + apply andb_true_iff in Hgo as [Hn%negb_true_iff%q_leb_false [Hgo%q_leb_true|Hgo]%orb_true_iff]; [auto|].
        apply negb_true_iff, q_leb_false in Hgo. auto.
    - subst b. destruct (decide (side = side_bottom)); intros Hgo.
      + apply orb_false_iff in Hgo as [Hn%q_leb_false Hgo]. apply andb_false_iff in Hgo as [Hgo%negb_false_iff%q_leb_true|Hgo%q_leb_false]; [auto|].
        right. split; [done|lra].
      + apply andb_false_iff in Hgo as [Hgo%negb_false_iff%q_leb_true|Hgo]; [auto|].
        apply orb_false_iff in Hgo as [Hn%q_leb_false Hgo%negb_false_iff%Qle_bool_iff]. auto.
    - by destruct (decide (align = align_end)).
    - by destruct (decide (align = align_end)).
    - destruct (decide (align = align_end)); cbn [box_left]; intros left E; by simplify_eq.
    - destruct (decide (align = align_end)); cbn [box_right]; intros right E; by simplify_eq. }
  destruct (goes_below_room (size_height panel) below above b Hp Hroom ltac:(by destruct b) Htrue Hfalse) as [Hin Hfit].
  assert (0 <= box_maxHeight box ∧ box_maxHeight box <= (if b then below else above) ∧
    (560 <= box_maxHeight box ∨ (if b then below else above) <= box_maxHeight box)) as (Hm0 & Hmle & Hmge).
  { rewrite Emax. clear -Hin. set (room := if b then below else above) in *.
    destruct (Q.min_spec 560 room) as [[? E]|[? E]]; destruct (Q.max_spec 0 (Qmin 560 room)) as [[? E']|[? E']]; rewrite E', E in *;
      split_and!; try lra; first [left; lra|right; lra]. }
  unfold drawn_height. set (h := Qmin (size_height panel) (box_maxHeight box)) in *.
  assert (0 <= h ∧ h <= box_maxHeight box ∧ h <= size_height panel) as (Hh0 & Hhm & Hhp).
  { subst h. split_and!; [by apply Q.min_glb|apply Q.le_min_r|apply Q.le_min_l]. }
  split_and!.
  - rewrite Etop. destruct b; [lra|]. unfold above in *. lra.
  - rewrite Etop. destruct b; [|lra]. unfold below in *. lra.
  - intros Hside' Hlimit. subst h. apply Q.min_l. specialize (Hfit Hside'). destruct Hmge; lra.
  - intros left ->%El. split; [apply Q.le_max_l|]. intros Hw.
    pose proof (Q.le_min_r (rect_left anchor) (size_width view - size_width panel)).
    destruct (Q.max_spec 0 (Qmin (rect_left anchor) (size_width view - size_width panel))) as [[_ ->]|[_ ->]]; lra.
  - intros right ->%Er. apply Q.le_max_l.
Qed.

Definition small_anchor : Rect := mkRect 100 120 30 90 20.

Lemma anchored_in_view_witness :
  let box := anchoredBox small_anchor (mkSize 200 300) (mkSize 800 600) align_start side_bottom in
  box_top box + drawn_height (mkSize 200 300) box <= 600 - 8.
Proof.
  apply (anchored_in_view small_anchor (mkSize 200 300) (mkSize 800 600) align_start side_bottom);
    [done|simpl; lra..|left; simpl; lra].
Defined.
