(* ===== verification/Format.v ===== *)
(** Times and days in the reader's own zone: [web/src/lib/format.ts].

    What the internationalisation library says of an instant is a parameter:
    the text a formatter makes of it, and the parts of the clock on the wall. *)

From Stdlib Require Import ZArith QArith Qround Lia Lqa Ascii String.
From stdpp Require Import base list strings.
From S2P Require Import Prelude JsString Config JsDate DayText Scale ScaleFacts Week.

Open Scope Z_scope.

Definition MINUTE : Z := 60.
Definition HOUR : Z := 60 * MINUTE.
Definition DAY : Z := 24 * HOUR.
Definition MONTH : Z := 30 * DAY.

(** [t.kit.ago]. *)
Record AgoWords := mkAgoWords {
  ago_now : string;
  ago_minutes : Z → string;
  ago_hours : Z → string;
  ago_days : Z → string;
}.

Definition ago_en : AgoWords :=
  mkAgoWords "just now" (fun count => stringOfInt count +:+ "m ago") (fun count => stringOfInt count +:+ "h ago")
    (fun count => stringOfInt count +:+ "d ago").

(** [Math.round(a / b)] of whole numbers. *)
Definition rounded (a b : Z) : Z := js_round (inject_Z a / inject_Z b).

(** How long ago an instant was; [date] writes one too old to count. *)
Definition relativeIn (words : AgoWords) (date : Z → string) (then_ now : Z) : string :=
  let seconds := rounded (now - then_) 1000 in
  if seconds <? MINUTE then ago_now words
  else
    let minutes := rounded seconds MINUTE in
    if minutes <? 60 then ago_minutes words minutes
    else
      let hours := rounded seconds HOUR in
      if hours <? 24 then ago_hours words hours
      else
        let days := rounded seconds DAY in
        if seconds <? MONTH then ago_days words days
        else date then_.

(** ** The clock on the wall *)

(** The parts of an instant in a zone. *)
Record WallParts := mkWallParts {
  wall_year : Z; wall_month : Z; wall_day : Z; wall_hour : Z; wall_minute : Z; wall_second : Z;
}.

(** [formatToParts] with a zone's clock; [None] is a zone the browser does not
    know, for which its own is read. *)
Class Clocks := {
  parts_in : string → Z → option WallParts;
  browser_parts : Z → WallParts;
}.

(** [Date.UTC] with a time of the day. *)
Definition utc_of (p : WallParts) : Z :=
  date_UTC (wall_year p) (wall_month p - 1) (wall_day p) +
  ((wall_hour p * 60 + wall_minute p) * 60 + wall_second p) * 1000.

Definition wallClock `{!Clocks} (instant : Z) (timezone : string) : Z :=
  utc_of (default (browser_parts instant) (parts_in timezone instant)).

Definition todayIn `{!Clocks} (timezone : string) (now : Z) : string := iso_slice (wallClock now timezone).

(** [Date.parse(`${day}T23:59:59Z`)]. *)
Definition last_second (day : string) : option Z := parse_date (day +:+ "T23:59:59Z").

(** The instant the API keeps, before it is written out. *)
Definition end_of_day `{!Clocks} (wall : Z) (timezone : string) : Z :=
  let guess := wall - (wallClock wall timezone - wall) in
  wall - (wallClock guess timezone - guess).

(** [toISOString().replace(".000Z", "Z")] of an instant that is a whole second. *)
Definition iso_seconds (t : Z) : string :=
  let second := (t mod MS_PER_DAY) / 1000 in
  iso_slice t +:+ "T" +:+ padStart 2 (stringOfInt (second / 3600)) +:+ ":" +:+
  padStart 2 (stringOfInt (second / 60 mod 60)) +:+ ":" +:+ padStart 2 (stringOfInt (second mod 60)) +:+ "Z".

(** [None] throws: the text is no day. *)
Definition endOfDayIn `{!Clocks} (day timezone : string) : option string :=
  wall ← last_second day; Some (iso_seconds (end_of_day wall timezone)).

(** ** How long ago, in words that fit *)

Lemma rounded_near a b : 0 < b → 2 * b * rounded a b - b <= 2 * a < 2 * b * rounded a b + b.
Proof.
  intros Hb. unfold rounded, js_round.
  assert (inject_Z a / inject_Z b + (1 # 2) == inject_Z (2 * a + b) / inject_Z (2 * b))%Q as ->.
  { rewrite inject_Z_plus, !inject_Z_mult. field. intros E. unfold Qeq in E. simpl in E. lia. }
  destruct b as [|b|b]; try lia.
  change (Qfloor (inject_Z (2 * a + Z.pos b) / inject_Z (2 * Z.pos b))) with ((2 * a + Z.pos b) * 1 / Z.pos (1 * (2 * b))).
  rewrite Z.mul_1_r. change (Z.pos (1 * (2 * b))) with (2 * Z.pos b). set (c := Z.pos b) in *.
  pose proof (Z.div_mod (2 * a + c) (2 * c) ltac:(lia)). pose proof (Z.mod_pos_bound (2 * a + c) (2 * c) ltac:(lia)). nia.
Qed.

(** What is said of how long ago something was, as the unit and the count. *)
Inductive Ago := said_now | said_minutes (n : Z) | said_hours (n : Z) | said_days (n : Z) | said_date.

Definition told (words : AgoWords) (date : Z → string) (then_ : Z) (a : Ago) : string :=
  match a with
  | said_now => ago_now words
  | said_minutes n => ago_minutes words n
  | said_hours n => ago_hours words n
  | said_days n => ago_days words n
  | said_date => date then_
  end.

(** A time is told in the largest unit there is at least one of, no count
    overflows into the unit above it, and what is told is within half a unit,
    and half a second, of how long it was. *)
Lemma relative_fits words date then_ now :
  let ms := now - then_ in
  ∃ a, relativeIn words date then_ now = told words date then_ a ∧
    match a with
    | said_now => 2 * ms < 119000
    | said_minutes n => 1 <= n <= 59 ∧ Z.abs (2 * ms - 2 * 60000 * n) <= 61000
    | said_hours n => 1 <= n <= 23 ∧ Z.abs (2 * ms - 2 * 3600000 * n) <= 3601000
    | said_days n => 1 <= n <= 30 ∧ Z.abs (2 * ms - 2 * 86400000 * n) <= 86401000
    | said_date => 2 * 2592000000 <= 2 * ms + 1000
    end.
Proof.
  cbv zeta. unfold relativeIn. cbv zeta.
  pose proof (rounded_near (now - then_) 1000 ltac:(lia)) as Hs. set (seconds := rounded (now - then_) 1000) in *.
  unfold MONTH, DAY, HOUR, MINUTE.
  pose proof (rounded_near seconds 60 ltac:(lia)). pose proof (rounded_near seconds (60 * 60) ltac:(lia)).
  pose proof (rounded_near seconds (24 * (60 * 60)) ltac:(lia)).
  destruct (Z.ltb_spec seconds 60); [exists said_now; split; [done|lia]|].
  destruct (Z.ltb_spec (rounded seconds 60) 60); [exists (said_minutes (rounded seconds 60)); split; [done|lia]|].
  destruct (Z.ltb_spec (rounded seconds (60 * 60)) 24); [exists (said_hours (rounded seconds (60 * 60))); split; [done|lia]|].
  destruct (Z.ltb_spec seconds (30 * (24 * (60 * 60)))); [exists (said_days (rounded seconds (24 * (60 * 60)))); split; [done|lia]|].
  exists said_date. split; [done|lia].
Qed.

(** ** The end of a day is the end of it on the reader's clock *)

(** Around an instant, a clock is [before] ahead of UTC until some instant, and
    [after] ahead from it on: the zone's clocks change at most once on the days
    in question, by whole seconds and by less than a day. *)
Definition changes_once `{!Clocks} (timezone : string) (around change before after : Z) : Prop :=
  (before mod 1000 = 0 ∧ Z.abs before <= MS_PER_DAY) ∧ (after mod 1000 = 0 ∧ Z.abs after <= MS_PER_DAY) ∧
  ∀ t, Z.abs (t - around) <= MS_PER_DAY → t mod 1000 = 0 →
    wallClock t timezone = t + (if t <? change then before else after).

(** Asked twice, the offset is the evening's: whenever the clock on the wall
    shows the last second of the day at some instant, the instant that is kept
    is one at which it does, whether or not, and whichever way, the clocks
    change around it. *)
Theorem end_of_day_on_the_clock `{!Clocks} wall timezone change before after t :
  changes_once timezone wall change before after →
  t mod 1000 = 0 → Z.abs (t - wall) <= MS_PER_DAY → wallClock t timezone = wall →
  wallClock (end_of_day wall timezone) timezone = wall.
Proof.
  intros ([Hb Hbd] & [Ha Had] & Hc) Ht Htw Hw. set (o := fun x => if x <? change then before else after).
  change (∀ t, Z.abs (t - wall) <= MS_PER_DAY → t mod 1000 = 0 → wallClock t timezone = t + o t) in Hc.
  assert (∀ x, o x mod 1000 = 0 ∧ Z.abs (wall - o x - wall) <= MS_PER_DAY) as Ho.
  { intros x. unfold o. destruct (x <? change); split; (done || lia). }
  assert (∀ x y, x mod 1000 = 0 → (x + o y) mod 1000 = 0 ∧ (x - o y) mod 1000 = 0) as Hsum.
  { intros x y Hx. destruct (Ho y) as [Hoy _]. generalize dependent (o y). intros. div_lia. }
  rewrite Hc in Hw by done. assert (wall mod 1000 = 0) as Hwall by (rewrite <- Hw; by apply Hsum).
  unfold end_of_day. rewrite (Hc wall) by (done || (rewrite Z.sub_diag; done)).
  replace (wall - (wall + o wall - wall)) with (wall - o wall) by lia.
  rewrite (Hc (wall - o wall)) by (apply Ho || by apply Hsum).
  replace (wall - (wall - o wall + o (wall - o wall) - (wall - o wall))) with (wall - o (wall - o wall)) by lia.
  rewrite Hc by (apply Ho || by apply Hsum). subst wall. unfold o.
  clear. repeat match goal with
  | |- context [?a <? ?b] => destruct (Z.ltb_spec a b)
  | H : context [?a <? ?b] |- _ => destruct (Z.ltb_spec a b)
  end; lia.
Qed.

(** A zone an hour ahead of UTC that is two hours ahead from 01:00 UTC on 31 March
    2024. *)
#[export] Instance spring_clocks : Clocks := {|
  parts_in _ t :=
    let w := t + (if t <? 1711846800000 then 3600000 else 7200000) in
    let '(y, m, d) := civil_of (day_number w) in
    let s := (w mod MS_PER_DAY) / 1000 in
    Some (mkWallParts y m d (s / 3600) (s / 60 mod 60) (s mod 60));
  browser_parts _ := mkWallParts 1970 1 1 0 0 0;
|}.

Example end_of_spring_day : endOfDayIn "2024-03-31" "Europe/Berlin" = Some "2024-03-31T21:59:59Z"%string.
Proof. vm_compute. reflexivity. Qed.


Lemma spring_wallClock t :
  MODERN <= t → t mod 1000 = 0 →
  wallClock t "Europe/Berlin" = t + (if t <? 1711846800000 then 3600000 else 7200000).
Proof.
  intros Hm Ht. unfold wallClock, parts_in, spring_clocks. cbv beta zeta.
  set (w := t + (if t <? 1711846800000 then 3600000 else 7200000)).
  assert (MODERN <= w ∧ w mod 1000 = 0) as [Hw Hmod].
  { unfold w. destruct (t <? 1711846800000); split; (lia || div_lia). }
  pose proof (midnight w Hw) as Hd. revert Hd. unfold getUTCFullYear, getUTCMonth, getUTCDate.
  destruct (civil_of (day_number w)) as [[y m] d]. cbn [fst snd default id]. intros Hd.
  unfold utc_of, id. cbn [wall_year wall_month wall_day wall_hour wall_minute wall_second]. rewrite Hd.
  clearbody w. clear -Hmod. unfold day_number, MS_PER_DAY in *. div_lia.
Qed.

Lemma end_of_day_on_the_clock_witness :
  wallClock (end_of_day 1711929599000 "Europe/Berlin") "Europe/Berlin" = 1711929599000.
Proof.
  apply (end_of_day_on_the_clock 1711929599000 "Europe/Berlin" 1711846800000 3600000 7200000 1711922399000).
  - split; [split; [reflexivity|discriminate]|]. split; [split; [reflexivity|discriminate]|].
    intros t Hn Ht. apply spring_wallClock; [|done]. unfold MODERN. change (days_of 100 1 1) with (-683003).
    unfold MS_PER_DAY in *. lia.
  - reflexivity.
  - discriminate.
  - rewrite spring_wallClock; [reflexivity|discriminate|reflexivity].
Defined.
