(* ===== verification/Guide.v ===== *)
(** The guide's matching of questions: [web/src/features/guide/match.ts], with
    the German words of [words.de.ts] and the entries' type of [catalogue.ts].

    A question's words, and the answers to it, best first.  The entries that are
    asked are an argument; texts are of Latin-1 units.  The code looks words up
    in plain objects, where "constructor" finds the function every object
    inherits; that function is then one word like any other, so the model keeps
    the word itself. *)

From Stdlib Require Import ZArith QArith Qround Lia Lqa Ascii String.
From stdpp Require Import base sets list strings sorting.
From S2P Require Import Prelude JsString Config Api Features.

Open Scope Z_scope.

(** ** The lists of words *)

Definition unit_text (n : Z) : string := String (unit_of n) EmptyString.

Definition STOP_WORDS_DE : list string :=
  ([
   "wo"; "wie"; "was"; "welche"; "welcher"; "welches"; "wann"; "ich"; "mir"; "mich"; "man"; "wir"; "sie"; "es";
   "der"; "die"; "das"; "den"; "dem"; "des"; "ein"; "eine"; "einen"; "einem"; "einer"; "eines"; "und"; "oder"; "zu";
   "zum"; "zur"; "von"; "vom"; "f" +:+ unit_text 252 +:+ "r"; "mit"; "auf"; "im"; "ist"; "sind"; "kann";
   "k" +:+ unit_text 246 +:+ "nnen"; "soll"; "m" +:+ unit_text 246 +:+ "chte"; "will"; "gibt"; "finde"; "finden";
   "sehe"; "sehen"; "zeige"; "zeigen"; "bitte"; "hier"; "dort"; "da"; "mein"; "meine"; "meinen"; "meiner"; "alle";
   "jede"; "jeder"; "seite"; "etwas"; "irgendwo"])%string.

Definition SYNONYMS_DE : list (string * string) :=
  ([
   ("vorg" +:+ unit_text 228 +:+ "nge", "vorgang"); ("tickets", "vorgang"); ("ticket", "vorgang");
   ("aufgabe", "vorgang"); ("aufgaben", "vorgang"); ("zeitplan", "plan"); ("zeitleiste", "plan");
   ("diagramm", "dashboard"); ("diagramme", "dashboard"); ("berichte", "dashboard"); ("bericht", "dashboard");
   ("schl" +:+ unit_text 252 +:+ "ssel", "token"); ("passwort", "profil"); ("anmeldung", "zugriff");
   ("berechtigungen", "rolle"); ("berechtigung", "rolle"); ("rechte", "rolle"); ("rollen", "rolle");
   ("leute", "mitglied"); ("person", "mitglied"); ("benutzer", "mitglied"); ("kollegen", "mitglied");
   ("kollege", "mitglied"); ("jemand", "mitglied"); ("jemanden", "mitglied"); ("meilensteine", "meilenstein");
   ("versionen", "version"); ("schlagw" +:+ unit_text 246 +:+ "rter", "schlagwort");
   ("benachrichtigungen", "benachrichtigung");
   ("abh" +:+ unit_text 228 +:+ "ngigkeiten", "abh" +:+ unit_text 228 +:+ "ngigkeit"); ("workflows", "workflow");
   ("projekte", "projekt"); ("felder", "feld"); ("boards", "board")])%string.

Definition KEYWORDS_DE : list (string * list string) :=
  ([
   ("page:/issues", ["vorgang"; "liste"; "tabelle"; "filter"; "offen"]);
   ("page:/board", ["board"; "spalte"; "karte"; "swimlane"; "ziehen"]);
   ("page:/sprints", ["sprint"; "iteration"; "geschwindigkeit"; "backlog"]);
   ("page:/plan", ["plan"; "zeitplan"; "zeitleiste"; "abh" +:+ unit_text 228 +:+ "ngigkeit"; "versp" +:+ unit_text 228 +:+ "tet"; "roadmap"; "termin"]);
   ("page:/calendar", ["kalender"; "monat"; "woche"; "tag"; "datum"; "f" +:+ unit_text 228 +:+ "llig"; "wann"]);
   ("page:/resources", ["ressource"; "kapazit" +:+ unit_text 228 +:+ "t"; "auslastung"; "arbeitslast"; "stunden"; "verf" +:+ unit_text 252 +:+ "gbarkeit"; unit_text 252 +:+ "berlastet"]);
   ("page:/milestones", ["meilenstein"; "f" +:+ unit_text 228 +:+ "llig"; unit_text 252 +:+ "berf" +:+ unit_text 228 +:+ "llig"; "fortschritt"; "frist"]);
   ("page:/releases", ["version"; "ausliefern"; "versionshinweise"; "ver" +:+ unit_text 246 +:+ "ffentlichen"; "l" +:+ unit_text 246 +:+ "sungsversion"]);
   ("page:/dashboard", ["dashboard"; "diagramm"; "widget"; "bericht"; "kennzahl"; "statistik"; "durchsatz"]);
   ("page:/hierarchy", ["hierarchie"; "epic"; "baum"; unit_text 252 +:+ "bergeordnet"; "untergeordnet"; "aufschl" +:+ unit_text 252 +:+ "sselung"]);
   ("page:/queues", ["warteschlange"; "anfrage"; "servicedesk"; "wartend"]);
   ("page:/service-desk", ["servicedesk"; "portal"; "anfrage"; "e-mail"; "kunde"; "support"]);
   ("page:/teams", ["team"; "mitglied"; "kapazit" +:+ unit_text 228 +:+ "t"]);
   ("page:/workflows", ["workflow"; "status"; unit_text 252 +:+ "bergang"; "schema"; "typ"; "zuordnung"]);
   ("page:/fields", ["feld"; "eigenes"; "spalte"; "eigenschaft"]);
   ("page:/issue-view", ["vorgangsansicht"; "anordnung"; "feld"]);
   ("page:/issue-types", ["vorgangstyp"; "typ"; "erlauben"; "reihenfolge"; "aufgabe"; "fehler"]);
   ("page:/components", ["komponente"; "teil"; "modul"; "bereich"; "leitung"; "standardbearbeiter"]);
   ("page:/repositories", ["repository"; "git"; "branch"; "commit"; "webhook"]);
   ("page:/automation", ["automatisierung"; "regel"; "automatisch"; "ausl" +:+ unit_text 246 +:+ "ser"; "aktion"; "zeitplan"; "lauf"; "protokoll"]);
   ("page:/import", ["import"; "importieren"; "csv"; "datei"; "hochladen"; "tabelle"; "excel"; "migrieren"]);
   ("page:/settings", ["projekt"; "einstellung"; "umbenennen"; "leitung"; "archivieren"; "l" +:+ unit_text 246 +:+ "schen"]);
   ("page:home", ["start"; unit_text 252 +:+ "bersicht"; "meins"; "zuletzt"]);
   ("page:projects", ["projekt"; "neu"; "anlegen"; "vorlage"; "liste"]);
   ("page:search", ["suche"; "suchen"; "abfrage"; "finden"; "filter"; "syntax"; "hilfe"]);
   ("page:filters", ["gespeichert"; "suche"; "filter"; "abfrage"; "abonnement"; "abonnieren"; "markiert"; "e-mail"]);
   ("page:inbox", ["benachrichtigung"; "glocke"; "ungelesen"; "erw" +:+ unit_text 228 +:+ "hnung"; "erw" +:+ unit_text 228 +:+ "hnt"; "posteingang"]);
   ("page:settings", ["einstellung"; "einstellungen"; "konfigurieren"]);
   ("page:admin", ["admin"; "administration"; "verwaltung"; "administrator"; "installation"; "alle"; "konfigurieren"]);
   ("page:profile", ["profil"; "name"; "bild"; "avatar"; "foto"; "zeitzone"; "sprache"; "datum"; "konto"; "passwort"]);
   ("page:tokens", ["token"; "zugriffstoken"; "api"; "schl" +:+ unit_text 252 +:+ "ssel"; "skript"; "assistent"; "geheimnis"; "lesen"]);
   ("page:installation", ["installation"; "name"; "umbenennen"; "titel"]);
   ("page:access", ["zugriff"; "rolle"; "berechtigung"; "gruppe"; "einladen"; "einladung"; "mitglied"; "anmeldung"; "administrator"]);
   ("page:org-workflows", ["workflow"; "schema"; "status"; unit_text 252 +:+ "bergang"; "designer"; "entwerfen"; "alle projekte"]);
   ("page:org-automation", ["automatisierung"; "regel"; "automatisch"; "ausl" +:+ unit_text 246 +:+ "ser"; "alle projekte"]);
   ("page:webhooks", ["webhook"; "ereignis"; "endpunkt"; "integration"; "signatur"; "geheimnis"; "zustellung"]);
   ("page:holidays", ["feiertag"; "feiertage"; "kalender"; "frei"; "urlaub"; "arbeitswoche"; "teilzeit"; "stunden"]);
   ("page:project-templates", ["vorlage"; "projektvorlage"; "duplizieren"; "schema"; "vorgangstypen"; "neues projekt"]);
   ("page:labels", ["schlagwort"; "etikett"; "wort"]);
   ("action:new-issue", ["anlegen"; "erstellen"; "neu"; "vorgang"; "bug"; "aufgabe"; "melden"]);
   ("action:share-dashboard", ["teilen"; "link"; unit_text 246 +:+ "ffentlich"; "extern"; "bildschirm"; "widerrufen"; "dashboard"]);
   ("action:export-pdf", ["exportieren"; "export"; "pdf"; "drucken"; "herunterladen"; "datei"; "dashboard"]);
   ("action:dashboard-template", ["vorlage"; "dashboard"; "speichern"; "kopieren"; "neu"]);
   ("action:milestone-dashboard", ["meilenstein"; "dashboard"; "fortschritt"; "version"; "verfolgen"]);
   ("action:filter-dashboard", ["filter"; "filtern"; "eingrenzen"; "team"; "typ"; "zeitraum"; "dashboard"; "kachel"]);
   ("action:map-workflow", ["workflow"; "typ"; "zuordnen"; "zuordnung"; "entscheiden"; unit_text 228 +:+ "ndern"; "eigener"; "status"]);
   ("action:design-workflow", ["entwerfen"; "zeichnen"; "workflow"; "status"; unit_text 252 +:+ "bergang"; "designer"; "neu"; "bearbeiten"]);
   ("action:create-token", ["token"; "zugriffstoken"; "erstellen"; "erstelle"; "anlegen"; "api"; "schl" +:+ unit_text 252 +:+ "ssel"; "skript"; "assistent"]);
   ("action:notification-settings", ["e-mail"; "zusammenfassung"; "b" +:+ unit_text 252 +:+ "ndeln"; "stumm"; "aus"; "benachrichtigung"; "einstellung"]);
   ("action:mention", ["erw" +:+ unit_text 228 +:+ "hnen"; "erw" +:+ unit_text 228 +:+ "hnung"; "name"; "kommentar"; "beobachter"; "benachrichtigen"]);
   ("action:automation-rule", ["automatisierung"; "regel"; "automatisch"; "ausl" +:+ unit_text 246 +:+ "ser"; "wenn"; "dann"; "zeitplan"; "laufprotokoll"]);
   ("action:save-search", ["speichern"; "suche"; "filter"; "abfrage"; "benannt"; "teilen"; "merken"]);
   ("action:export-csv", ["exportieren"; "export"; "csv"; "datei"; "herunterladen"; "tabelle"; "excel"; "vorg" +:+ unit_text 228 +:+ "nge"; "ausgew" +:+ unit_text 228 +:+ "hlt"]);
   ("action:bulk", ["viele"; "mehrere"; "sammelbearbeitung"; "ausw" +:+ unit_text 228 +:+ "hlen"; "gleichzeitig"; "massen" +:+ unit_text 228 +:+ "nderung"]);
   ("action:clone", ["klonen"; "kopieren"; "duplizieren"]);
   ("action:move", ["verschieben"; unit_text 252 +:+ "bertragen"; "umziehen"; "woandershin"]);
   ("action:knowledge-base", ["artikel"; "wissensdatenbank"; "faq"; "selbsthilfe"; "ver" +:+ unit_text 246 +:+ "ffentlichen"]);
   ("action:canned", ["textvorlage"; "vorlage"; "antwort"; "baustein"]);
   ("action:business-hours", ["gesch" +:+ unit_text 228 +:+ "ftszeiten"; "kalender"; "arbeitszeiten"; "wochenende"; "feiertag"; "zeitzone"]);
   ("action:desk-companies", ["firma"; "firmen"; "kollegen"; "teilen"; "geteilt"; "domain"]);
   ("action:desk-door", ["eingang"; "code"; "best" +:+ unit_text 228 +:+ "tigung"; "ohne code"; "portaladresse"; "vertrauen"]);
   ("action:csat", ["csat"; "zufriedenheit"; "bewertung"; "bewertet"; "umfrage"; "r" +:+ unit_text 252 +:+ "ckmeldung"]);
   ("action:audit", ["pr" +:+ unit_text 252 +:+ "fprotokoll"; "protokoll"; "verlauf"; "wer"; "vergeben"; "ge" +:+ unit_text 228 +:+ "ndert"; "sicherheit"; "nachweis"]);
   ("action:org-field", ["feld"; "alle projekte"; "gemeinsames feld"; unit_text 252 +:+ "bernehmen"]);
   ("action:status-update", ["meldung"; "zustand"; "im plan"; "gef" +:+ unit_text 228 +:+ "hrdet"; "fortschritt"; "projektstatus"]);
   ("action:theme", ["design"; "dunkel"; "hell"; "modus"; "farbe"; "aussehen"; "nacht"]);
   ("action:demo-project", ["demo"; "beispiel"; "ausprobieren"; "zeigen"; "daten"]);
   ("action:invite", ["einladen"; "einladung"; "hinzuf" +:+ unit_text 252 +:+ "gen"; "leute"; "benutzer"; "mitglied"; "kollege"]);
   ("action:query-help", ["abfrage"; "syntax"; "hilfe"; "feld"; "operator"; "funktion"; "suche"; "schreiben"]);
   ("action:issue-beside", ["bereich"; "daneben"; "seite"; "vorschau"; "pfeiltasten"; "tastatur"; unit_text 246 +:+ "ffnen"; "vorgang"]);
   ("action:palette", ["schnellsuche"; "tastenk" +:+ unit_text 252 +:+ "rzel"; "strg"; "tastatur"; "befehl"; "springen"; "schnell"]);
   ("intent:blocked", ["blockiert"; "blockiert durch"; "abh" +:+ unit_text 228 +:+ "ngig"; "abh" +:+ unit_text 228 +:+ "ngigkeit"; "wartet"; "h" +:+ unit_text 228 +:+ "ngt"]);
   ("intent:mine", ["meine"; "mir"; "zugewiesen"; "offen"; "vorgang"; "arbeit"]);
   ("intent:reported", ["gemeldet"; "angelegt"; "erstellt"]);
   ("intent:due-week", ["f" +:+ unit_text 228 +:+ "llig"; "woche"; "frist"; "bald"; "demn" +:+ unit_text 228 +:+ "chst"]);
   ("intent:overdue", [unit_text 252 +:+ "berf" +:+ unit_text 228 +:+ "llig"; "versp" +:+ unit_text 228 +:+ "tet"; "vorbei"; "verpasst"; "r" +:+ unit_text 252 +:+ "ckstand"]);
   ("intent:today", ["heute"; "ge" +:+ unit_text 228 +:+ "ndert"; "aktualisiert"; "zuletzt"; "aktivit" +:+ unit_text 228 +:+ "t"]);
   ("intent:unassigned", ["zugewiesen"; "niemand"; "frei"; "bearbeiter"; "leer"]);
   ("intent:urgent", ["dringend"; "priorit" +:+ unit_text 228 +:+ "t"; "h" +:+ unit_text 246 +:+ "chste"; "hoch"; "kritisch"; "wichtig"]);
   ("intent:bugs", ["bug"; "fehler"; "defekt"; "kaputt"; "offen"]);
   ("intent:in-progress", ["arbeit"; "gerade"; "aktiv"; "begonnen"; "jetzt"]);
   ("intent:done-week", ["erledigt"; "fertig"; "gel" +:+ unit_text 246 +:+ "st"; "geschlossen"; "abgeschlossen"; "woche"]);
   ("intent:no-estimate", ["sch" +:+ unit_text 228 +:+ "tzung"; "gesch" +:+ unit_text 228 +:+ "tzt"; "ungesch" +:+ unit_text 228 +:+ "tzt"; "punkte"; "fehlt"])])%string.

Definition STOP_WORDS : list string :=
  ([
   "a"; "an"; "the"; "i"; "do"; "does"; "how"; "where"; "what"; "which"; "can"; "could"; "is"; "are"; "to"; "of";
   "in"; "on"; "for"; "my"; "me"; "we"; "you"; "it"; "this"; "that"; "there"; "find"; "see"; "show"; "get"; "go";
   "want"; "need"; "please"; "and"; "or"; "with"; "set"; "up"; "into"; "at"; "by"; "from"; "all"; "any"; "some";
   "should"; "would"; "way"; "page"; "place"; "thing"; "something"])%string ++ STOP_WORDS_DE.

Definition SYNONYMS : list (string * string) :=
  ([
   ("tickets", "issue"); ("ticket", "issue"); ("bugs", "bug"); ("task", "issue"); ("tasks", "issue");
   ("story", "issue"); ("stories", "issue"); ("item", "issue"); ("items", "issue"); ("epics", "epic");
   ("swimlanes", "swimlane"); ("kanban", "board"); ("scrum", "board"); ("gantt", "plan"); ("timeline", "plan");
   ("roadmap", "plan"); ("chart", "dashboard"); ("charts", "dashboard"); ("graph", "dashboard");
   ("graphs", "dashboard"); ("statistics", "dashboard"); ("stats", "dashboard"); ("metrics", "dashboard");
   ("report", "dashboard"); ("reports", "dashboard"); ("pdf", "export"); ("print", "export"); ("download", "export");
   ("key", "token"); ("keys", "token"); ("pat", "token"); ("apikey", "token"); ("credentials", "token");
   ("password", "profile"); ("login", "access"); ("signin", "access"); ("sso", "access"); ("permissions", "role");
   ("permission", "role"); ("rights", "role"); ("roles", "role"); ("people", "member"); ("person", "member");
   ("user", "member"); ("users", "member"); ("colleague", "member"); ("colleagues", "member"); ("someone", "member");
   ("somebody", "member"); ("status", "status"); ("statuses", "status"); ("state", "status"); ("states", "status");
   ("transitions", "transition"); ("column", "column"); ("columns", "column"); ("sprints", "sprint");
   ("iteration", "sprint"); ("iterations", "sprint"); ("milestones", "milestone"); ("release", "milestone");
   ("releases", "milestone"); ("deadline", "due"); ("dark", "dark"); ("night", "dark"); ("colour", "theme");
   ("color", "theme"); ("appearance", "theme"); ("labels", "label"); ("tags", "label"); ("tag", "label");
   ("repo", "repository"); ("repos", "repository"); ("repositories", "repository"); ("github", "repository");
   ("gitlab", "repository"); ("gitea", "repository"); ("assistant", "assistant"); ("ai", "assistant");
   ("claude", "assistant"); ("llm", "assistant"); ("mcp", "mcp"); ("queries", "query"); ("nql", "query");
   ("dashboards", "dashboard"); ("workflows", "workflow"); ("projects", "project"); ("teams", "team");
   ("fields", "field"); ("tokens", "token"); ("boards", "board"); ("plans", "plan");
   ("notifications", "notification"); ("alerts", "notification"); ("alert", "notification"); ("email", "mail");
   ("emails", "mail"); ("mails", "mail"); ("dependencies", "dependency"); ("blockers", "blocked");
   ("blocker", "blocked"); ("blocking", "blocked"); ("late", "overdue"); ("unowned", "unassigned")])%string.

(** ** Questions *)

(** What is left of a question when everything that is no part of a word is a space. *)
Definition word_unit (c : ascii) : bool :=
  ((97 <=? code c) && (code c <=? 122)) || is_digit c ||
  bool_decide (code c ∈ [228; 246; 252; 223]) || bool_decide (c = "+"%char) || bool_decide (c = "-"%char).

(** The words between the spaces, the empty ones left out; [cur] is the word that
    is being read. *)
Fixpoint raw_words (cur s : string) : list string :=
  match s with
  | EmptyString => if truthy cur then [cur] else []
  | String c s' =>
      if word_unit c then raw_words (cur +:+ String c EmptyString) s'
      else (if truthy cur then [cur] else []) ++ raw_words EmptyString s'
  end.

Definition endsWith (s p : string) : bool :=
  (String.length p <=? String.length s)%nat && bool_decide (sliceFrom (String.length s - String.length p) s = p).

(** Without a plural s. *)
Definition singular (raw : string) : string :=
  if (3 <? String.length raw)%nat && endsWith raw "s" && negb (endsWith raw "ss")
  then sliceTo (String.length raw - 1) raw else raw.

(** [{ ...SYNONYMS, ...SYNONYMS_DE }]: the later entry wins. *)
Definition synonyms (german : bool) (raw : string) : option string :=
  match (if german then jget SYNONYMS_DE raw else None) with Some w => Some w | None => jget SYNONYMS raw end.

Definition word_of (german : bool) (raw : string) : string := default (singular raw) (synonyms german raw).

Definition words (german : bool) (question : string) : list string :=
  foldl (fun out raw => if bool_decide (raw ∈ STOP_WORDS) then out else set_add out (word_of german raw))
    [] (raw_words EmptyString (toLowerCase question)).

Fixpoint space_words (cur s : string) : list string :=
  match s with
  | EmptyString => if truthy cur then [cur] else []
  | String c s' =>
      if is_space c then (if truthy cur then [cur] else []) ++ space_words EmptyString s'
      else space_words (cur +:+ String c EmptyString) s'
  end.

Definition looksLikeQuestion (text : string) : bool :=
  let trimmed := trim text in
  endsWith trimmed "?" || (GUIDE_MIN_WORDS <=? Z.of_nat (length (space_words EmptyString trimmed))).

(** ** Entries: [catalogue.ts] *)

Inductive Needs := needs_project | needs_admin.

Record GuideContext := mkGuideContext {
  ctx_projectKey : option string;
  ctx_canAdministerOrg : bool;
  ctx_features : option (list Feature);
}.

Record Destination := mkDestination { dest_to : string; dest_params : list (string * string); dest_search : list (string * Json) }.

Record GuideEntry := mkGuideEntry {
  ge_id : string;
  ge_title : string;
  ge_sentence : string;
  ge_keywords : list string;
  ge_to : GuideContext → Destination;
  ge_needs : option Needs;
  ge_feature : option Feature;
  ge_target : option string;
}.

Record Answer := mkAnswer { answer_entry : GuideEntry; answer_score : Q; answer_coverage : Q }.

Definition reaches (entry : GuideEntry) (ctx : GuideContext) : bool :=
  match ge_feature entry, ctx_features ctx with
  | Some f, Some fs => bool_decide (f ∈ fs)
  | _, _ => true
  end &&
  match ge_needs entry with
  | Some needs_admin => ctx_canAdministerOrg ctx
  | _ => true
  end.

(** ** Answers *)

Definition keywords_of (german : bool) (entry : GuideEntry) : list string :=
  let own := if german then default [] (jget KEYWORDS_DE (ge_id entry)) else [] in
  set_of (map (fun k => default k (jget SYNONYMS k)) (ge_keywords entry) ++ ge_keywords entry ++
          map (fun k => default k (jget SYNONYMS_DE k)) own ++ own).

(** What one word of a question is worth to an entry. *)
Definition weight (title keywords sentence : list string) (word : string) : Z :=
  if bool_decide (word ∈ title) then GUIDE_WEIGHT_TITLE
  else if bool_decide (word ∈ keywords) then GUIDE_WEIGHT_KEYWORD
  else if bool_decide (word ∈ sentence) then GUIDE_WEIGHT_SENTENCE
  else 0.

Definition ratio (a b : Z) : Q := (inject_Z a / inject_Z b)%Q.

Definition judge (german : bool) (asked : list string) (entry : GuideEntry) : Answer :=
  let title := words german (ge_title entry) in
  let keywords := keywords_of german entry in
  let sentence := set_of (words german (ge_sentence entry)) in
  let score := foldl (fun sum word => sum + weight title keywords sentence word) 0 asked in
  let titleHits := foldl (fun n word => n + if bool_decide (word ∈ title) then 1 else 0) 0 asked in
  mkAnswer entry (ratio score (Z.of_nat (length asked)))
    (match title with [] => 0%Q | _ => ratio titleHits (Z.of_nat (length title)) end).

Definition q_descending (x y : Q) : Z := q_sub y x.

#[export] Instance q_descending_comparator : Comparator q_descending.
Proof.
  unfold q_descending. split.
  - intros x y. apply cmp_antisym.
  - intros x y z Hxy Hyz. rewrite q_sub_le in *. by transitivity y || eapply Qle_trans; eauto.
Qed.

Section Answers.
Context `{!Collation}.

(** [b.score - a.score || b.coverage - a.coverage || a.title.localeCompare(b.title)]. *)
Definition answer_order : Answer → Answer → Z :=
  cmp_or (cmp_on answer_score q_descending)
    (cmp_or (cmp_on answer_coverage q_descending)
      (cmp_on (fun a => ge_title (answer_entry a)) localeCompare)).

Definition good_enough (a : Answer) : bool := Qle_bool (inject_Z GUIDE_MIN_SCORE) (answer_score a).

Definition candidates (german : bool) (asked : list string) (ctx : GuideContext) (entries : list GuideEntry) : list Answer :=
  filter (fun a => good_enough a = true) (map (judge german asked) (filter (fun e => reaches e ctx = true) entries)).

Definition answer (german : bool) (question : string) (ctx : GuideContext) (entries : list GuideEntry) : list Answer :=
  let asked := words german question in
  match asked with
  | [] => []
  | _ => take (Z.to_nat GUIDE_MAX_ANSWERS) (sort_by answer_order (candidates german asked ctx entries))
  end.
End Answers.

(** The plural s is stripped from a question's words and not from the keywords,
    so a keyword that ends in one is not found by itself. *)
Example hours_asked : words false "hours" = ["hour"]%string.
Proof. vm_compute. reflexivity. Qed.
Example question_asked : words false "Where do I see the tickets of my colleagues?" = ["issue"; "member"]%string.
Proof. vm_compute. reflexivity. Qed.

(** ** The best answers *)

Section AnswerFacts.
Context `{!Collation}.

#[local] Instance answer_order_comparator : Comparator answer_order.
Proof. unfold answer_order. apply _. Qed.

(** The answers are the best there are: of the entries the reader can reach
    that score enough, as many as fit, best first, and none that is left out is
    better than one that is given. *)
Theorem answer_best german question ctx entries :
  words german question ≠ [] →
  ∃ rest,
    answer german question ctx entries ++ rest ≡ₚ candidates german (words german question) ctx entries ∧
    StronglySorted (cmp_le answer_order) (answer german question ctx entries ++ rest) ∧
    (length (answer german question ctx entries) <= 4)%nat ∧
    (rest ≠ [] → length (answer german question ctx entries) = 4%nat).
Proof.
  intros Hw. unfold answer. destruct (words german question) as [|w ws] eqn:E; [done|]. clear Hw.
  set (l := sort_by answer_order (candidates german (w :: ws) ctx entries)). change (Z.to_nat GUIDE_MAX_ANSWERS) with 4%nat.
  exists (drop 4 l). rewrite take_drop. split_and!.
  - apply sort_by_Permutation.
  - apply sort_by_sorted, _.
  - rewrite length_take. lia.
  - intros Hr. rewrite length_take. assert (length (drop 4 l) ≠ 0%nat) as Hd by (by intros ?%nil_length_inv).
    rewrite length_drop in Hd. lia.
Qed.

(** *** Scores *)

Lemma words_NoDup german question : NoDup (words german question).
Proof.
  unfold words. generalize (raw_words EmptyString (toLowerCase question)). intros l.
  assert (∀ out, NoDup out → NoDup (foldl (fun out raw => if bool_decide (raw ∈ STOP_WORDS) then out else set_add out (word_of german raw)) out l)) as Hall.
  { induction l as [|raw l IH]; intros out Hout; simpl; [done|]. apply IH. case_bool_decide; [done|by apply NoDup_set_add]. }
  apply Hall. constructor.
Qed.

Lemma foldl_sum_acc {A} (f : A → Z) l a : foldl (fun n x => n + f x) a l = a + foldl (fun n x => n + f x) 0 l.
Proof. revert a. induction l as [|x l IH]; intros a; simpl; [lia|]. rewrite (IH (a + f x)). rewrite (IH (0 + f x)). lia. Qed.

Lemma weight_bounds title keywords sentence word :
  0 <= weight title keywords sentence word <= 3 ∧ (weight title keywords sentence word = 3 ↔ word ∈ title).
Proof. unfold weight. repeat case_bool_decide; unfold GUIDE_WEIGHT_TITLE, GUIDE_WEIGHT_KEYWORD, GUIDE_WEIGHT_SENTENCE; (split; [lia|split; (done || lia)]). Qed.

Lemma score_bounds (title keywords sentence asked : list string) :
  let score := foldl (fun sum word => sum + weight title keywords sentence word) 0 asked in
  0 <= score <= 3 * Z.of_nat (length asked) ∧ (score = 3 * Z.of_nat (length asked) ↔ Forall (fun w => w ∈ title) asked).
Proof.
  cbv zeta. induction asked as [|w asked [IH1 IH2]]; simpl; [split; [lia|split; done]|].
  rewrite foldl_sum_acc. destruct (weight_bounds title keywords sentence w) as [H1 H2]. split; [lia|].
  rewrite Forall_cons, <- H2, <- IH2. lia.
Qed.

Lemma hits_count (title asked : list string) :
  foldl (fun n word => n + if bool_decide (word ∈ title) then 1 else 0) 0 asked = Z.of_nat (length (filter (fun w => w ∈ title) asked)).
Proof.
  induction asked as [|w asked IH]; [done|]. simpl. rewrite foldl_sum_acc, IH, filter_cons.
  case_bool_decide; [rewrite decide_True by done|rewrite decide_False by done]; simpl; lia.
Qed.

Lemma hits_le (title asked : list string) :
  NoDup asked → (length (filter (fun w => w ∈ title) asked) <= length title)%nat.
Proof.
  intros Hnd. apply submseteq_length, NoDup_submseteq; [by apply NoDup_filter|].
  intros w Hw. by apply list_elem_of_filter in Hw as [Hw _].
Qed.

Lemma ratio_le a b c : 0 < b → (ratio a b <= inject_Z c)%Q ↔ a <= c * b.
Proof.
  intros Hb. assert (0 < inject_Z b)%Q by (change 0%Q with (inject_Z 0); by rewrite <- Zlt_Qlt).
  unfold ratio. rewrite Zle_Qle, inject_Z_mult. split; intros Hle.
  - apply (Qmult_le_compat_r _ _ (inject_Z b)) in Hle; [|lra]. unfold Qdiv in Hle.
    rewrite <- Qmult_assoc, (Qmult_comm (/ _)), Qmult_inv_r, Qmult_1_r in Hle by lra. done.
  - by apply Qle_shift_div_r.
Qed.

Lemma ratio_ge a b c : 0 < b → (inject_Z c <= ratio a b)%Q ↔ c * b <= a.
Proof.
  intros Hb. assert (0 < inject_Z b)%Q by (change 0%Q with (inject_Z 0); by rewrite <- Zlt_Qlt).
  unfold ratio. rewrite Zle_Qle, inject_Z_mult. split; intros Hle.
  - apply (Qmult_le_compat_r _ _ (inject_Z b)) in Hle; [|lra]. unfold Qdiv in Hle.
    rewrite <- Qmult_assoc, (Qmult_comm (/ _)), Qmult_inv_r, Qmult_1_r in Hle by lra. done.
  - by apply Qle_shift_div_l.
Qed.

(** An answer that scores the most, and whose title the question covers whole, is
    of an entry whose title has the question's words. *)
Lemma full_marks german asked entry :
  asked ≠ [] → NoDup asked →
  (inject_Z 3 <= answer_score (judge german asked entry))%Q → (inject_Z 1 <= answer_coverage (judge german asked entry))%Q →
  words german (ge_title entry) ≡ₚ asked.
Proof.
  intros Hne Hnd. unfold judge; cbn [answer_score answer_coverage].
  assert (0 < Z.of_nat (length asked)) as Hlen by (destruct asked; [done|simpl; lia]).
  set (title := words german (ge_title entry)). intros Hs Hc. pose proof (proj1 (ratio_ge _ _ 3 Hlen) Hs) as Hs'; clear Hs; rename Hs' into Hs.
  destruct (score_bounds title (keywords_of german entry) (set_of (words german (ge_sentence entry))) asked) as [Hb Hiff].
  assert (Forall (fun w => w ∈ title) asked) as Hall by (apply Hiff; lia). clear Hiff Hb Hs.
  assert (filter (fun w => w ∈ title) asked = asked) as Hf by (by apply filter_every).
  rewrite hits_count, Hf in Hc. destruct title as [|t0 ts] eqn:Et.
  { exfalso. apply (Qlt_not_le 0 (inject_Z 1)); [reflexivity|exact Hc]. }
  pose proof (proj1 (ratio_ge _ (Z.of_nat (length (t0 :: ts))) 1 ltac:(simpl; lia)) Hc) as Hc'. clear Hc. symmetry. apply submseteq_length_Permutation; [|lia].
  apply NoDup_submseteq; [done|]. rewrite Forall_forall in Hall. done.
Qed.

Lemma own_marks german entry :
  words german (ge_title entry) ≠ [] →
  let a := judge german (words german (ge_title entry)) entry in
  (answer_score a == inject_Z 3)%Q ∧ (answer_coverage a == inject_Z 1)%Q.
Proof.
  intros Hne. unfold judge; cbn [answer_score answer_coverage]. set (title := words german (ge_title entry)) in *.
  assert (0 < Z.of_nat (length title)) as Hlen by (destruct title; [done|simpl; lia]).
  assert (Forall (fun w => w ∈ title) title) as Hall by (by apply Forall_forall).
  destruct (score_bounds title (keywords_of german entry) (set_of (words german (ge_sentence entry))) title) as [_ Hiff].
  apply (proj2 Hiff) in Hall as Hs.
  assert (filter (fun w => w ∈ title) title = title) as Hf by (by apply filter_every).
  split.
  - rewrite Hs. apply Qle_antisym; [apply ratio_le|apply ratio_ge]; lia.
  - rewrite hits_count, Hf. destruct title as [|t0 ts]; [done|].
    apply Qle_antisym; [apply ratio_le|apply ratio_ge]; lia.
Qed.

(** An entry is found by its own title: asked in the words of its title, the
    guide answers with it first, so long as the reader can reach it and no other
    entry's title has the same words. *)
Theorem own_title_first german entry ctx entries :
  entry ∈ entries → reaches entry ctx = true → words german (ge_title entry) ≠ [] →
  (∀ e, e ∈ entries → reaches e ctx = true → words german (ge_title e) ≡ₚ words german (ge_title entry) → e = entry) →
  answer_entry <$> head (answer german (ge_title entry) ctx entries) = Some entry.
Proof.
  intros Hin Hreach Hne Huniq. unfold answer. set (asked := words german (ge_title entry)) in *.
  destruct (own_marks german entry Hne) as [Hs Hc]. fold asked in Hs, Hc. set (own := judge german asked entry) in *.
  assert (own ∈ candidates german asked ctx entries) as Hcand.
  { apply list_elem_of_filter. split.
    - unfold good_enough. apply Qle_bool_iff. rewrite Hs. discriminate.
    - apply list_elem_of_fmap. exists entry. split; [done|]. by apply list_elem_of_filter. }
  destruct asked as [|w ws] eqn:E; [done|]. rewrite <- E in *.
  change (Z.to_nat GUIDE_MAX_ANSWERS) with 4%nat.
  pose proof (sort_by_sorted answer_order (candidates german asked ctx entries)) as Hsorted.
  pose proof (elem_of_sort_by answer_order own (candidates german asked ctx entries)) as Hmem.
  pose proof (sort_by_Permutation answer_order (candidates german asked ctx entries)) as Hperm.
  destruct (sort_by answer_order (candidates german asked ctx entries)) as [|best l] eqn:El.
  { apply Hmem in Hcand. by apply elem_of_nil in Hcand. }
  simpl. f_equal.
  assert (best ∈ candidates german asked ctx entries) as Hbest by (rewrite <- Hperm; left).
  apply list_elem_of_filter in Hbest as [_ Hbest]. apply list_elem_of_fmap in Hbest as (e & -> & He).
  apply list_elem_of_filter in He as [Her Hee]. cbn [judge answer_entry]. apply Huniq; [done..|].
  assert (cmp_le answer_order (judge german asked e) own) as Hle.
  { apply Hmem in Hcand. apply elem_of_cons in Hcand as [->|Hcand]; [unfold cmp_le; pose proof (cmp_refl answer_order (judge german asked e)); lia|].
    apply StronglySorted_inv in Hsorted as [_ Hall]. rewrite Forall_forall in Hall. by apply Hall. }
  assert (inject_Z 3 <= answer_score (judge german asked e) ∧ inject_Z 1 <= answer_coverage (judge german asked e))%Q as [Hs' Hc'].
  { unfold cmp_le, answer_order, cmp_or, cmp_on, q_descending, q_sub in Hle.
    rewrite <- Hs, <- Hc.
    assert (answer_score (judge german asked e) <= inject_Z 3)%Q as Hmax.
    { unfold judge; cbn [answer_score]. apply ratio_le; [rewrite E; simpl; lia|].
      apply (score_bounds (words german (ge_title e)) (keywords_of german e) (set_of (words german (ge_sentence e))) asked). }
    rewrite <- Hs in Hmax.
    destruct (Qcompare_spec (answer_score own) (answer_score (judge german asked e))) as [Heq|Hlt|Hgt]; [|exfalso; apply (Qlt_not_le _ _ Hlt Hmax)|simpl in Hle; lia].
    change (0 =? 0) with true in Hle; cbv iota in Hle. split; [by rewrite Heq; apply Qle_refl|].
    destruct (Qcompare_spec (answer_coverage own) (answer_coverage (judge german asked e))) as [Heq'|Hlt|Hgt]; [by rewrite Heq'; apply Qle_refl|by apply Qlt_le_weak|exfalso; change (1 =? 0) with false in Hle; cbv iota in Hle; lia]. }
  apply full_marks; [by rewrite E|apply words_NoDup|done|done].
Qed.
End AnswerFacts.

(** ** Two entries of the catalogue *)

Definition toPlace (to : string) (_ : GuideContext) : Destination := mkDestination to [] [].
Definition board_entry : GuideEntry :=
  mkGuideEntry "page:/board" "Project board" "Cards in columns, moved by dragging."
    ["board"; "kanban"; "scrum"; "column"; "card"; "swimlane"; "drag"] (toPlace "/projects") (Some needs_project) None None.
Definition audit_entry : GuideEntry :=
  mkGuideEntry "action:audit" "Audit log" "Who changed what on the board of the organisation."
    ["audit"; "log"; "history"; "who"] (toPlace "/admin/audit") (Some needs_admin) None None.
Definition a_reader : GuideContext := mkGuideContext None false None.
Definition an_admin : GuideContext := mkGuideContext None true None.

Example board_first :
  map (fun a => ge_id (answer_entry a)) (@answer unitCollation false "Where is the board?" an_admin [audit_entry; board_entry])
  = ["page:/board"; "action:audit"]%string.
Proof. vm_compute. reflexivity. Qed.
Example audit_hidden : @answer unitCollation false "Show the audit log" a_reader [audit_entry; board_entry] = [].
Proof. vm_compute. reflexivity. Qed.

Lemma answer_best_witness :
  words false "Where is the board?" ≠ [] ∧
  ∃ rest, @answer unitCollation false "Where is the board?" an_admin [audit_entry; board_entry] ++ rest
    ≡ₚ candidates false (words false "Where is the board?") an_admin [audit_entry; board_entry].
Proof.
  assert (words false "Where is the board?" ≠ []) as Hw by (vm_compute; discriminate).
  split; [exact Hw|].
  destruct (@answer_best unitCollation false "Where is the board?" an_admin [audit_entry; board_entry] Hw) as (rest & Hp & _).
  exists rest. exact Hp.
Defined.

Lemma own_title_first_witness :
  answer_entry <$> head (@answer unitCollation false "Audit log" an_admin [board_entry; audit_entry]) = Some audit_entry.
Proof.
  apply (@own_title_first unitCollation false audit_entry an_admin [board_entry; audit_entry]).
  - right. left.
  - reflexivity.
  - vm_compute. discriminate.
  - intros e He _ Hp. apply elem_of_cons in He as [->|He].
    + exfalso.
      assert ("audit"%string ∈ words false (ge_title board_entry)) as Hin by (rewrite Hp; apply (bool_decide_unpack _); vm_compute; reflexivity).
      revert Hin. apply (bool_decide_unpack _). vm_compute. reflexivity.
    + by apply list_elem_of_singleton in He.
Defined.
