(* ===== verification/Catalogue.v ===== *)
(** What the guide knows: [web/src/features/guide/catalogue.ts], with the
    project's own pages from [features/shell/Sidebar.tsx].

    Titles and sentences follow the reader's language and are an argument; ids,
    keywords, destinations and what an entry needs are the catalogue's own. *)

From Stdlib Require Import ZArith Ascii String Lia.
From stdpp Require Import base list strings.
From S2P Require Import Prelude JsString Config Api Features Guide.

Open Scope Z_scope.

(** ** The project's pages: [Sidebar.tsx] *)

Record PageLink := mkPageLink {
  link_path : string;
  link_label : string;
  link_icon : string;
  link_feature : option Feature;
  link_exact : bool;
}.

(** [label] is what [t.shell.projectPages] calls a page. *)
Definition projectWorkPages (label : string → string) : list PageLink :=
  [
   mkPageLink EmptyString (label "issues") "Issue" None true;
   mkPageLink "/board"%string (label "board") "Board" (Some f_board) false;
   mkPageLink "/sprints"%string (label "sprints") "Sprint" (Some f_sprints) false;
   mkPageLink "/plan"%string (label "plan") "Plan" (Some f_plan) false;
   mkPageLink "/calendar"%string (label "calendar") "Calendar" (Some f_calendar) false;
   mkPageLink "/resources"%string (label "resources") "Capacity" (Some f_resources) false;
   mkPageLink "/teams"%string (label "teams") "Team" (Some f_teams) false;
   mkPageLink "/milestones"%string (label "milestones") "Milestone" (Some f_milestones) false;
   mkPageLink "/releases"%string (label "releases") "Ship" (Some f_releases) false;
   mkPageLink "/dashboard"%string (label "dashboard") "Dashboard" (Some f_dashboard) false;
   mkPageLink "/hierarchy"%string (label "hierarchy") "Hierarchy" (Some f_hierarchy) false;
   mkPageLink "/queues"%string (label "queues") "Queue" (Some f_queues) false;
   mkPageLink "/service-desk"%string (label "serviceDesk") "Desk" (Some f_desk) false].

(** [pagesFor]. *)
Definition pagesFor (project : option Project) (l : list PageLink) : list PageLink :=
  filter (fun page => hasFeature project (link_feature page) = true) l.

(** ** The words of the entries *)

Definition PROJECT_PAGE_WORDS : list (string * (list string * option string)) :=
  [
   (EmptyString,
    (["issue"; "ticket"; "list"; "table"; "filter"; "open"]%string, None));
   ("/board"%string,
    (["board"; "kanban"; "scrum"; "column"; "card"; "swimlane"; "drag"]%string, None));
   ("/sprints"%string,
    (["sprint"; "iteration"; "velocity"; "commit"; "backlog"]%string, None));
   ("/plan"%string,
    (["plan"; "gantt"; "timeline"; "schedule"; "dependency"; "late"; "roadmap"]%string, None));
   ("/calendar"%string,
    (["calendar"; "month"; "week"; "day"; "date"; "due"; "agenda"; "when"]%string, None));
   ("/resources"%string,
    (["resource"; "capacity"; "allocation"; "workload"; "utilisation"; "overloaded"; "hours"; "people";
      "availability"]%string, None));
   ("/milestones"%string,
    (["milestone"; "release"; "due"; "overdue"; "progress"; "deadline"]%string, None));
   ("/dashboard"%string,
    (["dashboard"; "chart"; "widget"; "report"; "burndown"; "throughput"; "graph"; "statistic"; "metric"]%string, None));
   ("/hierarchy"%string,
    (["hierarchy"; "epic"; "tree"; "parent"; "child"; "breakdown"]%string, None));
   ("/queues"%string,
    (["queue"; "request"; "desk"; "waiting"; "sla"]%string, None));
   ("/service-desk"%string,
    (["desk"; "portal"; "request"; "mail"; "customer"; "support"]%string, None));
   ("/teams"%string,
    (["team"; "member"; "capacity"; "people"]%string, None));
   ("/workflows"%string,
    (["workflow"; "status"; "transition"; "scheme"; "type"; "map"; "graph"; "flow"]%string, Some "workflow-decide"%string));
   ("/fields"%string,
    (["field"; "custom"; "column"; "attribute"; "property"]%string, None));
   ("/issue-types"%string,
    (["issue type"; "type"; "allow"; "bug"; "epic"; "task"; "story"; "order"]%string, None));
   ("/repositories"%string,
    (["repository"; "git"; "branch"; "commit"; "webhook"; "gitea"; "github"; "gitlab"; "pull"]%string, None));
   ("/releases"%string,
    (["release"; "version"; "ship"; "fix version"; "changelog"; "notes"; "release notes"; "deploy"]%string, Some "new-version"%string));
   ("/components"%string,
    (["component"; "part"; "module"; "area"; "owner"; "lead"; "default assignee"]%string, Some "new-component"%string));
   ("/import"%string,
    (["import"; "csv"; "file"; "upload"; "spreadsheet"; "excel"; "migrate"; "bulk create"]%string, Some "import"%string));
   ("/automation"%string,
    (["automation"; "rule"; "automate"; "trigger"; "action"; "schedule"; "run"; "log"]%string, Some "new-rule"%string));
   ("/settings"%string,
    (["project"; "setting"; "rename"; "lead"; "archive"; "delete"]%string, None))].

(** What the language says: [t.guide.entries], [t.guide.projectPages] and its
    fallback, and the labels of the pages. *)
Record GuideWords := mkGuideWords {
  gw_entries : list (string * (string * string));
  gw_projectPages : list (string * string);
  gw_projectPageFallback : string → string;
  gw_label : string → string;
  gw_setup : PageWords;
}.

Definition entry_words (w : GuideWords) (id : string) : string * string := default (id, EmptyString) (jget (gw_entries w) id).

Definition entry (w : GuideWords) (id : string) (keywords : list string) (to : GuideContext → Destination)
    (needs : option Needs) (feature : option Feature) (target : option string) : GuideEntry :=
  mkGuideEntry id (entry_words w id).1 (entry_words w id).2 keywords to needs feature target.

Definition to_page (to : string) (_ : GuideContext) : Destination := mkDestination to [] [].
Definition search_for (q : string) (_ : GuideContext) : Destination := mkDestination "/search" [] [("q"%string, JString q)].
Definition in_project (address : string) (search : list (string * Json)) (ctx : GuideContext) : Destination :=
  mkDestination ("/projects/$projectKey" +:+ address) [("projectKey"%string, default EmptyString (ctx_projectKey ctx))] search.

Definition projectPage (w : GuideWords) (path label : string) (feature : option Feature) (address : string) : GuideEntry :=
  let words := default ([], None) (jget PROJECT_PAGE_WORDS path) in
  mkGuideEntry ("page:" +:+ (if truthy path then path else "/issues")) label
    (default (gw_projectPageFallback w label) (jget (gw_projectPages w) path))
    (toLowerCase label :: words.1) (in_project address []) (Some needs_project) feature words.2.

Definition new_issue_at (ctx : GuideContext) : Destination :=
  match ctx_projectKey ctx with
  | Some key => if truthy key then mkDestination "/projects/$projectKey" [("projectKey"%string, key)] [] else mkDestination "/projects" [] []
  | None => mkDestination "/projects" [] []
  end.

Definition intent (w : GuideWords) (id : string) (keywords : list string) (q : string) : GuideEntry :=
  entry w ("intent:" +:+ id) keywords (search_for q) None None None.

(** ** The entries *)

Open Scope string_scope.

Definition pages (w : GuideWords) : list GuideEntry :=
  [
   entry w "page:home"
     ["home"; "start"; "overview"; "mine"; "recent"]
     (to_page "/") None None None;
   entry w "page:projects"
     ["project"; "new"; "create"; "template"; "list"]
     (to_page "/projects") None None None;
   entry w "page:search"
     ["search"; "query"; "nql"; "find"; "filter"; "syntax"; "help"; "language"]
     (search_for EmptyString) None None (Some "query"%string)] ++
  map (fun page => projectPage w (link_path page) (link_label page) (link_feature page) (link_path page)) (projectWorkPages (gw_label w)) ++
  map (fun page => projectPage w (page_path page) (page_label page) (page_feature page) (setupAddress (page_path page))) (projectSetupPages (gw_setup w)) ++
  [
   entry w "page:filters"
     ["saved"; "search"; "filter"; "query"; "subscription"; "subscribe"; "star"; "starred"; "mail"]
     (to_page "/filters") None None None;
   entry w "page:inbox"
     ["inbox"; "notification"; "bell"; "unread"; "told"; "mention"; "mentioned"]
     (to_page "/notifications") None None (Some "inbox"%string);
   entry w "page:settings"
     ["setting"; "preference"; "configure"]
     (to_page "/settings") None None None;
   entry w "page:admin"
     ["admin"; "administration"; "administrator"; "installation"; "everyone"; "configure"]
     (to_page "/admin") (Some needs_admin) None None;
   entry w "page:profile"
     ["profile"; "name"; "picture"; "avatar"; "photo"; "timezone"; "zone"; "language"; "locale"; "date"; "account";
      "me"]
     (to_page "/settings/profile") None None None;
   entry w "page:tokens"
     ["token"; "api"; "key"; "pat"; "script"; "ci"; "mcp"; "assistant"; "bearer"; "read-only"; "readonly"; "secret"]
     (to_page "/settings/tokens") None None (Some "token-form"%string);
   entry w "page:installation"
     ["installation"; "name"; "rename"; "title"; "instance"; "site"]
     (to_page "/admin/installation") None None None;
   entry w "page:access"
     ["access"; "role"; "permission"; "group"; "invite"; "invitation"; "member"; "user"; "sso"; "oidc"; "keycloak";
      "login"; "right"; "administrator"]
     (to_page "/admin/access") (Some needs_admin) None None;
   entry w "page:org-workflows"
     ["workflow"; "scheme"; "status"; "transition"; "design"; "designer"; "canvas"; "all projects"]
     (to_page "/admin/workflows") (Some needs_admin) None None;
   entry w "page:org-automation"
     ["automation"; "rule"; "automate"; "trigger"; "when"; "then"; "all projects"]
     (to_page "/admin/automation") (Some needs_admin) None None;
   entry w "page:webhooks"
     ["webhook"; "hook"; "post"; "endpoint"; "slack"; "teams"; "chat"; "integration"; "event"; "signature";
      "secret"; "delivery"]
     (to_page "/admin/webhooks") (Some needs_admin) None (Some "new-webhook"%string);
   entry w "page:holidays"
     ["holiday"; "holidays"; "calendar"; "day off"; "vacation"; "public"; "bank"; "ics"; "working week"; "hours";
      "part-time"]
     (to_page "/admin/holidays") None None None;
   entry w "page:labels"
     ["label"; "tag"; "word"]
     (to_page "/admin/labels") None None None;
   entry w "page:project-templates"
     ["template"; "project template"; "scrum"; "kanban"; "duplicate"; "scheme"; "issue types"; "new project"]
     (to_page "/admin/project-templates") (Some needs_admin) None None].

Definition actions (w : GuideWords) : list GuideEntry :=
  [
   entry w "action:new-issue"
     ["create"; "new"; "file"; "add"; "issue"; "ticket"; "bug"; "task"; "story"; "report"]
     new_issue_at None None (Some "new-issue"%string);
   entry w "action:share-dashboard"
     ["share"; "link"; "public"; "external"; "monitor"; "screen"; "wall"; "revoke"; "dashboard"]
     (in_project "/dashboard" []) (Some needs_project) None (Some "share"%string);
   entry w "action:export-pdf"
     ["export"; "pdf"; "print"; "download"; "file"; "dashboard"]
     (in_project "/dashboard" []) (Some needs_project) None (Some "export-pdf"%string);
   entry w "action:dashboard-template"
     ["template"; "dashboard"; "save"; "reuse"; "copy"; "new"]
     (in_project "/dashboard" []) (Some needs_project) None (Some "add-dashboard"%string);
   entry w "action:milestone-dashboard"
     ["milestone"; "dashboard"; "progress"; "release"; "track"]
     (in_project "/milestones" []) (Some needs_project) None (Some "milestone-dashboard"%string);
   entry w "action:filter-dashboard"
     ["filter"; "narrow"; "team"; "type"; "window"; "days"; "dashboard"; "tile"]
     (in_project "/dashboard" []) (Some needs_project) None (Some "arrange"%string);
   entry w "action:map-workflow"
     ["workflow"; "type"; "map"; "assign"; "decide"; "change"; "different"; "own"; "bug"; "status"]
     (in_project "/settings/workflows" []) (Some needs_project) None (Some "workflow-decide"%string);
   entry w "action:design-workflow"
     ["design"; "draw"; "workflow"; "status"; "transition"; "canvas"; "new"; "create"; "edit"]
     (to_page "/admin/workflows/new") (Some needs_admin) None None;
   entry w "action:create-token"
     ["token"; "api"; "key"; "create"; "script"; "ci"; "mcp"; "assistant"; "read-only"; "readonly"; "claude"]
     (to_page "/settings/tokens") None None (Some "token-form"%string);
   entry w "action:notification-settings"
     ["mail"; "digest"; "bundle"; "quiet"; "mute"; "off"; "preference"; "notification"; "settings"]
     (to_page "/settings/profile") None None (Some "notification-settings"%string);
   entry w "action:mention"
     ["mention"; "@"; "name"; "ping"; "tag"; "notify"; "comment"; "watcher"; "tell"]
     (in_project EmptyString []) (Some needs_project) None None;
   entry w "action:automation-rule"
     ["automation"; "rule"; "automate"; "trigger"; "when"; "then"; "label automatically"; "assign automatically";
      "schedule"; "cron"; "workflow automation"; "run log"]
     (in_project "/settings/automation" []) (Some needs_project) None (Some "new-rule"%string);
   entry w "action:save-search"
     ["save"; "search"; "filter"; "query"; "named"; "share"; "remember"]
     (search_for "statusCategory != done") None None (Some "save-search"%string);
   entry w "action:export-csv"
     ["export"; "csv"; "file"; "download"; "spreadsheet"; "excel"; "issues"; "one issue"; "this issue"; "selected";
      "ticked"; "list"]
     (search_for EmptyString) None None (Some "export-csv"%string);
   entry w "action:bulk"
     ["bulk"; "many"; "several"; "multiple"; "batch"; "select"; "at once"; "mass"]
     (search_for EmptyString) None None None;
   entry w "action:clone"
     ["clone"; "copy"; "duplicate"]
     (in_project EmptyString []) (Some needs_project) None None;
   entry w "action:move"
     ["move"; "transfer"; "relocate"; "elsewhere"]
     (in_project EmptyString []) (Some needs_project) None None;
   entry w "action:knowledge-base"
     ["article"; "knowledge"; "knowledge base"; "kb"; "faq"; "self service"; "help article"; "publish"]
     (in_project "/service-desk" []) (Some needs_project) None (Some "knowledge-base"%string);
   entry w "action:canned"
     ["canned"; "canned response"; "saved reply"; "template reply"; "macro"; "snippet"; "boilerplate"]
     (in_project "/service-desk" []) (Some needs_project) None (Some "canned-responses"%string);
   entry w "action:business-hours"
     ["business hours"; "calendar"; "working hours"; "office hours"; "weekend"; "holiday"; "holiday calendar";
      "time zone"; "timezone"; "sla calendar"]
     (in_project "/service-desk" []) (Some needs_project) None (Some "business-hours"%string);
   entry w "action:desk-companies"
     ["company"; "companies"; "colleague"; "colleagues"; "share"; "shared"; "domain"; "group customers"]
     (in_project "/service-desk" []) (Some needs_project) None (Some "desk-companies"%string);
   entry w "action:desk-door"
     ["door"; "code"; "mail verification"; "verify"; "verification"; "without a code"; "no code"; "portal address";
      "desk address"; "walk in"; "trust"]
     (in_project "/service-desk" []) (Some needs_project) None (Some "desk-door"%string);
   entry w "action:csat"
     ["csat"; "satisfaction"; "rating"; "rated"; "score"; "survey"; "feedback"; "happy"; "nps"]
     (in_project "/queues" []) (Some needs_project) None None;
   entry w "action:audit"
     ["audit"; "log"; "history"; "who"; "granted"; "changed"; "security"; "compliance"; "trail"; "record"]
     (to_page "/admin/audit") (Some needs_admin) None None;
   entry w "action:org-field"
     ["org field"; "global field"; "shared field"; "every project"; "promote"; "all projects"]
     (to_page "/admin/fields") (Some needs_admin) None None;
   entry w "action:status-update"
     ["status update"; "health"; "on track"; "at risk"; "off track"; "how is the project"; "progress report";
      "update"]
     (in_project EmptyString []) (Some needs_project) None (Some "post-status"%string);
   entry w "action:theme"
     ["theme"; "dark"; "light"; "mode"; "colour"; "color"; "appearance"; "night"]
     (to_page "/settings/profile") None None (Some "theme"%string);
   entry w "action:demo-project"
     ["demo"; "example"; "sample"; "try"; "show"; "showcase"; "data"; "factory"; "seed"]
     (to_page "/admin/installation") (Some needs_admin) None (Some "add-demo-project"%string);
   entry w "action:invite"
     ["invite"; "invitation"; "add"; "people"; "user"; "member"; "colleague"; "join"]
     (to_page "/admin/access") (Some needs_admin) None None;
   entry w "action:query-help"
     ["query"; "nql"; "syntax"; "help"; "field"; "operator"; "function"; "currentuser"; "search"; "language";
      "write"]
     (search_for EmptyString) None None (Some "query"%string);
   entry w "action:issue-beside"
     ["panel"; "drawer"; "beside"; "side"; "preview"; "quick"; "arrow"; "keyboard"; "open"; "issue"]
     (in_project EmptyString []) (Some needs_project) None None;
   entry w "action:palette"
     ["palette"; "shortcut"; "ctrl"; "cmd"; "keyboard"; "command"; "jump"; "quick"; "fast"]
     (to_page "/") None None None].

Definition intents (w : GuideWords) : list GuideEntry :=
  [
   intent w "mine"
     ["my"; "mine"; "me"; "assigned"; "open"; "issue"; "work"; "todo"]
     "assignee = currentUser() AND statusCategory != done ORDER BY priority DESC";
   intent w "reported"
     ["reported"; "filed"; "created"; "my"; "me"; "raised"]
     "reporter = currentUser() ORDER BY created DESC";
   intent w "due-week"
     ["due"; "week"; "deadline"; "soon"; "upcoming"]
     "due <= endOfWeek() AND statusCategory != done ORDER BY due ASC";
   intent w "overdue"
     ["overdue"; "late"; "past"; "due"; "missed"; "behind"]
     "due < startOfDay() AND statusCategory != done ORDER BY due ASC";
   intent w "today"
     ["today"; "updated"; "changed"; "recent"; "activity"; "happened"]
     "updated >= startOfDay() ORDER BY updated DESC";
   intent w "unassigned"
     ["unassigned"; "nobody"; "free"; "unowned"; "assignee"; "empty"]
     "assignee IS EMPTY AND statusCategory != done";
   intent w "urgent"
     ["urgent"; "priority"; "highest"; "high"; "critical"; "important"]
     "priority IN (high, highest) AND statusCategory != done ORDER BY priority DESC";
   intent w "bugs"
     ["bug"; "defect"; "broken"; "open"]
     "type = Bug AND statusCategory != done ORDER BY priority DESC";
   intent w "in-progress"
     ["progress"; "doing"; "working"; "active"; "started"; "now"]
     "statusCategory = in_progress ORDER BY updated DESC";
   intent w "done-week"
     ["done"; "finished"; "resolved"; "closed"; "completed"; "week"; "shipped"]
     "resolved >= startOfWeek() ORDER BY resolved DESC";
   intent w "no-estimate"
     ["estimate"; "unestimated"; "sized"; "points"; "missing"]
     "estimate IS EMPTY AND statusCategory != done";
   entry w "intent:blocked"
     ["blocked"; "blocker"; "blocking"; "depends"; "dependency"; "waiting"; "stuck"]
     (in_project "/plan" [("view"%string, JString "dependencies")]) (Some needs_project) None None].

Close Scope string_scope.

Definition CATALOGUE (w : GuideWords) : list GuideEntry := pages w ++ actions w ++ intents w.

(** ** Theorems *)

Definition admin_address (ctx : GuideContext) (e : GuideEntry) : bool := startsWith (dest_to (ge_to e ctx)) "/admin".

(** The pages of the administration that the catalogue does not mark as such. *)
Definition unmarked : list string := ["page:installation"; "page:holidays"; "page:labels"]%string.

Definition marked_or_open (ctx : GuideContext) (e : GuideEntry) : Prop :=
  admin_address ctx e = false ∨ ge_needs e = Some needs_admin ∨ ge_id e ∈ unmarked.

Ltac entry_marked :=
  first [ left; reflexivity | right; left; reflexivity
        | right; right; apply (bool_decide_unpack _); vm_compute; exact I
        | left; unfold admin_address, new_issue_at; cbn; repeat case_match; reflexivity ].

Lemma project_pages_open w ctx path label feature address : marked_or_open ctx (projectPage w path label feature address).
Proof. left. reflexivity. Qed.

Lemma pages_marked w ctx : Forall (marked_or_open ctx) (pages w).
Proof.
  unfold pages. rewrite !Forall_app. split_and!.
  - repeat (constructor; [entry_marked|]). constructor.
  - apply Forall_forall. intros e He. apply list_elem_of_fmap in He as (page & -> & _). apply project_pages_open.
  - apply Forall_forall. intros e He. apply list_elem_of_fmap in He as (page & -> & _). apply project_pages_open.
  - repeat (constructor; [entry_marked|]). constructor.
Qed.

Lemma actions_marked w ctx : Forall (marked_or_open ctx) (actions w).
Proof. unfold actions. repeat (constructor; [entry_marked|]). constructor. Qed.

Lemma intents_marked w ctx : Forall (marked_or_open ctx) (intents w).
Proof. unfold intents. repeat (constructor; [entry_marked|]). constructor. Qed.

Lemma catalogue_marked w ctx : Forall (marked_or_open ctx) (CATALOGUE w).
Proof. unfold CATALOGUE. rewrite !Forall_app. split_and!; [apply pages_marked|apply actions_marked|apply intents_marked]. Qed.

(** The guide does not send somebody who is no administrator to a page of the
    administration, but for the three whose entries are not marked. *)
Theorem admin_pages_hidden w ctx e :
  e ∈ CATALOGUE w → reaches e ctx = true → ctx_canAdministerOrg ctx = false → admin_address ctx e = true → ge_id e ∈ unmarked.
Proof.
  intros He Hr Hc Ha. pose proof (catalogue_marked w ctx) as Hm. rewrite Forall_forall in Hm.
  destruct (Hm _ He) as [H|[H|H]]; [congruence| |done].
  unfold reaches in Hr. rewrite H, Hc, andb_false_r in Hr. done.
Qed.

Definition catalogue_ids : list string := map ge_id (CATALOGUE (mkGuideWords [] [] (fun l => l) (fun l => l) page_words_en)).

Lemma ids_any_language w : map ge_id (CATALOGUE w) = catalogue_ids.
Proof. reflexivity. Qed.

(** The catalogue's ids are its entries' own, and the German keywords are for
    exactly its entries: none is missing, and none is for an entry there is not. *)
Theorem german_keywords_cover w :
  NoDup (map ge_id (CATALOGUE w)) ∧ ∀ id, id ∈ map fst KEYWORDS_DE ↔ id ∈ map ge_id (CATALOGUE w).
Proof.
  rewrite ids_any_language. split; [apply (bool_decide_unpack _); vm_compute; exact I|].
  assert (Forall (fun id => id ∈ catalogue_ids) (map fst KEYWORDS_DE)) as H1 by (apply (bool_decide_unpack _); vm_compute; exact I).
  assert (Forall (fun id => id ∈ map fst KEYWORDS_DE) catalogue_ids) as H2 by (apply (bool_decide_unpack _); vm_compute; exact I).
  rewrite Forall_forall in H1, H2. split; auto.
Qed.

Definition guide_words_en : GuideWords := mkGuideWords [] [] (fun label => label) (fun label => label) page_words_en.

(** A member is offered the installation's own page, which only opens for an administrator. *)
Example member_sent_to_admin :
  map ge_id (filter (fun e => reaches e a_reader = true ∧ admin_address a_reader e = true) (CATALOGUE guide_words_en)) = unmarked.
Proof. vm_compute. reflexivity. Qed.

Lemma admin_pages_hidden_witness : ge_id (nth 31 (CATALOGUE guide_words_en) board_entry) ∈ unmarked.
Proof.
  apply (admin_pages_hidden guide_words_en a_reader).
  - apply list_elem_of_In, nth_In. vm_compute. lia.
  - vm_compute. reflexivity.
  - reflexivity.
  - vm_compute. reflexivity.
Defined.
