(* ===== verification/Markdown.v ===== *)
(** Markdown and the document: [web/src/features/editor/markdown.ts] and the
    node set of [schema.ts].

    Documents are trees of nodes as the editor has them; a node of a type nobody
    knows is drawn as its text.  The regular expressions are functions: none of
    them has more than one way to match.  Texts are of Latin-1 units, and a line
    holds neither of the line breaks, since the text is split at them. *)

From Stdlib Require Import ZArith QArith Qround Ascii String Lia.
From stdpp Require Import base list strings decidable.
From S2P Require Import Prelude JsString Config Api DashFilter.

Open Scope Z_scope.

(** ** The node set *)

Definition NODE_TYPES : list string :=
  ["doc"; "paragraph"; "heading"; "bulletList"; "orderedList"; "listItem"; "blockquote"; "codeBlock"; "hardBreak"; "text"; "mention"]%string.
Definition MARK_TYPES : list string := ["bold"; "italic"; "code"; "strike"; "link"]%string.
Definition HEADING_LEVELS : list Z := [1; 2; 3].

Record DocMark := mkDocMark { mark_type : string; mark_attrs : option (list (string * Json)) }.

Inductive DocNode :=
  mkDocNode (type : string) (text : option string) (attrs : option (list (string * Json)))
            (marks : option (list DocMark)) (content : option (list DocNode)).

Definition node_type (n : DocNode) : string := let 'mkDocNode t _ _ _ _ := n in t.
Definition node_text (n : DocNode) : option string := let 'mkDocNode _ t _ _ _ := n in t.
Definition node_attrs (n : DocNode) : option (list (string * Json)) := let 'mkDocNode _ _ a _ _ := n in a.
Definition node_marks (n : DocNode) : option (list DocMark) := let 'mkDocNode _ _ _ m _ := n in m.
Definition node_content (n : DocNode) : option (list DocNode) := let 'mkDocNode _ _ _ _ c := n in c.

(** [attrs?.name ?? undefined]: an attribute that is there and not [null]. *)
Definition attr (attrs : option (list (string * Json))) (name : string) : option Json :=
  match attrs ≫= (fun a => jget a name) with Some JNull => None | v => v end.

(** [(list ?? []).map(f)]. *)
Definition over {A B} (f : A → B) (l : option (list A)) : list B :=
  match l with Some l => map f l | None => [] end.

(** [parts.join("")]. *)
Definition concat_s (l : list string) : string := join EmptyString l.

Definition isEmptyDoc (doc : option DocNode) : bool :=
  match doc with
  | None => true
  | Some d =>
      forallb (fun block => bool_decide (node_type block = "paragraph"%string) &&
                            negb (match node_content block with Some (_ :: _) => true | _ => false end))
              (default [] (node_content d))
  end.

Definition safeHref (href : option Json) : option string :=
  match href with
  | Some (JString s) =>
      let lower_ := toLowerCase (trim s) in
      if startsWith lower_ "http://" || startsWith lower_ "https://" || startsWith lower_ "mailto:"
      then Some (trim s) else None
  | _ => None
  end.

(** The label of a mention, [String(attrs?.label ?? "")]. *)
Definition label_of (attrs : option (list (string * Json))) : string :=
  match attr attrs "label" with Some v => json_string v | None => EmptyString end.

Definition line_feed : ascii := unit_of 10.
Definition line_feed_s : string := String line_feed EmptyString.
Definition backtick : ascii := unit_of 96.
Definition fence_s : string := String backtick (String backtick (String backtick EmptyString)).

Fixpoint textOf (n : DocNode) : string :=
  match n with
  | mkDocNode type text attrs _ content =>
      if decide (type = "text"%string) then default EmptyString text
      else if decide (type = "mention"%string) then "@" +:+ label_of attrs
      else if decide (type = "hardBreak"%string) then line_feed_s
      else concat_s (over textOf content)
  end.

(** ** From the document to markdown *)

Fixpoint textOfNode (n : DocNode) : string :=
  match n with
  | mkDocNode type text _ _ content =>
      if decide (type = "text"%string) then default EmptyString text
      else concat_s (over textOfNode content)
  end.

Definition textOfCode (content : option (list DocNode)) : string :=
  concat_s (over (fun n => default EmptyString (node_text n)) content).

(** The characters [escapeText] puts a backslash before. *)
Definition is_markup (c : ascii) : bool := bool_decide (c ∈ [backslash; "*"; backtick; "~"; "["; "]"]%char).

Fixpoint escapeText (s : string) : string :=
  match s with
  | EmptyString => EmptyString
  | String c s' => if is_markup c then String backslash (String c (escapeText s')) else String c (escapeText s')
  end.

Definition starts_space (s : string) : bool := match s with String c _ => is_space c | EmptyString => false end.

(** The units at the start of a text that are one and the same, and the rest. *)
Fixpoint span_unit (u : ascii) (s : string) : nat * string :=
  match s with
  | String c s' => if decide (c = u) then let '(n, r) := span_unit u s' in (S n, r) else (O, s)
  | EmptyString => (O, s)
  end.

(** [^(#{1,6}\s|>|[-*]\s|\d+\.\s|```)]. *)
Definition marker_start (line : string) : bool :=
  (let '(n, r) := span_unit "#"%char line in (1 <=? n)%nat && (n <=? 6)%nat && starts_space r) ||
  startsWith line ">" ||
  ((startsWith line "-" || startsWith line "*") && starts_space (sliceFrom 1 line)) ||
  (let '(d, r) := span_digits line in truthy d && startsWith r "." && starts_space (sliceFrom 1 r)) ||
  startsWith line fence_s.

Definition escape_line (line : string) : string := if marker_start line then String backslash line else line.

Definition escapeLineStarts (text : string) : string := join line_feed_s (map escape_line (split line_feed text)).

(** [text.replaceAll] of a backtick by an escaped one. *)
Fixpoint escape_ticks (s : string) : string :=
  match s with
  | EmptyString => EmptyString
  | String c s' => if decide (c = backtick) then String backslash (String c (escape_ticks s')) else String c (escape_ticks s')
  end.

Definition wrap (text : string) (mark : DocMark) : string :=
  if decide (mark_type mark = "bold"%string) then "**" +:+ text +:+ "**"
  else if decide (mark_type mark = "italic"%string) then "*" +:+ text +:+ "*"
  else if decide (mark_type mark = "strike"%string) then "~~" +:+ text +:+ "~~"
  else if decide (mark_type mark = "link"%string) then
    match safeHref (mark_attrs mark ≫= (fun a => jget a "href"%string)) with
    | Some href => if truthy href then "[" +:+ text +:+ "](" +:+ href +:+ ")" else text
    | None => text
    end
  else text.

Definition inlineNodeToMarkdown (n : DocNode) : string :=
  if decide (node_type n = "hardBreak"%string) then line_feed_s
  else if decide (node_type n = "mention"%string) then "@" +:+ label_of (node_attrs n)
  else if decide (node_type n = "text"%string) then
    let marks := default [] (node_marks n) in
    if existsb (fun m => bool_decide (mark_type m = "code"%string)) marks
    then String backtick (escape_ticks (default EmptyString (node_text n)) +:+ String backtick EmptyString)
    else foldl wrap (escapeText (default EmptyString (node_text n))) marks
  else escapeText (textOfNode n).

Definition inlineToMarkdown (nodes : list DocNode) : string := concat_s (map inlineNodeToMarkdown nodes).

(** [.replace(/\n/g, " ")]. *)
Fixpoint breaks_to_spaces (s : string) : string :=
  match s with
  | EmptyString => EmptyString
  | String c s' => String (if decide (c = line_feed) then " "%char else c) (breaks_to_spaces s')
  end.

(** ["#".repeat(Math.min(Math.max(Number(level ?? 1), 1), 3))]; what is no number repeats nothing. *)
Definition hashes (attrs : option (list (string * Json))) : string :=
  match json_number (default (JNumber 1) (attr attrs "level")) with
  | None => EmptyString
  | Some q => repeatString (Z.to_nat (Z.min (Z.max (Qfloor q) 1) 3)) "#"
  end.

Definition language_of (attrs : option (list (string * Json))) : string :=
  match attr attrs "language" with Some (JString s) => s | _ => EmptyString end.

Definition quote_line (line : string) : string := if truthy line then "> " +:+ line else ">"%string.

(** One item of a list: its marker before the first line, and the other lines
    under the text of the first. *)
Definition item_text (ordered : bool) (i : nat) (inner : list string) : string :=
  let marker := if ordered then stringOfInt (Z.of_nat i + 1) +:+ ". " else "- "%string in
  join line_feed_s
    (imap (fun k line => if (k =? 0)%nat then marker +:+ line
                         else if truthy line then repeatString (String.length marker) " " +:+ line else EmptyString) inner).

Definition paragraphs (blocks : list string) : string := join (line_feed_s +:+ line_feed_s) blocks.

Fixpoint blockToMarkdown (block : DocNode) : string :=
  match block with
  | mkDocNode type _ attrs _ content =>
      if decide (type = "paragraph"%string) then escapeLineStarts (inlineToMarkdown (default [] content))
      else if decide (type = "heading"%string) then
        hashes attrs +:+ " " +:+ breaks_to_spaces (inlineToMarkdown (default [] content))
      else if decide (type = "blockquote"%string) then
        join line_feed_s (map quote_line (split line_feed (paragraphs (over blockToMarkdown content))))
      else if decide (type = "codeBlock"%string) then
        fence_s +:+ language_of attrs +:+ line_feed_s +:+ textOfCode content +:+ line_feed_s +:+ fence_s
      else if decide (type = "bulletList"%string ∨ type = "orderedList"%string) then
        join line_feed_s
          (imap (item_text (bool_decide (type = "orderedList"%string)))
             (over (fun item => match item with mkDocNode _ _ _ _ c => split line_feed (paragraphs (over blockToMarkdown c)) end) content))
      else escapeText (textOfNode block)
  end.

Definition blocksToMarkdown (blocks : list DocNode) : list string := map blockToMarkdown blocks.

Definition docToMarkdown (doc : option DocNode) : string :=
  match doc with
  | None => EmptyString
  | Some d => paragraphs (blocksToMarkdown (default [] (node_content d)))
  end.

(** ** From markdown to the document: what is inside a line *)

(** Where the next delimiter that is not escaped begins. *)
Fixpoint findClose (s delimiter : string) : option nat :=
  match s with
  | EmptyString => None
  | String c s' =>
      if decide (c = backslash) then
        match s' with EmptyString => None | String _ s'' => (fun n => S (S n)) <$> findClose s'' delimiter end
      else if startsWith s delimiter then Some O
      else S <$> findClose s' delimiter
  end.

Definition text_node (text : string) (marks : list DocMark) : DocNode :=
  mkDocNode "text" (Some text) None (match marks with [] => None | _ => Some marks end) None.

Definition plain_mark (type : string) : DocMark := mkDocMark type None.

(** [flush()]: what was read as prose so far. *)
Definition flush (marks : list DocMark) (buffer : string) : list DocNode :=
  if truthy buffer then [text_node buffer marks] else [].

(** [.replace(/\\`/g, "`")]. *)
Fixpoint unescape_ticks (s : string) : string :=
  match s with
  | EmptyString => EmptyString
  | String c s' =>
      match s' with
      | String d s'' => if decide (c = backslash ∧ d = backtick) then String backtick (unescape_ticks s'')
                        else String c (unescape_ticks s')
      | EmptyString => String c EmptyString
      end
  end.

(** Code at the start of a text: what is in it, and what follows. *)
Definition code_at (s : string) : option (string * string) :=
  match s with
  | String c s' =>
      if decide (c = backtick) then
        n ← findClose s' (String backtick EmptyString);
        Some (unescape_ticks (sliceTo n s'), sliceFrom (S n) s')
      else None
  | EmptyString => None
  end.

Definition delimited : list (string * string) := [("**", "bold"); ("~~", "strike"); ("*", "italic")]%string.

(** Marked text at the start: what is in it, its mark, and what follows. *)
Definition opened_at (marks : list DocMark) (s : string) (d : string * string) : option (string * DocMark * string) :=
  let '(open, mark) := d in
  if startsWith s open && negb (existsb (fun m => bool_decide (mark_type m = mark)) marks) then
    let inner := sliceFrom (String.length open) s in
    match findClose inner open with
    | Some (S n) => Some (sliceTo (S n) inner, plain_mark mark, sliceFrom (S n + String.length open) inner)
    | _ => None
    end
  else None.

Definition delimited_at (marks : list DocMark) (s : string) : option (string * DocMark * string) :=
  head (omap (opened_at marks s) delimited).

(** [text.indexOf(")")]. *)
Fixpoint indexOf_unit (u : ascii) (s : string) : option nat :=
  match s with
  | EmptyString => None
  | String c s' => if decide (c = u) then Some O else S <$> indexOf_unit u s'
  end.

Definition link_mark (href : string) : DocMark := mkDocMark "link" (Some [("href"%string, JString href)]).

(** A link at the start: its text, its mark, and what follows. *)
Definition link_at (s : string) : option (string * DocMark * string) :=
  match s with
  | String c s' =>
      if decide (c = "["%char) then
        close ← findClose s' "]";
        let after := sliceFrom (S close) s' in
        if startsWith after "(" then
          paren ← indexOf_unit ")"%char (sliceFrom 1 after);
          href ← safeHref (Some (JString (sliceTo paren (sliceFrom 1 after))));
          if truthy href then Some (sliceTo close s', link_mark href, sliceFrom (S (S paren)) after) else None
        else None
      else None
  | EmptyString => None
  end.

(** One turn of the loop of [parseInline], the buffer before it and the calls it
    makes given by [rec]. *)
Definition inline_step (rec : list DocMark → string → string → list DocNode)
    (marks : list DocMark) (buffer s : string) : list DocNode :=
  match s with
  | EmptyString => flush marks buffer
  | String c s' =>
      match (if decide (c = backslash) then s' else EmptyString) with
      | String d s'' => rec marks (buffer +:+ String d EmptyString) s''
      | EmptyString =>
          match code_at s with
          | Some (inside, rest) =>
              flush marks buffer ++ [text_node inside (marks ++ [plain_mark "code"])] ++ rec marks EmptyString rest
          | None =>
              match delimited_at marks s with
              | Some (inside, mark, rest) =>
                  flush marks buffer ++ rec (marks ++ [mark]) EmptyString inside ++ rec marks EmptyString rest
              | None =>
                  match link_at s with
                  | Some (inside, mark, rest) =>
                      flush marks buffer ++ rec (marks ++ [mark]) EmptyString inside ++ rec marks EmptyString rest
                  | None => rec marks (buffer +:+ String c EmptyString) s'
                  end
              end
          end
      end
  end.

Fixpoint inline_loop (fuel : nat) (marks : list DocMark) (buffer s : string) : list DocNode :=
  match fuel with
  | O => []
  | S f => inline_step (inline_loop f) marks buffer s
  end.

Definition inline_from (marks : list DocMark) (buffer s : string) : list DocNode :=
  inline_loop (S (String.length s)) marks buffer s.

Definition parseInline (text : string) (marks : list DocMark) : list DocNode := inline_from marks EmptyString text.

(** ** From markdown to the document: lines *)

Definition blank (line : string) : bool := negb (truthy (trim line)).

Definition is_word_unit (c : ascii) : bool :=
  is_digit c || ((65 <=? code c) && (code c <=? 90)) || ((97 <=? code c) && (code c <=? 122)) || (code c =? 95).

Fixpoint span_word (s : string) : string * string :=
  match s with
  | String c s' => if is_word_unit c then let '(w, r) := span_word s' in (String c w, r) else (EmptyString, s)
  | EmptyString => (EmptyString, EmptyString)
  end.

(** [FENCE]: three backticks, a word that names the language, spaces. *)
Definition fence_of (line : string) : option string :=
  if startsWith line fence_s then
    let '(language, r) := span_word (sliceFrom 3 line) in
    if string_forall is_space r then Some language else None
  else None.

(** [HEADING]: one to three hashes, spaces, and the text. *)
Definition heading_of (line : string) : option (nat * string) :=
  let '(n, r) := span_unit "#"%char line in
  if (1 <=? n)%nat && (n <=? 3)%nat && starts_space r then Some (n, trimStart r) else None.

(** [QUOTE]: a greater-than sign, a space or none, and what is quoted. *)
Definition quote_of (line : string) : option string :=
  match line with
  | String c r =>
      if decide (c = ">"%char) then Some (if starts_space r then sliceFrom 1 r else r) else None
  | EmptyString => None
  end.

(** [ITEM]: spaces, a marker, spaces, and the rest. *)
Record Item := mkItem { item_indent : nat; item_marker : nat; item_ordered : bool; item_rest : string }.

Definition marker_of (r : string) : option (nat * bool * string) :=
  match r with
  | EmptyString => None
  | String c r' =>
      if decide (c = "-"%char ∨ c = "*"%char) then Some (1%nat, false, r')
      else
        let '(d, r'') := span_digits r in
        if truthy d && startsWith r'' "." then Some (S (String.length d), true, sliceFrom 1 r'') else None
  end.

Definition item_of (line : string) : option Item :=
  let r := trimStart line in
  '(width, ordered, r') ← marker_of r;
  if starts_space r'
  then Some (mkItem (String.length line - String.length r) width ordered (trimStart r'))
  else None.

(** The lines up to a fence, and those from it on. *)
Fixpoint until_fence (lines : list string) : list string * list string :=
  match lines with
  | [] => ([], [])
  | line :: rest =>
      match fence_of line with
      | Some _ => ([], lines)
      | None => let '(body, after) := until_fence rest in (line :: body, after)
      end
  end.

Fixpoint quoted (lines : list string) : list string * list string :=
  match lines with
  | [] => ([], [])
  | line :: rest =>
      match quote_of line with
      | None => ([], lines)
      | Some inner => let '(body, after) := quoted rest in (inner :: body, after)
      end
  end.

(** The lines indented past the marker belong to the item, and a blank one that
    such a line follows. *)
Fixpoint item_body (width : nat) (lines : list string) : list string * list string :=
  match lines with
  | [] => ([], [])
  | line :: rest =>
      let pad := repeatString width " " in
      if startsWith line pad ||
         (blank line && match rest with next :: _ => startsWith next pad | [] => false end)
      then let '(body, after) := item_body width rest in (sliceFrom width line :: body, after)
      else ([], lines)
  end.

(** The items of one list: those of one indent and one kind of marker. *)
Fixpoint list_items (fuel indent : nat) (ordered : bool) (lines : list string) : list (list string) * list string :=
  match fuel, lines with
  | S f, line :: rest =>
      match item_of line with
      | Some head =>
          if (item_indent head =? indent)%nat && Bool.eqb (item_ordered head) ordered then
            let '(body, after) := item_body (item_indent head + item_marker head + 1) rest in
            let '(items, after') := list_items f indent ordered after in
            ((item_rest head :: body) :: items, after')
          else ([], lines)
      | None => ([], lines)
      end
  | _, _ => ([], lines)
  end.

(** A line of prose: not blank, and no block begins with it. *)
Definition is_prose (line : string) : bool :=
  negb (blank line) && negb (bool_decide (is_Some (fence_of line))) && negb (bool_decide (is_Some (heading_of line))) &&
  negb (bool_decide (is_Some (quote_of line))) && negb (bool_decide (is_Some (item_of line))).

(** A line whose block marker was escaped, without the backslash. *)
Definition unescape_line (line : string) : string :=
  match line with
  | String c r => if decide (c = backslash) then (if marker_start r then r else line) else line
  | EmptyString => line
  end.

Fixpoint prose (lines : list string) : list string * list string :=
  match lines with
  | [] => ([], [])
  | line :: rest =>
      if is_prose line then let '(para, after) := prose rest in (unescape_line line :: para, after) else ([], lines)
  end.

Definition block_node (type : string) (attrs : option (list (string * Json))) (content : option (list DocNode)) : DocNode :=
  mkDocNode type None attrs None content.
Definition paragraph_node (content : list DocNode) : DocNode :=
  block_node "paragraph" None (match content with [] => None | _ => Some content end).
Definition heading_node (level : nat) (content : list DocNode) : DocNode :=
  block_node "heading" (Some [("level"%string, JNumber (Z.of_nat level))]) (Some content).
Definition code_node (language : string) (content : option (list DocNode)) : DocNode :=
  block_node "codeBlock" (Some [("language"%string, JString language)]) content.
Definition item_node (content : list DocNode) : DocNode :=
  block_node "listItem" None (Some (match content with [] => [block_node "paragraph" None None] | _ => content end)).
Definition list_node (ordered : bool) (items : list DocNode) : DocNode :=
  block_node (if ordered then "orderedList" else "bulletList") None (Some items).
Definition hard_break : DocNode := mkDocNode "hardBreak" None None None None.

(** The lines of a paragraph, with breaks between them. *)
Definition para_content (para : list string) : list DocNode :=
  concat (imap (fun k text => (if (0 <? k)%nat then [hard_break] else []) ++ parseInline text []) para).

(** One turn of the loop of [parseBlocks]; the turns after it, and the calls it
    makes for what is inside a block, are [rec]'s. *)
Definition blocks_step (rec : list string → list DocNode) (lines : list string) : list DocNode :=
  match lines with
  | [] => []
  | line :: rest =>
      if blank line then rec rest
      else match fence_of line with
      | Some language =>
          let '(body, after) := until_fence rest in
          code_node language (match body with [] => None | _ => Some [text_node (join line_feed_s body) []] end)
            :: rec (drop 1 after)
      | None =>
      match heading_of line with
      | Some (level, text) => heading_node level (parseInline text []) :: rec rest
      | None =>
      match quote_of line with
      | Some _ =>
          let '(inner, after) := quoted lines in
          block_node "blockquote" None (Some (rec inner)) :: rec after
      | None =>
      match item_of line with
      | Some item =>
          let '(items, after) := list_items (length lines) (item_indent item) (item_ordered item) lines in
          list_node (item_ordered item) (map (fun body => item_node (rec body)) items) :: rec after
      | None =>
          let '(para, after) := prose lines in
          let '(para, after) := match para with [] => ([line], rest) | _ => (para, after) end in
          paragraph_node (para_content para) :: rec after
      end end end end
  end.

(** What is left to read: every call is for less. *)
Definition lines_size (lines : list string) : nat := foldr (fun line n => S (String.length line) + n)%nat O lines.

Fixpoint blocks_loop (fuel : nat) (lines : list string) : list DocNode :=
  match fuel with
  | O => []
  | S f => blocks_step (blocks_loop f) lines
  end.

Definition parseBlocks (lines : list string) : list DocNode := blocks_loop (S (lines_size lines)) lines.

(** [.replace(/\r\n?/g, "\n")]. *)
Fixpoint one_newline (s : string) : string :=
  match s with
  | EmptyString => EmptyString
  | String c s' =>
      if decide (c = unit_of 13) then
        String line_feed (match s' with
                        | String d s'' => if decide (d = line_feed) then one_newline s'' else one_newline s'
                        | EmptyString => EmptyString
                        end)
      else String c (one_newline s')
  end.

Definition markdownToDoc (text : string) : option DocNode :=
  if blank text then None
  else Some (mkDocNode "doc" None None None (Some (parseBlocks (split line_feed (one_newline text))))).
