(* ===== verification/MarkdownFacts.v ===== *)
(** Facts about [Markdown]: the readers end for every text, and what they read
    has only what the schema names. *)

From Stdlib Require Import ZArith Ascii String Lia.
From stdpp Require Import base list strings decidable.
From S2P Require Import Prelude JsString Config Api DashFilter Markdown.

Open Scope Z_scope.

(** ** The parser ends *)

Lemma length_sliceFrom n s : String.length (sliceFrom n s) = (String.length s - n)%nat.
Proof. revert s. induction n as [|n IH]; intros [|c s]; simpl; done. Qed.

Lemma length_sliceTo n s : String.length (sliceTo n s) = Nat.min n (String.length s).
Proof. revert s. induction n as [|n IH]; intros [|c s]; simpl; try done. by rewrite IH. Qed.

Lemma sliceTo_sliceFrom n s : sliceTo n s +:+ sliceFrom n s = s.
Proof. revert s. induction n as [|n IH]; intros [|c s]; simpl; try done. by rewrite IH. Qed.

#[local] Arguments sliceFrom : simpl never.
#[local] Arguments sliceTo : simpl never.

Lemma startsWith_rest s d : startsWith s d = true → s = d +:+ sliceFrom (String.length d) s.
Proof.
  revert s. induction d as [|x d IH]; intros [|c s] H; cbn [startsWith] in H; try done.
  apply andb_true_iff in H as [Hc H]. apply bool_decide_eq_true in Hc as ->.
  change (String c s = String c (d +:+ sliceFrom (String.length d) s)). f_equal. by apply IH.
Qed.

Lemma startsWith_length s d : startsWith s d = true → (String.length d <= String.length s)%nat.
Proof. intros H. rewrite (startsWith_rest _ _ H), length_app_s. lia. Qed.

Lemma findClose_bound s d n : findClose s d = Some n → (n + String.length d <= String.length s)%nat.
Proof.
  enough (∀ m s n, (String.length s <= m)%nat → findClose s d = Some n → (n + String.length d <= String.length s)%nat) as Hall by eauto.
  clear s n. induction m as [|m IH]; intros [|c s] n Hm Hn; simpl in Hm; try done; [lia|].
  cbn [findClose] in Hn. case_decide as Hc.
  - destruct s as [|c' s]; [done|]. destruct (findClose s d) as [k|] eqn:E; [|done]. injection Hn as <-.
    apply IH in E; simpl in *; lia.
  - destruct (startsWith (String c s) d) eqn:Ed.
    + injection Hn as <-. apply startsWith_length in Ed. lia.
    + destruct (findClose s d) as [k|] eqn:E; [|done]. injection Hn as <-. apply IH in E; simpl in *; lia.
Qed.

Lemma code_at_shorter s inside rest : code_at s = Some (inside, rest) → (String.length rest < String.length s)%nat.
Proof.
  destruct s as [|c s]; [done|]. cbn [code_at]. case_decide; [|done].
  destruct (findClose s _) as [n|] eqn:E; [|done]. cbn [mbind option_bind]. intros [= _ <-]. rewrite length_sliceFrom. simpl. lia.
Qed.

Lemma delimited_at_inv marks s inside mark rest :
  delimited_at marks s = Some (inside, mark, rest) →
  ∃ open type, (open, type) ∈ delimited ∧ mark = plain_mark type ∧
    (String.length inside < String.length s)%nat ∧ (String.length rest < String.length s)%nat.
Proof.
  unfold delimited_at. intros Hh.
  destruct (omap (opened_at marks s) delimited) as [|x l] eqn:E; [done|]. injection Hh as ->.
  assert ((inside, mark, rest) ∈ omap (opened_at marks s) delimited) as Hin by (rewrite E; left).
  apply list_elem_of_omap in Hin as ([open type] & Hd & Ho). exists open, type.
  cbn [opened_at] in Ho. destruct (startsWith s open && _) eqn:Es; [|done]. apply andb_true_iff in Es as [Es _].
  apply startsWith_length in Es. destruct (findClose _ open) as [[|n]|] eqn:Ef; [done| |done].
  apply findClose_bound in Ef. rewrite length_sliceFrom in Ef. injection Ho as <- <- <-.
  assert (0 < String.length open)%nat as Ho by (repeat (apply elem_of_cons in Hd as [[= -> _]|Hd]; [simpl; lia|]); by apply elem_of_nil in Hd).
  split_and!; [done..| |].
  - rewrite length_sliceTo, length_sliceFrom. lia.
  - rewrite !length_sliceFrom. lia.
Qed.

Lemma link_at_inv s inside mark rest :
  link_at s = Some (inside, mark, rest) →
  ∃ href text, mark = link_mark href ∧ safeHref (Some (JString text)) = Some href ∧
    (String.length inside < String.length s)%nat ∧ (String.length rest < String.length s)%nat.
Proof.
  destruct s as [|c s]; [done|]. cbn [link_at]. case_decide; [|done].
  destruct (findClose s _) as [n|] eqn:Ef; [|done]. cbn [mbind option_bind].
  destruct (startsWith _ "("); [|done]. destruct (indexOf_unit _ _) as [k|]; [|done]. cbn [mbind option_bind].
  destruct (safeHref _) as [href|] eqn:Eh; [|done]. cbn [mbind option_bind]. destruct (truthy href); [|done].
  intros [= <- <- <-]. eexists _, _. split_and!; [done|exact Eh| |].
  - rewrite length_sliceTo. simpl. lia.
  - rewrite !length_sliceFrom. simpl. lia.
Qed.

(** One more turn does nothing once there are turns enough. *)
Lemma inline_step_ext rec rec' marks buffer s :
  (∀ m b t, (String.length t < String.length s)%nat → rec m b t = rec' m b t) →
  inline_step rec marks buffer s = inline_step rec' marks buffer s.
Proof.
  intros Hrec. destruct s as [|c s]; [done|]. cbn [inline_step].
  destruct (if decide (c = backslash) then s else EmptyString) as [|d t] eqn:E.
  - destruct (code_at (String c s)) as [[inside rest]|] eqn:Ec.
    { apply code_at_shorter in Ec. by rewrite Hrec. }
    destruct (delimited_at marks (String c s)) as [[[inside mark] rest]|] eqn:Ed.
    { apply delimited_at_inv in Ed as (? & ? & _ & _ & ? & ?). by rewrite !Hrec. }
    destruct (link_at (String c s)) as [[[inside mark] rest]|] eqn:El.
    { apply link_at_inv in El as (? & ? & _ & _ & ? & ?). by rewrite !Hrec. }
    apply Hrec. simpl. lia.
  - case_decide; [|done]. subst s. apply Hrec. simpl. lia.
Qed.

Lemma inline_loop_enough f g marks buffer s :
  (String.length s < f)%nat → (String.length s < g)%nat → inline_loop f marks buffer s = inline_loop g marks buffer s.
Proof.
  revert g marks buffer s. induction f as [|f IH]; intros [|g] marks buffer s Hf Hg; [lia..|].
  cbn [inline_loop]. apply inline_step_ext. intros m b t Ht. apply IH; lia.
Qed.

Lemma inline_from_eq marks buffer s : inline_from marks buffer s = inline_step inline_from marks buffer s.
Proof.
  unfold inline_from at 1. cbn [inline_loop]. apply inline_step_ext.
  intros m b t Ht. apply inline_loop_enough; lia.
Qed.

Lemma length_trimStart s : (String.length (trimStart s) <= String.length s)%nat.
Proof. induction s as [|c s IH]; simpl; [done|]. destruct (is_space c); simpl; lia. Qed.

Lemma quote_of_shorter line inner : quote_of line = Some inner → (String.length inner < String.length line)%nat.
Proof.
  destruct line as [|c r]; [done|]. simpl. case_decide; [|done]. intros [= <-].
  destruct (starts_space r); [rewrite length_sliceFrom|]; lia.
Qed.

Lemma span_digits_length s d r : span_digits s = (d, r) → String.length s = (String.length d + String.length r)%nat.
Proof.
  revert d r. induction s as [|c s IH]; intros d r; simpl; [by intros [= <- <-]|].
  destruct (is_digit c); [|by intros [= <- <-]]. destruct (span_digits s) as [d' r']. intros [= <- <-]. simpl. by rewrite (IH d' r').
Qed.

Lemma marker_of_shorter r width ordered r' : marker_of r = Some (width, ordered, r') → (String.length r' < String.length r)%nat.
Proof.
  destruct r as [|c r]; [done|]. unfold marker_of. case_decide; [intros [= _ _ <-]; simpl; lia|].
  destruct (span_digits (String c r)) as [d r''] eqn:Ed. apply span_digits_length in Ed.
  destruct (truthy d && startsWith r'' ".") eqn:E; [|done]. intros [= _ _ <-].
  apply andb_true_iff in E as [_ Hs%startsWith_length]. rewrite length_sliceFrom. simpl in *. lia.
Qed.

Lemma item_of_shorter line item : item_of line = Some item → (String.length (item_rest item) < String.length line)%nat.
Proof.
  unfold item_of. destruct (marker_of (trimStart line)) as [[[width ordered] r']|] eqn:E; [|done]. cbn [mbind option_bind].
  destruct (starts_space r'); [|done]. intros [= <-]. cbn [item_rest]. apply marker_of_shorter in E.
  pose proof (length_trimStart r'). pose proof (length_trimStart line). lia.
Qed.

Lemma until_fence_size lines body after : until_fence lines = (body, after) → (lines_size after <= lines_size lines)%nat.
Proof.
  revert body after. induction lines as [|line lines IH]; intros body after; simpl; [by intros [= <- <-]|].
  destruct (fence_of line); [intros [= <- <-]; simpl; lia|]. destruct (until_fence lines) as [b a]. intros [= <- <-]. specialize (IH b a eq_refl). lia.
Qed.

Lemma quoted_size lines inner after :
  quoted lines = (inner, after) → (lines_size inner + length inner + lines_size after <= lines_size lines)%nat.
Proof.
  revert inner after. induction lines as [|line lines IH]; intros inner after; simpl; [by intros [= <- <-]|].
  destruct (quote_of line) as [q|] eqn:Eq; [|intros [= <- <-]; simpl; lia]. destruct (quoted lines) as [b a]. intros [= <- <-].
  specialize (IH b a eq_refl). apply quote_of_shorter in Eq. simpl. lia.
Qed.

Lemma item_body_size width lines body after :
  item_body width lines = (body, after) → (lines_size body + lines_size after <= lines_size lines)%nat.
Proof.
  revert body after. induction lines as [|line lines IH]; intros body after; cbn [item_body]; [by intros [= <- <-]|].
  destruct (_ || _); [|intros [= <- <-]; simpl; lia]. destruct (item_body width lines) as [b a]. intros [= <- <-].
  specialize (IH b a eq_refl). simpl. rewrite length_sliceFrom. lia.
Qed.

Lemma list_items_size fuel indent ordered lines items after :
  list_items fuel indent ordered lines = (items, after) →
  Forall (fun body => (lines_size body < lines_size lines)%nat) items ∧
  (items ≠ [] → (lines_size after < lines_size lines)%nat) ∧ (lines_size after <= lines_size lines)%nat.
Proof.
  revert lines items after. induction fuel as [|fuel IH]; intros lines items after; cbn [list_items].
  { intros [= <- <-]. repeat constructor; done. }
  destruct lines as [|line lines]; [intros [= <- <-]; repeat constructor; done|].
  destruct (item_of line) as [head|] eqn:Ei; [|intros [= <- <-]; repeat constructor; done].
  destruct (_ && _); [|intros [= <- <-]; repeat constructor; done].
  destruct (item_body _ lines) as [body rest] eqn:Eb. apply item_body_size in Eb. apply item_of_shorter in Ei.
  destruct (list_items fuel indent ordered rest) as [its aft] eqn:El. apply IH in El as (Hall & _ & Hle). intros [= <- <-].
  split_and!; [|intros _; simpl; lia|simpl; lia].
  constructor; [simpl; lia|]. eapply Forall_impl; [|exact Hall]. simpl. intros b Hb. lia.
Qed.

Lemma list_items_first line lines item :
  item_of line = Some item →
  (list_items (length (line :: lines)) (item_indent item) (item_ordered item) (line :: lines)).1 ≠ [].
Proof.
  intros Hi. cbn [length list_items]. rewrite Hi, Nat.eqb_refl, eqb_reflx. cbn [andb].
  destruct (item_body _ lines) as [body rest]. by destruct (list_items _ _ _ rest).
Qed.

Lemma prose_size lines para after :
  prose lines = (para, after) → (lines_size after <= lines_size lines)%nat ∧ (para ≠ [] → (lines_size after < lines_size lines)%nat).
Proof.
  revert para after. induction lines as [|line lines IH]; intros para after; cbn [prose]; [by intros [= <- <-]|].
  destruct (is_prose line); [|intros [= <- <-]; done]. destruct (prose lines) as [b a]. intros [= <- <-].
  destruct (IH b a eq_refl) as [H1 _]. simpl. split; [lia|intros _; lia].
Qed.

Lemma blocks_step_ext rec rec' lines :
  (∀ l, (lines_size l < lines_size lines)%nat → rec l = rec' l) → blocks_step rec lines = blocks_step rec' lines.
Proof.
  intros Hrec. destruct lines as [|line rest]; [done|]. cbn [blocks_step].
  assert (lines_size rest < lines_size (line :: rest))%nat as Hrest by (simpl; lia).
  destruct (blank line); [by apply Hrec|].
  destruct (fence_of line) as [lang|].
  { destruct (until_fence rest) as [body after] eqn:E. apply until_fence_size in E. f_equal. apply Hrec.
    assert (lines_size (drop 1 after) <= lines_size after)%nat by (destruct after; simpl; rewrite ?drop_0; lia). lia. }
  destruct (heading_of line) as [[level text]|]; [f_equal; by apply Hrec|].
  destruct (quote_of line) as [q|] eqn:Eq.
  { destruct (quoted (line :: rest)) as [inner after] eqn:E. pose proof (quoted_size _ _ _ E) as Hsize.
    assert (inner ≠ []) as Hne by (cbn [quoted] in E; rewrite Eq in E; destruct (quoted rest); by injection E as <- <-).
    assert (0 < length inner)%nat by (destruct inner; [done|simpl; lia]).
    assert (0 < lines_size inner)%nat by (destruct inner; [done|simpl; lia]).
    rewrite (Hrec inner), (Hrec after) by lia. done. }
  destruct (item_of line) as [item|] eqn:Ei.
  { pose proof (list_items_first line rest item Ei) as Hne.
    destruct (list_items _ _ _ (line :: rest)) as [items after] eqn:E.
    apply list_items_size in E as (Hall & Hlt & _). rewrite (Hrec after) by (apply Hlt, Hne). f_equal. f_equal.
    clear Hne Hlt. induction Hall as [|b items Hb Hall IH]; [done|]. simpl. rewrite (Hrec b) by done. by f_equal. }
  destruct (prose (line :: rest)) as [para after] eqn:E. apply prose_size in E as [_ Hlt].
  destruct para as [|t para]; [by rewrite Hrec|]. rewrite Hrec; [done|]. by apply Hlt.
Qed.

Lemma blocks_loop_enough f g lines :
  (lines_size lines < f)%nat → (lines_size lines < g)%nat → blocks_loop f lines = blocks_loop g lines.
Proof.
  revert g lines. induction f as [|f IH]; intros [|g] lines Hf Hg; [lia..|].
  cbn [blocks_loop]. apply blocks_step_ext. intros l Hl. apply IH; lia.
Qed.

Lemma parseBlocks_eq lines : parseBlocks lines = blocks_step parseBlocks lines.
Proof.
  unfold parseBlocks at 1. cbn [blocks_loop]. apply blocks_step_ext.
  intros l Hl. apply blocks_loop_enough; lia.
Qed.

(** Reading markdown ends for every text: the loop over the lines and the one
    over the units of a line give what one turn of theirs gives, with the calls
    inside it being the whole loops again. *)
Theorem markdown_read_through :
  (∀ lines, parseBlocks lines = blocks_step parseBlocks lines) ∧
  (∀ marks buffer text, inline_from marks buffer text = inline_step inline_from marks buffer text).
Proof. split; [exact parseBlocks_eq|exact inline_from_eq]. Qed.

(** ** What is read is in the schema *)

(** A link leads to a web or a mail address. *)
Definition address_ok (href : string) : bool :=
  let lower_ := toLowerCase href in
  startsWith lower_ "http://" || startsWith lower_ "https://" || startsWith lower_ "mailto:".

Definition mark_ok (m : DocMark) : bool :=
  bool_decide (mark_type m ∈ MARK_TYPES) &&
  (if decide (mark_type m = "link"%string)
   then match attr (mark_attrs m) "href" with Some (JString href) => address_ok href | _ => false end
   else true).

Fixpoint schema_ok (n : DocNode) : bool :=
  match n with
  | mkDocNode type _ attrs marks content =>
      bool_decide (type ∈ NODE_TYPES) && forallb mark_ok (default [] marks) &&
      (if decide (type = "heading"%string)
       then match attr attrs "level" with Some (JNumber level) => bool_decide (level ∈ HEADING_LEVELS) | _ => false end
       else true) &&
      forallb (fun b => b) (over schema_ok content)
  end.

Lemma forallb_over {A} (f : A → bool) (l : list A) : forallb (fun b => b) (map f l) = forallb f l.
Proof. induction l as [|x l IH]; simpl; [done|]. by rewrite IH. Qed.

Lemma schema_ok_content type text attrs marks content :
  bool_decide (type ∈ NODE_TYPES) = true → forallb mark_ok (default [] marks) = true → type ≠ "heading"%string →
  forallb schema_ok content = true → schema_ok (mkDocNode type text attrs marks (Some content)) = true.
Proof. intros Ht Hm Hh Hc. cbn [schema_ok over]. by rewrite Ht, Hm, decide_False, forallb_over, Hc. Qed.

Lemma schema_ok_text text marks : forallb mark_ok marks = true → schema_ok (text_node text marks) = true.
Proof. intros Hm. unfold text_node. cbn [schema_ok over]. destruct marks; [done|].
  cbn [default from_option]. unfold id. by rewrite Hm. Qed.

Lemma safe_address text href : safeHref (Some (JString text)) = Some href → address_ok href = true.
Proof. unfold safeHref, address_ok. destruct (_ || _) eqn:E; [|done]. intros [= <-]. exact E. Qed.

Lemma forallb_snoc {A} (P : A → bool) l x : forallb P (l ++ [x]) = forallb P l && P x.
Proof. rewrite forallb_app. simpl. by rewrite andb_true_r. Qed.

Lemma delimited_mark_ok open type : (open, type) ∈ delimited → mark_ok (plain_mark type) = true.
Proof. intros Hd. repeat (apply elem_of_cons in Hd as [[= _ ->]|Hd]; [reflexivity|]). by apply elem_of_nil in Hd. Qed.

Lemma flush_in_schema marks buffer : forallb mark_ok marks = true → forallb schema_ok (flush marks buffer) = true.
Proof. intros Hm. unfold flush. destruct (truthy buffer); [|done]. cbn [forallb]. by rewrite schema_ok_text. Qed.

Lemma inline_in_schema f marks buffer s :
  forallb mark_ok marks = true → forallb schema_ok (inline_loop f marks buffer s) = true.
Proof.
  revert marks buffer s. induction f as [|f IH]; intros marks buffer s Hm; [done|]. cbn [inline_loop].
  destruct s as [|c s]; cbn [inline_step]; [by apply flush_in_schema|].
  destruct (if decide (c = backslash) then s else EmptyString) as [|d t]; [|by apply IH].
  assert (∀ mark inside rest, mark_ok mark = true →
    forallb schema_ok (flush marks buffer ++ inline_loop f (marks ++ [mark]) EmptyString inside ++ inline_loop f marks EmptyString rest) = true) as Hmark.
  { intros mark inside rest Hk. rewrite !forallb_app, flush_in_schema, IH, IH by (rewrite ?forallb_snoc, ?Hm, ?Hk; done). done. }
  destruct (code_at (String c s)) as [[inside rest]|].
  { rewrite !forallb_app, flush_in_schema, IH by done. cbn [forallb]. rewrite schema_ok_text; [done|]. by rewrite forallb_snoc, Hm. }
  destruct (delimited_at marks (String c s)) as [[[inside mark] rest]|] eqn:Ed.
  { apply delimited_at_inv in Ed as (open & type & Hd & -> & _). apply Hmark. by eapply delimited_mark_ok. }
  destruct (link_at (String c s)) as [[[inside mark] rest]|] eqn:El; [|by apply IH].
  apply link_at_inv in El as (href & text & -> & Hh & _). apply Hmark. unfold mark_ok, link_mark. cbn. by eapply safe_address.
Qed.

Lemma parseInline_in_schema text : forallb schema_ok (parseInline text []) = true.
Proof. by apply inline_in_schema. Qed.

Lemma para_in_schema para : forallb schema_ok (para_content para) = true.
Proof.
  unfold para_content.
  assert (∀ g : nat → string → list DocNode, (∀ k t, forallb schema_ok (g k t) = true) → forallb schema_ok (concat (imap g para)) = true) as Hall.
  { induction para as [|t para IH]; intros g Hg; [done|]. cbn [imap concat]. rewrite forallb_app, Hg. apply IH. intros k t'. apply Hg. }
  apply Hall. intros k t. rewrite forallb_app, parseInline_in_schema. by destruct (0 <? k)%nat; vm_compute.
Qed.

Lemma heading_of_level line level text : heading_of line = Some (level, text) → Z.of_nat level ∈ HEADING_LEVELS.
Proof.
  unfold heading_of. destruct (span_unit _ line) as [n r]. destruct (_ && _) eqn:E; [|done]. intros [= <- _].
  apply andb_true_iff in E as [E _]. apply andb_true_iff in E as [H1%Nat.leb_le H2%Nat.leb_le].
  assert (n = 1 ∨ n = 2 ∨ n = 3)%nat as [->|[->| ->]] by lia; apply (bool_decide_unpack _); vm_compute; exact I.
Qed.

Lemma blocks_in_schema f lines : forallb schema_ok (blocks_loop f lines) = true.
Proof.
  revert lines. induction f as [|f IH]; intros lines; [done|]. cbn [blocks_loop].
  destruct lines as [|line rest]; cbn [blocks_step]; [done|].
  destruct (blank line); [done|].
  destruct (fence_of line) as [lang|].
  { destruct (until_fence rest) as [body after]. cbn [forallb]. rewrite IH, andb_true_r. by destruct body. }
  destruct (heading_of line) as [[level text]|] eqn:Eh.
  { apply heading_of_level in Eh. cbn [forallb]. rewrite IH, andb_true_r. unfold heading_node, block_node. cbn [schema_ok over].
    rewrite forallb_over, parseInline_in_schema, !andb_true_r. rewrite decide_True by done. cbn. by apply bool_decide_eq_true_2. }
  destruct (quote_of line) as [q|].
  { destruct (quoted (line :: rest)) as [inner after]. cbn [forallb]. rewrite IH, andb_true_r. by apply schema_ok_content. }
  destruct (item_of line) as [item|].
  { destruct (list_items _ _ _ (line :: rest)) as [items after]. cbn [forallb]. rewrite IH, andb_true_r.
    apply schema_ok_content; [by destruct (item_ordered item)|done|by destruct (item_ordered item)|].
    apply forallb_forall. intros x Hx. apply in_map_iff in Hx as (body & <- & _). apply schema_ok_content; [done..|].
    specialize (IH body). by destruct (blocks_loop f body). }
  destruct (prose (line :: rest)) as [para after].
  assert (∀ p l, forallb schema_ok (paragraph_node (para_content p) :: blocks_loop f l) = true) as Hpara.
  { intros p l. cbn [forallb]. rewrite IH, andb_true_r. unfold paragraph_node. pose proof (para_in_schema p) as Hp.
    destruct (para_content p); [done|]. by apply schema_ok_content. }
  destruct para; apply Hpara.
Qed.

(** C18: whatever is typed, the document read from it has only the nodes and the
    marks of the schema, headings of its levels, and links that lead to a web or
    a mail address. *)
Theorem markdown_in_schema text : from_option schema_ok true (markdownToDoc text) = true.
Proof.
  unfold markdownToDoc. destruct (blank text); [done|]. cbn [from_option].
  apply schema_ok_content; [done..|]. apply blocks_in_schema.
Qed.
