(* ===== verification/MarkdownTrip.v ===== *)
(** Round trips through markdown: what the editor writes of a document
    ([docToMarkdown]) is read back as the same document ([markdownToDoc]).

    [run], [line_ok] and [block_ok] say which documents; each condition that is
    not about form alone has an example at the end that fails without it. *)

From Stdlib Require Import ZArith Ascii String Lia.
From stdpp Require Import base list strings decidable.
From S2P Require Import Prelude JsString Config Api DashFilter Markdown MarkdownFacts.

Open Scope Z_scope.

(** ** Inside a line *)

Lemma sliceTo_app a b : sliceTo (String.length a) (a +:+ b) = a.
Proof. induction a as [|c a IH]; simpl; [by destruct b|]. by rewrite IH. Qed.

Lemma sliceFrom_length a b : sliceFrom (String.length a) (a +:+ b) = b.
Proof. by induction a. Qed.

Lemma sliceFrom_app_plus a b n : sliceFrom (String.length a + n) (a +:+ b) = sliceFrom n b.
Proof. by induction a. Qed.

Lemma startsWith_self d r : startsWith (d +:+ r) d = true.
Proof. induction d as [|c d IH]; [by destruct r|]. simpl. by rewrite bool_decide_eq_true_2. Qed.

Lemma startsWith_first c s u d : c ≠ u → startsWith (String c s) (String u d) = false.
Proof. intros Hne. simpl. by rewrite bool_decide_eq_false_2. Qed.

Lemma markup_not c u : is_markup c = false → is_markup u = true → c ≠ u.
Proof. intros Hc Hu ->. congruence. Qed.

Lemma findClose_escaped u d s r :
  is_markup u = true → u ≠ backslash →
  findClose (escapeText s +:+ String u d +:+ r) (String u d) = Some (String.length (escapeText s)).
Proof.
  intros Hu Hb. induction s as [|c s IH].
  - change (findClose (String u (d +:+ r)) (String u d) = Some O). cbn [findClose]. rewrite decide_False by done.
    change (String u (d +:+ r)) with (String u d +:+ r). by rewrite startsWith_self.
  - cbn [escapeText]. destruct (is_markup c) eqn:Hc.
    + change (findClose (String backslash (String c (escapeText s +:+ String u d +:+ r))) (String u d) = Some (S (S (String.length (escapeText s))))).
      cbn [findClose]. rewrite decide_True by done. by rewrite IH.
    + change (findClose (String c (escapeText s +:+ String u d +:+ r)) (String u d) = Some (S (String.length (escapeText s)))).
      cbn [findClose]. rewrite decide_False by (by apply markup_not). rewrite startsWith_first by (by apply markup_not). by rewrite IH.
Qed.

Lemma delimited_at_other marks c s : c ≠ "*"%char → c ≠ "~"%char → delimited_at marks (String c s) = None.
Proof.
  intros H1 H2. unfold delimited_at, delimited, opened_at. cbn [omap list_omap].
  by rewrite !startsWith_first.
Qed.

Lemma code_at_other c s : c ≠ backtick → code_at (String c s) = None.
Proof. intros H. cbn [code_at]. by rewrite decide_False. Qed.

Lemma link_at_other c s : c ≠ "["%char → link_at (String c s) = None.
Proof. intros H. cbn [link_at]. by rewrite decide_False. Qed.

(** Escaped prose is read as the prose it was, whatever comes before and after. *)
Lemma inline_prose marks buffer s r :
  inline_from marks buffer (escapeText s +:+ r) = inline_from marks (buffer +:+ s) r.
Proof.
  revert buffer. induction s as [|c s IH]; intros buffer; [by rewrite app_empty_r|].
  replace (buffer +:+ String c s) with ((buffer +:+ String c EmptyString) +:+ s) by (by rewrite app_assoc_s).
  rewrite <- IH. cbn [escapeText]. destruct (is_markup c) eqn:Hc.
  - change (String backslash (String c (escapeText s)) +:+ r) with (String backslash (String c (escapeText s +:+ r))).
    rewrite inline_from_eq. cbn [inline_step]. by rewrite decide_True.
  - change (String c (escapeText s) +:+ r) with (String c (escapeText s +:+ r)).
    rewrite inline_from_eq. cbn [inline_step]. rewrite decide_False by (by apply markup_not).
    rewrite code_at_other, delimited_at_other, link_at_other by (by apply markup_not). done.
Qed.

Lemma flush_text marks s : s ≠ EmptyString → flush marks s = [text_node s marks].
Proof. intros H. unfold flush, truthy. by rewrite bool_decide_eq_false_2. Qed.

Lemma inline_prose_only marks s : s ≠ EmptyString → inline_from marks EmptyString (escapeText s) = [text_node s marks].
Proof.
  intros H. rewrite <- (app_empty_r (escapeText s)), inline_prose. rewrite inline_from_eq. cbn [inline_step]. by apply flush_text.
Qed.

(** Prose stays prose: any text at all, escaped, is read as that text and not
    as markup. *)
Theorem escaped_is_prose s : parseInline (escapeText s) [] = flush [] s.
Proof. unfold parseInline. rewrite <- (app_empty_r (escapeText s)), inline_prose. by rewrite inline_from_eq. Qed.

(** ** Runs *)

(** A unit that ends no line. *)
Definition in_line (c : ascii) : bool := negb (bool_decide (c = line_feed)) && negb (bool_decide (c = unit_of 13)).
Definition one_line (s : string) : bool := string_forall in_line s.

(** The texts that are written and read back: prose, one mark of the three
    around it, code without a backslash, and a link whose address is one. *)
Inductive run : DocNode → Prop :=
  | run_prose s : s ≠ EmptyString → one_line s = true → run (text_node s [])
  | run_marked open type s :
      (open, type) ∈ delimited → s ≠ EmptyString → one_line s = true → run (text_node s [plain_mark type])
  | run_code s :
      one_line s = true → string_forall (fun c => negb (bool_decide (c = backslash))) s = true →
      run (text_node s [plain_mark "code"])
  | run_link href s :
      s ≠ EmptyString → one_line s = true → one_line href = true → safeHref (Some (JString href)) = Some href →
      truthy href = true → string_forall (fun c => negb (bool_decide (c = ")"%char))) href = true →
      run (text_node s [link_mark href]).

Definition is_prose_run (n : DocNode) : bool := match node_marks n with Some (_ :: _) => false | _ => true end.

(** Two pieces of prose side by side are one. *)
Fixpoint runs (nodes : list DocNode) : Prop :=
  match nodes with
  | [] => True
  | n :: rest => run n ∧ (is_prose_run n = true → match rest with m :: _ => is_prose_run m = false | [] => True end) ∧ runs rest
  end.

Lemma escape_first s r u d : s ≠ EmptyString → is_markup u = true → u ≠ backslash → startsWith (escapeText s +:+ r) (String u d) = false.
Proof.
  intros Hs Hu Hb. destruct s as [|c s]; [done|]. cbn [escapeText].
  destruct (is_markup c) eqn:Hc; apply startsWith_first; [done|by apply markup_not].
Qed.

Lemma escape_nonempty s : s ≠ EmptyString → ∃ n, String.length (escapeText s) = S n.
Proof. destruct s as [|c s]; [done|]. intros _. cbn [escapeText]. destruct (is_markup c); simpl; eauto. Qed.

Lemma opened_at_run u d type s r :
  is_markup u = true → u ≠ backslash → s ≠ EmptyString →
  opened_at [] (String u d +:+ escapeText s +:+ String u d +:+ r) (String u d, type) = Some (escapeText s, plain_mark type, r).
Proof.
  intros Hu Hb Hs. unfold opened_at. rewrite startsWith_self. cbn [existsb negb andb].
  rewrite sliceFrom_length, findClose_escaped by done. destruct (escape_nonempty s Hs) as [n Hn]. rewrite Hn, <- Hn.
  rewrite sliceTo_app. rewrite sliceFrom_app_plus, sliceFrom_length. done.
Qed.

(** Text of one of the three marks, at the start of what is read. *)
Lemma delimited_at_run open type s r :
  (open, type) ∈ delimited → s ≠ EmptyString →
  delimited_at [] (open +:+ escapeText s +:+ open +:+ r) = Some (escapeText s, plain_mark type, r).
Proof.
  intros Hd Hs. unfold delimited_at.
  assert (∀ u d type', is_markup u = true → u ≠ backslash →
    opened_at [] (String u d +:+ escapeText s +:+ String u d +:+ r) (String u d, type') = Some (escapeText s, plain_mark type', r)) as Hrun
    by (intros; by apply opened_at_run).
  unfold delimited in *. cbn [omap list_omap].
  apply elem_of_cons in Hd as [[= -> ->]|Hd]; [|apply elem_of_cons in Hd as [[= -> ->]|Hd]].
  - by rewrite Hrun.
  - replace (opened_at [] ("~~" +:+ escapeText s +:+ "~~" +:+ r) ("**", "bold")%string) with (@None (string * DocMark * string)) by done.
    by rewrite Hrun.
  - apply list_elem_of_singleton in Hd as [= -> ->].
    replace (opened_at [] ("*" +:+ escapeText s +:+ "*" +:+ r) ("**", "bold")%string) with (@None (string * DocMark * string)).
    2:{ unfold opened_at. pose proof (escape_first s ("*" +:+ r) "*" EmptyString Hs eq_refl ltac:(done)) as E.
        change (startsWith ("*" +:+ escapeText s +:+ "*" +:+ r) "**") with (startsWith (escapeText s +:+ "*" +:+ r) "*"). by rewrite E. }
    replace (opened_at [] ("*" +:+ escapeText s +:+ "*" +:+ r) ("~~", "strike")%string) with (@None (string * DocMark * string)) by done.
    by rewrite Hrun.
Qed.

Lemma unit_ne_backslash c : negb (bool_decide (c = backslash)) = true → c ≠ backslash.
Proof. by rewrite negb_true_iff, bool_decide_eq_false. Qed.

Lemma findClose_ticks s r :
  string_forall (fun c => negb (bool_decide (c = backslash))) s = true →
  findClose (escape_ticks s +:+ String backtick r) (String backtick EmptyString) = Some (String.length (escape_ticks s)).
Proof.
  induction s as [|c s IH].
  { intros _. change (findClose (String backtick EmptyString +:+ r) (String backtick EmptyString) = Some O). destruct r; reflexivity. }
  cbn [string_forall escape_ticks]. intros [Hc%unit_ne_backslash Hs]%andb_true_iff.
  case_decide as Ht.
  - change (findClose (String backslash (String c (escape_ticks s +:+ String backtick r))) (String backtick EmptyString) = Some (S (S (String.length (escape_ticks s))))).
    cbn [findClose]. rewrite decide_True by done. by rewrite IH.
  - change (findClose (String c (escape_ticks s +:+ String backtick r)) (String backtick EmptyString) = Some (S (String.length (escape_ticks s)))).
    cbn [findClose]. rewrite decide_False, startsWith_first by done. by rewrite IH.
Qed.

Lemma unescape_escape_ticks s :
  string_forall (fun c => negb (bool_decide (c = backslash))) s = true → unescape_ticks (escape_ticks s) = s.
Proof.
  induction s as [|c s IH]; [done|]. cbn [string_forall escape_ticks]. intros [Hc%unit_ne_backslash Hs]%andb_true_iff.
  specialize (IH Hs). case_decide as Ht.
  - subst c. cbn [unescape_ticks]. rewrite decide_True by done. by rewrite IH.
  - cbn [unescape_ticks]. destruct (escape_ticks s) as [|d t]; [cbn [unescape_ticks] in IH; by subst s|].
    rewrite decide_False by naive_solver. by rewrite IH.
Qed.

Lemma code_at_run s r :
  string_forall (fun c => negb (bool_decide (c = backslash))) s = true →
  code_at (String backtick (escape_ticks s +:+ String backtick r)) = Some (s, r).
Proof.
  intros Hs. cbn [code_at]. rewrite decide_True, findClose_ticks by done. cbn [mbind option_bind].
  rewrite sliceTo_app, unescape_escape_ticks by done.
  replace (S (String.length (escape_ticks s))) with (String.length (escape_ticks s) + 1)%nat by lia.
  by rewrite sliceFrom_app_plus.
Qed.

Lemma indexOf_unit_app u s r :
  string_forall (fun c => negb (bool_decide (c = u))) s = true → indexOf_unit u (s +:+ String u r) = Some (String.length s).
Proof.
  induction s as [|c s IH]; [intros _; cbn; by rewrite decide_True|]. cbn [string_forall].
  rewrite andb_true_iff, negb_true_iff, bool_decide_eq_false. intros [Hc Hs].
  change (indexOf_unit u (String c (s +:+ String u r)) = Some (S (String.length s))). cbn [indexOf_unit].
  by rewrite decide_False, IH.
Qed.

Lemma link_at_run s href r :
  safeHref (Some (JString href)) = Some href → truthy href = true →
  string_forall (fun c => negb (bool_decide (c = ")"%char))) href = true →
  link_at ("[" +:+ escapeText s +:+ "](" +:+ href +:+ ")" +:+ r) = Some (escapeText s, link_mark href, r).
Proof.
  intros Hsafe Ht Hp. change ("[" +:+ escapeText s +:+ "](" +:+ href +:+ ")" +:+ r) with (String "[" (escapeText s +:+ String "]" EmptyString +:+ String "(" (href +:+ String ")" r))).
  cbn [link_at]. rewrite decide_True, findClose_escaped by done. cbn [mbind option_bind].
  replace (S (String.length (escapeText s))) with (String.length (escapeText s) + 1)%nat by lia.
  rewrite sliceFrom_app_plus. change (sliceFrom 1 (String "]" EmptyString +:+ String "(" (href +:+ String ")" r))) with (String "(" (href +:+ String ")" r)).
  change (startsWith (String "(" (href +:+ String ")" r)) "(") with (startsWith (String "(" EmptyString +:+ (href +:+ String ")" r)) (String "(" EmptyString)).
  rewrite startsWith_self. change (sliceFrom 1 (String "(" (href +:+ String ")" r))) with (href +:+ String ")" r).
  rewrite indexOf_unit_app by done. cbn [mbind option_bind]. rewrite !sliceTo_app, Hsafe. cbn [mbind option_bind].
  rewrite Ht. do 3 f_equal.
  change (sliceFrom (S (String.length href)) (href +:+ String ")" r) = r).
  replace (S (String.length href)) with (String.length href + 1)%nat by lia. by rewrite sliceFrom_app_plus.
Qed.

Lemma concat_s_cons w l : concat_s (w :: l) = w +:+ concat_s l.
Proof. unfold concat_s. destruct l as [|w' l]; [by rewrite app_empty_r|]. by rewrite join_cons. Qed.

Lemma inlineToMarkdown_cons n l : inlineToMarkdown (n :: l) = inlineNodeToMarkdown n +:+ inlineToMarkdown l.
Proof. apply concat_s_cons. Qed.

Lemma prose_markdown s : inlineNodeToMarkdown (text_node s []) = escapeText s.
Proof. reflexivity. Qed.

Lemma marked_markdown open type s :
  (open, type) ∈ delimited → inlineNodeToMarkdown (text_node s [plain_mark type]) = open +:+ escapeText s +:+ open.
Proof.
  intros Hd. repeat (apply elem_of_cons in Hd as [[= -> ->]|Hd]; [reflexivity|]). by apply elem_of_nil in Hd.
Qed.

Lemma link_markdown s href :
  safeHref (Some (JString href)) = Some href → truthy href = true →
  inlineNodeToMarkdown (text_node s [link_mark href]) = "[" +:+ escapeText s +:+ "](" +:+ href +:+ ")".
Proof.
  intros Hs Ht. transitivity (match safeHref (Some (JString href)) with
    | Some h => if truthy h then "[" +:+ escapeText s +:+ "](" +:+ h +:+ ")" else escapeText s
    | None => escapeText s
    end); [reflexivity|]. by rewrite Hs, Ht.
Qed.

(** A run that has a mark is read whole, once the prose before it ends. *)
Lemma inline_run n buffer r :
  run n → is_prose_run n = false → inline_from [] buffer (inlineNodeToMarkdown n +:+ r) = flush [] buffer ++ n :: inline_from [] EmptyString r.
Proof.
  intros Hn Hp. destruct Hn as [s Hs _|open type s Hd Hs _|s _ Hb|href s Hs _ _ Hsafe Ht Hc].
  - done.
  - rewrite (marked_markdown open) by done. rewrite !app_assoc_s, inline_from_eq.
    pose proof (delimited_at_run open type s r Hd Hs) as Hat.
    assert (∃ u d, open = String u d ∧ u ≠ backslash ∧ u ≠ backtick) as (u & d & -> & Hu & Hu').
    { repeat (apply elem_of_cons in Hd as [[= -> _]|Hd]; [by eexists _, _|]). by apply elem_of_nil in Hd. }
    change (String u d +:+ escapeText s +:+ String u d +:+ r) with (String u (d +:+ escapeText s +:+ String u d +:+ r)) in *.
    cbn [inline_step]. rewrite decide_False, code_at_other, Hat by done. by rewrite inline_prose_only.
  - change (inlineNodeToMarkdown (text_node s [plain_mark "code"])) with (String backtick (escape_ticks s +:+ String backtick EmptyString)).
    change (String backtick (escape_ticks s +:+ String backtick EmptyString) +:+ r) with (String backtick ((escape_ticks s +:+ String backtick EmptyString) +:+ r)).
    rewrite app_assoc_s. change (String backtick EmptyString +:+ r) with (String backtick r). rewrite inline_from_eq. cbn [inline_step].
    rewrite decide_False by done. by rewrite code_at_run.
  - rewrite link_markdown by done. rewrite !app_assoc_s, inline_from_eq.
    pose proof (link_at_run s href r Hsafe Ht Hc) as Hat.
    change ("[" +:+ escapeText s +:+ "](" +:+ href +:+ ")" +:+ r) with (String "[" (escapeText s +:+ "](" +:+ href +:+ ")" +:+ r)) in *.
    cbn [inline_step]. rewrite decide_False, code_at_other, delimited_at_other, Hat by done. by rewrite inline_prose_only.
Qed.

Lemma inline_runs nodes buffer :
  runs nodes → (buffer = EmptyString ∨ match nodes with n :: _ => is_prose_run n = false | [] => True end) →
  inline_from [] buffer (inlineToMarkdown nodes) = flush [] buffer ++ nodes.
Proof.
  revert buffer. induction nodes as [|n nodes IH]; intros buffer Hr Hb.
  { rewrite inline_from_eq. symmetry. apply app_nil_r. }
  destruct Hr as (Hn & Hsep & Hr). rewrite inlineToMarkdown_cons. destruct (is_prose_run n) eqn:Hp.
  - destruct Hb as [->|?]; [|done]. specialize (Hsep eq_refl).
    destruct Hn as [s Hs Ho|open type s Hd|s ? ?|href s]; [|done..].
    rewrite prose_markdown, inline_prose. change (EmptyString +:+ s) with s. rewrite IH by (done || by right). by rewrite flush_text.
  - rewrite inline_run by done. rewrite (IH EmptyString) by (done || by left). done.
Qed.

Lemma parseInline_runs nodes : runs nodes → parseInline (inlineToMarkdown nodes) [] = nodes.
Proof. intros Hr. apply (inline_runs nodes EmptyString Hr). by left. Qed.

(** ** Units of a line *)

Lemma one_line_app a b : one_line (a +:+ b) = one_line a && one_line b.
Proof. apply string_forall_app. Qed.

Lemma escape_one_line s : one_line s = true → one_line (escapeText s) = true.
Proof.
  unfold one_line. induction s as [|c s IH]; [done|]. cbn [string_forall escapeText]. intros [Hc Hs]%andb_true_iff.
  destruct (is_markup c); cbn [string_forall]; rewrite Hc, IH by done; done.
Qed.

Lemma ticks_one_line s : one_line s = true → one_line (escape_ticks s) = true.
Proof.
  unfold one_line. induction s as [|c s IH]; [done|]. cbn [string_forall escape_ticks]. intros [Hc Hs]%andb_true_iff.
  case_decide; cbn [string_forall]; rewrite Hc, IH by done; done.
Qed.

Lemma run_one_line n : run n → one_line (inlineNodeToMarkdown n) = true.
Proof.
  intros [s Hs Ho|open type s Hd Hs Ho|s Ho Hb|href s Hs Ho Hh Hsafe Ht Hc].
  - by apply escape_one_line.
  - rewrite (marked_markdown open), !one_line_app, escape_one_line by done.
    repeat (apply elem_of_cons in Hd as [[= -> _]|Hd]; [reflexivity|]). by apply elem_of_nil in Hd.
  - change (inlineNodeToMarkdown (text_node s [plain_mark "code"])) with (String backtick EmptyString +:+ escape_ticks s +:+ String backtick EmptyString).
    by rewrite !one_line_app, ticks_one_line.
  - by rewrite link_markdown, !one_line_app, escape_one_line, Hh by done.
Qed.

Lemma runs_one_line nodes : runs nodes → one_line (inlineToMarkdown nodes) = true.
Proof.
  induction nodes as [|n nodes IH]; [done|]. intros (Hn & _ & Hr). by rewrite inlineToMarkdown_cons, one_line_app, run_one_line, IH.
Qed.

Lemma one_line_no_newline s : one_line s = true → string_forall (fun c => negb (bool_decide (c = line_feed))) s = true.
Proof.
  unfold one_line. induction s as [|c s IH]; [done|]. cbn [string_forall]. intros [Hc Hs]%andb_true_iff.
  apply andb_true_iff in Hc as [-> _]. by apply IH.
Qed.

(** ** Lines *)

(** A line that is not taken for the start of something else: it begins with
    neither a space nor a marker somebody already escaped. *)
Definition line_start (line : string) : bool :=
  match line with
  | String c r => negb (is_space c) && negb (bool_decide (c = backslash) && marker_start r)
  | EmptyString => false
  end.

Lemma trim_nonempty c s : is_space c = false → truthy (trim (String c s)) = true.
Proof.
  intros Hc. unfold trim. assert (∃ t, trimEnd (String c s) = String c t) as [t ->].
  { simpl. destruct (trimEnd s); [rewrite Hc|]; eauto. }
  rewrite trimStart_id by done. done.
Qed.

Lemma not_blank c s : is_space c = false → blank (String c s) = false.
Proof. intros Hc. unfold blank. by rewrite trim_nonempty. Qed.

Lemma fence_of_other c s : c ≠ backtick → fence_of (String c s) = None.
Proof. intros Hc. unfold fence_of, fence_s. by rewrite startsWith_first. Qed.

Lemma heading_of_other c s : c ≠ "#"%char → heading_of (String c s) = None.
Proof. intros Hc. unfold heading_of. cbn [span_unit]. by rewrite decide_False. Qed.

Lemma quote_of_other c s : c ≠ ">"%char → quote_of (String c s) = None.
Proof. intros Hc. cbn [quote_of]. by rewrite decide_False. Qed.

Lemma item_of_other c s :
  is_space c = false → c ≠ "-"%char → c ≠ "*"%char → is_digit c = false → item_of (String c s) = None.
Proof.
  intros Hs H1 H2 Hd. unfold item_of. rewrite trimStart_id by done. unfold marker_of.
  rewrite decide_False by naive_solver. cbn [span_digits]. by rewrite Hd.
Qed.

(** A line that begins like a block is marked. *)
Lemma marker_fence line : fence_of line ≠ None → marker_start line = true.
Proof.
  unfold fence_of. destruct (startsWith line fence_s) eqn:E; [|done]. intros _.
  unfold marker_start. rewrite E. by rewrite !orb_true_r.
Qed.

Lemma marker_heading line : heading_of line ≠ None → marker_start line = true.
Proof.
  unfold heading_of, marker_start. destruct (span_unit _ line) as [n r]. destruct (_ && starts_space r) eqn:E; [|done]. intros _.
  apply andb_true_iff in E as [E ->]. apply andb_true_iff in E as [-> H%Nat.leb_le].
  replace (n <=? 6)%nat with true; [done|]. symmetry. apply Nat.leb_le. lia.
Qed.

Lemma marker_quote line : quote_of line ≠ None → marker_start line = true.
Proof.
  destruct line as [|c r]; [done|]. cbn [quote_of]. case_decide as Hc; [|done]. intros _. subst c.
  unfold marker_start. change (startsWith (String ">" r) ">") with (startsWith (String ">" EmptyString +:+ r) (String ">" EmptyString)).
  by rewrite startsWith_self, orb_true_r.
Qed.

Lemma marker_item c r : is_space c = false → item_of (String c r) ≠ None → marker_start (String c r) = true.
Proof.
  intros Hs. unfold item_of. rewrite trimStart_id by done. unfold marker_of, marker_start. case_decide as Hc.
  - cbn [mbind option_bind]. destruct (starts_space r) eqn:Er; [|done]. intros _.
    assert (startsWith (String c r) "-" || startsWith (String c r) "*" = true) as ->.
    { destruct Hc as [->| ->]; [change (startsWith (String "-" r) "-") with (startsWith (String "-" EmptyString +:+ r) (String "-" EmptyString))
        |change (startsWith (String "*" r) "*") with (startsWith (String "*" EmptyString +:+ r) (String "*" EmptyString))];
      rewrite startsWith_self; by rewrite ?orb_true_r. }
    change (sliceFrom 1 (String c r)) with r. by rewrite Er, !orb_true_r.
  - destruct (span_digits (String c r)) as [d r'']. destruct (truthy d && startsWith r'' ".") eqn:E; [|done].
    cbn [mbind option_bind]. destruct (starts_space (sliceFrom 1 r'')); [|done]. intros _. by rewrite !orb_true_r.
Qed.

Lemma escaped_line_prose line :
  line_start line = true → is_prose (escape_line line) = true ∧ unescape_line (escape_line line) = line.
Proof.
  destruct line as [|c r]; [done|]. cbn [line_start]. intros [Hs%negb_true_iff He%negb_true_iff]%andb_true_iff.
  unfold escape_line. destruct (marker_start (String c r)) eqn:Hm.
  - split; [|cbn [unescape_line]; by rewrite decide_True, Hm].
    unfold is_prose. by rewrite not_blank, fence_of_other, heading_of_other, quote_of_other, item_of_other by done.
  - split.
    + unfold is_prose. rewrite not_blank by done.
      assert (∀ A (o : option A), (o ≠ None → marker_start (String c r) = true) → bool_decide (is_Some o) = false) as Hno.
      { intros A [a|] Ho; [|done]. by rewrite Ho in Hm. }
      rewrite (Hno _ (fence_of _) (marker_fence _)), (Hno _ (heading_of _) (marker_heading _)), (Hno _ (quote_of _) (marker_quote _)).
      by rewrite (Hno _ (item_of _) (marker_item _ _ Hs)).
    + cbn [unescape_line]. case_decide as Hb; [|done]. subst c. rewrite bool_decide_eq_true_2 in He by done. cbn in He. by rewrite He.
Qed.

(** What follows a block: nothing, or a blank line and another block. *)
Definition block_end (rest : list string) : Prop :=
  match rest with
  | [] => True
  | line :: more => line = EmptyString ∧ match more with [] => True | next :: _ => starts_space next = false end
  end.

Lemma prose_lines mds rest :
  Forall (fun line => line_start line = true) mds → block_end rest → prose (map escape_line mds ++ rest) = (mds, rest).
Proof.
  intros Hall Hend. induction Hall as [|line mds Hl Hall IH].
  - destruct rest as [|line rest]; [done|]. by destruct Hend as [-> _].
  - destruct (escaped_line_prose line Hl) as [Hp Hu]. change (map escape_line (line :: mds) ++ rest) with (escape_line line :: (map escape_line mds ++ rest)).
    cbn [prose]. by rewrite Hp, IH, Hu.
Qed.

(** ** Blocks *)

(** The lines of a paragraph, with breaks between. *)
Definition broken (ls : list (list DocNode)) : list DocNode :=
  match ls with [] => [] | l :: rest => l ++ concat (map (cons hard_break) rest) end.

Definition line_ok (nodes : list DocNode) : Prop := runs nodes ∧ line_start (inlineToMarkdown nodes) = true.

Definition block_lines (b : DocNode) : list string := split line_feed (blockToMarkdown b).
Definition blocks_lines (bs : list DocNode) : list string := split line_feed (paragraphs (blocksToMarkdown bs)).

(** No two blank lines one after the other, and none at the end. *)
Fixpoint tight (lines : list string) : Prop :=
  match lines with
  | [] => True
  | line :: rest => (line = EmptyString → match rest with next :: _ => next ≠ EmptyString | [] => False end) ∧ tight rest
  end.

(** The blocks, lists of blocks and items that are written and read back. *)
Inductive block_ok : DocNode → Prop :=
  | paragraph_ok ls : ls ≠ [] → Forall line_ok ls → block_ok (paragraph_node (broken ls))
  | heading_ok level nodes : Z.of_nat level ∈ HEADING_LEVELS → line_ok nodes → block_ok (heading_node level nodes)
  | code_ok language body :
      string_forall is_word_unit language = true → string_forall (fun c => negb (bool_decide (c = unit_of 13))) body = true →
      Forall (fun line => fence_of line = None) (split line_feed body) →
      block_ok (code_node language (Some [text_node body []]))
  | quote_ok bs : blocks_ok bs → block_ok (block_node "blockquote" None (Some bs))
  | list_ok ordered items : items_ok items → block_ok (list_node ordered (map item_node items))
with blocks_ok : list DocNode → Prop :=
  | one_block b : block_ok b → blocks_ok [b]
  | more_blocks b bs : block_ok b → blocks_ok bs → blocks_ok (b :: bs)
with items_ok : list (list DocNode) → Prop :=
  | one_item bs : blocks_ok bs → tight (blocks_lines bs) → items_ok [bs]
  | more_items bs items : blocks_ok bs → tight (blocks_lines bs) → items_ok items → items_ok (bs :: items).

Scheme block_ok_mut := Minimality for block_ok Sort Prop
with blocks_ok_mut := Minimality for blocks_ok Sort Prop
with items_ok_mut := Minimality for items_ok Sort Prop.

Combined Scheme blocks_mut from block_ok_mut, blocks_ok_mut, items_ok_mut.

(** *** The lines that are written *)

Lemma split_app sep a b : split sep (a +:+ String sep b) = split sep a ++ split sep b.
Proof.
  induction a as [|c a IH]; [cbn; by rewrite decide_True|].
  change (split sep (String c (a +:+ String sep b)) = split sep (String c a) ++ split sep b). cbn [split]. rewrite IH.
  case_decide; [done|]. destruct (split sep a) as [|w ws] eqn:E; [by apply split_nonnil in E|done].
Qed.

Lemma split_join_all sep ws : ws ≠ [] → split sep (join (String sep EmptyString) ws) = concat (map (split sep) ws).
Proof.
  intros Hne. induction ws as [|w ws IH]; [done|]. destruct ws as [|w' ws]; [cbn [join map concat]; by rewrite app_nil_r|].
  rewrite join_cons by done. change (String sep EmptyString +:+ join (String sep EmptyString) (w' :: ws)) with (String sep (join (String sep EmptyString) (w' :: ws))).
  rewrite split_app, IH by done. done.
Qed.

Lemma join_split_unit sep s : join (String sep EmptyString) (split sep s) = s.
Proof.
  induction s as [|c s IH]; [done|]. cbn [split]. case_decide as Hc.
  - subst c. rewrite join_cons by apply split_nonnil. by rewrite IH.
  - destruct (split sep s) as [|w ws] eqn:E; [by apply split_nonnil in E|].
    destruct ws as [|w' ws]; [by rewrite <- IH|]. rewrite join_cons in IH |- * by done. by rewrite <- IH.
Qed.

Definition no_newline (s : string) : bool := string_forall (fun c => negb (bool_decide (c = line_feed))) s.

Lemma split_no_newline s : Forall (fun w => no_newline w = true) (split line_feed s).
Proof.
  induction s as [|c s IH]; [by repeat constructor|]. cbn [split]. case_decide as Hc; [by constructor|].
  destruct (split line_feed s) as [|w ws] eqn:E; [by apply split_nonnil in E|].
  inversion IH as [|? ? Hw Hws]; subst. constructor; [|done]. unfold no_newline in *. cbn [string_forall]. rewrite Hw.
  by rewrite bool_decide_eq_false_2.
Qed.

Lemma blocks_lines_one b : blocks_lines [b] = block_lines b.
Proof. reflexivity. Qed.

Lemma blocks_lines_cons b bs : bs ≠ [] → blocks_lines (b :: bs) = block_lines b ++ EmptyString :: blocks_lines bs.
Proof.
  intros Hne. unfold blocks_lines, paragraphs, blocksToMarkdown. cbn [map].
  rewrite join_cons by (by destruct bs). unfold line_feed_s.
  change ((String line_feed EmptyString +:+ String line_feed EmptyString) +:+ ?x) with (String line_feed (String line_feed x)).
  rewrite split_app. change (String line_feed ?x) with (EmptyString +:+ String line_feed x). rewrite split_app. done.
Qed.

Lemma over_broken ls : ls ≠ [] → inlineToMarkdown (broken ls) = join line_feed_s (map inlineToMarkdown ls).
Proof.
  assert (∀ a b, inlineToMarkdown (a ++ b) = inlineToMarkdown a +:+ inlineToMarkdown b) as Happ.
  { induction a as [|n a IH]; intros b; [done|]. change ((n :: a) ++ b) with (n :: (a ++ b)). by rewrite !inlineToMarkdown_cons, IH, app_assoc_s. }
  destruct ls as [|l ls]; [done|]. intros _. cbn [broken]. revert l. induction ls as [|l' ls IH]; intros l.
  - cbn [map concat]. by rewrite app_nil_r.
  - cbn [map concat] in *. rewrite Happ, join_cons by done.
    change ((hard_break :: l') ++ concat (map (cons hard_break) ls)) with (hard_break :: (l' ++ concat (map (cons hard_break) ls))).
    rewrite inlineToMarkdown_cons, IH. done.
Qed.

Lemma split_lines ls : ls ≠ [] → Forall (fun l => no_newline l = true) ls → split line_feed (join line_feed_s ls) = ls.
Proof. apply split_join. Qed.

Lemma line_ok_no_newline l : line_ok l → no_newline (inlineToMarkdown l) = true.
Proof. intros [Hr _]. by apply one_line_no_newline, runs_one_line. Qed.

Lemma escape_line_no_newline l : no_newline l = true → no_newline (escape_line l) = true.
Proof. intros Hl. unfold escape_line. by destruct (marker_start l). Qed.

Lemma lines_paragraph ls :
  ls ≠ [] → Forall line_ok ls → block_lines (paragraph_node (broken ls)) = map escape_line (map inlineToMarkdown ls).
Proof.
  intros Hne Hall. unfold block_lines.
  replace (blockToMarkdown (paragraph_node (broken ls))) with (escapeLineStarts (inlineToMarkdown (broken ls))) by (by destruct (broken ls)).
  unfold escapeLineStarts. rewrite over_broken by done.
  assert (Forall (fun l => no_newline l = true) (map inlineToMarkdown ls)) as Hn.
  { clear Hne. induction Hall as [|l ls Hl Hall IH]; constructor; [by apply line_ok_no_newline|done]. }
  rewrite (split_lines (map inlineToMarkdown ls)) by (done || by destruct ls).
  apply split_lines; [by destruct ls|]. clear Hall. induction Hn as [|l l' Hl Hn IH]; constructor; [by apply escape_line_no_newline|done].
Qed.

Lemma breaks_kept s : no_newline s = true → breaks_to_spaces s = s.
Proof.
  unfold no_newline. induction s as [|c s IH]; [done|]. cbn [string_forall breaks_to_spaces].
  rewrite andb_true_iff, negb_true_iff, bool_decide_eq_false. intros [Hc Hs]. by rewrite decide_False, IH.
Qed.

Lemma lines_heading level nodes :
  Z.of_nat level ∈ HEADING_LEVELS → line_ok nodes →
  block_lines (heading_node level nodes) = [repeatString level "#" +:+ " " +:+ inlineToMarkdown nodes].
Proof.
  intros Hl Hn. unfold block_lines. pose proof (line_ok_no_newline _ Hn) as Hno.
  assert (blockToMarkdown (heading_node level nodes) = repeatString level "#" +:+ " " +:+ inlineToMarkdown nodes) as ->.
  { transitivity (hashes (Some [("level"%string, JNumber (Z.of_nat level))]) +:+ " " +:+ breaks_to_spaces (inlineToMarkdown nodes)); [reflexivity|].
    rewrite breaks_kept by done. f_equal. clear Hn Hno.
    repeat (apply elem_of_cons in Hl as [Hl|Hl]; [replace level with (Z.to_nat (Z.of_nat level)) by lia; rewrite Hl; reflexivity|]). by apply elem_of_nil in Hl. }
  apply split_no_sep. change (no_newline (repeatString level "#" +:+ " " +:+ inlineToMarkdown nodes) = true).
  unfold no_newline in *. rewrite !string_forall_app, Hno, andb_true_r. clear. induction level as [|level IH]; [done|]. exact IH.
Qed.

Lemma lines_code language body :
  no_newline language = true →
  block_lines (code_node language (Some [text_node body []])) = (fence_s +:+ language) :: split line_feed body ++ [fence_s].
Proof.
  intros Hl. unfold block_lines.
  transitivity (split line_feed (fence_s +:+ language +:+ line_feed_s +:+ body +:+ line_feed_s +:+ fence_s)); [reflexivity|].
  rewrite <- app_assoc_s. change (line_feed_s +:+ body +:+ line_feed_s +:+ fence_s) with (String line_feed (body +:+ String line_feed fence_s)).
  rewrite split_app_sep, split_app; [done|]. change (no_newline (fence_s +:+ language) = true). exact Hl.
Qed.

Lemma lines_quote bs : block_lines (block_node "blockquote" None (Some bs)) = map quote_line (blocks_lines bs).
Proof.
  unfold block_lines. transitivity (split line_feed (join line_feed_s (map quote_line (blocks_lines bs)))); [reflexivity|].
  pose proof (split_no_newline (paragraphs (blocksToMarkdown bs))) as Hn. fold (blocks_lines bs) in Hn.
  assert (blocks_lines bs ≠ []) as Hne by apply split_nonnil.
  apply split_lines; [by destruct (blocks_lines bs)|]. clear Hne. induction Hn as [|l ls Hl Hn IH]; constructor; [|done].
  unfold quote_line. by destruct (truthy l).
Qed.

(** The marker of an item, and its lines. *)
Definition marker (ordered : bool) (i : nat) : string := if ordered then stringOfInt (Z.of_nat i + 1) +:+ ". " else "- "%string.
Definition padded (width : nat) (line : string) : string := if truthy line then repeatString width " " +:+ line else EmptyString.
Definition item_lines (ordered : bool) (i : nat) (inner : list string) : list string :=
  match inner with [] => [] | l :: ls => (marker ordered i +:+ l) :: map (padded (String.length (marker ordered i))) ls end.

Lemma no_newline_app a b : no_newline (a +:+ b) = no_newline a && no_newline b.
Proof. apply string_forall_app. Qed.

Lemma stringOfInt_index i : stringOfInt (Z.of_nat i + 1) = digits (Z.of_nat i + 1).
Proof. unfold stringOfInt. destruct (Z.of_nat i + 1 <? 0) eqn:E; [apply Z.ltb_lt in E; lia|done]. Qed.

Lemma digits_no_newline n : 0 <= n → no_newline (digits n) = true.
Proof.
  intros Hn. pose proof (digits_all n Hn) as Hd. unfold no_newline. induction (digits n) as [|c s IH]; [done|].
  cbn [string_forall] in *. apply andb_true_iff in Hd as [Hc Hs]. rewrite IH, andb_true_r by done.
  destruct (bool_decide (c = line_feed)) eqn:E; [|done]. apply bool_decide_eq_true in E as ->. done.
Qed.

Lemma marker_no_newline ordered i : no_newline (marker ordered i) = true.
Proof. destruct ordered; [|done]. unfold marker. rewrite no_newline_app, stringOfInt_index, digits_no_newline by lia. done. Qed.

Lemma padded_no_newline width l : no_newline l = true → no_newline (padded width l) = true.
Proof.
  intros Hl. unfold padded. destruct (truthy l); [|done]. rewrite no_newline_app, Hl, andb_true_r.
  induction width as [|width IH]; [done|]. exact IH.
Qed.

Lemma item_text_lines ordered i inner :
  inner ≠ [] → Forall (fun l => no_newline l = true) inner → split line_feed (item_text ordered i inner) = item_lines ordered i inner.
Proof.
  intros Hne Hn. destruct inner as [|l ls]; [done|]. inversion Hn as [|? ? Hl Hls]; subst.
  assert (item_text ordered i (l :: ls) = join line_feed_s (item_lines ordered i (l :: ls))) as ->.
  { unfold item_text, item_lines. f_equal. cbn [imap]. change ((0 =? 0)%nat) with true. cbv iota. fold (marker ordered i). f_equal.
    transitivity (imap (fun _ line => padded (String.length (marker ordered i)) line) ls); [reflexivity|]. by rewrite imap_ignore. }
  apply split_lines; [done|]. constructor; [by rewrite no_newline_app, marker_no_newline, Hl|].
  clear -Hls. induction Hls as [|x xs Hx Hxs IH]; constructor; [by apply padded_no_newline|done].
Qed.

Lemma lines_list ordered items :
  items ≠ [] → Forall (fun bs => bs ≠ []) items →
  block_lines (list_node ordered (map item_node items)) = concat (imap (item_lines ordered) (map blocks_lines items)).
Proof.
  intros Hne Hall. unfold block_lines.
  assert (blockToMarkdown (list_node ordered (map item_node items)) = join line_feed_s (imap (item_text ordered) (map blocks_lines items))) as ->.
  { transitivity (join line_feed_s (imap (item_text ordered) (map (fun item => match item with mkDocNode _ _ _ _ c => split line_feed (paragraphs (over blockToMarkdown c)) end) (map item_node items)))).
    { by destruct ordered. }
    f_equal. f_equal. clear Hne. induction Hall as [|bs items Hbs Hall IH]; [done|]. cbn [map]. rewrite IH. by destruct bs. }
  unfold line_feed_s. rewrite split_join_all.
  - f_equal. change (map (split line_feed)) with (fmap (M := list) (split line_feed)). rewrite fmap_imap. apply imap_ext.
    intros i inner Hi. apply item_text_lines.
    + apply list_elem_of_lookup_2, list_elem_of_fmap in Hi as (bs & -> & _). apply split_nonnil.
    + apply list_elem_of_lookup_2, list_elem_of_fmap in Hi as (bs & -> & _). apply split_no_newline.
  - by destruct items.
Qed.

(** *** How they begin *)

(** A line another block can follow: something is on it, and no space first. *)
Definition begins (lines : list string) : Prop :=
  match lines with String c _ :: _ => is_space c = false | _ => False end.

Lemma digits_first n : 0 <= n → ∃ c s, digits n = String c s ∧ is_digit c = true.
Proof.
  intros Hn. pose proof (digits_nonempty n Hn) as Hne. pose proof (digits_all n Hn) as Hd.
  destruct (digits n) as [|c s]; [done|]. cbn [string_forall] in Hd. apply andb_true_iff in Hd as [Hc _]. by eexists _, _.
Qed.

Lemma marker_first ordered i :
  ∃ c s, marker ordered i = String c s ∧ is_space c = false ∧ (c = "-"%char ∨ is_digit c = true).
Proof.
  destruct ordered; [|eexists _, _; split_and!; [reflexivity|reflexivity|by left]].
  destruct (digits_first (Z.of_nat i + 1)) as (c & s & E & Hd); [lia|].
  eexists c, _. unfold marker. rewrite stringOfInt_index, E. split_and!; [reflexivity|by apply digit_not_space|by right].
Qed.

Lemma begins_app a b : begins a → begins (a ++ b).
Proof. by destruct a as [|[|c s] a]. Qed.

Lemma blocks_begin :
  (∀ b, block_ok b → begins (block_lines b)) ∧ (∀ bs, blocks_ok bs → begins (blocks_lines bs)) ∧
  (∀ items, items_ok items → items ≠ [] ∧ Forall (fun bs => bs ≠ [] ∧ begins (blocks_lines bs)) items).
Proof.
  apply blocks_mut.
  - intros ls Hne Hall. rewrite lines_paragraph by done. destruct Hall as [|l ls [_ Hl] _]; [done|]. cbn [map begins].
    destruct (inlineToMarkdown l) as [|c r]; [done|]. unfold escape_line. destruct (marker_start (String c r)); [done|].
    cbn [line_start] in Hl. by apply andb_true_iff in Hl as [Hl%negb_true_iff _].
  - intros level nodes Hl Hn. rewrite lines_heading by done.
    repeat (apply elem_of_cons in Hl as [Hl|Hl]; [replace level with (Z.to_nat (Z.of_nat level)) by lia; by rewrite Hl|]). by apply elem_of_nil in Hl.
  - intros language body Hl _ _. rewrite lines_code; [done|]. unfold no_newline. revert Hl.
    induction language as [|c s IH]; [done|]. cbn [string_forall]. intros [Hc Hs]%andb_true_iff. rewrite IH, andb_true_r by done.
    destruct (bool_decide (c = line_feed)) eqn:E; [|done]. by apply bool_decide_eq_true in E as ->.
  - intros bs _ Hb. rewrite lines_quote. destruct (blocks_lines bs) as [|[|c s] ls]; done.
  - intros ordered items _ [Hne Hall]. rewrite lines_list; [|done|by eapply Forall_impl; [|exact Hall]; intros ? []].
    destruct Hall as [|bs items [_ Hb] _]; [done|]. cbn [map imap concat].
    destruct (blocks_lines bs) as [|l ls]; [done|]. cbn [item_lines]. apply begins_app.
    destruct (marker_first ordered 0) as (c & s & -> & Hs & _). exact Hs.
  - intros b _ Hb. exact Hb.
  - intros b bs _ Hb _ Hbs. destruct bs as [|b' bs]; [exact Hb|]. rewrite blocks_lines_cons by done. by apply begins_app.
  - intros bs Hok Hb _. split; [done|]. constructor; [|constructor]. split; [by destruct Hok|done].
  - intros bs items Hok Hb _ _ [_ Hall]. split; [done|]. constructor; [|done]. split; [by destruct Hok|done].
Qed.

(** *** How they are read *)

Lemma parse_blank rest : parseBlocks (EmptyString :: rest) = parseBlocks rest.
Proof. rewrite parseBlocks_eq. reflexivity. Qed.

Lemma is_prose_inv line :
  is_prose line = true → blank line = false ∧ fence_of line = None ∧ heading_of line = None ∧ quote_of line = None ∧ item_of line = None.
Proof.
  unfold is_prose. rewrite !andb_true_iff, !negb_true_iff, !bool_decide_eq_false, <- !eq_None_not_Some. naive_solver.
Qed.

Lemma parse_prose mds rest :
  mds ≠ [] → Forall (fun line => line_start line = true) mds → block_end rest →
  parseBlocks (map escape_line mds ++ rest) = paragraph_node (para_content mds) :: parseBlocks rest.
Proof.
  intros Hne Hall Hend. pose proof (prose_lines mds rest Hall Hend) as Hp. destruct Hall as [|line mds Hl Hall]; [done|].
  rewrite parseBlocks_eq. change (map escape_line (line :: mds) ++ rest) with (escape_line line :: (map escape_line mds ++ rest)) in *.
  destruct (escaped_line_prose line Hl) as [(Hb & Hf & Hh & Hq & Hi)%is_prose_inv _].
  cbn [blocks_step]. by rewrite Hb, Hf, Hh, Hq, Hi, Hp.
Qed.

Lemma para_content_broken ls : Forall line_ok ls → para_content (map inlineToMarkdown ls) = broken ls.
Proof.
  intros Hall. destruct Hall as [|l ls [Hl _] Hall]; [done|]. unfold para_content, broken. cbn [map imap concat].
  change ((0 <? 0)%nat) with false. cbv iota. rewrite parseInline_runs by done. change ([] ++ l) with l. f_equal. f_equal.
  transitivity (imap (fun _ t => hard_break :: parseInline t []) (map inlineToMarkdown ls)); [reflexivity|]. rewrite imap_ignore.
  induction Hall as [|l' ls' [Hl' _] Hall' IH]; [done|]. csimpl. by rewrite parseInline_runs, IH.
Qed.

Lemma span_unit_repeat u n s : starts_space s = true → is_space u = false → span_unit u (repeatString n (String u EmptyString) +:+ s) = (n, s).
Proof.
  intros Hs Hu. induction n as [|n IH].
  - destruct s as [|c s]; [done|]. change (span_unit u (String c s) = (O, String c s)). cbn [span_unit]. rewrite decide_False; [done|]. intros ->. cbn in Hs. congruence.
  - change (span_unit u (String u (repeatString n (String u EmptyString) +:+ s)) = (S n, s)). cbn [span_unit]. by rewrite decide_True, IH.
Qed.

Lemma parse_heading level nodes rest :
  Z.of_nat level ∈ HEADING_LEVELS → line_ok nodes →
  parseBlocks ((repeatString level "#" +:+ " " +:+ inlineToMarkdown nodes) :: rest) = heading_node level nodes :: parseBlocks rest.
Proof.
  intros Hl [Hr Hs]. rewrite parseBlocks_eq.
  assert (heading_of (repeatString level "#" +:+ " " +:+ inlineToMarkdown nodes) = Some (level, inlineToMarkdown nodes)) as Hh.
  { unfold heading_of. rewrite span_unit_repeat by done.
    replace ((1 <=? level)%nat && (level <=? 3)%nat) with true.
    - cbn [andb]. change (starts_space (" " +:+ inlineToMarkdown nodes)) with true. cbv iota. do 2 f_equal.
      change (trimStart (" " +:+ inlineToMarkdown nodes)) with (trimStart (inlineToMarkdown nodes)).
      destruct (inlineToMarkdown nodes) as [|c r]; [done|]. cbn [line_start] in Hs. apply trimStart_id. by apply andb_true_iff in Hs as [Hs%negb_true_iff _].
    - symmetry. rewrite andb_true_iff, !Nat.leb_le. clear -Hl.
      repeat (apply elem_of_cons in Hl as [Hl|Hl]; [lia|]). by apply elem_of_nil in Hl. }
  assert (∃ t, repeatString level "#" +:+ " " +:+ inlineToMarkdown nodes = String "#" t) as [t Ht].
  { destruct level as [|level]; [|by eexists]. exfalso. clear -Hl.
    repeat (apply elem_of_cons in Hl as [Hl|Hl]; [done|]). by apply elem_of_nil in Hl. }
  rewrite Ht in *. cbn [blocks_step]. rewrite not_blank, fence_of_other, Hh by done. by rewrite parseInline_runs.
Qed.

Lemma span_word_all s : string_forall is_word_unit s = true → span_word s = (s, EmptyString).
Proof. induction s as [|c s IH]; [done|]. cbn [string_forall span_word]. intros [-> Hs]%andb_true_iff. by rewrite IH. Qed.

Lemma until_fence_app ls more :
  Forall (fun line => fence_of line = None) ls → until_fence (ls ++ fence_s :: more) = (ls, fence_s :: more).
Proof.
  induction 1 as [|l ls Hl Hall IH]; [reflexivity|]. change ((l :: ls) ++ fence_s :: more) with (l :: (ls ++ fence_s :: more)).
  cbn [until_fence]. by rewrite Hl, IH.
Qed.

Lemma parse_code language body rest :
  string_forall is_word_unit language = true → Forall (fun line => fence_of line = None) (split line_feed body) →
  parseBlocks (((fence_s +:+ language) :: split line_feed body ++ [fence_s]) ++ rest) = code_node language (Some [text_node body []]) :: parseBlocks rest.
Proof.
  intros Hl Hall. rewrite parseBlocks_eq.
  change (((fence_s +:+ language) :: split line_feed body ++ [fence_s]) ++ rest) with ((fence_s +:+ language) :: ((split line_feed body ++ [fence_s]) ++ rest)).
  rewrite <- app_assoc. cbn [app].
  assert (fence_of (fence_s +:+ language) = Some language) as Hf.
  { unfold fence_of. rewrite startsWith_self. change (sliceFrom 3 (fence_s +:+ language)) with language. by rewrite span_word_all. }
  assert (blank (fence_s +:+ language) = false) as Hb by (by apply not_blank).
  cbn [blocks_step]. rewrite Hb, Hf, until_fence_app by done. cbn [drop].
  destruct (split line_feed body) as [|w ws] eqn:E; [by apply split_nonnil in E|]. rewrite <- E.
  unfold line_feed_s. by rewrite join_split_unit.
Qed.

Lemma quote_of_line l : quote_of (quote_line l) = Some l.
Proof. destruct l as [|c l]; [done|]. reflexivity. Qed.

Lemma quoted_lines ls rest : block_end rest → quoted (map quote_line ls ++ rest) = (ls, rest).
Proof.
  intros Hend. induction ls as [|l ls IH].
  - destruct rest as [|line rest]; [done|]. by destruct Hend as [-> _].
  - change (map quote_line (l :: ls) ++ rest) with (quote_line l :: (map quote_line ls ++ rest)). cbn [quoted]. by rewrite quote_of_line, IH.
Qed.

Lemma parse_quote ls rest :
  ls ≠ [] → block_end rest →
  parseBlocks (map quote_line ls ++ rest) = block_node "blockquote" None (Some (parseBlocks ls)) :: parseBlocks rest.
Proof.
  intros Hne Hend. rewrite parseBlocks_eq. pose proof (quoted_lines ls rest Hend) as Hq. destruct ls as [|l ls]; [done|].
  change (map quote_line (l :: ls) ++ rest) with (quote_line l :: (map quote_line ls ++ rest)) in *. cbn [blocks_step].
  assert (∃ t, quote_line l = String ">" t) as [t Ht] by (unfold quote_line; destruct (truthy l); by eexists).
  pose proof (quote_of_line l) as Hl. rewrite Ht in *. by rewrite not_blank, fence_of_other, heading_of_other, Hl, Hq by done.
Qed.

(** *** Lists *)

Lemma span_digits_dot d r : string_forall is_digit d = true → span_digits (d +:+ String "." r) = (d, String "." r).
Proof.
  induction d as [|c d IH]; [done|]. cbn [string_forall]. intros [Hc Hd]%andb_true_iff.
  change (span_digits (String c (d +:+ String "." r)) = (String c d, String "." r)). cbn [span_digits]. by rewrite Hc, IH.
Qed.

Lemma marker_of_digits d c s r :
  d = String c s → string_forall is_digit d = true → c ≠ "-"%char → c ≠ "*"%char →
  marker_of (d +:+ String "." r) = Some (S (String.length d), true, r).
Proof.
  intros E Hd H1 H2. pose proof (span_digits_dot d r Hd) as Hs. rewrite E in Hs |- *.
  change (String c s +:+ String "." r) with (String c (s +:+ String "." r)) in *. unfold marker_of.
  rewrite decide_False by naive_solver. rewrite Hs. destruct r; reflexivity.
Qed.

Lemma item_of_marker ordered i c s :
  is_space c = false →
  item_of (marker ordered i +:+ String c s) = Some (mkItem 0 (String.length (marker ordered i) - 1) ordered (String c s)).
Proof.
  intros Hc. destruct (marker_first ordered i) as (m & t & Hm & Hs & _).
  unfold item_of. rewrite Hm. change (String m t +:+ String c s) with (String m (t +:+ String c s)). rewrite trimStart_id by done.
  rewrite Nat.sub_diag. change (String m (t +:+ String c s)) with (String m t +:+ String c s). rewrite <- Hm.
  assert (marker_of (marker ordered i +:+ String c s) = Some ((String.length (marker ordered i) - 1)%nat, ordered, String " " (String c s))) as ->.
  { destruct ordered; [|reflexivity]. unfold marker. rewrite stringOfInt_index.
    assert (0 <= Z.of_nat i + 1) as Hi by lia. pose proof (digits_all _ Hi) as Hd.
    destruct (digits_first _ Hi) as (c' & s' & E & Hc').
    rewrite app_assoc_s. change (". " +:+ String c s) with (String "." (String " " (String c s))).
    assert (c' ≠ "-"%char ∧ c' ≠ "*"%char) as [H1 H2] by (split; intros ->; done).
    rewrite (marker_of_digits _ c' s') by done. rewrite length_app_s. simpl. do 3 f_equal. lia. }
  cbn [mbind option_bind]. change (starts_space (String " " (String c s))) with true. cbv iota.
  change (trimStart (String " " (String c s))) with (trimStart (String c s)). by rewrite trimStart_id.
Qed.

(** What may follow the lines of an item. *)
Definition item_end (rest : list string) : Prop :=
  match rest with
  | String c _ :: _ => is_space c = false
  | rest => block_end rest
  end.

Lemma pad_not_begun width line : (0 < width)%nat → starts_space line = false → startsWith line (repeatString width " ") = false.
Proof.
  intros Hw Hs. destruct width as [|width]; [lia|]. change (repeatString (S width) " ") with (String " " (repeatString width " ")).
  destruct line as [|c s]; [done|]. apply startsWith_first. intros ->. done.
Qed.

Lemma item_body_padded width ls rest :
  (0 < width)%nat → tight ls → item_end rest → item_body width (map (padded width) ls ++ rest) = (ls, rest).
Proof.
  intros Hw Ht Hend. induction ls as [|l ls IH].
  - change (item_body width rest = ([], rest)). destruct rest as [|[|c s] more]; [done| |].
    + destruct Hend as [_ Hm]. cbn [item_body]. rewrite (pad_not_begun width EmptyString) by done.
      destruct more as [|next more]; [done|]. by rewrite (pad_not_begun width next).
    + assert (starts_space (String c s) = false) as Hs by done. cbn [item_body]. rewrite pad_not_begun by done.
      unfold blank. by rewrite trim_nonempty.
  - destruct Ht as [Hl Ht]. change (map (padded width) (l :: ls) ++ rest) with (padded width l :: (map (padded width) ls ++ rest)).
    cbn [item_body]. rewrite IH by done. destruct l as [|c s].
    + specialize (Hl eq_refl). destruct ls as [|next ls]; [done|].
      change (padded width EmptyString) with EmptyString. rewrite (pad_not_begun width EmptyString) by done. cbn [orb].
      change (blank EmptyString) with true. cbn [andb]. change (map (padded width) (next :: ls) ++ rest) with (padded width next :: (map (padded width) ls ++ rest)).
      cbv iota. replace (padded width next) with (repeatString width " " +:+ next) by (by destruct next). rewrite startsWith_self.
      by destruct width.
    + change (padded width (String c s)) with (repeatString width " " +:+ String c s). rewrite startsWith_self. cbn [orb].
      assert (String.length (repeatString width " ") = width) as Hlen by (clear; induction width as [|w IH]; [done|cbn; by f_equal]).
      rewrite <- Hlen at 1. by rewrite sliceFrom_length.
Qed.

Lemma tight_tail l ls : tight (l :: ls) → tight ls.
Proof. by intros [_ H]. Qed.

Lemma marker_width ordered i : (0 < String.length (marker ordered i) - 1)%nat.
Proof.
  destruct ordered; [|simpl; lia]. unfold marker. rewrite stringOfInt_index, length_app_s.
  destruct (digits_first (Z.of_nat i + 1)) as (c & s & -> & _); [lia|]. simpl. lia.
Qed.

Definition inner_ok (inner : list string) : Prop := begins inner ∧ tight inner.

Lemma items_follow ordered i inners rest :
  Forall inner_ok inners → block_end rest → item_end (concat (imap (fun k => item_lines ordered (i + k)) inners) ++ rest).
Proof.
  intros Hall Hend. destruct Hall as [|inner inners [Hb _] _]; [by destruct rest as [|[|c s] more]; [|exact Hend|destruct Hend]|].
  cbn [imap concat]. destruct inner as [|l ls]; [done|]. cbn [item_lines].
  destruct (marker_first ordered (i + 0)) as (c & s & -> & Hs & _). exact Hs.
Qed.

Lemma list_items_written ordered fuel i inners rest :
  (length inners <= fuel)%nat → Forall inner_ok inners → block_end rest →
  list_items fuel 0 ordered (concat (imap (fun k => item_lines ordered (i + k)) inners) ++ rest) = (inners, rest).
Proof.
  intros Hf Hall Hend. revert fuel i Hf. induction Hall as [|inner inners [Hb Ht] Hall IH]; intros fuel i Hf.
  - change (list_items fuel 0 ordered rest = ([], rest)). destruct fuel as [|fuel]; [done|]. destruct rest as [|line rest]; [done|].
    by destruct Hend as [-> _].
  - destruct fuel as [|fuel]; [simpl in Hf; lia|]. destruct inner as [|[|c s] ls]; [done..|].
    cbn [imap concat]. rewrite Nat.add_0_r. cbn [item_lines].
    change (((marker ordered i +:+ String c s) :: ?x) ++ ?y) with ((marker ordered i +:+ String c s) :: (x ++ y)).
    cbn [app list_items]. rewrite item_of_marker by done. cbn [item_indent item_ordered item_marker item_rest]. rewrite eqb_reflx. cbn [Nat.eqb andb].
    replace (0 + (String.length (marker ordered i) - 1) + 1)%nat with (String.length (marker ordered i)) by (pose proof (marker_width ordered i); lia).
    replace (imap ((fun k => item_lines ordered (i + k)) ∘ S) inners) with (imap (fun k => item_lines ordered (S i + k)) inners).
    2:{ apply imap_ext. intros k x _. cbn. by rewrite Nat.add_succ_r. }
    rewrite <- app_assoc. rewrite item_body_padded.
    + rewrite IH by (simpl in Hf; lia). done.
    + pose proof (marker_width ordered i). lia.
    + by apply tight_tail in Ht.
    + by apply items_follow.
Qed.

Lemma parse_list ordered inners rest :
  inners ≠ [] → Forall inner_ok inners → block_end rest →
  parseBlocks (concat (imap (item_lines ordered) inners) ++ rest) =
    list_node ordered (map (fun body => item_node (parseBlocks body)) inners) :: parseBlocks rest.
Proof.
  intros Hne Hall Hend. rewrite parseBlocks_eq.
  assert (length inners <= length (concat (imap (item_lines ordered) inners) ++ rest))%nat as Hlen.
  { rewrite length_app. enough (∀ i, length inners <= length (concat (imap (fun k => item_lines ordered (i + k)) inners)))%nat as Hi by (specialize (Hi 0%nat); change (fun k => item_lines ordered (0 + k)) with (item_lines ordered) in Hi; lia).
    clear Hne. induction Hall as [|inner inners [Hb _] _ IH]; intros i; [done|]. cbn [imap concat]. rewrite length_app.
    replace (imap ((fun k => item_lines ordered (i + k)) ∘ S) inners) with (imap (fun k => item_lines ordered (S i + k)) inners)
      by (apply imap_ext; intros k x _; cbn; by rewrite Nat.add_succ_r).
    specialize (IH (S i)). destruct inner as [|l ls]; [done|]. simpl in *. lia. }
  pose proof (list_items_written ordered _ 0 inners rest Hlen Hall Hend) as Hw.
  change (imap (fun k => item_lines ordered (0 + k)) inners) with (imap (item_lines ordered) inners) in Hw.
  destruct Hall as [|inner inners [Hb _] Hall]; [done|]. destruct inner as [|[|c s] ls]; [done..|].
  destruct (concat (imap (item_lines ordered) ((String c s :: ls) :: inners)) ++ rest) as [|line lines] eqn:E.
  { cbn in E. done. }
  assert (line = marker ordered 0 +:+ String c s) as -> by (cbn [imap concat item_lines app] in E; by injection E as <- _).
  cbn [blocks_step]. pose proof (item_of_marker ordered 0 c s Hb) as Hi.
  destruct (marker_first ordered 0) as (m & t & Hm & Hs & Hk).
  assert (m ≠ backtick ∧ m ≠ "#"%char ∧ m ≠ ">"%char) as (H1 & H2 & H3) by (destruct Hk as [->|Hk]; [done|split_and!; intros ->; done]).
  assert (marker ordered 0 +:+ String c s = String m (t +:+ String c s)) as Hline by (by rewrite Hm).
  rewrite Hline in *. rewrite not_blank, fence_of_other, heading_of_other, quote_of_other, Hi by done.
  cbn [item_indent item_ordered]. by rewrite Hw.
Qed.

(** *** The round trip *)

Lemma block_end_nil : block_end [].
Proof. exact I. Qed.

Lemma parseBlocks_nil : parseBlocks [] = [].
Proof. reflexivity. Qed.

Lemma written_read_back :
  (∀ b, block_ok b → ∀ rest, block_end rest → parseBlocks (block_lines b ++ rest) = b :: parseBlocks rest) ∧
  (∀ bs, blocks_ok bs → ∀ rest, block_end rest → parseBlocks (blocks_lines bs ++ rest) = bs ++ parseBlocks rest) ∧
  (∀ items, items_ok items → map (fun body => item_node (parseBlocks body)) (map blocks_lines items) = map item_node items).
Proof.
  apply blocks_mut.
  - intros ls Hne Hall rest Hend. rewrite lines_paragraph, parse_prose; [by rewrite para_content_broken|by destruct ls| |done..].
    clear Hne Hend. induction Hall as [|l ls [_ Hl] Hall IH]; by constructor.
  - intros level nodes Hl Hn rest Hend. rewrite lines_heading by done. by apply parse_heading.
  - intros language body Hl _ Hall rest Hend. rewrite lines_code; [by apply parse_code|].
    unfold no_newline. revert Hl. clear. induction language as [|c s IH]; [done|]. cbn [string_forall]. intros [Hc Hs]%andb_true_iff.
    rewrite IH, andb_true_r by done. destruct (bool_decide (c = line_feed)) eqn:E; [|done]. by apply bool_decide_eq_true in E as ->.
  - intros bs Hok IH rest Hend. rewrite lines_quote, parse_quote; [|apply split_nonnil|done].
    do 3 f_equal. rewrite <- (app_nil_r (blocks_lines bs)), IH, parseBlocks_nil by done. by rewrite app_nil_r.
  - intros ordered items Hok IH rest Hend. destruct (proj2 (proj2 blocks_begin) items Hok) as [Hne Hall].
    rewrite lines_list; [|done|by eapply Forall_impl; [|exact Hall]; intros ? []].
    rewrite parse_list; [by rewrite IH|by destruct items| |done].
    clear -Hok. induction Hok as [bs Hok Ht|bs items Hok Ht Hoks IH]; (constructor; [|constructor || exact IH]); split; [by apply blocks_begin|done|by apply blocks_begin|done].
  - intros b Hb IH rest Hend. rewrite blocks_lines_one. by apply IH.
  - intros b bs Hb IH Hbs IHs rest Hend. rewrite blocks_lines_cons by (by destruct Hbs). rewrite <- app_assoc.
    change ((EmptyString :: blocks_lines bs) ++ rest) with (EmptyString :: (blocks_lines bs ++ rest)).
    rewrite IH, parse_blank, IHs; [done|done|]. split; [done|].
    pose proof (proj1 (proj2 blocks_begin) bs Hbs) as Hg. destruct (blocks_lines bs) as [|[|c s] l]; [done..|exact Hg].
  - intros bs Hok IH _. cbn [map]. rewrite <- (app_nil_r (blocks_lines bs)), IH, parseBlocks_nil by done. by rewrite app_nil_r.
  - intros bs items Hok IH _ _ IHs. cbn [map]. rewrite IHs. rewrite <- (app_nil_r (blocks_lines bs)), IH, parseBlocks_nil by done. by rewrite app_nil_r.
Qed.

Definition no_return (s : string) : bool := string_forall (fun c => negb (bool_decide (c = unit_of 13))) s.

Lemma no_return_app a b : no_return (a +:+ b) = no_return a && no_return b.
Proof. apply string_forall_app. Qed.

Lemma one_newline_id s : no_return s = true → one_newline s = s.
Proof.
  unfold no_return. induction s as [|c s IH]; [done|]. cbn [string_forall one_newline].
  rewrite andb_true_iff, negb_true_iff, bool_decide_eq_false. intros [Hc Hs]. by rewrite decide_False, IH.
Qed.

Lemma split_no_return s : no_return s = true → Forall (fun l => no_return l = true) (split line_feed s).
Proof.
  unfold no_return. induction s as [|c s IH]; [by repeat constructor|]. cbn [string_forall split]. intros [Hc Hs]%andb_true_iff.
  specialize (IH Hs). destruct (decide (c = line_feed)); [by constructor|]. destruct (split line_feed s) as [|w ws] eqn:E; [by apply split_nonnil in E|].
  inversion IH; subst. constructor; [|done]. cbn [string_forall]. by rewrite Hc.
Qed.

Lemma join_no_return ls : Forall (fun l => no_return l = true) ls → no_return (join line_feed_s ls) = true.
Proof.
  induction 1 as [|l ls Hl Hall IH]; [done|]. destruct ls as [|l' ls]; [done|].
  rewrite join_cons by done. by rewrite !no_return_app, Hl, IH.
Qed.

Lemma one_line_no_return s : one_line s = true → no_return s = true.
Proof.
  unfold one_line, no_return. induction s as [|c s IH]; [done|]. cbn [string_forall]. intros [Hc Hs]%andb_true_iff.
  apply andb_true_iff in Hc as [_ ->]. by apply IH.
Qed.

Lemma marker_no_return ordered i : no_return (marker ordered i) = true.
Proof.
  destruct ordered; [|done]. unfold marker. rewrite no_return_app, stringOfInt_index.
  assert (0 <= Z.of_nat i + 1) as Hi by lia. pose proof (digits_all _ Hi) as Hd. revert Hd. generalize (digits (Z.of_nat i + 1)).
  intros s Hd. rewrite andb_true_r. unfold no_return. induction s as [|c s IH]; [done|]. cbn [string_forall] in *. apply andb_true_iff in Hd as [Hc Hs].
  rewrite IH, andb_true_r by done. destruct (bool_decide (c = unit_of 13)) eqn:E; [|done]. by apply bool_decide_eq_true in E as ->.
Qed.

Lemma item_lines_no_return ordered i inner :
  Forall (fun l => no_return l = true) inner → Forall (fun l => no_return l = true) (item_lines ordered i inner).
Proof.
  intros [|l ls Hl Hls]; [constructor|]. constructor; [by rewrite no_return_app, marker_no_return, Hl|].
  generalize (String.length (marker ordered i)). intros width. induction Hls as [|x xs Hx Hxs IH]; constructor; [|done].
  unfold padded. destruct (truthy x); [|done]. rewrite no_return_app, Hx, andb_true_r. clear. induction width as [|w IH]; [done|exact IH].
Qed.

Lemma written_no_return :
  (∀ b, block_ok b → Forall (fun l => no_return l = true) (block_lines b)) ∧
  (∀ bs, blocks_ok bs → Forall (fun l => no_return l = true) (blocks_lines bs)) ∧
  (∀ items, items_ok items → Forall (fun bs => Forall (fun l => no_return l = true) (blocks_lines bs)) items).
Proof.
  apply blocks_mut.
  - intros ls Hne Hall. rewrite lines_paragraph by done. clear Hne. induction Hall as [|l ls [Hl _] Hall IH]; constructor; [|done].
    apply runs_one_line, one_line_no_return in Hl. unfold escape_line. destruct (marker_start _); exact Hl.
  - intros level nodes Hl [Hn Hs]. rewrite lines_heading by done. constructor; [|constructor].
    apply runs_one_line, one_line_no_return in Hn. rewrite !no_return_app, Hn, andb_true_r. clear. induction level as [|level IH]; [done|exact IH].
  - intros language body Hl Hb _.
    assert (∀ u, is_word_unit u = false → string_forall (fun c => negb (bool_decide (c = u))) language = true) as Hlang.
    { intros u Hu. induction language as [|c s IH]; [done|]. cbn [string_forall] in *. apply andb_true_iff in Hl as [Hc Hs].
      rewrite IH, andb_true_r by done. rewrite negb_true_iff, bool_decide_eq_false. congruence. }
    rewrite lines_code by (by apply Hlang). constructor; [exact (Hlang (unit_of 13) eq_refl)|].
    apply Forall_app. split; [by apply split_no_return|by repeat constructor].
  - intros bs _ Hb. rewrite lines_quote. induction Hb as [|l ls Hl Hb IH]; constructor; [|done]. unfold quote_line. destruct (truthy l); exact Hl || done.
  - intros ordered items Hok Hall. destruct (proj2 (proj2 blocks_begin) items Hok) as [Hne Hbe].
    rewrite lines_list; [|done|by eapply Forall_impl; [|exact Hbe]; intros ? []]. clear Hok Hne Hbe.
    assert (∀ i, Forall (fun l => no_return l = true) (concat (imap (fun k => item_lines ordered (i + k)) (map blocks_lines items)))) as Hi; [|exact (Hi 0%nat)].
    induction Hall as [|bs items Hb Hall IH]; intros i; [constructor|]. cbn [map imap concat]. apply Forall_app. split; [by apply item_lines_no_return|].
    replace (imap ((fun k => item_lines ordered (i + k)) ∘ S) (map blocks_lines items)) with (imap (fun k => item_lines ordered (S i + k)) (map blocks_lines items)); [apply IH|].
    apply imap_ext; intros k x _; cbn; by rewrite Nat.add_succ_r.
  - intros b _ Hb. exact Hb.
  - intros b bs _ Hb Hbs IH. rewrite blocks_lines_cons by (by destruct Hbs). apply Forall_app. split; [done|]. by constructor.
  - intros bs _ Hb _. by repeat constructor.
  - intros bs items _ Hb _ _ IH. by constructor.
Qed.

Definition doc_of (bs : list DocNode) : DocNode := mkDocNode "doc" None None None (Some bs).

(** The text of such blocks is read as them. *)
Lemma blocks_read_back bs : blocks_ok bs → markdownToDoc (paragraphs (blocksToMarkdown bs)) = Some (doc_of bs).
Proof.
  intros Hok. set (text := paragraphs _). assert (split line_feed text = blocks_lines bs) as Hsplit by reflexivity.
  assert (one_newline text = text) as Hone.
  { apply one_newline_id. rewrite <- (join_split_unit line_feed text), Hsplit. apply join_no_return. by apply written_no_return. }
  assert (blank text = false) as Hb.
  { pose proof (proj1 (proj2 blocks_begin) bs Hok) as Hg. rewrite <- Hsplit in Hg. rewrite <- (join_split_unit line_feed text).
    destruct (split line_feed text) as [|[|c s] l]; [done..|]. destruct l as [|l' l]; [by apply not_blank|]. rewrite join_cons by done. by apply not_blank. }
  unfold markdownToDoc. rewrite Hb, Hone, Hsplit. unfold doc_of. do 3 f_equal.
  rewrite <- (app_nil_r (blocks_lines bs)), (proj1 (proj2 written_read_back)) by done. by rewrite parseBlocks_nil, app_nil_r.
Qed.

(** A document that says nothing is not written as blocks that say something. *)
Lemma empty_unlike d bs : blocks_ok bs → docToMarkdown (Some d) = docToMarkdown (Some (doc_of bs)) → isEmptyDoc (Some d) = false.
Proof.
  intros Hok Hd. destruct (isEmptyDoc (Some d)) eqn:E; [exfalso|done]. pose proof (proj1 (proj2 blocks_begin) bs Hok) as Hg.
  change (blocks_lines bs) with (split line_feed (docToMarkdown (Some (doc_of bs)))) in Hg. rewrite <- Hd in Hg. unfold docToMarkdown in Hg. unfold isEmptyDoc in E.
  destruct (default [] (node_content d)) as [|b l]; [exact Hg|]. cbn [forallb] in E. apply andb_true_iff in E as [E _]. apply andb_true_iff in E as [Et Ec]. apply bool_decide_eq_true in Et.
  assert (blockToMarkdown b = EmptyString) as Hb.
  { destruct b as [type text attrs marks content]. cbn in Et, Ec. subst type. destruct content as [[|x r]|]; [reflexivity|done|reflexivity]. }
  cbn [blocksToMarkdown map] in Hg. destruct l as [|b' l]; unfold paragraphs in Hg; cbn [blocksToMarkdown map join] in Hg; rewrite Hb in Hg; exact Hg.
Qed.

(** C3: a document that is written as markdown and read again is the same document, whatever
    its shape: paragraphs with their breaks, headings, code, quotes, and lists, one inside
    the other as deep as they go.  [blocks_ok] says what they are made of.  A text is prose
    that stands next to no other prose, or has one mark: bold, italic or strike; code
    without a backslash; a link with a safe address that no bracket closes.  A line has something in it, and begins
    neither with a space nor with a marker already escaped.  No line of code reads as a
    fence, and what an item holds has no two blank lines in a row. *)
Theorem markdown_roundtrip bs : blocks_ok bs → markdownToDoc (docToMarkdown (Some (doc_of bs))) = Some (doc_of bs).
Proof. exact (blocks_read_back bs). Qed.

(** ** Documents that come back, and ones that do not *)

Definition prose_of (s : string) : DocNode := text_node s [].
Definition marked (type s : string) : DocNode := text_node s [plain_mark type].
Definition site : string := "https://example.test".

Definition page : list DocNode :=
  [heading_node 2 [prose_of "Plan"];
   paragraph_node (broken [[prose_of "2 * 3, "; marked "bold" "now"; prose_of " and "; text_node "here" [link_mark site]]; [prose_of "- not a list"]]);
   list_node true (map item_node [[paragraph_node (broken [[prose_of "one"]]); list_node false (map item_node [[paragraph_node (broken [[marked "code" "x"]])]])];
                                  [paragraph_node (broken [[prose_of "two"]])]]);
   block_node "blockquote" None (Some [code_node "go" (Some [prose_of (join line_feed_s ["x := 1"; ""; "y"]%string)])])].

Lemma line_ok_one s : s ≠ EmptyString → one_line s = true → line_start (escapeText s) = true → line_ok [prose_of s].
Proof.
  intros Hs Ho Hl. split; [|exact Hl]. split_and!; [by constructor|done|done].
Qed.

Lemma page_ok : blocks_ok page.
Proof.
  assert (blocks_ok [paragraph_node (broken [[marked "code" "x"]])]) as Hx.
  { constructor. apply (paragraph_ok [[marked "code" "x"]]); [done|]. repeat constructor; done. }
  assert (items_ok [[paragraph_node (broken [[marked "code" "x"]])]]) as Hxs by (constructor; [exact Hx|vm_compute; repeat constructor; discriminate]).
  unfold page. constructor; [|constructor; [|constructor; [|constructor]]].
  - apply heading_ok; [right; left|by apply line_ok_one].
  - apply paragraph_ok; [done|]. constructor; [|constructor; [by apply line_ok_one|constructor]].
    split; [|reflexivity]. cbn [runs]. split_and!;
      solve [done | by apply run_prose | by apply (run_marked "**" "bold"); [left|..] | by apply run_link].
  - apply list_ok. constructor; [|vm_compute; repeat constructor; discriminate|constructor; [|vm_compute; repeat constructor; discriminate]].
    + constructor; [|constructor; by apply list_ok]. apply paragraph_ok; [done|]. constructor; [by apply line_ok_one|constructor].
    + constructor. apply paragraph_ok; [done|]. constructor; [by apply line_ok_one|constructor].
  - apply quote_ok. constructor. apply code_ok; [done|done|]. repeat constructor.
Qed.

Lemma markdown_roundtrip_witness : markdownToDoc (docToMarkdown (Some (doc_of page))) = Some (doc_of page).
Proof. apply (markdown_roundtrip page). exact page_ok. Defined.

(** Bold and italic at once, as two buttons of the toolbar make it: the three
    stars that open it are read as bold, and the first two of the three that
    close it close the bold before the italic. *)
Definition bold_italic : DocNode := doc_of [paragraph_node [text_node "a" [plain_mark "bold"; plain_mark "italic"]]].
Example bold_italic_torn :
  markdownToDoc (docToMarkdown (Some bold_italic)) = Some (doc_of [paragraph_node [marked "bold" "*a"; prose_of "*"]]).
Proof. vm_compute. reflexivity. Qed.

(** Code that ends in a backslash: the backtick that closes it is taken for an escaped one. *)
Definition back_slash : string := String backslash EmptyString.
Example code_backslash_open :
  markdownToDoc (docToMarkdown (Some (doc_of [paragraph_node [marked "code" ("C:" +:+ back_slash)]]))) =
  Some (doc_of [paragraph_node [prose_of (String backtick ("C:" +:+ String backtick EmptyString))]]).
Proof. vm_compute. reflexivity. Qed.

(** Two blank lines in code that an item of a list holds: the item ends at the
    first, and the code goes on as prose. *)
Definition gap_in_code : DocNode :=
  doc_of [list_node false [item_node [code_node "" (Some [prose_of (join line_feed_s ["x"; ""; ""; "y"]%string)])]]].
Example gap_in_code_torn :
  markdownToDoc (docToMarkdown (Some gap_in_code)) =
  Some (doc_of [list_node false [item_node [code_node "" (Some [prose_of "x"])]];
                paragraph_node [prose_of "  y"; hard_break; prose_of "  "; marked "code" ""; prose_of (String backtick EmptyString)]]).
Proof. vm_compute. reflexivity. Qed.

(** A line that begins with a star and a space, and has italics later: the
    backslash before the star is read as that of a list marker and dropped. *)
Example star_line_torn :
  markdownToDoc (docToMarkdown (Some (doc_of [paragraph_node [prose_of "* a "; marked "italic" "b"]]))) =
  Some (doc_of [paragraph_node [marked "italic" " a "; prose_of "b*"]]).
Proof. vm_compute. reflexivity. Qed.

(** A list marker after a space is not escaped. *)
Example space_before_marker :
  markdownToDoc (docToMarkdown (Some (doc_of [paragraph_node [prose_of " - x"]]))) =
  Some (doc_of [list_node false [item_node [paragraph_node [prose_of "x"]]]]).
Proof. vm_compute. reflexivity. Qed.
