(* ===== verification/IssueForms.v ===== *)
(** Forms about issues: the draft of a new issue and what creating it sends
    ([web/src/features/issues/create/draft.ts], [apply.ts]), fields seeded from
    the server ([lib/draft.ts]), drafts kept for the tab
    ([features/issues/drafts.ts]), custom fields' values ([features/fields/values.ts]),
    a change of type ([features/issues/typeChange.ts]) and the queries run last
    ([features/search/recent.ts]).

    Numbers are exact rationals, within the range of the doubles.  What the
    browser stores is the value its text parses to. *)

From Stdlib Require Import ZArith QArith Qabs Ascii String Permutation List Lia.
From stdpp Require Import base sets list strings list_numbers.
From S2P Require Import Prelude JsString Config Api ApiPlan Client Markdown.

Open Scope Z_scope.

(** ** Fields seeded from the server: [lib/draft.ts] *)

Module Seeded.

Definition Fields := list (string * string).

Section Objects.
(** The object a reference stands for; two answers are one when their references are. *)
Context (object : nat → Fields).

Record DraftState := mkDraftState { ds_draft : option Fields; ds_base : option nat }.

Definition useDraft (server : option nat) : DraftState := mkDraftState (object <$> server) server.

(** The fields of an answer, but for the ones the reader changed since [was];
    a field that became undefined reads as one that is absent. *)
Definition merged (server was current : Fields) : Fields :=
  omap (fun '(key, v) => pair key <$> (if decide (jget current key = jget was key) then Some v else jget current key)) server.

(** The effect, run when the server's answer is another one. *)
Definition answered (server : option nat) (s : DraftState) : DraftState :=
  match server with
  | None => s
  | Some r =>
      if decide (ds_base s = Some r) then s
      else mkDraftState
        (match ds_draft s, ds_base s with
         | Some current, Some was => Some (merged (object r) (object was) current)
         | _, _ => Some (object r)
         end) (Some r)
  end.

Definition set (key value : string) (s : DraftState) : DraftState :=
  mkDraftState ((fun current => jset current key value) <$> ds_draft s) (ds_base s).

Inductive SeedEvent := answer (r : nat) | edit (key value : string).

Definition happens (s : DraftState) (e : SeedEvent) : DraftState :=
  match e with answer r => answered (Some r) s | edit key value => set key value s end.

Definition form (first : nat) (es : list SeedEvent) : DraftState := foldl happens (useDraft (Some first)) es.

(** What the form shows of a field. *)
Definition shown (key : string) (s : DraftState) : option string := ds_draft s ≫= (fun d => jget d key).
End Objects.

End Seeded.

(** ** Drafts kept for the tab: [features/issues/drafts.ts] *)

Inductive DraftKind := draft_description | draft_comment.
#[export] Instance DraftKind_eq : EqDecision DraftKind.
Proof. solve_decision. Defined.

Definition kind_text (kind : DraftKind) : string :=
  match kind with draft_description => "description" | draft_comment => "comment" end.

Record KeptDraft := mkKeptDraft { kept_doc : option DocNode; kept_startedFrom : option string }.

Definition slot (kind : DraftKind) (issueKey : string) : string := kind_text kind +:+ ":" +:+ issueKey.

Definition readDraft (kept : list (string * KeptDraft)) (kind : DraftKind) (issueKey : string) : option KeptDraft := jget kept (slot kind issueKey).

Definition keepDraft (kept : list (string * KeptDraft)) (kind : DraftKind) (issueKey : string) (doc : option DocNode) (startedFrom : option string) : list (string * KeptDraft) :=
  jset kept (slot kind issueKey) (mkKeptDraft doc startedFrom).

Definition forgetDraft (kept : list (string * KeptDraft)) (kind : DraftKind) (issueKey : string) : list (string * KeptDraft) :=
  filter (fun e => e.1 ≠ slot kind issueKey) kept.

(** ** Values of custom fields: [features/fields/values.ts] *)

Inductive FieldKind := field_text | field_number | field_date | field_select | field_checkbox | field_url.
#[export] Instance FieldKind_eq : EqDecision FieldKind.
Proof. solve_decision. Defined.

(** What the form makes of an answer. *)
Inductive FieldValue := value_null | value_bool (b : bool) | value_number (q : Q) | value_text (s : string).

(** [Number.isFinite]: below half a step past the largest double. *)
Definition is_finite (q : Q) : bool := negb (Qle_bool (inject_Z (2 ^ 1024 - 2 ^ 970)) (Qabs q)).

(** A text or a checkbox's state, as a control hands it over. *)
Inductive Raw := raw_text (s : string) | raw_bool (b : bool).

Definition valueFromInput (kind : FieldKind) (raw : Raw) : FieldValue :=
  if decide (kind = field_checkbox) then
    value_bool (match raw with raw_bool b => b | raw_text s => bool_decide (s = "true"%string) end)
  else
    let text := match raw with raw_text s => trim s | raw_bool b => if b then "true" else "false" end%string in
    if decide (text = EmptyString) then value_null
    else if decide (kind = field_number) then
      match numberOf text with
      | Some n => if is_finite n then value_number n else value_text text
      | None => value_text text
      end
    else value_text text.

Definition inputFromValue (kind : FieldKind) (value : option Json) : string :=
  match value with
  | None | Some JNull => EmptyString
  | Some v =>
      if decide (kind = field_checkbox) then (match v with JBool true => "true"%string | _ => EmptyString end)
      else json_string v
  end.

Inductive InputType := input_text | input_number | input_date | input_url.

Definition inputTypeFor (kind : FieldKind) : InputType :=
  match kind with field_number => input_number | field_date => input_date | field_url => input_url | _ => input_text end.

Definition parseOptions (text : string) : list string :=
  foldl (fun out line => let option_ := trim line in
           if decide (option_ = EmptyString ∨ option_ ∈ out) then out else out ++ [option_]) []
    (split line_feed text).

(** ** A change of type: [features/issues/typeChange.ts] *)

Record Assignment := mkAssignment { assignment_typeId : string; assignment_workflowId : string }.

Definition typeChoices (types : list TypeRef) (issueType : TypeRef) : list TypeRef :=
  filter (fun t => type_id t ≠ type_id issueType ∧ type_level t = type_level issueType ∧ type_isSubtask t = type_isSubtask issueType) types.

Definition workflowFor (assignments : list Assignment) (typeId : string) : option string :=
  assignment_workflowId <$> head (filter (fun a => assignment_typeId a = typeId) assignments).

Definition landingStatus (workflow : Workflow) (status : Status) : option Status :=
  if existsb (fun step => bool_decide (status_id (step_status step) = status_id status)) (workflow_steps workflow) then None
  else step_status <$> head (filter (fun step => step_isInitial step = true) (workflow_steps workflow)).

(** What [useTypeChange] answers with, of what the server has. *)
Definition typeChange (assignments : list Assignment) (workflows : string → Workflow) (status : Status) (typeId : string) : option Status :=
  match workflowFor assignments typeId with
  | Some workflowId => if truthy workflowId then landingStatus (workflows workflowId) status else None
  | None => None
  end.

(** ** The queries run last: [features/search/recent.ts] *)

(** What the browser has stored, or nothing that can be read. *)
Definition readRecent (stored : option Json) : list string :=
  match stored with
  | Some (JArray l) => omap (fun q => match q with JString s => Some s | _ => None end) l
  | _ => []
  end.

Record Recent := mkRecent { recent_stored : option Json; recent_shown : list string }.

Definition remember (query : string) (s : Recent) : Recent :=
  if negb (truthy (trim query)) then s
  else
    let next := slice_to RECENT_QUERIES_MAX (query :: filter (fun q => q ≠ query) (readRecent (recent_stored s))) in
    mkRecent (Some (JArray (map JString next))) next.

(** ** The draft of a new issue: [features/issues/create/draft.ts] *)

Inductive Area := area_main | area_people | area_planning | area_tracking | area_more | area_hidden.
#[export] Instance Area_eq : EqDecision Area.
Proof. solve_decision. Defined.

Record Placement := mkPlacement { placement_area : Area; placement_fieldId : option string; placement_slot : option string }.

(** One custom field's answer, and the name a refusal would be about. *)
Record FieldAnswer := mkFieldAnswer { answer_name : string; answer_value : FieldValue }.

Record Draft := mkDraft {
  draft_summary : string;
  draft_description_text : string;
  draft_priority : option Priority;
  draft_assigneeId : string;
  draft_reporterId : string;
  draft_parentKey : string;
  draft_startDate : string;
  draft_dueDate : string;
  draft_sprintId : string;
  draft_milestoneId : string;
  draft_teamId : string;
  draft_estimate : string;
  draft_timeEstimate : string;
  draft_componentIds : list string;
  draft_fixVersionIds : list string;
  draft_affectsVersionIds : list string;
  draft_labels : list string;
  draft_values : list (string * FieldAnswer);
}.

Definition emptyDraft : Draft :=
  mkDraft EmptyString EmptyString None EmptyString EmptyString EmptyString EmptyString EmptyString EmptyString EmptyString
    EmptyString EmptyString EmptyString [] [] [] [] [].

Definition ASKED_AREAS : list Area := [area_main; area_people; area_planning; area_tracking; area_more].

Definition askedPlaces (places : list Placement) : list Placement :=
  concat (map (fun area => filter (fun place => placement_area place = area) places) ASKED_AREAS).

Record CreateIssueInput := mkCreateIssueInput {
  create_projectKey : string;
  create_summary : string;
  create_description : option DocNode;
  create_typeId : option string;
  create_parentKey : option string;
  create_priority : option Priority;
  create_assigneeId : option string;
  create_startDate : option string;
  create_dueDate : option string;
  create_teamId : option string;
  create_estimate : option (option Q);   (* [None] inside is [NaN] *)
  create_sprintId : option string;
  create_componentIds : option (list string);
}.

Definition when_said (s : string) : option string := if truthy s then Some s else None.
Definition when_any {A} (l : list A) : option (list A) := match l with [] => None | _ => Some l end.

Definition createBody (draft : Draft) (projectKey typeId : string) : CreateIssueInput :=
  {| create_projectKey := projectKey;
     create_summary := trim (draft_summary draft);
     create_description := markdownToDoc (draft_description_text draft);
     create_typeId := when_said typeId;
     create_parentKey := when_said (trim (draft_parentKey draft));
     create_priority := draft_priority draft;
     create_assigneeId := when_said (draft_assigneeId draft);
     create_startDate := when_said (draft_startDate draft);
     create_dueDate := when_said (draft_dueDate draft);
     create_teamId := when_said (draft_teamId draft);
     create_estimate := if truthy (trim (draft_estimate draft)) then Some (numberOf (draft_estimate draft)) else None;
     create_sprintId := when_said (draft_sprintId draft);
     create_componentIds := when_any (draft_componentIds draft) |}.

(** ** What follows the create request: [features/issues/create/apply.ts] *)

Record CreateWords := mkCreateWords {
  word_reporter : string; word_timeEstimate : string; word_labels : string; word_versions : string; word_milestone : string
}.

Definition create_en : CreateWords := mkCreateWords "Reporter" "Time estimate" "Labels" "Versions" "Milestone".

(** What a step sends. *)
Inductive StepBody :=
  | send_reporter (reporterId : string)
  | send_timeEstimate (minutes : option Q)
  | send_labels (labels : list string)
  | send_versions (fix_ affects : list string)
  | send_milestone (milestoneId : string)
  | send_value (value : FieldValue).

Record StepRequest := mkStepRequest { request_method : Method; request_path : string; request_body : StepBody }.
Record ApplyStep := mkApplyStep { step_what : string; step_run : StepRequest }.
Record Leftover := mkLeftover { left_what : string; left_why : string }.

Definition says_nothing (v : FieldValue) : bool := match v with value_null | value_bool false => true | _ => false end.

Definition value_steps (issueKey : string) (values : list (string * FieldAnswer)) : list ApplyStep :=
  omap (fun '(fieldId, answer) =>
          if says_nothing (answer_value answer) then None
          else Some (mkApplyStep (answer_name answer)
                 (mkStepRequest PUT ("/issues/" +:+ issueKey +:+ "/fields/" +:+ fieldId) (send_value (answer_value answer))))) values.

Definition steps (words : CreateWords) (issueKey : string) (draft : Draft) : list ApplyStep :=
  let issue := "/issues/" +:+ issueKey in
  (if truthy (draft_reporterId draft)
   then [mkApplyStep (word_reporter words) (mkStepRequest PATCH issue (send_reporter (draft_reporterId draft)))] else []) ++
  (if truthy (trim (draft_timeEstimate draft))
   then [mkApplyStep (word_timeEstimate words) (mkStepRequest PATCH issue (send_timeEstimate (numberOf (draft_timeEstimate draft))))] else []) ++
  (match draft_labels draft with
   | [] => []
   | labels => [mkApplyStep (word_labels words) (mkStepRequest PUT (issue +:+ "/labels") (send_labels labels))]
   end) ++
  (match draft_fixVersionIds draft, draft_affectsVersionIds draft with
   | [], [] => []
   | fix_, affects => [mkApplyStep (word_versions words) (mkStepRequest PUT (issue +:+ "/versions") (send_versions fix_ affects))]
   end) ++
  (if truthy (draft_milestoneId draft)
   then [mkApplyStep (word_milestone words) (mkStepRequest PUT (issue +:+ "/milestone") (send_milestone (draft_milestoneId draft)))] else []) ++
  value_steps issueKey (draft_values draft).

Section Server.
(** The server: what it keeps, and what a request makes of it or why it refuses. *)
Context {S : Type} (serve : S → StepRequest → S * option string).

(** [applyRest]: each step stands alone; the refusals are reported. *)
Definition apply_step (at_ : S * list Leftover) (step : ApplyStep) : S * list Leftover :=
  let '(s, refused) := at_ in
  match serve s (step_run step) with
  | (s', None) => (s', refused)
  | (s', Some why) => (s', refused ++ [mkLeftover (step_what step) why])
  end.

Definition applyRest (words : CreateWords) (issueKey : string) (draft : Draft) (s : S) : S * list Leftover :=
  foldl apply_step (s, []) (steps words issueKey draft).
End Server.

(** ** Theorems about fields seeded from the server *)

Module SeededFacts.
Import Seeded.

Section Objects.
Context (object : nat → Fields).
Context (key : string).
(** Every answer has the field, once. *)
Context (value_of : nat → string).
Context (Hkeys : ∀ r, NoDup (jkeys (object r))).
Context (Hvalue : ∀ r, jget (object r) key = Some (value_of r)).

Lemma merged_value r w current :
  jget (merged (object r) (object w) current) key =
    if decide (jget current key = Some (value_of w)) then Some (value_of r) else jget current key.
Proof.
  unfold merged. pose proof (Hkeys r) as Hnd. pose proof (Hvalue r) as Hr.
  induction (object r) as [|[k v] l IH]; [done|]. change (NoDup (k :: jkeys l)) in Hnd. rewrite NoDup_cons in Hnd. destruct Hnd as [Hk Hnd]. rewrite omap_cons.
  destruct (decide (k = key)) as [->|Hne].
  - simpl in Hr. rewrite decide_True in Hr by done. injection Hr as ->. rewrite Hvalue.
    assert (∀ f : string * string → option (string * string), (∀ e x, f e = Some x → x.1 = e.1) → jget (omap f l) key = None) as Hnone.
    { intros f Hf. apply jget_None. intros [[k' v'] [-> Hin]]%list_elem_of_fmap. apply list_elem_of_omap in Hin as ([k0 v0] & Hin & Hfx).
      apply Hf in Hfx. simpl in Hfx. subst k0. apply Hk, list_elem_of_fmap. by exists (k', v0). }
    cbn [fst snd]. destruct (decide (jget current key = Some (value_of w))) as [Hc|Hc].
    + cbn. by rewrite decide_True.
    + destruct (jget current key) as [c|] eqn:E; cbn; [by rewrite decide_True|]. apply Hnone.
      intros [k' v'] [k2 v2]. cbn. case_decide; [by intros [= <- _]|]. destruct (jget current k'); cbn; [by intros [= <- _]|done].
  - simpl in Hr. rewrite decide_False in Hr by done. specialize (IH Hnd Hr). cbn [fst snd] in *.
    destruct (_ <$> _) as [[k' v']|] eqn:E; [|exact IH].
    assert (k' = k) as -> by (destruct (if decide _ then Some v else jget current k); [by injection E|done]).
    simpl. rewrite decide_False by done. exact IH.
Qed.

(** The answer the form was last seeded from. *)
Definition last_answer (first : nat) (es : list SeedEvent) : nat :=
  foldl (fun r e => match e with answer r' => r' | edit _ _ => r end) first es.

Definition edits (e : SeedEvent) : bool := match e with edit k _ => bool_decide (k = key) | answer _ => false end.

Lemma last_answer_snoc first es e :
  last_answer first (es ++ [e]) = match e with answer r => r | edit _ _ => last_answer first es end.
Proof. unfold last_answer. by rewrite foldl_app. Qed.

Lemma form_seeded first es :
  ds_base (form object first es) = Some (last_answer first es) ∧ is_Some (ds_draft (form object first es)).
Proof.
  induction es as [|e es [IHb [d IHd]]] using rev_ind; [by split; [|eexists]|].
  unfold form in *. rewrite foldl_app, last_answer_snoc. destruct e as [r|k v]; simpl in *.
  - unfold answered. rewrite IHb. case_decide as Hr; [injection Hr as <-; split; [done|by rewrite IHd; eexists]|].
    rewrite IHd. by split; [|eexists].
  - split; [done|]. rewrite IHd. by eexists.
Qed.

Lemma shown_answer first es r :
  shown key (form object first (es ++ [answer r])) =
    if decide (shown key (form object first es) = Some (value_of (last_answer first es))) then Some (value_of r)
    else shown key (form object first es).
Proof.
  destruct (form_seeded first es) as [Hb [d Hd]]. unfold form in *. rewrite foldl_app. cbn [foldl happens]. unfold answered, shown. rewrite Hb, Hd.
  cbn [mbind option_bind]. destruct (decide (Some (last_answer first es) = Some r)) as [Hr|Hr].
  - injection Hr as <-. rewrite Hd. cbn [mbind option_bind]. by case_decide.
  - cbn [ds_draft mbind option_bind]. by rewrite merged_value.
Qed.

Lemma shown_edit first es k v :
  shown key (form object first (es ++ [edit k v])) = if decide (k = key) then Some v else shown key (form object first es).
Proof.
  destruct (form_seeded first es) as [Hb [d Hd]]. unfold form in *. rewrite foldl_app. cbn [foldl happens]. unfold set, shown. rewrite Hd.
  cbn [ds_draft fmap option_fmap option_map mbind option_bind]. by rewrite jget_jset.
Qed.

(** What the reader typed into a field is kept however often the server answers
    again with something else in it, whatever else is typed meanwhile. *)
Theorem edited_field_kept first before v after :
  forallb (fun e => negb (edits e)) after = true →
  value_of (last_answer first before) ≠ v →
  (∀ r, answer r ∈ after → value_of r ≠ v) →
  shown key (form object first (before ++ edit key v :: after)) = Some v.
Proof.
  intros Hno Hbase Hans. rewrite cons_middle, app_assoc.
  assert (∀ m, forallb (fun e => negb (edits e)) m = true → (∀ r, answer r ∈ m → value_of r ≠ v) →
    shown key (form object first ((before ++ [edit key v]) ++ m)) = Some v ∧ value_of (last_answer first ((before ++ [edit key v]) ++ m)) ≠ v) as Hall;
    [|by apply Hall].
  intros m. induction m as [|e m IH] using rev_ind; intros Hm Ha.
  - rewrite app_nil_r, shown_edit, last_answer_snoc. by rewrite decide_True.
  - rewrite forallb_app in Hm. apply andb_true_iff in Hm as [Hm He]. rewrite app_assoc, last_answer_snoc.
    destruct IH as [IH1 IH2]; [done|intros r Hr; apply Ha, elem_of_app; by left|]. destruct e as [r|k w].
    + rewrite shown_answer, IH1. split; [|apply Ha, elem_of_app; right; left].
      rewrite decide_False; [done|]. congruence.
    + rewrite shown_edit. cbn [forallb edits] in He. rewrite andb_true_r, negb_true_iff, bool_decide_eq_false in He. by rewrite decide_False.
Qed.

(** A field nobody touched shows what the last answer said. *)
Theorem untouched_field_follows first es :
  forallb (fun e => negb (edits e)) es = true → shown key (form object first es) = Some (value_of (last_answer first es)).
Proof.
  induction es as [|e es IH] using rev_ind; intros Hno; [exact (Hvalue first)|].
  rewrite forallb_app in Hno. apply andb_true_iff in Hno as [Hno He]. rewrite last_answer_snoc. destruct e as [r|k w].
  - by rewrite shown_answer, IH, decide_True.
  - rewrite shown_edit. cbn [forallb edits] in He. rewrite andb_true_r, negb_true_iff, bool_decide_eq_false in He. by rewrite decide_False, IH.
Qed.
End Objects.

(** Three answers of a profile's form. *)
Definition three (r : nat) : Fields :=
  [("name"%string, match r with O => "Ada" | S O => "Grace" | _ => "Edsger" end%string); ("zone"%string, "UTC"%string)].

Lemma edited_field_kept_witness :
  shown "name" (form three 0 [edit "zone" "CET"; edit "name" "Barbara"; answer 1; edit "zone" "WET"; answer 2]) = Some "Barbara"%string.
Proof.
  apply (edited_field_kept three "name" (fun r => match r with O => "Ada" | S O => "Grace" | _ => "Edsger" end%string)
           ltac:(intros [|[|r]]; apply (bool_decide_unpack _); vm_compute; exact I) ltac:(by intros [|[|r]])
           0 [edit "zone" "CET"] "Barbara" [answer 1; edit "zone" "WET"; answer 2]).
  - reflexivity.
  - vm_compute. discriminate.
  - intros r Hr. rewrite !elem_of_cons, elem_of_nil in Hr. destruct Hr as [[= ->]|[Hr|[[= ->]|[]]]]; [discriminate|done|discriminate].
Defined.
End SeededFacts.

(** ** Theorems about drafts kept for the tab *)

#[export] Instance slot_inj kind : Inj (=) (=) (slot kind).
Proof. intros a b Hab. destruct kind; unfold slot, kind_text in Hab; by repeat (injection Hab as Hab). Qed.

Lemma slot_kind kind kind' a b : slot kind a = slot kind' b → kind = kind' ∧ a = b.
Proof.
  intros Hab. destruct kind, kind'; [by apply slot_inj in Hab|discriminate Hab|discriminate Hab|by apply slot_inj in Hab].
Qed.

Lemma jget_forget (m : list (string * KeptDraft)) k k' : jget (filter (fun e => e.1 ≠ k) m) k' = if decide (k' = k) then None else jget m k'.
Proof.
  induction m as [|[a v] m IH]; [by case_decide|]. rewrite filter_cons. cbn [fst]. destruct (decide (a ≠ k)) as [Ha|Ha].
  - simpl. rewrite IH. destruct (decide (a = k')) as [->|]; [by rewrite decide_False|done].
  - apply dec_stable in Ha as ->. rewrite IH. simpl. destruct (decide (k' = k)) as [->|]; [done|]. by rewrite decide_False.
Qed.

Lemma read_keep kept k i d kind issueKey :
  readDraft (keepDraft kept k i (kept_doc d) (kept_startedFrom d)) kind issueKey =
    if decide (k = kind ∧ i = issueKey) then Some d else readDraft kept kind issueKey.
Proof.
  unfold readDraft, keepDraft. rewrite jget_jset. destruct d as [doc from].
  destruct (decide (k = kind ∧ i = issueKey)) as [[-> ->]|Hne]; [by rewrite decide_True|].
  rewrite decide_False; [done|]. intros Hs. apply Hne. by apply slot_kind in Hs.
Qed.

Lemma read_forget kept k i kind issueKey :
  readDraft (forgetDraft kept k i) kind issueKey = if decide (k = kind ∧ i = issueKey) then None else readDraft kept kind issueKey.
Proof.
  unfold readDraft, forgetDraft. rewrite jget_forget.
  destruct (decide (k = kind ∧ i = issueKey)) as [[-> ->]|Hne]; [by rewrite decide_True|].
  rewrite decide_False; [done|]. intros Hs. apply Hne. by apply slot_kind in Hs as [-> ->].
Qed.

(** What happens to the drafts of a tab. *)
Inductive DraftEvent := keep (kind : DraftKind) (issueKey : string) (draft : KeptDraft) | forget (kind : DraftKind) (issueKey : string).

Definition kept_after (es : list DraftEvent) : list (string * KeptDraft) :=
  foldl (fun kept e => match e with
    | keep kind issueKey d => keepDraft kept kind issueKey (kept_doc d) (kept_startedFrom d)
    | forget kind issueKey => forgetDraft kept kind issueKey
    end) [] es.

(** The last thing that happened to one draft. *)
Definition last_of (kind : DraftKind) (issueKey : string) (es : list DraftEvent) : option KeptDraft :=
  foldl (fun last e => match e with
    | keep k i d => if decide (k = kind ∧ i = issueKey) then Some d else last
    | forget k i => if decide (k = kind ∧ i = issueKey) then None else last
    end) None es.

(** Each draft of the tab is what was last kept for it, whatever happened to
    the others: a comment and a description of one issue are two drafts. *)
Theorem drafts_apart kind issueKey es : readDraft (kept_after es) kind issueKey = last_of kind issueKey es.
Proof.
  induction es as [|e es IH] using rev_ind; [done|]. unfold kept_after, last_of in *. rewrite !foldl_app. cbn [foldl].
  destruct e as [k i d|k i]; [rewrite read_keep|rewrite read_forget]; by rewrite IH.
Qed.

(** ** Theorems about the queries run last *)

(** The same queries, newest first, each once. *)
Fixpoint once (l : list string) : list string :=
  match l with [] => [] | q :: l' => q :: filter (fun x => x ≠ q) (once l') end.

Lemma readRecent_stored l : readRecent (Some (JArray (map JString l))) = l.
Proof. simpl. induction l as [|q l IH]; [done|]. by rewrite map_cons, omap_cons, IH. Qed.

Lemma take_without (q : string) n (l : list string) :
  NoDup l → take n (filter (fun x => x ≠ q) (take (S n) l)) = take n (filter (fun x => x ≠ q) l).
Proof.
  intros Hnd. revert n. induction l as [|x l IH]; intros n; [done|]. rewrite NoDup_cons in Hnd. destruct Hnd as [Hx Hnd].
  rewrite firstn_cons, !filter_cons. destruct (decide (x ≠ q)) as [Hq|Hq].
  - destruct n as [|n]; [done|]. rewrite !firstn_cons. f_equal. by apply IH.
  - apply dec_stable in Hq as ->.
    assert (∀ m : list string, (∀ y, y ∈ m → y ∈ l) → filter (fun x => x ≠ q) m = m) as Hid.
    { intros m Hm. apply filter_every, Forall_forall. intros y Hy ->. by apply Hx, Hm. }
    rewrite (Hid l) by done. rewrite Hid; [|intros y Hy; by eapply subseteq_take]. by rewrite take_take, Nat.min_id.
Qed.

Lemma NoDup_once l : NoDup (once l).
Proof.
  induction l as [|q l IH]; [constructor|]. cbn [once]. rewrite NoDup_cons. split; [|by apply NoDup_filter].
  intros [Hq _]%list_elem_of_filter. done.
Qed.

(** The queries that were run, newest first, the blank ones left out. *)
Definition run_queries (queries : list string) : list string := reverse (filter (fun q => truthy (trim q) = true) queries).

(** The queries offered again are the last six different ones, newest first,
    and what is stored is what is shown. *)
Theorem recent_queries queries :
  let s := foldl (fun s q => remember q s) (mkRecent None []) queries in
  recent_shown s = take 6 (once (run_queries queries)) ∧ readRecent (recent_stored s) = recent_shown s.
Proof.
  cbv zeta. induction queries as [|q queries [IH1 IH2]] using rev_ind; [done|].
  rewrite foldl_app. cbn [foldl]. set (s := foldl _ _ queries) in *. unfold run_queries in *. rewrite filter_app, reverse_app.
  unfold remember. rewrite IH2, IH1. rewrite filter_cons, filter_nil. destruct (truthy (trim q)) eqn:Hq; cbn [negb].
  - rewrite decide_True by done. cbn [recent_shown recent_stored]. rewrite readRecent_stored. split; [|done].
    change (reverse [q]) with [q]. cbn [app once]. unfold slice_to. change (slice_index RECENT_QUERIES_MAX _) with 6%nat.
    rewrite !firstn_cons. f_equal. apply take_without, NoDup_once.
  - rewrite decide_False by done. by split.
Qed.

(** ** Theorems about custom fields' values *)

Lemma unsigned_decimal_digits n : 0 <= n → unsigned_decimal (digits n) = Some (inject_Z n).
Proof.
  intros Hn. unfold unsigned_decimal. rewrite span_digits_all by (by apply digits_all).
  pose proof (digits_nonempty n Hn) as Hne. unfold truthy at 1. rewrite bool_decide_eq_false_2 by done. cbn [negb orb].
  cbn [exponent mbind option_bind]. rewrite app_empty_r, digits_value_digits by done.
  unfold scale10. cbn. unfold Qmult, inject_Z. cbn. by rewrite Z.mul_1_r.
Qed.

Lemma code_of_digit c : is_digit c = true → 48 <= code c <= 57.
Proof. unfold is_digit. lia. Qed.

Lemma lower_of_digit c : is_digit c = true → lower c = c.
Proof. intros Hc%code_of_digit. unfold lower. destruct (_ || _) eqn:E; [lia|done]. Qed.

Lemma numberOf_natural n : 0 <= n → numberOf (digits n) = Some (inject_Z n).
Proof.
  intros Hn. pose proof (unsigned_decimal_digits n Hn) as Hu. pose proof (digits_all n Hn) as Hd. pose proof (digits_nonempty n Hn) as Hne.
  unfold numberOf. rewrite trim_id by (by apply digit_units). destruct (digits n) as [|c t]; [done|].
  destruct t as [|x body]; [done|]. cbn [string_forall] in Hd. rewrite !andb_true_iff in Hd. destruct Hd as (Hc & Hx & _).
  rewrite (lower_of_digit x) by done. apply code_of_digit in Hc, Hx.
  repeat match goal with |- context [if ?a && ?b && (code x =? ?k) then _ else _] => replace (a && b && (code x =? k)) with false by (symmetry; rewrite andb_false_iff; right; lia) end.
  replace (code c =? 45) with false by lia. replace (code c =? 43) with false by lia. exact Hu.
Qed.

Lemma numberOf_int n : numberOf (stringOfInt n) = Some (inject_Z n).
Proof.
  unfold stringOfInt. destruct (n <? 0) eqn:E; [|apply numberOf_natural; lia].
  assert (0 <= - n) as Hn by lia. pose proof (unsigned_decimal_digits (- n) Hn) as Hu.
  pose proof (digit_units _ (digits_all (- n) Hn)) as Hs. pose proof (digits_nonempty (- n) Hn) as Hne.
  unfold numberOf. rewrite trim_id by exact Hs. destruct (digits (- n)) as [|x body]; [done|].
  change (code "-" =? 48) with false. change (code "-" =? 45) with true. cbn [andb]. rewrite Hu.
  unfold inject_Z. cbn. unfold Qopp. cbn. by rewrite Z.opp_involutive.
Qed.

(** What the API stores for a kind: an answer that is text is trimmed and not
    empty, and a number is within the doubles' whole ones. *)
Definition stored_for (kind : FieldKind) (value : Json) : bool :=
  match kind, value with
  | field_checkbox, JBool _ => true
  | field_number, JNumber n => Z.abs n <=? 2 ^ 53
  | (field_text | field_date | field_select | field_url), JString s => truthy s && bool_decide (trim s = s)
  | _, JNull => negb (bool_decide (kind = field_checkbox))
  | _, _ => false
  end.

Definition as_answer (value : Json) : FieldValue :=
  match value with
  | JBool b => value_bool b
  | JNumber n => value_number (inject_Z n)
  | JString s => value_text s
  | _ => value_null
  end.

Lemma stringOfInt_trim n : trim (stringOfInt n) = stringOfInt n ∧ stringOfInt n ≠ EmptyString.
Proof.
  unfold stringOfInt. destruct (n <? 0) eqn:E; [split; [|done]|split].
  - apply trim_id. change (string_forall (fun c => negb (is_space c)) (digits (- n)) = true). apply digit_units, digits_all. lia.
  - apply trim_id, digit_units, digits_all. lia.
  - apply digits_nonempty. lia.
Qed.

Lemma small_is_finite n : Z.abs n <= 2 ^ 53 → is_finite (inject_Z n) = true.
Proof.
  intros Hn. unfold is_finite. apply negb_true_iff. destruct (Qle_bool _ _) eqn:E; [|done]. exfalso.
  apply Qle_bool_iff in E. change (Qabs (inject_Z n)) with (inject_Z (Z.abs n)) in E. rewrite <- Zle_Qle in E.
  assert (2 ^ 53 < 2 ^ 1024 - 2 ^ 970) by (vm_compute; reflexivity). lia.
Qed.

(** A stored value of a custom field is what its control gives back untouched:
    nothing is changed by opening a field and leaving it. *)
Theorem field_value_roundtrip kind value :
  stored_for kind value = true → valueFromInput kind (raw_text (inputFromValue kind (Some value))) = as_answer value.
Proof.
  intros Hv. destruct value as [|b|n|s|l|l]; try (by destruct kind).
  - by destruct kind, b.
  - assert (kind = field_number) as -> by (by destruct kind). cbn [stored_for] in Hv. apply Z.leb_le in Hv.
    change (inputFromValue field_number (Some (JNumber n))) with (stringOfInt n). unfold valueFromInput. rewrite decide_False by done. cbv zeta.
    destruct (stringOfInt_trim n) as [-> Hne]. rewrite decide_False, decide_True by done.
    by rewrite numberOf_int, small_is_finite.
  - assert (truthy s = true ∧ trim s = s ∧ kind ≠ field_checkbox ∧ kind ≠ field_number) as (Ht & Hs & Hc & Hn)
      by (destruct kind; cbn [stored_for] in Hv; try done; apply andb_true_iff in Hv as [Ht Hs%bool_decide_eq_true]; done).
    unfold valueFromInput, inputFromValue. rewrite !(decide_False (P := kind = field_checkbox)) by done. cbn [json_string].
    rewrite Hs. destruct (decide (s = EmptyString)) as [->|Hne]; [done|]. by rewrite decide_False.
Qed.

Lemma field_value_roundtrip_witness :
  valueFromInput field_number (raw_text (inputFromValue field_number (Some (JNumber (-42))))) = value_number (inject_Z (-42)).
Proof. apply (field_value_roundtrip field_number (JNumber (-42))). reflexivity. Defined.

(** ** Theorems about the new issue *)

#[export] Instance Method_eq : EqDecision Method.
Proof. solve_decision. Defined.

(** What a reader says of a new issue, each answer with what it says. *)
Inductive IssueAnswer :=
  | in_project (key : string) | of_type (id : string) | say_summary (text : string) | say_description (doc : DocNode) | say_priority (p : Priority)
  | say_assignee (id : string) | say_reporter (id : string) | say_parent (key : string) | say_start (day : string) | say_due (day : string)
  | say_sprint (id : string) | say_milestone (id : string) | say_team (id : string) | say_estimate (points : option Q) | say_minutes (minutes : option Q)
  | say_components (ids : list string) | say_fixVersions (ids : list string) | say_affectsVersions (ids : list string) | say_labels (names : list string)
  | say_value (fieldId : string) (value : FieldValue).

Definition opt {A} (b : bool) (a : A) : list A := if b then [a] else [].
Definition each {A B} (f : A → B) (o : option A) : list B := match o with Some a => [f a] | None => [] end.

(** An answer left alone: a control that holds nothing, a box that is not ticked. *)
Definition left_alone (v : FieldValue) : Prop := v = value_null ∨ v = value_bool false.

#[export] Instance left_alone_dec v : Decision (left_alone v).
Proof. destruct v as [|[]| |]; first [left; by left | left; by right | right; by intros [?|?]]. Defined.

(** What the reader said, in the order of the form: what every control that was not left
    empty says. *)
Definition told (projectKey typeId : string) (d : Draft) : list (list IssueAnswer) :=
  [ [in_project projectKey];
    opt (negb (bool_decide (typeId = EmptyString))) (of_type typeId);
    [say_summary (trim (draft_summary d))];
    each say_description (markdownToDoc (draft_description_text d));
    each say_priority (draft_priority d);
    opt (negb (bool_decide (draft_assigneeId d = EmptyString))) (say_assignee (draft_assigneeId d));
    opt (negb (bool_decide (draft_reporterId d = EmptyString))) (say_reporter (draft_reporterId d));
    opt (negb (bool_decide (trim (draft_parentKey d) = EmptyString))) (say_parent (trim (draft_parentKey d)));
    opt (negb (bool_decide (draft_startDate d = EmptyString))) (say_start (draft_startDate d));
    opt (negb (bool_decide (draft_dueDate d = EmptyString))) (say_due (draft_dueDate d));
    opt (negb (bool_decide (draft_sprintId d = EmptyString))) (say_sprint (draft_sprintId d));
    opt (negb (bool_decide (draft_milestoneId d = EmptyString))) (say_milestone (draft_milestoneId d));
    opt (negb (bool_decide (draft_teamId d = EmptyString))) (say_team (draft_teamId d));
    opt (negb (bool_decide (trim (draft_estimate d) = EmptyString))) (say_estimate (numberOf (draft_estimate d)));
    opt (negb (bool_decide (trim (draft_timeEstimate d) = EmptyString))) (say_minutes (numberOf (draft_timeEstimate d)));
    opt (negb (bool_decide (draft_componentIds d = []))) (say_components (draft_componentIds d));
    opt (negb (bool_decide (draft_fixVersionIds d = []))) (say_fixVersions (draft_fixVersionIds d));
    opt (negb (bool_decide (draft_affectsVersionIds d = []))) (say_affectsVersions (draft_affectsVersionIds d));
    opt (negb (bool_decide (draft_labels d = []))) (say_labels (draft_labels d));
    map (fun e => say_value e.1 (answer_value e.2)) (filter (fun e => ¬ left_alone (answer_value e.2)) (draft_values d)) ].

(** What a create request says, read off its fields. *)
Definition body_says (b : CreateIssueInput) : list IssueAnswer :=
  [in_project (create_projectKey b)] ++ each of_type (create_typeId b) ++ [say_summary (create_summary b)] ++ each say_description (create_description b) ++
  each say_parent (create_parentKey b) ++ each say_priority (create_priority b) ++ each say_assignee (create_assigneeId b) ++
  each say_start (create_startDate b) ++ each say_due (create_dueDate b) ++ each say_team (create_teamId b) ++
  each say_estimate (create_estimate b) ++ each say_sprint (create_sprintId b) ++ each say_components (create_componentIds b).

(** What a request of a later step says of the issue: nothing unless it goes where the
    server takes that answer.  The two lists of versions are set at once. *)
Definition step_says (issueKey : string) (r : StepRequest) : list IssueAnswer :=
  let at_ method path answers := if decide (request_method r = method ∧ request_path r = "/issues/" +:+ issueKey +:+ path) then answers else [] in
  match request_body r with
  | send_reporter id => at_ PATCH EmptyString [say_reporter id]
  | send_timeEstimate minutes => at_ PATCH EmptyString [say_minutes minutes]
  | send_labels names => at_ PUT "/labels"%string [say_labels names]
  | send_versions fix_ affects => at_ PUT "/versions"%string (opt (negb (bool_decide (fix_ = []))) (say_fixVersions fix_) ++ opt (negb (bool_decide (affects = []))) (say_affectsVersions affects))
  | send_milestone id => at_ PUT "/milestone"%string [say_milestone id]
  | send_value v =>
      if decide (request_method r = PUT ∧ startsWith (request_path r) ("/issues/" +:+ issueKey +:+ "/fields/") = true)
      then [say_value (sliceFrom (String.length ("/issues/" +:+ issueKey +:+ "/fields/")) (request_path r)) v] else []
  end.

Lemma each_when_said (f : string → IssueAnswer) s : each f (when_said s) = opt (negb (bool_decide (s = EmptyString))) (f s).
Proof. unfold when_said, truthy. by case_bool_decide. Qed.

Lemma each_when_any (f : list string → IssueAnswer) l : each f (when_any l) = opt (negb (bool_decide (l = []))) (f l).
Proof. by destruct l. Qed.

Lemma prefix_stripped p s : startsWith (p +:+ s) p = true ∧ sliceFrom (String.length p) (p +:+ s) = s.
Proof. induction p as [|c p IH]; [by destruct s|]. cbn. rewrite bool_decide_eq_true_2 by done. exact IH. Qed.

Lemma values_said issueKey values :
  concat (map (step_says issueKey ∘ step_run) (value_steps issueKey values)) =
  map (fun e => say_value e.1 (answer_value e.2)) (filter (fun e => ¬ left_alone (answer_value e.2)) values).
Proof.
  unfold value_steps. induction values as [|[id a] values IH]; [done|]. rewrite omap_cons, filter_cons. cbn [snd].
  assert (says_nothing (answer_value a) = true ↔ left_alone (answer_value a)) as Hn.
  { unfold left_alone. destruct (answer_value a) as [|[]| |]; cbn; intuition congruence. }
  destruct (says_nothing (answer_value a)).
  - rewrite decide_False; [exact IH|]. intros H. apply H. by apply Hn.
  - rewrite decide_True by (intros H; by apply Hn in H). cbn [map concat compose step_run fst]. rewrite IH. unfold step_says. cbn [request_body request_method request_path].
    destruct (prefix_stripped ("/issues/" +:+ issueKey +:+ "/fields/") id) as [Hs Hd].
    replace ("/issues/" +:+ issueKey +:+ "/fields/" +:+ id) with (("/issues/" +:+ issueKey +:+ "/fields/") +:+ id) by by rewrite !app_assoc_s.
    rewrite decide_True by done. by rewrite Hd.
Qed.

(** Blocks put one after the other in any order hold the same. *)
Lemma blocks_anyhow {A} (order : list nat) (blocks : list (list A)) :
  order ≡ₚ seq 0 (length blocks) → concat (map (fun i => nth i blocks []) order) ≡ₚ concat blocks.
Proof.
  intros Ho. rewrite Ho. clear Ho. apply reflexive_eq. f_equal. induction blocks as [|b blocks IH] using rev_ind; [done|].
  rewrite length_app, Nat.add_1_r, seq_S, map_app. cbn [map Nat.add]. rewrite nth_middle. f_equal. rewrite <- IH at 2.
  apply map_ext_in. intros i Hi%in_seq. apply app_nth1. lia.
Qed.

Definition said_alone (body : StepBody) : list IssueAnswer * Method * string :=
  match body with
  | send_reporter id => ([say_reporter id], PATCH, EmptyString)
  | send_timeEstimate minutes => ([say_minutes minutes], PATCH, EmptyString)
  | send_labels names => ([say_labels names], PUT, "/labels"%string)
  | send_milestone id => ([say_milestone id], PUT, "/milestone"%string)
  | _ => ([], GET, EmptyString)
  end.

(** A step sent where the server takes its answer says it. *)
Lemma step_said issueKey body answers method path :
  said_alone body = (answers, method, path) → method ≠ GET → ∀ issue, issue = "/issues/" +:+ issueKey +:+ path →
  step_says issueKey (mkStepRequest method issue body) = answers.
Proof. intros Hs Hm issue ->. destruct body; injection Hs as <- <- <-; try done; unfold step_says; cbn [request_body request_method request_path]; by rewrite decide_True. Qed.

(** What the steps say, in their order. *)
Lemma steps_said words issueKey d :
  concat (map (step_says issueKey ∘ step_run) (steps words issueKey d)) =
  opt (negb (bool_decide (draft_reporterId d = EmptyString))) (say_reporter (draft_reporterId d)) ++
  opt (negb (bool_decide (trim (draft_timeEstimate d) = EmptyString))) (say_minutes (numberOf (draft_timeEstimate d))) ++
  opt (negb (bool_decide (draft_labels d = []))) (say_labels (draft_labels d)) ++
  opt (negb (bool_decide (draft_fixVersionIds d = []))) (say_fixVersions (draft_fixVersionIds d)) ++
  opt (negb (bool_decide (draft_affectsVersionIds d = []))) (say_affectsVersions (draft_affectsVersionIds d)) ++
  opt (negb (bool_decide (draft_milestoneId d = EmptyString))) (say_milestone (draft_milestoneId d)) ++
  map (fun e => say_value e.1 (answer_value e.2)) (filter (fun e => ¬ left_alone (answer_value e.2)) (draft_values d)).
Proof.
  assert (∀ (b : bool) what r said, step_says issueKey r = said →
    concat (map (step_says issueKey ∘ step_run) (if b then [mkApplyStep what r] else [])) = if b then said else []) as Hif
    by (intros [] what r said Hs; [cbn [map concat compose step_run]; by rewrite Hs, app_nil_r|done]).
  unfold steps, truthy. rewrite !map_app, !concat_app, values_said.
  rewrite (Hif _ _ _ [say_reporter (draft_reporterId d)]) by (eapply step_said; [reflexivity|discriminate|]; by rewrite app_empty_r).
  rewrite (Hif _ _ _ [say_minutes (numberOf (draft_timeEstimate d))]) by (eapply step_said; [reflexivity|discriminate|]; by rewrite app_empty_r).
  rewrite (Hif _ _ _ [say_milestone (draft_milestoneId d)]) by (eapply step_said; [reflexivity|discriminate|]; by rewrite app_assoc_s).
  f_equal. f_equal. f_equal.
  { destruct (draft_labels d) as [|l labels]; [done|]. apply (Hif true _ _ [say_labels (l :: labels)]). eapply step_said; [reflexivity|discriminate|]. by rewrite app_assoc_s. }
  rewrite (app_assoc (opt _ (say_fixVersions _))). f_equal.
  destruct (draft_fixVersionIds d) as [|f fs], (draft_affectsVersionIds d) as [|v vs]; [done|..];
    apply (Hif true); unfold step_says; cbn [request_body request_method request_path opt negb bool_decide]; cbv zeta beta;
    rewrite decide_True by (by rewrite app_assoc_s); reflexivity.
Qed.

(** C8: everything the reader said of a new issue is sent, with what was said and to where
    the server takes it, and sent once: what the create request cannot carry follows
    it in a step of its own.  A control left empty and a box not ticked say nothing,
    and nothing else is sent. *)
Theorem answers_sent_once words projectKey typeId issueKey d :
  body_says (createBody d projectKey typeId) ++ concat (map (step_says issueKey ∘ step_run) (steps words issueKey d))
    ≡ₚ concat (told projectKey typeId d).
Proof.
  rewrite <- (blocks_anyhow [0; 1; 2; 3; 7; 4; 5; 8; 9; 12; 13; 10; 15; 6; 14; 18; 16; 17; 11; 19]%nat (told projectKey typeId d))
    by (apply (Permutation_count_occ Nat.eq_dec); intros i; do 20 (destruct i as [|i]; [reflexivity|]); reflexivity).
  rewrite steps_said. apply reflexive_eq. unfold body_says, told, createBody.
  cbn [create_projectKey create_summary create_description create_typeId create_parentKey create_priority create_assigneeId create_startDate
       create_dueDate create_teamId create_estimate create_sprintId create_componentIds map concat nth].
  rewrite !each_when_said, each_when_any, <- !(assoc_L (++)), app_nil_r. unfold truthy.
  by destruct (bool_decide (trim (draft_estimate d) = EmptyString)).
Qed.

(** A server that writes down what it was asked and whether it refused. *)
Definition logged {S} (serve : S → StepRequest → S * option string) (at_ : list (StepRequest * option string) * S) (r : StepRequest) :=
  let '(log, s) := at_ in let '(s', refusal) := serve s r in ((log ++ [(r, refusal)], s'), refusal).

Definition leftovers (asked : list ApplyStep) (log : list (StepRequest * option string)) : list Leftover :=
  omap (fun '(step, (_, refusal)) => mkLeftover (step_what step) <$> refusal) (zip asked log).

Lemma apply_steps_logged {S} (serve : S → StepRequest → S * option string) asked s log refused :
  ∃ more s', foldl (apply_step (logged serve)) ((log, s), refused) asked = ((log ++ more, s'), refused ++ leftovers asked more) ∧
    more.*1 = map step_run asked.
Proof.
  revert s log refused. induction asked as [|step asked IH]; intros s log refused.
  { exists [], s. by rewrite !app_nil_r. }
  cbn [foldl apply_step logged]. destruct (serve s (step_run step)) as [s1 [why|]].
  - destruct (IH s1 (log ++ [(step_run step, Some why)]) (refused ++ [mkLeftover (step_what step) why])) as (more & s' & -> & Hm).
    exists ((step_run step, Some why) :: more), s'. rewrite <- !app_assoc. split; [done|]. by rewrite fmap_cons, Hm.
  - destruct (IH s1 (log ++ [(step_run step, None)]) refused) as (more & s' & -> & Hm).
    exists ((step_run step, None) :: more), s'. rewrite <- !app_assoc. split; [done|]. by rewrite fmap_cons, Hm.
Qed.

(** A refusal stops nothing: every step is asked of the server, in order, and
    what is reported is each refused step with what the server said. *)
Theorem refusal_stops_nothing {S} (serve : S → StepRequest → S * option string) words issueKey d s :
  ∃ log s', applyRest (logged serve) words issueKey d ([], s) = ((log, s'), leftovers (steps words issueKey d) log) ∧
    log.*1 = map step_run (steps words issueKey d).
Proof.
  destruct (apply_steps_logged serve (steps words issueKey d) s [] []) as (more & s' & Hf & Hm). by exists more, s'.
Qed.
