(* ===== verification/PlanTimeline.v ===== *)
(** The plan's calendar as a person works it: [web/src/features/plan/Timeline.tsx]
    and the boxes to type in of [AddRow.tsx].

    What a rendering draws is a [Page], worked out from the plan and the view's
    settings.  What the component keeps is a [Timeline]: its refs and its state.
    A handler runs in the closure of the last rendering, so it reads some of the
    state as that rendering [seen] it and some as it is.  [act] is the whole
    component: what each event does where its handler is attached. *)

From Stdlib Require Import ZArith QArith Qround Qminmax Qabs Lia Lqa Ascii String.
From stdpp Require Import base sets list strings.
From S2P Require Import Prelude JsString JsDate Config Api ApiPlan Scale ScaleFacts Views PlanPieces PlanPiecesFacts IssueForms.

Open Scope Z_scope.

(** ** The plan the server answers with: [api/plan.ts] *)

Record Dependency := mkDependency { dep_linkId : string; dep_blockerKey : string; dep_blockedKey : string }.

Record Plan := mkPlan {
  pl_projectKey : string;
  pl_items : list PlanItem;
  pl_dependencies : list Dependency;
  pl_sprints : list SprintPlan;
  pl_milestones : list Milestone;
  pl_load : Load;
  pl_holidays : list Holiday;
  pl_warnings : list PlanWarning;
  pl_from : string;
  pl_to : string;
  pl_unscheduled : Z;
  pl_unestimated : Z;
  pl_matched : list string;
}.

(** ** What a rendering draws *)

(** The component's properties that decide what is drawn; [None] for the
    filters is [NO_FILTERS]. *)
Record Props := mkProps {
  props_view : PlanView;
  props_cut : Cut;
  props_query : string;
  props_filters : option Filters;
  props_zoom : string;
  props_proposed : option (list (string * (string * string)));
}.

Definition FALLBACK_PANE_WIDTH : Q := 800.

Record Page := mkPage {
  page_projectKey : string;
  page_view : PlanView;
  page_locked : bool;
  page_zoom : Zoom;
  page_scale : Scale;
  page_todayX : Q;
  page_rows : list Row;
  page_byKey : list (string * PlanItem);
  page_types : list TypeRef;
  page_headerHeight : Z;
}.

Definition cut_of (scope : Cut) (query : string) (data : Plan) : Cut :=
  mkCut (cut_closedForDays scope) (if truthy query then Some (set_of (pl_matched data)) else None).

Definition shown_items (props : Props) (data : Plan) (now : Z) : list PlanItem :=
  let kept := cutItems (pl_items data) (cut_of (props_cut props) (props_query props) data) now in
  match props_view props with management => filterItems kept (props_filters props) | _ => kept end.

Definition rows_of (views : ViewWords) (loads : LoadWords) (props : Props) (data : Plan) (now : Z)
    (collapsed : list string) : list Row :=
  rowsFor views (props_view props) (shown_items props data now) (pl_sprints data) collapsed ++
  match props_view props with
  | management => loadRows loads (pl_load data) (default NO_FILTERS (props_filters props)) collapsed
  | _ => []
  end.

Definition byKey_of (data : Plan) : list (string * PlanItem) :=
  jof (map (fun item => (issue_key (item_issue item), item)) (flatten (pl_items data))).

Definition warningsByKey (data : Plan) : list (string * list PlanWarning) :=
  foldl (fun m w => match said (warning_issueKey w) with
                    | Some key => jset m key (default [] (jget m key) ++ [w])
                    | None => m
                    end) [] (pl_warnings data).

(** The warnings listed under the calendar. *)
Definition listed_warnings (view : PlanView) (data : Plan) : list PlanWarning :=
  match view with
  | sprints_view => filter (fun w => given (warning_team w) = false) (pl_warnings data)
  | _ => filter (fun w => given (warning_sprint w) = false ∧ warning_kind w ≠ outside_sprint) (pl_warnings data)
  end.

Definition header_height (view : PlanView) (data : Plan) : Z :=
  layout_total (headerLayout
    (bool_decide (view = sprints_view) &&
     existsb (fun p => given (sprint_startsOn (plan_sprint p)) && given (sprint_endsOn (plan_sprint p))) (pl_sprints data))
    (existsb (fun m => given (milestone_dueOn m)) (pl_milestones data))).

(** [available] is what the pane measured, zero before it has been. [None] is
    a window whose ends are no days. *)
Definition page_of (views : ViewWords) (loads : LoadWords) (props : Props) (data : Plan) (types : list TypeRef)
    (available : Q) (now : Z) (collapsed : list string) : option Page :=
  from ← parse_date (pl_from data);
  to ← parse_date (pl_to data);
  let pane := if Qeq_bool available 0 then FALLBACK_PANE_WIDTH else available in
  let zoom := fitted (zoomFor (props_zoom props)) (day from) (day to) pane in
  let scale := makeScale (day from) (filled (day from) (day to) (zoom_pxPerDay zoom) pane) (zoom_pxPerDay zoom) in
  Some (mkPage (pl_projectKey data) (props_view props) (bool_decide (is_Some (props_proposed props))) zoom scale
    (x_at scale (day now)) (rows_of views loads props data now collapsed) (byKey_of data)
    (filter (fun type => LEVEL_STANDARD <= type_level type) types) (header_height (props_view props) data)).

(** Where a fixed zoom opens the calendar; the fitted one is left where it is. *)
Definition opens_at (page : Page) (clientWidth : Q) : option Q :=
  match zoom_id (page_zoom page) with
  | fit => None
  | _ => Some (Qmax 0 (page_todayX page - clientWidth / 3))
  end.

(** ** What the component keeps *)

Record DragOrigin := mkDragOrigin {
  drag_key : string; drag_mode : DragMode; drag_clientX : Q; drag_from : Z; drag_due : Z;
}.

Inductive EmptyDrag :=
  | create_drag (rowKey : string) (anchorX : Q) (placement : PlanPieces.Placement)
  | schedule_drag (key : string) (anchorX : Q).

Definition anchor_of (e : EmptyDrag) : Q := match e with create_drag _ x _ => x | schedule_drag _ x => x end.

Record Preview := mkPreview { preview_key : string; preview_start : Z; preview_due : Z }.

Record Ghost := mkGhost { ghost_rowKey : string; ghost_start : Z; ghost_due : Z }.

Record LinkOrigin := mkLinkOrigin { link_fromKey : string; link_x0 : Q; link_y0 : Q }.

Record LinkDraft := mkLinkDraft { linkdraft_from : LinkOrigin; linkdraft_x : Q; linkdraft_y : Q; linkdraft_toKey : option string }.

Record Reparent := mkReparent { rep_key : string; rep_clientY0 : Q; rep_started : bool }.

Record Lift := mkLift { lift_key : string; lift_target : option DropTarget; lift_refused : option string }.

Record BoxDraft := mkBoxDraft {
  box_rowKey : string; box_start : Z; box_due : Z; box_placement : PlanPieces.Placement; box_summary : string;
}.

Record AddDraft := mkAddDraft { add_typeId : string; add_summary : string }.

(** The refs and the state, grouped by the gesture they serve. *)
Record Timeline := mkTimeline {
  tl_bar : option DragOrigin * option Preview;
  tl_empty : option EmptyDrag * option Ghost;
  tl_link : option LinkOrigin * option LinkDraft;
  tl_reparent : option Reparent * option Lift;
  tl_refusal : option string;
  tl_draft : option BoxDraft;
  tl_adding : list (string * AddDraft);
  tl_collapsed : list string;
  tl_selected : option Dependency;
}.

Definition timeline_start : Timeline :=
  mkTimeline (None, None) (None, None) (None, None) (None, None) None None [] [] None.

Definition with_bar v (s : Timeline) := mkTimeline v (tl_empty s) (tl_link s) (tl_reparent s) (tl_refusal s) (tl_draft s) (tl_adding s) (tl_collapsed s) (tl_selected s).
Definition with_empty v (s : Timeline) := mkTimeline (tl_bar s) v (tl_link s) (tl_reparent s) (tl_refusal s) (tl_draft s) (tl_adding s) (tl_collapsed s) (tl_selected s).
Definition with_link v (s : Timeline) := mkTimeline (tl_bar s) (tl_empty s) v (tl_reparent s) (tl_refusal s) (tl_draft s) (tl_adding s) (tl_collapsed s) (tl_selected s).
Definition with_reparent v (s : Timeline) := mkTimeline (tl_bar s) (tl_empty s) (tl_link s) v (tl_refusal s) (tl_draft s) (tl_adding s) (tl_collapsed s) (tl_selected s).
Definition with_refusal v (s : Timeline) := mkTimeline (tl_bar s) (tl_empty s) (tl_link s) (tl_reparent s) v (tl_draft s) (tl_adding s) (tl_collapsed s) (tl_selected s).
Definition with_draft v (s : Timeline) := mkTimeline (tl_bar s) (tl_empty s) (tl_link s) (tl_reparent s) (tl_refusal s) v (tl_adding s) (tl_collapsed s) (tl_selected s).
Definition with_adding v (s : Timeline) := mkTimeline (tl_bar s) (tl_empty s) (tl_link s) (tl_reparent s) (tl_refusal s) (tl_draft s) v (tl_collapsed s) (tl_selected s).
Definition with_collapsed v (s : Timeline) := mkTimeline (tl_bar s) (tl_empty s) (tl_link s) (tl_reparent s) (tl_refusal s) (tl_draft s) (tl_adding s) v (tl_selected s).
Definition with_selected v (s : Timeline) := mkTimeline (tl_bar s) (tl_empty s) (tl_link s) (tl_reparent s) (tl_refusal s) (tl_draft s) (tl_adding s) (tl_collapsed s) v.

(** ** What it asks of the server *)

Inductive Asked :=
  | ask_schedule (key startDate dueDate : string)
  | ask_link (key targetKey : string)
  | ask_unlink (key linkId : string)
  | ask_create (body : CreateIssueInput)
  | ask_parent (key : string) (parentKey : option string).

(** What is done once the server has agreed; [filed] holds the row's draft as
    the closure that sent it had it. *)
Inductive OnSuccess :=
  | nothing_more
  | tells_later (key : string)
  | filed (rowKey : string) (draft : AddDraft)
  | unselects.

Record Request := mkRequest { request_asked : Asked; request_success : OnSuccess }.

Definition asks (a : Asked) : list Request := [mkRequest a nothing_more].

(** ** The handlers *)

(** An event of the pointer, with where the chart and the sidebar's rows are
    on the screen as it comes; [onControl] when it is on a link or a button. *)
Record Pointer := mkPointer {
  clientX : Q; clientY : Q; button : Z; onControl : bool; chart_left : Q; chart_top : Q; sidebar_top : Q;
}.

Definition canvasX (e : Pointer) : Q := clientX e - chart_left e.
Definition canvasY (e : Pointer) : Q := clientY e - chart_top e.

Section Handlers.
Context (words : ReparentWords) (page : Page) (seen : Timeline).

Definition toggle (key : string) (s : Timeline) : Timeline :=
  with_collapsed (if decide (key ∈ tl_collapsed s) then filter (fun k => k ≠ key) (tl_collapsed s)
                  else tl_collapsed s ++ [key]) s.

(** [None]: a day that is no date, which the preview's drawing throws on. *)
Definition onPointerDown (e : Pointer) (item : PlanItem) (mode : DragMode) (s : Timeline) : option Timeline :=
  match said (item_start item), said (item_due item) with
  | Some start, Some due =>
      if page_locked page then Some s
      else
        start ← day <$> parse_date start;
        due ← day <$> parse_date due;
        let key := issue_key (item_issue item) in
        Some (with_bar (Some (mkDragOrigin key mode (clientX e) start due), Some (mkPreview key start due)) s)
  | _, _ => Some s
  end.

Definition rowKeyAt (y : Q) (notKey : string) : option string :=
  let i := Qfloor (y / inject_Z PLAN_ROW_HEIGHT) in
  if i <? 0 then None
  else match page_rows page !! Z.to_nat i with
  | Some (IssueRow key _ _ _) => if decide (key = notKey) then None else Some key
  | _ => None
  end.

Definition onLinkPointerDown (e : Pointer) (item : PlanItem) (s : Timeline) : Timeline :=
  if page_locked page || negb (button e =? 0) then s
  else
    let origin := mkLinkOrigin (issue_key (item_issue item)) (canvasX e) (canvasY e) in
    with_link (Some origin, Some (mkLinkDraft origin (canvasX e) (canvasY e) None)) s.

(** [start] makes the drag of its anchor. *)
Definition onEmptyPointerDown (e : Pointer) (start : Q → EmptyDrag) (s : Timeline) : Timeline :=
  if page_locked page || negb (button e =? 0) then s
  else with_empty (Some (start (canvasX e)), (tl_empty s).2) s.

Definition onPointerMove (e : Pointer) (s : Timeline) : Timeline :=
  match (tl_link s).1, (tl_empty s).1, (tl_bar s).1 with
  | Some linking, _, _ =>
      with_link (Some linking, Some (mkLinkDraft linking (canvasX e) (canvasY e)
                                       (rowKeyAt (canvasY e) (link_fromKey linking)))) s
  | None, Some empty, _ =>
      let '(start, due) := dragRange (page_scale page) (anchor_of empty) (canvasX e) in
      let rowKey := match empty with create_drag rowKey _ _ => rowKey | schedule_drag key _ => key end in
      with_empty (Some empty, Some (mkGhost rowKey start due)) s
  | None, None, Some origin =>
      let days := js_round ((clientX e - drag_clientX origin) / sc_pxPerDay (page_scale page)) in
      let '(start, due) := applyDrag (drag_from origin) (drag_due origin) (drag_mode origin) days in
      with_bar (Some origin, Some (mkPreview (drag_key origin) start due)) s
  | None, None, None => s
  end.

(** A bar let go where the closure's preview has it. *)
Definition release_bar (origin : DragOrigin) (preview : Preview) : list Request :=
  if negb (daysBetween (drag_from origin) (preview_start preview) =? 0) ||
     negb (daysBetween (drag_due origin) (preview_due preview) =? 0)
  then [mkRequest (ask_schedule (drag_key origin) (isoDay (preview_start preview)) (isoDay (preview_due preview)))
          (if 0 <? daysBetween (drag_due origin) (preview_due preview) then tells_later (drag_key origin) else nothing_more)]
  else [].

Definition onPointerUp (e : Pointer) (s : Timeline) : Timeline * list Request :=
  match (tl_link s).1, (tl_empty s).1 with
  | Some linking, _ =>
      (with_link (None, None) s,
       match rowKeyAt (canvasY e) (link_fromKey linking) with
       | Some toKey => asks (ask_link (link_fromKey linking) toKey)
       | None => []
       end)
  | None, Some empty =>
      let s := with_empty (None, None) s in
      if negb (isRealDrag (anchor_of empty) (canvasX e) (inject_Z PLAN_DRAG_THRESHOLD_PX)) then (s, [])
      else
        let '(start, due) := dragRange (page_scale page) (anchor_of empty) (canvasX e) in
        match empty with
        | schedule_drag key _ => (s, asks (ask_schedule key (isoDay start) (isoDay due)))
        | create_drag rowKey _ placement => (with_draft (Some (mkBoxDraft rowKey start due placement EmptyString)) s, [])
        end
  | None, None =>
      (with_bar (None, None) s,
       match (tl_bar s).1, (tl_bar seen).2 with
       | Some origin, Some preview => release_bar origin preview
       | _, _ => []
       end)
  end.

Definition addDraftFor (rowKey : string) : AddDraft :=
  default (mkAddDraft (default EmptyString (type_id <$> head (page_types page))) EmptyString) (jget (tl_adding seen) rowKey).

Definition setAddDraft (rowKey : string) (next : AddDraft) (s : Timeline) : Timeline :=
  with_adding (jset (tl_adding s) rowKey next) s.

Definition file (rowKey : string) (placement : PlanPieces.Placement) (summary : string) (range : option (Z * Z)) : list Request :=
  if negb (truthy (trim summary)) then []
  else [mkRequest
    (ask_create
      {| create_projectKey := page_projectKey page; create_summary := trim summary; create_description := None;
         create_typeId := when_said (add_typeId (addDraftFor rowKey)); create_parentKey := None;
         create_priority := None; create_assigneeId := None;
         create_startDate := (fun r => isoDay r.1) <$> range; create_dueDate := (fun r => isoDay r.2) <$> range;
         create_teamId := placement_teamId placement; create_estimate := None;
         create_sprintId := placement_sprintId placement; create_componentIds := None |})
    (filed rowKey (mkAddDraft (add_typeId (addDraftFor rowKey)) EmptyString))].

Definition putOnPlan (item : PlanItem) (now : Z) : list Request :=
  if page_locked page then []
  else asks (ask_schedule (issue_key (item_issue item)) (isoDay (day now)) (isoDay (addDays (day now) PLAN_DEFAULT_SPAN_DAYS))).

Definition onRowPointerDown (e : Pointer) (key : string) (s : Timeline) : Timeline :=
  if page_locked page || negb (bool_decide (page_view page = management)) || negb (button e =? 0) || onControl e then s
  else with_reparent (Some (mkReparent key (clientY e) false), (tl_reparent s).2) s.

Definition rowsY (e : Pointer) : Q := clientY e - sidebar_top e - inject_Z (page_headerHeight page).

Definition lift_at (e : Pointer) (key : string) : Lift :=
  let target := rowAt (page_rows page) (rowsY e) in
  mkLift key target
    (match target, jget (page_byKey page) key with
     | Some target, Some dragged =>
         match decide_drop words dragged target with decide_refused why => Some why | _ => None end
     | _, _ => None
     end).

Definition onSidebarPointerMove (e : Pointer) (s : Timeline) : Timeline :=
  match (tl_reparent s).1 with
  | None => s
  | Some drag =>
      if negb (rep_started drag) && negb (Qle_bool (inject_Z PLAN_DRAG_THRESHOLD_PX) (Qabs (clientY e - rep_clientY0 drag)))
      then s
      else with_reparent (Some (mkReparent (rep_key drag) (rep_clientY0 drag) true), Some (lift_at e (rep_key drag))) s
  end.

(** The parent a decision gives. *)
Definition parent_of (d : Decision) : option string :=
  match d with decide_into key => Some key | decide_beside parentKey => parentKey | _ => None end.

Definition onSidebarPointerUp (e : Pointer) (s : Timeline) : Timeline * list Request :=
  let s' := with_reparent (None, None) s in
  match (tl_reparent s).1 with
  | None => (s', [])
  | Some drag =>
      if negb (rep_started drag) then (s', [])
      else match rowAt (page_rows page) (rowsY e), jget (page_byKey page) (rep_key drag) with
      | Some target, Some dragged =>
          match decide_drop words dragged target with
          | decide_refused why => (with_refusal (Some why) s', [])
          | decision =>
              (with_refusal None s',
               if decide (issue_parentKey (item_issue dragged) = parent_of decision) then []
               else asks (ask_parent (rep_key drag) (parent_of decision)))
          end
      | _, _ => (s', [])
      end
  end.

(** Keys in the two boxes a summary is typed in: [AddRow.tsx]. *)
Definition addKeyDown (key rowKey : string) (group : option GroupRow) (s : Timeline) : Timeline * list Request :=
  let draft := addDraftFor rowKey in
  if decide (key = "Enter"%string) then
    (s, if truthy (trim (add_summary draft)) then file rowKey (placementFor group) (add_summary draft) None else [])
  else if decide (key = "Escape"%string) then (setAddDraft rowKey (mkAddDraft (add_typeId draft) EmptyString) s, [])
  else (s, []).

Definition draftChange (summary : string) (s : Timeline) : Timeline :=
  with_draft ((fun d => mkBoxDraft (box_rowKey d) (box_start d) (box_due d) (box_placement d) summary) <$> tl_draft s) s.

Definition draftKeyDown (key : string) (s : Timeline) : Timeline * list Request :=
  match tl_draft seen with
  | None => (s, [])
  | Some d =>
      if decide (key = "Enter"%string) then
        (s, if truthy (trim (box_summary d))
            then file (box_rowKey d) (box_placement d) (box_summary d) (Some (box_start d, box_due d)) else [])
      else if decide (key = "Escape"%string) then (with_draft None s, [])
      else (s, [])
  end.

Definition draftBlur (s : Timeline) : Timeline :=
  match tl_draft seen with
  | Some d => if truthy (trim (box_summary d)) then s else with_draft None s
  | None => s
  end.

(** [onSuccess] of the requests, and what the page is told with it. *)
Definition succeeded (c : OnSuccess) (s : Timeline) : Timeline :=
  match c with
  | filed rowKey draft => with_draft None (setAddDraft rowKey draft s)
  | unselects => with_selected None s
  | nothing_more | tells_later _ => s
  end.

(** The bar of a row: where it is drawn, if it has one. *)
Definition drawn_bar (item : PlanItem) : option (option (Q * Q)) :=
  match (tl_bar seen).2 with
  | Some p =>
      if decide (preview_key p = issue_key (item_issue item))
      then barFor (page_scale page) (Some (isoDay (preview_start p))) (Some (isoDay (preview_due p)))
      else barFor (page_scale page) (item_start item) (item_due item)
  | None => barFor (page_scale page) (item_start item) (item_due item)
  end.
End Handlers.

(** ** The component as a whole *)

(** [se_page] and [se_seen] belong to the last rendering, [se_now] is what the
    component keeps; the rest is what it has asked and told so far. *)
Record Session := mkSession {
  se_page : Page;
  se_seen : Timeline;
  se_now : Timeline;
  se_asked : list Request;
  se_told : list string;
}.

(** Rows are named by their place on the page. *)
Inductive Event :=
  | Rendered (props : Props) (data : Plan) (types : list TypeRef) (available : Q) (now : Z)
  | Toggled (i : nat)
  | BarPressed (e : Pointer) (i : nat) (mode : DragMode)
  | LinkPressed (e : Pointer) (i : nat)
  | EmptyPressed (e : Pointer) (i : nat)
  | Moved (e : Pointer)
  | Released (e : Pointer)
  | AddTyped (i : nat) (summary : string)
  | AddTypeChosen (i : nat) (typeId : string)
  | AddKey (i : nat) (key : string)
  | DraftTyped (summary : string)
  | DraftKey (key : string)
  | DraftLeft
  | PutOnPlan (i : nat) (now : Z)
  | RowPressed (e : Pointer) (i : nat)
  | SidebarMoved (e : Pointer)
  | SidebarReleased (e : Pointer)
  | Selected (d : Dependency)
  | Removed (d : Dependency)
  | Succeeded (n : nat).

Definition keeps (s : Session) (t : Timeline) : Session :=
  mkSession (se_page s) (se_seen s) t (se_asked s) (se_told s).

Definition does (s : Session) (r : Timeline * list Request) : Session :=
  mkSession (se_page s) (se_seen s) r.1 (se_asked s ++ r.2) (se_told s).

Definition told_of (c : OnSuccess) : list string := match c with tells_later key => [key] | _ => [] end.

Section Component.
Context (views : ViewWords) (loads : LoadWords) (words : ReparentWords).

(** What an event does where a handler for it is attached; elsewhere nothing
    happens.  [None] is a drawing or a handler that throws. *)
Definition act (s : Session) (ev : Event) : option Session :=
  let page := se_page s in
  let seen := se_seen s in
  let now_ := se_now s in
  match ev with
  | Rendered props data types available now =>
      page' ← page_of views loads props data types available now (tl_collapsed now_);
      Some (mkSession page' now_ now_ (se_asked s) (se_told s))
  | Toggled i =>
      Some match page_rows page !! i with
      | Some (GroupRowOf g) => keeps s (toggle (group_key g) now_)
      | Some (IssueRow key _ true _) => keeps s (toggle key now_)
      | _ => s
      end
  | BarPressed e i mode =>
      match page_rows page !! i with
      | Some (IssueRow _ item _ _) =>
          match drawn_bar page seen item with
          | Some _ => keeps s <$> onPointerDown page e item mode now_
          | None => Some s
          end
      | _ => Some s
      end
  | LinkPressed e i =>
      Some match page_rows page !! i with
      | Some (IssueRow _ item _ _) =>
          match drawn_bar page seen item with Some _ => keeps s (onLinkPointerDown page e item now_) | None => s end
      | _ => s
      end
  | EmptyPressed e i =>
      Some match page_rows page !! i with
      | Some (IssueRow key item _ _) =>
          match drawn_bar page seen item with
          | Some _ => s
          | None => keeps s (onEmptyPointerDown page e (schedule_drag key) now_)
          end
      | Some (AddRow key _ group) =>
          if decide ((box_rowKey <$> tl_draft seen) = Some key) then s
          else keeps s (onEmptyPointerDown page e (fun x => create_drag key x (placementFor group)) now_)
      | _ => s
      end
  | Moved e => Some (keeps s (onPointerMove page e now_))
  | Released e => Some (does s (onPointerUp page seen e now_))
  | AddTyped i summary =>
      Some match page_rows page !! i with
      | Some (AddRow key _ _) => keeps s (setAddDraft key (mkAddDraft (add_typeId (addDraftFor page seen key)) summary) now_)
      | _ => s
      end
  | AddTypeChosen i typeId =>
      Some match page_rows page !! i with
      | Some (AddRow key _ _) => keeps s (setAddDraft key (mkAddDraft typeId (add_summary (addDraftFor page seen key))) now_)
      | _ => s
      end
  | AddKey i key =>
      Some match page_rows page !! i with
      | Some (AddRow rowKey _ group) => does s (addKeyDown page seen key rowKey group now_)
      | _ => s
      end
  | DraftTyped summary => Some (keeps s (draftChange summary now_))
  | DraftKey key => Some (does s (draftKeyDown page seen key now_))
  | DraftLeft => Some (keeps s (draftBlur seen now_))
  | PutOnPlan i now =>
      Some match page_rows page !! i with
      | Some (IssueRow _ item _ _) =>
          match drawn_bar page seen item with Some _ => s | None => does s (now_, putOnPlan page item now) end
      | _ => s
      end
  | RowPressed e i =>
      Some match page_rows page !! i with
      | Some (IssueRow key _ _ _) => keeps s (onRowPointerDown page e key now_)
      | _ => s
      end
  | SidebarMoved e => Some (keeps s (onSidebarPointerMove words page e now_))
  | SidebarReleased e => Some (does s (onSidebarPointerUp words page e now_))
  | Selected d => Some (keeps s (with_selected (Some d) now_))
  | Removed d => Some (does s (now_, [mkRequest (ask_unlink (dep_blockerKey d) (dep_linkId d)) unselects]))
  | Succeeded n =>
      Some match se_asked s !! n with
      | Some r => mkSession page seen (succeeded (request_success r) now_) (se_asked s) (se_told s ++ told_of (request_success r))
      | None => s
      end
  end.

Fixpoint acts (s : Session) (evs : list Event) : option Session :=
  match evs with [] => Some s | ev :: evs => s' ← act s ev; acts s' evs end.
End Component.

(** ** Arrows between bars: [DependencyArrows] *)

Definition ARROW_INSET : Q := 8.

Inductive PathCommand := MoveTo (x y : Q) | Horizontal (x : Q) | Vertical (y : Q).

Record Arrow := mkArrow { arrow_d : list PathCommand; arrow_handle : Q * Q }.

Definition arrowPath (fromX fromY toX toY : Q) : Arrow :=
  let elbow := Qmax (fromX + ARROW_INSET) (toX - ARROW_INSET) in
  mkArrow [MoveTo fromX fromY; Horizontal elbow; Vertical toY; Horizontal toX] (elbow, (fromY + toY) / 2)%Q.

Definition rowIndex (rows : list Row) : list (string * nat) :=
  jof (omap id (imap (fun i r => match r with IssueRow key _ _ _ => Some (key, i) | _ => None end) rows)).

Definition row_middle (rows : list Row) (key : string) : Q :=
  inject_Z (Z.of_nat (default 0%nat (jget (rowIndex rows) key)) * PLAN_ROW_HEIGHT) + inject_Z PLAN_ROW_HEIGHT / 2.

(** An arrow for each dependency whose two bars are drawn. *)
Definition arrow_for (s : Scale) (rows : list Row) (d : Dependency) : option (Dependency * Arrow) :=
  let byKey := jof (omap (fun r => match r with IssueRow key item _ _ => Some (key, item) | _ => None end) rows) in
  blocker ← jget byKey (dep_blockerKey d);
  blocked ← jget byKey (dep_blockedKey d);
  due ← said (item_due blocker) ≫= parse_date;
  start ← said (item_start blocked) ≫= parse_date;
  Some (d, arrowPath (x_at s due + sc_pxPerDay s) (row_middle rows (dep_blockerKey d))
             (x_at s start) (row_middle rows (dep_blockedKey d))).

Definition arrows (s : Scale) (rows : list Row) (dependencies : list Dependency) : list (Dependency * Arrow) :=
  omap (arrow_for s rows) dependencies.

(** What is pointed at; [hover_linger] is whether the timer that lets go of it runs. *)
Record Hover := mkHover { hovered : option string; hover_linger : bool }.

Inductive HoverEvent := hot (linkId : string) | cool | linger_over.

Definition hover_step (h : Hover) (e : HoverEvent) : Hover :=
  match e with
  | hot linkId => mkHover (Some linkId) false
  | cool => mkHover (hovered h) true
  | linger_over => if hover_linger h then mkHover None false else h
  end.

(** The arrow whose remove control is shown. *)
Definition control_of (paths : list (Dependency * Arrow)) (h : Hover) (selected : option Dependency)
  : option (Dependency * Arrow) :=
  match hovered h with
  | Some id => head (filter (fun p => dep_linkId p.1 = id) paths)
  | None =>
      match selected with
      | Some d => head (filter (fun p => dep_linkId p.1 = dep_linkId d) paths)
      | None => None
      end
  end.
