(* ===== verification/PlanTimelineFacts.v ===== *)
(** What the plan's calendar does with every gesture: facts on [PlanTimeline]. *)

From Stdlib Require Import ZArith QArith Qround Qminmax Qabs Lia Lqa Ascii String.
From stdpp Require Import base sets list strings.
From S2P Require Import Prelude JsString JsDate Config Api ApiPlan Scale ScaleFacts Views ViewsFacts PlanPieces PlanPiecesFacts IssueForms PlanTimeline.

Open Scope Z_scope.

(** ** Items keep their days on the way to a row *)

(** Whether an item begins before it is due, as far as it says when. *)
Definition in_order (i : PlanItem) : Prop :=
  ∀ s d a b, item_start i = Some s → item_due i = Some d → parse_date s = Some a → parse_date d = Some b → day a <= day b.

Lemma Forall_kept {A} (P Q : A → Prop) `{∀ x, base.Decision (Q x)} (l : list A) : Forall P l → Forall P (filter Q l).
Proof. rewrite !Forall_forall. intros H' x [_ Hx]%list_elem_of_filter. by apply H'. Qed.

Section Rows.
Context (P : PlanItem → Prop).
Hypothesis P_children : ∀ i cs, P i → P (with_children i cs).
Hypothesis P_flat : ∀ i, P i → P (flat_item i).

Lemma keep_item_all keep i : Forall P (flatten_item i) → Forall P (flatten (keep_item keep i)).
Proof using P_children.
  induction i as [issue depth start due derived est estd prog children IH] using PlanItem_ind'.
  cbn [keep_item flatten_item item_children]. set (i := mkPlanItem _ _ _ _ _ _ _ _ _).
  intros [Hi Hcs]%Forall_cons. destruct (keep i || _); [|constructor].
  unfold flatten. cbn [flat_map]. rewrite app_nil_r.
  cbn [flatten_item with_children item_children]. constructor; [by apply (P_children i)|].
  clearbody i. clear Hi. induction IH as [|c children Hc _ IH]; [constructor|]. cbn [flat_map] in *.
  apply Forall_app in Hcs as [Hc' Hcs]. rewrite flat_map_app. apply Forall_app. split; [by apply Hc|by apply IH].
Qed.

Lemma keepWhere_all keep items : Forall P (flatten items) → Forall P (flatten (keepWhere items keep)).
Proof using P_children.
  unfold flatten, keepWhere. induction items as [|i items IH]; [done|]. cbn [flat_map].
  intros [Hi Hs]%Forall_app. rewrite flat_map_app. apply Forall_app. split; [by apply keep_item_all|by apply IH].
Qed.

Lemma shown_items_all props data now : Forall P (flatten (pl_items data)) → Forall P (flatten (shown_items props data now)).
Proof using P_children.
  intros H. unfold shown_items, filterItems.
  assert (∀ c, Forall P (flatten (cutItems (pl_items data) c now))) as Hc.
  { intros [[?|] [?|]]; cbn [cutItems]; try apply keepWhere_all; done. }
  destruct (props_view props); [destruct (props_filters props); [apply keepWhere_all|]; apply Hc|apply Hc|apply Hc].
Qed.

Lemma group_rows_all collapsed key label sprint members :
  Forall P members → Forall P (omap row_item (group_rows collapsed key label sprint members)).
Proof using.
  intros H. unfold group_rows. rewrite omap_cons. cbn [row_item]. destruct (bool_decide _); [constructor|].
  rewrite omap_app, omap_cons. cbn [row_item]. rewrite app_nil_r.
  induction H; [constructor|]. cbn [map]. rewrite omap_cons. cbn [row_item]. by constructor.
Qed.

Lemma sprintRows_all words items sprints collapsed :
  Forall P (flatten items) → Forall P (omap row_item (sprintRows words items sprints collapsed)).
Proof using P_flat.
  intros H. assert (Forall P (iteration_items items)) as Hit.
  { unfold iteration_items. apply Forall_fmap. apply Forall_kept. eapply Forall_impl; [exact H|]. intros i Hi. by apply P_flat. }
  unfold sprintRows. rewrite omap_app. apply Forall_app. split; [|apply group_rows_all; by apply Forall_kept].
  cbv zeta. set (all := iteration_items items) in *. clearbody all. induction sprints as [|p l IH]; [constructor|]. cbn [flat_map].
  rewrite omap_app. apply Forall_app. split; [|exact IH]. apply group_rows_all. by apply Forall_kept.
Qed.

Lemma rows_of_all views loads props data now collapsed :
  Forall P (flatten (pl_items data)) → Forall P (omap row_item (rows_of views loads props data now collapsed)).
Proof using P_children P_flat.
  intros H. pose proof (shown_items_all props data now H) as Hs. unfold rows_of. rewrite omap_app. apply Forall_app. split.
  - assert (Forall P (omap row_item (hierarchyRows (shown_items props data now) collapsed ++
                        [AddRow PLAN_ADD_KEY (word_addToPlan views) None]))) as Hh.
    { rewrite omap_app, omap_cons. cbn [row_item]. rewrite app_nil_r.
      apply Forall_forall. intros x Hx. rewrite Forall_forall in Hs. apply Hs. eapply elem_of_submseteq; [exact Hx|].
      apply sublist_submseteq. exact (proj2 (hierarchyRows_rows (shown_items props data now) collapsed)). }
    destruct (props_view props); [exact Hh|by apply sprintRows_all|exact Hh].
  - destruct (props_view props); [|constructor|constructor]. unfold loadRows.
    destruct (negb _ || negb _); [constructor|]. rewrite omap_cons. cbn [row_item].
    destruct (bool_decide _); [constructor|].
    match goal with |- context [map _ ?l] => generalize l end. intros l.
    induction l as [|r l IH]; [constructor|]. cbn [map]. rewrite omap_cons. exact IH.
Qed.
End Rows.

(** ** Every request the calendar sends *)

Definition page_ok (p : Page) : Prop := Forall in_order (omap row_item (page_rows p)).

(** The ranges the component holds are the right way round. *)
Record held_ok (t : Timeline) : Prop := {
  held_drag : ∀ o, (tl_bar t).1 = Some o → drag_from o <= drag_due o;
  held_preview : ∀ p, (tl_bar t).2 = Some p → preview_start p <= preview_due p;
  held_draft : ∀ d, tl_draft t = Some d → box_start d <= box_due d;
}.

Definition range_ok (start due : string) : Prop := ∃ a b, start = isoDay a ∧ due = isoDay b ∧ a <= b.

Lemma range_ok_days a b : a <= b → range_ok (isoDay a) (isoDay b).
Proof. intros H. exists a, b. split; [reflexivity|split; [reflexivity|exact H]]. Qed.

(** The parent an issue may be given by a drop on the sidebar: none by a drop above the
    rows, where it is no subtask; by a drop on a row the issue of that row, where it is
    one level up, or that issue's own parent, where the two are on one level and no
    subtask is left without one; and never anything beneath it. *)
Definition may_have (dragged : PlanItem) (target : DropTarget) (parentKey : option string) : Prop :=
  let level i := type_level (issue_type (item_issue i)) in
  match target with
  | drop_top => parentKey = None ∧ LEVEL_STANDARD <= level dragged
  | drop_row o =>
      issue_key (item_issue o) ∉ map (fun i => issue_key (item_issue i)) (flatten_item dragged) ∧
      (level o = level dragged + 1 ∧ parentKey = Some (issue_key (item_issue o)) ∨
       level o = level dragged ∧ parentKey = issue_parentKey (item_issue o) ∧ (level dragged < LEVEL_STANDARD → given parentKey = true))
  end.

(** What a request may be that is sent for an event while [page] is drawn: days from a
    first to a last that is not before it; a dependency between two issues, the second
    one of the rows; the end of the very dependency whose control was clicked; a ticket of this
    project with a title, and with both days or none; and a new parent when the sidebar's
    drag ends, for an issue of the plan, one it may have where it was let go and that is
    a change. *)
Definition asked_ok (page : Page) (ev : Event) (a : Asked) : Prop :=
  match a with
  | ask_schedule _ start due => range_ok start due
  | ask_link key target => key ≠ target ∧ ∃ item b c, IssueRow target item b c ∈ page_rows page
  | ask_unlink key linkId => ∃ d, ev = Removed d ∧ key = dep_blockerKey d ∧ linkId = dep_linkId d
  | ask_create body =>
      create_projectKey body = page_projectKey page ∧
      truthy (create_summary body) = true ∧ trim (create_summary body) = create_summary body ∧
      match create_startDate body, create_dueDate body with
      | Some start, Some due => range_ok start due
      | None, None => True
      | _, _ => False
      end
  | ask_parent key parentKey =>
      ∃ e dragged target, ev = SidebarReleased e ∧ jget (page_byKey page) key = Some dragged ∧
        rowAt (page_rows page) (rowsY page e) = Some target ∧ may_have dragged target parentKey ∧
        issue_parentKey (item_issue dragged) ≠ parentKey
  end.

Record session_ok (s : Session) : Prop := {
  ok_page : page_ok (se_page s);
  ok_seen : held_ok (se_seen s);
  ok_now : held_ok (se_now s);
}.

(** A rendering's plan has every item's days the right way round. *)
Definition event_ok (ev : Event) : Prop :=
  match ev with Rendered _ data _ _ _ => Forall in_order (flatten (pl_items data)) | _ => True end.

Lemma in_order_children i cs : in_order i → in_order (with_children i cs).
Proof. done. Qed.

Lemma in_order_flat i : in_order i → in_order (flat_item i).
Proof. done. Qed.

Lemma page_of_ok views loads props data types available now collapsed p :
  page_of views loads props data types available now collapsed = Some p →
  Forall in_order (flatten (pl_items data)) → page_ok p.
Proof.
  unfold page_of. destruct (parse_date (pl_from data)); [|done]. destruct (parse_date (pl_to data)); [|done].
  cbn. intros [= <-] H. unfold page_ok. cbn [page_rows]. by apply rows_of_all.
Qed.

Lemma dragRange_ordered s x y : (dragRange s x y).1 <= (dragRange s x y).2.
Proof. unfold dragRange. cbn [fst snd]. destruct (Z.ltb_spec (if daysBetween (day (dateAt s (Qmin x y))) (day (dateAt s (Qmax x y))) <? 0 then day (dateAt s (Qmin x y)) else day (dateAt s (Qmax x y))) (day (dateAt s (Qmin x y)))); lia. Qed.

Lemma applyDrag_keeps_order start due mode days :
  start <= due → (applyDrag start due mode days).1 <= (applyDrag start due mode days).2.
Proof.
  intros H. unfold applyDrag. destruct (days =? 0); [done|].
  destruct mode; cbn [fst snd]; [unfold addDays; lia|destruct (Z.ltb_spec due (addDays start days)); lia|
    destruct (Z.ltb_spec (addDays due days) start); lia].
Qed.

Lemma held_ok_bar t v :
  held_ok t → (∀ o, v.1 = Some o → drag_from o <= drag_due o) → (∀ p, v.2 = Some p → preview_start p <= preview_due p) →
  held_ok (with_bar v t).
Proof. intros [? ? Hd] H1 H2. split; [exact H1|exact H2|exact Hd]. Qed.

Lemma held_ok_draft t v : held_ok t → (∀ d, v = Some d → box_start d <= box_due d) → held_ok (with_draft v t).
Proof. intros [Ho Hp ?] H. split; [exact Ho|exact Hp|exact H]. Qed.

(** A change that leaves the ranges alone. *)
Lemma held_ok_same t t' : held_ok t → tl_bar t' = tl_bar t → tl_draft t' = tl_draft t → held_ok t'.
Proof. intros [Ho Hp Hd] E1 E2. split; [rewrite E1; exact Ho|rewrite E1; exact Hp|rewrite E2; exact Hd]. Qed.

Ltac same := eapply held_ok_same; [eassumption|reflexivity|reflexivity].

Lemma session_keeps s t : session_ok s → held_ok t → session_ok (keeps s t).
Proof. intros [] H. by split. Qed.

Lemma session_does s b : session_ok s → held_ok b.1 → session_ok (does s b).
Proof. intros [] H. by split. Qed.

Lemma page_row_ok p i key item b c : page_ok p → page_rows p !! i = Some (IssueRow key item b c) → in_order item.
Proof.
  intros H Hi. unfold page_ok in H. rewrite Forall_forall in H. apply H. apply list_elem_of_omap.
  exists (IssueRow key item b c). split; [|done]. by eapply list_elem_of_lookup_2.
Qed.

Lemma press_ok p e item mode t t' : in_order item → held_ok t → onPointerDown p e item mode t = Some t' → held_ok t'.
Proof.
  intros Hin Ht. unfold onPointerDown, said.
  destruct (item_start item) as [s|] eqn:Es; [|intros [= <-]; done]. destruct (truthy s); [|intros [= <-]; done].
  destruct (item_due item) as [d|] eqn:Ed; [|intros [= <-]; done]. destruct (truthy d); [|intros [= <-]; done].
  destruct (page_locked p); [intros [= <-]; done|].
  destruct (parse_date s) as [a|] eqn:Ea; [|done]. destruct (parse_date d) as [b|] eqn:Eb; [|done].
  cbn. intros [= <-]. pose proof (Hin s d a b Es Ed Ea Eb) as Hab.
  apply held_ok_bar; [done|..]; cbn; intros ? [= <-]; exact Hab.
Qed.

Lemma move_ok p e t : held_ok t → held_ok (onPointerMove p e t).
Proof.
  intros Ht. unfold onPointerMove. destruct ((tl_link t).1); [same|]. destruct ((tl_empty t).1) as [em|].
  { destruct (dragRange _ _ _). same. }
  destruct ((tl_bar t).1) as [o|] eqn:Eo; [|done].
  pose proof (applyDrag_keeps_order (drag_from o) (drag_due o) (drag_mode o)
    (js_round ((clientX e - drag_clientX o) / sc_pxPerDay (page_scale p))) (held_drag t Ht o Eo)) as Hord.
  destruct (applyDrag _ _ _ _) as [a b]. apply held_ok_bar; [exact Ht|intros o' E; injection E as <-; exact (held_drag t Ht o Eo)|intros pv E; injection E as <-; exact Hord].
Qed.

Lemma release_bar_ok p ev o pv :
  preview_start pv <= preview_due pv → Forall (fun r => asked_ok p ev (request_asked r)) (release_bar o pv).
Proof.
  intros H. unfold release_bar. destruct (_ || _); [|constructor]. constructor; [|constructor].
  by apply range_ok_days.
Qed.

Lemma rowKeyAt_other p y k k' : rowKeyAt p y k = Some k' → k ≠ k' ∧ ∃ item b c, IssueRow k' item b c ∈ page_rows p.
Proof.
  unfold rowKeyAt. destruct (_ <? 0); [done|]. destruct (page_rows p !! _) as [[key item b c| | |]|] eqn:E; try done.
  case_decide; [done|]. intros [= <-]. split; [by intros ->|]. exists item, b, c. by eapply list_elem_of_lookup_2.
Qed.

Lemma release_ok ev p seen e t :
  held_ok seen → held_ok t →
  held_ok (onPointerUp p seen e t).1 ∧ Forall (fun r => asked_ok p ev (request_asked r)) (onPointerUp p seen e t).2.
Proof.
  intros Hs Ht. unfold onPointerUp. destruct ((tl_link t).1) as [l|].
  { split; [same|]. cbn [snd]. destruct (rowKeyAt p (canvasY e) (link_fromKey l)) as [k|] eqn:E; [|constructor].
    constructor; [|constructor]. cbn. by eapply rowKeyAt_other. }
  destruct ((tl_empty t).1) as [em|].
  { cbv zeta. assert (held_ok (with_empty (None, None) t)) as Ht' by same.
    destruct (negb _); [by split|].
    pose proof (dragRange_ordered (page_scale p) (anchor_of em) (canvasX e)) as Hord.
    destruct (dragRange _ _ _) as [a b]. cbn in Hord. destruct em; split; cbn [fst snd]; try done.
    - apply held_ok_draft; [done|]. by intros ? [= <-].
    - constructor; [|constructor]. by apply range_ok_days. }
  split; cbn [fst snd].
  - by apply held_ok_bar.
  - destruct ((tl_bar t).1); [|constructor]. destruct ((tl_bar seen).2) as [pv|] eqn:Ep; [|constructor].
    apply release_bar_ok. by apply (held_preview seen Hs).
Qed.

Lemma file_ok ev p seen rowKey placement summary range :
  (∀ r, range = Some r → r.1 <= r.2) →
  Forall (fun r => asked_ok p ev (request_asked r)) (file p seen rowKey placement summary range).
Proof.
  intros H. unfold file. destruct (truthy (trim summary)) eqn:E; cbn [negb]; [|constructor].
  constructor; [|constructor]. cbn [request_asked asked_ok create_summary create_startDate create_dueDate].
  split_and!; [done|exact E|apply trim_idem|]. destruct range as [[a b]|]; [|exact I]. by apply range_ok_days, (H (a, b)).
Qed.

Lemma drop_may_have words dragged target :
  match decide_drop words dragged target with
  | decide_refused _ => True
  | d => may_have dragged target (parent_of d)
  end.
Proof.
  pose proof (drop_allowed words dragged target) as H. destruct (decide_drop words dragged target), target; cbn [allowed may_have parent_of] in *; try done.
  - destruct H as (-> & ? & ?). split; [done|by left].
  - destruct H as (-> & ? & ? & ?). split; [done|by right].
Qed.

Lemma sidebar_ok words p e t :
  held_ok t →
  held_ok (onSidebarPointerUp words p e t).1 ∧
  Forall (fun r => asked_ok p (SidebarReleased e) (request_asked r)) (onSidebarPointerUp words p e t).2.
Proof.
  intros Ht. unfold onSidebarPointerUp. assert (held_ok (with_reparent (None, None) t)) as Ht' by same.
  destruct ((tl_reparent t).1) as [drag|]; [|by split].
  destruct (negb (rep_started drag)); [by split|].
  destruct (rowAt _ _) as [target|] eqn:Et; [|by split]. destruct (jget (page_byKey p) (rep_key drag)) as [dragged|] eqn:Ed; [|by split].
  pose proof (drop_may_have words dragged target) as Hmay.
  destruct (decide_drop words dragged target); (split; cbn [fst snd]; [same|]);
    try constructor; case_decide; constructor; try constructor; exists e, dragged, target; done.
Qed.

Lemma draft_key_ok ev p seen key t :
  held_ok seen → held_ok t →
  held_ok (draftKeyDown p seen key t).1 ∧ Forall (fun r => asked_ok p ev (request_asked r)) (draftKeyDown p seen key t).2.
Proof.
  intros Hs Ht. unfold draftKeyDown. destruct (tl_draft seen) as [d|] eqn:Ed; [|by split].
  case_decide; [|case_decide; split; [by apply held_ok_draft|constructor|exact Ht|constructor]].
  split; [exact Ht|]. cbn [snd]. destruct (truthy _); [|constructor]. apply file_ok.
  intros r [= <-]. exact (held_draft seen Hs d Ed).
Qed.

Lemma add_key_ok ev p seen key rowKey group t :
  held_ok t →
  held_ok (addKeyDown p seen key rowKey group t).1 ∧
  Forall (fun r => asked_ok p ev (request_asked r)) (addKeyDown p seen key rowKey group t).2.
Proof.
  intros Ht. unfold addKeyDown. case_decide; [|case_decide; split; [same|constructor|exact Ht|constructor]].
  split; [exact Ht|]. cbn [snd]. destruct (truthy _); [|constructor]. by apply file_ok.
Qed.

Lemma put_ok ev p item now : Forall (fun r => asked_ok p ev (request_asked r)) (putOnPlan p item now).
Proof.
  unfold putOnPlan. destruct (page_locked p); [constructor|]. constructor; [|constructor].
  apply range_ok_days. unfold addDays, PLAN_DEFAULT_SPAN_DAYS, MS_PER_DAY. lia.
Qed.

Lemma succeeded_ok c t : held_ok t → held_ok (succeeded c t).
Proof. intros Ht. destruct c; cbn [succeeded]; try exact Ht; [apply held_ok_draft; [same|done]|same]. Qed.

Section Sessions.
Context (views : ViewWords) (loads : LoadWords) (words : ReparentWords).

Lemma act_ok s ev s' : session_ok s → event_ok ev → act views loads words s ev = Some s' →
  session_ok s' ∧ ∃ rs, se_asked s' = se_asked s ++ rs ∧ Forall (fun r => asked_ok (se_page s) ev (request_asked r)) rs.
Proof using.
  intros Hs Hev. pose proof (ok_page s Hs) as Hp. pose proof (ok_seen s Hs) as Hse. pose proof (ok_now s Hs) as Hn.
  set (sent := fun s' => session_ok s' ∧ ∃ rs, se_asked s' = se_asked s ++ rs ∧ Forall (fun r => asked_ok (se_page s) ev (request_asked r)) rs).
  fold (sent s').
  assert (∀ i key item b c, page_rows (se_page s) !! i = Some (IssueRow key item b c) → in_order item) as Hrow
    by (intros; eapply page_row_ok; eassumption).
  assert (∀ b : Timeline * list Request, held_ok b.1 ∧ Forall (fun r => asked_ok (se_page s) ev (request_asked r)) b.2 → sent (does s b)) as Hdoes
    by (intros [t rs] [? ?]; split; [by apply session_does|by exists rs]).
  assert (∀ s', session_ok s' → se_asked s' = se_asked s → sent s') as Hsame
    by (intros s1 ? Ha; split; [done|exists []; by rewrite app_nil_r]).
  assert (∀ t, held_ok t → sent (keeps s t)) as Hkeeps by (intros; apply Hsame; [by apply session_keeps|done]).
  assert (sent s) as Hstill by by apply Hsame.
  clearbody sent. destruct ev; cbn [act].
  - destruct (page_of _ _ _ _ _ _ _ _) as [p'|] eqn:E; [|done]. cbn. intros [= <-].
    apply Hsame; [|done]. split; try done. cbn. eapply page_of_ok; [exact E|exact Hev].
  - intros [= <-]. destruct (page_rows _ !! i) as [[? ? [] ?|g| |]|]; try done; apply Hkeeps; same.
  - destruct (page_rows _ !! i) as [[? item ? ?| | |]|] eqn:Ei; try (intros [= <-]; done).
    destruct (drawn_bar _ _ _); [|intros [= <-]; done].
    destruct (onPointerDown _ _ _ _ _) as [t|] eqn:E; [|done]. cbn. intros [= <-]. apply Hkeeps.
    eapply press_ok; [by eapply Hrow|done|exact E].
  - intros [= <-]. destruct (page_rows _ !! i) as [[]|]; try done. destruct (drawn_bar _ _ _); [|done].
    apply Hkeeps. unfold onLinkPointerDown. destruct (_ || _); [done|same].
  - intros [= <-]. destruct (page_rows _ !! i) as [[]|]; try done.
    + destruct (drawn_bar _ _ _); [done|]. apply Hkeeps. unfold onEmptyPointerDown. destruct (_ || _); [done|same].
    + case_decide; [done|]. apply Hkeeps. unfold onEmptyPointerDown. destruct (_ || _); [done|same].
  - intros [= <-]. apply Hkeeps. by apply move_ok.
  - intros [= <-]. apply Hdoes. by apply release_ok.
  - intros [= <-]. destruct (page_rows _ !! i) as [[]|]; try done. apply Hkeeps. same.
  - intros [= <-]. destruct (page_rows _ !! i) as [[]|]; try done. apply Hkeeps. same.
  - intros [= <-]. destruct (page_rows _ !! i) as [[]|]; try done. apply Hdoes. by apply add_key_ok.
  - intros [= <-]. apply Hkeeps. unfold draftChange. apply held_ok_draft; [done|].
    intros d Hd. apply fmap_Some in Hd as (d' & Hd' & ->). exact (held_draft _ Hn d' Hd').
  - intros [= <-]. apply Hdoes. by apply draft_key_ok.
  - intros [= <-]. apply Hkeeps. unfold draftBlur. destruct (tl_draft (se_seen s)); [|done].
    destruct (truthy _); [done|]. by apply held_ok_draft.
  - intros [= <-]. destruct (page_rows _ !! i) as [[]|]; try done. destruct (drawn_bar _ _ _); [done|].
    apply Hdoes. split; [done|apply put_ok].
  - intros [= <-]. destruct (page_rows _ !! i) as [[]|]; try done. apply Hkeeps.
    unfold onRowPointerDown. destruct (_ || _); [done|same].
  - intros [= <-]. apply Hkeeps. unfold onSidebarPointerMove. destruct ((tl_reparent _).1); [|done].
    destruct (_ && _); [done|same].
  - intros [= <-]. apply Hdoes. by apply sidebar_ok.
  - intros [= <-]. apply Hkeeps. same.
  - intros [= <-]. apply Hdoes. split; [done|]. constructor; [by exists d|constructor].
  - intros [= <-]. destruct (se_asked s !! n) as [r|]; [|done]. apply Hsame; [|done]. split; try done. cbn. by apply succeeded_ok.
Qed.

(** The calendar as it is first drawn. *)
Definition opened (page : Page) : Session := mkSession page timeline_start timeline_start [] [].

Lemma opened_ok page : page_ok page → session_ok (opened page).
Proof using. intros H. split; try done; try constructor; done. Qed.

Lemma acts_ok evs s s' : session_ok s → Forall event_ok evs → acts views loads words s evs = Some s' → session_ok s'.
Proof using.
  intros Hs Hev. revert s Hs. induction Hev as [|ev evs Hev _ IH]; intros s0 Hs0; cbn [acts]; [intros [= <-]; done|].
  destruct (act views loads words s0 ev) as [s1|] eqn:E; [|done]. cbn. apply IH. by apply (act_ok s0 ev s1).
Qed.

(** C10: whatever has been done on the plan's calendar, in whatever order and however
    renderings fell between, whatever the next event sends makes sense on the page that is
    drawn: the days of a schedule are the right way round, a dependency joins an issue to another
    of the rows, the dependency taken away is the one whose control was clicked, a new
    ticket has a trimmed title, and a new parent is asked for only as the sidebar's drag is let
    go, one the issue may have there, and not the one it has. *)
Theorem requests_sound page evs s ev s' :
  page_ok page → Forall event_ok (evs ++ [ev]) → acts views loads words (opened page) evs = Some s →
  act views loads words s ev = Some s' →
  ∃ rs, se_asked s' = se_asked s ++ rs ∧ Forall (fun r => asked_ok (se_page s) ev (request_asked r)) rs.
Proof using.
  intros Hp Hall Hs Hact. apply Forall_app in Hall as [Hevs Hev]. apply Forall_inv in Hev.
  assert (session_ok s) as Hok by (eapply acts_ok; [by apply opened_ok|exact Hevs|exact Hs]).
  by destruct (act_ok s ev s' Hok Hev Hact).
Qed.
End Sessions.

(** ** A drag saves what it showed *)

Section Gestures.
Context (views : ViewWords) (loads : LoadWords) (words : ReparentWords).
Notation acts := (acts views loads words).

(** No gesture is under way on the calendar. *)
Definition idle (t : Timeline) : Prop := (tl_link t).1 = None ∧ (tl_empty t).1 = None ∧ (tl_bar t) = (None, None).

Lemma acts_app s evs evs' : acts s (evs ++ evs') = (s' ← acts s evs; acts s' evs').
Proof using.
  revert s. induction evs as [|ev evs IH]; intros s; [done|]. cbn [app PlanTimeline.acts].
  destruct (act views loads words s ev); [apply IH|done].
Qed.

(** What the preview shows of a bar dragged to a place. *)
Definition dragged_to (px : Q) (o : DragOrigin) (e : Pointer) : Z * Z :=
  applyDrag (drag_from o) (drag_due o) (drag_mode o) (js_round ((clientX e - drag_clientX o) / px)).

Lemma moves_preview s o es e :
  (tl_link (se_now s)).1 = None → (tl_empty (se_now s)).1 = None → (tl_bar (se_now s)).1 = Some o →
  let '(start, due) := dragged_to (sc_pxPerDay (page_scale (se_page s))) o e in
  acts s (map Moved (es ++ [e])) = Some (keeps s (with_bar (Some o, Some (mkPreview (drag_key o) start due)) (se_now s))).
Proof using.
  intros Hl He Hb. revert s Hl He Hb. induction es as [|e0 es IH]; intros s Hl He Hb.
  - cbn [app map PlanTimeline.acts act]. unfold onPointerMove. rewrite Hl, He, Hb. fold (dragged_to (sc_pxPerDay (page_scale (se_page s))) o e).
    by destruct (dragged_to _ o e).
  - cbn [app map PlanTimeline.acts act]. unfold onPointerMove. rewrite Hl, He, Hb.
    fold (dragged_to (sc_pxPerDay (page_scale (se_page s))) o e0). destruct (dragged_to _ o e0) as [a0 b0].
    specialize (IH (keeps s (with_bar (Some o, Some (mkPreview (drag_key o) a0 b0)) (se_now s))) Hl He eq_refl).
    cbn [se_page keeps] in IH. by destruct (dragged_to _ o e).
Qed.
Lemma midnight_day t : MODERN <= t → midnight_at t → day t = t.
Proof using. intros. by apply day_of_midnight. Qed.

Lemma days_apart a b : MODERN <= a → MODERN <= b → midnight_at a → midnight_at b →
  (daysBetween a b =? 0) = bool_decide (a = b) ∧ (0 <? daysBetween a b) = (a <? b).
Proof using.
  intros Ha Hb Hma Hmb. rewrite daysBetween_modern by done. unfold midnight_at, MS_PER_DAY in *.
  split; [case_bool_decide; [apply Z.eqb_eq|apply Z.eqb_neq]|
    destruct (Z.ltb_spec a b); [apply Z.ltb_lt|apply Z.ltb_ge]]; lia.
Qed.

Lemma applyDrag_midnight start due mode days :
  midnight_at start → midnight_at due → midnight_at (applyDrag start due mode days).1 ∧ midnight_at (applyDrag start due mode days).2.
Proof using.
  intros Hs Hd. assert (∀ t, midnight_at t → midnight_at (addDays t days)) as Hadd.
  { intros t Ht. unfold midnight_at in *. rewrite addDays_day_number. unfold addDays. lia. }
  unfold applyDrag. destruct (days =? 0); [done|]. destruct mode; cbn [fst snd]; (split; [|]);
    repeat match goal with |- context [if ?b then _ else _] => destruct b end; by try apply Hadd.
Qed.

Lemma dragged_midnight px o e : midnight_at (drag_from o) → midnight_at (drag_due o) →
  midnight_at (dragged_to px o e).1 ∧ midnight_at (dragged_to px o e).2.
Proof using. apply applyDrag_midnight. Qed.

(** The one request a bar's drag ends in: nothing when the days are the same. *)
Definition saved (o : DragOrigin) (start due : Z) : list Request :=
  if decide (start = drag_from o ∧ due = drag_due o) then []
  else [mkRequest (ask_schedule (drag_key o) (isoDay start) (isoDay due))
          (if drag_due o <? due then tells_later (drag_key o) else nothing_more)].

Lemma release_bar_saved o start due :
  MODERN <= drag_from o → MODERN <= drag_due o → midnight_at (drag_from o) → midnight_at (drag_due o) →
  MODERN <= start → MODERN <= due → midnight_at start → midnight_at due →
  release_bar o (mkPreview (drag_key o) start due) = saved o start due.
Proof using.
  intros. unfold release_bar, saved. cbn [preview_start preview_due].
  destruct (days_apart (drag_from o) start) as [-> _]; try done. destruct (days_apart (drag_due o) due) as [-> ->]; try done.
  repeat case_bool_decide; cbn [negb orb]; case_decide as Hd; try done; exfalso; naive_solver.
Qed.

(** C21: a bar that is dragged is saved where its preview was drawn: pressed at one
    place and moved anywhere before it is let go, the days asked for are the
    bar's moved by the whole days between the press and the last move, whole or
    at the end that was taken hold of; nothing is asked when they are the same,
    and the page hears of it, once saved, exactly when the bar now ends later. *)
Theorem drag_saves_preview s i key item b c e mode es e' props data types available now e'' s' start due :
  page_rows (se_page s) !! i = Some (IssueRow key item b c) → is_Some (drawn_bar (se_page s) (se_seen s) item) →
  page_locked (se_page s) = false → idle (se_now s) →
  item_start item ≫= parse_date = Some start → item_due item ≫= parse_date = Some due →
  MODERN <= start → MODERN <= due →
  let o := mkDragOrigin (issue_key (item_issue item)) mode (clientX e) (day start) (day due) in
  let '(start', due') := dragged_to (sc_pxPerDay (page_scale (se_page s))) o e' in
  MODERN <= start' → MODERN <= due' →
  acts s (BarPressed e i mode :: map Moved (es ++ [e']) ++ [Rendered props data types available now; Released e'']) = Some s' →
  se_asked s' = se_asked s ++ saved o start' due' ∧ tl_bar (se_now s') = (None, None).
Proof using.
  intros Hi [bar Hbar] Hlock (Hl & He & Hb) Hs Hd Hms Hmd o. destruct (dragged_to _ o e') as [start' due'] eqn:Edrag.
  intros Hms' Hmd'. cbn [PlanTimeline.acts act]. rewrite Hi, Hbar.
  assert (onPointerDown (se_page s) e item mode (se_now s) =
    Some (with_bar (Some o, Some (mkPreview (issue_key (item_issue item)) (day start) (day due))) (se_now s))) as ->.
  { unfold onPointerDown, said. destruct (item_start item) as [ts|]; [|done]. destruct (item_due item) as [td|]; [|done].
    cbn [mbind option_bind] in Hs, Hd. destruct ts as [|c1 ts]; [discriminate Hs|]. destruct td as [|c2 td]; [discriminate Hd|].
    change (truthy (String c1 ts)) with true. change (truthy (String c2 td)) with true.
    rewrite Hlock, Hs, Hd. reflexivity. }
  cbn [fmap option_fmap option_map mbind option_bind]. set (s1 := keeps s _). rewrite acts_app.
  pose proof (moves_preview s1 o es e' Hl He eq_refl) as Hm. cbn [se_page s1 keeps] in Hm. rewrite Edrag in Hm.
  fold s1 in Hm. rewrite Hm. cbn [mbind option_bind]. set (s2 := keeps s1 _). cbn [PlanTimeline.acts act].
  destruct (page_of _ _ _ _ _ _ _ _) as [page'|]; [|done]. cbn [mbind option_bind]. intros [= <-].
  unfold onPointerUp. cbn. rewrite Hl, He. cbn. split; [|done]. f_equal.
  assert (midnight_at start' ∧ midnight_at due') as [? ?].
  { pose proof (dragged_midnight (sc_pxPerDay (page_scale (se_page s))) o e' (day_midnight _ Hms) (day_midnight _ Hmd)) as Hmid.
    by rewrite Edrag in Hmid. }
  apply (release_bar_saved o); try done; cbn; by (apply modern_day || apply day_midnight).
Qed.

(** ** A plan that is locked *)

(** No gesture has begun, on the calendar or in the list beside it. *)
Definition at_rest (t : Timeline) : Prop := idle t ∧ (tl_reparent t).1 = None.

(** What may be asked while a proposal is shown. *)
Definition not_a_move (r : Request) : Prop :=
  match request_asked r with ask_create _ | ask_unlink _ _ => True | _ => False end.

Definition keeps_proposal (ev : Event) : Prop :=
  match ev with Rendered props _ _ _ _ => is_Some (props_proposed props) | _ => True end.

Lemma at_rest_same t t' : at_rest t → tl_bar t' = tl_bar t → tl_empty t' = tl_empty t → tl_link t' = tl_link t →
  tl_reparent t' = tl_reparent t → at_rest t'.
Proof using. unfold at_rest, idle. by intros ? -> -> -> ->. Qed.

Lemma file_not_a_move p seen rowKey placement summary range : Forall not_a_move (file p seen rowKey placement summary range).
Proof using. unfold file. destruct (negb _); repeat constructor. Qed.

(** One step of a locked calendar: it rests, and what it asks moves nothing. *)
Record locked_step (s s' : Session) : Prop := {
  locked_page : page_locked (se_page s') = true;
  locked_rest : at_rest (se_now s');
  locked_asks : ∃ rs, se_asked s' = se_asked s ++ rs ∧ Forall not_a_move rs;
}.

Lemma locked_keeps s t : page_locked (se_page s) = true → at_rest t → locked_step s (keeps s t).
Proof using. intros. split; try done. exists []. by rewrite app_nil_r. Qed.

Lemma locked_does s t rs : page_locked (se_page s) = true → at_rest t → Forall not_a_move rs → locked_step s (does s (t, rs)).
Proof using. intros. split; try done. by exists rs. Qed.

Ltac rests := eapply at_rest_same; [eassumption|reflexivity..].

Lemma locked_act s ev s' :
  page_locked (se_page s) = true → at_rest (se_now s) → keeps_proposal ev → act views loads words s ev = Some s' → locked_step s s'.
Proof using.
  intros Hl Hr Hev. assert (locked_step s s) as Hself.
  { split; [exact Hl|exact Hr|]. exists []. by rewrite app_nil_r. }
  pose proof Hr as [[Hlk [He Hb]] Hrp].
  destruct ev; cbn [act].
  - destruct (page_of _ _ _ _ _ _ _ _) as [p'|] eqn:E; [|done]. cbn. intros [= <-]. split; cbn; [|done|exists []; by rewrite app_nil_r].
    unfold page_of in E. destruct (parse_date (pl_from data)); [|done]. destruct (parse_date (pl_to data)); [|done].
    cbn in E. injection E as <-. by apply bool_decide_eq_true.
  - intros [= <-]. destruct (page_rows _ !! i) as [[? ? [] ?|g| |]|]; try done; apply locked_keeps; try done; rests.
  - destruct (page_rows _ !! i) as [[? item ? ?| | |]|]; try (intros [= <-]; done).
    destruct (drawn_bar _ _ _); [|intros [= <-]; done].
    assert (onPointerDown (se_page s) e item mode (se_now s) = Some (se_now s)) as ->.
    { unfold onPointerDown. rewrite Hl. destruct (said (item_start item)), (said (item_due item)); done. }
    intros [= <-]. by apply locked_keeps.
  - intros [= <-]. destruct (page_rows _ !! i) as [[]|]; try done. destruct (drawn_bar _ _ _); [|done].
    unfold onLinkPointerDown. rewrite Hl. by apply locked_keeps.
  - unfold onEmptyPointerDown. rewrite Hl. cbn [orb]. intros [= <-]. destruct (page_rows _ !! i) as [[]|]; try done.
    + destruct (drawn_bar _ _ _); [done|]. by apply locked_keeps.
    + case_decide; [done|]. by apply locked_keeps.
  - intros [= <-]. unfold onPointerMove. rewrite Hlk, He, Hb. by apply locked_keeps.
  - intros [= <-]. unfold onPointerUp. rewrite Hlk, He, Hb. apply locked_does; [done| |constructor].
    split; [|done]. by split_and!.
  - intros [= <-]. destruct (page_rows _ !! i) as [[]|]; try done. apply locked_keeps; [done|rests].
  - intros [= <-]. destruct (page_rows _ !! i) as [[]|]; try done. apply locked_keeps; [done|rests].
  - intros [= <-]. destruct (page_rows _ !! i) as [[]|]; try done. unfold addKeyDown.
    case_decide; [|case_decide]; apply locked_does; try done; first [rests|destruct (truthy _); [apply file_not_a_move|constructor]].
  - intros [= <-]. apply locked_keeps; [done|rests].
  - intros [= <-]. unfold draftKeyDown. destruct (tl_draft _); [|by apply locked_does].
    case_decide; [|case_decide]; apply locked_does; try done; first [rests|destruct (truthy _); [apply file_not_a_move|constructor]].
  - intros [= <-]. unfold draftBlur. destruct (tl_draft _); [|by apply locked_keeps].
    destruct (truthy _); apply locked_keeps; try done; rests.
  - unfold putOnPlan. rewrite Hl. intros [= <-]. destruct (page_rows _ !! i) as [[]|]; try done.
    destruct (drawn_bar _ _ _); [done|]. by apply locked_does.
  - unfold onRowPointerDown. rewrite Hl. cbn [orb]. intros [= <-]. destruct (page_rows _ !! i) as [[]|]; try done. by apply locked_keeps.
  - unfold onSidebarPointerMove. rewrite Hrp. intros [= <-]. by apply locked_keeps.
  - unfold onSidebarPointerUp. rewrite Hrp. intros [= <-]. apply locked_does; [done| |constructor]. split; [|done]. exact (proj1 Hr).
  - intros [= <-]. apply locked_keeps; [done|rests].
  - intros [= <-]. apply locked_does; [done|done|]. by repeat constructor.
  - intros [= <-]. destruct (se_asked s !! n) as [r|]; [|done]. split; cbn; [done| |exists []; by rewrite app_nil_r].
    destruct (request_success r); cbn [succeeded]; try done; rests.
Qed.

(** While the auto plan's proposal is shown nothing is dragged: from a calendar
    at rest, no schedule, dependency or parent is asked for, whatever is
    pressed, moved and let go. *)
Theorem proposal_locks_plan s evs s' :
  page_locked (se_page s) = true → at_rest (se_now s) → Forall keeps_proposal evs → acts s evs = Some s' →
  ∃ rs, se_asked s' = se_asked s ++ rs ∧ Forall not_a_move rs.
Proof using.
  intros Hl Hr Hev. revert s Hl Hr. induction Hev as [|ev evs Hev _ IH]; intros s Hl Hr; cbn [PlanTimeline.acts].
  { intros [= <-]. exists []. by rewrite app_nil_r. }
  destruct (act views loads words s ev) as [s1|] eqn:E; [|done]. cbn. intros H.
  destruct (locked_act s ev s1 Hl Hr Hev E) as [Hl1 Hr1 (rs & E1 & Hrs)].
  destruct (IH s1 Hl1 Hr1 H) as (rs' & E2 & Hrs'). exists (rs ++ rs'). split; [by rewrite E2, E1, app_assoc|by apply Forall_app].
Qed.

(** ** A click *)

(** Where a pointer is when it presses a bar's dot for a dependency: within the row. *)
Definition within_row (e : Pointer) (i : nat) : Prop := Qfloor (canvasY e / inject_Z PLAN_ROW_HEIGHT) = Z.of_nat i.

Definition row_issue (p : Page) (i : nat) : option string :=
  match page_rows p !! i with Some (IssueRow key _ _ _) => Some key | _ => None end.

(** An issue's row has the issue's key. *)
Definition keyed (p : Page) : Prop :=
  ∀ i key item b c, page_rows p !! i = Some (IssueRow key item b c) → key = issue_key (item_issue item).

Lemma own_row_no_target p e i key : within_row e i → row_issue p i = Some key → rowKeyAt p (canvasY e) key = None.
Proof using.
  unfold row_issue, rowKeyAt, within_row. cbv zeta. intros -> Hi. destruct (Z.ltb_spec (Z.of_nat i) 0); [lia|].
  rewrite Nat2Z.id. destruct (page_rows p !! i) as [[]|]; try done. injection Hi as ->. by rewrite decide_True.
Qed.

Lemma still_is_no_drag x : isRealDrag x x (inject_Z PLAN_DRAG_THRESHOLD_PX) = false.
Proof using.
  unfold isRealDrag. apply not_true_iff_false. intros H%Qle_bool_iff.
  assert (x - x == 0)%Q as E by ring. rewrite E in H. by vm_compute in H.
Qed.

Lemma daysBetween_same t : daysBetween t t = 0.
Proof using. unfold daysBetween. by rewrite Z.sub_diag. Qed.

(** What a press that has not moved may have left behind. *)
Inductive pressed (t : Timeline) (e : Pointer) (key : option string) : Timeline → Prop :=
  | pressed_nothing : pressed t e key t
  | pressed_bar o : pressed t e key (with_bar (Some o, Some (mkPreview (drag_key o) (drag_from o) (drag_due o))) t)
  | pressed_dot o d : key = Some (link_fromKey o) → pressed t e key (with_link (Some o, d) t)
  | pressed_empty em g : anchor_of em = canvasX e → pressed t e key (with_empty (Some em, g) t)
  | pressed_line r l : rep_started r = false → pressed t e key (with_reparent (Some r, l) t).

Lemma press_leaves s e i mode ev s1 :
  keyed (se_page s) → ev ∈ [BarPressed e i mode; LinkPressed e i; EmptyPressed e i; RowPressed e i] →
  act views loads words s ev = Some s1 →
  ∃ t, s1 = keeps s t ∧ pressed (se_now s) e (row_issue (se_page s) i) t.
Proof using.
  intros Hk Hev. assert (s = keeps s (se_now s)) as Hself by (by destruct s).
  assert (∀ s', Some s = Some s' → ∃ t, s' = keeps s t ∧ pressed (se_now s) e (row_issue (se_page s) i) t) as Hnone
    by (intros s' [= <-]; exists (se_now s); split; [done|constructor]).
  unfold row_issue. pose proof (Hk i) as Hki.
  repeat (apply elem_of_cons in Hev as [->|Hev]); [..|by apply elem_of_nil in Hev]; cbn [act].
  - unfold row_issue in Hnone. destruct (page_rows (se_page s) !! i) as [[key item b c| | |]|]; try by apply Hnone.
    destruct (drawn_bar _ _ _); [|by apply Hnone]. unfold onPointerDown.
    assert (∀ s', keeps s <$> Some (se_now s) = Some s' → ∃ t, s' = keeps s t ∧ pressed (se_now s) e (Some key) t) as Hstay
      by (intros s' [= <-]; exists (se_now s); split; [done|constructor]).
    destruct (said (item_start item)) as [ts|]; [|apply Hstay]. destruct (said (item_due item)) as [td|]; [|apply Hstay].
    destruct (page_locked _); [apply Hstay|]. destruct (parse_date ts) as [a|]; [|done]. destruct (parse_date td) as [z|]; [|done].
    cbn [fmap option_fmap option_map mbind option_bind]. generalize (day a) (day z). intros a' z' [= <-]. eexists. split; [reflexivity|].
    exact (pressed_bar _ _ _ (mkDragOrigin (issue_key (item_issue item)) mode (clientX e) a' z')).
  - unfold row_issue in Hnone. destruct (page_rows (se_page s) !! i) as [[key item b c| | |]|]; try by apply Hnone.
    destruct (drawn_bar _ _ _); [|by apply Hnone]. intros [= <-]. eexists. split; [reflexivity|].
    unfold onLinkPointerDown. destruct (_ || _); constructor. by rewrite <- (Hki key item b c).
  - unfold row_issue in Hnone. destruct (page_rows (se_page s) !! i) as [[key item b c| | |key label group]|]; try by apply Hnone.
    + destruct (drawn_bar _ _ _); [by apply Hnone|]. intros [= <-]. eexists. split; [reflexivity|].
      unfold onEmptyPointerDown. destruct (_ || _); by constructor.
    + case_decide; [by apply Hnone|]. intros [= <-]. eexists. split; [reflexivity|].
      unfold onEmptyPointerDown. destruct (_ || _); by constructor.
  - unfold row_issue in Hnone. destruct (page_rows (se_page s) !! i) as [[key item b c| | |]|]; try by apply Hnone.
    intros [= <-]. eexists. split; [reflexivity|]. unfold onRowPointerDown. destruct (_ || _); by constructor.
Qed.

Lemma release_nothing p e i t0 t key :
  at_rest t0 → pressed t0 e key t → within_row e i → row_issue p i = key →
  ∃ t1 t2, onPointerUp p t e t = (t1, []) ∧ onSidebarPointerUp words p e t1 = (t2, []) ∧ at_rest t2.
Proof using.
  intros [(Hl & He & Hb) Hr] Hp Hw Hk. unfold onPointerUp. destruct Hp as [|o|o d ->|em g Ha|r l Hs].
  - rewrite Hl, He, Hb. eexists _, _. split; [reflexivity|]. unfold onSidebarPointerUp. cbn. rewrite Hr. split; [reflexivity|]. by split_and!.
  - cbn. rewrite Hl, He. unfold release_bar. cbn [preview_start preview_due]. rewrite !daysBetween_same. cbn.
    eexists _, _. split; [reflexivity|]. unfold onSidebarPointerUp. cbn. rewrite Hr. split; [reflexivity|]. by split_and!.
  - cbn [tl_link with_link fst]. rewrite (own_row_no_target p e i (link_fromKey o) Hw Hk).
    eexists _, _. split; [reflexivity|]. unfold onSidebarPointerUp. cbn. rewrite Hr. split; [reflexivity|]. by split_and!.
  - cbn [tl_link tl_empty with_empty fst]. rewrite Hl, Ha, still_is_no_drag. cbn [negb].
    eexists _, _. split; [reflexivity|]. unfold onSidebarPointerUp. cbn. rewrite Hr. split; [reflexivity|]. by split_and!.
  - cbn [tl_link tl_empty tl_bar with_reparent fst]. rewrite Hl, He, Hb.
    eexists _, _. split; [reflexivity|]. unfold onSidebarPointerUp. cbn. rewrite Hs. split; [reflexivity|]. by split_and!.
Qed.

(** A click is not a drag: a bar, a bar's dot, an empty part of a row or a line
    of the list that is pressed and let go in the same place asks for nothing and
    leaves no gesture under way. *)
Theorem click_asks_nothing s e i mode ev props data types available now s' :
  at_rest (se_now s) → keyed (se_page s) → within_row e i →
  ev ∈ [BarPressed e i mode; LinkPressed e i; EmptyPressed e i; RowPressed e i] →
  acts s [ev; Rendered props data types available now; Released e; SidebarReleased e] = Some s' →
  row_issue (se_page s') i = row_issue (se_page s) i →
  se_asked s' = se_asked s ∧ at_rest (se_now s').
Proof using.
  intros Hr Hk Hw Hev. cbn [PlanTimeline.acts]. destruct (act views loads words s ev) as [s1|] eqn:E; [|done].
  destruct (press_leaves s e i mode ev s1 Hk Hev E) as (t & -> & Ht). cbn [mbind option_bind act].
  destruct (page_of _ _ _ _ _ _ _ _) as [p'|]; [|done]. cbn [mbind option_bind se_page se_now se_seen se_asked se_told keeps].
  intros Hs'. assert (se_page s' = p') as Hpage by (by injection Hs' as <-). rewrite Hpage. intros Hrow.
  destruct (release_nothing p' e i (se_now s) t _ Hr Ht Hw Hrow) as (t1 & t2 & E1 & E2 & Hrest).
  rewrite E1 in Hs'. cbn [does fst snd se_now se_page] in Hs'. rewrite E2 in Hs'. injection Hs' as <-. cbn.
  by rewrite !app_nil_r.
Qed.
End Gestures.

(** ** Rows carry the keys of their issues *)

Definition row_keyed (r : Row) : Prop := match r with IssueRow key item _ _ => key = issue_key (item_issue item) | _ => True end.

Lemma hierarchy_keyed collapsed i : Forall row_keyed (hierarchy_item collapsed i).
Proof.
  induction i as [issue depth start due derived est estd prog children IH] using PlanItem_ind'.
  cbn [hierarchy_item item_children]. constructor; [done|]. destruct (bool_decide _); [constructor|].
  induction IH as [|c cs Hc _ IHcs]; [constructor|]. cbn [flat_map]. by apply Forall_app.
Qed.

Lemma Forall_flat_map {A B} (P : B → Prop) (f : A → list B) (l : list A) : (∀ x, Forall P (f x)) → Forall P (flat_map f l).
Proof. intros H. induction l; [constructor|]. cbn [flat_map]. by apply Forall_app. Qed.

Lemma group_rows_keyed collapsed key label sprint members : Forall row_keyed (group_rows collapsed key label sprint members).
Proof.
  unfold group_rows. constructor; [done|]. destruct (bool_decide _); [constructor|].
  apply Forall_app. split; [by induction members; constructor|]. by repeat constructor.
Qed.

Lemma page_of_keyed views loads props data types available now collapsed p :
  page_of views loads props data types available now collapsed = Some p → keyed p.
Proof.
  unfold page_of. destruct (parse_date (pl_from data)); [|done]. destruct (parse_date (pl_to data)); [|done].
  cbn. intros [= <-]. intros i key item b c Hi. cbn [page_rows] in Hi.
  assert (Forall row_keyed (rows_of views loads props data now collapsed)) as H.
  { unfold rows_of. apply Forall_app. split.
    - assert (∀ items, Forall row_keyed (hierarchyRows items collapsed ++ [AddRow PLAN_ADD_KEY (word_addToPlan views) None])) as Hh.
      { intros items. apply Forall_app. split; [apply Forall_flat_map; intros; apply hierarchy_keyed|by repeat constructor]. }
      destruct (props_view props); [apply Hh| |apply Hh]. unfold rowsFor, sprintRows. apply Forall_app.
      split; [apply Forall_flat_map; intros|]; apply group_rows_keyed.
    - destruct (props_view props); [|constructor|constructor]. unfold loadRows. destruct (negb _ || negb _); [constructor|].
      constructor; [done|]. destruct (bool_decide _); [constructor|].
      match goal with |- context [map _ ?l] => generalize l end. intros l. by induction l; constructor. }
  rewrite Forall_forall in H. apply (H (IssueRow key item b c)). by eapply list_elem_of_lookup_2.
Qed.

(** ** Arrows *)

(** An arrow leaves the bar it begins at by at least the inset, turns at one place
    where its control sits half way down, and ends where the other bar begins; it
    comes in from at least the inset before it. *)
Theorem arrow_clears_bars fromX fromY toX toY :
  let a := arrowPath fromX fromY toX toY in
  let elbow := (arrow_handle a).1 in
  arrow_d a = [MoveTo fromX fromY; Horizontal elbow; Vertical toY; Horizontal toX] ∧
  (fromX + ARROW_INSET <= elbow)%Q ∧ (toX - ARROW_INSET <= elbow)%Q ∧
  ((fromX + 2 * ARROW_INSET <= toX)%Q → (elbow == toX - ARROW_INSET)%Q) ∧
  ((arrow_handle a).2 - fromY == toY - (arrow_handle a).2)%Q.
Proof.
  cbn [arrowPath arrow_handle arrow_d fst snd]. split_and!; [done|apply Q.le_max_l|apply Q.le_max_r| |field].
  intros H. apply Q.max_r. unfold ARROW_INSET in *. lra.
Qed.

(** Coming back before the timer has run out stops it: however often it would
    have gone off, what is pointed at stays shown; left alone, it goes. *)
Theorem hover_returns h a b n :
  hovered (foldl hover_step h ([hot a; cool; hot b] ++ replicate n linger_over)) = Some b ∧
  hovered (foldl hover_step h [hot a; cool; linger_over]) = None.
Proof.
  split; [|done]. rewrite foldl_app. cbn [foldl hover_step]. induction n as [|n IH]; [done|exact IH].
Qed.

(** The remove control is only ever shown on an arrow that is drawn. *)
Theorem control_is_drawn s rows dependencies h selected p :
  control_of (arrows s rows dependencies) h selected = Some p →
  p ∈ arrows s rows dependencies ∧ p.1 ∈ dependencies.
Proof.
  intros H. assert (p ∈ arrows s rows dependencies) as Hp.
  { unfold control_of in H. destruct (hovered h); [|destruct selected; [|done]];
      apply head_Some_elem_of, list_elem_of_filter in H; tauto. }
  split; [exact Hp|]. unfold arrows in Hp. apply list_elem_of_omap in Hp as (d & Hd & Ha).
  unfold arrow_for in Ha. repeat (match type of Ha with context [?x ≫= _] => destruct x; [|done]; cbn [mbind option_bind] in Ha end).
  by injection Ha as <-.
Qed.

(** ** A small plan to work on *)

Definition dated_item (key start due : string) : PlanItem :=
  mkPlanItem (plain_issue key None) 0 (Some start) (Some due) false None None (mkProgress 0 0 0 0) [].

(** An issue one level up. *)
Definition an_epic : PlanItem :=
  mkPlanItem (mkIssue "PR-3" "PR-3" (mkTypeRef "t2" "Epic" "bolt" 1 false) "p1" "PR" "PR-3" None plain_status medium None None None None None None None None None
    None None None None None None None None None None None 0 [] [] [] [] "2024-01-01T00:00:00Z" "2024-01-01T00:00:00Z" None None None)
    0 None None false None None (mkProgress 0 0 0 0) [].

Definition small_plan : Plan :=
  mkPlan "PR" [dated_item "PR-1" "2024-02-12" "2024-02-14"; plain_item "PR-2" None []; an_epic] [] [] [] (mkLoad [] []) [] []
    "2024-02-10" "2024-04-05" 1 0 [].

Definition plain_props : Props := mkProps management NO_CUT EmptyString None "months" None.
Definition proposing : Props := mkProps management NO_CUT EmptyString None "months" (Some []).

Definition small_page (props : Props) : Page :=
  default (mkPage EmptyString management true ZOOM_FIT (mkScale 0 0 0 0) 0 [] [] [] 0)
    (page_of views_en load_en props small_plan [plain_type] 800 1707782400000 []).

Definition at_px (x y : Q) : Pointer := mkPointer x y 0 false 0 0 0.
Definition redrawn : Event := Rendered plain_props small_plan [plain_type] 800 1707782400000.
Definition no_words : ReparentWords := mkReparentWords (fun _ => EmptyString) EmptyString EmptyString (fun _ _ _ => EmptyString).

Lemma small_plan_ok : Forall in_order (flatten (pl_items small_plan)).
Proof.
  change (flatten _) with [dated_item "PR-1" "2024-02-12" "2024-02-14"; plain_item "PR-2" None []; an_epic].
  repeat (apply Forall_cons_2; [intros s d a b|]); try done. cbn [item_start item_due dated_item].
  intros [= <-] [= <-] Ha Hb. vm_compute in Ha, Hb. injection Ha as <-. injection Hb as <-. by vm_compute.
Qed.

Lemma small_page_ok props : page_of views_en load_en props small_plan [plain_type] 800 1707782400000 [] = Some (small_page props) →
  page_ok (small_page props).
Proof. intros H. eapply page_of_ok; [exact H|exact small_plan_ok]. Qed.

Definition worked (props : Props) (evs : list Event) : Session :=
  default (opened (small_page props)) (acts views_en load_en no_words (opened (small_page props)) evs).

Definition a_drag : list Event :=
  [BarPressed (at_px 20 10) 0 drag_end; Moved (at_px 30 12); Moved (at_px 41 12); redrawn; Released (at_px 41 12)].

(** A drag, a link drawn, and an issue dropped on the epic two rows below. *)
Definition a_day : list Event :=
  redrawn :: a_drag ++ [Succeeded 0; LinkPressed (at_px 40 10) 0; Moved (at_px 60 40); Released (at_px 60 40);
    RowPressed (at_px 5 60) 0; SidebarMoved (at_px 5 100)].

Lemma requests_sound_witness :
  let s := worked plain_props a_day in
  Forall (fun r => asked_ok (se_page s) (SidebarReleased (at_px 5 131)) (request_asked r)) [mkRequest (ask_parent "PR-1" (Some "PR-3"%string)) nothing_more].
Proof.
  cbv zeta. destruct (requests_sound views_en load_en no_words (small_page plain_props) a_day (worked plain_props a_day)
    (SidebarReleased (at_px 5 131)) (worked plain_props (a_day ++ [SidebarReleased (at_px 5 131)]))) as (rs & Hrs & Hok).
  - apply small_page_ok. vm_compute. reflexivity.
  - repeat (apply Forall_cons_2; [try exact I; exact small_plan_ok|]). apply Forall_nil_2.
  - vm_compute. reflexivity.
  - vm_compute. reflexivity.
  - replace rs with [mkRequest (ask_parent "PR-1" (Some "PR-3"%string)) nothing_more] in Hok; [exact Hok|].
    apply (app_inv_head (se_asked (worked plain_props a_day))). rewrite <- Hrs. vm_compute. reflexivity.
Defined.

Lemma drag_saves_preview_witness :
  se_asked (worked plain_props a_drag) =
  [mkRequest (ask_schedule "PR-1" "2024-02-12" "2024-02-17") (tells_later "PR-1")].
Proof.
  pose proof (drag_saves_preview views_en load_en no_words (opened (small_page plain_props)) 0 "PR-1"
    (dated_item "PR-1" "2024-02-12" "2024-02-14") false false (at_px 20 10) drag_end [at_px 30 12] (at_px 41 12)
    plain_props small_plan [plain_type] 800 1707782400000 (at_px 41 12) (worked plain_props a_drag) 1707696000000 1707868800000) as H.
  cbv zeta in H.
  assert (dragged_to (sc_pxPerDay (page_scale (se_page (opened (small_page plain_props)))))
    (mkDragOrigin "PR-1" drag_end (clientX (at_px 20 10)) (day 1707696000000) (day 1707868800000)) (at_px 41 12) =
    (1707696000000, 1708128000000)) as E by (vm_compute; reflexivity).
  change (issue_key (item_issue (dated_item "PR-1" "2024-02-12" "2024-02-14"))) with "PR-1"%string in H.
  rewrite E in H.
  rewrite (proj1 (H ltac:(vm_compute; reflexivity) ltac:(eexists; vm_compute; reflexivity) ltac:(vm_compute; reflexivity)
    ltac:(split_and!; reflexivity) ltac:(vm_compute; reflexivity) ltac:(vm_compute; reflexivity) ltac:(vm_compute; discriminate)
    ltac:(vm_compute; discriminate) ltac:(vm_compute; discriminate) ltac:(vm_compute; discriminate) ltac:(vm_compute; reflexivity))).
  vm_compute. reflexivity.
Defined.

Definition tried : list Event :=
  [BarPressed (at_px 20 10) 0 drag_end; Moved (at_px 41 12); Released (at_px 41 12); LinkPressed (at_px 40 10) 0;
   Released (at_px 60 40); Removed (mkDependency "l1" "PR-1" "PR-2")].

Lemma proposal_locks_plan_witness :
  ∃ rs, se_asked (worked proposing tried) = [] ++ rs ∧ Forall not_a_move rs.
Proof.
  apply (proposal_locks_plan views_en load_en no_words (opened (small_page proposing)) tried (worked proposing tried)).
  - vm_compute. reflexivity.
  - by split_and!.
  - by repeat constructor.
  - vm_compute. reflexivity.
Defined.

Definition a_click : list Event :=
  [BarPressed (at_px 20 10) 0 drag_move; redrawn; Released (at_px 20 10); SidebarReleased (at_px 20 10)].

Lemma click_asks_nothing_witness :
  se_asked (worked plain_props a_click) = [] ∧ at_rest (se_now (worked plain_props a_click)).
Proof.
  apply (click_asks_nothing views_en load_en no_words (opened (small_page plain_props)) (at_px 20 10) 0 drag_move
    (BarPressed (at_px 20 10) 0 drag_move) plain_props small_plan [plain_type] 800 1707782400000).
  - by split_and!.
  - apply (page_of_keyed views_en load_en plain_props small_plan [plain_type] 800 1707782400000 []). vm_compute. reflexivity.
  - vm_compute. reflexivity.
  - by left.
  - vm_compute. reflexivity.
  - vm_compute. reflexivity.
Defined.
