(* ===== verification/Paging.v ===== *)
(** Lists longer than a page: [web/src/components/ui/Pager.tsx] and
    [ListSearch.tsx], and the list of grants that puts them together,
    [RoleTable] of [features/access/RoleTable.tsx]. *)

From Stdlib Require Import ZArith Lia Ascii String.
From stdpp Require Import base list strings.
From S2P Require Import Prelude JsString Config.

Open Scope Z_scope.

(** ** Pages *)

Record Counted := mkCounted { noun_one : string; noun_many : string }.

Definition countOf (total : Z) (noun : Counted) : string :=
  stringOfInt total +:+ " " +:+ (if total =? 1 then noun_one noun else noun_many noun).

(** [t.kit.pager.range]. *)
Definition pager_en (from to total : Z) : string :=
  stringOfInt from +:+ " to " +:+ stringOfInt to +:+ " of " +:+ stringOfInt total.

Section Words.
Context (range_words : Z → Z → Z → string).

Definition range (offset shown total : Z) : string :=
  range_words (if total =? 0 then 0 else offset + 1) (offset + shown) total.

Definition shownOf (total offset shown : Z) (noun : Counted) : string :=
  if (offset =? 0) && (total <=? shown) then countOf total noun
  else range offset shown total +:+ " " +:+ noun_many noun.

(** [isPageOffset] of a number that is whole; what is not is none. *)
Definition isPageOffset (value : Z) : bool := 0 <? value.

Definition clampOffset (offset total pageSize : Z) : Z :=
  if offset <? total then offset else Z.max 0 ((total - 1) / pageSize * pageSize).

(** What the pager draws: the range, and where its two buttons lead while they
    can be pressed. *)
Record PagerView := mkPagerView { pager_range : string; pager_previous : option Z; pager_next : option Z }.

Definition Pager (total offset pageSize : Z) : option PagerView :=
  if (total <=? pageSize) && (offset =? 0) then None
  else Some (mkPagerView (range offset (Z.max 0 (Z.min pageSize (total - offset))) total)
    (if offset =? 0 then None else Some (Z.max 0 (offset - pageSize)))
    (if total <=? offset + pageSize then None else Some (offset + pageSize))).
End Words.

(** ** The search box over a list *)

(** [ls_value] is the text the list is searched for, as its owner holds it;
    [ls_waiting] what the running timer will hand on. *)
Record ListSearch := mkListSearch { ls_text : string; ls_waiting : option string; ls_value : string }.

Inductive SearchEvent :=
  | typed (next : string)
  | typing_paused
  | changed_elsewhere (value : string).

(** The owner's value, and the box when the value is another than before. *)
Definition valued (value : string) (s : ListSearch) : ListSearch :=
  mkListSearch (if decide (value = ls_value s) then ls_text s
                else match ls_waiting s with None => value | Some _ => ls_text s end)
    (ls_waiting s) value.

Definition search_step (s : ListSearch) (e : SearchEvent) : ListSearch :=
  match e with
  | typed next => mkListSearch next (Some next) (ls_value s)
  | typing_paused =>
      match ls_waiting s with
      | Some next => valued (trim next) (mkListSearch (ls_text s) None (ls_value s))
      | None => s
      end
  | changed_elsewhere value => valued value s
  end.

Definition box (value : string) : ListSearch := mkListSearch value None value.

(** ** A list of grants *)

(** [data]: how many matched and where the page begins, as last answered. *)
Record GrantList := mkGrantList {
  gl_q : string; gl_role : string; gl_offset : Z; gl_data : option (Z * Z);
}.

Inductive GrantEvent :=
  | searched (q : string)
  | role_chosen (role : string)
  | page_turned (forward : bool)
  | answered_page (total : Z).

Definition grants_start : GrantList := mkGrantList EmptyString EmptyString 0 None.

(** The effect after every rendering: a page past the end steps back. *)
Definition settle_page (s : GrantList) : GrantList :=
  match gl_data s with
  | Some (total, _) =>
      if (0 <? gl_offset s) && (total <=? gl_offset s)
      then mkGrantList (gl_q s) (gl_role s) (clampOffset (gl_offset s) total ROLE_ASSIGNMENT_PAGE_SIZE) (gl_data s)
      else s
  | None => s
  end.

(** The page before stays on screen while another is read, so the pager is the
    one of the page last answered. *)
Definition grants_step (s : GrantList) (e : GrantEvent) : GrantList :=
  settle_page
    match e with
    | searched q => mkGrantList q (gl_role s) 0 (gl_data s)
    | role_chosen role => mkGrantList (gl_q s) role 0 (gl_data s)
    | page_turned forward =>
        match gl_data s with
        | Some (total, offset) =>
            match Pager pager_en total offset ROLE_ASSIGNMENT_PAGE_SIZE with
            | Some v =>
                match (if forward then pager_next v else pager_previous v) with
                | Some next => mkGrantList (gl_q s) (gl_role s) next (gl_data s)
                | None => s
                end
            | None => s
            end
        | None => s
        end
    | answered_page total => mkGrantList (gl_q s) (gl_role s) (gl_offset s) (Some (total, gl_offset s))
    end.

(** ** Facts *)

(** Each page of [pageSize] begins at a multiple of it. *)
Definition on_page (pageSize offset : Z) : Prop := 0 <= offset ∧ offset mod pageSize = 0.

Lemma clampOffset_page offset total pageSize :
  0 < pageSize → 0 <= total → on_page pageSize offset → on_page pageSize (clampOffset offset total pageSize).
Proof.
  intros Hp Ht Ho. unfold clampOffset. destruct (Z.ltb_spec offset total); [done|]. split; [lia|].
  destruct (Z.max_spec 0 ((total - 1) / pageSize * pageSize)) as [[_ ->]|[_ ->]]; [by apply Z.mod_mul; lia|by apply Z.mod_0_l; lia].
Qed.

(** A page left past the end of a list that shrank becomes its last page: it
    begins inside the list, unless there is nothing in it, and holds its end. *)
Theorem clampOffset_last offset total pageSize :
  0 < pageSize → 0 <= total → 0 <= offset →
  let o := clampOffset offset total pageSize in
  0 <= o ∧ (o < total ∨ (o = 0 ∧ total = 0)) ∧ (offset < total → o = offset) ∧
  (total <= offset → total <= o + pageSize ∧ o mod pageSize = 0).
Proof.
  intros Hp Ht Ho. cbv zeta. unfold clampOffset. destruct (Z.ltb_spec offset total) as [H|H].
  - split; [lia|]. split; [by left|]. split; [done|lia].
  - destruct (Z.eq_dec total 0) as [->|Hne].
    + assert ((0 - 1) / pageSize * pageSize <= 0) as Hm by (pose proof (Z.mul_div_le (0 - 1) pageSize Hp); lia).
      rewrite Z.max_l by lia. split; [lia|]. split; [by right|]. split; [lia|]. split; [lia|]. by apply Z.mod_0_l; lia.
    + assert (0 <= (total - 1) / pageSize) by (apply Z.div_pos; lia). rewrite Z.max_r by nia.
      pose proof (Z.mul_div_le (total - 1) pageSize Hp). pose proof (Z.mod_pos_bound (total - 1) pageSize Hp).
      pose proof (Z.div_mod (total - 1) pageSize ltac:(lia)).
      split; [lia|]. split; [left; lia|]. split; [lia|]. split; [lia|]. apply Z.mod_mul. lia.
Qed.

(** Turning pages leads from page to page and never off the list. *)
Lemma pager_pages words total offset pageSize v :
  0 < pageSize → on_page pageSize offset → Pager words total offset pageSize = Some v →
  (∀ o, pager_next v = Some o → on_page pageSize o ∧ o < total ∧ offset < o) ∧
  (∀ o, pager_previous v = Some o → on_page pageSize o ∧ o < offset).
Proof.
  intros Hp [H0 Hm]. unfold Pager. destruct (_ && _); [done|]. intros [= <-]. cbn [pager_next pager_previous]. split.
  - intros o. destruct (Z.leb_spec total (offset + pageSize)); [done|]. intros [= <-]. split; [|lia].
    split; [lia|]. rewrite <- Z.add_mod_idemp_l, Hm, Z.add_0_l by lia. by apply Z.mod_same; lia.
  - intros o. destruct (Z.eqb_spec offset 0); [done|]. intros [= <-].
    assert (pageSize <= offset) as Hle.
    { apply Z.mod_divide in Hm as [k ->]; [|lia]. assert (0 < k) by nia. nia. }
    rewrite Z.max_r by lia. split; [|lia]. split; [lia|].
    rewrite <- Zminus_mod_idemp_l, Hm, <- Zminus_mod_idemp_r, Z.mod_same by lia. by apply Z.mod_0_l; lia.
Qed.

(** What holds of the list of grants between events. *)
Definition grants_ok (s : GrantList) : Prop :=
  on_page ROLE_ASSIGNMENT_PAGE_SIZE (gl_offset s) ∧
  match gl_data s with
  | Some (total, offset) => 0 <= total ∧ on_page ROLE_ASSIGNMENT_PAGE_SIZE offset ∧ (gl_offset s < total ∨ gl_offset s = 0)
  | None => gl_offset s = 0
  end.

Lemma settle_ok s :
  on_page ROLE_ASSIGNMENT_PAGE_SIZE (gl_offset s) →
  match gl_data s with
  | Some (total, offset) => 0 <= total ∧ on_page ROLE_ASSIGNMENT_PAGE_SIZE offset
  | None => gl_offset s = 0
  end → grants_ok (settle_page s).
Proof.
  intros Ho Hd. unfold settle_page. destruct (gl_data s) as [[total offset]|] eqn:Ed; [|by split; [|rewrite Ed]].
  destruct Hd as [Ht Hof]. destruct (Z.ltb_spec 0 (gl_offset s)); cbn [andb].
  - destruct (Z.leb_spec total (gl_offset s)); (split; [|cbn [gl_offset gl_data]; rewrite ?Ed; split; [done|split; [done|]]]); cbn [gl_offset];
      [by apply clampOffset_page| |done|by left].
    destruct (clampOffset_last (gl_offset s) total ROLE_ASSIGNMENT_PAGE_SIZE) as (_ & [?|[? _]] & _); try done; [lia|by left|by right].
  - split; [done|rewrite Ed; split; [done|split; [done|]]]. right. destruct Ho. lia.
Qed.

(** However the list of grants is searched, narrowed, turned and answered, the
    page asked for begins at a multiple of the page's size, inside the list that
    was last answered; a search or a role starts over from the first page. *)
Theorem grants_page_in_list es :
  Forall (fun e => match e with answered_page total => 0 <= total | _ => True end) es →
  let s := foldl grants_step grants_start es in
  grants_ok s ∧ ∀ q role, gl_offset (grants_step s (searched q)) = 0 ∧ gl_offset (grants_step s (role_chosen role)) = 0.
Proof.
  intros Hes. cbv zeta. assert (∀ s, gl_offset s = 0 → gl_offset (settle_page s) = 0) as Hfirst.
  { intros s Hs. unfold settle_page. destruct (gl_data s) as [[]|]; [|done]. by rewrite Hs. }
  split; [|intros; split; by apply Hfirst].
  assert (grants_ok grants_start) as H0 by (split; [split; [done|reflexivity]|done]).
  revert H0. generalize grants_start. induction Hes as [|e es He _ IH]; intros s Hs; [done|]. cbn [foldl]. apply IH. clear IH.
  destruct Hs as [Ho Hd]. destruct e as [q|role|forward|total]; unfold grants_step.
  - apply settle_ok; cbn; [by split|]. destruct (gl_data s) as [[]|]; [tauto|done].
  - apply settle_ok; cbn; [by split|]. destruct (gl_data s) as [[]|]; [tauto|done].
  - assert (grants_ok (settle_page s)) as Hsame.
    { apply settle_ok; [done|]. destruct (gl_data s) as [[]|]; [tauto|done]. }
    destruct (gl_data s) as [[total offset]|] eqn:Ed; [|exact Hsame]. destruct Hd as (Ht & Hof & _).
    destruct (Pager _ _ _ _) as [v|] eqn:Ep; [|exact Hsame]. destruct (pager_pages pager_en total offset ROLE_ASSIGNMENT_PAGE_SIZE v ltac:(reflexivity) Hof Ep) as [Hn Hp].
    destruct (if forward then pager_next v else pager_previous v) as [o|] eqn:Eo; [|exact Hsame].
    apply settle_ok; cbn; [|by split]. destruct forward; [by apply (Hn o)|by apply (Hp o)].
  - apply settle_ok; cbn; done.
Qed.

(** The search box settles on what the list shows: whenever no timer runs, what
    is in the box is what the list is searched for, but for spaces around it,
    however typing, pauses and changes from elsewhere fall. *)
Theorem search_box_settles value es :
  let s := foldl search_step (box value) es in
  ls_waiting s = None → ls_text s = ls_value s ∨ trim (ls_text s) = ls_value s.
Proof.
  cbv zeta. assert (∀ s, match ls_waiting s with None => ls_text s = ls_value s ∨ trim (ls_text s) = ls_value s
                         | Some next => next = ls_text s end →
    let s' := foldl search_step s es in
    match ls_waiting s' with None => ls_text s' = ls_value s' ∨ trim (ls_text s') = ls_value s' | Some next => next = ls_text s' end) as H.
  { induction es as [|e es IH]; intros s Hs; [exact Hs|]. cbn [foldl]. apply IH. clear IH.
    destruct e as [next| |v]; cbn [search_step]; [done| |].
    - destruct (ls_waiting s) as [next|] eqn:E; [|by rewrite E]. subst next. unfold valued. cbn.
      case_decide as Hv; [by right|by left].
    - unfold valued. cbn. destruct (ls_waiting s) as [next|]; [by case_decide|]. case_decide as Hv; [by subst v|by left]. }
  specialize (H (box value) (or_introl eq_refl)). cbv zeta in H. intros E. by rewrite E in H.
Qed.

Lemma clampOffset_last_witness : 0 <= clampOffset 100 73 50 ∧ clampOffset 100 73 50 = 50.
Proof. split; [apply (clampOffset_last 100 73 50); lia|reflexivity]. Defined.

Definition some_pages : list GrantEvent :=
  [answered_page 120; page_turned true; answered_page 120; page_turned true; answered_page 80; searched "ann"; answered_page 3].

Lemma grants_page_in_list_witness : grants_ok (foldl grants_step grants_start some_pages).
Proof. apply (grants_page_in_list some_pages). repeat constructor; lia. Defined.

Lemma search_box_settles_witness :
  let s := foldl search_step (box "ann") [typed "anna "; changed_elsewhere "ben"; typing_paused] in
  ls_text s = ls_value s ∨ trim (ls_text s) = ls_value s.
Proof. by apply (search_box_settles "ann" [typed "anna "; changed_elsewhere "ben"; typing_paused]). Defined.
