(* ===== verification/Access.v ===== *)
(** Who may do what: [web/src/api/access.ts] and the pages of
    [web/src/features/access] — the grid of roles, the form that grants one, the
    identity provider and the rule for two-step sign-in. *)

From Stdlib Require Import ZArith Lia Ascii String.
From stdpp Require Import base sets list strings.
From S2P Require Import Prelude JsString Config PlanPieces.

Open Scope Z_scope.

(** ** What is held *)

Record RoleDescription := mkRoleDescription {
  rd_role : string;
  rd_name : string;
  rd_description : string;
  rd_orgWideOnly : bool;
  rd_builtin : bool;
  rd_permissions : list string;
  rd_inUse : Z;
}.

Record Grant := mkGrant { grant_role : string; grant_projectKey : option string }.

Record Access := mkAccess {
  access_grants : list Grant;
  access_projects : list string;
  access_canAdministerOrg : bool;
  access_canCreateProject : bool;
  access_org : list string;
  access_in_projects : list (string * list string);
}.

Definition holds (access : option Access) (permission projectKey : string) : bool :=
  match access with
  | None => false
  | Some a =>
      bool_decide (permission ∈ access_org a) ||
      bool_decide (permission ∈ default [] (jget (access_in_projects a) projectKey))
  end.

Definition canAdminister (access : option Access) (projectKey : string) : bool := holds access "project.administer" projectKey.
Definition canWriteIssues (access : option Access) (projectKey : string) : bool := holds access "issue.write" projectKey.

(** ** Names *)

Definition permission_words : list (string * string) :=
  [("read", "see projects"); ("issue.write", "create and edit issues");
   ("issue.transition", "move issues through the workflow"); ("comment.write", "comment");
   ("sprint.manage", "plan sprints"); ("team.manage", "manage teams"); ("board.configure", "set up boards");
   ("project.administer", "administer projects"); ("project.create", "create projects");
   ("org.administer", "administer Armature")]%string.

Definition permissionWords (permission : string) : string := default permission (jget permission_words permission).

(** [replace(/_/g, " ")]. *)
Fixpoint spaced (s : string) : string :=
  match s with
  | EmptyString => EmptyString
  | String c s' => String (if decide (c = "_"%char) then " "%char else c) (spaced s')
  end.

Definition roleName (role : string) : string :=
  let words := trim (spaced role) in
  if truthy words then capitalised words else role.

(** [useRoleName]: the organization's name for a role, once the list is there. *)
Definition useRoleName (roles : list RoleDescription) (role : string) : string :=
  default (roleName role) (jget (jof (map (fun each => (rd_role each, rd_name each)) roles)) role).

Record Group := mkGroup { group_id : string; group_name : option string; group_everyone : bool }.

Definition groupLabel (everyone_word : string) (g : Group) : string :=
  if group_everyone g then everyone_word else default EmptyString (group_name g).

(** The parameters of a page of grants, those that are said. *)
Definition assignment_params (projectKey q role : string) (offset : Z) : list (string * string) :=
  [("limit"%string, stringOfInt ROLE_ASSIGNMENT_PAGE_SIZE)] ++
  (if truthy projectKey then [("project"%string, projectKey)] else []) ++
  (if truthy (trim q) then [("q"%string, trim q)] else []) ++
  (if truthy role then [("role"%string, role)] else []) ++
  (if offset =? 0 then [] else [("offset"%string, stringOfInt offset)]).

(** ** The grid of roles: [RoleMatrix.tsx] *)

Definition GLOBAL_ADMINISTRATOR : string := "global_administrator".
Definition ORG_ADMINISTER : string := "org.administer".

(** The permissions a role is to have after a box was changed. *)
Definition toggle_permission (role : RoleDescription) (permission : string) (on : bool) : list string :=
  if on then rd_permissions role ++ [permission] else filter (fun p => p ≠ permission) (rd_permissions role).

(** The one tick that cannot come off. *)
Definition fixed_cell (role : RoleDescription) (permission : string) : bool :=
  bool_decide (rd_role role = GLOBAL_ADMINISTRATOR) && bool_decide (permission = ORG_ADMINISTER).

(** [mx_saving]: an update is under way; it is until the roles were read again. *)
Record Matrix := mkMatrix { mx_roles : list RoleDescription; mx_administers : bool; mx_saving : option (string * list string) }.

Definition cell_disabled (m : Matrix) (role : RoleDescription) (permission : string) : bool :=
  negb (mx_administers m) || fixed_cell role permission || bool_decide (is_Some (mx_saving m)).

(** The box in the column of the [i]th role. *)
Inductive MatrixEvent := ticked (i : nat) (permission : string) | update_accepted | update_refused.

Definition with_permissions (role : string) (next : list string) (each : RoleDescription) : RoleDescription :=
  if decide (rd_role each = role)
  then mkRoleDescription (rd_role each) (rd_name each) (rd_description each) (rd_orgWideOnly each) (rd_builtin each) next (rd_inUse each)
  else each.

(** What the server keeps once it has accepted, and answers when it is read again. *)
Definition saved_roles (roles : list RoleDescription) (role : string) (next : list string) : list RoleDescription :=
  map (with_permissions role next) roles.

Definition matrix_step (m : Matrix) (e : MatrixEvent) : Matrix :=
  match e with
  | ticked i permission =>
      match mx_roles m !! i with
      | Some role =>
          if cell_disabled m role permission then m
          else mkMatrix (mx_roles m) (mx_administers m)
            (Some (rd_role role, toggle_permission role permission (negb (bool_decide (permission ∈ rd_permissions role)))))
      | None => m
      end
  | update_accepted =>
      match mx_saving m with
      | Some (role, next) => mkMatrix (saved_roles (mx_roles m) role next) (mx_administers m) None
      | None => m
      end
  | update_refused => mkMatrix (mx_roles m) (mx_administers m) None
  end.

(** ** Granting a role: [GrantForm] of [RoleTable.tsx] *)

Definition user_option (id : string) : string := "user:" +:+ id.
Definition group_option (id : string) : string := "group:" +:+ id.

Record GrantInput := mkGrantInput {
  input_role : string; input_projectKey : option string; input_userId : option string; input_groupId : option string;
}.

Definition undefined_if_empty (s : string) : option string := if truthy s then Some s else None.

Definition scopeIsFixed (roles : list RoleDescription) (role : string) : bool :=
  default false (rd_orgWideOnly <$> head (filter (fun each => rd_role each = role) roles)).

Definition submit_grant (roles : list RoleDescription) (subject role scope : string) : option GrantInput :=
  if negb (truthy subject) then None
  else
    let parts := split ":" subject in
    let kind := default EmptyString (parts !! 0%nat) in
    Some (mkGrantInput role
      (if scopeIsFixed roles role then None else undefined_if_empty scope)
      (if decide (kind = "user"%string) then parts !! 1%nat else None)
      (if decide (kind = "group"%string) then parts !! 1%nat else None)).

(** ** The identity provider: [ProviderSettings.tsx] *)

Record Provider := mkProvider {
  provider_issuer : string;
  provider_clientId : string;
  provider_groupsClaim : string;
  provider_scopes : string;
  provider_createGroups : bool;
  provider_admitByGroup : bool;
  provider_enabled : bool;
}.

(** What has been typed; [None] is what nobody has touched. *)
Record ProviderForm := mkProviderForm {
  form_issuer : option string; form_clientId : option string; form_secret : string;
  form_claim : option string; form_admit : option bool;
}.

Record ProviderInput := mkProviderInput { sent_provider : Provider; sent_secret : string }.

Definition or_stored {A} (typed : option A) (stored : option A) (fallback : A) : A := default (default fallback stored) typed.

Definition save_provider (provider : option Provider) (f : ProviderForm) : ProviderInput :=
  mkProviderInput
    (mkProvider (or_stored (form_issuer f) (provider_issuer <$> provider) EmptyString)
      (or_stored (form_clientId f) (provider_clientId <$> provider) EmptyString)
      (or_stored (form_claim f) (provider_groupsClaim <$> provider) "groups")
      (default "openid profile email"%string (provider_scopes <$> provider))
      (default false (provider_createGroups <$> provider))
      (or_stored (form_admit f) (provider_admitByGroup <$> provider) false) true)
    (form_secret f).

Definition turn_off (p : Provider) : ProviderInput :=
  mkProviderInput (mkProvider (provider_issuer p) (provider_clientId p) (provider_groupsClaim p) (provider_scopes p)
    (provider_createGroups p) (provider_admitByGroup p) false) EmptyString.

(** ** Two-step sign-in: [SecondFactorRequirement.tsx] *)

Inductive SecondFactorRule := factor_off | factor_admins | factor_everyone.
#[export] Instance SecondFactorRule_eq : EqDecision SecondFactorRule.
Proof. solve_decision. Defined.

Definition RULES : list SecondFactorRule := [factor_off; factor_admins; factor_everyone].

(** The rule chosen, and the one the server has. *)
Record RuleForm := mkRuleForm { rule_draft : option SecondFactorRule; rule_current : SecondFactorRule }.

Inductive RuleEvent := rule_chosen (r : SecondFactorRule) | rule_saved.

Definition rule_can_save (f : RuleForm) : bool :=
  match rule_draft f with None => false | Some d => negb (bool_decide (d = rule_current f)) end.

Definition rule_step (f : RuleForm) (e : RuleEvent) : RuleForm :=
  match e with
  | rule_chosen r => mkRuleForm (Some r) (rule_current f)
  | rule_saved =>
      if rule_can_save f then mkRuleForm None (default (rule_current f) (rule_draft f)) else f
  end.

(** ** Facts *)

(** A permission counts in a project exactly when it is held over the whole
    organization or in that project: what is held in other projects does not. *)
Theorem holds_scoped a permission projectKey :
  (holds (Some a) permission projectKey = true ↔
   permission ∈ access_org a ∨ ∃ held, jget (access_in_projects a) projectKey = Some held ∧ permission ∈ held) ∧
  (∀ other held, other ≠ projectKey →
     holds (Some (mkAccess (access_grants a) (access_projects a) (access_canAdministerOrg a) (access_canCreateProject a)
                    (access_org a) (jset (access_in_projects a) other held))) permission projectKey =
     holds (Some a) permission projectKey) ∧
  holds None permission projectKey = false.
Proof.
  unfold holds. split_and!; [| |done].
  - rewrite orb_true_iff, !bool_decide_eq_true. destruct (jget (access_in_projects a) projectKey) as [held|]; cbn.
    + split; [intros [?|?]; [by left|right; by exists held]|intros [?|(? & [= <-] & ?)]; [by left|by right]].
    + split; [intros [?|H]; [by left|by apply elem_of_nil in H]|intros [?|(? & ? & _)]; [by left|done]].
  - intros other held Ho. cbn. by rewrite jget_jset_ne.
Qed.

(** The role that administers keeps the permission to. *)
Definition can_put_back (roles : list RoleDescription) : Prop :=
  ∀ each, each ∈ roles → rd_role each = GLOBAL_ADMINISTRATOR → ORG_ADMINISTER ∈ rd_permissions each.

Definition saving_ok (m : Matrix) : Prop :=
  ∀ next, mx_saving m = Some (GLOBAL_ADMINISTRATOR, next) → ORG_ADMINISTER ∈ next.

Lemma toggle_keeps_admin role permission on :
  fixed_cell role permission = false → rd_role role = GLOBAL_ADMINISTRATOR → ORG_ADMINISTER ∈ rd_permissions role →
  ORG_ADMINISTER ∈ toggle_permission role permission on.
Proof.
  unfold fixed_cell, toggle_permission. intros Hf Hr Hin. rewrite bool_decide_true in Hf by done. apply bool_decide_eq_false in Hf.
  destruct on; [apply elem_of_app; by left|]. apply list_elem_of_filter. by split.
Qed.

(** C32: nobody locks everybody out from the grid of roles: as long as the global
    administrators could administer the organization to begin with, no sequence
    of ticks, savings and refusals takes that from them. *)
Theorem matrix_keeps_admin m es :
  can_put_back (mx_roles m) → mx_saving m = None →
  let m' := foldl matrix_step m es in can_put_back (mx_roles m') ∧ saving_ok m'.
Proof.
  intros Hm Hs. cbv zeta. assert (saving_ok m) as Hsave by (intros next; by rewrite Hs).
  clear Hs. revert m Hm Hsave. induction es as [|e es IH]; intros m Hm Hsave; [done|]. cbn [foldl].
  apply IH; destruct e as [i permission| |]; cbn [matrix_step]; clear IH; try done.
  - destruct (mx_roles m !! i); [|done]. by destruct (cell_disabled _ _ _).
  - destruct (mx_saving m) as [[role next]|] eqn:E; [|done]. cbn. intros each (each' & -> & Hin)%list_elem_of_fmap.
    unfold with_permissions. case_decide as Hr; cbn; [|by apply Hm]. intros Hg. apply Hsave. rewrite E. by rewrite <- Hr, Hg.
  - destruct (mx_roles m !! i) as [role|] eqn:E; [|done]. destruct (cell_disabled m role permission) eqn:Ed; [done|].
    intros next. cbn. intros [= Hr <-]. unfold cell_disabled in Ed. apply orb_false_iff in Ed as [Ed _].
    apply orb_false_iff in Ed as [_ Ed]. apply toggle_keeps_admin; [done|done|].
    apply Hm; [by eapply list_elem_of_lookup_2|done].
  - destruct (mx_saving m) as [[role next]|]; [|done]. intros ?. done.
Qed.

Lemma toggle_elem role permission p :
  p ∈ toggle_permission role permission (negb (bool_decide (permission ∈ rd_permissions role))) ↔
  (if decide (p = permission) then permission ∉ rd_permissions role else p ∈ rd_permissions role).
Proof.
  unfold toggle_permission. case_bool_decide as Hin; cbn [negb].
  - rewrite list_elem_of_filter. case_decide; naive_solver.
  - rewrite elem_of_app, list_elem_of_singleton. case_decide; naive_solver.
Qed.

(** A tick that is saved changes that one crossing: the role has the permission
    where it had not, and every other permission of every role stays. *)
Theorem tick_saved m i permission role j each :
  mx_roles m !! i = Some role → cell_disabled m role permission = false → mx_roles m !! j = Some each →
  (∀ k each', mx_roles m !! k = Some each' → rd_role each' = rd_role role → k = i) →
  let m' := foldl matrix_step m [ticked i permission; update_accepted] in
  ∃ each', mx_roles m' !! j = Some each' ∧ rd_role each' = rd_role each ∧
    ∀ p, p ∈ rd_permissions each' ↔
      (if decide (j = i ∧ p = permission) then p ∉ rd_permissions each else p ∈ rd_permissions each).
Proof.
  intros Hi Hd Hj Huniq. cbn [foldl matrix_step]. rewrite Hi, Hd. cbn [mx_saving mx_roles].
  unfold saved_roles. rewrite list_lookup_fmap, Hj. eexists. split; [reflexivity|]. unfold with_permissions.
  case_decide as Hr; (split; [done|]); intros p; cbn.
  - assert (j = i) as -> by by eapply Huniq. assert (each = role) as -> by congruence. rewrite toggle_elem.
    destruct (decide (p = permission)) as [->|Hp]; [by rewrite decide_True|by rewrite decide_False by tauto].
  - rewrite decide_False; [done|]. intros [-> _]. apply Hr. congruence.
Qed.

Lemma split_none sep s : string_forall (fun c => negb (bool_decide (c = sep))) s = true → split sep s = [s].
Proof.
  induction s as [|c s IH]; [done|]. cbn [string_forall split]. intros [Hc Hs]%andb_true_iff.
  apply negb_true_iff, bool_decide_eq_false in Hc. rewrite IH by done. by rewrite decide_False.
Qed.

(** The form grants to the one that was chosen: an option of a person names that
    person and no group, an option of a group that group and no person; and a
    role of the whole organization is never granted over one project. *)
Theorem grant_names_chosen roles id role scope :
  string_forall (fun c => negb (bool_decide (c = ":"%char))) id = true →
  (∃ i, submit_grant roles (user_option id) role scope = Some i ∧ input_userId i = Some id ∧ input_groupId i = None ∧ input_role i = role) ∧
  (∃ i, submit_grant roles (group_option id) role scope = Some i ∧ input_groupId i = Some id ∧ input_userId i = None ∧ input_role i = role) ∧
  (∀ subject i, scopeIsFixed roles role = true → submit_grant roles subject role scope = Some i → input_projectKey i = None).
Proof.
  intros Hid. assert (∀ k, string_forall (fun c => negb (bool_decide (c = ":"%char))) k = true → split ":" (k +:+ ":" +:+ id) = [k; id]) as Hsplit.
  { induction k as [|c k IH]; intros Hk.
    - change (EmptyString +:+ ":" +:+ id) with (String ":" id). change (split ":" (String ":" id)) with (EmptyString :: split ":" id). by rewrite split_none.
    - cbn [string_forall] in Hk. apply andb_true_iff in Hk as [Hc Hk]. apply negb_true_iff, bool_decide_eq_false in Hc.
      change (String c k +:+ ":" +:+ id) with (String c (k +:+ ":" +:+ id)). cbn [split]. rewrite IH by done. by rewrite decide_False. }
  split_and!.
  - unfold submit_grant. change (user_option id) with ("user" +:+ ":" +:+ id). rewrite Hsplit by reflexivity.
    eexists. split; [reflexivity|]. done.
  - unfold submit_grant. change (group_option id) with ("group" +:+ ":" +:+ id). rewrite Hsplit by reflexivity.
    eexists. split; [reflexivity|]. done.
  - intros subject i Hf. unfold submit_grant. destruct (negb (truthy subject)); [done|]. intros [= <-]. cbn. by rewrite Hf.
Qed.

(** Saving the form untouched sends what is stored, with the secret left alone, and
    turning the provider off sends what is stored, whatever has been typed. *)
Theorem provider_untouched p :
  let f := mkProviderForm None None EmptyString None None in
  sent_secret (save_provider (Some p) f) = EmptyString ∧
  (provider_enabled p = true → sent_provider (save_provider (Some p) f) = p) ∧
  sent_provider (turn_off p) = mkProvider (provider_issuer p) (provider_clientId p) (provider_groupsClaim p) (provider_scopes p)
    (provider_createGroups p) (provider_admitByGroup p) false.
Proof. split; [done|]. split; [|done]. destruct p; cbn. by intros ->. Qed.

Definition admin_role : RoleDescription :=
  mkRoleDescription GLOBAL_ADMINISTRATOR "Global administrator" EmptyString true true ["read"; ORG_ADMINISTER]%string 1.

Lemma matrix_keeps_admin_witness :
  can_put_back (mx_roles (foldl matrix_step (mkMatrix [admin_role] true None)
    [ticked 0 ORG_ADMINISTER; ticked 0 "read"; update_accepted; ticked 0 ORG_ADMINISTER; update_accepted])).
Proof.
  apply (matrix_keeps_admin (mkMatrix [admin_role] true None)
    [ticked 0 ORG_ADMINISTER; ticked 0 "read"; update_accepted; ticked 0 ORG_ADMINISTER; update_accepted]); [|reflexivity].
  intros each Hin%list_elem_of_singleton _. subst each. apply (bool_decide_unpack _). vm_compute. exact I.
Defined.

Lemma grant_names_chosen_witness :
  ∃ i, submit_grant [admin_role] (user_option "u1") GLOBAL_ADMINISTRATOR "PR" = Some i ∧ input_userId i = Some "u1"%string ∧
       input_groupId i = None ∧ input_role i = GLOBAL_ADMINISTRATOR.
Proof. exact (proj1 (grant_names_chosen [admin_role] "u1" GLOBAL_ADMINISTRATOR "PR" eq_refl)). Defined.
