(* ===== verification/PlanPage.v ===== *)
(** The plan's page: [web/src/routes/plan.tsx], the graph of dependencies it can
    show ([features/plan/DependencyGraph.tsx]) and what its toolbar changes
    ([PlanToolbar.tsx]). *)

From Stdlib Require Import ZArith QArith Qround Lia Ascii String.
From stdpp Require Import base sets list strings sorting.
From S2P Require Import Prelude JsString Config LibGraph PlanGraph PlanGraphLayout Api ApiPlan Views PlanPieces PlanTimeline Access.

Open Scope Z_scope.

(** ** The graph of dependencies *)

Definition GRAPH_FALLBACK_PANE_WIDTH : Z := 900.

Definition graph_shown (cut : Cut) (query : string) (filters : option Filters) (data : Plan) (now : Z) : list PlanItem :=
  filterItems (cutItems (pl_items data) (cut_of cut query data) now) filters.

Definition keys_of (items : list PlanItem) : list string := map (fun i => issue_key (item_issue i)) (flatten items).

(** The loop's variables: the keys of other projects, and the edges drawn. *)
Record Drawn := mkDrawn { drawn_externals : list string; drawn_edges : list GraphEdge }.

Section Selection.
Context (visible inProject : list string).

Definition end_drawn (key : string) : bool := bool_decide (key ∈ visible) || negb (bool_decide (key ∈ inProject)).

(** One turn of the loop over the dependencies. *)
Definition draw_dependency (d : Drawn) (dep : Dependency) : Drawn :=
  let ends := [dep_blockerKey dep; dep_blockedKey dep] in
  if negb (end_drawn (dep_blockerKey dep)) || negb (end_drawn (dep_blockedKey dep)) ||
     (negb (bool_decide (dep_blockerKey dep ∈ visible)) && negb (bool_decide (dep_blockedKey dep ∈ visible)))
  then d
  else mkDrawn
    (foldl (fun s key => if bool_decide (key ∈ inProject) then s else set_add s key) (drawn_externals d) ends)
    (drawn_edges d ++ [mkGraphEdge (dep_linkId dep) (dep_blockerKey dep) (dep_blockedKey dep)]).

Definition draw_dependencies (deps : list Dependency) : Drawn := foldl draw_dependency (mkDrawn [] []) deps.

Definition graph_nodes (deps : list Dependency) : list string := visible ++ drawn_externals (draw_dependencies deps).
End Selection.

(** The keys of a [Map], and of a [Set], made of the items. *)
Definition visible_keys (items : list PlanItem) : list string := jkeys (jof (map (fun k => (k, tt)) (keys_of items))).
Definition project_keys (data : Plan) : list string := set_of (keys_of (pl_items data)).

Definition graph_columns (available : Z) : Z :=
  let paneWidth := if available =? 0 then GRAPH_FALLBACK_PANE_WIDTH else available in
  Z.max GRAPH_MIN_GRID_COLUMNS ((paneWidth - GRAPH_ORIGIN) / (GRAPH_NODE_WIDTH + GRAPH_ROW_GAP)).

Definition dependency_layout `{Collation} `{MathHypot} (cut : Cut) (query : string) (filters : option Filters) (data : Plan)
    (available now : Z) : option GraphLayout :=
  let visible := visible_keys (graph_shown cut query filters data now) in
  let inProject := project_keys data in
  layoutGraph (graph_nodes visible inProject (pl_dependencies data))
    (drawn_edges (draw_dependencies visible inProject (pl_dependencies data))) (graph_columns available).

(** ** Drawing a dependency on it *)

(** The ref, and the line as it is drawn with the node it would end on. *)
Record GraphLink := mkGraphLink { glink_from : option string; glink_to : option string }.

(** The pointer, with the node the document finds under it. *)
Inductive GraphEvent :=
  | link_started (button : Z) (from : string)
  | link_moved (node : option string)
  | link_ended (node : option string).

Definition nodeUnder (inProject : list string) (node : option string) (from : string) : option string :=
  match node with
  | Some key => if truthy key && negb (bool_decide (key = from)) && bool_decide (key ∈ inProject) then Some key else None
  | None => None
  end.

Definition graph_step (inProject : list string) (s : GraphLink * list (string * string)) (e : GraphEvent)
  : GraphLink * list (string * string) :=
  let '(link, asked) := s in
  match e with
  | link_started button from => if button =? 0 then (mkGraphLink (Some from) None, asked) else s
  | link_moved node =>
      match glink_from link with
      | Some from => (mkGraphLink (Some from) (nodeUnder inProject node from), asked)
      | None => s
      end
  | link_ended node =>
      (mkGraphLink None None,
       match glink_from link with
       | Some from =>
           match nodeUnder inProject node from with Some to => asked ++ [(from, to)] | None => asked end
       | None => asked
       end)
  end.

(** ** The toolbar *)

Definition active_filters (f : Filters) (closedForDays : option Z) : Z :=
  Z.of_nat (length (filter_types f)) + (if truthy (filter_milestoneId f) then 1 else 0) +
  (if truthy (filter_teamId f) then 1 else 0) +
  match closedForDays with None => 0 | Some d => if d =? 14 then 0 else 1 end.

Definition toggleType (f : Filters) (name : string) : Filters :=
  mkFilters (if decide (name ∈ filter_types f) then filter (fun each => each ≠ name) (filter_types f)
             else filter_types f ++ [name]) (filter_milestoneId f) (filter_teamId f).

(** ** The page *)

(** The address: the view and the query. *)
Definition validateSearch (view q : option string) : PlanView * option string :=
  (viewFor view, match q with Some q => undefined_if_empty q | None => None end).

Record Address := mkAddress { address_projectKey : string; address_view : PlanView; address_q : string }.
#[export] Instance Address_eq : EqDecision Address.
Proof. solve_decision. Defined.

Definition scope_of (a : Address) : string :=
  address_projectKey a +:+ " " +:+ view_id (address_view a) +:+ " " +:+ address_q a.

(** What the page has asked the server for, with what its closure kept. *)
Inductive PageRequest :=
  | ask_align (at_ : Address) (place : bool)
  | ask_apply (projectKey : string) (moves : list ScheduleMoveInput)
  | ask_undo (projectKey : string) (moves : list ScheduleMoveInput).

(** A toast that offers to undo: the moves it would take back, and for which project. *)
Record UndoOffer := mkUndoOffer { offer_projectKey : string; offer_moves : list ScheduleMoveInput }.

Record PlanPageState := mkPlanPage {
  pp_address : Address;
  pp_held : option (string * Alignment);
  pp_place : bool;
  pp_asked : list PageRequest;
  pp_offers : list UndoOffer;
}.

Definition plan_page (a : Address) : PlanPageState := mkPlanPage a None false [] [].

(** The proposal that is shown. *)
Definition proposal (s : PlanPageState) : option Alignment :=
  match pp_held s with
  | Some (scope, alignment) => if decide (scope = scope_of (pp_address s)) then Some alignment else None
  | None => None
  end.

Inductive PageEvent :=
  | navigated (a : Address)
  | previewed (placing : option bool)
  | cancelled
  | applied_pressed
  | undo_pressed (n : nat)
  | answered_align (n : nat) (alignment : Alignment)
  | accepted (n : nat).

Definition holding (held : option (string * Alignment)) (s : PlanPageState) : PlanPageState :=
  mkPlanPage (pp_address s) held (pp_place s) (pp_asked s) (pp_offers s).
Definition asking (r : PageRequest) (s : PlanPageState) : PlanPageState :=
  mkPlanPage (pp_address s) (pp_held s) (pp_place s) (pp_asked s ++ [r]) (pp_offers s).

Definition page_step (s : PlanPageState) (e : PageEvent) : PlanPageState :=
  match e with
  | navigated a => mkPlanPage a (pp_held s) (pp_place s) (pp_asked s) (pp_offers s)
  | previewed placing =>
      let placing := default (pp_place s) placing in
      asking (ask_align (pp_address s) placing) (mkPlanPage (pp_address s) (pp_held s) placing (pp_asked s) (pp_offers s))
  | cancelled => holding None s
  | applied_pressed =>
      match proposal s with
      | Some a => asking (ask_apply (address_projectKey (pp_address s)) (movesToSave a)) s
      | None => s
      end
  | undo_pressed n =>
      match pp_offers s !! n with
      | Some o => asking (ask_undo (offer_projectKey o) (movesBack (offer_moves o))) s
      | None => s
      end
  | answered_align n alignment =>
      match pp_asked s !! n with
      | Some (ask_align at_ _) => holding (Some (scope_of at_, alignment)) s
      | _ => s
      end
  | accepted n =>
      match pp_asked s !! n with
      | Some (ask_apply projectKey moves) =>
          mkPlanPage (pp_address s) None (pp_place s) (pp_asked s) (pp_offers s ++ [mkUndoOffer projectKey moves])
      | _ => s
      end
  end.

(** ** Facts: what the graph draws *)

Section SelectionFacts.
Context (visible inProject : list string).

Lemma externals_add s ends key :
  key ∈ foldl (fun s key => if bool_decide (key ∈ inProject) then s else set_add s key) s ends ↔
  key ∈ s ∨ (key ∈ ends ∧ key ∉ inProject).
Proof.
  revert s. induction ends as [|k ends IH]; intros s; cbn [foldl].
  - split; [by left|]. intros [?|[?%elem_of_nil _]]; done.
  - rewrite IH. case_bool_decide; [|rewrite elem_of_set_add]; rewrite elem_of_cons; naive_solver.
Qed.

(** What the loop keeps: an edge for a dependency that is drawn, and as externals
    the ends of edges that are in no project's rows. *)
Lemma draw_dependencies_spec deps :
  let d := draw_dependencies visible inProject deps in
  (∀ e, e ∈ drawn_edges d ↔ ∃ dep, dep ∈ deps ∧ e = mkGraphEdge (dep_linkId dep) (dep_blockerKey dep) (dep_blockedKey dep) ∧
     end_drawn visible inProject (dep_blockerKey dep) = true ∧ end_drawn visible inProject (dep_blockedKey dep) = true ∧
     (dep_blockerKey dep ∈ visible ∨ dep_blockedKey dep ∈ visible)) ∧
  (∀ k, k ∈ drawn_externals d ↔ k ∉ inProject ∧ ∃ e, e ∈ drawn_edges d ∧ (k = edge_from e ∨ k = edge_to e)).
Proof.
  cbv zeta. unfold draw_dependencies. induction deps as [|dep deps [IHe IHx]] using rev_ind.
  - cbn. split; [intros e|intros k]; split; try (intros ?%elem_of_nil; done); [intros (? & ?%elem_of_nil & _); done|intros (_ & ? & ?%elem_of_nil & _); done].
  - rewrite foldl_snoc. set (d := foldl (draw_dependency visible inProject) (mkDrawn [] []) deps) in *. clearbody d.
    unfold draw_dependency. destruct (end_drawn visible inProject (dep_blockerKey dep)) eqn:E1;
      [destruct (end_drawn visible inProject (dep_blockedKey dep)) eqn:E2|]; cbn [negb orb];
      [destruct (negb (bool_decide (dep_blockerKey dep ∈ visible)) && negb (bool_decide (dep_blockedKey dep ∈ visible))) eqn:E3|..].
    all: try (split; [|exact IHx]; intros e; rewrite IHe; split;
      [intros (dep' & Hin & H); exists dep'; split; [rewrite elem_of_app; by left|exact H]
      |intros (dep' & [Hin|Hin%list_elem_of_singleton]%elem_of_app & -> & H1 & H2 & H3);
        [exists dep'; done|subst dep'; exfalso]]).
    + apply andb_true_iff in E3 as [E3%negb_true_iff%bool_decide_eq_false E4%negb_true_iff%bool_decide_eq_false]. tauto.
    + cbn [drawn_edges drawn_externals]. assert (dep_blockerKey dep ∈ visible ∨ dep_blockedKey dep ∈ visible) as Hv.
      { apply andb_false_iff in E3 as [E3|E3]; apply negb_false_iff, bool_decide_eq_true in E3; tauto. }
      split.
      * intros e. rewrite elem_of_app, list_elem_of_singleton, IHe. split.
        -- intros [(dep' & Hin & H)| ->]; [exists dep'; rewrite elem_of_app; tauto|].
           exists dep. rewrite elem_of_app, list_elem_of_singleton. tauto.
        -- intros (dep' & [Hin|Hin%list_elem_of_singleton]%elem_of_app & -> & H); [left; by exists dep'|subst dep'; by right].
      * intros k. rewrite externals_add, IHx. rewrite !elem_of_cons. split.
        -- intros [(Hk & e & He & Hke)|[[->|[->|?%elem_of_nil]] Hk]]; [| | |done].
           ++ split; [done|]. exists e. split; [apply elem_of_app; by left|done].
           ++ split; [done|]. eexists. split; [apply elem_of_app; right; by apply list_elem_of_singleton|by left].
           ++ split; [done|]. eexists. split; [apply elem_of_app; right; by apply list_elem_of_singleton|by right].
        -- intros (Hk & e & [He|He%list_elem_of_singleton]%elem_of_app & Hke); [left; split; [done|]; by exists e|].
           subst e. cbn in Hke. right. split; [|done]. destruct Hke; [by left|right; by left].
    + rewrite E2 in H2. done.
    + rewrite E1 in H1. done.
Qed.

Lemma end_drawn_true key : end_drawn visible inProject key = true ↔ key ∈ visible ∨ key ∉ inProject.
Proof. unfold end_drawn. rewrite orb_true_iff, negb_true_iff, bool_decide_eq_true, bool_decide_eq_false. done. Qed.
End SelectionFacts.

Lemma visible_keys_spec items k : k ∈ visible_keys items ↔ k ∈ keys_of items.
Proof.
  unfold visible_keys. rewrite jkeys_jof. rewrite list_elem_of_fmap. split.
  - intros ([k' u] & -> & Hin). apply list_elem_of_fmap in Hin as (k'' & [= -> ->] & Hin). exact Hin.
  - intros Hk. exists (k, tt). split; [done|]. apply list_elem_of_fmap. by exists k.
Qed.

Section GraphWhole.
Context `{Collation} `{MathHypot}.

(** The graph of dependencies is whole: it is laid out for any plan; its boxes
    are the issues that are shown, and from other projects exactly those joined
    to one of them; and a dependency is drawn exactly when it joins two boxes,
    one of them an issue that is shown. *)
Theorem dependency_graph_whole cut query filters data available now :
  let visible := keys_of (graph_shown cut query filters data now) in
  let elsewhere key := key ∉ keys_of (pl_items data) in
  ∃ g, dependency_layout cut query filters data available now = Some g ∧
    (∀ k, is_Some (jget (gl_nodes g) k) ↔
       k ∈ visible ∨ (elsewhere k ∧ ∃ dep, dep ∈ pl_dependencies data ∧
         ((k = dep_blockerKey dep ∧ dep_blockedKey dep ∈ visible) ∨ (k = dep_blockedKey dep ∧ dep_blockerKey dep ∈ visible)))) ∧
    (∀ e, e ∈ laid_edge <$> gl_edges g ↔
       ∃ dep, dep ∈ pl_dependencies data ∧ e = mkGraphEdge (dep_linkId dep) (dep_blockerKey dep) (dep_blockedKey dep) ∧
         dep_blockerKey dep ≠ dep_blockedKey dep ∧
         ((dep_blockerKey dep ∈ visible ∧ (dep_blockedKey dep ∈ visible ∨ elsewhere (dep_blockedKey dep))) ∨
          (dep_blockedKey dep ∈ visible ∧ (dep_blockerKey dep ∈ visible ∨ elsewhere (dep_blockerKey dep))))).
Proof using Type.
  intros visible elsewhere. unfold dependency_layout. cbv zeta.
  set (vis := visible_keys _). set (inp := project_keys data).
  assert (∀ k, k ∈ vis ↔ k ∈ visible) as Hvis by apply visible_keys_spec.
  assert (∀ k, k ∈ inp ↔ k ∈ keys_of (pl_items data)) as Hinp by (intros; apply elem_of_set_of).
  destruct (draw_dependencies_spec vis inp (pl_dependencies data)) as [Hedges Hext].
  destruct (layoutGraph_nodes_edges (graph_nodes vis inp (pl_dependencies data))
    (drawn_edges (draw_dependencies vis inp (pl_dependencies data))) (graph_columns available)) as (g & -> & Hn & He).
  assert (∀ k, end_drawn vis inp k = true ↔ k ∈ visible ∨ elsewhere k) as Hend.
  { intros k. by rewrite end_drawn_true, Hvis, Hinp. }
  assert (∀ k, k ∈ graph_nodes vis inp (pl_dependencies data) ↔
    k ∈ visible ∨ (elsewhere k ∧ ∃ e, e ∈ drawn_edges (draw_dependencies vis inp (pl_dependencies data)) ∧ (k = edge_from e ∨ k = edge_to e))) as Hnodes.
  { intros k. unfold graph_nodes. rewrite elem_of_app, Hext, Hvis, Hinp. done. }
  assert (∀ k dep, (k = dep_blockerKey dep ∨ k = dep_blockedKey dep) → dep ∈ pl_dependencies data →
    end_drawn vis inp (dep_blockerKey dep) = true → end_drawn vis inp (dep_blockedKey dep) = true →
    (dep_blockerKey dep ∈ vis ∨ dep_blockedKey dep ∈ vis) → k ∈ graph_nodes vis inp (pl_dependencies data)) as Hboth.
  { intros k dep Hk Hd H1 H2 H3. apply Hnodes. assert (k ∈ visible ∨ elsewhere k) as [?|?] by (destruct Hk as [-> | ->]; by apply Hend); [by left|].
    right. split; [done|]. exists (mkGraphEdge (dep_linkId dep) (dep_blockerKey dep) (dep_blockedKey dep)). split; [|done].
    apply Hedges. by exists dep. }
  exists g. split; [done|]. split.
  - intros k. rewrite Hn, Hnodes. destruct (decide (k ∈ visible)) as [|Hnk]; [tauto|]. split.
    + intros [?|(Hk & e & Hin & Hke)]; [done|right]. split; [done|].
      apply Hedges in Hin as (dep & Hd & -> & H1 & H2 & H3). exists dep. split; [done|]. cbn in Hke.
      rewrite !Hvis in H3. destruct Hke as [-> | ->]; tauto.
    + intros [?|(Hk & dep & Hd & Hj)]; [done|right]. split; [done|].
      exists (mkGraphEdge (dep_linkId dep) (dep_blockerKey dep) (dep_blockedKey dep)). split; [|cbn; tauto].
      apply Hedges. exists dep. rewrite !Hend, !Hvis. destruct Hj as [[-> ?]|[-> ?]]; tauto.
  - intros e. rewrite He, Hedges. split.
    + intros ((dep & Hd & -> & H1 & H2 & H3) & _ & _ & Hne). exists dep. rewrite Hend in H1, H2. rewrite !Hvis in H3.
      cbn in Hne. tauto.
    + intros (dep & Hd & -> & Hne & Hj). cbn [edge_from edge_to].
      assert (end_drawn vis inp (dep_blockerKey dep) = true) as H1 by (apply Hend; tauto).
      assert (end_drawn vis inp (dep_blockedKey dep) = true) as H2 by (apply Hend; tauto).
      assert (dep_blockerKey dep ∈ vis ∨ dep_blockedKey dep ∈ vis) as H3 by (rewrite !Hvis; tauto).
      split; [by exists dep|]. split; [by apply (Hboth _ dep); try tauto|]. split; [by apply (Hboth _ dep); try tauto|done].
Qed.
End GraphWhole.

(** ** Facts: drawing a dependency *)

(** Every dependency that is drawn by hand ends on an issue of the project that is
    not the one it began at. *)
Theorem graph_links_apart inProject es :
  Forall (fun '(from, to) => from ≠ to ∧ to ∈ inProject) (foldl (graph_step inProject) (mkGraphLink None None, []) es).2.
Proof.
  assert (∀ s, Forall (fun '(from, to) => from ≠ to ∧ to ∈ inProject) s.2 →
    Forall (fun '(from, to) => from ≠ to ∧ to ∈ inProject) (foldl (graph_step inProject) s es).2) as H; [|by apply H].
  induction es as [|e es IH]; intros [link asked] Hs; [done|]. cbn [foldl]. apply IH. clear IH. cbn in Hs.
  destruct e as [b from|node|node]; cbn [graph_step]; [by destruct (b =? 0)|by destruct (glink_from link)|].
  cbn [snd]. destruct (glink_from link) as [from|]; [|done]. destruct (nodeUnder inProject node from) as [to|] eqn:E; [|done].
  apply Forall_app. split; [done|]. constructor; [|constructor]. unfold nodeUnder in E. destruct node as [k|]; [|done].
  destruct (truthy k); [|done]. cbn [andb] in E. destruct (negb (bool_decide (k = from))) eqn:E1; [|done]. cbn [andb] in E.
  destruct (bool_decide (k ∈ inProject)) eqn:E2; [|done]. injection E as <-. apply bool_decide_eq_true in E2.
  apply negb_true_iff, bool_decide_eq_false in E1. by split.
Qed.

(** ** Facts: the auto plan's proposal *)

Definition no_space (s : string) : bool := string_forall (fun c => negb (bool_decide (c = " "%char))) s.

Lemma first_space_inj s s' r r' : no_space s = true → no_space s' = true → s +:+ String " " r = s' +:+ String " " r' → s = s' ∧ r = r'.
Proof.
  revert s'. induction s as [|c s IH]; intros [|c' s'] Hs Hs'.
  - intros E. by injection E.
  - intros E. injection E as <- _. done.
  - intros E. injection E as -> _. done.
  - unfold no_space in Hs, Hs'. cbn [string_forall] in Hs, Hs'. apply andb_true_iff in Hs as [_ Hs], Hs' as [_ Hs'].
    change (String c s +:+ String " " r) with (String c (s +:+ String " " r)).
    change (String c' s' +:+ String " " r') with (String c' (s' +:+ String " " r')).
    intros E. injection E as -> E. destruct (IH s' Hs Hs' E) as [-> ->]. done.
Qed.

(** The scope of a proposal names its address. *)
Lemma scope_of_inj a b :
  no_space (address_projectKey a) = true → no_space (address_projectKey b) = true → scope_of a = scope_of b → a = b.
Proof.
  unfold scope_of. intros Ha Hb E.
  apply (first_space_inj _ _ _ _ Ha Hb) in E as [E1 E].
  apply first_space_inj in E as [E2 E3]; [|by destruct (address_view a)|by destruct (address_view b)].
  destruct a as [? va ?], b as [? vb ?]. cbn in *. subst. f_equal. by destruct va, vb.
Qed.

(** What a page's state says of how it came about. *)
Record plan_page_ok (es : list PageEvent) (s : PlanPageState) : Prop := {
  page_held : ∀ scope a, pp_held s = Some (scope, a) →
    ∃ n at_ place, pp_asked s !! n = Some (ask_align at_ place) ∧ no_space (address_projectKey at_) = true ∧
      scope = scope_of at_ ∧ answered_align n a ∈ es;
  page_here : no_space (address_projectKey (pp_address s)) = true;
  page_aligns : ∀ n at_ place, pp_asked s !! n = Some (ask_align at_ place) → no_space (address_projectKey at_) = true;
  page_applies : ∀ n projectKey moves, pp_asked s !! n = Some (ask_apply projectKey moves) →
    ∃ m at_ place a, pp_asked s !! m = Some (ask_align at_ place) ∧ address_projectKey at_ = projectKey ∧
      moves = movesToSave a ∧ answered_align m a ∈ es;
  page_offers : ∀ o, o ∈ pp_offers s → ∃ n, pp_asked s !! n = Some (ask_apply (offer_projectKey o) (offer_moves o));
  page_undoes : ∀ n projectKey moves, pp_asked s !! n = Some (ask_undo projectKey moves) →
    ∃ m applied, pp_asked s !! m = Some (ask_apply projectKey applied) ∧ moves = movesBack applied;
}.

Definition plain_address (e : PageEvent) : Prop :=
  match e with navigated a => no_space (address_projectKey a) = true | _ => True end.

(** More may be asked and more may happen: what holds of what was asked stays. *)
Lemma asked_grows es s e r :
  plan_page_ok es s →
  match r with
  | Some (ask_align at_ _) => no_space (address_projectKey at_) = true
  | Some (ask_apply projectKey moves) =>
      ∃ m at_ place a, pp_asked s !! m = Some (ask_align at_ place) ∧ address_projectKey at_ = projectKey ∧
        moves = movesToSave a ∧ answered_align m a ∈ es
  | Some (ask_undo projectKey moves) => ∃ m applied, pp_asked s !! m = Some (ask_apply projectKey applied) ∧ moves = movesBack applied
  | None => True
  end →
  plan_page_ok (es ++ [e]) (match r with Some r => asking r s | None => s end).
Proof.
  intros [Hh He Ha Hp Ho Hu] Hr. assert (∀ (l : list PageRequest) r n x, l !! n = Some x → (l ++ [r]) !! n = Some x) as Hgrow
    by (intros; by apply lookup_app_l_Some).
  assert (∀ a n, answered_align n a ∈ es → answered_align n a ∈ es ++ [e]) as Hes by (intros; apply elem_of_app; by left).
  destruct r as [r|].
  2: { split; [|done|done| |done|done].
       - intros scope a H. destruct (Hh scope a H) as (n & at_ & place & ? & ? & ? & ?). exists n, at_, place. auto.
       - intros n pk mv H. destruct (Hp n pk mv H) as (m & at_ & place & a & ? & ? & ? & ?). exists m, at_, place, a. auto. }
  assert (∀ n x, (pp_asked s ++ [r]) !! n = Some x → pp_asked s !! n = Some x ∨ x = r) as Hlast.
  { intros n x [?|[_ H]]%lookup_app_Some; [by left|right]. apply list_lookup_singleton_Some in H as [_ ->]. done. }
  split; cbn [asking pp_held pp_address pp_asked pp_offers].
  - intros scope a H. destruct (Hh scope a H) as (n & at_ & place & ? & ? & ? & ?). exists n, at_, place. auto.
  - exact He.
  - intros n at_ place [H|<-]%Hlast; [by eapply Ha|exact Hr].
  - intros n pk mv [H|<-]%Hlast; [destruct (Hp n pk mv H) as (m & at_ & place & a & ? & ? & ? & ?)|
      destruct Hr as (m & at_ & place & a & ? & ? & ? & ?)]; exists m, at_, place, a; auto.
  - intros o Hin. destruct (Ho o Hin) as [n ?]. exists n. auto.
  - intros n pk mv [H|<-]%Hlast; [destruct (Hu n pk mv H) as (m & ap & ? & ?)|destruct Hr as (m & ap & ? & ?)]; exists m, ap; auto.
Qed.

Lemma page_step_ok es s e : plain_address e → plan_page_ok es s → plan_page_ok (es ++ [e]) (page_step s e).
Proof.
  intros Hpl Hs. pose proof (asked_grows es s e None Hs I) as Hgrown. cbn in Hgrown.
  destruct e as [a|placing| | |n|n al|n]; cbn [page_step].
  - destruct Hgrown. by split.
  - apply (asked_grows es (mkPlanPage (pp_address s) (pp_held s) (default (pp_place s) placing) (pp_asked s) (pp_offers s))
      _ (Some (ask_align (pp_address s) (default (pp_place s) placing)))); [|by apply Hs]. by destruct Hs.
  - destruct Hgrown. split; try done.
  - unfold proposal. destruct (pp_held s) as [[scope al]|] eqn:Eh; [|exact Hgrown]. case_decide as Hscope; [|exact Hgrown].
    apply (asked_grows es s _ (Some (ask_apply (address_projectKey (pp_address s)) (movesToSave al)))); [done|].
    destruct (page_held es s Hs scope al Eh) as (n & at_ & place & Hn & Hns & Hsc & Hin).
    exists n, at_, place, al. split_and!; try done.
    assert (at_ = pp_address s) as -> by (apply scope_of_inj; [done|apply Hs|congruence]). done.
  - destruct (pp_offers s !! n) as [o|] eqn:Eo; [|exact Hgrown].
    apply (asked_grows es s _ (Some (ask_undo (offer_projectKey o) (movesBack (offer_moves o))))); [done|].
    destruct (page_offers es s Hs o) as [m Hm]; [by eapply list_elem_of_lookup_2|]. by exists m, (offer_moves o).
  - destruct (pp_asked s !! n) as [[at_ place| |]|] eqn:En; try exact Hgrown. destruct Hgrown. split; try done.
    cbn. intros scope a [= <- <-]. exists n, at_, place. split_and!; [done|by eapply page_aligns0|done|].
    apply elem_of_app. right. by left.
  - destruct (pp_asked s !! n) as [[|pk mv|]|] eqn:En; try exact Hgrown. destruct Hgrown as [? ? ? ? Ho ?]. split; try done.
    cbn. intros o [Hin|Hin%list_elem_of_singleton]%elem_of_app; [by apply Ho|]. subst o. by exists n.
Qed.

(** The plan page only proposes for what is shown and only saves what it
    proposed: a proposal that is shown is the answer to a request for the very
    project, view and query on the page; what is applied is an answer's moves,
    for the project it was asked for; and an undo takes back exactly what was
    applied, wherever the reader has gone since. *)
Theorem proposal_for_shown start es :
  no_space (address_projectKey start) = true → Forall plain_address es →
  let s := foldl page_step (plan_page start) es in
  (∀ a, proposal s = Some a → ∃ n place, pp_asked s !! n = Some (ask_align (pp_address s) place) ∧ answered_align n a ∈ es) ∧
  (∀ n projectKey moves, pp_asked s !! n = Some (ask_apply projectKey moves) →
     ∃ m at_ place a, pp_asked s !! m = Some (ask_align at_ place) ∧ address_projectKey at_ = projectKey ∧
       moves = movesToSave a ∧ answered_align m a ∈ es) ∧
  (∀ n projectKey moves, pp_asked s !! n = Some (ask_undo projectKey moves) →
     ∃ m applied, pp_asked s !! m = Some (ask_apply projectKey applied) ∧ moves = movesBack applied).
Proof.
  intros Hstart Hes. cbv zeta. assert (plan_page_ok es (foldl page_step (plan_page start) es)) as H.
  { induction es as [|e es IH] using rev_ind.
    - split; try done. cbn. intros o Ho. by apply elem_of_nil in Ho.
    - apply Forall_app in Hes as [Hes He]. inversion He; subst. rewrite foldl_snoc. apply page_step_ok; [done|by apply IH]. }
  split; [|split; apply H]. intros a Ha. unfold proposal in Ha.
  destruct (pp_held _) as [[scope al]|] eqn:Eh; [|done]. case_decide as Hscope; [|done]. injection Ha as ->.
  destruct (page_held _ _ H scope a Eh) as (n & at_ & place & Hn & Hns & Hsc & Hin). exists n, place. split; [|done].
  assert (at_ = pp_address (foldl page_step (plan_page start) es)) as -> by (apply scope_of_inj; [done|apply H|congruence]). done.
Qed.

(** Another view or query hides the proposal, and coming back shows it again. *)
Theorem proposal_comes_back s a other :
  proposal s = Some a → scope_of other ≠ scope_of (pp_address s) →
  proposal (page_step s (navigated other)) = None ∧
  proposal (foldl page_step s [navigated other; navigated (pp_address s)]) = Some a.
Proof.
  unfold proposal. destruct (pp_held s) as [[scope al]|] eqn:Eh; [|done]. case_decide as Hs; [|done]. intros [= ->] Ho.
  cbn [foldl page_step pp_held pp_address]. rewrite Eh. split; [|by rewrite decide_True]. rewrite decide_False; [done|]. congruence.
Qed.

(** ** A page to look at *)

Definition home : Address := mkAddress "PR" management EmptyString.
Definition one_proposal : Alignment :=
  mkAlignment "PR" [mkPlanMove "PR-1" None (mkPlanSpan "2024-02-12" "2024-02-14") None 3 EmptyString] [] [].

Definition an_afternoon : list PageEvent :=
  [previewed None; answered_align 0 one_proposal; applied_pressed; accepted 1;
   navigated (mkAddress "PR" sprints_view "status = done"); undo_pressed 0].

Lemma proposal_for_shown_witness :
  ∃ m applied, pp_asked (foldl page_step (plan_page home) an_afternoon) !! m = Some (ask_apply "PR" applied) ∧
    movesBack (movesToSave one_proposal) = movesBack applied.
Proof.
  refine (proj2 (proj2 (proposal_for_shown home an_afternoon eq_refl _)) 2%nat "PR"%string (movesBack (movesToSave one_proposal)) eq_refl).
  repeat constructor.
Defined.

Lemma proposal_comes_back_witness :
  proposal (foldl page_step (foldl page_step (plan_page home) [previewed None; answered_align 0 one_proposal])
    [navigated (mkAddress "PR" sprints_view EmptyString); navigated home]) = Some one_proposal.
Proof.
  refine (proj2 (proposal_comes_back (foldl page_step (plan_page home) [previewed None; answered_align 0 one_proposal])
    one_proposal (mkAddress "PR" sprints_view EmptyString) eq_refl _)).
  vm_compute. discriminate.
Defined.
