(* ===== verification/Doors.v ===== *)
(** The ways in: what a link from outside may ask of the client.
    [web/src/lib/path.ts], [linkSecret.ts], [notice.ts], [device.ts], the door of
    [routes/desk-entry.tsx] and [safeNext] of [features/auth/AuthForms.tsx]. *)

From Stdlib Require Import ZArith Lia Ascii String.
From stdpp Require Import base list strings.
From S2P Require Import Prelude JsString Api Client.

Open Scope Z_scope.

(** ** Addresses: [new URL] of a text that begins with one slash *)

Fixpoint percent_encode (in_set : Z → bool) (s : string) : string :=
  match s with
  | EmptyString => EmptyString
  | String c s' => (if in_set (code c) then percent_utf8 c else String c EmptyString) +:+ percent_encode in_set s'
  end.

Definition among (l : list Z) (n : Z) : bool := bool_decide (n ∈ l).

(** The sets of the URL standard: of a path, of a special scheme's query, of a fragment. *)
Definition control_set (n : Z) : bool := (n <=? 31) || (126 <? n).
Definition query_set (n : Z) : bool := control_set n || among [32; 34; 35; 60; 62; 39] n.
Definition path_set (n : Z) : bool := control_set n || among [32; 34; 35; 60; 62; 63; 94; 96; 123; 125] n.
Definition fragment_set (n : Z) : bool := control_set n || among [32; 34; 60; 62; 96] n.

Definition single_dot (s : string) : bool := bool_decide (toLowerCase s ∈ ["."; "%2e"]%string).
Definition double_dot (s : string) : bool := bool_decide (toLowerCase s ∈ [".."; ".%2e"; "%2e."; "%2e%2e"]%string).

(** The path's segments, dots taken out as the standard does. *)
Fixpoint path_segments (path segments : list string) : list string :=
  match segments with
  | [] => path
  | s :: rest =>
      let ending := match rest with [] => [EmptyString] | _ => [] end in
      if double_dot s then path_segments (removelast path ++ ending) rest
      else if single_dot s then path_segments (path ++ ending) rest
      else path_segments (path ++ [percent_encode path_set s]) rest
  end.

(** What comes before the first of a sign, and the sign with what comes after. *)
Fixpoint cut_at (sep : ascii) (s : string) : string * string :=
  match s with
  | EmptyString => (EmptyString, EmptyString)
  | String c s' => if decide (c = sep) then (EmptyString, s) else let '(a, b) := cut_at sep s' in (String c a, b)
  end.

(** Trailing spaces are no part of an address. *)
Fixpoint trailing_cut (s : string) : string :=
  match s with
  | EmptyString => EmptyString
  | String c s' => match trailing_cut s' with EmptyString => if code c <=? 32 then EmptyString else String c EmptyString | r => String c r end
  end.

Definition sign_part (in_set : Z → bool) (part : string) : string :=
  match part with
  | String c (String _ _ as rest) => String c (percent_encode in_set rest)
  | _ => EmptyString
  end.

Record URLParts := mkURLParts { url_pathname : string; url_search : string; url_hash : string }.

(** The parts of the address that a path of this origin names: a text that begins
    with a slash, but with neither two nor a backslash, has the page's origin. *)
Definition url_of (next : string) : URLParts :=
  let '(before, hash) := cut_at "#" (trailing_cut next) in
  let '(path, search) := cut_at "?" before in
  mkURLParts (String "/" (join "/" (path_segments [] (split "/" (sliceFrom 1 path)))))
    (sign_part query_set search) (sign_part fragment_set hash).

(** ** A path to follow: [path.ts] *)

(** The units of [NOT_A_PATH]: a backslash and the control characters. *)
Definition NOT_A_PATH (c : ascii) : bool := (code c =? 92) || (code c <=? 31).

Definition safePath (next : Json) : option string :=
  match next with
  | JString s =>
      if negb (truthy s) then None
      else if negb (startsWith s "/") || startsWith s "//" then None
      else if negb (string_forall (fun c => negb (NOT_A_PATH c)) s) then None
      else let u := url_of s in Some (url_pathname u +:+ url_search u +:+ url_hash u)
  | _ => None
  end.

(** Where the sign-in page goes: [safeNext]. *)
Definition safeNext (next : option string) : option string :=
  match next with
  | Some s => if truthy s && startsWith s "/" && negb (startsWith s "//") then Some s else None
  | None => None
  end.

(** What the desk's door keeps of its address, and where it sends a reader on. *)
Definition doorSearch (search : list (string * Json)) : option string * option string :=
  let next := jget search "next" ≫= safePath in
  (match next with Some p => if truthy p then Some p else None | None => None end,
   match jget search "desk" with Some (JString d) => if truthy d then Some d else None | _ => None end).

Definition destination (next : option string) : string := default "/portal"%string next.

(** ** A link's secret: [linkSecret.ts] *)

(** The tab: its address without what follows the number sign, that part, and
    what is stored for the tab. *)
Record Tab := mkTab { tab_path : string; tab_hash : string; tab_stored : list (string * string) }.

Definition takeLinkSecret (storageKey : string) (t : Tab) : option string * Tab :=
  if truthy (tab_hash t) then (Some (tab_hash t), mkTab (tab_path t) EmptyString (jset (tab_stored t) storageKey (tab_hash t)))
  else (jget (tab_stored t) storageKey, t).

(** ** A notice: [notice.ts] *)

(** The part after the first [/access-requests/], when there is one. *)
Fixpoint after_part (p s : string) : option string :=
  if startsWith s p then Some (sliceFrom (String.length p) s)
  else match s with EmptyString => None | String _ s' => after_part p s' end.

(** What is before the next such part. *)
Fixpoint before_part (p s : string) : string :=
  if startsWith s p then EmptyString
  else match s with EmptyString => EmptyString | String c s' => String c (before_part p s') end.

Fixpoint until_unit (stop : ascii → bool) (s : string) : string :=
  match s with EmptyString => EmptyString | String c s' => if stop c then EmptyString else String c (until_unit stop s') end.

Definition ACCESS_REQUESTS : string := "/access-requests/".

Definition accessRequestOf (kind : string) (link : option string) : option string :=
  if negb (bool_decide (kind = "access_requested"%string)) then None
  else match link with
  | Some l =>
      if negb (truthy l) then None
      else match before_part ACCESS_REQUESTS <$> after_part ACCESS_REQUESTS l with
      | Some id => if truthy id then Some (until_unit (fun c => bool_decide (c = "?"%char) || bool_decide (c = "#"%char)) id) else None
      | None => None
      end
  | None => None
  end.

(** ** A device's name: [device.ts] *)

Definition any_of (l : list string) (s : string) : bool := existsb (includes s) l.

(** [/Version\/[\d.]+.*Safari\//]. *)
Definition line_end (c : ascii) : bool := (code c =? 10) || (code c =? 13).
Fixpoint says_safari (s : string) : bool :=
  (startsWith s "Version/" &&
   match sliceFrom 8 s with
   | String c rest => (is_digit c || bool_decide (c = "."%char)) && includes (until_unit line_end rest) "Safari/"
   | EmptyString => false
   end) ||
  match s with EmptyString => false | String _ s' => says_safari s' end.

Definition BROWSERS : list ((string → bool) * string) :=
  [(any_of ["Edg/"; "Edge/"; "EdgA/"; "EdgiOS/"], "Edge"); (any_of ["OPR/"; "Opera"], "Opera");
   (any_of ["Firefox/"; "FxiOS/"], "Firefox"); (any_of ["Chrome/"; "CriOS/"; "HeadlessChrome/"; "Chromium/"], "Chrome");
   (says_safari, "Safari")]%string.

Definition SYSTEMS : list ((string → bool) * string) :=
  [(any_of ["iPhone"; "iPad"; "iPod"], "iOS"); (any_of ["Android"], "Android"); (any_of ["CrOS"], "ChromeOS");
   (any_of ["Windows"], "Windows"); (any_of ["Mac OS X"; "Macintosh"], "macOS"); (any_of ["Linux"; "X11"], "Linux")]%string.

Definition first_of (table : list ((string → bool) * string)) (userAgent : string) : option string :=
  snd <$> head (filter (fun row => row.1 userAgent = true) table).

Definition deviceName (userAgent : string) : string :=
  match first_of BROWSERS userAgent, first_of SYSTEMS userAgent with
  | Some browser, Some system => browser +:+ " on " +:+ system
  | Some name, None | None, Some name => name
  | None, None =>
      let named := until_unit (fun c => is_space c || bool_decide (c = "/"%char)) (trim userAgent) in
      if truthy named then named else "An unknown device"
  end.

Definition onApple (userAgent : string) : bool := any_of ["Mac OS X"; "Macintosh"; "iPhone"; "iPad"; "iPod"] userAgent.

Example device_firefox : deviceName "Mozilla/5.0 (X11; Linux x86_64; rv:131.0) Gecko/20100101 Firefox/131.0" = "Firefox on Linux"%string.
Proof. reflexivity. Qed.
Example device_safari : deviceName "Mozilla/5.0 (iPhone; CPU iPhone OS 18_0 like Mac OS X) AppleWebKit/605.1.15 (KHTML, like Gecko) Version/18.0 Mobile/15E148 Safari/604.1" = "Safari on iOS"%string.
Proof. reflexivity. Qed.
Example device_script : deviceName "Go-http-client/1.1" = "Go-http-client"%string.
Proof. reflexivity. Qed.
Example path_kept : safePath (JString "/search?q=bug#top") = Some "/search?q=bug#top"%string.
Proof. reflexivity. Qed.
Example path_dots : safePath (JString "/a/../b/./c%20d e?x='") = Some "/b/c%20d%20e?x=%27"%string.
Proof. reflexivity. Qed.

(** ** Facts *)

Section Units.
Context (P : ascii → bool).

Lemma cut_at_forall sep s : string_forall P s = true → string_forall P (cut_at sep s).1 = true ∧ string_forall P (cut_at sep s).2 = true.
Proof.
  induction s as [|c s IH]; [done|]. cbn [string_forall cut_at]. intros Hcs. pose proof Hcs as [Hc Hs]%andb_true_iff.
  case_decide; [done|]. destruct (IH Hs) as [Ha Hb]. destruct (cut_at sep s) as [a b]. cbn in *. by rewrite Hc.
Qed.

Lemma sliceFrom_forall n s : string_forall P s = true → string_forall P (sliceFrom n s) = true.
Proof.
  revert s. induction n as [|n IH]; intros [|c s]; try done. cbn [string_forall]. intros H. change (sliceFrom (S n) (String c s)) with (sliceFrom n s).
  apply andb_true_iff in H as [_ H]. by apply IH.
Qed.

Lemma trailing_cut_forall s : string_forall P s = true → string_forall P (trailing_cut s) = true.
Proof.
  induction s as [|c s IH]; [done|]. cbn [string_forall trailing_cut]. intros [Hc Hs]%andb_true_iff. specialize (IH Hs).
  destruct (trailing_cut s) as [|d r]; [destruct (_ <=? _); [done|by cbn; rewrite Hc]|]. cbn [string_forall] in *. by rewrite Hc.
Qed.

Lemma split_forall sep s : string_forall P s = true → Forall (fun w => string_forall P w = true) (split sep s).
Proof.
  induction s as [|c s IH]; [by repeat constructor|]. cbn [string_forall split]. intros [Hc Hs]%andb_true_iff. specialize (IH Hs).
  case_decide; [by constructor|]. destruct (split sep s); [by repeat constructor; cbn; rewrite Hc|].
  inversion IH; subst. constructor; [cbn; by rewrite Hc|done].
Qed.

Lemma join_forall sep l : string_forall P sep = true → Forall (fun w => string_forall P w = true) l → string_forall P (join sep l) = true.
Proof.
  intros Hsep. induction 1 as [|w l Hw Hl IH]; [done|]. cbn [join]. destruct l; [done|].
  by rewrite !string_forall_app, Hw, Hsep, IH.
Qed.
End Units.

Definition keeps_to_path (c : ascii) : bool := negb (NOT_A_PATH c).

Lemma percent_utf8_path c : string_forall keeps_to_path (percent_utf8 c) = true.
Proof. destruct c as [[] [] [] [] [] [] [] []]; reflexivity. Qed.

Lemma percent_encode_path in_set s : string_forall keeps_to_path s = true → string_forall keeps_to_path (percent_encode in_set s) = true.
Proof.
  induction s as [|c s IH]; [done|]. cbn [string_forall percent_encode]. intros [Hc Hs]%andb_true_iff.
  rewrite string_forall_app, IH by done. destruct (in_set (code c)); [by rewrite percent_utf8_path|cbn; by rewrite Hc].
Qed.

Lemma path_segments_path path segments :
  Forall (fun w => string_forall keeps_to_path w = true) path → Forall (fun w => string_forall keeps_to_path w = true) segments →
  Forall (fun w => string_forall keeps_to_path w = true) (path_segments path segments).
Proof.
  intros Hp Hs. revert path Hp. induction Hs as [|s rest Hsw _ IH]; intros path Hp; [done|]. cbn [path_segments].
  assert (Forall (fun w => string_forall keeps_to_path w = true) (match rest with [] => [EmptyString] | _ => [] end)) as He
    by (destruct rest; by repeat constructor).
  assert (Forall (fun w => string_forall keeps_to_path w = true) (removelast path)) as Hr.
  { clear -Hp. induction Hp as [|w l Hw Hl IH]; [constructor|]. cbn [removelast]. destruct l; by constructor. }
  destruct (double_dot s); [|destruct (single_dot s)]; apply IH; apply Forall_app; (split; [assumption|]); try assumption.
  constructor; [|constructor]. by apply percent_encode_path.
Qed.

Lemma sign_part_path in_set part : string_forall keeps_to_path part = true → string_forall keeps_to_path (sign_part in_set part) = true.
Proof.
  destruct part as [|c [|d rest]]; try done. cbn [sign_part string_forall]. intros [Hc Hr]%andb_true_iff. rewrite Hc. cbn [andb].
  by apply (percent_encode_path in_set (String d rest)).
Qed.

(** The path of a text: what is before its query and its fragment. *)
Definition path_part (s : string) : string := (cut_at "?" (cut_at "#" (trailing_cut s)).1).1.

Definition has_dots (s : string) : bool := existsb (fun w => single_dot w || double_dot w) (split "/" (path_part s)).

Lemma path_segments_plain path segments :
  existsb (fun w => single_dot w || double_dot w) segments = false →
  path_segments path segments = path ++ map (percent_encode path_set) segments.
Proof.
  revert path. induction segments as [|s rest IH]; intros path; [by rewrite app_nil_r|]. cbn [existsb path_segments map].
  intros [[Hs Hd]%orb_false_iff Hr]%orb_false_iff. rewrite Hs, Hd, IH by done. by rewrite <- app_assoc.
Qed.

Lemma percent_encode_nonempty in_set c s : ∃ d r, percent_encode in_set (String c s) = String d r ∧ (in_set 47 = false → d = "/"%char → c = "/"%char).
Proof.
  cbn [percent_encode]. destruct (in_set (code c)) eqn:E.
  - unfold percent_utf8, percent. destruct (code c <? 128); do 2 eexists; (split; [reflexivity|]); intros _ H; discriminate H.
  - do 2 eexists. split; [reflexivity|]. by intros _ ->.
Qed.

Lemma path_begins s : startsWith s "/" = true → ∃ r, path_part s = String "/" r.
Proof.
  destruct s as [|c s]; [done|]. cbn [startsWith]. intros [Hc%bool_decide_eq_true _]%andb_true_iff. subst c.
  unfold path_part. cbn [trailing_cut]. assert (∀ r, ∃ r', (cut_at "?" (cut_at "#" (String "/" r)).1).1 = String "/" r') as H.
  { intros r. cbn [cut_at]. rewrite decide_False by done. destruct (cut_at "#" r) as [a b]. cbn [fst cut_at]. rewrite decide_False by done.
    destruct (cut_at "?" a) as [a' b']. by exists a'. }
  destruct (trailing_cut s) as [|d r]; apply H.
Qed.

Lemma starts_not_slash d r : d ≠ "/"%char → startsWith (String d r) "/" = false.
Proof. intros H. cbn [startsWith]. by rewrite bool_decide_false by done. Qed.

Lemma second_slash s : startsWith s "/" = true → startsWith s "//" = false → startsWith (sliceFrom 1 (path_part s)) "/" = false.
Proof.
  destruct s as [|c s]; [done|]. cbn [startsWith]. intros [Hc%bool_decide_eq_true _]%andb_true_iff. subst c.
  rewrite bool_decide_true by done. cbn [andb]. unfold path_part. cbn [trailing_cut]. intros H2.
  assert (∀ r, startsWith r "/" = false → startsWith (sliceFrom 1 (cut_at "?" (cut_at "#" (String "/" r)).1).1) "/" = false) as H.
  { intros r Hr'. cbn [cut_at]. rewrite decide_False by done. destruct r as [|d r]; [done|]. cbn [cut_at].
    destruct (decide (d = "#"%char)); [done|]. destruct (cut_at "#" r) as [a b]. cbn [fst cut_at]. rewrite decide_False by done.
    destruct (decide (d = "?"%char)); [done|]. destruct (cut_at "?" a) as [a' b'].
    clear -Hr'. destruct (decide (d = "/"%char)) as [->|Hd]; [by destruct r|by apply starts_not_slash]. }
  destruct (trailing_cut s) as [|d r] eqn:E; [done|]. apply H.
  destruct s as [|d' s]; [done|]. cbn [trailing_cut] in E.
  assert (d' = d) as <- by (destruct (trailing_cut s); [destruct (_ <=? _); [done|by injection E]|by injection E]).
  apply starts_not_slash. intros ->. by destruct s.
Qed.

Lemma starts_slash r : startsWith (String "/" r) "/" = true.
Proof. by destruct r. Qed.

Lemma starts_twice r : startsWith r "/" = false → startsWith (String "/" r) "//" = false.
Proof. done. Qed.

Lemma starts_app a b : startsWith a "/" = false → startsWith b "/" = false → startsWith (a +:+ b) "/" = false.
Proof.
  destruct a as [|c a]; [done|]. intros Ha _. change (String c a +:+ b) with (String c (a +:+ b)).
  apply starts_not_slash. intros ->. by destruct a.
Qed.

Lemma cut_at_rest sep s : (cut_at sep s).2 = EmptyString ∨ ∃ r, (cut_at sep s).2 = String sep r.
Proof.
  induction s as [|c s IH]; [by left|]. cbn [cut_at]. case_decide as E; [subst c; right; by exists s|].
  by destruct (cut_at sep s).
Qed.

Lemma sign_part_starts in_set sep s : sep ≠ "/"%char → startsWith (sign_part in_set (cut_at sep s).2) "/" = false.
Proof.
  intros Hsep. destruct (cut_at_rest sep s) as [->|[[|d r] ->]]; try done. cbn [sign_part]. by apply starts_not_slash.
Qed.

Lemma joined_starts r : startsWith r "/" = false → startsWith (join "/" (map (percent_encode path_set) (split "/" r))) "/" = false.
Proof.
  destruct r as [|c r]; [done|]. intros H. assert (c ≠ "/"%char) as Hc by (intros ->; by destruct r).
  cbn [split]. rewrite decide_False by done. assert (∃ w l, (match split "/" r with [] => [String c EmptyString] | w :: rest => String c w :: rest end) = String c w :: l) as (w & l & ->)
    by (destruct (split "/" r); by do 2 eexists).
  cbn [map]. destruct (percent_encode_nonempty path_set c w) as (d & e & -> & Hd). assert (d ≠ "/"%char) by (intros ->; by apply Hc, Hd).
  destruct l; by apply starts_not_slash.
Qed.

(** What a link may ask to be sent on to stays a path: it begins with a slash and
    holds neither a backslash nor a control character; and unless the text it was
    read from has dots for segments, it does not begin with two slashes, which a
    browser reads as another site. *)
Theorem safePath_own s p :
  safePath (JString s) = Some p →
  startsWith p "/" = true ∧ string_forall keeps_to_path p = true ∧ (has_dots s = false → startsWith p "//" = false).
Proof.
  cbn [safePath]. destruct (truthy s); [|done]. cbn [negb]. destruct (startsWith s "/") eqn:E1; [|done]. cbn [negb orb].
  destruct (startsWith s "//") eqn:E2; [done|]. destruct (string_forall (fun c => negb (NOT_A_PATH c)) s) eqn:E3; [|done]. cbn [negb].
  change (string_forall keeps_to_path s = true) in E3. intros Hp. injection Hp as <-.
  pose proof (trailing_cut_forall keeps_to_path s E3) as Hs. pose proof (path_begins s E1) as Hbegin. pose proof (second_slash s E1 E2) as Hsecond.
  pose proof (sign_part_starts fragment_set "#" (trailing_cut s) ltac:(done)) as Hfragment.
  pose proof (sign_part_starts query_set "?" (cut_at "#" (trailing_cut s)).1 ltac:(done)) as Hquery. unfold has_dots, path_part in *. unfold url_of.
  destruct (cut_at_forall keeps_to_path "#" _ Hs) as [Hbefore Hhash]. destruct (cut_at "#" (trailing_cut s)) as [before hash].
  cbn [fst snd] in *. destruct (cut_at_forall keeps_to_path "?" _ Hbefore) as [Hpath Hsearch].
  destruct (cut_at "?" before) as [path search]. cbn [fst snd url_pathname url_search url_hash] in *. split; [apply starts_slash|]. split.
  - rewrite !string_forall_app, !sign_part_path by done. rewrite !andb_true_r. cbn [string_forall].
    change (keeps_to_path "/") with true. cbn [andb]. apply join_forall; [done|]. apply path_segments_path; [constructor|].
    apply split_forall. by apply sliceFrom_forall.
  - intros Hdots. destruct Hbegin as [r ->]. change (sliceFrom 1 (String "/" r)) with r in *.
    change (split "/" (String "/" r)) with (EmptyString :: split "/" r) in Hdots. apply orb_false_iff in Hdots as [_ Hdots].
    rewrite path_segments_plain by done.
    apply (starts_twice (join _ _ +:+ _ +:+ _)), starts_app; [by apply joined_starts|by apply starts_app].
Qed.

Lemma safePath_own_witness :
  let s := "/search?q=a b#top"%string in
  safePath (JString s) = Some "/search?q=a%20b#top"%string ∧ has_dots s = false ∧ startsWith "/search?q=a%20b#top" "//" = false.
Proof.
  intros s. assert (safePath (JString s) = Some "/search?q=a%20b#top"%string) as H by reflexivity.
  split; [exact H|]. destruct (safePath_own s _ H) as (_ & _ & Hown). split; [reflexivity|]. apply Hown. reflexivity.
Defined.

(** A path whose first segment is a dot and whose second is nothing leaves the
    application: the dot goes out when the address is read, the two slashes do not. *)
Lemma safePath_leaves : ∃ s p, safePath (JString s) = Some p ∧ startsWith p "//" = true.
Proof. exists "/.//evil.com"%string, "//evil.com"%string. by vm_compute. Qed.

(** The sign-in form lets through what a browser reads as another site. *)
Lemma safeNext_leaves : safeNext (Some "/\evil.com"%string) = Some "/\evil.com"%string ∧ safePath (JString "/\evil.com") = None.
Proof. by vm_compute. Qed.

(** What the sign-in form goes on to begins with one slash. *)
Lemma safeNext_own next p : safeNext next = Some p → next = Some p ∧ startsWith p "/" = true ∧ startsWith p "//" = false.
Proof.
  destruct next as [s|]; [|done]. cbn [safeNext]. destruct (truthy s); [|done]. cbn [andb]. destruct (startsWith s "/") eqn:E1; [|done].
  destruct (startsWith s "//") eqn:E2; [done|]. cbn. by intros [= <-].
Qed.

(** A link's secret leaves the address bar when it is taken, and a reload, or a
    detour that comes back without it, still finds the same one; another link's is
    left as it is. *)
Theorem secret_taken_once storageKey t secret :
  (takeLinkSecret storageKey t).1 = Some secret →
  let t' := (takeLinkSecret storageKey t).2 in
  tab_hash t' = EmptyString ∧ tab_path t' = tab_path t ∧ takeLinkSecret storageKey t' = (Some secret, t') ∧
  (∀ k, k ≠ storageKey → jget (tab_stored t') k = jget (tab_stored t) k).
Proof.
  unfold takeLinkSecret. destruct t as [path hash stored]. cbn [tab_hash tab_path tab_stored]. destruct hash as [|c h].
  - change (truthy EmptyString) with false. cbn. intros H. by rewrite <- H.
  - change (truthy (String c h)) with true. cbn. intros [= <-]. rewrite jget_jset, decide_True by done. repeat split. intros k Hk. by rewrite jget_jset, decide_False.
Qed.

Lemma secret_taken_once_witness :
  let t := mkTab "/invite" "s3cret" [] in (takeLinkSecret "invite" t).1 = Some "s3cret"%string ∧
  takeLinkSecret "invite" (takeLinkSecret "invite" t).2 = (Some "s3cret"%string, (takeLinkSecret "invite" t).2).
Proof. intros t. assert ((takeLinkSecret "invite" t).1 = Some "s3cret"%string) as H by reflexivity. split; [exact H|]. apply (secret_taken_once "invite" t _ H). Defined.

(** Whatever the browser says of itself, a device has a name. *)
Lemma deviceName_says ua : deviceName ua ≠ EmptyString.
Proof.
  assert (∀ table name, first_of table ua = Some name → Forall (fun row => row.2 ≠ EmptyString) table → name ≠ EmptyString) as Htable.
  { intros table name. unfold first_of. destruct (head (filter _ table)) as [row|] eqn:E; [|done]. cbn. intros [= <-] Hall.
    apply head_Some_elem_of, list_elem_of_filter in E as [_ Hin]. by eapply Forall_forall in Hall. }
  assert (∀ name, first_of BROWSERS ua = Some name → name ≠ EmptyString) as Hb by (intros n Hn; eapply Htable; [exact Hn|repeat constructor; discriminate]).
  assert (∀ name, first_of SYSTEMS ua = Some name → name ≠ EmptyString) as Hs by (intros n Hn; eapply Htable; [exact Hn|repeat constructor; discriminate]).
  unfold deviceName. destruct (first_of BROWSERS ua) as [b|], (first_of SYSTEMS ua) as [y|]; [|by apply Hb|by apply Hs|].
  - pose proof (Hb b eq_refl). by destruct b.
  - by destruct (until_unit _ (trim ua)) eqn:E; rewrite ?E.
Qed.
