(* ===== verification/Search.v ===== *)
(** The search bar and its help: [web/src/features/search/QueryInput.tsx] and
    [help.ts].

    The list under the bar is a state machine: what it offers depends on the
    text, on the caret and on the last answer of the server, which is an argument
    because an answer may arrive between any two events. *)

From Stdlib Require Import ZArith Lia Ascii String.
From stdpp Require Import base list strings.
From S2P Require Import Prelude JsString Config Api Client DashFilter IssueForms.

Open Scope Z_scope.

(** ** The help *)

(** What a field takes is read from the catalogue in use, by its name there. *)
Record QueryField := mkQueryField { qf_name : string; qf_takes : string; qf_example : string }.

Definition QUERY_FIELDS : list QueryField :=
  [mkQueryField "project" "project" "project = EVR";
   mkQueryField "key" "key" "key IN (EVR-1, EVR-2)";
   mkQueryField "summary" "summary" ("summary ~ " +:+ in_quotes "reset email");
   mkQueryField "description" "description" "description ~ smtp";
   mkQueryField "text" "text" "text ~ login";
   mkQueryField "type" "type" "type = Bug";
   mkQueryField "status" "status" ("status IN (" +:+ in_quotes "To Do" +:+ ", " +:+ in_quotes "In Progress" +:+ ")");
   mkQueryField "statusCategory" "statusCategory" "statusCategory != done";
   mkQueryField "priority" "priority" "priority >= high";
   mkQueryField "assignee" "assignee" "assignee = currentUser()";
   mkQueryField "reporter" "reporter" "reporter = ada@armature.test";
   mkQueryField "watcher" "watcher" "watcher = currentUser()";
   mkQueryField "parent" "parent" "parent = EVR-7";
   mkQueryField "sprint" "sprint" "sprint IN (openSprints())";
   mkQueryField "team" "team" "team = Alpha";
   mkQueryField "milestone" "milestone" ("milestone = " +:+ in_quotes "1.0");
   mkQueryField "company" "company" "company = Globex";
   mkQueryField "labels" "labels" "labels IN (backend, security)";
   mkQueryField "fixVersion" "fixVersion" "fixVersion IN (unreleasedVersions())";
   mkQueryField "affectsVersion" "affectsVersion" ("affectsVersion = " +:+ in_quotes "1.2");
   mkQueryField "component" "component" "component = Billing";
   mkQueryField "estimate" "estimate" "estimate > 3";
   mkQueryField "created" "created" "created >= -7d";
   mkQueryField "updated" "updated" "updated >= startOfWeek()";
   mkQueryField "resolved" "resolved" "resolved >= startOfMonth(-1w)";
   mkQueryField "due" "due" "due <= endOfWeek()";
   mkQueryField "start" "start" "start >= 2026-09-01"]%string.

Definition QUERY_CUSTOM_FIELD_EXAMPLE : string := in_quotes "Customer" +:+ " = Globex".

Definition QUERY_OPERATORS : list string :=
  ["="; "!="; "<"; "<="; ">"; ">="; "~"; "!~"; "IN"; "NOT IN"; "IS EMPTY"; "IS NOT EMPTY"]%string.

Definition QUERY_FUNCTIONS : list string :=
  ["currentUser()"; "openSprints()"; "unreleasedVersions()"; "releasedVersions()"; "now()"; "startOfDay()";
   "endOfDay()"; "startOfWeek()"; "endOfWeek()"; "startOfMonth()"; "endOfMonth()"]%string.

Definition QUERY_EXAMPLES : list string :=
  ["assignee = currentUser() AND statusCategory != done ORDER BY priority DESC";
   "project = EVR AND labels = backend AND created >= startOfWeek(-1w)";
   "(type = Bug OR priority >= high) AND sprint IN (openSprints())";
   "resolved >= -7d ORDER BY resolved DESC"]%string.

Definition help_fields_en : list (string * string) :=
  [("project", "a project key");
   ("key", "an issue key");
   ("summary", "words, with ~");
   ("description", "words or the start of words, with ~");
   ("text", "words in the summary, or words or their start in the description");
   ("type", "an issue type's name");
   ("status", "a status name");
   ("statusCategory", "todo, in_progress or done");
   ("priority", "lowest to highest, in that order");
   ("assignee", "an email, a name or currentUser()");
   ("reporter", "an email, a name or currentUser()");
   ("watcher", "an email, a name or currentUser()");
   ("parent", "an issue key");
   ("sprint", "a sprint name or openSprints()");
   ("team", "a team name");
   ("milestone", "a milestone name");
   ("company", "a desk's company name");
   ("labels", "label names");
   ("fixVersion", "a version name, unreleasedVersions() or releasedVersions()");
   ("affectsVersion", "a version name, unreleasedVersions() or releasedVersions()");
   ("component", "a component name");
   ("estimate", "a number");
   ("created", "a date, a duration or a date function");
   ("updated", "a date, a duration or a date function");
   ("resolved", "a date, a duration or a date function");
   ("due", "a day");
   ("start", "a day")]%string.

Definition takes (words : list (string * string)) (f : QueryField) : option string := jget words (qf_takes f).

(** A line of spaces with a caret under the character an error points at. *)
Definition caretLine (position : option Z) : string :=
  match position with
  | Some p => if p <? 1 then EmptyString else repeatString (Z.to_nat (p - 1)) " " +:+ "^"
  | None => EmptyString
  end.

(** A query error, read out of what the request threw. *)
Definition describe (error : option ApiError) : option (option Json * option Json) :=
  match error with
  | Some e => if code_is e "bad_query" then Some (error_message e, error_position e) else None
  | None => None
  end.

(** ** What the list offers *)

Record SuggestWord := mkSuggestWord { word_text : string; word_detail : string }.

(** The characters a word replaces, of the text the server was asked about. *)
Record Completion := mkCompletion { completion_from : Z; completion_to : Z; completion_quoted : bool }.

Record SuggestedIssue := mkSuggestedIssue { suggested_key : string; suggested_summary : string }.

Record Suggestions := mkSuggestions { sg_completion : Completion; sg_words : list SuggestWord; sg_issues : list SuggestedIssue }.

Record SavedFilter := mkSavedFilter { saved_name : string; saved_query : string }.

Inductive SuggestionKind := sk_completion | sk_issue | sk_recent | sk_filter.
#[export] Instance SuggestionKind_eq : EqDecision SuggestionKind.
Proof. solve_decision. Defined.

Record Suggestion := mkSuggestion {
  row_kind : SuggestionKind;
  row_text : string;
  row_detail : option string;
  row_from : option Z;
  row_to : option Z;
  row_quoted : option bool;
  row_issueKey : option string;
}.

(** What the bar is given and what the request library holds, at one rendering. *)
Record Given := mkGiven {
  given_compact : bool;
  given_recent : list string;
  given_saved : option (list SavedFilter);
  given_suggested : option Suggestions;
}.

Record Bar := mkBar {
  bar_draft : string;
  bar_help : bool;
  bar_caret : Z;
  bar_focused : bool;
  bar_dismissed : bool;
  bar_asked : bool;
  bar_active : Z;
}.

Definition length_of (s : string) : Z := Z.of_nat (String.length s).

Definition bar_start (value : string) : Bar := mkBar value false (length_of value) false false false (-1).

Definition showing (b : Bar) : bool := bar_focused b && bar_asked b && negb (bar_dismissed b).
Definition asking (b : Bar) : bool := showing b && (SUGGEST_MIN_CHARS <=? length_of (bar_draft b)).

(** What the server is asked: the text, and the caret inside it. *)
Definition asked_at (b : Bar) : string * Z := (bar_draft b, Z.min (bar_caret b) (length_of (bar_draft b))).

Definition completion_row (c : Completion) (w : SuggestWord) : Suggestion :=
  mkSuggestion sk_completion (word_text w) (Some (word_detail w)) (Some (completion_from c)) (Some (completion_to c)) (Some (completion_quoted c)) None.
Definition issue_row (i : SuggestedIssue) : Suggestion :=
  mkSuggestion sk_issue (suggested_summary i) (Some (suggested_key i)) None None None (Some (suggested_key i)).
Definition recent_row (q : string) : Suggestion := mkSuggestion sk_recent q None None None None None.
Definition filter_row (f : SavedFilter) : Suggestion := mkSuggestion sk_filter (saved_query f) (Some (saved_name f)) None None None None.

Definition suggestion_rows (g : Given) (b : Bar) : list Suggestion :=
  if showing b then
    if (length_of (bar_draft b) <? SUGGEST_MIN_CHARS) && negb (given_compact g) then
      map recent_row (slice_to SUGGEST_RESULTS (given_recent g)) ++
      map filter_row (slice_to SUGGEST_RESULTS (default [] (given_saved g)))
    else match given_suggested g with
    | Some s => map (completion_row (sg_completion s)) (sg_words s) ++ map issue_row (sg_issues s)
    | None => []
    end
  else [].

(** ** A word put in *)

(** [Array.from(text)]: in the model a character is one unit. *)
Definition applyCompletion (text : string) (c : Completion) (word : string) : string * Z :=
  let chars := list_ascii_of_string text in
  let mark := if completion_quoted c && negb (startsWith word (String dquote EmptyString)) then String dquote EmptyString else EmptyString in
  let inserted := mark +:+ word +:+ mark +:+ " " in
  (string_of_list_ascii (slice_to (completion_from c) chars ++ list_ascii_of_string inserted ++ slice_from (completion_to c) chars),
   completion_from c + length_of inserted).

(** ** What the bar does *)

(** What leaves the bar: a query to run, an issue to open, the caret to settle at
    the next frame; or a handler that threw. *)
Inductive Effect := Ran (query : string) | OpenedIssue (key : string) | NextFrame (text : string) (caret : Z) | Threw.

Inductive BarEvent :=
  | BarTyped (text : string) (caret : Z)
  | BarTracked (caret : Z)
  | BarFocused
  | BarBlurred
  | BarKey (key : string) (shift : bool)
  | BarPressed (row : Suggestion)
  | BarHovered (index : Z)
  | BarSubmitted
  | BarValued (value : string)
  | BarHelpToggled
  | BarHelpClosed
  | BarExample (example : string)
  | BarFrame (text : string) (caret : Z).

Definition with_draft_caret (b : Bar) (draft : string) (caret : Z) : Bar :=
  mkBar draft (bar_help b) caret (bar_focused b) (bar_dismissed b) (bar_asked b) (-1).
Definition with_dismissed (b : Bar) (dismissed : bool) : Bar :=
  mkBar (bar_draft b) (bar_help b) (bar_caret b) (bar_focused b) dismissed (bar_asked b) (bar_active b).
Definition with_active (b : Bar) (active : Z) : Bar :=
  mkBar (bar_draft b) (bar_help b) (bar_caret b) (bar_focused b) (bar_dismissed b) (bar_asked b) active.
Definition with_bar_draft (b : Bar) (draft : string) : Bar :=
  mkBar draft (bar_help b) (bar_caret b) (bar_focused b) (bar_dismissed b) (bar_asked b) (bar_active b).
Definition with_help (b : Bar) (help : bool) : Bar :=
  mkBar (bar_draft b) help (bar_caret b) (bar_focused b) (bar_dismissed b) (bar_asked b) (bar_active b).

Definition choose (b : Bar) (row : Suggestion) : Bar * list Effect :=
  match row_kind row with
  | sk_completion =>
      let n := length_of (bar_draft b) in
      let upto := Z.max (default n (row_to row)) (Z.min (bar_caret b) n) in
      let '(text, caret) := applyCompletion (bar_draft b) (mkCompletion (default n (row_from row)) upto (default false (row_quoted row))) (row_text row) in
      (with_draft_caret b text caret, [NextFrame text caret])
  | sk_issue =>
      (with_dismissed b true, match row_issueKey row with Some key => if truthy key then [OpenedIssue key] else [] | None => [] end)
  | sk_recent | sk_filter => (with_dismissed (with_bar_draft b (row_text row)) true, [Ran (row_text row)])
  end.

Definition submit_query (b : Bar) : Bar * list Effect := (with_dismissed b true, [Ran (trim (bar_draft b))]).

(** A key: what it does, and whether the browser's own doing is prevented. *)
Definition onKeyDown (rows : list Suggestion) (b : Bar) (key : string) (shift : bool) : (Bar * list Effect) * bool :=
  let n := Z.of_nat (length rows) in
  if bool_decide (rows = []) then
    ((if bool_decide (key = "ArrowDown"%string)
      then mkBar (bar_draft b) (bar_help b) (bar_caret b) (bar_focused b) false true (bar_active b) else b, []), false)
  else if bool_decide (key = "ArrowDown"%string) then ((with_active b ((bar_active b + 1) mod n), []), true)
  else if bool_decide (key = "ArrowUp"%string) then ((with_active b (if bar_active b <=? 0 then n - 1 else bar_active b - 1), []), true)
  else if bool_decide (key = "Enter"%string) then
    if 0 <=? bar_active b then
      (match rows !! Z.to_nat (bar_active b) with Some row => choose b row | None => (b, [Threw]) end, true)
    else ((b, []), false)
  else if bool_decide (key = "Tab"%string) then
    match head (filter (fun row => row_kind row = sk_completion) rows) with
    | Some first =>
        if shift then ((b, []), false)
        else
          let picked := if 0 <=? bar_active b then rows !! Z.to_nat (bar_active b) else None in
          (choose b (match picked with Some row => if decide (row_kind row = sk_completion) then row else first | None => first end), true)
    | None => ((b, []), false)
    end
  else if bool_decide (key = "Escape"%string) then ((with_active (with_dismissed b true) (-1), []), true)
  else ((b, []), false).

(** Of the browser's own doings only one matters here: Enter in the only text box
    of a form submits it. *)
Definition bar_step (g : Given) (b : Bar) (e : BarEvent) : Bar * list Effect :=
  match e with
  | BarTyped text caret => (mkBar text (bar_help b) caret (bar_focused b) false true (-1), [])
  | BarTracked caret => (mkBar (bar_draft b) (bar_help b) caret (bar_focused b) (bar_dismissed b) (bar_asked b) (bar_active b), [])
  | BarFocused | BarFrame _ _ => (mkBar (bar_draft b) (bar_help b) (bar_caret b) true (bar_dismissed b) (bar_asked b) (bar_active b), [])
  | BarBlurred => (mkBar (bar_draft b) (bar_help b) (bar_caret b) false (bar_dismissed b) false (-1), [])
  | BarKey key shift =>
      let '(after, prevented) := onKeyDown (suggestion_rows g b) b key shift in
      if bool_decide (key = "Enter"%string) && negb prevented then submit_query after.1 else after
  | BarPressed row => choose b row
  | BarHovered index => (with_active b index, [])
  | BarSubmitted => submit_query b
  | BarValued value => (with_bar_draft b value, [])
  | BarHelpToggled => (with_help b (negb (bar_help b)), [])
  | BarHelpClosed => (with_help b false, [])
  | BarExample example => (with_help (with_bar_draft b example) false, [])
  end.

(** A run: each event with what was given when it was handled. *)
Definition bar_run (b : Bar) (run : list (Given * BarEvent)) : Bar := foldl (fun b ge => (bar_step ge.1 b ge.2).1) b run.

(** ** Facts *)

Lemma length_string_of_list l : String.length (string_of_list_ascii l) = length l.
Proof. induction l as [|c l IH]; [done|]. cbn. by rewrite IH. Qed.

Lemma list_of_app a b : list_ascii_of_string (a +:+ b) = list_ascii_of_string a ++ list_ascii_of_string b.
Proof. induction a as [|c a IH]; [done|]. cbn. f_equal. exact IH. Qed.

Lemma string_of_app a b : string_of_list_ascii (a ++ b) = string_of_list_ascii a +:+ string_of_list_ascii b.
Proof. induction a as [|c a IH]; [done|]. cbn. f_equal. exact IH. Qed.

Lemma length_list_of s : length (list_ascii_of_string s) = String.length s.
Proof. induction s as [|c s IH]; [done|]. cbn. by rewrite IH. Qed.

Lemma slice_to_app {A} (a b : list A) : slice_to (Z.of_nat (length a)) (a ++ b) = a.
Proof. unfold slice_to, slice_index. rewrite (proj2 (Z.ltb_ge _ _)) by lia. by rewrite Nat2Z.id, take_app_length. Qed.

Lemma slice_from_app {A} (a b : list A) : slice_from (Z.of_nat (length a)) (a ++ b) = b.
Proof. unfold slice_from, slice_index. rewrite (proj2 (Z.ltb_ge _ _)) by lia. by rewrite Nat2Z.id, drop_app_length. Qed.

Lemma length_of_app a b : length_of (a +:+ b) = length_of a + length_of b.
Proof. unfold length_of. rewrite length_app_s. lia. Qed.

Lemma length_of_list s : length_of s = Z.of_nat (length (list_ascii_of_string s)).
Proof. unfold length_of. by rewrite length_list_of. Qed.

(** What is written for a word: in quotes when the place asks for them and the
    word has none, and a space behind. *)
Definition inserted_for (quoted : bool) (word : string) : string :=
  let mark := if quoted && negb (startsWith word (String dquote EmptyString)) then String dquote EmptyString else EmptyString in
  mark +:+ word +:+ mark +:+ " ".

Lemma applyCompletion_between before old after quoted word :
  applyCompletion (before +:+ old +:+ after) (mkCompletion (length_of before) (length_of (before +:+ old)) quoted) word =
  (before +:+ inserted_for quoted word +:+ after, length_of (before +:+ inserted_for quoted word)).
Proof.
  unfold applyCompletion. cbn [completion_from completion_to completion_quoted]. fold (inserted_for quoted word).
  rewrite (length_of_list before) at 1. rewrite (length_of_list (before +:+ old)), (list_of_app before (old +:+ after)), slice_to_app.
  rewrite !list_of_app, (app_assoc _ (list_ascii_of_string old)), slice_from_app, !string_of_app, !string_of_list_ascii_of_string. by rewrite length_of_app.
Qed.

(** C26: a word picked from the list takes the place of the whole word it was offered
    for, the letters typed at the caret since the server was asked among them, and
    of nothing else; and the caret stands behind it. *)
Theorem completion_replaces_word g b before old typed after word detail quoted index :
  bar_draft b = before +:+ (old +:+ typed) +:+ after → bar_caret b = length_of (before +:+ old +:+ typed) →
  bar_active b = Z.of_nat index →
  suggestion_rows g b !! index = Some (completion_row (mkCompletion (length_of before) (length_of (before +:+ old)) quoted) (mkSuggestWord word detail)) →
  ∃ b', bar_step g b (BarKey "Enter" false) =
    (b', [NextFrame (before +:+ inserted_for quoted word +:+ after) (length_of (before +:+ inserted_for quoted word))]) ∧
  bar_draft b' = before +:+ inserted_for quoted word +:+ after ∧ bar_caret b' = length_of (before +:+ inserted_for quoted word) ∧ bar_active b' = -1.
Proof.
  intros Hd Hc Ha Hrow. unfold bar_step, onKeyDown. rewrite bool_decide_false by (intros E; by rewrite E in Hrow).
  rewrite !(bool_decide_false (_ = _)) by done. rewrite (bool_decide_true ("Enter"%string = _)) by done.
  rewrite Ha. rewrite (proj2 (Z.leb_le 0 _)) by lia. rewrite Nat2Z.id, Hrow. cbn [andb negb]. unfold choose.
  cbn [row_kind row_to row_from row_quoted row_text completion_row default completion_from completion_to completion_quoted word_text].
  rewrite Hc, Hd. unfold id. assert (Z.max (length_of (before +:+ old)) (Z.min (length_of (before +:+ old +:+ typed)) (length_of (before +:+ (old +:+ typed) +:+ after))) =
    length_of (before +:+ (old +:+ typed))) as -> by (rewrite !length_of_app; unfold length_of; lia).
  rewrite applyCompletion_between. eexists. done.
Qed.

Definition typing_status : Bar := mkBar "statu" false 5 true false true 0.
Definition after_sta : Given :=
  mkGiven true [] None (Some (mkSuggestions (mkCompletion 0 3 false) [mkSuggestWord "status" "field"; mkSuggestWord "start" "field"] [mkSuggestedIssue "ALP-7" "Stale sessions"])).

Lemma completion_replaces_word_witness :
  ∃ b', bar_step after_sta typing_status (BarKey "Enter" false) = (b', [NextFrame "status " 7]) ∧ bar_draft b' = "status "%string ∧ bar_caret b' = 7.
Proof.
  destruct (completion_replaces_word after_sta typing_status EmptyString "sta" "tu" EmptyString "status" "field" false 0) as (b' & H1 & H2 & H3 & _);
    try reflexivity. exists b'. by split.
Defined.

(** *** When the list is open *)

(** An event that asks for the list: text typed, or the arrow down. *)
Definition asks_for_list (e : BarEvent) : bool :=
  match e with BarTyped _ _ => true | BarKey key _ => bool_decide (key = "ArrowDown"%string) | _ => false end.

(** An effect that runs a query or opens an issue. *)
Definition runs (e : Effect) : bool := match e with Ran _ | OpenedIssue _ => true | _ => false end.

Lemma choose_asked b row : bar_asked (choose b row).1 = bar_asked b.
Proof. unfold choose. by destruct (row_kind row). Qed.

Lemma onKeyDown_asked rows b key shift : key ≠ "ArrowDown"%string → bar_asked (onKeyDown rows b key shift).1.1 = bar_asked b.
Proof.
  intros Hkey. unfold onKeyDown. rewrite (bool_decide_false (key = "ArrowDown"%string)) by done.
  repeat case_match; cbn; rewrite ?choose_asked; done.
Qed.

Lemma step_asked g b e : asks_for_list e = false → bar_asked b = false → bar_asked (bar_step g b e).1 = false.
Proof.
  intros He Hb. destruct e; cbn [bar_step fst bar_asked] in *; try done.
  - apply bool_decide_eq_false in He. pose proof (onKeyDown_asked (suggestion_rows g b) b key shift He) as H. rewrite Hb in H.
    destruct (onKeyDown (suggestion_rows g b) b key shift) as [after prevented]. by case_match.
  - by rewrite choose_asked.
Qed.

Lemma choose_closes b row : existsb runs (choose b row).2 = true → bar_dismissed (choose b row).1 = true.
Proof. unfold choose. by destruct (row_kind row). Qed.

Lemma onKeyDown_closes rows b key shift :
  existsb runs (onKeyDown rows b key shift).1.2 = true → bar_dismissed (onKeyDown rows b key shift).1.1 = true.
Proof. unfold onKeyDown. repeat case_match; cbn; try done; apply choose_closes. Qed.

Lemma dismissed_closed g b : bar_dismissed b = true → suggestion_rows g b = [].
Proof. intros H. unfold suggestion_rows, showing. by rewrite H, andb_false_r. Qed.

(** The list under the bar opens on typing or on the arrow down, never because the
    page gave the bar its focus, and it is closed once a query is run or an issue
    opened, whichever way that was asked for. *)
Theorem list_only_when_asked value run g e g' :
  let b := bar_run (bar_start value) run in
  (forallb (fun ge => negb (asks_for_list ge.2)) run = true → suggestion_rows g b = []) ∧
  (existsb runs (bar_step g b e).2 = true → suggestion_rows g' (bar_step g b e).1 = []).
Proof.
  intros b. split.
  - intros Hrun. assert (bar_asked b = false) as H.
    { unfold b, bar_run. assert (bar_asked (bar_start value) = false) as Hs by done. revert Hs Hrun. generalize (bar_start value).
      induction run as [|[g0 e0] run IH]; intros b0 Hb Hrun; [done|]. cbn [forallb foldl] in *. apply andb_true_iff in Hrun as [He Hrun].
      apply IH; [|done]. apply step_asked; [by apply negb_true_iff|done]. }
    unfold suggestion_rows, showing. by rewrite H, andb_false_r.
  - intros He. apply dismissed_closed. destruct e; cbn [bar_step fst snd] in *; try done; [|by apply choose_closes].
    pose proof (onKeyDown_closes (suggestion_rows g b) b key shift) as H.
    destruct (onKeyDown (suggestion_rows g b) b key shift) as [after prevented]. cbn [fst snd] in H. case_match; [done|by apply H].
Qed.

Lemma list_only_when_asked_witness :
  let run := [(after_sta, BarFocused)] in let b := bar_run (bar_start "sta") run in
  suggestion_rows after_sta b = [] ∧ (bar_step after_sta b (BarKey "Enter" false)).2 = [Ran "sta"] ∧
  suggestion_rows after_sta (bar_step after_sta b (BarKey "Enter" false)).1 = [].
Proof.
  intros run b. destruct (list_only_when_asked "sta" run after_sta (BarKey "Enter" false) after_sta) as [H1 H2].
  split; [apply H1; reflexivity|]. split; [reflexivity|]. apply H2. reflexivity.
Defined.

(** *** The row picked out *)

(** The arrow down lands on a row of the list as it is, whatever was picked out of
    the list before, and Enter then does what that row is for. *)
Lemma arrow_down_lands g b row rows :
  suggestion_rows g b = row :: rows →
  let b' := (bar_step g b (BarKey "ArrowDown" false)).1 in
  ∃ row', (row :: rows) !! Z.to_nat (bar_active b') = Some row' ∧ bar_step g b' (BarKey "Enter" false) = choose b' row'.
Proof.
  intros Hrows b'. set (n := Z.of_nat (length (row :: rows))). assert (0 < n) as Hn by (cbn in n; lia).
  assert (b' = with_active b ((bar_active b + 1) mod n)) as E by (unfold b', bar_step, onKeyDown; rewrite Hrows; reflexivity).
  assert (0 <= bar_active b' < n) as Ha by (rewrite E; cbn [bar_active with_active]; by apply Z.mod_pos_bound).
  assert (suggestion_rows g b' = row :: rows) as Hrows' by (rewrite E; exact Hrows).
  destruct (lookup_lt_is_Some_2 (row :: rows) (Z.to_nat (bar_active b'))) as [row' Hrow']; [lia|]. exists row'. split; [done|].
  unfold bar_step, onKeyDown. rewrite Hrows'. rewrite !(bool_decide_false (_ = _)) by done. rewrite (bool_decide_true ("Enter"%string = _)) by done.
  rewrite (proj2 (Z.leb_le 0 _)) by lia. by rewrite Hrow'.
Qed.

(** A row may stay picked out while the next answer brings a shorter list: Enter
    then neither runs the query nor puts a word in, its handler throws. *)
Lemma picked_row_gone : ∃ g g' b,
  bar_active b < Z.of_nat (length (suggestion_rows g b)) ∧ suggestion_rows g' b ≠ [] ∧ (bar_step g' b (BarKey "Enter" false)).2 = [Threw] ∧
  b = bar_run (bar_start EmptyString) [(g, BarFocused); (g, BarTyped "sta" 3); (g, BarKey "ArrowUp" false)].
Proof.
  exists after_sta, (mkGiven true [] None (Some (mkSuggestions (mkCompletion 0 3 false) [mkSuggestWord "status" "field"] []))). eexists.
  split; [|split; [|split; [|reflexivity]]]; vm_compute; [reflexivity|discriminate|reflexivity].
Qed.

(** *** The help *)

(** The caret stands under the character the server names, the first being 1. *)
Lemma caretLine_under p :
  1 <= p → length_of (caretLine (Some p)) = p ∧ caretLine (Some p) = repeatString (Z.to_nat (p - 1)) " " +:+ "^".
Proof.
  intros Hp. unfold caretLine. rewrite (proj2 (Z.ltb_ge _ _)) by lia. split; [|done]. rewrite length_of_app.
  assert (∀ n, length_of (repeatString n " ") = Z.of_nat n) as ->; [|change (length_of "^") with 1; lia].
  intros n. induction n as [|n IH]; [done|]. cbn [repeatString]. rewrite length_of_app, IH. change (length_of " ") with 1. lia.
Qed.

(** Every field has words for what it takes and an example that names it, and no
    field is there twice. *)
Lemma help_whole :
  forallb (fun f => match takes help_fields_en f with Some w => truthy w | None => false end && includes (qf_example f) (qf_name f)) QUERY_FIELDS = true ∧
  NoDup (map qf_name QUERY_FIELDS).
Proof. split; [reflexivity|]. apply (bool_decide_unpack _). vm_compute. exact I. Qed.
