(* ===== verification/Themes.v ===== *)
(** Themes: the tokens one may redefine ([web/src/lib/theme-tokens.ts]) and the
    stylesheet it compiles to ([lib/theme-css.ts]). *)

From Stdlib Require Import ZArith QArith Qround Lia Lqa Ascii String.
From stdpp Require Import base list strings.
From S2P Require Import Prelude JsString Config.

Open Scope Z_scope.

(** ** Tokens *)

Record TokenGroup := mkTokenGroup { tg_id : string; tg_tokens : list string }.

Definition TOKEN_GROUPS : list TokenGroup :=
  [mkTokenGroup "Surfaces" ["canvas"; "surface"; "surface-raised"; "surface-sunken"; "surface-overlay"; "surface-glass"];
   mkTokenGroup "Backdrop" ["backdrop-from"; "backdrop-to"];
   mkTokenGroup "Borders" ["border"; "border-strong"];
   mkTokenGroup "Text" ["ink"; "ink-muted"; "ink-subtle"; "ink-disabled"];
   mkTokenGroup "Actions" ["primary"; "primary-hover"; "on-primary"];
   mkTokenGroup "Accent" ["accent"; "accent-hover"; "accent-subtle"; "on-accent"; "focus"; "selection"];
   mkTokenGroup "Feedback" ["danger"; "danger-hover"; "danger-subtle"; "on-danger"; "success"; "success-subtle"; "warning"; "warning-subtle"; "epic"];
   mkTokenGroup "Statuses" ["status-todo"; "status-progress"; "status-done"; "status-todo-subtle"; "status-progress-subtle"; "status-done-subtle"];
   mkTokenGroup "Charts" ["chart-1"; "chart-2"; "chart-3"; "chart-4"; "chart-5"; "chart-6"]]%string.

(** The pointers a theme may replace, with what each lands on. *)
Record CursorKind := mkCursorKind { ck_kind : string; ck_keyword : string; ck_selector : string }.

Definition CURSOR_KINDS : list CursorKind :=
  [mkCursorKind "default" "default" ":root, body";
   mkCursorKind "pointer" "pointer" ("a, button, [role=" +:+ in_quotes "button" +:+ "], [role=" +:+ in_quotes "tab" +:+ "], [role=" +:+ in_quotes "option" +:+ "], label, select, summary, .cursor-pointer");
   mkCursorKind "text" "text" ("input:not([type=" +:+ in_quotes "checkbox" +:+ "]):not([type=" +:+ in_quotes "radio" +:+ "]):not([type=" +:+ in_quotes "file" +:+ "]), textarea, [contenteditable=" +:+ in_quotes "true" +:+ "], .cursor-text");
   mkCursorKind "grab" "grab" ".cursor-grab";
   mkCursorKind "grabbing" "grabbing" ".cursor-grabbing";
   mkCursorKind "move" "move" ".cursor-move";
   mkCursorKind "notAllowed" "not-allowed" (":disabled, [aria-disabled=" +:+ in_quotes "true" +:+ "], .cursor-not-allowed");
   mkCursorKind "wait" "wait" ".cursor-wait, .cursor-progress"]%string.

(** Every token name, flat, in the editor's order. *)
Definition TOKEN_NAMES : list string := flat_map tg_tokens TOKEN_GROUPS.

Definition SHADOW_KEYS : list string := ["1"; "2"; "3"]%string.

(** ** What a theme holds *)

Record ThemeAssetRef := mkThemeAssetRef { asset_id : string; asset_contentType : string }.

Record FontFace := mkFontFace { font_family : string; font_assetId : option string }.
Record ThemeCursor := mkThemeCursor { cursor_assetId : string; cursor_hotspotX : Q; cursor_hotspotY : Q }.
Record ThemeIcon := mkThemeIcon { icon_assetId : option string; icon_paths : option (list string) }.
Inductive Fit := fit_cover | fit_tile.
#[export] Instance Fit_eq : EqDecision Fit.
Proof. solve_decision. Defined.
Record Backdrop := mkBackdrop { backdrop_assetId : string; backdrop_fit : Fit }.

Record ThemeSpec := mkThemeSpec {
  spec_light : list (string * string);
  spec_dark : list (string * string);
  spec_sans : option FontFace;
  spec_mono : option FontFace;
  spec_radiusControl : option Q;
  spec_radiusOverlay : option Q;
  spec_shadows : list (string * string);
  spec_cursors : list (string * ThemeCursor);
  spec_icons : list (string * ThemeIcon);
  spec_backdrop : option Backdrop;
  spec_effect : option string;
  spec_css : string;
}.

Record CompilableTheme := mkCompilableTheme { theme_id : string; theme_spec : ThemeSpec; theme_assets : list ThemeAssetRef }.

Definition emptySpec : ThemeSpec := mkThemeSpec [] [] None None None None [] [] [] None None EmptyString.

(** ** The stylesheet *)

(** A number that is not negative and whose decimals end, as the language writes it. *)
Fixpoint decimals (fuel : nat) (q : Q) : string :=
  match fuel with
  | O => EmptyString
  | S fuel' =>
      if Qeq_bool q 0 then EmptyString
      else let d := Qfloor (10 * q) in String (digit_unit d) (decimals fuel' (10 * q - inject_Z d))
  end.

Definition DECIMALS : nat := 17.

Definition number_text (q : Q) : string :=
  let fraction := decimals DECIMALS (q - inject_Z (Qfloor q)) in
  stringOfInt (Qfloor q) +:+ (if truthy fraction then "." +:+ fraction else EmptyString).

Definition nl : string := String (ascii_of_nat 10) EmptyString.

(** [selector { ... }] on lines of its own. *)
Definition rule_text (selector body : string) : string := selector +:+ " {" +:+ nl +:+ body +:+ nl +:+ "}".

Definition themeAssetURL (themeId assetId : string) : string := "/api/v1/themes/" +:+ themeId +:+ "/assets/" +:+ assetId.

Definition declarations (set : list (string * string)) : string :=
  join nl (map (fun e => "  --color-" +:+ e.1 +:+ ": " +:+ e.2 +:+ ";") (filter (fun e => e.1 ∈ TOKEN_NAMES) set)).

Definition css_url (href : string) : string := "url(" +:+ stringify href +:+ ")".

Definition fontFormat (contentType : string) : string := if decide (contentType = "font/woff2"%string) then "woff2" else "woff".

Definition ICON_STROKE : Q := 3 # 2.

Definition pathsAsImage (paths : list string) : string :=
  let svg := "<svg xmlns=" +:+ in_quotes "http://www.w3.org/2000/svg" +:+ " viewBox=" +:+ in_quotes "0 0 16 16" +:+ " fill=" +:+ in_quotes "none" +:+
    " stroke=" +:+ in_quotes "black" +:+ " stroke-width=" +:+ in_quotes (number_text ICON_STROKE) +:+ " stroke-linecap=" +:+ in_quotes "round" +:+
    " stroke-linejoin=" +:+ in_quotes "round" +:+ ">" +:+ join EmptyString (map (fun d => "<path d=" +:+ in_quotes d +:+ "/>") paths) +:+ "</svg>" in
  "data:image/svg+xml," +:+ encodeURIComponent svg.

(** The colours of one palette: under its own attribute, and under the system's
    choice unless the other is asked for. *)
Definition palette_rules (mode other colours : string) : list string :=
  if truthy colours then
    [rule_text (":root[data-theme=" +:+ in_quotes mode +:+ "]") colours;
     "@media (prefers-color-scheme: " +:+ mode +:+ ") {" +:+ nl +:+ rule_text (":root:not([data-theme=" +:+ in_quotes other +:+ "])") colours +:+ nl +:+ "}"]
  else [].

Section Compile.
Context (theme : CompilableTheme).

Definition asset_url (id : string) : string := themeAssetURL (theme_id theme) id.

Definition assetType (id : string) : string :=
  default EmptyString (asset_contentType <$> head (filter (fun a => asset_id a = id) (theme_assets theme))).

(** A face for one role: the rule that loads it, and what it puts on the root. *)
Definition font_rules (font : option FontFace) : list string :=
  match font with
  | Some f =>
      match font_assetId f with
      | Some id =>
          if truthy id then
            [rule_text "@font-face" (join nl ["  font-family: " +:+ stringify (font_family f) +:+ ";";
              "  src: " +:+ css_url (asset_url id) +:+ " format(" +:+ in_quotes (fontFormat (assetType id)) +:+ ");"; "  font-display: swap;"])]
          else []
      | None => []
      end
  | None => []
  end%string.

Definition font_root (role fallback : string) (font : option FontFace) : list string :=
  match font with
  | Some f => ["  --font-" +:+ role +:+ ": " +:+ stringify (font_family f) +:+ ", " +:+ fallback +:+ ";"]
  | None => []
  end.

Definition radius_root (name : string) (radius : option Q) : list string :=
  match radius with Some r => ["  --radius-" +:+ name +:+ ": " +:+ number_text r +:+ "px;"] | None => [] end.

(** The keys are array indices, which an object lists in ascending order. *)
Definition shadow_root (shadows : list (string * string)) : list string :=
  omap (fun key => (fun value => "  --shadow-" +:+ key +:+ ": " +:+ value +:+ ";") <$> jget shadows key) SHADOW_KEYS.

Definition root_lines (s : ThemeSpec) : list string :=
  font_root "sans" "ui-sans-serif, system-ui, sans-serif" (spec_sans s) ++ font_root "mono" "ui-monospace, monospace" (spec_mono s) ++
  radius_root "control" (spec_radiusControl s) ++ radius_root "overlay" (spec_radiusOverlay s) ++ shadow_root (spec_shadows s).

Definition cursor_rules (s : ThemeSpec) : list string :=
  omap (fun each =>
    (fun c => rule_text (ck_selector each)
      ("  cursor: " +:+ css_url (asset_url (cursor_assetId c)) +:+ " " +:+ number_text (cursor_hotspotX c) +:+ " " +:+
       number_text (cursor_hotspotY c) +:+ ", " +:+ ck_keyword each +:+ ";")) <$> jget (spec_cursors s) (ck_kind each)) CURSOR_KINDS.

Definition icon_image (icon : ThemeIcon) : option string :=
  match icon_assetId icon with
  | Some id => if truthy id then Some (asset_url id) else match icon_paths icon with Some (p :: ps) => Some (pathsAsImage (p :: ps)) | _ => None end
  | None => match icon_paths icon with Some (p :: ps) => Some (pathsAsImage (p :: ps)) | _ => None end
  end.

Definition icon_rules (s : ThemeSpec) : list string :=
  flat_map (fun e : string * ThemeIcon =>
    match icon_image e.2 with
    | Some image =>
        let mask := css_url image +:+ " center / contain no-repeat" in
        [rule_text ("svg[data-icon=" +:+ stringify e.1 +:+ "] > path") "  display: none;";
         rule_text ("svg[data-icon=" +:+ stringify e.1 +:+ "]")
           (join nl ["  background-color: currentColor;"; "  -webkit-mask: " +:+ mask +:+ ";"; "  mask: " +:+ mask +:+ ";"])]
    | None => []
    end%string) (spec_icons s).

Definition backdrop_rules (s : ThemeSpec) : list string :=
  match spec_backdrop s with
  | Some b =>
      let image := css_url (asset_url (backdrop_assetId b)) in
      [rule_text ".bg-backdrop" ("  background: " +:+ image +:+
        (if decide (backdrop_fit b = fit_tile) then " repeat;" else " center / cover no-repeat;"))]
  | None => []
  end.

Definition theme_rules : list string :=
  let s := theme_spec theme in
  palette_rules "light" "dark" (declarations (spec_light s)) ++
  palette_rules "dark" "light" (declarations (spec_dark s)) ++
  font_rules (spec_sans s) ++ font_rules (spec_mono s) ++
  (match root_lines s with [] => [] | lines => [rule_text ":root" (join nl lines)] end) ++
  cursor_rules s ++ icon_rules s ++ backdrop_rules s ++
  (if truthy (trim (spec_css s)) then [trim (spec_css s)] else []).

Definition compileTheme : string := join (nl +:+ nl) theme_rules.
End Compile.

Example theme_nothing themeId assets : compileTheme (mkCompilableTheme themeId emptySpec assets) = EmptyString.
Proof. reflexivity. Qed.
Example theme_cursor :
  cursor_rules (mkCompilableTheme "t" emptySpec [])
    (mkThemeSpec [] [] None None None None [] [("grab"%string, mkThemeCursor "f" 3 (5#2))] [] None None EmptyString) =
  [".cursor-grab {" +:+ nl +:+ "  cursor: url(" +:+ in_quotes "/api/v1/themes/t/assets/f" +:+ ") 3 2.5, grab;" +:+ nl +:+ "}"].
Proof. reflexivity. Qed.

(** ** Facts: a stylesheet that nothing can break out of *)

(** How deep in blocks a reader of the sheet is, and whether inside a quoted text,
    as the syntax of CSS reads quotes, escapes and braces. *)
Inductive Css := css_outside (depth : nat) | css_quoted (depth : nat) | css_escaped (depth : nat) | css_broken.

Definition css_unit (st : Css) (c : ascii) : Css :=
  match st with
  | css_outside d =>
      if bool_decide (c = ascii_of_nat 34) then css_quoted d
      else if bool_decide (c = "{"%char) then css_outside (S d)
      else if bool_decide (c = "}"%char) then match d with S d' => css_outside d' | O => css_broken end
      else if bool_decide (c = "\"%char) || bool_decide (c = "'"%char) || bool_decide (c = "*"%char) then css_broken
      else css_outside d
  | css_quoted d =>
      if bool_decide (c = ascii_of_nat 34) then css_outside d
      else if bool_decide (c = "\"%char) then css_escaped d
      else if bool_decide (code c ∈ [10; 12; 13]) then css_broken
      else css_quoted d
  | css_escaped d => css_quoted d
  | css_broken => css_broken
  end.

Fixpoint css_read (st : Css) (s : string) : Css :=
  match s with EmptyString => st | String c s' => css_read (css_unit st c) s' end.

(** A text that leaves a reader where it found them, whatever blocks they are in. *)
Definition balanced (s : string) : Prop := ∀ d, css_read (css_outside d) s = css_outside d.

(** A text with nothing in it that opens or closes anything. *)
Definition plain_unit (c : ascii) : bool :=
  negb (bool_decide (c ∈ [ascii_of_nat 34; "{"; "}"; "\"; "'"; "*"]%char)).

Lemma css_read_app st a b : css_read st (a +:+ b) = css_read (css_read st a) b.
Proof. revert st. induction a as [|c a IH]; intros st; [done|]. apply IH. Qed.

Lemma balanced_app a b : balanced a → balanced b → balanced (a +:+ b).
Proof. intros Ha Hb d. by rewrite css_read_app, Ha, Hb. Qed.

Lemma balanced_join sep l : balanced sep → Forall balanced l → balanced (join sep l).
Proof.
  intros Hsep. induction 1 as [|w l Hw _ IH]; [by intros d|]. cbn [join]. destruct l; [done|].
  by apply balanced_app, balanced_app.
Qed.

Lemma plain_balanced s : string_forall plain_unit s = true → balanced s.
Proof.
  intros H d. revert H. induction s as [|c s IH]; [done|]. cbn [string_forall css_read]. intros [Hc Hs]%andb_true_iff.
  assert (css_unit (css_outside d) c = css_outside d) as ->; [|by apply IH].
  unfold plain_unit in Hc. apply negb_true_iff, bool_decide_eq_false in Hc.
  unfold css_unit. rewrite !(bool_decide_false (c = _)) by (intros ->; apply Hc; repeat constructor). done.
Qed.

Lemma rule_balanced selector body : balanced selector → balanced body → balanced (rule_text selector body).
Proof.
  intros Hs Hb d. unfold rule_text. rewrite css_read_app, Hs. change (" {" +:+ nl +:+ body +:+ nl +:+ "}") with ((" {" +:+ nl) +:+ (body +:+ (nl +:+ "}"))).
  rewrite css_read_app. change (css_read (css_outside d) (" {" +:+ nl)) with (css_outside (S d)). by rewrite css_read_app, Hb.
Qed.

Lemma stringify_unit_quoted d c : css_read (css_quoted d) (stringify_unit c) = css_quoted d.
Proof. destruct c as [[] [] [] [] [] [] [] []]; reflexivity. Qed.

Lemma stringify_units_quoted d s : css_read (css_quoted d) (stringify_units s) = css_quoted d.
Proof. induction s as [|c s IH]; [done|]. cbn [stringify_units]. by rewrite css_read_app, stringify_unit_quoted. Qed.

(** What [JSON.stringify] writes is one quoted text to CSS too. *)
Lemma stringify_balanced s : balanced (stringify s).
Proof.
  intros d. unfold stringify, in_quotes.
  change (css_read (css_outside d) (String (ascii_of_nat 34) (stringify_units s +:+ String (ascii_of_nat 34) EmptyString)))
    with (css_read (css_quoted d) (stringify_units s +:+ String (ascii_of_nat 34) EmptyString)).
  by rewrite css_read_app, stringify_units_quoted.
Qed.

Lemma css_url_balanced href : balanced (css_url href).
Proof. apply (balanced_app "url("); [by intros d|]. apply balanced_app; [apply stringify_balanced|by intros d]. Qed.

Lemma digit_plain s : string_forall is_digit s = true → string_forall plain_unit s = true.
Proof.
  induction s as [|c s IH]; [done|]. cbn [string_forall]. intros [Hc Hs]%andb_true_iff. rewrite (IH Hs), andb_true_r.
  destruct c as [[] [] [] [] [] [] [] []]; first [reflexivity|discriminate Hc].
Qed.

Lemma decimals_digits fuel q : (0 <= q < 1)%Q → string_forall is_digit (decimals fuel q) = true.
Proof.
  revert q. induction fuel as [|fuel IH]; intros q Hq; [done|]. cbn [decimals]. destruct (Qeq_bool q 0); [done|]. cbn zeta.
  assert (0 <= Qfloor (10 * q) < 10) as Hd.
  { pose proof (Qfloor_le (10 * q)) as H1. pose proof (Qlt_floor (10 * q)) as H2. split.
    - apply (Qfloor_resp_le 0 (10 * q)). lra.
    - rewrite Zlt_Qlt. apply Qle_lt_trans with (10 * q)%Q; [done|]. change (inject_Z 10) with 10%Q. lra. }
  cbn [string_forall]. rewrite digit_unit_is_digit by done. cbn [andb]. apply IH.
  pose proof (Qfloor_le (10 * q)) as H1. pose proof (Qlt_floor (10 * q)) as H2. rewrite inject_Z_plus in H2. change (inject_Z 1) with 1%Q in H2. lra.
Qed.

Lemma number_text_balanced q : (0 <= q)%Q → balanced (number_text q).
Proof.
  intros Hq. apply plain_balanced. unfold number_text.
  assert (0 <= Qfloor q) as Hf by (apply (Qfloor_resp_le 0 q); exact Hq).
  rewrite string_forall_app. apply andb_true_iff. split.
  - apply digit_plain. unfold stringOfInt. rewrite (proj2 (Z.ltb_ge _ _)) by lia. by apply digits_all.
  - assert (string_forall is_digit (decimals DECIMALS (q - inject_Z (Qfloor q))) = true) as Hd.
    { apply decimals_digits. pose proof (Qfloor_le q) as H1. pose proof (Qlt_floor q) as H2. rewrite inject_Z_plus in H2. change (inject_Z 1) with 1%Q in H2. lra. }
    destruct (truthy _); [|done]. rewrite string_forall_app. by apply digit_plain in Hd as ->.
Qed.

Ltac balance :=
  repeat lazymatch goal with
  | |- balanced (rule_text _ _) => apply rule_balanced
  | |- balanced (stringify _) => apply stringify_balanced
  | |- balanced (css_url _) => apply css_url_balanced
  | |- balanced (number_text _) => apply number_text_balanced; assumption
  | |- balanced (join _ _) => apply balanced_join; [intros ?; reflexivity|]
  | |- balanced (?a +:+ _) => apply balanced_app
  | |- Forall _ (_ :: _) => constructor
  | |- Forall _ [] => constructor
  | |- Forall _ (_ ++ _) => apply Forall_app; split
  | |- balanced _ => first [assumption | intros ?; reflexivity]
  end.

(** A theme whose own texts open and close nothing, and whose numbers are not
    negative.  Families, names of icons, path data and ids are free. *)
Record texts_plain (s : ThemeSpec) : Prop := mkTextsPlain {
  plain_light : Forall (fun e => string_forall plain_unit e.2 = true) (spec_light s);
  plain_dark : Forall (fun e => string_forall plain_unit e.2 = true) (spec_dark s);
  plain_shadows : Forall (fun e => string_forall plain_unit e.2 = true) (spec_shadows s);
  plain_radii : ∀ r, spec_radiusControl s = Some r ∨ spec_radiusOverlay s = Some r → (0 <= r)%Q;
  plain_hotspots : Forall (fun e => 0 <= cursor_hotspotX e.2 ∧ 0 <= cursor_hotspotY e.2)%Q (spec_cursors s);
  plain_css : balanced (trim (spec_css s));
}.

Lemma token_plain name : name ∈ TOKEN_NAMES → string_forall plain_unit name = true.
Proof.
  intros H. assert (Forall (fun n => string_forall plain_unit n = true) TOKEN_NAMES) as Hall by (repeat constructor).
  by apply (proj1 (Forall_forall _ _) Hall).
Qed.

Lemma declarations_balanced set : Forall (fun e => string_forall plain_unit e.2 = true) set → balanced (declarations set).
Proof.
  intros Hset. apply balanced_join; [by intros d|]. apply Forall_fmap, Forall_forall. intros [name value] Hin.
  apply list_elem_of_filter in Hin as [Hname Hin]. cbn [compose fst snd] in *.
  assert (balanced name) by by apply plain_balanced, token_plain.
  assert (balanced value) by (apply plain_balanced; exact (proj1 (Forall_forall _ _) Hset _ Hin)). balance.
Qed.

Lemma palette_balanced mode other colours :
  balanced mode → balanced (in_quotes mode) → balanced (in_quotes other) → balanced colours → Forall balanced (palette_rules mode other colours).
Proof.
  intros Hm Hmq Hoq Hc. unfold palette_rules. destruct (truthy colours); [|constructor]. constructor; [balance|]. constructor; [|constructor].
  assert (balanced (rule_text (":root:not([data-theme=" +:+ in_quotes other +:+ "])") colours)) by balance.
  intros d. rewrite !css_read_app. change (css_read (css_outside d) "@media (prefers-color-scheme: ") with (css_outside d).
  rewrite Hm. change (css_read (css_read (css_outside d) ") {") nl) with (css_outside (S d)). by rewrite H.
Qed.

Section Rules.
Context (theme : CompilableTheme).

Lemma font_rules_balanced font : Forall balanced (font_rules theme font).
Proof.
  unfold font_rules. destruct font as [f|]; [|constructor]. destruct (font_assetId f) as [id|]; [|constructor]. destruct (truthy id); [|constructor].
  assert (balanced (in_quotes (fontFormat (assetType theme id)))) by (unfold fontFormat; case_decide; by intros d). balance.
Qed.

Lemma root_lines_balanced s : texts_plain s → Forall balanced (root_lines s).
Proof.
  intros [_ _ Hsh Hr _ _]. unfold root_lines. repeat apply Forall_app_2.
  1,2: unfold font_root; case_match; balance.
  1,2: unfold radius_root; case_match; [|constructor]; assert (0 <= q)%Q by (apply Hr; auto); balance.
  apply Forall_forall. intros line Hin. unfold shadow_root in Hin. apply list_elem_of_omap in Hin as (key & Hkey & Hline).
  destruct (jget (spec_shadows s) key) as [value|] eqn:E; [|done]. apply (inj Some) in Hline as <-. apply jget_elem in E.
  assert (balanced value) by (apply plain_balanced; exact (proj1 (Forall_forall _ _) Hsh _ E)).
  assert (balanced key) by (apply plain_balanced; apply (proj1 (Forall_forall (fun k => string_forall plain_unit k = true) SHADOW_KEYS)); [by repeat constructor|done]). balance.
Qed.

Lemma cursor_rules_balanced s : texts_plain s → Forall balanced (cursor_rules theme s).
Proof.
  intros Hs. apply Forall_forall. intros line Hin. unfold cursor_rules in Hin. apply list_elem_of_omap in Hin as (each & Heach & Hline).
  destruct (jget (spec_cursors s) (ck_kind each)) as [c|] eqn:E; [|done]. apply (inj Some) in Hline as <-. apply jget_elem in E.
  destruct (proj1 (Forall_forall _ _) (plain_hotspots s Hs) _ E) as [Hx Hy]. cbn [snd] in Hx, Hy.
  assert (Forall (fun k => balanced (ck_selector k) ∧ balanced (ck_keyword k)) CURSOR_KINDS) as Hk by (repeat constructor).
  destruct (proj1 (Forall_forall _ _) Hk _ Heach). balance.
Qed.

Lemma icon_rules_balanced s : Forall balanced (icon_rules theme s).
Proof.
  unfold icon_rules. induction (spec_icons s) as [|e l IH]; [constructor|]. cbn [flat_map]. apply Forall_app_2; [|done].
  destruct (icon_image theme e.2) as [image|]; balance.
Qed.

Lemma backdrop_rules_balanced s : Forall balanced (backdrop_rules theme s).
Proof. unfold backdrop_rules. destruct (spec_backdrop s); [|constructor]. case_decide; balance. Qed.
End Rules.

(** C17: nothing that a theme names rather than writes can break out of its place in the
    stylesheet: whatever font families, icon names, path data, file and theme ids
    hold, the sheet's quotes close and its braces match, as long as the colours, the
    shadows and the extra rules do not break it themselves. *)
Theorem theme_sheet_balanced theme : texts_plain (theme_spec theme) → balanced (compileTheme theme).
Proof.
  intros Hs. pose proof Hs as [Hl Hd _ _ _ Hcss]. unfold compileTheme. apply balanced_join; [by intros d|]. unfold theme_rules.
  repeat apply Forall_app_2.
  1,2: apply palette_balanced; try (by intros d); by apply declarations_balanced.
  1,2: apply font_rules_balanced.
  - pose proof (root_lines_balanced (theme_spec theme) Hs) as H. destruct (root_lines (theme_spec theme)); [constructor|].
    constructor; [|constructor]. apply rule_balanced; [by intros d|]. apply balanced_join; [by intros d|done].
  - by apply cursor_rules_balanced.
  - apply icon_rules_balanced.
  - apply backdrop_rules_balanced.
  - destruct (truthy (trim (spec_css (theme_spec theme)))); balance.
Qed.

(** A theme with an icon, a face and a family that try. *)
Definition hostile_theme : CompilableTheme :=
  mkCompilableTheme "t}"
    (mkThemeSpec [("ink", "#000")] [] (Some (mkFontFace ("A" +:+ in_quotes ";} * { color: red") (Some "f"))) None (Some (5#2)) None [("2", "0 1px 2px rgb(0 0 0 / 0.1)")]
      [("wait", mkThemeCursor "c" 1 2)] [("home" +:+ in_quotes "] > {", mkThemeIcon None (Some ["M2 8h12" +:+ in_quotes "/>}"]))] None None " .x { y: z } ")
    [mkThemeAssetRef "f" "font/woff2"]%string.

Lemma theme_sheet_balanced_witness : css_read (css_outside 0) (compileTheme hostile_theme) = css_outside 0.
Proof.
  apply (theme_sheet_balanced hostile_theme). split; [by repeat constructor..| |by repeat constructor|intros d; reflexivity].
  intros r [[= <-]|[=]]. discriminate.
Defined.

(** Only tokens of the stylesheet are written. *)
Lemma declarations_unknown set : Forall (fun e => e.1 ∉ TOKEN_NAMES) set → declarations set = EmptyString.
Proof.
  intros H. unfold declarations. assert (filter (fun e => e.1 ∈ TOKEN_NAMES) set = []) as ->; [|done].
  induction H as [|e l He _ IH]; [done|]. by rewrite filter_cons, decide_False.
Qed.

(** No token is there twice. *)
Lemma token_names_once : NoDup TOKEN_NAMES.
Proof. apply (bool_decide_unpack _). vm_compute. exact I. Qed.
