(* ===== verification/ThemeEditor.v ===== *)
(** The theme editor: [web/src/features/themes/ThemeEditor.tsx].

    Every control of the editor is an edit of the draft; the draft is shown on the
    page once it has settled, and sent when it is saved. *)

From Stdlib Require Import ZArith QArith Qround Qminmax Lia Lqa Ascii String.
From stdpp Require Import base list strings.
From S2P Require Import Prelude JsString Config Themes.

Open Scope Z_scope.

(** ** The edits *)

Inductive PaletteMode := palette_light | palette_dark.
#[export] Instance PaletteMode_eq : EqDecision PaletteMode.
Proof. solve_decision. Defined.
Inductive FontRole := role_sans | role_mono.
#[export] Instance FontRole_eq : EqDecision FontRole.
Proof. solve_decision. Defined.
Inductive Corner := corner_control | corner_overlay.
Inductive Axis := axis_x | axis_y.

(** What a number box holds: nothing, or a number kept within its bounds. *)
Definition number_field (max : Q) (value : option Q) : option Q := (fun v => Qmax 0 (Qmin max v)) <$> value.

Definition with_palette (s : ThemeSpec) (mode : PaletteMode) (f : list (string * string) → list (string * string)) : ThemeSpec :=
  match mode with
  | palette_light => mkThemeSpec (f (spec_light s)) (spec_dark s) (spec_sans s) (spec_mono s) (spec_radiusControl s) (spec_radiusOverlay s) (spec_shadows s) (spec_cursors s) (spec_icons s) (spec_backdrop s) (spec_effect s) (spec_css s)
  | palette_dark => mkThemeSpec (spec_light s) (f (spec_dark s)) (spec_sans s) (spec_mono s) (spec_radiusControl s) (spec_radiusOverlay s) (spec_shadows s) (spec_cursors s) (spec_icons s) (spec_backdrop s) (spec_effect s) (spec_css s)
  end.

Definition with_font (s : ThemeSpec) (role : FontRole) (f : option FontFace → option FontFace) : ThemeSpec :=
  match role with
  | role_sans => mkThemeSpec (spec_light s) (spec_dark s) (f (spec_sans s)) (spec_mono s) (spec_radiusControl s) (spec_radiusOverlay s) (spec_shadows s) (spec_cursors s) (spec_icons s) (spec_backdrop s) (spec_effect s) (spec_css s)
  | role_mono => mkThemeSpec (spec_light s) (spec_dark s) (spec_sans s) (f (spec_mono s)) (spec_radiusControl s) (spec_radiusOverlay s) (spec_shadows s) (spec_cursors s) (spec_icons s) (spec_backdrop s) (spec_effect s) (spec_css s)
  end.

Definition with_radius (s : ThemeSpec) (corner : Corner) (r : option Q) : ThemeSpec :=
  match corner with
  | corner_control => mkThemeSpec (spec_light s) (spec_dark s) (spec_sans s) (spec_mono s) r (spec_radiusOverlay s) (spec_shadows s) (spec_cursors s) (spec_icons s) (spec_backdrop s) (spec_effect s) (spec_css s)
  | corner_overlay => mkThemeSpec (spec_light s) (spec_dark s) (spec_sans s) (spec_mono s) (spec_radiusControl s) r (spec_shadows s) (spec_cursors s) (spec_icons s) (spec_backdrop s) (spec_effect s) (spec_css s)
  end.

Definition with_shadows (s : ThemeSpec) (shadows : list (string * string)) : ThemeSpec :=
  mkThemeSpec (spec_light s) (spec_dark s) (spec_sans s) (spec_mono s) (spec_radiusControl s) (spec_radiusOverlay s) shadows (spec_cursors s) (spec_icons s) (spec_backdrop s) (spec_effect s) (spec_css s).
Definition with_cursors (s : ThemeSpec) (cursors : list (string * ThemeCursor)) : ThemeSpec :=
  mkThemeSpec (spec_light s) (spec_dark s) (spec_sans s) (spec_mono s) (spec_radiusControl s) (spec_radiusOverlay s) (spec_shadows s) cursors (spec_icons s) (spec_backdrop s) (spec_effect s) (spec_css s).
Definition with_icons (s : ThemeSpec) (icons : list (string * ThemeIcon)) : ThemeSpec :=
  mkThemeSpec (spec_light s) (spec_dark s) (spec_sans s) (spec_mono s) (spec_radiusControl s) (spec_radiusOverlay s) (spec_shadows s) (spec_cursors s) icons (spec_backdrop s) (spec_effect s) (spec_css s).
Definition with_backdrop (s : ThemeSpec) (backdrop : option Backdrop) : ThemeSpec :=
  mkThemeSpec (spec_light s) (spec_dark s) (spec_sans s) (spec_mono s) (spec_radiusControl s) (spec_radiusOverlay s) (spec_shadows s) (spec_cursors s) (spec_icons s) backdrop (spec_effect s) (spec_css s).
Definition with_effect (s : ThemeSpec) (effect : option string) : ThemeSpec :=
  mkThemeSpec (spec_light s) (spec_dark s) (spec_sans s) (spec_mono s) (spec_radiusControl s) (spec_radiusOverlay s) (spec_shadows s) (spec_cursors s) (spec_icons s) (spec_backdrop s) effect (spec_css s).
Definition with_css (s : ThemeSpec) (css : string) : ThemeSpec :=
  mkThemeSpec (spec_light s) (spec_dark s) (spec_sans s) (spec_mono s) (spec_radiusControl s) (spec_radiusOverlay s) (spec_shadows s) (spec_cursors s) (spec_icons s) (spec_backdrop s) (spec_effect s) css.

(** The controls, in the order of the tabs. *)
Inductive ThemeEdit :=
  | SetColor (mode : PaletteMode) (token next : string)
  | ResetColor (mode : PaletteMode) (token : string)
  | SetFamily (role : FontRole) (family : string)
  | SetFontFile (role : FontRole) (value : string)
  | ResetFont (role : FontRole)
  | SetRadius (corner : Corner) (value : option Q)
  | SetShadow (key value : string)
  | SetCursorFile (kind : string) (value : string)
  | SetHotspot (kind : string) (axis : Axis) (value : option Q)
  | SetIconFile (name : string) (value : string)
  | SetIconPaths (name text : string)
  | ResetIcon (name : string)
  | SetBackdropFile (value : string)
  | SetFit (fit : Fit)
  | SetEffect (effect : string)
  | SetCss (css : string).

(** [value || undefined] of a list of files. *)
Definition chosen_file (value : string) : option string := if truthy value then Some value else None.

Definition some_text (l : list string) : option (list string) := match l with [] => None | _ => Some l end.

Definition path_lines (text : string) : list string := filter (fun line => truthy line = true) (map trim (split (ascii_of_nat 10) text)).

Definition setColor (s : ThemeSpec) (mode : PaletteMode) (token next : string) : ThemeSpec :=
  with_palette s mode (fun set => if truthy (trim next) then jset set token (trim next) else jdel set token).
Definition resetColor (s : ThemeSpec) (mode : PaletteMode) (token : string) : ThemeSpec := with_palette s mode (fun set => jdel set token).

Definition setFamily (s : ThemeSpec) (role : FontRole) (family : string) : ThemeSpec :=
  with_font s role (fun font => if truthy (trim family) then Some (mkFontFace family (font ≫= font_assetId)) else None).
Definition setFontFile (s : ThemeSpec) (role : FontRole) (value : string) : ThemeSpec :=
  with_font s role (fun font => (fun f => mkFontFace (font_family f) (chosen_file value)) <$> font).
Definition resetFont (s : ThemeSpec) (role : FontRole) : ThemeSpec := with_font s role (fun _ => None).

Definition setRadius (s : ThemeSpec) (corner : Corner) (value : option Q) : ThemeSpec := with_radius s corner (number_field THEME_MAX_RADIUS value).
Definition setShadow (s : ThemeSpec) (key value : string) : ThemeSpec :=
  with_shadows s (if truthy (trim value) then jset (spec_shadows s) key value else jdel (spec_shadows s) key).

Definition setCursorFile (s : ThemeSpec) (kind value : string) : ThemeSpec :=
  let cursor := jget (spec_cursors s) kind in
  with_cursors s (match chosen_file value with
    | Some i => jset (spec_cursors s) kind (mkThemeCursor i (default 0%Q (cursor_hotspotX <$> cursor)) (default 0%Q (cursor_hotspotY <$> cursor)))
    | None => jdel (spec_cursors s) kind
    end).
(** Drawn beside a cursor that is set. *)
Definition setHotspot (s : ThemeSpec) (kind : string) (axis : Axis) (value : option Q) : ThemeSpec :=
  match jget (spec_cursors s) kind with
  | Some c =>
      let v := default 0%Q (number_field THEME_MAX_HOTSPOT value) in
      with_cursors s (jset (spec_cursors s) kind
        (match axis with axis_x => mkThemeCursor (cursor_assetId c) v (cursor_hotspotY c) | axis_y => mkThemeCursor (cursor_assetId c) (cursor_hotspotX c) v end))
  | None => s
  end.

Definition setIconFile (s : ThemeSpec) (name value : string) : ThemeSpec :=
  let paths := default [] (jget (spec_icons s) name ≫= icon_paths) in
  with_icons s (match chosen_file value, paths with
    | None, [] => jdel (spec_icons s) name
    | id, _ => jset (spec_icons s) name (mkThemeIcon id (some_text paths))
    end).
Definition setIconPaths (s : ThemeSpec) (name text : string) : ThemeSpec :=
  let file := (jget (spec_icons s) name ≫= icon_assetId) ≫= chosen_file in
  with_icons s (match path_lines text, file with
    | [], None => jdel (spec_icons s) name
    | paths, _ => jset (spec_icons s) name (mkThemeIcon file (some_text paths))
    end).
Definition resetIcon (s : ThemeSpec) (name : string) : ThemeSpec := with_icons s (jdel (spec_icons s) name).

Definition setBackdropFile (s : ThemeSpec) (value : string) : ThemeSpec :=
  with_backdrop s ((fun i => mkBackdrop i (default fit_cover (backdrop_fit <$> spec_backdrop s))) <$> chosen_file value).
Definition setFit (s : ThemeSpec) (fit : Fit) : ThemeSpec := with_backdrop s ((fun b => mkBackdrop (backdrop_assetId b) fit) <$> spec_backdrop s).
Definition setEffect (s : ThemeSpec) (effect : string) : ThemeSpec := with_effect s (if decide (effect = "none"%string) then None else Some effect).

Definition edit_spec (s : ThemeSpec) (e : ThemeEdit) : ThemeSpec :=
  match e with
  | SetColor mode token next => setColor s mode token next
  | ResetColor mode token => resetColor s mode token
  | SetFamily role family => setFamily s role family
  | SetFontFile role value => setFontFile s role value
  | ResetFont role => resetFont s role
  | SetRadius corner value => setRadius s corner value
  | SetShadow key value => setShadow s key value
  | SetCursorFile kind value => setCursorFile s kind value
  | SetHotspot kind axis value => setHotspot s kind axis value
  | SetIconFile name value => setIconFile s name value
  | SetIconPaths name text => setIconPaths s name text
  | ResetIcon name => resetIcon s name
  | SetBackdropFile value => setBackdropFile s value
  | SetFit fit => setFit s fit
  | SetEffect effect => setEffect s effect
  | SetCss css => with_css s css
  end.

(** ** The files *)

(** The ids of the files a draft uses, of those that are not empty where it matters. *)
Definition used_files (s : ThemeSpec) : list string :=
  omap (fun id => id ≫= chosen_file) [spec_sans s ≫= font_assetId; spec_mono s ≫= font_assetId; backdrop_assetId <$> spec_backdrop s] ++
  map (fun e => cursor_assetId e.2) (spec_cursors s) ++
  omap (fun e => icon_assetId e.2 ≫= chosen_file) (spec_icons s).

Definition can_remove_file (s : ThemeSpec) (pending : bool) (id : string) : bool := negb (bool_decide (id ∈ used_files s) || pending).

Definition isFont (contentType : string) : bool := startsWith contentType "font/".
Definition isImage (contentType : string) : bool := startsWith contentType "image/".

(** A file chosen for upload: refused when too big, else sent. *)
Definition onFile (size : option Z) : option bool := (fun n => n <=? THEME_ASSET_MAX_BYTES) <$> size.

(** ** The editor *)

(** What the page shows instead of the chosen theme: a stylesheet, and the moving
    picture it asks for. *)
Definition ShownPreview : Type := option (string * option string).

Record EditorState := mkEditorState {
  ed_name : string;
  ed_shared : bool;
  ed_spec : ThemeSpec;
  ed_preview : bool;
  ed_startedFrom : string;
  ed_assets : list ThemeAssetRef;
  ed_timer : bool;
  ed_shown : ShownPreview;
}.

(** The theme edited, when it was saved before. *)
Record SavedTheme := mkSavedTheme { saved_id : string; saved_theme_name : string; saved_shared : bool; saved_spec : ThemeSpec; saved_assets : list ThemeAssetRef }.

Record ThemeExample := mkThemeExample { example_key : string; example_name : string; example_spec : ThemeSpec }.

Inductive EditorRequest :=
  | UpdateTheme (id name : string) (shared : bool) (spec : ThemeSpec)
  | CreateTheme (name : string) (shared : bool) (spec : ThemeSpec).

Inductive EditorEvent :=
  | Edit (e : ThemeEdit)
  | NameTyped (name : string)
  | SharedSwitched (shared : bool)
  | PreviewSwitched (on : bool)
  | StartedFrom (example : option ThemeExample)
  | FilesChanged (assets : list ThemeAssetRef)
  | PreviewTimer
  | SavePressed
  | EditorLeft.

Section Editor.
Context (theme : option SavedTheme).

Definition editor_start : EditorState :=
  mkEditorState (default EmptyString (saved_theme_name <$> theme)) (default false (saved_shared <$> theme))
    (default emptySpec (saved_spec <$> theme)) false "blank" (default [] (saved_assets <$> theme)) false None.

Definition draft_sheet (s : EditorState) : string :=
  compileTheme (mkCompilableTheme (default "new"%string (saved_id <$> theme)) (ed_spec s) (ed_assets s)).

(** The effect that follows the draft: off shows the chosen theme at once, on
    starts the wait over. *)
Definition settle_preview (s : EditorState) : EditorState :=
  mkEditorState (ed_name s) (ed_shared s) (ed_spec s) (ed_preview s) (ed_startedFrom s) (ed_assets s) (ed_preview s)
    (if ed_preview s then ed_shown s else None).

Definition with_draft_spec (s : EditorState) (spec : ThemeSpec) : EditorState :=
  mkEditorState (ed_name s) (ed_shared s) spec (ed_preview s) (ed_startedFrom s) (ed_assets s) (ed_timer s) (ed_shown s).

Definition save_request (s : EditorState) : list EditorRequest :=
  let name := trim (ed_name s) in
  if truthy name then
    match theme with
    | Some t => [UpdateTheme (saved_id t) name (ed_shared s) (ed_spec s)]
    | None => [CreateTheme name (ed_shared s) (ed_spec s)]
    end
  else [].

Definition editor_step (s : EditorState) (e : EditorEvent) : EditorState * list EditorRequest :=
  match e with
  | Edit e => (settle_preview (with_draft_spec s (edit_spec (ed_spec s) e)), [])
  | NameTyped name => (mkEditorState name (ed_shared s) (ed_spec s) (ed_preview s) (ed_startedFrom s) (ed_assets s) (ed_timer s) (ed_shown s), [])
  | SharedSwitched shared => (mkEditorState (ed_name s) shared (ed_spec s) (ed_preview s) (ed_startedFrom s) (ed_assets s) (ed_timer s) (ed_shown s), [])
  | PreviewSwitched on =>
      (if bool_decide (on = ed_preview s) then s
       else settle_preview (mkEditorState (ed_name s) (ed_shared s) (ed_spec s) on (ed_startedFrom s) (ed_assets s) (ed_timer s) (ed_shown s)), [])
  | StartedFrom example =>
      (settle_preview (mkEditorState
        (match example with Some x => if truthy (trim (ed_name s)) then ed_name s else example_name x | None => ed_name s end)
        (ed_shared s) (default emptySpec (example_spec <$> example)) (ed_preview s) (default "blank"%string (example_key <$> example)) (ed_assets s) (ed_timer s) (ed_shown s)), [])
  | FilesChanged assets =>
      (settle_preview (mkEditorState (ed_name s) (ed_shared s) (ed_spec s) (ed_preview s) (ed_startedFrom s) assets (ed_timer s) (ed_shown s)), [])
  | PreviewTimer =>
      (if ed_timer s then mkEditorState (ed_name s) (ed_shared s) (ed_spec s) (ed_preview s) (ed_startedFrom s) (ed_assets s) false
         (Some (draft_sheet s, spec_effect (ed_spec s))) else s, [])
  | SavePressed => (s, save_request s)
  | EditorLeft => (mkEditorState (ed_name s) (ed_shared s) (ed_spec s) (ed_preview s) (ed_startedFrom s) (ed_assets s) false None, [])
  end.

Definition editor_run (s : EditorState) (events : list EditorEvent) : EditorState := foldl (fun s e => (editor_step s e).1) s events.
End Editor.

(** ** Facts *)

(** A file or a drawing, neither of them empty. *)
Definition good_icon (i : ThemeIcon) : Prop :=
  (icon_assetId i ≠ None ∨ icon_paths i ≠ None) ∧ icon_assetId i ≠ Some EmptyString ∧ icon_paths i ≠ Some [].

Definition good_cursor (c : ThemeCursor) : Prop :=
  truthy (cursor_assetId c) = true ∧ (0 <= cursor_hotspotX c <= THEME_MAX_HOTSPOT)%Q ∧ (0 <= cursor_hotspotY c <= THEME_MAX_HOTSPOT)%Q.

(** A draft as the editor keeps it: no empty override, texts without spaces around
    them where they are trimmed, numbers within their bounds, a file or a drawing
    for every icon. *)
Record tidy_spec (s : ThemeSpec) : Prop := mkTidySpec {
  tidy_colors : ∀ mode, Forall (fun e => truthy e.2 = true ∧ trim e.2 = e.2) (match mode with palette_light => spec_light s | palette_dark => spec_dark s end);
  tidy_fonts : ∀ f, spec_sans s = Some f ∨ spec_mono s = Some f → truthy (trim (font_family f)) = true;
  tidy_radii : ∀ r, spec_radiusControl s = Some r ∨ spec_radiusOverlay s = Some r → (0 <= r <= THEME_MAX_RADIUS)%Q;
  tidy_shadows : Forall (fun e => truthy (trim e.2) = true) (spec_shadows s);
  tidy_cursors : Forall (fun e => good_cursor e.2) (spec_cursors s);
  tidy_icons : Forall (fun e => good_icon e.2) (spec_icons s);
  tidy_effect : spec_effect s ≠ Some "none"%string;
}.

Lemma number_field_bounds max value v : (0 <= max)%Q → number_field max value = Some v → (0 <= v <= max)%Q.
Proof.
  intros Hm. destruct value as [q|]; [|done]. cbn. intros [= <-]. split; [apply Q.le_max_l|].
  apply Q.max_lub; [done|apply Q.le_min_l].
Qed.

Lemma tidy_empty : tidy_spec emptySpec.
Proof. split; cbn; [intros []; constructor|by intros ? []|by intros ? []|constructor|constructor|constructor|done]. Qed.

Lemma chosen_file_some value id : chosen_file value = Some id → truthy id = true.
Proof. unfold chosen_file. destruct (truthy value) eqn:E; [|done]. by intros [= <-]. Qed.

Lemma chosen_file_full value : chosen_file value ≠ Some EmptyString.
Proof. intros H%chosen_file_some. done. Qed.

Lemma hotspot_bounds value : (0 <= default 0 (number_field THEME_MAX_HOTSPOT value) <= THEME_MAX_HOTSPOT)%Q.
Proof.
  destruct (number_field _ _) as [v|] eqn:E; [apply number_field_bounds in E; [done|by vm_compute]|].
  split; by vm_compute.
Qed.

Lemma icons_set icons name file paths :
  Forall (fun e : string * ThemeIcon => good_icon e.2) icons → file ≠ Some EmptyString →
  Forall (fun e : string * ThemeIcon => good_icon e.2)
    (match file, paths with None, [] => jdel icons name | _, _ => jset icons name (mkThemeIcon file (some_text paths)) end).
Proof.
  intros Hi Hf. assert (file ≠ None ∨ paths ≠ [] → good_icon (mkThemeIcon file (some_text paths))) as Hgood.
  { intros [H|H]; (split; [|split; [done|by destruct paths]]); [by left|right; by destruct paths]. }
  destruct file as [id|]; [apply Forall_jset; [apply Hgood; by left|done]|].
  destruct paths; [by apply Forall_jdel|]. apply Forall_jset; [apply Hgood; by right|done].
Qed.

Lemma cursor_kept s kind c : Forall (fun e => good_cursor e.2) (spec_cursors s) → jget (spec_cursors s) kind = Some c → good_cursor c.
Proof. intros H E%jget_elem. by apply (proj1 (Forall_forall _ _) H) in E. Qed.

(** Whatever is typed, chosen or switched, the draft stays tidy. *)
Lemma edit_tidy s e : tidy_spec s → tidy_spec (edit_spec s e).
Proof.
  intros [Hc Hf Hr Hsh Hcu Hi He].
  assert (∀ value, chosen_file value = None ∨ ∃ id, chosen_file value = Some id ∧ truthy id = true) as Hfile.
  { intros value. destruct (chosen_file value) as [id|] eqn:E; [right; exists id; split; [done|by eapply chosen_file_some]|by left]. }
  destruct e; cbn [edit_spec]; unfold setColor, resetColor, setFamily, setFontFile, resetFont, setRadius, setShadow, setCursorFile, setHotspot,
    setIconFile, setIconPaths, resetIcon, setBackdropFile, setFit, setEffect.
  - pose proof (Hc mode) as Hm. destruct (truthy (trim next)) eqn:E; destruct mode; split; cbn; try assumption; intros m; destruct m;
      try exact (Hc palette_light); try exact (Hc palette_dark); first [apply Forall_jset; [split; [done|apply trim_idem]|done]|by apply Forall_jdel].
  - pose proof (Hc mode) as Hm. destruct mode; split; cbn; try assumption; intros m; destruct m;
      try exact (Hc palette_light); try exact (Hc palette_dark); by apply Forall_jdel.
  - destruct (truthy (trim family)) eqn:E; destruct role; split; cbn; try assumption; intros f [H|H]; eauto; try done; by injection H as <-.
  - destruct role; split; cbn; try assumption; intros f [H|H]; eauto; apply fmap_Some in H as (g & Hg & ->); cbn; eauto.
  - destruct role; split; cbn; try assumption; intros f [H|H]; try done; eauto.
  - destruct corner; split; cbn; try assumption; intros r [H|H]; eauto; by apply number_field_bounds in H.
  - destruct (truthy (trim value)) eqn:E; split; cbn; try assumption; [by apply Forall_jset|by apply Forall_jdel].
  - destruct (Hfile value) as [->|(id & -> & Hid)]; split; cbn; try assumption; [by apply Forall_jdel|]. apply Forall_jset; [|done].
    destruct (jget (spec_cursors s) kind) as [c|] eqn:E; [destruct (cursor_kept _ _ _ Hcu E) as (_ & ? & ?); done|]. split; [done|]. split; split; by vm_compute.
  - destruct (jget (spec_cursors s) kind) as [c|] eqn:E; [|done]. destruct (cursor_kept _ _ _ Hcu E) as (? & ? & ?).
    pose proof (hotspot_bounds value). split; cbn; try assumption. apply Forall_jset; [|done]. by destruct axis.
  - split; cbn; try assumption. pose proof (icons_set (spec_icons s) name (chosen_file value) (default [] (jget (spec_icons s) name ≫= icon_paths)) Hi (chosen_file_full _)) as H.
    by destruct (chosen_file value), (default [] _).
  - split; cbn; try assumption. set (file := (jget (spec_icons s) name ≫= icon_assetId) ≫= chosen_file).
    assert (file ≠ Some EmptyString) as Hne by (unfold file; destruct (jget _ _ ≫= _); [apply chosen_file_full|done]).
    pose proof (icons_set (spec_icons s) name file (path_lines text) Hi Hne) as H. by destruct file, (path_lines text).
  - split; cbn; try assumption. by apply Forall_jdel.
  - by split.
  - by split.
  - split; cbn; try assumption. by case_decide; [|intros [= ->]].
  - by split.
Qed.

Definition request_name (r : EditorRequest) : string := match r with UpdateTheme _ name _ _ | CreateTheme name _ _ => name end.
Definition request_spec (r : EditorRequest) : ThemeSpec := match r with UpdateTheme _ _ _ spec | CreateTheme _ _ spec => spec end.

Lemma step_spec theme s e :
  ed_spec (editor_step theme s e).1 =
  match e with Edit e => edit_spec (ed_spec s) e | StartedFrom x => default emptySpec (example_spec <$> x) | _ => ed_spec s end.
Proof. destruct e; try done; cbn [editor_step fst]; by case_match. Qed.

Lemma run_snoc theme s events e : editor_run theme s (events ++ [e]) = (editor_step theme (editor_run theme s events) e).1.
Proof. unfold editor_run. by rewrite foldl_app. Qed.

(** What the editor saves has a name and holds nothing that is empty or out of
    bounds: whatever was typed, chosen, switched or started from, every colour is
    a text without spaces around it, every family and shadow says something,
    corners and hotspots are within their bounds, and every cursor and icon has its
    picture or its paths. *)
Theorem saved_draft_tidy theme events :
  (∀ t, theme = Some t → tidy_spec (saved_spec t)) → (∀ x, StartedFrom (Some x) ∈ events → tidy_spec (example_spec x)) →
  let s := editor_run theme (editor_start theme) events in
  ∀ r, r ∈ (editor_step theme s SavePressed).2 →
    tidy_spec (request_spec r) ∧ truthy (request_name r) = true ∧ request_spec r = ed_spec s.
Proof.
  intros Ht Hx s. assert (tidy_spec (ed_spec s)) as Hs.
  { unfold s. clear s. induction events as [|e events IH] using rev_ind.
    - cbn. destruct theme as [t|]; [by apply Ht|apply tidy_empty].
    - rewrite run_snoc, step_spec. assert (tidy_spec (ed_spec (editor_run theme (editor_start theme) events))) as H
        by (apply IH; intros x Hin; apply Hx, elem_of_app; by left).
      destruct e; try done; [by apply edit_tidy|]. destruct example as [x|]; [|apply tidy_empty].
      apply Hx, elem_of_app. right. by left. }
  intros r. cbn [editor_step snd]. unfold save_request. destruct (truthy (trim (ed_name s))) eqn:E; [|by intros ?%elem_of_nil].
  destruct theme; intros ->%list_elem_of_singleton; done.
Qed.

Definition typed_theme : list EditorEvent :=
  [NameTyped " Dusk "; Edit (SetColor palette_dark "ink" " #eee "); Edit (SetRadius corner_control (Some 99%Q)); Edit (SetIconPaths "home" "M2 8h12"); PreviewSwitched true; PreviewTimer].

Lemma saved_draft_tidy_witness :
  let s := editor_run None (editor_start None) typed_theme in
  (editor_step None s SavePressed).2 = [CreateTheme "Dusk" false (ed_spec s)] ∧ tidy_spec (ed_spec s).
Proof.
  intros s. assert ((editor_step None s SavePressed).2 = [CreateTheme "Dusk" false (ed_spec s)]) as E by reflexivity. split; [exact E|].
  refine (proj1 (saved_draft_tidy None typed_theme _ _ (CreateTheme "Dusk" false (ed_spec s)) _)); [done| |].
  - intros x Hin. exfalso. unfold typed_theme in Hin. repeat (apply elem_of_cons in Hin as [Hin|Hin]; [discriminate Hin|]). by apply elem_of_nil in Hin.
  - fold s. rewrite E. by left.
Defined.

(** The preview follows the draft: while it is off the page shows the chosen theme,
    and while it is on and nothing is being waited for the page shows exactly the
    sheet and the moving picture of the draft as it is. *)
Theorem preview_follows_draft theme events :
  EditorLeft ∉ events →
  let s := editor_run theme (editor_start theme) events in
  if ed_preview s then ed_timer s = true ∨ ed_shown s = Some (draft_sheet theme s, spec_effect (ed_spec s))
  else ed_timer s = false ∧ ed_shown s = None.
Proof.
  induction events as [|e events IH] using rev_ind; [done|]. intros Hleft s. rewrite elem_of_app, list_elem_of_singleton in Hleft.
  specialize (IH ltac:(auto)). unfold s. rewrite run_snoc. clear s. set (s := editor_run theme (editor_start theme) events) in *.
  assert (∀ t, if ed_preview (settle_preview t) then ed_timer (settle_preview t) = true ∨ ed_shown (settle_preview t) = Some (draft_sheet theme (settle_preview t), spec_effect (ed_spec (settle_preview t)))
    else ed_timer (settle_preview t) = false ∧ ed_shown (settle_preview t) = None) as Hsettle.
  { intros t. unfold settle_preview. cbn [ed_preview ed_timer ed_shown]. destruct (ed_preview t); auto. }
  destruct e; cbn [editor_step fst]; try apply Hsettle; try exact IH.
  - case_bool_decide; [exact IH|apply Hsettle].
  - destruct (ed_timer s) eqn:E; [|exact IH]. revert IH. cbn [ed_preview ed_timer ed_shown].
    destruct (ed_preview s); [by right|intros [H _]; congruence].
  - exfalso. auto.
Qed.

Lemma preview_follows_draft_witness :
  let s := editor_run None (editor_start None) typed_theme in ed_shown s = Some (draft_sheet None s, spec_effect (ed_spec s)).
Proof.
  intros s. assert (ed_preview s = true) as P by (vm_compute; reflexivity). assert (ed_timer s = false) as T by (vm_compute; reflexivity).
  assert (EditorLeft ∉ typed_theme) as L.
  { intros Hin. unfold typed_theme in Hin. repeat (apply elem_of_cons in Hin as [Hin|Hin]; [discriminate Hin|]). by apply elem_of_nil in Hin. }
  pose proof (preview_follows_draft None typed_theme L) as H. cbv zeta in H. fold s in H. clearbody s. rewrite P, T in H.
  destruct H as [H|H]; [discriminate H|exact H].
Defined.

(** *** Files *)

Lemma assetType_without themeId spec assets gone id :
  id ≠ gone → assetType (mkCompilableTheme themeId spec (filter (fun a => asset_id a ≠ gone) assets)) id = assetType (mkCompilableTheme themeId spec assets) id.
Proof.
  intros Hid. unfold assetType. cbn [theme_assets]. f_equal. f_equal. induction assets as [|a l IH]; [done|].
  destruct (decide (asset_id a = gone)) as [E|E].
  - rewrite (filter_cons_False _ a l) by auto. rewrite IH, (filter_cons_False (fun a => asset_id a = id)); [done|]. by rewrite E.
  - rewrite (filter_cons_True _ a l) by done. rewrite !filter_cons. case_decide; [done|exact IH].
Qed.

Lemma font_rules_without themeId spec assets gone font :
  font ≫= font_assetId ≠ Some gone ∨ truthy gone = false →
  font_rules (mkCompilableTheme themeId spec (filter (fun a => asset_id a ≠ gone) assets)) font = font_rules (mkCompilableTheme themeId spec assets) font.
Proof.
  intros Hgone. unfold font_rules. destruct font as [f|]; [|done]. cbn in Hgone. destruct (font_assetId f) as [id|]; [|done].
  destruct (truthy id) eqn:E; [|done]. rewrite assetType_without; [done|]. intros ->. destruct Hgone as [H|H]; [by apply H|by rewrite H in E].
Qed.

(** A file the editor lets go of is one the draft does not need: without it the
    draft compiles to the same sheet. *)
Theorem removed_file_unused s pending id themeId assets :
  can_remove_file s pending id = true →
  compileTheme (mkCompilableTheme themeId s (filter (fun a => asset_id a ≠ id) assets)) = compileTheme (mkCompilableTheme themeId s assets) ∧
  id ∉ map (fun e => cursor_assetId e.2) (spec_cursors s) ∧
  (∀ name icon, (name, icon) ∈ spec_icons s → truthy id = true → icon_assetId icon ≠ Some id) ∧
  (∀ b, spec_backdrop s = Some b → truthy id = true → backdrop_assetId b ≠ id).
Proof.
  intros Hcan. apply negb_true_iff, orb_false_iff in Hcan as [Hused _]. apply bool_decide_eq_false in Hused. unfold used_files in Hused.
  rewrite !elem_of_app in Hused.
  assert (∀ o, o ∈ [spec_sans s ≫= font_assetId; spec_mono s ≫= font_assetId; backdrop_assetId <$> spec_backdrop s] → o ≠ Some id ∨ truthy id = false) as Hfont.
  { intros o Ho. destruct (truthy id) eqn:E; [left; intros ->|by right]. apply Hused. left. apply list_elem_of_omap. exists (Some id). split; [done|].
    cbn. unfold chosen_file. by rewrite E. }
  split; [|split; [by auto|split]].
  - unfold compileTheme, theme_rules. cbn [theme_spec]. rewrite !font_rules_without by (apply Hfont; repeat constructor). done.
  - intros name icon Hin E Hicon. apply Hused. right. right. apply list_elem_of_omap. exists (name, icon). split; [done|].
    cbn [snd]. rewrite Hicon. cbn. unfold chosen_file. by rewrite E.
  - intros b Hb E <-. destruct (Hfont (Some (backdrop_assetId b))) as [H|H]; [rewrite Hb; cbn; by do 2 right; left| by apply H|by rewrite E in H].
Qed.

Lemma removed_file_unused_witness :
  can_remove_file (theme_spec hostile_theme) false "g" = true ∧ "g"%string ∉ map (fun e => cursor_assetId e.2) (spec_cursors (theme_spec hostile_theme)).
Proof.
  assert (can_remove_file (theme_spec hostile_theme) false "g" = true) as H by reflexivity. split; [exact H|].
  exact (proj1 (proj2 (removed_file_unused (theme_spec hostile_theme) false "g" "t" [] H))).
Defined.
