(* ===== verification/Preferences.v ===== *)
(** What the browser keeps for its reader: the theme of the page ([web/src/lib/theme.ts]
    and [features/themes/ThemeLoader.tsx]), the language ([i18n/index.ts]), the
    editor's face ([features/editor/useEditorMode.ts]) and the shell's habits
    ([features/shell/state.ts]). *)

From Stdlib Require Import ZArith Lia Ascii String.
From stdpp Require Import base list strings.
From S2P Require Import Prelude JsString Config Api Client Themes.

Open Scope Z_scope.

(** ** Storage *)

(** A browser's storage for the site: it may refuse to be read or to be written,
    by throwing. *)
Record Browser := mkBrowser { store_reads : bool; store_writes : bool; store_items : list (string * string) }.

Definition working (b : Browser) : Prop := store_reads b = true ∧ store_writes b = true.

Definition readStorage (b : Browser) (key : string) : option string := if store_reads b then jget (store_items b) key else None.

Definition writeStorage (b : Browser) (key : string) (value : option string) : Browser :=
  if store_writes b then
    mkBrowser (store_reads b) true (match value with None => jdel (store_items b) key | Some v => jset (store_items b) key v end)
  else b.

(** ** The page's palette *)

Inductive ThemeChoice := theme_light | theme_dark | theme_system.
#[export] Instance ThemeChoice_eq : EqDecision ThemeChoice.
Proof. solve_decision. Defined.

Definition choice_text (t : ThemeChoice) : string := match t with theme_light => "light" | theme_dark => "dark" | theme_system => "system" end.

Definition THEME_KEY : string := "armature.theme".
Definition CACHE_KEY : string := "armature.theme-css".

Definition readTheme (b : Browser) : ThemeChoice :=
  match readStorage b THEME_KEY with
  | Some value => if decide (value = "light"%string) then theme_light else if decide (value = "dark"%string) then theme_dark else theme_system
  | None => theme_system
  end.

(** The page: the root's attribute, its language, and the sheet of a custom theme. *)
Record PageLook := mkPage { root_theme : option string; root_lang : string; page_sheet : option string }.

Definition applyTheme (theme : ThemeChoice) (p : PageLook) (b : Browser) : PageLook * Browser :=
  (mkPage (if decide (theme = theme_system) then None else Some (choice_text theme)) (root_lang p) (page_sheet p),
   writeStorage b THEME_KEY (Some (choice_text theme))).

(** One style element, written in place, or taken off with [None]. *)
Definition applyCustomTheme (css : option string) (p : PageLook) : PageLook := mkPage (root_theme p) (root_lang p) css.

Section Cache.
Context `{!JSON}.

Definition cache_entry (key css : string) : Json := JObject [("key"%string, JString key); ("css"%string, JString css)].

Definition cacheCustomTheme (entry : option (string * string)) (b : Browser) : Browser :=
  writeStorage b CACHE_KEY ((fun e => json_stringify (cache_entry e.1 e.2)) <$> entry).

Definition readCachedTheme (b : Browser) : option (string * string) :=
  match readStorage b CACHE_KEY with
  | Some raw =>
      if truthy raw then
        match json_parse raw with
        | Some parsed => match property parsed "key", property parsed "css" with Some (JString key), Some (JString css) => Some (key, css) | _, _ => None end
        | None => None
        end
      else None
  | None => None
  end.

(** ** The loader *)

(** A theme the server answered with: its id, what it compiles from, and when it was
    changed last. *)
Record ActiveTheme := mkActiveTheme { active_theme : CompilableTheme; active_updatedAt : string }.

(** What the loader holds: nothing heard yet, the built-in theme, or a theme; the
    draft shown instead; and whether it is there at all. *)
Record Loader := mkLoader {
  loader_page : PageLook;
  loader_browser : Browser;
  loader_here : bool;
  loader_data : option (option ActiveTheme);
  loader_preview : option string;
}.

Definition cache_key (t : ActiveTheme) : string := theme_id (active_theme t) +:+ ":" +:+ active_updatedAt t.
Definition sheet_of (t : ActiveTheme) : string := compileTheme (active_theme t).

(** The effect that follows the answer and the draft. *)
Definition loader_effect (l : Loader) : Loader :=
  if negb (loader_here l) then l
  else match loader_preview l with
  | Some css => mkLoader (applyCustomTheme (Some css) (loader_page l)) (loader_browser l) true (loader_data l) (loader_preview l)
  | None =>
      match loader_data l with
      | None => l
      | Some None => mkLoader (applyCustomTheme None (loader_page l)) (cacheCustomTheme None (loader_browser l)) true (loader_data l) None
      | Some (Some t) =>
          mkLoader (applyCustomTheme (Some (sheet_of t)) (loader_page l)) (cacheCustomTheme (Some (cache_key t, sheet_of t)) (loader_browser l)) true (loader_data l) None
      end
  end.

Inductive LoaderEvent := LoaderCame | LoaderWent | ThemeAnswered (theme : option ActiveTheme) | PreviewSet (css : option string).

Definition loader_step (l : Loader) (e : LoaderEvent) : Loader :=
  match e with
  | LoaderCame => loader_effect (mkLoader (loader_page l) (loader_browser l) true (loader_data l) (loader_preview l))
  | LoaderWent => mkLoader (if loader_here l then applyCustomTheme None (loader_page l) else loader_page l) (loader_browser l) false (loader_data l) (loader_preview l)
  | ThemeAnswered theme => loader_effect (mkLoader (loader_page l) (loader_browser l) (loader_here l) (Some theme) (loader_preview l))
  | PreviewSet css => loader_effect (mkLoader (loader_page l) (loader_browser l) (loader_here l) (loader_data l) css)
  end.

(** The start of the application: what was stored is painted first. *)
Definition load_page (b : Browser) : Loader :=
  let '(p, b') := applyTheme (readTheme b) (mkPage None EmptyString None) b in
  mkLoader (match readCachedTheme b' with Some e => applyCustomTheme (Some e.2) p | None => p end) b' false None None.

Definition loader_run (l : Loader) (events : list LoaderEvent) : Loader := foldl loader_step l events.
End Cache.

(** ** The language *)

Inductive Language := lang_en | lang_de.
#[export] Instance Language_eq : EqDecision Language.
Proof. solve_decision. Defined.

Definition language_tag (l : Language) : string := match l with lang_en => "en" | lang_de => "de" end.
Definition LANGUAGES : list Language := [lang_en; lang_de].

Definition asLanguage (value : string) : option Language := head (filter (fun l => language_tag l = value) LANGUAGES).

Definition primary_tag (tag : string) : string := default EmptyString (head (split "-" (toLowerCase tag))).

(** The empty choice is [None]. *)
Definition languageOfLocale (locale : option string) : option Language := asLanguage (primary_tag (default EmptyString locale)).

Fixpoint browserLanguage (preferred : list string) : Language :=
  match preferred with
  | [] => lang_en
  | tag :: rest => match asLanguage (primary_tag tag) with Some l => l | None => browserLanguage rest end
  end.

Definition resolveLanguage (choice : option Language) (preferred : list string) : Language := default (browserLanguage preferred) choice.

Definition readCachedChoice (b : Browser) : option Language := readStorage b LANGUAGE_STORAGE_KEY ≫= asLanguage.
Definition writeCachedChoice (choice : option Language) (b : Browser) : Browser := writeStorage b LANGUAGE_STORAGE_KEY (language_tag <$> choice).

(** The module's state: the active language, whose catalogue the strings are read
    from, the document's stamp, and how often the listeners were told. *)
Record Speech := mkSpeech { sp_current : Language; sp_t : Language; sp_lang : string; sp_told : nat; sp_browser : Browser }.

Definition speech_start (b : Browser) (preferred : list string) : Speech :=
  let current := resolveLanguage (readCachedChoice b) preferred in mkSpeech current current (language_tag current) 0 b.

Definition applyLanguage (choice : option Language) (preferred : list string) (s : Speech) : Speech :=
  let b := writeCachedChoice choice (sp_browser s) in
  let next := resolveLanguage choice preferred in
  if decide (next = sp_current s) then mkSpeech (sp_current s) (sp_t s) (sp_lang s) (sp_told s) b
  else mkSpeech next next (language_tag next) (S (sp_told s)) b.

(** ** The editor's face *)

Inductive EditorMode := mode_rich | mode_markdown.
#[export] Instance EditorMode_eq : EqDecision EditorMode.
Proof. solve_decision. Defined.

Definition EDITOR_KEY : string := "armature.editor".
Definition mode_text (m : EditorMode) : string := match m with mode_rich => "rich" | mode_markdown => "markdown" end.

Definition readMode (b : Browser) : EditorMode := if decide (readStorage b EDITOR_KEY = Some "markdown"%string) then mode_markdown else mode_rich.

(** The editors on the page, each with the face it shows: all of them listen. *)
Record Editors := mkEditors { open_editors : list (nat * EditorMode); editors_browser : Browser }.

Inductive EditorsEvent := EditorOpened (id : nat) | EditorClosed (id : nat) | FaceSwitched (next : EditorMode).

Definition editors_step (e : Editors) (ev : EditorsEvent) : Editors :=
  match ev with
  | EditorOpened id => mkEditors (jset (open_editors e) id (readMode (editors_browser e))) (editors_browser e)
  | EditorClosed id => mkEditors (jdel (open_editors e) id) (editors_browser e)
  | FaceSwitched next =>
      mkEditors (map (fun o => (o.1, next)) (open_editors e)) (writeStorage (editors_browser e) EDITOR_KEY (Some (mode_text next)))
  end.

(** ** The shell *)

Definition SIDEBAR_KEY : string := "armature.sidebar".
Definition PROJECT_KEY : string := "armature.project".
Definition OUTSIDE_SETTINGS_KEY : string := "armature.outside-settings".
Definition GROUPS_KEY : string := "armature.sidebar-groups".

Inductive SidebarMode := sidebar_open | sidebar_rail.
#[export] Instance SidebarMode_eq : EqDecision SidebarMode.
Proof. solve_decision. Defined.
Definition sidebar_text (m : SidebarMode) : string := match m with sidebar_open => "open" | sidebar_rail => "rail" end.

Definition useSidebarMode (b : Browser) (width : Z) : SidebarMode :=
  match readStorage b SIDEBAR_KEY with
  | Some stored =>
      if decide (stored = "open"%string) then sidebar_open else if decide (stored = "rail"%string) then sidebar_rail
      else if width <? SIDEBAR_RAIL_BELOW_PX then sidebar_rail else sidebar_open
  | None => if width <? SIDEBAR_RAIL_BELOW_PX then sidebar_rail else sidebar_open
  end.

Definition toggleSidebar (s : SidebarMode * Browser) : SidebarMode * Browser :=
  let next := if decide (s.1 = sidebar_open) then sidebar_rail else sidebar_open in
  (next, writeStorage s.2 SIDEBAR_KEY (Some (sidebar_text next))).

Definition useNarrow (width : Z) : bool := width <? SIDEBAR_DRAWER_BELOW_PX.

Section Groups.
Context `{!JSON}.

(** The groups folded or unfolded, as the stored object says. *)
Definition useSidebarGroups (b : Browser) : list (string * Json) :=
  match json_parse (default "{}"%string (readStorage b GROUPS_KEY)) with
  | Some (JObject groups) => groups
  | Some (JArray l) => imap (fun i v => (stringOfInt (Z.of_nat i), v)) l
  | _ => []
  end.

(** Whether a group is shown open. *)
Definition group_open (groups : list (string * Json)) (id : string) (defaultOpen : bool) : bool :=
  match jget groups id with None | Some JNull => defaultOpen | Some v => json_truthy v end.

Definition toggleGroup (id : string) (defaultOpen : bool) (s : list (string * Json) * Browser) : list (string * Json) * Browser :=
  let next := jset s.1 id (JBool (negb (group_open s.1 id defaultOpen))) in
  (next, writeStorage s.2 GROUPS_KEY (Some (json_stringify (JObject next)))).
End Groups.

Definition rememberOutsideSettings (href : string) (session : Browser) : Browser := writeStorage session OUTSIDE_SETTINGS_KEY (Some href).
Definition lastOutsideSettings (session : Browser) : string := default "/"%string (readStorage session OUTSIDE_SETTINGS_KEY).

Definition rememberProject (key : option string) (b : Browser) : Browser :=
  match key with Some k => if truthy k then writeStorage b PROJECT_KEY (Some k) else b | None => b end.

(** The last project, and what the route says: a route that names one is remembered. *)
Definition visit_project (current : option string) (s : option string * Browser) : option string * Browser :=
  match current with Some k => if truthy k then (Some k, rememberProject (Some k) s.2) else s | None => s end.
Definition useLastProject (current last : option string) : option string := match current with Some k => Some k | None => last end.

(** ** Facts *)

Lemma working_write b key value : working b → working (writeStorage b key value).
Proof. intros [Hr Hw]. unfold writeStorage. by rewrite Hw. Qed.

Lemma jget_jdel (m : list (string * string)) k k' : jget (jdel m k) k' = if decide (k = k') then None else jget m k'.
Proof.
  unfold jdel. induction m as [|[a v] m IH]; [by case_decide|]. rewrite filter_cons. cbn [fst]. cbn [jget].
  destruct (decide (a ≠ k)) as [Ha|Ha]; cbn [jget].
  - rewrite IH. repeat case_decide; congruence.
  - apply dec_stable in Ha. rewrite IH. repeat case_decide; congruence.
Qed.

Lemma read_write b key value key' : working b → readStorage (writeStorage b key value) key' = if decide (key = key') then value else readStorage b key'.
Proof.
  intros [Hr Hw]. unfold writeStorage, readStorage. rewrite Hw. cbn [store_reads store_items]. rewrite Hr.
  destruct value; [apply jget_jset|apply jget_jdel].
Qed.

Lemma read_written b key value : working b → readStorage (writeStorage b key value) key = value.
Proof. intros Hb. by rewrite read_write, decide_True. Qed.

Lemma theme_remembered theme p b : working b → readTheme (applyTheme theme p b).2 = theme.
Proof. intros Hb. unfold applyTheme, readTheme. cbn [snd]. rewrite read_written by done. by destruct theme. Qed.

Section CacheFacts.
Context `{!JSON}.

(** [JSON.parse] reads back what [JSON.stringify] wrote of an entry. *)
Definition reads_back (key css : string) : Prop := json_parse (json_stringify (cache_entry key css)) = Some (cache_entry key css).

Lemma cached_read entry b : working b → (∀ e, entry = Some e → reads_back e.1 e.2) → readCachedTheme (cacheCustomTheme entry b) = entry.
Proof.
  intros Hb Hback. unfold readCachedTheme, cacheCustomTheme. rewrite read_written by done. destruct entry as [[key css]|]; [|done]. cbn [fmap option_fmap option_map fst snd].
  specialize (Hback _ eq_refl). unfold reads_back in Hback. cbn [fst snd] in Hback.
  destruct (truthy (json_stringify (cache_entry key css))) eqn:E; [by rewrite Hback|].
  unfold truthy in E. apply negb_false_iff, bool_decide_eq_true in E. by rewrite E, json_parse_empty in Hback.
Qed.

(** What the page should wear: the draft shown, or else what the server answered. *)
Definition worn (l : Loader) : Prop :=
  match loader_preview l, loader_data l with
  | Some css, _ => page_sheet (loader_page l) = Some css
  | None, Some a =>
      page_sheet (loader_page l) = sheet_of <$> a ∧
      (working (loader_browser l) → (∀ t, a = Some t → reads_back (cache_key t) (sheet_of t)) →
       readCachedTheme (loader_browser l) = (fun t => (cache_key t, sheet_of t)) <$> a)
  | None, None => True
  end.

Lemma cache_working entry b : working (cacheCustomTheme entry b) → working b.
Proof. unfold cacheCustomTheme, writeStorage. destruct (store_writes b) eqn:E; [|done]. intros [Hr _]. by split. Qed.

Lemma effect_worn l : loader_here l = true → worn (loader_effect l).
Proof.
  intros Hh. unfold loader_effect, worn. rewrite Hh. cbn [negb].
  destruct (loader_preview l) as [css|] eqn:Ep; cbn [loader_preview loader_page applyCustomTheme page_sheet]; [done|].
  destruct (loader_data l) as [[t|]|] eqn:Ed; cbn [loader_preview loader_data loader_page loader_browser applyCustomTheme page_sheet].
  - split; [done|]. intros Hb%cache_working Hback. apply cached_read; [done|]. intros e [= <-]. by apply Hback.
  - split; [done|]. intros Hb%cache_working _. by apply cached_read.
  - by rewrite Ep, Ed.
Qed.

Lemma effect_here l : loader_here (loader_effect l) = loader_here l.
Proof. unfold loader_effect. destruct (loader_here l) eqn:E; [|by cbn; rewrite E]. cbn. destruct (loader_preview l); [done|]. by destruct (loader_data l) as [[]|]. Qed.

Lemma step_worn l e : loader_here (loader_step l e) = true → worn (loader_step l e).
Proof. destruct e; cbn [loader_step]; rewrite ?effect_here; try done; intros Hne; by apply effect_worn. Qed.

(** C28: while the shell is on the page it wears the draft being previewed, or else
    exactly the theme the server answered with, the built-in one among them; and
    the next load paints that theme before the server has answered. A draft is never
    put where the next load would find it. *)
Theorem page_wears_theme b events :
  let l := loader_run (load_page b) events in
  loader_here l = true →
  (∀ css, loader_preview l = Some css → page_sheet (loader_page l) = Some css) ∧
  (loader_preview l = None → ∀ a, loader_data l = Some a →
    page_sheet (loader_page l) = sheet_of <$> a ∧
    (working (loader_browser l) → (∀ t, a = Some t → reads_back (cache_key t) (sheet_of t)) →
     page_sheet (loader_page (load_page (loader_browser l))) = page_sheet (loader_page l))) ∧
  (∀ css, loader_browser (loader_step l (PreviewSet (Some css))) = loader_browser l).
Proof.
  intros l Hhere. assert (worn l) as Hw.
  { revert Hhere. unfold l, loader_run. destruct events as [|e events _] using rev_ind; [done|]. rewrite foldl_app. cbn [foldl]. apply step_worn. }
  unfold worn in Hw. split_and!; [| |intros css; cbn [loader_step]; unfold loader_effect; by rewrite Hhere].
  - intros css E. by rewrite E in Hw.
  - intros E a Ea. rewrite E, Ea in Hw. destruct Hw as [Hs Hc]. split; [done|]. intros Hb Hback. specialize (Hc Hb Hback). rewrite Hs.
    unfold load_page, applyTheme. cbn [loader_page].
    assert (readCachedTheme (writeStorage (loader_browser l) THEME_KEY (Some (choice_text (readTheme (loader_browser l))))) = readCachedTheme (loader_browser l)) as ->.
    { unfold readCachedTheme. by rewrite read_write, decide_False by done. }
    rewrite Hc. by destruct a.
Qed.
End CacheFacts.

(** A reader of one entry only, for the examples. *)
Definition entry_json : JSON := {| json_parse s := if decide (s = "entry"%string) then Some (cache_entry "t}:now" (compileTheme hostile_theme)) else None; json_stringify _ := "entry"%string; json_parse_empty := eq_refl |}.

Lemma page_wears_theme_witness :
  let t := mkActiveTheme hostile_theme "now" in
  let l := @loader_run entry_json (@load_page entry_json (mkBrowser true true [])) [LoaderCame; PreviewSet (Some "x"); ThemeAnswered (Some t); PreviewSet None] in
  page_sheet (loader_page l) = Some (compileTheme hostile_theme) ∧
  page_sheet (loader_page (@load_page entry_json (loader_browser l))) = Some (compileTheme hostile_theme).
Proof.
  intros t l. assert (loader_here l = true) as Hh by (vm_compute; reflexivity).
  destruct (@page_wears_theme entry_json (mkBrowser true true []) [LoaderCame; PreviewSet (Some "x"%string); ThemeAnswered (Some t); PreviewSet None] Hh) as [_ [H _]].
  destruct (H ltac:(vm_compute; reflexivity) (Some t) ltac:(vm_compute; reflexivity)) as [H1 H2].
  assert (page_sheet (loader_page l) = Some (compileTheme hostile_theme)) as E by exact H1. split; [exact E|]. rewrite <- E. apply H2.
  - split; vm_compute; reflexivity.
  - intros t' [= <-]. vm_compute. reflexivity.
Defined.

(** Before the server has answered, a draft that is put away stays on the page. *)
Lemma preview_stays `{!JSON} b :
  page_sheet (loader_page (loader_run (load_page b) [LoaderCame; PreviewSet (Some "body { color: red }"%string); PreviewSet None])) = Some "body { color: red }"%string.
Proof. unfold load_page. by destruct (applyTheme _ _ _). Qed.

(** *** The language *)

Lemma asLanguage_tag l : asLanguage (language_tag l) = Some l.
Proof. by destruct l. Qed.

Lemma choice_read choice b : working b → readCachedChoice (writeCachedChoice choice b) = choice.
Proof. intros Hb. unfold readCachedChoice, writeCachedChoice. rewrite read_written by done. destruct choice as [l|]; [apply asLanguage_tag|done]. Qed.

Definition speech_run (s : Speech) (calls : list (option Language * list string)) : Speech := foldl (fun s c => applyLanguage c.1 c.2 s) s calls.

Lemma applyLanguage_current choice preferred s : sp_current (applyLanguage choice preferred s) = resolveLanguage choice preferred.
Proof. unfold applyLanguage. by case_decide. Qed.

Lemma applyLanguage_browser choice preferred s : sp_browser (applyLanguage choice preferred s) = writeCachedChoice choice (sp_browser s).
Proof. unfold applyLanguage. by case_decide. Qed.

(** The strings shown, the document's stamp and the active language never come
    apart, whatever is applied; whoever listens is told exactly when the language
    changes; and a reload speaks as the page did, when the browser keeps what it is
    given. *)
Theorem language_kept b preferred0 calls choice preferred :
  let s := speech_run (speech_start b preferred0) calls in
  let s' := applyLanguage choice preferred s in
  (sp_t s' = sp_current s' ∧ sp_lang s' = language_tag (sp_current s')) ∧
  sp_told s' = (sp_told s + if decide (sp_current s' = sp_current s) then 0 else 1)%nat ∧
  (working b → sp_current (speech_start (sp_browser s') preferred) = sp_current s').
Proof.
  intros s s'. assert (sp_t s = sp_current s ∧ sp_lang s = language_tag (sp_current s) ∧ (working b → working (sp_browser s))) as (Ht & Hl & Hb).
  { unfold s. clear s'. clear s. induction calls as [|c calls IH] using rev_ind; [done|]. unfold speech_run. rewrite foldl_app. cbn [foldl].
    fold (speech_run (speech_start b preferred0) calls). destruct IH as (Ht & Hl & Hb). split; [|split].
    1,2: unfold applyLanguage; by case_decide.
    intros H. rewrite applyLanguage_browser. by apply working_write, Hb. }
  split; [|split].
  - unfold s', applyLanguage. by case_decide.
  - unfold s'. rewrite applyLanguage_current. unfold applyLanguage. case_decide; cbn; lia.
  - intros H. unfold s'. rewrite applyLanguage_current, applyLanguage_browser. unfold speech_start. cbn [sp_current]. by rewrite choice_read by auto.
Qed.

Lemma language_kept_witness :
  let s' := applyLanguage None ["fr-FR"; "de-AT"]%string (speech_run (speech_start (mkBrowser true true []) []) [(Some lang_de, [])]) in
  sp_current s' = lang_de ∧ sp_current (speech_start (sp_browser s') ["fr-FR"; "de-AT"]%string) = lang_de.
Proof.
  intros s'. assert (sp_current s' = lang_de) as E by reflexivity. split; [exact E|]. rewrite <- E.
  apply (language_kept (mkBrowser true true []) [] [(Some lang_de, [])] None ["fr-FR"; "de-AT"]%string). by split.
Defined.

(** *** The editors and the shell *)

(** Every editor on the page shows one face, the one chosen last, those opened
    since among them, when the browser keeps what it is given. *)
Theorem editors_show_one_face b events :
  working b →
  let e := foldl editors_step (mkEditors [] b) events in
  Forall (fun o => o.2 = readMode (editors_browser e)) (open_editors e).
Proof.
  intros Hb e. assert (working (editors_browser e) ∧ Forall (fun o => o.2 = readMode (editors_browser e)) (open_editors e)) as [_ H]; [|exact H].
  unfold e. clear e. induction events as [|ev events [Hw IH]] using rev_ind; [by split|]. rewrite foldl_app. cbn [foldl].
  set (e := foldl editors_step (mkEditors [] b) events) in *. destruct ev as [id|id|next]; cbn [editors_step editors_browser open_editors].
  - split; [done|]. by apply Forall_jset.
  - split; [done|]. by apply Forall_jdel.
  - split; [by apply working_write|]. apply Forall_fmap, Forall_forall. intros o _. cbn. unfold readMode. rewrite read_written by done. by destruct next.
Qed.

Lemma editors_show_one_face_witness :
  open_editors (foldl editors_step (mkEditors [] (mkBrowser true true [])) [EditorOpened 1; FaceSwitched mode_markdown; EditorOpened 2]) = [(1%nat, mode_markdown); (2%nat, mode_markdown)] ∧
  Forall (fun o => o.2 = mode_markdown) [(1%nat, mode_markdown); (2%nat, mode_markdown)].
Proof.
  split; [reflexivity|]. apply (editors_show_one_face (mkBrowser true true []) [EditorOpened 1; FaceSwitched mode_markdown; EditorOpened 2]). by split.
Defined.

(** A browser that keeps nothing: an editor opened after the switch does not follow it. *)
Lemma editors_apart : ∃ b e, e = foldl editors_step (mkEditors [] b) [EditorOpened 1; FaceSwitched mode_markdown; EditorOpened 2] ∧
  open_editors e = [(1%nat, mode_markdown); (2%nat, mode_rich)].
Proof. by exists (mkBrowser false false []); eexists. Qed.

(** A sidebar folded or unfolded once keeps the reader's choice at any width. *)
Lemma sidebar_remembered b mode width : working b → useSidebarMode (toggleSidebar (mode, b)).2 width = (toggleSidebar (mode, b)).1.
Proof. intros Hb. unfold useSidebarMode, toggleSidebar. cbn [fst snd]. rewrite read_written by done. by destruct mode. Qed.

(** A group is turned over, and no other. *)
Lemma group_toggled `{!JSON} groups b id d :
  let groups' := (toggleGroup id d (groups, b)).1 in
  group_open groups' id d = negb (group_open groups id d) ∧ (∀ id' d', id' ≠ id → group_open groups' id' d' = group_open groups id' d').
Proof.
  cbn. split; [unfold group_open at 1; by rewrite jget_jset_eq|]. intros id' d' Hid. unfold group_open. by rewrite jget_jset_ne.
Qed.

Lemma outside_settings_kept href session : working session → lastOutsideSettings (rememberOutsideSettings href session) = href.
Proof. intros Hb. unfold lastOutsideSettings, rememberOutsideSettings. by rewrite read_written. Qed.
