(* ===== verification/Board.v ===== *)
(** The board: [web/src/features/board/BoardView.tsx] and the rows of
    [api/boards.ts]: what a column shows, a card being dragged, and the move a
    drop asks for. *)

From Stdlib Require Import ZArith QArith Qround Lia Lqa Ascii String.
From stdpp Require Import base sets list strings sorting.
From S2P Require Import Prelude JsString Config Api ApiPlan JsDate DayText Scale Calendar BoardFilter.

Open Scope Z_scope.

(** ** Data *)

Inductive Grouping := group_none | group_assignee | group_priority | group_type.
#[export] Instance Grouping_eq : EqDecision Grouping.
Proof. solve_decision. Defined.

Inductive BoardType := board_scrum | board_kanban.
#[export] Instance BoardType_eq : EqDecision BoardType.
Proof. solve_decision. Defined.

Record SprintRef := mkSprintRef { sprint_ref_id : string; sprint_ref_name : string; sprint_ref_endsOn : option string }.

Record Swimlane := mkSwimlane {
  lane_id : string;
  lane_name : string;
  lane_wipLimit : Z;
  lane_statuses : list Status;
  lane_cards : list Card;
}.

Record Board := mkBoard {
  board_name : string;
  board_type : BoardType;
  board_groupBy : Grouping;
  board_sprint : option SprintRef;
  board_swimlanes : list Swimlane;
  board_unmapped : list Card;
}.

Record MoveInput := mkMoveInput {
  mv_projectKey : string;
  mv_issueKey : string;
  mv_swimlaneId : string;
  mv_afterKey : option string;
  mv_beforeKey : option string;
}.

(** ** Rows within a column *)

Section Rows.
Context `{!Collation}.

Definition row_name (card : Card) : string := default EmptyString (card_group card).

Definition groupCards (cards : list Card) (groupBy : Grouping) : list (string * list Card) :=
  if decide (groupBy = group_none) then [(EmptyString, cards)]
  else sort_by (cmp_on fst localeCompare) (group_by row_name cards).
End Rows.

(** ** What a column says of itself *)

Definition overWip (lane : Swimlane) : bool := (0 <? lane_wipLimit lane) && (lane_wipLimit lane <? Z.of_nat (length (lane_cards lane))).

Definition lane_count (filtered : bool) (shown total limit : Z) : string :=
  (if filtered then stringOfInt shown +:+ " of " +:+ stringOfInt total else stringOfInt total) +:+
  (if negb filtered && (0 <? limit) then " / " +:+ stringOfInt limit else EmptyString).

(** The cards a board draws: of each lane those the filter lets through. *)
Definition visible (lanes : list Swimlane) (filter : QuickFilter) (meId : string) : list (string * list Card) :=
  map (fun lane => (lane_id lane, filterCards (lane_cards lane) filter meId)) lanes.

Definition hidden_cards (lanes : list Swimlane) (filter : QuickFilter) (meId : string) : Z :=
  foldl (fun sum lane => sum + Z.of_nat (length (lane_cards lane)) - Z.of_nat (length (default [] (jget (visible lanes filter meId) (lane_id lane))))) 0 lanes.

(** The order the panel beside the board steps through. *)
Definition issue_order (lanes : list Swimlane) (filter : QuickFilter) (meId : string) : list string :=
  flat_map (fun lane => map card_key (default [] (jget (visible lanes filter meId) (lane_id lane)))) lanes.

(** A scrum board between sprints. *)
Definition between_sprints (b : Board) : bool := bool_decide (board_type b = board_scrum) && negb (bool_decide (is_Some (board_sprint b))).

(** *** A sprint's end *)

Inductive SprintEnd := EndsToday | EndsTomorrow | EndsIn (days : Z) | EndedYesterday | EndedAgo (days : option Z).

Section End.
Context `{!Zone}.

(** [today] is the reader's own day; an end that is no date leaves no number. *)
Definition describeEnd (endsOn : string) (today : Z) : SprintEnd :=
  match parse_date endsOn with
  | Some ends =>
      let days := js_round (inject_Z (ends - midnight_of today) / inject_Z MS_PER_DAY) in
      if days =? 0 then EndsToday else if days =? 1 then EndsTomorrow else if 1 <? days then EndsIn days
      else if - days =? 1 then EndedYesterday else EndedAgo (Some (- days))
  | None => EndedAgo None
  end.
End End.

(** ** A card being dragged *)

Record Dragging := mkDragging { dg_issueKey : string; dg_fromSwimlaneId : string }.
#[export] Instance Dragging_eq : EqDecision Dragging.
Proof. solve_decision. Defined.

(** [None] is the end of the lane. *)
Record DropTarget := mkDropTarget { dt_swimlaneId : string; dt_beforeKey : option string }.
#[export] Instance DropTarget_eq : EqDecision DropTarget.
Proof. solve_decision. Defined.

(** [findIndex] by key. *)
Fixpoint index_of_key (key : string) (cards : list Card) : option nat :=
  match cards with
  | [] => None
  | c :: rest => if decide (card_key c = key) then Some 0%nat else S <$> index_of_key key rest
  end.

(** Where among the others a dropped card lands. *)
Definition landing (issueKey : string) (beforeKey : option string) (cards : list Card) : nat :=
  let others := filter (fun c => card_key c ≠ issueKey) cards in
  let found := match beforeKey with
    | Some b => if decide (b = issueKey) then index_of_key issueKey cards else index_of_key b others
    | None => None
    end in
  default (length others) found.

(** The move a drop asks for, or none where the card already is. *)
Definition drop_on (projectKey : string) (current : Dragging) (beforeKey : option string) (lane : Swimlane) : option MoveInput :=
  let key := dg_issueKey current in
  let cards := lane_cards lane in
  let others := filter (fun c => card_key c ≠ key) cards in
  let at_ := landing key beforeKey cards in
  if decide (index_of_key key cards = Some at_) then None
  else Some (mkMoveInput projectKey key (lane_id lane)
    (match at_ with O => None | S i => card_key <$> others !! i end) (card_key <$> others !! at_)).

(** The refs hold the live drag, the state what the last rendering drew; what the
    event carries is the payload put on it when the drag began. *)
Record BoardDrag := mkBoardDrag {
  draggingRef : option Dragging;
  targetRef : option DropTarget;
  drawn_dragging : option Dragging;
  drawn_target : option DropTarget;
}.

Definition still : BoardDrag := mkBoardDrag None None None None.

Inductive BoardEvent :=
  | DragStart (card : string) (lane : string)
  | DragOverCard (lane card : string)
  | DragOverLane (lane : string)
  | DragEnd
  | Rendered
  | DropOn (lane : Swimlane) (carried : option Dragging).

Definition drag_step (projectKey : string) (s : BoardDrag) (e : BoardEvent) : BoardDrag * option MoveInput :=
  match e with
  | DragStart card lane => (mkBoardDrag (Some (mkDragging card lane)) (targetRef s) (drawn_dragging s) (drawn_target s), None)
  | DragOverCard lane card => (mkBoardDrag (draggingRef s) (Some (mkDropTarget lane (Some card))) (drawn_dragging s) (drawn_target s), None)
  | DragOverLane lane =>
      (if bool_decide (dt_swimlaneId <$> drawn_target s = Some lane) then s
       else mkBoardDrag (draggingRef s) (Some (mkDropTarget lane None)) (drawn_dragging s) (drawn_target s), None)
  | DragEnd => (mkBoardDrag None None (drawn_dragging s) (drawn_target s), None)
  | Rendered => (mkBoardDrag (draggingRef s) (targetRef s) (draggingRef s) (targetRef s), None)
  | DropOn lane carried =>
      let current := match carried with Some d => Some d | None => draggingRef s end in
      let beforeKey := match targetRef s with Some t => if decide (dt_swimlaneId t = lane_id lane) then dt_beforeKey t else None | None => None end in
      (mkBoardDrag None None (drawn_dragging s) (drawn_target s),
       match current with Some d => drop_on projectKey d beforeKey lane | None => None end)
  end.

Definition drag_run (projectKey : string) (s : BoardDrag) (events : list BoardEvent) : BoardDrag * list MoveInput :=
  foldl (fun a e => let r := drag_step projectKey a.1 e in (r.1, a.2 ++ match r.2 with Some m => [m] | None => [] end)) (s, []) events.

(** ** Facts *)

Section RowFacts.
Context `{!Collation}.

(** The rows hold every card once, each under its group's name and in the order of
    the lane, and the names come sorted, each once. *)
Lemma groupCards_partition cards groupBy :
  concat (map snd (groupCards cards groupBy)) ≡ₚ cards ∧
  (groupBy ≠ group_none →
    NoDup (map fst (groupCards cards groupBy)) ∧ StronglySorted (cmp_le (cmp_on fst localeCompare)) (groupCards cards groupBy) ∧
    ∀ name row, (name, row) ∈ groupCards cards groupBy → row = filter (fun c => row_name c = name) cards).
Proof.
  unfold groupCards. case_decide as E.
  - split; [cbn; by rewrite app_nil_r|]. by intros [].
  - set (rows := group_by row_name cards). pose proof (sort_by_Permutation (cmp_on fst localeCompare) rows) as Hp. split; [|intros _; split; [|split]].
    + etransitivity; [|apply (concat_group_by row_name)]. unfold jvals. fold rows. by rewrite Hp.
    + assert (map fst (sort_by (cmp_on fst localeCompare) rows) ≡ₚ jkeys rows) as -> by (unfold jkeys; by rewrite Hp).
      apply (NoDup_jkeys_group_by row_name).
    + apply sort_by_sorted, _.
    + intros name row Hin. apply (elem_of_Permutation_proper _ _ _ Hp) in Hin. by apply (elem_of_group_by row_name) in Hin as [_ ->].
Qed.
End RowFacts.

(** *** The end of a sprint *)

(** Where the reader's midnight is less than twelve hours from UTC's, the days are
    counted from their own day. *)
Lemma describeEnd_days `{!Zone} endsOn today ends offset :
  parse_date endsOn = Some (ends * MS_PER_DAY) → midnight_of today = today * MS_PER_DAY - offset → -43200000 < offset < 43200000 →
  describeEnd endsOn today = (let days := ends - today in
    if days =? 0 then EndsToday else if days =? 1 then EndsTomorrow else if 1 <? days then EndsIn days
    else if - days =? 1 then EndedYesterday else EndedAgo (Some (- days))).
Proof.
  intros He Hm Ho. unfold describeEnd. rewrite He, Hm.
  assert (js_round (inject_Z (ends * MS_PER_DAY - (today * MS_PER_DAY - offset)) / inject_Z MS_PER_DAY) = ends - today) as ->; [|done].
  unfold js_round. replace (ends * MS_PER_DAY - (today * MS_PER_DAY - offset)) with ((ends - today) * MS_PER_DAY + offset) by lia.
  generalize (ends - today). intros d.
  assert ((inject_Z (d * MS_PER_DAY + offset) / inject_Z MS_PER_DAY + (1 # 2) == inject_Z d + (inject_Z (offset + 43200000) / inject_Z MS_PER_DAY))%Q) as ->.
  { rewrite !inject_Z_plus, inject_Z_mult. unfold MS_PER_DAY. field. }
  assert (0 <= inject_Z (offset + 43200000) / inject_Z MS_PER_DAY < 1)%Q as Hb.
  { unfold MS_PER_DAY. split.
    - apply Qle_shift_div_l; [done|]. rewrite Qmult_0_l. change 0%Q with (inject_Z 0). rewrite <- Zle_Qle. lia.
    - apply Qlt_shift_div_r; [done|]. rewrite Qmult_1_l, <- Zlt_Qlt. lia. }
  generalize dependent (inject_Z (offset + 43200000) / inject_Z MS_PER_DAY)%Q. intros x Hb. apply Z.le_antisymm.
  - apply Zlt_succ_le. rewrite Zlt_Qlt. eapply Qle_lt_trans; [apply Qfloor_le|]. unfold Z.succ. rewrite inject_Z_plus. change (inject_Z 1) with 1%Q. lra.
  - pose proof (Qfloor_resp_le (inject_Z d) (inject_Z d + x)) as Hle. rewrite Qfloor_Z in Hle. apply Hle. lra.
Qed.

(** Thirteen hours ahead of UTC, a sprint that ends today is said to end tomorrow. *)
Lemma describeEnd_far_east : @describeEnd (fun d => d * MS_PER_DAY - 46800000) "2026-03-09" 20521 = EndsTomorrow ∧ parse_date "2026-03-09" = Some (20521 * MS_PER_DAY).
Proof. by vm_compute. Qed.

(** *** Where a drop lands *)

Definition keys (cards : list Card) : list string := map card_key cards.

(** The order the reader asked for: before the card hovered, at the end of the lane,
    or as it was when a card is dropped on itself. *)
Fixpoint put_before (key b : string) (ks : list string) : list string :=
  match ks with [] => [key] | k :: rest => if decide (k = b) then key :: k :: rest else k :: put_before key b rest end.

Definition wanted (key : string) (beforeKey : option string) (ks : list string) : list string :=
  let others := filter (fun k => k ≠ key) ks in
  match beforeKey with Some b => if decide (b = key) then ks else put_before key b others | None => others ++ [key] end.

Lemma index_of_key_split key cards i :
  index_of_key key cards = Some i ↔ ∃ pre c post, cards = pre ++ c :: post ∧ card_key c = key ∧ key ∉ keys pre ∧ i = length pre.
Proof.
  revert i. induction cards as [|c cards IH]; intros i; cbn [index_of_key].
  - split; [done|]. intros ([|] & ? & ? & ? & _); discriminate.
  - case_decide as E.
    + split.
      * intros [= <-]. exists [], c, cards. repeat split; [done|apply not_elem_of_nil].
      * intros (pre & d & post & Hc & Hd & Hn & ->). destruct pre as [|p pre]; [done|]. injection Hc as -> ->. exfalso. apply Hn. rewrite <- E. by left.
    + rewrite fmap_Some. split.
      * intros (j & Hj & ->). apply IH in Hj as (pre & d & post & -> & Hd & Hn & ->). exists (c :: pre), d, post. repeat split; try done.
        cbn. rewrite not_elem_of_cons. auto.
      * intros (pre & d & post & Hc & Hd & Hn & ->). destruct pre as [|p pre]; [injection Hc as -> ->; done|]. injection Hc as -> ->. exists (length pre). split; [|done].
        apply IH. exists pre, d, post. repeat split; try done. cbn in Hn. by apply not_elem_of_cons in Hn as [_ ?].
Qed.

Lemma index_of_key_None key cards : index_of_key key cards = None ↔ key ∉ keys cards.
Proof.
  induction cards as [|c cards IH]; cbn [index_of_key keys map]; [split; [intros _; apply not_elem_of_nil|done]|].
  rewrite not_elem_of_cons. case_decide as E; [split; [done|intros [[] _]; done]|]. rewrite fmap_None, IH. split; [auto|by intros []].
Qed.

Lemma keys_others key cards : keys (filter (fun c => card_key c ≠ key) cards) = filter (fun k => k ≠ key) (keys cards).
Proof.
  induction cards as [|c cards IH]; [done|]. cbn [keys map]. rewrite !filter_cons. case_decide; cbn; [f_equal|]; exact IH.
Qed.

Lemma put_before_split key b pre c post : b ∉ keys pre → card_key c = b → put_before key b (keys (pre ++ c :: post)) = keys pre ++ key :: b :: keys post.
Proof.
  intros Hn Hc. induction pre as [|p pre IH]; cbn [app keys map put_before].
  - rewrite decide_True by done. by rewrite Hc.
  - cbn in Hn. apply not_elem_of_cons in Hn as [Hp Hn]. rewrite decide_False by congruence. f_equal. by apply IH.
Qed.

(** A list without a card, cut where the card was. *)
Lemma others_split key pre c post :
  NoDup (keys (pre ++ c :: post)) → card_key c = key → filter (fun d => card_key d ≠ key) (pre ++ c :: post) = pre ++ post.
Proof.
  intros Hnd Hc. unfold keys in Hnd. rewrite map_app in Hnd. apply NoDup_app in Hnd as (_ & Hpre & Hpost). cbn in Hpost. apply NoDup_cons in Hpost as [Hpost _].
  rewrite filter_app, filter_cons, decide_False by (intros H; by apply H). f_equal; apply filter_every, Forall_forall; intros d Hd E.
  - apply (Hpre (card_key d)); [apply (list_elem_of_fmap_2 card_key), Hd|]. rewrite E, <- Hc. by left.
  - apply Hpost. rewrite Hc, <- E. by apply (list_elem_of_fmap_2 card_key).
Qed.

Lemma landing_wanted key beforeKey cards :
  NoDup (keys cards) → (∀ b, beforeKey = Some b → b ∈ keys cards) →
  let others := filter (fun c => card_key c ≠ key) cards in let i := landing key beforeKey cards in
  (i <= length others)%nat ∧ wanted key beforeKey (keys cards) = keys (take i others) ++ key :: keys (drop i others).
Proof.
  intros Hnd Hb others i. unfold i, landing, wanted. fold others. destruct beforeKey as [b|].
  - specialize (Hb b eq_refl). case_decide as E.
    + subst b. destruct (index_of_key key cards) as [j|] eqn:Ej; [|by apply index_of_key_None in Ej].
      apply index_of_key_split in Ej as (pre & c & post & -> & Hc & Hn & ->). unfold default, from_option, id. unfold others. rewrite others_split by done.
      rewrite take_app_length, drop_app_length, length_app. split; [lia|]. unfold keys. rewrite map_app. cbn. by rewrite Hc.
    + destruct (index_of_key b others) as [j|] eqn:Ej.
      * apply index_of_key_split in Ej as (pre & c & post & Ho & Hc & Hn & ->). rewrite <- keys_others. fold others. rewrite Ho. unfold default, from_option, id.
        rewrite take_app_length, drop_app_length, length_app. split; [lia|]. rewrite put_before_split by done. cbn. by rewrite Hc.
      * exfalso. apply index_of_key_None in Ej. apply Ej. unfold others. rewrite keys_others. by apply list_elem_of_filter.
  - unfold default, from_option. split; [done|]. rewrite firstn_all, drop_all, <- keys_others. done.
Qed.

(** C22: a drop moves the dragged card where the board said it would land: between the
    two cards it names, right before the card it was held over or else at the end
    of the lane; and it asks for nothing exactly when the card is there already. *)
Theorem drop_lands projectKey current beforeKey lane :
  let key := dg_issueKey current in let ks := keys (lane_cards lane) in
  NoDup ks → (∀ b, beforeKey = Some b → b ∈ ks) →
  match drop_on projectKey current beforeKey lane with
  | None => wanted key beforeKey ks = ks
  | Some mv =>
      wanted key beforeKey ks ≠ ks ∧ mv_issueKey mv = key ∧ mv_swimlaneId mv = lane_id lane ∧
      ∃ above below, wanted key beforeKey ks = above ++ key :: below ∧ mv_afterKey mv = last above ∧ mv_beforeKey mv = head below
  end.
Proof.
  intros key ks Hnd Hb. unfold drop_on. fold key. set (others := filter (fun c => card_key c ≠ key) (lane_cards lane)).
  pose proof (landing_wanted key beforeKey (lane_cards lane) Hnd Hb) as [Hi Hw]. fold others in Hi, Hw. fold ks in Hw.
  set (i := landing key beforeKey (lane_cards lane)) in *.
  assert (index_of_key key (lane_cards lane) = Some i ↔ wanted key beforeKey ks = ks) as Hsame.
  { rewrite index_of_key_split. split.
    - intros (pre & c & post & Hl & Hc & Hn & Hlen). rewrite Hw. unfold others, ks in *. rewrite Hl in *. rewrite others_split by done.
      rewrite Hlen, take_app_length, drop_app_length. unfold keys. rewrite map_app. cbn. by rewrite Hc.
    - intros E. rewrite Hw in E. unfold ks, keys in E. symmetry in E. apply map_eq_app in E as (pre & rest & Hl & Hpre & Hrest).
      apply map_eq_cons in Hrest as (c & post & -> & Hc & Hpost). exists pre, c, post. split; [done|]. split; [done|]. split.
      + unfold ks in Hnd. rewrite Hl in Hnd. unfold keys in Hnd. rewrite map_app in Hnd. apply NoDup_app in Hnd as (_ & Hd & _).
        intros Hin. apply (Hd _ Hin). cbn. rewrite Hc. by left.
      + apply (f_equal length) in Hpre. unfold keys in Hpre. rewrite !length_map, length_take in Hpre. lia. }
  case_decide as E.
  - by apply Hsame.
  - split; [by intros H%Hsame|]. cbn [mv_issueKey mv_swimlaneId mv_afterKey mv_beforeKey]. split; [done|]. split; [done|].
    exists (keys (take i others)), (keys (drop i others)). split; [exact Hw|]. split.
    + destruct i as [|j]; [done|]. unfold keys. rewrite fmap_last, last_lookup, length_take. 
      rewrite lookup_take_lt by lia. replace (Init.Nat.pred (S j `min` length others)) with j by lia. done.
    + unfold keys. rewrite <- (Nat.add_0_r i) at 1. rewrite <- lookup_drop. by destruct (drop i others).
Qed.

Definition card_named (key : string) : Card :=
  mkCard [] key key EmptyString (mkTypeRef "t" "Task" EmptyString 0 false) None (mkStatus "s" "To Do" todo None 0) medium None None EmptyString None EmptyString.
Definition small_lane : Swimlane := mkSwimlane "l1" "To do" 0 [] (map card_named ["A-1"; "A-2"; "A-3"]%string).

Lemma drop_lands_witness :
  drop_on "A" (mkDragging "A-3" "l1") (Some "A-1"%string) small_lane = Some (mkMoveInput "A" "A-3" "l1" None (Some "A-1"%string)) ∧
  wanted "A-3" (Some "A-1"%string) (keys (lane_cards small_lane)) ≠ keys (lane_cards small_lane).
Proof.
  assert (drop_on "A" (mkDragging "A-3" "l1") (Some "A-1"%string) small_lane = Some (mkMoveInput "A" "A-3" "l1" None (Some "A-1"%string))) as E by reflexivity.
  split; [exact E|]. pose proof (drop_lands "A" (mkDragging "A-3" "l1") (Some "A-1"%string) small_lane) as H. cbv zeta in H. rewrite E in H. apply H.
  - apply (bool_decide_unpack _). vm_compute. exact I.
  - intros b [= <-]. by left.
Defined.

(** Every move a run asks for is of a card whose drag began in it, to a lane it was
    dropped on, as long as what a drop carries was put on it by such a drag. *)
Lemma drag_moves_dragged projectKey events :
  (∀ lane d, DropOn lane (Some d) ∈ events → DragStart (dg_issueKey d) (dg_fromSwimlaneId d) ∈ events) →
  let r := drag_run projectKey still events in
  (∀ d, draggingRef r.1 = Some d → DragStart (dg_issueKey d) (dg_fromSwimlaneId d) ∈ events) ∧
  (∀ mv, mv ∈ r.2 → (∃ lane, DragStart (mv_issueKey mv) lane ∈ events) ∧ ∃ lane carried, DropOn lane carried ∈ events ∧ mv_swimlaneId mv = lane_id lane).
Proof.
  intros Hc. assert (∀ done rest, events = done ++ rest →
    let r := drag_run projectKey still done in
    (∀ d, draggingRef r.1 = Some d → DragStart (dg_issueKey d) (dg_fromSwimlaneId d) ∈ events) ∧
    (∀ mv, mv ∈ r.2 → (∃ lane, DragStart (mv_issueKey mv) lane ∈ events) ∧ ∃ lane carried, DropOn lane carried ∈ events ∧ mv_swimlaneId mv = lane_id lane)) as H;
    [|apply (H events []); by rewrite app_nil_r].
  intros done. induction done as [|e done IH] using rev_ind; intros rest Hev.
  - split; [done|]. by intros mv ?%elem_of_nil.
  - assert (e ∈ events) as He by (rewrite Hev, !elem_of_app; left; right; by left).
    rewrite <- app_assoc in Hev. specialize (IH _ Hev). unfold drag_run in *. rewrite foldl_app. cbn [foldl].
    set (r := foldl _ (still, []) done) in *. destruct IH as [Hd Hm]. destruct e as [card lane|lane card|lane| | |lane carried]; cbn [drag_step fst snd]; rewrite ?app_nil_r.
    1: split; [intros d [= <-]; exact He|exact Hm].
    1,4: by split.
    1: case_bool_decide; by split.
    1: by split.
    split; [done|]. intros mv. rewrite elem_of_app. intros [Hin|Hin]; [by apply Hm|].
    assert (∀ d, (match carried with Some d => Some d | None => draggingRef r.1 end) = Some d → DragStart (dg_issueKey d) (dg_fromSwimlaneId d) ∈ events) as Hcur.
    { intros d. destruct carried as [d'|]; [intros [= <-]; by eapply Hc|apply Hd]. }
    destruct (match carried with Some d => Some d | None => draggingRef r.1 end) as [d|]; [|by apply elem_of_nil in Hin].
    unfold drop_on in Hin. case_decide; [by apply elem_of_nil in Hin|]. apply list_elem_of_singleton in Hin as ->. split; [exists (dg_fromSwimlaneId d); by apply Hcur|].
    by exists lane, carried.
Qed.

(** Where a card lands does depend on when the board was drawn: over the space of a
    lane after one of its cards, the card stays the target only once it was drawn
    as one. *)
Lemma landing_follows_rendering :
  (drag_run "A" still [DragStart "A-3" "l1"; DragOverCard "l1" "A-1"; Rendered; DragOverLane "l1"; DropOn small_lane None]).2 =
    [mkMoveInput "A" "A-3" "l1" None (Some "A-1"%string)] ∧
  (drag_run "A" still [DragStart "A-3" "l1"; DragOverCard "l1" "A-1"; DragOverLane "l1"; DropOn small_lane None]).2 = [].
Proof. by vm_compute. Qed.
