(* ===== verification/Kit.v ===== *)
(** Controls of the kit that keep a state: toasts ([web/src/components/ui/Toast.tsx]),
    menus ([Menu.tsx]), tabs ([Tabs.tsx]), the box that offers names
    ([MentionTextarea.tsx]) and the date that saves itself ([DateInput.tsx]). *)

From Stdlib Require Import ZArith Lia Ascii String.
From stdpp Require Import base sets list strings.
From S2P Require Import Prelude JsString Config Search.

Open Scope Z_scope.

(** ** Toasts *)

Inductive ToastKind := toast_success | toast_error | toast_info.

Record ToastEntry := mkToastEntry { toast_id : nat; toast_kind : ToastKind; toast_message : string; toast_action : bool }.

(** The shelf: what is shown, the counter, and the toasts whose time is running. *)
Record Shelf := mkShelf { shelf_toasts : list ToastEntry; shelf_counter : nat; shelf_timers : list nat }.

Definition empty_shelf : Shelf := mkShelf [] 0 [].

(** [list.slice(-n)]. *)
Definition slice_last {A} (n : nat) (l : list A) : list A := drop (length l - n) l.

Definition dismiss (id : nat) (s : Shelf) : Shelf :=
  mkShelf (filter (fun t => toast_id t ≠ id) (shelf_toasts s)) (shelf_counter s) (shelf_timers s).

Definition push (kind : ToastKind) (message : string) (action : bool) (s : Shelf) : Shelf :=
  let id := S (shelf_counter s) in
  mkShelf (slice_last TOAST_MAX (shelf_toasts s ++ [mkToastEntry id kind message action])) id (shelf_timers s ++ [id]).

Inductive ToastEvent :=
  | Pushed (kind : ToastKind) (message : string) (action : bool)
  | Dismissed (id : nat)
  | TimedOut (id : nat)
  | EscapePressed.

Definition toast_step (s : Shelf) (e : ToastEvent) : Shelf :=
  match e with
  | Pushed kind message action => push kind message action s
  | Dismissed id => dismiss id s
  | TimedOut id =>
      if bool_decide (id ∈ shelf_timers s)
      then let s' := dismiss id s in mkShelf (shelf_toasts s') (shelf_counter s') (filter (fun i => i ≠ id) (shelf_timers s')) else s
  | EscapePressed => match last (shelf_toasts s) with Some t => dismiss (toast_id t) s | None => s end
  end.

(** ** Keys in a menu *)

(** The list's options by their words, and which one has the focus: [-1] is none. *)
Definition menu_go (count i : Z) : option Z := if count =? 0 then None else Some (Z.rem (i + count) count).

Definition starts_with_key (key : string) (words : string) : bool := startsWith (toLowerCase (trim words)) (toLowerCase key).

Fixpoint find_from (P : string → bool) (from : Z) (options : list string) : option Z :=
  match options with [] => None | w :: rest => if P w then Some from else find_from P (from + 1) rest end.

(** The first after the focused one, else the first of all. *)
Definition typeahead (options : list string) (index : Z) (key : string) : option Z :=
  let after := find_from (starts_with_key key) (index + 1) (drop (Z.to_nat (index + 1)) options) in
  match after with Some i => Some i | None => find_from (starts_with_key key) 0 options end.

(** What a key does: closes the menu, moves the focus, or nothing. *)
Inductive MenuDoes := menu_closes | menu_focuses (index : option Z) | menu_leaves.

Definition menu_key (options : list string) (index : Z) (editing : bool) (key : string) : MenuDoes :=
  let n := Z.of_nat (length options) in
  if editing && negb (bool_decide (key = "ArrowDown"%string)) && negb (bool_decide (key = "ArrowUp"%string)) then menu_leaves
  else if bool_decide (key = "Tab"%string) then menu_closes
  else if bool_decide (key = "ArrowDown"%string) then menu_focuses (menu_go n (index + 1))
  else if bool_decide (key = "ArrowUp"%string) then menu_focuses (menu_go n (index - 1))
  else if bool_decide (key = "Home"%string) then menu_focuses (menu_go n 0)
  else if bool_decide (key = "End"%string) then menu_focuses (menu_go n (n - 1))
  else match key with
  | String c EmptyString => if is_space c then menu_leaves else menu_focuses (typeahead options index key)
  | _ => menu_leaves
  end.

(** ** Keys on tabs *)

Definition tab_step (count index : Z) (key : string) : Z :=
  if bool_decide (key = "ArrowRight"%string) then 1 else if bool_decide (key = "ArrowLeft"%string) then -1
  else if bool_decide (key = "Home"%string) then - index else if bool_decide (key = "End"%string) then count - 1 - index else 0.

(** The tab chosen by a key on another, when there is one. *)
Definition tab_key (count index : Z) (key : string) : option Z :=
  let step := tab_step count index key in if step =? 0 then None else Some (Z.rem (index + step + count) count).

(** ** Names after an at sign *)

Record Mentionable := mkMentionable { person_id : string; person_name : string }.

Definition at_sign : ascii := "@"%char.

(** [\w] or an at sign. *)
Definition word_or_at (c : ascii) : bool :=
  is_digit c || ((65 <=? code c) && (code c <=? 90)) || ((97 <=? code c) && (code c <=? 122)) || bool_decide (c = "_"%char) || bool_decide (c = at_sign).

(** The word being typed after the last at sign before the caret: where it starts,
    and its text. *)
Definition mentionQuery (text : string) (caret : nat) : option (nat * string) :=
  let before := sliceTo caret text in
  match lastIndexOf at_sign before with
  | Some i =>
      let preceded := match i with O => false | S j => match String.get j before with Some c => word_or_at c | None => false end end in
      let query := sliceFrom (S i) before in
      if preceded || negb (string_forall (fun c => negb (code c =? 10)) query) then None else Some (i, query)
  | None => None
  end.

(** The box: its text and caret, the row picked out, the at sign dismissed, and the
    people last found. *)
Record MentionBox := mkMentionBox {
  mb_value : string;
  mb_caret : nat;
  mb_active : Z;
  mb_dismissed : option nat;
  mb_found : list Mentionable;
}.

Definition box_query (b : MentionBox) : option (nat * string) := mentionQuery (mb_value b) (mb_caret b).
Definition box_matches (b : MentionBox) : list Mentionable := match box_query b with Some _ => mb_found b | None => [] end.
Definition highlighted (b : MentionBox) : Z := Z.min (mb_active b) (Z.of_nat (length (box_matches b)) - 1).
Definition box_open (b : MentionBox) : bool :=
  match box_query b with
  | Some (start, _) => negb (bool_decide (box_matches b = [])) && negb (bool_decide (mb_dismissed b = Some start))
  | None => false
  end.

Definition mention_text (person : Mentionable) : string := "@" +:+ person_name person +:+ " ".

Definition take_person (person : Mentionable) (b : MentionBox) : MentionBox :=
  match box_query b with
  | Some (start, _) =>
      mkMentionBox (sliceTo start (mb_value b) +:+ mention_text person +:+ sliceFrom (mb_caret b) (mb_value b)) (mb_caret b) (mb_active b) None (mb_found b)
  | None => b
  end.

Inductive MentionEvent :=
  | MentionTyped (value : string) (caret : nat)
  | MentionTracked (caret : nat)
  | PeopleFound (people : list Mentionable)
  | MentionHovered (i : Z)
  | MentionKey (key : string).

(** [None]: the handler threw, there being no such row. *)
Definition mention_step (b : MentionBox) (e : MentionEvent) : option MentionBox :=
  match e with
  | MentionTyped value caret => Some (mkMentionBox value caret 0 None (mb_found b))
  | MentionTracked caret => Some (mkMentionBox (mb_value b) caret (mb_active b) (mb_dismissed b) (mb_found b))
  | PeopleFound people => Some (mkMentionBox (mb_value b) (mb_caret b) (mb_active b) (mb_dismissed b) people)
  | MentionHovered i => Some (mkMentionBox (mb_value b) (mb_caret b) i (mb_dismissed b) (mb_found b))
  | MentionKey key =>
      let n := Z.of_nat (length (box_matches b)) in
      if negb (box_open b) then Some b
      else if bool_decide (key = "ArrowDown"%string) then Some (mkMentionBox (mb_value b) (mb_caret b) (Z.rem (mb_active b + 1) n) (mb_dismissed b) (mb_found b))
      else if bool_decide (key = "ArrowUp"%string) then Some (mkMentionBox (mb_value b) (mb_caret b) (Z.rem (mb_active b - 1 + n) n) (mb_dismissed b) (mb_found b))
      else if bool_decide (key = "Enter"%string) || bool_decide (key = "Tab"%string) then
        if highlighted b <? 0 then None else (fun person => take_person person b) <$> box_matches b !! Z.to_nat (highlighted b)
      else if bool_decide (key = "Escape"%string) then Some (mkMentionBox (mb_value b) (mb_caret b) (mb_active b) (fst <$> box_query b) (mb_found b))
      else Some b
  end.

Definition mention_start (value : string) : MentionBox := mkMentionBox value 0 0 None [].

Definition mention_run (b : MentionBox) (events : list MentionEvent) : option MentionBox :=
  foldl (fun o e => o ≫= fun b => mention_step b e) (Some b) events.

(** ** A date that saves itself *)

Section DateInput.
(** [Date.parse], which decides which days of a month there are. *)
Context (date_parse : string → option Z).

Definition isCompleteDate (value : string) : bool :=
  match split "-" value with
  | [y; m; d] =>
      string_forall is_digit y && string_forall is_digit m && string_forall is_digit d &&
      bool_decide (4 <= String.length y)%nat && bool_decide (String.length m = 2%nat) && bool_decide (String.length d = 2%nat) &&
      (MIN_DATE_YEAR <=? digits_value 0 y) && bool_decide (is_Some (date_parse value))
  | _ => false
  end.

(** What is typed, and what was sent last. *)
Record DateBox := mkDateBox { date_draft : string; date_sent : string }.

Definition commit (next : string) (b : DateBox) : DateBox * list string :=
  if decide (next = date_sent b) then (b, []) else (mkDateBox (date_draft b) next, [next]).

Inductive DateEvent := DateTyped (next : string) | DateLeft (badInput : bool) | DateSaved (value : string).

(** The effect on a saved value runs when it changes, which [DateSaved] stands for. *)
Definition date_step (b : DateBox) (e : DateEvent) : DateBox * list string :=
  match e with
  | DateTyped next =>
      let b' := mkDateBox next (date_sent b) in if isCompleteDate next then commit next b' else (b', [])
  | DateLeft badInput =>
      if badInput then (b, []) else if negb (truthy (date_draft b)) || isCompleteDate (date_draft b) then commit (date_draft b) b else (b, [])
  | DateSaved value => (mkDateBox value value, [])
  end.

Definition date_run (value : string) (events : list DateEvent) : DateBox * list string :=
  foldl (fun a e => let r := date_step a.1 e in (r.1, a.2 ++ r.2)) (mkDateBox value value, []) events.
End DateInput.

(** ** Facts *)

(** *** Toasts *)

Lemma length_slice_last {A} n (l : list A) : (length (slice_last n l) <= n)%nat.
Proof. unfold slice_last. rewrite length_drop. lia. Qed.

Lemma slice_last_sublist {A} n (l : list A) x : x ∈ slice_last n l → x ∈ l.
Proof. unfold slice_last. intros H. rewrite <- (take_drop (length l - n) l). apply elem_of_app. by right. Qed.

Lemma last_slice_last {A} n (l : list A) x : last (slice_last (S n) (l ++ [x])) = Some x.
Proof.
  unfold slice_last. rewrite length_app. cbn [length]. rewrite skipn_app. replace (length l + 1 - S n - length l)%nat with 0%nat by lia. apply last_snoc.
Qed.

Lemma map_slice_last {A B} (f : A → B) n l : map f (slice_last n l) = slice_last n (map f l).
Proof. unfold slice_last. by rewrite skipn_map, length_map. Qed.

Definition ids (s : Shelf) : list nat := map toast_id (shelf_toasts s).

(** A shelf that is well kept: few toasts, each with its own number and its time
    running. *)
Record kept_shelf (s : Shelf) : Prop := mkKeptShelf {
  shelf_few : (length (shelf_toasts s) <= TOAST_MAX)%nat;
  shelf_distinct : NoDup (ids s);
  shelf_timed : ∀ id, id ∈ ids s → id ∈ shelf_timers s;
  shelf_counted : ∀ id, id ∈ shelf_timers s → (id <= shelf_counter s)%nat;
}.

Lemma ids_dismiss id s : ids (dismiss id s) = filter (fun i => i ≠ id) (ids s).
Proof.
  unfold ids, dismiss. cbn. induction (shelf_toasts s) as [|t l IH]; [done|]. rewrite filter_cons. cbn [map]. rewrite filter_cons.
  case_decide; cbn [map]; [f_equal|]; exact IH.
Qed.

Lemma dismiss_kept id s : kept_shelf s → kept_shelf (dismiss id s).
Proof.
  intros [Hf Hd Ht Hc]. split.
  - cbn. etransitivity; [apply length_filter|exact Hf].
  - rewrite ids_dismiss. by apply NoDup_filter.
  - intros i. rewrite ids_dismiss. intros [_ Hi]%list_elem_of_filter. by apply Ht.
  - exact Hc.
Qed.

Lemma toast_step_kept s e : kept_shelf s → kept_shelf (toast_step s e).
Proof.
  intros Hs. destruct e as [kind message action|id|id|]; cbn [toast_step].
  - destruct Hs as [Hf Hd Ht Hc]. split; cbn [push shelf_toasts shelf_timers shelf_counter ids].
    + apply length_slice_last.
    + unfold ids. cbn. rewrite map_slice_last, map_app. apply (sublist_NoDup _ (ids s ++ [S (shelf_counter s)])); [|apply sublist_drop].
      apply NoDup_app. split; [done|]. split; [|apply NoDup_singleton]. intros i Hi Hn. apply list_elem_of_singleton in Hn. apply Ht, Hc in Hi. lia.
    + intros i Hi. unfold ids in Hi. cbn in Hi. apply list_elem_of_fmap in Hi as (t & -> & Hin). apply slice_last_sublist, elem_of_app in Hin as [Hin|Hin].
      * apply elem_of_app. left. apply Ht. by apply (list_elem_of_fmap_2 toast_id).
      * apply list_elem_of_singleton in Hin as ->. apply elem_of_app. right. by left.
    + intros i. rewrite elem_of_app, list_elem_of_singleton. intros [Hi| ->]; [apply Hc in Hi; lia|lia].
  - by apply dismiss_kept.
  - case_bool_decide; [|done]. apply (dismiss_kept id) in Hs as [Hf Hd Ht Hc]. split; cbn in *; try done.
    + intros i Hi. apply list_elem_of_filter. split; [|by apply Ht]. intros ->.
      change (id ∈ ids (dismiss id s)) in Hi. rewrite ids_dismiss in Hi. by apply list_elem_of_filter in Hi as [Hne _].
    + intros i Hi. apply list_elem_of_filter in Hi as [_ Hi]. by apply Hc.
  - destruct (last (shelf_toasts s)); [by apply dismiss_kept|done].
Qed.

Lemma timeouts_ids ts s : (∀ id, id ∈ ts → id ∈ shelf_timers s) → NoDup ts →
  ids (foldl toast_step s (map TimedOut ts)) = filter (fun i => i ∉ ts) (ids s).
Proof.
  revert s. induction ts as [|t ts IH]; intros s Hin Hnd.
  - cbn. symmetry. apply filter_every, Forall_forall. intros i _. apply not_elem_of_nil.
  - apply NoDup_cons in Hnd as [Ht Hnd]. cbn [map foldl]. rewrite IH; [|intros id Hid|done].
    + cbn [toast_step]. rewrite bool_decide_true by (apply Hin; by left).
      change (ids (mkShelf _ _ _)) with (ids (dismiss t s)). rewrite ids_dismiss, list_filter_filter. apply list_filter_iff. intros i. rewrite not_elem_of_cons. tauto.
    + cbn [toast_step]. rewrite bool_decide_true by (apply Hin; by left). cbn. apply list_elem_of_filter. split; [congruence|]. apply Hin. by right.
Qed.

(** Whatever is said and dismissed, a few toasts show at most, each with a time of
    its own running, the newest always among them; and once every time has run out
    the corner is clear. *)
Theorem toasts_leave events kind message action :
  let s := foldl toast_step empty_shelf events in
  kept_shelf s ∧ last (shelf_toasts (toast_step s (Pushed kind message action))) = Some (mkToastEntry (S (shelf_counter s)) kind message action) ∧
  shelf_toasts (foldl toast_step s (map TimedOut (remove_dups (shelf_timers s)))) = [].
Proof.
  intros s. assert (kept_shelf s) as Hs.
  { unfold s. clear s. induction events as [|e events IH] using rev_ind; [split; cbn; try lia; try constructor; intros ? []%not_elem_of_nil|].
    rewrite foldl_app. by apply toast_step_kept. }
  split; [exact Hs|]. split; [apply (last_slice_last 2)|].
  assert (ids (foldl toast_step s (map TimedOut (remove_dups (shelf_timers s)))) = []) as H.
  { rewrite timeouts_ids; [|intros id; apply elem_of_remove_dups|apply NoDup_remove_dups].
    apply filter_nothing, Forall_forall. intros i Hi Hn. apply Hn, elem_of_remove_dups. by apply (shelf_timed s Hs). }
  by apply map_eq_nil in H.
Qed.

(** *** Menus and tabs *)

(** From anywhere in the menu, or from outside of its options, an arrow goes to one
    of them; down and up undo each other. *)
Lemma menu_arrows count index :
  0 < count → -1 <= index < count →
  (∃ i, menu_go count (index + 1) = Some i ∧ 0 <= i < count ∧ (0 <= index → menu_go count (i - 1) = Some index)) ∧
  (∃ i, menu_go count (index - 1) = Some i ∧ 0 <= i < count).
Proof.
  intros Hc Hi. unfold menu_go. rewrite (proj2 (Z.eqb_neq _ _)) by lia. split.
  - eexists. split; [done|]. split; [apply Z.rem_bound_pos; lia|]. intros H. f_equal.
    rewrite !Z.rem_mod_nonneg by (try lia; pose proof (Z.rem_bound_pos (index + 1 + count) count); lia).
    destruct (decide (index + 1 = count)) as [E|E].
    + replace (index + 1 + count) with (0 + 2 * count) by lia. rewrite Z_mod_plus_full, Z.mod_0_l by lia. rewrite Z.mod_small by lia. lia.
    + replace (index + 1 + count) with (index + 1 + 1 * count) by lia. rewrite Z_mod_plus_full, (Z.mod_small (index + 1)) by lia.
      replace (index + 1 - 1 + count) with (index + 1 * count) by lia. rewrite Z_mod_plus_full. apply Z.mod_small. lia.
  - destruct (decide (index = -1 ∧ count = 1)) as [[-> ->]|E]; [by exists 0|]. eexists. split; [done|]. apply Z.rem_bound_pos; lia.
Qed.

(** A key on a tab chooses a tab there is. *)
Lemma tab_key_bounds count index key i : 0 <= index < count → tab_key count index key = Some i → 0 <= i < count.
Proof.
  unfold tab_key, tab_step. intros Hi. case_match; [done|]. intros [= <-]. apply Z.rem_bound_pos; [|lia]. repeat case_bool_decide; lia.
Qed.

Lemma find_from_spec P from options i : find_from P from options = Some i → ∃ w, options !! Z.to_nat (i - from) = Some w ∧ P w = true ∧ from <= i.
Proof.
  revert from. induction options as [|w options IH]; intros from; [done|]. cbn [find_from]. destruct (P w) eqn:E.
  - intros [= <-]. exists w. rewrite Z.sub_diag. by split.
  - intros (v & Hv & HP & Hle)%IH. exists v. split; [|split; [done|lia]]. replace (Z.to_nat (i - from)) with (S (Z.to_nat (i - (from + 1)))) by lia. done.
Qed.

Lemma find_from_none P from options : find_from P from options = None ↔ Forall (fun w => P w = false) options.
Proof.
  revert from. induction options as [|w options IH]; intros from; cbn [find_from]; [by split; constructor|]. rewrite Forall_cons. destruct (P w); [by split; [|intros [? _]]|].
  rewrite IH. by split; [|intros [_ ?]].
Qed.

(** Typing a letter finds an option that starts with it whenever there is one. *)
Lemma typeahead_finds options index key :
  -1 <= index →
  match typeahead options index key with
  | Some i => ∃ w, options !! Z.to_nat i = Some w ∧ starts_with_key key w = true
  | None => Forall (fun w => starts_with_key key w = false) options
  end.
Proof.
  intros Hi. unfold typeahead. destruct (find_from _ (index + 1) _) as [i|] eqn:E.
  - apply find_from_spec in E as (w & Hw & HP & Hle). exists w. split; [|done]. rewrite lookup_drop in Hw. rewrite <- Hw. f_equal. lia.
  - destruct (find_from _ 0 options) as [i|] eqn:E0; [|by apply find_from_none in E0]. apply find_from_spec in E0 as (w & Hw & HP & Hle).
    exists w. by rewrite Z.sub_0_r in Hw.
Qed.

(** *** Names after an at sign *)

Lemma sliceTo_length n s : (String.length (sliceTo n s) <= n)%nat.
Proof. revert s. induction n as [|n IH]; intros [|c s]; cbn; try lia. specialize (IH s). lia. Qed.

Lemma sliceTo_sliceTo i n s : (i <= n)%nat → sliceTo i (sliceTo n s) = sliceTo i s.
Proof. revert n s. induction i as [|i IH]; intros [|n] [|c s] Hi; try done; [lia|]. cbn. f_equal. apply IH. lia. Qed.

Lemma lastIndexOf_split c s i : lastIndexOf c s = Some i → s = sliceTo i s +:+ String c (sliceFrom (S i) s) ∧ (i < String.length s)%nat.
Proof.
  revert i. induction s as [|d s IH]; intros i; [done|]. cbn [lastIndexOf]. destruct (lastIndexOf c s) as [j|] eqn:E.
  - intros [= <-]. destruct (IH _ eq_refl) as [H1 H2]. split; [|cbn; lia]. exact (f_equal (String d) H1).
  - case_decide as Ed; [|done]. intros [= <-]. subst d. split; [done|cbn; lia].
Qed.

(** What is offered for begins at an at sign before the caret and runs up to it. *)
Lemma mentionQuery_before text caret start query :
  mentionQuery text caret = Some (start, query) → sliceTo caret text = sliceTo start text +:+ String at_sign query ∧ (start < caret)%nat.
Proof.
  unfold mentionQuery. destruct (lastIndexOf at_sign (sliceTo caret text)) as [i|] eqn:E; [|done]. case_match; [done|]. intros [= <- <-].
  apply lastIndexOf_split in E as [E Hi]. pose proof (sliceTo_length caret text). split; [|lia]. rewrite E at 1. by rewrite sliceTo_sliceTo by lia.
Qed.

Definition rows_drawn (e : MentionEvent) : Prop := match e with MentionHovered i => 0 <= i | _ => True end.

Lemma open_rows b : box_open b = true → 0 < Z.of_nat (length (box_matches b)).
Proof. unfold box_open. destruct (box_query b) as [[start q]|]; [|done]. intros [H _]%andb_true_iff. apply negb_true_iff, bool_decide_eq_false in H. destruct (box_matches b); [done|cbn; lia]. Qed.

Lemma highlighted_row b : 0 <= mb_active b → box_open b = true → ∃ person, box_matches b !! Z.to_nat (highlighted b) = Some person ∧ 0 <= highlighted b.
Proof.
  intros Ha Ho. apply open_rows in Ho. unfold highlighted. set (n := length (box_matches b)) in *.
  destruct (lookup_lt_is_Some_2 (box_matches b) (Z.to_nat (Z.min (mb_active b) (Z.of_nat n - 1)))) as [person H]; [lia|]. exists person. split; [done|lia].
Qed.

Lemma mention_step_some b e : 0 <= mb_active b → rows_drawn e → ∃ b', mention_step b e = Some b' ∧ 0 <= mb_active b'.
Proof.
  intros Ha He. destruct e as [value caret|caret|people|i|key]; cbn [mention_step rows_drawn] in *; try (eexists; split; [done|cbn; lia]).
  destruct (box_open b) eqn:Ho; cbn [negb]; [|by exists b]. pose proof (open_rows b Ho) as Hn.
  case_bool_decide; [eexists; split; [done|cbn; apply Z.rem_bound_pos; lia]|].
  case_bool_decide; [eexists; split; [done|cbn; apply Z.rem_bound_pos; lia]|].
  destruct (_ || _).
  - destruct (highlighted_row b Ha Ho) as (person & Hp & Hh). rewrite (proj2 (Z.ltb_ge _ _)) by done. rewrite Hp. eexists. split; [done|].
    unfold take_person. by destruct (box_query b) as [[start q]|].
  - case_bool_decide; by eexists.
Qed.

(** The box that offers names never fails, however the answers come in, and while
    its list is open Enter puts in the whole name of a person listed, in place of
    the at sign and the words typed after it up to the caret. *)
Theorem mention_takes_listed value events :
  Forall rows_drawn events →
  ∃ b, mention_run (mention_start value) events = Some b ∧
    (box_open b = true →
      ∃ b' person start query, mention_step b (MentionKey "Enter") = Some b' ∧ person ∈ mb_found b ∧
        sliceTo (mb_caret b) (mb_value b) = sliceTo start (mb_value b) +:+ String at_sign query ∧
        mb_value b' = sliceTo start (mb_value b) +:+ mention_text person +:+ sliceFrom (mb_caret b) (mb_value b)).
Proof.
  intros Hev. assert (∃ b, mention_run (mention_start value) events = Some b ∧ 0 <= mb_active b) as (b & Hb & Ha).
  { unfold mention_run. induction events as [|e events IH] using rev_ind; [by exists (mention_start value)|].
    apply Forall_app in Hev as [Hev [He _]%Forall_cons]. destruct (IH Hev) as (b & Hb & Ha). rewrite foldl_app, Hb. exact (mention_step_some b e Ha He). }
  exists b. split; [done|]. intros Ho. destruct (highlighted_row b Ha Ho) as (person & Hp & Hh).
  destruct (box_query b) as [[start query]|] eqn:Eq; [|by unfold box_open in Ho; rewrite Eq in Ho].
  exists (take_person person b), person, start, query. split.
  - cbn [mention_step]. rewrite Ho. cbn [negb]. rewrite !(bool_decide_false (_ = _)) by done. rewrite (bool_decide_true ("Enter"%string = "Enter"%string)) by done.
    cbn [orb]. rewrite (proj2 (Z.ltb_ge _ _)) by done. by rewrite Hp.
  - split; [|split].
    + apply list_elem_of_lookup_2 in Hp. unfold box_matches in Hp. by rewrite Eq in Hp.
    + by apply mentionQuery_before in Eq as [? _].
    + unfold take_person. by rewrite Eq.
Qed.

Definition ada : Mentionable := mkMentionable "1" "Ada Lovelace".

Lemma mention_takes_listed_witness :
  let b := mkMentionBox "ping @ad" 8 4 None [ada] in
  mention_run (mention_start EmptyString) [MentionTyped "ping @ad" 8; MentionHovered 4; PeopleFound [ada]] = Some b ∧ box_open b = true ∧
  ∃ b' start, mention_step b (MentionKey "Enter") = Some b' ∧ mb_value b' = sliceTo start "ping @ad" +:+ mention_text ada.
Proof.
  intros b. assert (Forall rows_drawn [MentionTyped "ping @ad" 8; MentionHovered 4; PeopleFound [ada]]) as H by (repeat constructor; cbn; lia).
  destruct (mention_takes_listed EmptyString _ H) as (c & Hc & Hopen). assert (c = b) as -> by (vm_compute in Hc; by injection Hc as <-).
  assert (box_open b = true) as Ho by reflexivity. split; [exact Hc|]. split; [exact Ho|].
  destruct (Hopen Ho) as (b' & person & start & query & H1 & H2 & _ & H4). apply list_elem_of_singleton in H2 as ->.
  exists b', start. split; [exact H1|]. rewrite H4. cbn [mb_value mb_caret b]. by rewrite app_empty_r.
Defined.

(** *** Dates *)

(** A date box sends only whole dates and the wish for none, and never sends what
    it sent last: the years a hand-typed date passes through do not leave it. *)
Theorem date_sends_whole date_parse value events :
  let '(b, sent) := date_run date_parse value events in
  Forall (fun d => d = EmptyString ∨ isCompleteDate date_parse d = true) sent ∧
  ∀ e d, d ∈ (date_step date_parse b e).2 → d ≠ date_sent b ∧ date_sent (date_step date_parse b e).1 = d.
Proof.
  assert (∀ b e, Forall (fun d => d = EmptyString ∨ isCompleteDate date_parse d = true) (date_step date_parse b e).2 ∧
    ∀ d, d ∈ (date_step date_parse b e).2 → d ≠ date_sent b ∧ date_sent (date_step date_parse b e).1 = d) as Hstep.
  { assert (∀ next b, (next = EmptyString ∨ isCompleteDate date_parse next = true) →
      Forall (fun d => d = EmptyString ∨ isCompleteDate date_parse d = true) (commit next b).2 ∧ ∀ d, d ∈ (commit next b).2 → d ≠ date_sent b ∧ date_sent (commit next b).1 = d) as Hc.
    { intros next b Hn. unfold commit. case_decide; [split; [constructor|by intros d ?%elem_of_nil]|]. split; [by constructor; [exact Hn|constructor]|]. by intros d ->%list_elem_of_singleton. }
    assert (∀ b, Forall (fun d => d = EmptyString ∨ isCompleteDate date_parse d = true) (b, @nil string).2 ∧
      ∀ d, d ∈ (b, @nil string).2 → d ≠ date_sent b ∧ date_sent (b, @nil string).1 = d) as Hnone by (intros b; split; [constructor|by intros d ?%elem_of_nil]).
    intros b [next|bad|saved]; cbn [date_step].
    - destruct (isCompleteDate date_parse next) eqn:E; [|split; [constructor|by intros d ?%elem_of_nil]]. apply (Hc next (mkDateBox next (date_sent b))). by right.
    - destruct bad; [apply Hnone|]. destruct (negb (truthy (date_draft b)) || isCompleteDate date_parse (date_draft b)) eqn:E; [|apply Hnone].
      apply Hc. apply orb_true_iff in E as [E|E]; [left|by right]. apply negb_true_iff in E. unfold truthy in E. by apply negb_false_iff, bool_decide_eq_true in E.
    - split; [constructor|by intros d ?%elem_of_nil]. }
  destruct (date_run date_parse value events) as [b sent] eqn:E. split; [|intros e; apply Hstep].
  revert b sent E. unfold date_run. induction events as [|e events IH] using rev_ind; intros b sent; [intros [= <- <-]; constructor|].
  rewrite foldl_app. cbn [foldl]. destruct (foldl _ _ events) as [b0 sent0] eqn:E0. intros [= <- <-]. apply Forall_app. split; [by eapply IH|apply Hstep].
Qed.
