(* ===== verification/Palette.v ===== *)
(** The quick search: [web/src/features/palette/CommandPalette.tsx] and
    [AskAnswer.tsx], with the lists of places it shares with the sidebar,
    [web/src/features/shell/places.ts].

    What is offered is a function of what was typed and of what the server has
    answered; which of it is marked, and what a key does, is a state machine.  What
    the hooks answer is an argument, for it may change between any two events. *)

From Stdlib Require Import ZArith Lia Ascii String.
From stdpp Require Import base list strings.
From S2P Require Import Prelude JsString Config Api Features Client DashFilter Guide Catalogue Access Preferences.

Open Scope Z_scope.

(** ** Places: [places.ts] *)

(** [search] and [hash] as the router is given them. *)
Record Place := mkPlace {
  place_to : string;
  place_label : string;
  place_icon : string;
  place_detail : option string;
  place_search : option (list (string * string));
  place_hash : option string;
}.

Inductive AdminSection := adm_people | adm_work | adm_integrations | adm_records.
Definition ADMIN_SECTIONS : list AdminSection := [adm_people; adm_work; adm_integrations; adm_records].

Record AdminPlace := mkAdminPlace { admin_place : Place; admin_section : AdminSection }.

(** [t.shell.places], by the name of the sentence. *)
Definition PlaceWords : Type := string → string.

Definition WATCHING_QUERY : string := "watcher = currentUser()".
Definition SETTINGS_PATH : string := "/settings".
Definition ADMIN_PATH : string := "/admin".

Definition workPlaces (w : PlaceWords) : list Place :=
  [mkPlace "/" (w "home") "Home" None None None;
   mkPlace "/search" (w "search") "Search" None None None;
   mkPlace "/notifications" (w "notifications") "Bell" None None None;
   mkPlace "/filters" (w "savedSearches") "Filter" None None None;
   mkPlace "/projects" (w "projects") "Folder" None None None]%string.

Definition personalPlaces (w : PlaceWords) : list Place :=
  [mkPlace "/settings/profile" (w "profile") "User" (Some (w "profileDetail")) None None;
   mkPlace "/settings/profile" (w "notificationSettings") "Bell" (Some (w "notificationSettingsDetail")) None (Some "notifications");
   mkPlace "/search" (w "watching") "Eye" (Some (w "watchingDetail")) (Some [("q", WATCHING_QUERY)]) None;
   mkPlace "/settings/themes" (w "themes") "Palette" (Some (w "themesDetail")) None None;
   mkPlace "/settings/tokens" (w "accessTokens") "Command" (Some (w "accessTokensDetail")) None None]%string.

Definition adminPlaces (w : PlaceWords) : list AdminPlace :=
  [mkAdminPlace (mkPlace "/admin/installation" (w "installation") "Settings" (Some (w "installationDetail")) None None) adm_people;
   mkAdminPlace (mkPlace "/admin/access" (w "access") "Key" (Some (w "accessDetail")) None None) adm_people;
   mkAdminPlace (mkPlace "/admin/users" (w "users") "Users" (Some (w "usersDetail")) None None) adm_people;
   mkAdminPlace (mkPlace "/admin/holidays" (w "holidays") "Calendar" (Some (w "holidaysDetail")) None None) adm_work;
   mkAdminPlace (mkPlace "/admin/workflows" (w "workflows") "Workflow" (Some (w "workflowsDetail")) None None) adm_work;
   mkAdminPlace (mkPlace "/admin/issue-types" (w "issueTypes") "Issue" (Some (w "issueTypesDetail")) None None) adm_work;
   mkAdminPlace (mkPlace "/admin/project-templates" (w "projectTemplates") "Component" (Some (w "projectTemplatesDetail")) None None) adm_work;
   mkAdminPlace (mkPlace "/admin/labels" (w "labels") "Tag" (Some (w "labelsDetail")) None None) adm_work;
   mkAdminPlace (mkPlace "/admin/automation" (w "automation") "Bolt" (Some (w "automationDetail")) None None) adm_work;
   mkAdminPlace (mkPlace "/admin/fields" (w "fields") "Field" (Some (w "fieldsDetail")) None None) adm_work;
   mkAdminPlace (mkPlace "/admin/issue-view" (w "issueView") "Issue" (Some (w "issueViewDetail")) None None) adm_work;
   mkAdminPlace (mkPlace "/admin/connected-apps" (w "connectedApps") "Link" (Some (w "connectedAppsDetail")) None None) adm_integrations;
   mkAdminPlace (mkPlace "/admin/webhooks" (w "webhooks") "Hook" (Some (w "webhooksDetail")) None None) adm_integrations;
   mkAdminPlace (mkPlace "/admin/audit" (w "audit") "Shield" (Some (w "auditDetail")) None None) adm_records]%string.

Definition adminEntry (title : string) : Place := mkPlace ADMIN_PATH title "Settings" None None None.

(** The admin places a person may open. *)
Definition adminFor (w : PlaceWords) (canAdministerOrg : bool) : list AdminPlace := if canAdministerOrg then adminPlaces w else [].

Definition inSettingsArea (pathname : string) : bool :=
  bool_decide (pathname = SETTINGS_PATH) || startsWith pathname (SETTINGS_PATH +:+ "/").

(** [URLSearchParams]' way with a name or a value. *)
Definition form_plain (c : ascii) : bool :=
  is_digit c || ((65 <=? code c) && (code c <=? 90)) || ((97 <=? code c) && (code c <=? 122)) || bool_decide (code c ∈ [42; 45; 46; 95]).

Fixpoint formEncode (s : string) : string :=
  match s with
  | EmptyString => EmptyString
  | String c s' => (if form_plain c then String c EmptyString else if code c =? 32 then "+" else percent_utf8 c) +:+ formEncode s'
  end.

Definition searchParams (pairs : list (string * string)) : string := join "&" (map (fun e => formEncode e.1 +:+ "=" +:+ formEncode e.2) pairs).

Definition placeKey (place : Place) : string :=
  place_to place +:+
  match place_search place with Some search => "?" +:+ searchParams search | None => EmptyString end +:+
  match place_hash place with Some h => if truthy h then "#" +:+ h else EmptyString | None => EmptyString end.

(** [PlaceLink]: two of the person's places on one page are told apart by their section. *)
Definition matchHash (personal : list Place) (i : nat) (place : Place) : bool :=
  existsb (fun other : nat * Place => negb (bool_decide (other.1 = i)) && bool_decide (place_to other.2 = place_to place)) (imap pair personal).

(** The project whose pages are on screen, from the parameters of the route. *)
Definition useCurrentProjectKey (projectKey issueKey : option string) : option string :=
  let of_issue :=
    match issueKey with
    | Some k =>
        if truthy k then
          let cut := match lastIndexOf "-"%char k with Some i => sliceTo i k | None => sliceTo (String.length k - 1) k end in
          if truthy cut then Some cut else None
        else None
    | None => None
    end in
  match projectKey with
  | Some p => if truthy p then Some p else of_issue
  | None => of_issue
  end.

(** ** What is offered *)

Inductive CommandGroup := g_issues | g_projects | g_pages | g_actions | g_answers.
#[export] Instance CommandGroup_eq : EqDecision CommandGroup.
Proof. solve_decision. Defined.
Inductive PaletteMode := mode_command | mode_ask.
#[export] Instance PaletteMode_eq : EqDecision PaletteMode.
Proof. solve_decision. Defined.

(** A place the assistant is told of. *)
Record PlaceOffer := mkPlaceOffer { offer_id : string; offer_title : string; offer_sentence : string; offer_path : string }.

(** What running a command does, in order. *)
Inductive Effect :=
| Closed
| Navigated (to : string) (params : list (string * string)) (search : list (string * Json)) (hash : option string)
| Spotlit (target text : string)
| Themed (theme : ThemeChoice)
| OpenedNewIssue
| ToggledSidebar
| Asked (question : string) (projectKey : option string) (places : list PlaceOffer).

(** The theme is read when the command is run. *)
Record Command := mkCommand {
  cmd_id : string;
  cmd_group : CommandGroup;
  cmd_label : string;
  cmd_detail : option string;
  cmd_icon : string;
  cmd_run : ThemeChoice → list Effect;
}.

Record FoundIssue := mkFoundIssue { found_key : string; found_summary : string }.

(** What the hooks hold as the palette is drawn: [None] where nothing was answered. *)
Record Answers := mkAnswers {
  an_projectKey : option string;
  an_access : option Access;
  an_configured : bool;
  an_project : option Project;
  an_projects : list Project;
  an_issues : list FoundIssue;
  an_theme : ThemeChoice;
}.

(** [t.shell.palette], [t.shell.admin.title], and the words of the pages. *)
Record PaletteWords := mkPaletteWords {
  wd_place : PlaceWords;
  wd_admin : string;
  wd_guide : GuideWords;
  wd_pickProject : string;
  wd_askAssistant : string;
  wd_assistantLooks : string;
  wd_openIssue : string;
  wd_adminPage : string → string;
  wd_projectPage : string → string → string;
  wd_newIssue : string;
  wd_switchTheme : string;
  wd_toggleSidebar : string;
  wd_searchQuery : string;
  wd_youWords : string;
  wd_adminWords : string;
}.

(** A letter, letters and digits, a dash and digits. *)
Definition is_letter (c : ascii) : bool := ((65 <=? code c) && (code c <=? 90)) || ((97 <=? code c) && (code c <=? 122)).

Fixpoint key_tail (s : string) : bool :=
  match s with
  | EmptyString => false
  | String c s' => if bool_decide (c = "-"%char) then truthy s' && string_forall is_digit s' else (is_letter c || is_digit c) && key_tail s'
  end.

Definition issueKeyPattern (s : string) : bool := match s with String c s' => is_letter c && key_tail s' | EmptyString => false end.

(** A text with its quotes left out. *)
Fixpoint without_quotes (s : string) : string :=
  match s with
  | EmptyString => EmptyString
  | String c s' => if bool_decide (c = dquote) then without_quotes s' else String c (without_quotes s')
  end.

(** The first [$projectKey] of an address, replaced. *)
Definition project_sign : string := "$projectKey".
Fixpoint put_project (key address : string) : string :=
  match address with
  | EmptyString => EmptyString
  | String c s' => if startsWith address project_sign then key +:+ sliceFrom (String.length project_sign) address else String c (put_project key s')
  end.

Definition theme_order : list ThemeChoice := [theme_system; theme_light; theme_dark].

(** [order[(order.indexOf(theme) + 1) % order.length]]. *)
Definition next_theme (theme : ThemeChoice) : ThemeChoice :=
  match theme with theme_system => theme_light | theme_light => theme_dark | theme_dark => theme_system end.


Section Commands.
Context `{!Collation} (w : PaletteWords) (german : bool).

Section Offered.
Context (mode : PaletteMode) (text : string) (a : Answers).

Definition trimmed : string := trim text.
Definition looksLikeKey : bool := issueKeyPattern trimmed.
Definition canAdministerOrg : bool := match an_access a with Some x => access_canAdministerOrg x | None => false end.
Definition features : option (list Feature) := project_features <$> an_project a.
Definition guide_context : GuideContext := mkGuideContext (an_projectKey a) canAdministerOrg features.

(** Whether there is a project: an empty key is none. *)
Definition project_here : option string :=
  match an_projectKey a with Some key => if truthy key then Some key else None | None => None end.

Definition go (to : string) (_ : ThemeChoice) : list Effect := [Closed; Navigated to [] [] None].
Definition goPlace (place : Place) (_ : ThemeChoice) : list Effect :=
  [Closed; Navigated (place_to place) [] (map (fun e => (e.1, JString e.2)) (default [] (place_search place))) (place_hash place)].

(** What the assistant may name. *)
Definition places : list PlaceOffer :=
  map (fun entry : GuideEntry =>
    mkPlaceOffer (ge_id entry) (ge_title entry) (ge_sentence entry)
      (put_project (default EmptyString (an_projectKey a)) (dest_to (ge_to entry guide_context))))
    (filter (fun entry : GuideEntry => negb (match ge_needs entry with Some needs_admin => true | _ => false end) || canAdministerOrg = true) (CATALOGUE (wd_guide w))).

Definition askAssistant (_ : ThemeChoice) : list Effect := [Asked trimmed (an_projectKey a) places].

Definition wants_project (entry : GuideEntry) : bool :=
  match ge_needs entry with Some needs_project => bool_decide (project_here = None) | _ => false end.

Definition follow (entry : GuideEntry) (_ : ThemeChoice) : list Effect :=
  let destination := if wants_project entry then mkDestination "/projects" [] [] else ge_to entry guide_context in
  [Closed; Navigated (dest_to destination) (dest_params destination) (dest_search destination) None] ++
  match ge_target entry with Some target => if truthy target then [Spotlit target (ge_sentence entry)] else [] | None => [] end.

Definition lower_text : string := toLowerCase trimmed.
Definition matches (s : string) : bool := negb (truthy lower_text) || includes (toLowerCase s) lower_text.

Definition answers : list Command :=
  if looksLikeQuestion trimmed || bool_decide (mode = mode_ask) then
    map (fun found =>
      let entry := answer_entry found in
      mkCommand ("answer:" +:+ ge_id entry) g_answers (ge_title entry) (if wants_project entry then Some (wd_pickProject w) else None) "Help" (follow entry))
      (answer german trimmed guide_context (CATALOGUE (wd_guide w)))
  else [].

Definition assistant_commands : list Command :=
  if bool_decide (mode = mode_ask) && bool_decide (length answers = O) && truthy trimmed && an_configured a
  then [mkCommand "ask-assistant" g_answers (wd_askAssistant w) (Some (wd_assistantLooks w)) "Help" askAssistant]
  else [].

Definition key_commands : list Command :=
  if looksLikeKey then
    let key := toUpperCase trimmed in
    [mkCommand ("key:" +:+ key) g_issues key (Some (wd_openIssue w)) "Issue" (go ("/issues/" +:+ key))]
  else [].

Definition issue_commands : list Command :=
  if (2 <=? Z.of_nat (String.length trimmed)) && negb looksLikeKey then
    map (fun issue => mkCommand ("issue:" +:+ found_key issue) g_issues (found_summary issue) (Some (found_key issue)) "Issue" (go ("/issues/" +:+ found_key issue))) (an_issues a)
  else [].

Definition project_commands : list Command :=
  map (fun p => mkCommand ("project:" +:+ project_key p) g_projects (project_name p) (Some (project_key p)) "Folder" (go ("/projects/" +:+ project_key p)))
    (filter (fun p => matches (project_name p +:+ " " +:+ project_key p) = true) (an_projects a)).

(** A page of the project: its path, its address, its label and its icon. *)
Definition listed (key : string) : list (string * string * string * string) :=
  map (fun page => (link_path page, link_path page, link_label page, link_icon page)) (pagesFor (an_project a) (projectWorkPages (gw_label (wd_guide w)))) ++
  map (fun page => (page_path page, setupAddress (page_path page), page_label page, page_icon page))
    (settingsPagesFor (gw_setup (wd_guide w)) (an_project a) (canAdminister (an_access a) key)).

Definition page_commands : list Command :=
  match project_here with
  | Some key =>
      map (fun '(path, address, label, icon) =>
        mkCommand ("page:" +:+ path) g_pages (wd_projectPage w key label) None icon (go ("/projects/" +:+ key +:+ address)))
        (filter (fun '(_, _, label, _) => matches label = true) (listed key))
  | None => []
  end.

Definition shell_places : list (Place * string * string) :=
  map (fun place => (place, place_label place, place_label place)) (workPlaces (wd_place w)) ++
  if truthy lower_text then
    map (fun place => (place, place_label place, wd_youWords w +:+ " " +:+ place_label place)) (personalPlaces (wd_place w)) ++
    (if canAdministerOrg then [(adminEntry (wd_admin w), wd_admin w, wd_adminWords w)] else []) ++
    map (fun place => (admin_place place, wd_adminPage w (place_label (admin_place place)), wd_adminWords w +:+ " " +:+ place_label (admin_place place)))
      (adminFor (wd_place w) canAdministerOrg)
  else [].

Definition place_commands : list Command :=
  map (fun '(place, label, _) => mkCommand ("place:" +:+ placeKey place) g_pages label None (place_icon place) (goPlace place))
    (filter (fun '(_, _, words) => matches words = true) shell_places).

(** The query the words become, as the address carries it. *)
Definition text_query : string := "text ~ " +:+ String dquote (without_quotes trimmed +:+ String dquote EmptyString).
Definition search_address : string := if truthy trimmed then "/search?q=" +:+ encodeURIComponent text_query else "/search".

Definition actions_offered : list Command :=
  filter (fun c => matches (cmd_label c) = true)
    [mkCommand "new-issue" g_actions (wd_newIssue w) None "Plus" (fun _ => [Closed; OpenedNewIssue]);
     mkCommand "theme" g_actions (wd_switchTheme w) (Some (choice_text (an_theme a))) "Monitor" (fun now => [Themed (next_theme now); Closed]);
     mkCommand "sidebar" g_actions (wd_toggleSidebar w) None "Collapse" (fun _ => [Closed; ToggledSidebar]);
     mkCommand "search" g_actions (wd_searchQuery w) None "Search" (go search_address)]%string.

Definition all_commands : list Command :=
  (if bool_decide (mode = mode_ask) then answers else []) ++ assistant_commands ++ key_commands ++ issue_commands ++ project_commands ++
  page_commands ++ place_commands ++ actions_offered ++ (if bool_decide (mode = mode_ask) then [] else answers).

Definition commands : list Command := take (Z.to_nat (PALETTE_RESULTS * 3)) all_commands.
End Offered.

(** ** The palette as it is used *)

Record AssistantAnswer := mkAssistantAnswer { aa_text : string; aa_to : option string; aa_query : option string }.
Record AssistantProposal := mkAssistantProposal { ap_tool : string; ap_says : string }.

(** [pl_mode]: what the shell keeps, [None] while the palette is closed.  The last
    three are what the effects last ran for: the number of commands and the
    trimmed text, and the text. *)
Record Palette := mkPalette {
  pl_mode : option PaletteMode;
  pl_text : string;
  pl_active : Z;
  pl_answers : Answers;
  pl_asking : bool;
  pl_asked : option AssistantAnswer;
  pl_proposals : list AssistantProposal;
  pl_seen : Z * string;
  pl_seen_text : string;
}.

Definition pl_open (s : Palette) : bool := bool_decide (is_Some (pl_mode s)).
Definition drawn (s : Palette) : list Command := commands (default mode_command (pl_mode s)) (pl_text s) (pl_answers s).
Definition count (s : Palette) : Z := Z.of_nat (length (drawn s)).

Definition with_active (i : Z) (s : Palette) : Palette :=
  mkPalette (pl_mode s) (pl_text s) i (pl_answers s) (pl_asking s) (pl_asked s) (pl_proposals s) (pl_seen s) (pl_seen_text s).
Definition with_asked (asking : bool) (asked : option AssistantAnswer) (s : Palette) : Palette :=
  mkPalette (pl_mode s) (pl_text s) (pl_active s) (pl_answers s) asking asked (pl_proposals s) (pl_seen s) (pl_seen_text s).

(** The effects that follow the text, and the commands' number and the text. *)
Definition settle (s : Palette) : Palette :=
  let now := (count s, trim (pl_text s)) in
  mkPalette (pl_mode s) (pl_text s) (if decide (pl_seen s = now) then pl_active s else 0) (pl_answers s) (pl_asking s)
    (if decide (pl_seen_text s = pl_text s) then pl_asked s else None) (pl_proposals s) now (pl_text s).

(** Mounted with the shell, closed. *)
Definition palette_start (a : Answers) : Palette :=
  settle (mkPalette None EmptyString 0 a false None [] (-1, EmptyString) EmptyString).

(** The shell opens it, in a mode; a shortcut while it is open changes the mode only.
    The effect of opening forgets the last question. *)
Definition open_palette (mode : PaletteMode) (s : Palette) : Palette :=
  if pl_open s then mkPalette (Some mode) (pl_text s) (pl_active s) (pl_answers s) (pl_asking s) (pl_asked s) (pl_proposals s) (pl_seen s) (pl_seen_text s)
  else mkPalette (Some mode) EmptyString 0 (pl_answers s) false None (pl_proposals s) (pl_seen s) (pl_seen_text s).

Definition close_palette (s : Palette) : Palette :=
  mkPalette None (pl_text s) (pl_active s) (pl_answers s) (pl_asking s) (pl_asked s) (pl_proposals s) (pl_seen s) (pl_seen_text s).

(** What running effects leaves of the palette: it may close, or wait for the assistant. *)
Definition after_effect (s : Palette) (e : Effect) : Palette :=
  match e with Closed => close_palette s | Asked _ _ _ => with_asked true (pl_asked s) s | _ => s end.

Definition run_command (c : Command) (now : ThemeChoice) (s : Palette) : Palette * list Effect :=
  (foldl after_effect s (cmd_run c now), cmd_run c now).

Definition marked (s : Palette) : option Command := if pl_active s <? 0 then None else drawn s !! Z.to_nat (pl_active s).

Inductive PaletteKey := ArrowDown | ArrowUp | Enter | Escape | OtherKey.

(** Typing changes what the hooks ask for, so what they hold may change with it.  A
    row is pointed at by its place in the list; [Followed] is the button under the
    assistant's answer, [PressedOutside] a press on the backdrop.  The theme is what
    the browser holds as a command is run. *)
Inductive PaletteEvent :=
| OpenPalette (mode : PaletteMode)
| Typed (text : string) (a : Answers)
| Heard (a : Answers)
| Effects_ran
| Pressed (key : PaletteKey) (theme : ThemeChoice)
| Hovered (i : nat)
| Clicked (i : nat) (theme : ThemeChoice)
| PressedOutside
| Replied (answer : AssistantAnswer) (proposals : list AssistantProposal)
| AskFailed
| Followed.

Definition onKeyDown (key : PaletteKey) (theme : ThemeChoice) (s : Palette) : Palette * list Effect :=
  match key with
  | ArrowDown => (with_active (Z.min (pl_active s + 1) (count s - 1)) s, [])
  | ArrowUp => (with_active (Z.max (pl_active s - 1) 0) s, [])
  | Enter => match marked s with Some c => run_command c theme s | None => (s, []) end
  | Escape => (close_palette s, [Closed])
  | OtherKey => (s, [])
  end.

Definition goThere (found : AssistantAnswer) (s : Palette) : Palette * list Effect :=
  match aa_to found with
  | Some to =>
      if truthy to then
        (close_palette s, [Closed; Navigated to [] (match aa_query found with Some q => if truthy q then [("q"%string, JString q)] else [] | None => [] end) None])
      else (s, [])
  | None => (s, [])
  end.

(** One event as its handler leaves it; what is not drawn is not pressed. *)
Definition handle (s : Palette) (e : PaletteEvent) : Palette * list Effect :=
  match e with
  | OpenPalette mode => (open_palette mode s, [])
  | Heard a => (mkPalette (pl_mode s) (pl_text s) (pl_active s) a (pl_asking s) (pl_asked s) (pl_proposals s) (pl_seen s) (pl_seen_text s), [])
  | Replied answer proposals =>
      (if pl_asking s then mkPalette (pl_mode s) (pl_text s) (pl_active s) (pl_answers s) false (Some answer) proposals (pl_seen s) (pl_seen_text s) else s, [])
  | AskFailed => (with_asked false (pl_asked s) s, [])
  | Effects_ran => (s, [])
  | _ =>
      if negb (pl_open s) then (s, [])
      else match e with
      | Typed text a => (mkPalette (pl_mode s) text (pl_active s) a (pl_asking s) (pl_asked s) (pl_proposals s) (pl_seen s) (pl_seen_text s), [])
      | Pressed key theme => onKeyDown key theme s
      | Hovered i => (if decide (i < length (drawn s))%nat then with_active (Z.of_nat i) s else s, [])
      | Clicked i theme => match drawn s !! i with Some c => run_command c theme s | None => (s, []) end
      | PressedOutside => (close_palette s, [Closed])
      | Followed => match pl_asked s with Some found => goThere found s | None => (s, []) end
      | _ => (s, [])
      end
  end.

(** An answer of the server is drawn before its effects run; before anything else is
    drawn, and after everything the reader does, the effects have run. *)
Definition palette_step (s : Palette) (e : PaletteEvent) : Palette * list Effect :=
  match e with
  | Heard _ => handle (settle s) e
  | _ => let '(s', out) := handle s e in (settle s', out)
  end.

Definition palette_run (s : Palette) (events : list PaletteEvent) : Palette := foldl (fun s e => (palette_step s e).1) s events.
End Commands.

(** ** Confirming what the assistant proposes: [AskAnswer.tsx] *)

Record Confirming := mkConfirming { cf_done : list string; cf_pending : option AssistantProposal }.

Definition proposal_done (c : Confirming) (p : AssistantProposal) : bool := bool_decide (ap_tool p ∈ cf_done c).

Inductive ConfirmEvent := ConfirmPressed (p : AssistantProposal) | ConfirmSucceeded | ConfirmFailed.

(** The button of a proposal that is done is not there, and none can be pressed while one is pending. *)
Definition confirm_step (c : Confirming) (e : ConfirmEvent) : Confirming * list AssistantProposal :=
  match e, cf_pending c with
  | ConfirmPressed p, None => if proposal_done c p then (c, []) else (mkConfirming (cf_done c) (Some p), [p])
  | ConfirmSucceeded, Some p => (mkConfirming (cf_done c ++ [ap_tool p]) None, [])
  | ConfirmFailed, Some _ => (mkConfirming (cf_done c) None, [])
  | _, _ => (c, [])
  end.

(** ** Nothing of the administration for those who do not administer *)

Section PaletteFacts.
Context `{!Collation} (w : PaletteWords) (german : bool).

(** An entry of the guide whose page, with a project put into its address, is not
    one of the administration's, or which is marked, or is one of the three that are not. *)
Definition placed_open (key : string) (ctx : GuideContext) (e : GuideEntry) : Prop :=
  startsWith (put_project key (dest_to (ge_to e ctx))) ADMIN_PATH = false ∨ ge_needs e = Some needs_admin ∨ ge_id e ∈ unmarked.

Ltac entry_placed :=
  first [ left; reflexivity | right; left; reflexivity
        | right; right; apply (bool_decide_unpack _); vm_compute; exact I
        | left; unfold new_issue_at; cbn; repeat case_match; reflexivity ].

Lemma pages_placed key gw ctx : Forall (placed_open key ctx) (pages gw).
Proof.
  unfold pages. repeat (apply Forall_app; split);
    first [ by repeat (constructor; [entry_placed|]) | apply Forall_map, Forall_forall; intros page _; left; reflexivity ].
Qed.

Lemma actions_placed key gw ctx : Forall (placed_open key ctx) (actions gw).
Proof. unfold actions. repeat (constructor; [entry_placed|]). constructor. Qed.

Lemma intents_placed key gw ctx : Forall (placed_open key ctx) (intents gw).
Proof. unfold intents. repeat (constructor; [entry_placed|]). constructor. Qed.

Lemma catalogue_placed key gw ctx : Forall (placed_open key ctx) (CATALOGUE gw).
Proof. unfold CATALOGUE. rewrite !Forall_app. split_and!; [apply pages_placed|apply actions_placed|apply intents_placed]. Qed.

(** What a command may do for somebody who does not administer: open no page of the
    administration, unless it is the guide's answer with one of the unmarked entries,
    and name no such page to the assistant but theirs. *)
Definition open_to_all (c : Command) : Prop :=
  ∀ now e, e ∈ cmd_run c now →
    match e with
    | Navigated to _ _ _ => startsWith to ADMIN_PATH = true → ∃ id, id ∈ unmarked ∧ cmd_id c = "answer:" +:+ id
    | Asked _ _ offers => ∀ o, o ∈ offers → startsWith (offer_path o) ADMIN_PATH = true → offer_id o ∈ unmarked
    | _ => True
    end.

Lemma go_open id g label detail icon to :
  startsWith to ADMIN_PATH = false → open_to_all (mkCommand id g label detail icon (go to)).
Proof.
  intros Ho now e He. cbn [cmd_run] in He. unfold go in He. repeat (apply elem_of_cons in He as [->|He]; [try done; congruence|]). by apply elem_of_nil in He.
Qed.

Lemma goPlace_open id g label detail icon place :
  startsWith (place_to place) ADMIN_PATH = false → open_to_all (mkCommand id g label detail icon (goPlace place)).
Proof.
  intros Ho now e He. cbn [cmd_run] in He. unfold goPlace in He. repeat (apply elem_of_cons in He as [->|He]; [try done; congruence|]). by apply elem_of_nil in He.
Qed.

Section Offers.
Context (mode : PaletteMode) (text : string) (a : Answers) (Hno : canAdministerOrg a = false).

Lemma follow_open entry :
  entry ∈ CATALOGUE (wd_guide w) → reaches entry (guide_context a) = true →
  ∀ g label detail icon, open_to_all (mkCommand ("answer:" +:+ ge_id entry) g label detail icon (follow a entry)).
Proof.
  intros Hin Hr g label detail icon now e He. cbn [cmd_run cmd_id] in *. unfold follow in He. apply elem_of_app in He as [He|He].
  - apply elem_of_cons in He as [->|He]; [done|]. apply list_elem_of_singleton in He as ->. intros Ha. exists (ge_id entry). split; [|done].
    destruct (wants_project a entry); [done|]. pose proof (catalogue_marked (wd_guide w) (guide_context a)) as Hm. rewrite Forall_forall in Hm.
    destruct (Hm _ Hin) as [Hm'|[Hm'|Hm']]; [unfold admin_address in Hm'; unfold ADMIN_PATH in Ha; congruence| |done]. unfold reaches in Hr. rewrite Hm' in Hr. cbn in Hr. rewrite Hno, andb_false_r in Hr. done.
  - destruct (ge_target entry) as [t|]; [|by apply elem_of_nil in He]. destruct (truthy t); [|by apply elem_of_nil in He]. by apply list_elem_of_singleton in He as ->.
Qed.

Lemma answers_open : Forall open_to_all (answers w german mode text a).
Proof.
  unfold answers. destruct (_ || _); [|done]. apply Forall_map, Forall_forall. intros found Hf. unfold answer in Hf.
  destruct (words german (trimmed text)) as [|x xs]; [by apply elem_of_nil in Hf|]. apply elem_of_take in Hf as (i & Hi & _). apply list_elem_of_lookup_2 in Hi.
  rewrite sort_by_Permutation in Hi. unfold candidates in Hi. apply list_elem_of_filter in Hi as [_ Hi]. apply list_elem_of_fmap in Hi as (entry & -> & Hi).
  apply list_elem_of_filter in Hi as [Hr Hi]. by apply follow_open.
Qed.

Lemma asked_open : Forall open_to_all (assistant_commands w german mode text a).
Proof.
  unfold assistant_commands. destruct (_ && _ && _ && _); [|done]. apply Forall_singleton. intros now e He. cbn [cmd_run] in He. apply list_elem_of_singleton in He as ->.
  intros o Ho Ha. unfold places in Ho. apply list_elem_of_fmap in Ho as (entry & -> & Hin). cbn [offer_path offer_id] in *. apply list_elem_of_filter in Hin as [Hn Hin].
  pose proof (catalogue_placed (default EmptyString (an_projectKey a)) (wd_guide w) (guide_context a)) as Hp. rewrite Forall_forall in Hp.
  destruct (Hp _ Hin) as [Hm|[Hm|Hm]]; [congruence| |done]. rewrite Hm, Hno in Hn. done.
Qed.

Lemma places_open : Forall open_to_all (place_commands w text a).
Proof.
  apply Forall_map, Forall_forall. intros [[place label] words] Hp. apply list_elem_of_filter in Hp as [_ Hp].
  apply goPlace_open. unfold shell_places in Hp. rewrite Hno in Hp. cbn [adminFor app map] in Hp. rewrite app_nil_r in Hp.
  apply elem_of_app in Hp as [Hp|Hp].
  - apply list_elem_of_fmap in Hp as (p & [= -> -> ->] & Hp). unfold workPlaces in Hp. repeat (apply elem_of_cons in Hp as [->|Hp]; [done|]). by apply elem_of_nil in Hp.
  - destruct (truthy _); [|by apply elem_of_nil in Hp]. apply list_elem_of_fmap in Hp as (p & [= -> -> ->] & Hp). unfold personalPlaces in Hp.
    repeat (apply elem_of_cons in Hp as [->|Hp]; [done|]). by apply elem_of_nil in Hp.
Qed.

(** Whatever is typed, in either mode, and whatever the server has answered,
    no command offered to somebody who does not administer the installation opens a
    page of the administration, and the assistant is told of none; but for the three
    pages whose entries in the guide are not marked. *)
Theorem palette_keeps_admin : Forall open_to_all (commands w german mode text a).
Proof.
  apply Forall_take. unfold all_commands. rewrite !Forall_app. split_and!; try (destruct (bool_decide _); [try done; apply answers_open|try done; apply answers_open]).
  - apply asked_open.
  - unfold key_commands. destruct (looksLikeKey _); [|done]. apply Forall_singleton, go_open. reflexivity.
  - unfold issue_commands. destruct (_ && _); [|done]. apply Forall_map, Forall_forall. intros i _. apply go_open. reflexivity.
  - apply Forall_map, Forall_forall. intros p _. apply go_open. reflexivity.
  - unfold page_commands. destruct (project_here a); [|done]. apply Forall_map, Forall_forall. intros [[[path address] label] icon] _. apply go_open. reflexivity.
  - apply places_open.
  - apply Forall_forall. intros c Hc. apply list_elem_of_filter in Hc as [_ Hc]. revert c Hc. apply Forall_forall. repeat (constructor; [first [apply go_open; unfold search_address; by destruct (truthy _) | by intros now e He; cbn [cmd_run] in He; repeat (apply elem_of_cons in He as [->|He]; [done|]); apply elem_of_nil in He]|]). constructor.
Qed.
End Offers.
End PaletteFacts.

(** ** Every page is found by its name *)

Section Found.
Context `{!Collation} (w : PaletteWords) (german : bool) (mode : PaletteMode) (text : string) (a : Answers).

Lemma includes_app_l p s q : includes s q = true → includes (p +:+ s) q = true.
Proof. intros Hs. induction p as [|c p IH]; [done|]. cbn [append includes]. rewrite IH. apply orb_true_r. Qed.

Lemma toLowerCase_app p s : toLowerCase (p +:+ s) = toLowerCase p +:+ toLowerCase s.
Proof. induction p as [|c p IH]; [done|]. cbn. by rewrite IH. Qed.

Lemma matches_longer p s : matches text s = true → matches text (p +:+ s) = true.
Proof. unfold matches. intros [->|Hi]%orb_true_iff; [done|]. rewrite toLowerCase_app, includes_app_l by done. apply orb_true_r. Qed.

(** The places a person may open: the tool's, their own, and an administrator's. *)
Definition open_places : list Place :=
  workPlaces (wd_place w) ++ personalPlaces (wd_place w) ++ map admin_place (adminFor (wd_place w) (canAdministerOrg a)).

(** Every page the sidebar, the account's menu and the list of settings lead
    to, as far as the person may open it, is offered once its name, or any part of it,
    is typed; the empty box offers the tool's own.  A command that is not drawn for it
    is one of those after the first [PALETTE_RESULTS * 3]. *)
Theorem place_found_by_name place :
  place ∈ open_places → (place ∈ workPlaces (wd_place w) ∨ trim text ≠ EmptyString) → includes (toLowerCase (place_label place)) (lower_text text) = true →
  ∃ c, c ∈ all_commands w german mode text a ∧ (c ∈ commands w german mode text a ∨ Z.of_nat (length (commands w german mode text a)) = PALETTE_RESULTS * 3) ∧
       cmd_id c = "place:" +:+ placeKey place ∧ ∀ now, cmd_run c now = goPlace place now.
Proof.
  intros Hin Hwhere Hi. assert (matches text (place_label place) = true) as Hm by (unfold matches; rewrite Hi; apply orb_true_r).
  assert (∃ label words, (place, label, words) ∈ shell_places w text a ∧ matches text words = true) as (label & said & Hs & Hw).
  { unfold shell_places. unfold open_places in Hin. rewrite elem_of_app in Hin.
    assert (place ∈ workPlaces (wd_place w) ∨ place ∈ personalPlaces (wd_place w) ++ map admin_place (adminFor (wd_place w) (canAdministerOrg a)) ∧ trim text ≠ EmptyString) as [Hwork|[Ho Hne]] by (destruct Hin, Hwhere; auto).
    - exists (place_label place), (place_label place). split; [|done]. apply elem_of_app. left. apply list_elem_of_fmap. eauto.
    - assert (truthy (lower_text text) = true) as ->.
      { unfold truthy, lower_text, trimmed. destruct (trim text) as [|c r]; done. }
      apply elem_of_app in Ho as [Hp|Ha].
      + exists (place_label place), (wd_youWords w +:+ " " +:+ place_label place). split; [|by do 2 apply matches_longer].
        rewrite !elem_of_app. right. left. apply list_elem_of_fmap. eauto.
      + apply list_elem_of_fmap in Ha as (p & -> & Hp). exists (wd_adminPage w (place_label (admin_place p))), (wd_adminWords w +:+ " " +:+ place_label (admin_place p)).
        split; [|by do 2 apply matches_longer]. rewrite !elem_of_app. do 3 right. apply list_elem_of_fmap. eauto. }
  exists (mkCommand ("place:" +:+ placeKey place) g_pages label None (place_icon place) (goPlace place)).
  assert (mkCommand ("place:" +:+ placeKey place) g_pages label None (place_icon place) (goPlace place) ∈ all_commands w german mode text a) as Hall.
  { unfold all_commands. rewrite !elem_of_app. do 6 right. left. unfold place_commands. apply list_elem_of_fmap. exists (place, label, said). split; [done|]. by apply list_elem_of_filter. }
  split_and!; [done| |done|done]. unfold commands. destruct (decide (length (all_commands w german mode text a) <= Z.to_nat (PALETTE_RESULTS * 3))%nat) as [Hl|Hl].
  - left. by rewrite take_ge.
  - right. rewrite length_take, Nat.min_l by lia. done.
Qed.

(** The words of the box are read back from the query they become, but for their
    quotes, where they hold no backslash. *)
Lemma scan_plain s rest : string_forall (fun c => negb (bool_decide (c = backslash)) && negb (bool_decide (c = dquote))) s = true →
  scan_quoted dquote (s +:+ String dquote rest) = Some (s, rest).
Proof.
  induction s as [|c s IH]; intros Hs; cbn [append scan_quoted].
  - by rewrite decide_False, decide_True by done.
  - cbn [string_forall] in Hs. apply andb_true_iff in Hs as [Hc Hs]. apply andb_true_iff in Hc as [H1 H2].
    apply negb_true_iff, bool_decide_eq_false in H1, H2. rewrite decide_False by done. rewrite decide_False by done. by rewrite IH.
Qed.

Lemma without_quotes_plain s : string_forall (fun c => negb (bool_decide (c = backslash))) s = true →
  string_forall (fun c => negb (bool_decide (c = backslash)) && negb (bool_decide (c = dquote))) (without_quotes s) = true.
Proof.
  induction s as [|c s IH]; [done|]. cbn [string_forall without_quotes]. intros [Hc Hs]%andb_true_iff. destruct (bool_decide (c = dquote)) eqn:E; [by apply IH|].
  cbn [string_forall]. rewrite Hc, E. by apply IH.
Qed.

Lemma text_query_read : string_forall (fun c => negb (bool_decide (c = backslash))) (trim text) = true →
  ∃ body, text_query text = "text ~ " +:+ String dquote body ∧ scan_quoted dquote body = Some (without_quotes (trim text), EmptyString).
Proof. intros Hs. eexists. split; [done|]. by apply scan_plain, without_quotes_plain. Qed.
End Found.

(** Words that end in a backslash become a query whose text never ends. *)
Lemma backslash_unclosed : ∃ text body, text_query text = "text ~ " +:+ String dquote body ∧ scan_quoted dquote body = None.
Proof. exists (String "a" (String backslash EmptyString)), (String "a" (String backslash (String dquote EmptyString))). split; reflexivity. Qed.

(** ** What a key does *)

Section Used.
Context `{!Collation} (w : PaletteWords) (german : bool).
#[local] Notation settle_ := (settle w german).
#[local] Notation step := (palette_step w german).

(** The mark stands on a command of the list its effects last ran for. *)
Definition mark_inside (s : Palette) : Prop := 0 < (pl_seen s).1 → 0 <= pl_active s < (pl_seen s).1.
Definition settled (s : Palette) : Prop := pl_seen s = (count w german s, trim (pl_text s)).

Lemma count_pos s : 0 <= count w german s.
Proof. unfold count. lia. Qed.

Lemma settle_settled s : settled (settle_ s).
Proof. unfold settled. reflexivity. Qed.

(** Effects keep the mark inside where the handler left it there, or the list differs. *)
Lemma settle_inside s : (pl_seen s = (count w german s, trim (pl_text s)) → 0 < count w german s → 0 <= pl_active s < count w german s) → mark_inside (settle_ s).
Proof.
  intros Hs Hn. unfold settle in *. cbn [pl_seen pl_active fst] in *. pose proof (count_pos s). destruct (decide _) as [E|_]; [|lia].
  by apply Hs.
Qed.

Lemma inside_seen s : mark_inside s → pl_seen s = (count w german s, trim (pl_text s)) → 0 < count w german s → 0 <= pl_active s < count w german s.
Proof. unfold mark_inside. intros Hi E. rewrite E in Hi. exact Hi. Qed.

Lemma after_effects_same es s : pl_active (foldl after_effect s es) = pl_active s ∧ pl_seen (foldl after_effect s es) = pl_seen s.
Proof. revert s. induction es as [|e es IH]; intros s; cbn [foldl]; [done|]. destruct (IH (after_effect s e)) as [-> ->]. by destruct e. Qed.

Lemma step_inside s e : mark_inside s → mark_inside (step s e).1.
Proof.
  intros Hi. assert (∀ s', pl_seen s' = pl_seen s → pl_active s' = pl_active s → mark_inside (settle_ s')) as Hsame.
  { intros s' E1 E2. apply settle_inside. intros E Hn. unfold mark_inside in Hi. rewrite <- E1, E in Hi. rewrite E2. by apply Hi. }
  assert (∀ c now, mark_inside (settle_ (foldl after_effect s (cmd_run c now)))) as Hrun.
  { intros c now. destruct (after_effects_same (cmd_run c now) s). by apply Hsame. }
  destruct e as [m|text a|a| |key theme|i|i theme| |answer proposals| |]; cbn [palette_step handle].
  - apply settle_inside. unfold open_palette. destruct (pl_open s); cbn [pl_seen pl_active]; [|lia]. intros E Hn. unfold mark_inside in Hi. rewrite E in Hi. by apply Hi.
  - destruct (pl_open s); cbn [negb fst]; by apply Hsame.
  - assert (mark_inside (settle_ s)) as Hs by by apply Hsame. exact Hs.
  - by apply Hsame.
  - destruct (pl_open s); cbn [negb fst]; [|by apply Hsame]. destruct key; cbn [onKeyDown].
    + apply settle_inside. intros E Hn. change (count w german (with_active _ s)) with (count w german s) in *. pose proof (inside_seen s Hi E Hn). cbn [with_active pl_active]. lia.
    + apply settle_inside. intros E Hn. change (count w german (with_active _ s)) with (count w german s) in *. pose proof (inside_seen s Hi E Hn). cbn [with_active pl_active]. lia.
    + destruct (marked w german s); cbn [run_command fst]; [apply Hrun|by apply Hsame].
    + by apply Hsame.
    + by apply Hsame.
  - destruct (pl_open s); cbn [negb fst]; [|by apply Hsame]. destruct (decide _) as [Hl|]; [|by apply Hsame].
    apply settle_inside. intros E Hn. cbn [with_active pl_active]. change (count w german (with_active _ s)) with (count w german s). unfold count. lia.
  - destruct (pl_open s); cbn [negb fst]; [|by apply Hsame]. destruct (drawn w german s !! i); cbn [run_command fst]; [apply Hrun|by apply Hsame].
  - destruct (pl_open s); by apply Hsame.
  - destruct (pl_asking s); by apply Hsame.
  - by apply Hsame.
  - destruct (pl_open s); cbn [negb fst]; [|by apply Hsame]. destruct (pl_asked s) as [found|]; [|by apply Hsame].
    unfold goThere. destruct (aa_to found) as [to|]; [|by apply Hsame]. destruct (truthy to); by apply Hsame.
Qed.

Lemma run_inside a events : mark_inside (palette_run w german (palette_start w german a) events).
Proof.
  induction events as [|e events IH] using rev_ind; [|unfold palette_run in *; rewrite foldl_app; by apply step_inside].
  unfold palette_run, palette_start. cbn [foldl]. apply settle_inside. cbn [pl_seen]. intros E _. apply (f_equal fst) in E. cbn [fst] in E. pose proof (count_pos (mkPalette None EmptyString 0 a false None [] (-1, EmptyString) EmptyString)). lia.
Qed.

(** Whatever was typed, pointed at and answered, and in whatever order: once
    the effects of the last drawing have run, one of the commands drawn is marked as
    long as there is any, and Enter runs that one; with none Enter does nothing. *)
Theorem enter_runs_marked a events theme :
  let s := palette_run w german (palette_start w german a) events in
  settled s → pl_open s = true →
  (drawn w german s = [] → step s (Pressed Enter theme) = (settle_ s, [])) ∧
  (drawn w german s ≠ [] → ∃ c, marked w german s = Some c ∧ c ∈ drawn w german s ∧ (step s (Pressed Enter theme)).2 = cmd_run c theme).
Proof.
  intros s Hs Ho. pose proof (run_inside a events : mark_inside s) as Hi. split; intros Hd.
  - cbn [palette_step handle]. rewrite Ho. cbn [negb onKeyDown]. unfold marked. rewrite Hd. by destruct (_ <? _).
  - assert (0 < count w german s) as Hn by (unfold count; destruct (drawn w german s); [done|cbn [length]; lia]).
    pose proof (inside_seen s Hi Hs Hn) as Ha. destruct (lookup_lt_is_Some_2 (drawn w german s) (Z.to_nat (pl_active s))) as [c Hc]; [unfold count in Ha; lia|].
    exists c. assert (marked w german s = Some c) as Hm by (unfold marked; rewrite (proj2 (Z.ltb_ge _ _)) by lia; done).
    split_and!; [done|by apply list_elem_of_lookup_2 in Hc|]. cbn [palette_step handle]. rewrite Ho. cbn [negb onKeyDown]. by rewrite Hm.
Qed.
End Used.

(** ** Examples *)

Definition palette_words_en : PaletteWords :=
  mkPaletteWords (fun place => place) "Admin" guide_words_en "Pick a project" "Ask the assistant" "a model looks for you" "Open the issue"
    (fun page => "Admin / " +:+ page) (fun key page => key +:+ " / " +:+ page) "New issue" "Switch theme" "Collapse or expand the sidebar"
    "Search with a query" "you account" "admin settings".

Definition nobody : Answers := mkAnswers None None false None [] [] theme_system.

Lemma palette_keeps_admin_witness :
  Forall open_to_all (@commands unitCollation palette_words_en false mode_ask "installation name" nobody) ∧
  "answer:page:installation"%string ∈ map cmd_id (@commands unitCollation palette_words_en false mode_ask "installation name" nobody).
Proof. split; [by apply (@palette_keeps_admin unitCollation)|]. apply (bool_decide_unpack _). vm_compute. exact I. Defined.

Definition an_administrator : Answers := mkAnswers None (Some (mkAccess [] [] true true ["project.administer"%string] [])) false None [] [] theme_system.

Lemma place_found_by_name_witness :
  ∃ c, c ∈ @all_commands unitCollation palette_words_en false mode_command "aud" an_administrator ∧ cmd_id c = "place:/admin/audit"%string.
Proof.
  destruct (@place_found_by_name unitCollation palette_words_en false mode_command "aud" an_administrator
    (mkPlace "/admin/audit" "audit" "Shield" (Some "auditDetail"%string) None None)) as (c & Hc & _ & Hid & _).
  - unfold open_places. rewrite !elem_of_app. right. right. apply list_elem_of_fmap.
    exists (mkAdminPlace (mkPlace "/admin/audit" "audit" "Shield" (Some "auditDetail"%string) None None) adm_records). split; [done|].
    cbn. repeat first [left; reflexivity | right].
  - right. discriminate.
  - reflexivity.
  - exists c. split; [exact Hc|exact Hid].
Defined.

Lemma enter_runs_marked_witness :
  let s := @palette_run unitCollation palette_words_en false (@palette_start unitCollation palette_words_en false nobody)
             [OpenPalette mode_command; Pressed ArrowDown theme_dark] in
  ∃ c, cmd_id c = "place:/search"%string ∧ (@palette_step unitCollation palette_words_en false s (Pressed Enter theme_dark)).2 = cmd_run c theme_dark.
Proof.
  intros s. assert (@marked unitCollation palette_words_en false s ≠ None) as Hn by (vm_compute; discriminate).
  destruct (@enter_runs_marked unitCollation palette_words_en false nobody [OpenPalette mode_command; Pressed ArrowDown theme_dark] theme_dark) as [_ H].
  - vm_compute. reflexivity.
  - reflexivity.
  - destruct H as (c & Hm & _ & He); [vm_compute; discriminate|]. exists c. split; [|exact He].
    apply (f_equal (fmap cmd_id)) in Hm. vm_compute in Hm. by injection Hm.
Defined.

(** A project with everything, before somebody who may set it up: its pages fill the
    empty box, and neither the tool's places nor the actions are drawn. *)
Definition full_project : Project :=
  mkProject "1" "ALP" "Alpha" EmptyString software None None None None None None 0 0 None false false [] None
    [f_board; f_sprints; f_plan; f_calendar; f_resources; f_milestones; f_releases; f_components; f_hierarchy; f_dashboard; f_queues; f_desk; f_teams; f_repositories; f_automation; f_import]
    scrum by_team EmptyString EmptyString None.

Definition at_work : Answers :=
  mkAnswers (Some "ALP"%string) (Some (mkAccess [] [] true true ["project.administer"%string] [])) false (Some full_project) (repeat full_project 8) [] theme_system.

Lemma empty_box_cut : Forall (fun c => cmd_group c = g_projects ∨ startsWith (cmd_id c) "page:" = true) (@commands unitCollation palette_words_en false mode_command EmptyString at_work).
Proof. apply (bool_decide_unpack _). vm_compute. exact I. Qed.

(** What the assistant says to a question is drawn under another one typed since. *)
Lemma late_answer_drawn :
  let a := mkAnswers None None true None [] [] theme_system in
  let answer := mkAssistantAnswer "nobody knows" None None in
  let s := @palette_run unitCollation palette_words_en false (@palette_start unitCollation palette_words_en false a)
             [OpenPalette mode_ask; Typed "zzz" a; Pressed Enter theme_dark; Typed "who did this" a; Replied answer []] in
  pl_text s = "who did this"%string ∧ pl_asked s = Some answer.
Proof. split; vm_compute; reflexivity. Qed.

(** Two proposals of one kind: confirming the first takes the button off the second. *)
Lemma confirmed_by_kind p q : ap_tool p = ap_tool q →
  let c := (confirm_step (confirm_step (mkConfirming [] None) (ConfirmPressed p)).1 ConfirmSucceeded).1 in
  proposal_done c q = true ∧ (confirm_step c (ConfirmPressed q)).2 = [].
Proof.
  intros E. cbn. unfold proposal_done. cbn [cf_done app]. rewrite <- E. rewrite bool_decide_true by (by apply list_elem_of_singleton). done.
Qed.
