(* ===== verification/Automation.v ===== *)
(** Automation rules: [web/src/features/automation/RuleEditor.tsx],
    [RulesPanel.tsx] and [describe.ts], with the records of
    [web/src/api/automation.ts].

    The editor's controls are edits of a draft, each there only while the draft
    shows it; what is saved is made from the draft.  The panel is a state machine of
    the editor that is open and of the two requests it shows the errors of.  Numbers
    typed are exact rationals, as a number field only gives finite ones. *)

From Stdlib Require Import ZArith QArith Qround Lia Ascii String.
From stdpp Require Import base list strings.
From S2P Require Import Prelude JsString Config.

Open Scope Z_scope.

(** ** Data: [api/automation.ts] *)

Inductive DescriptorKind := d_trigger | d_condition | d_action.
#[export] Instance DescriptorKind_eq : EqDecision DescriptorKind.
Proof. solve_decision. Defined.

Record RuleOption := mkRuleOption {
  opt_name : string;
  opt_label : string;
  opt_roles : bool;
  opt_required : bool;
  opt_choices : list string;
}.

Record RuleDescriptor := mkRuleDescriptor {
  desc_kind : DescriptorKind;
  desc_type : string;
  desc_label : string;
  desc_description : string;
  desc_options : list RuleOption;
  desc_needsIssue : option bool;
}.

Inductive ScheduleUnit := unit_hours | unit_daily | unit_weekly.
#[export] Instance ScheduleUnit_eq : EqDecision ScheduleUnit.
Proof. solve_decision. Defined.

Record Schedule := mkSchedule {
  sch_unit : ScheduleUnit;
  sch_every : option Q;
  sch_at : option string;
  sch_weekday : option Z;
}.

Record Trigger := mkTrigger {
  tr_kind : string;
  tr_field : option string;
  tr_query : option string;
  tr_schedule : option Schedule;
  tr_token : option string;
}.

Record Condition := mkCondition {
  co_kind : string;
  co_query : option string;
  co_field : option string;
  co_value : option string;
  co_roles : option (list string);
}.

Record Action := mkAction {
  ac_kind : string;
  ac_field : option string;
  ac_value : option string;
  ac_text : option string;
  ac_subject : option string;
  ac_to : option string;
  ac_endpointId : option string;
}.

Record Rule := mkRule {
  rule_id : string;
  rule_name : string;
  rule_enabled : bool;
  rule_trigger : Trigger;
  rule_conditions : list Condition;
  rule_actions : list Action;
  rule_allowOwnEvents : bool;
  rule_hourlyCap : Q;
  rule_lastRunAt : option string;
}.

Record RuleInput := mkRuleInput {
  in_name : string;
  in_enabled : option bool;
  in_trigger : Trigger;
  in_conditions : list Condition;
  in_actions : list Action;
  in_allowOwnEvents : bool;
  in_hourlyCap : option Q;
}.

(** ** The draft: [RuleEditor.tsx] *)

Definition trigger_of (kind : string) : Trigger := mkTrigger kind None None None None.
Definition action_of (kind : string) : Action := mkAction kind None None None None None None.


Definition fromRule (rule : Rule) : RuleInput :=
  mkRuleInput (rule_name rule) (Some (rule_enabled rule)) (rule_trigger rule) (rule_conditions rule) (rule_actions rule)
    (rule_allowOwnEvents rule) (Some (rule_hourlyCap rule)).

Definition shown_weekday (t : Trigger) : Z := default RULE_WEEKDAY_ABSENT (tr_schedule t ≫= sch_weekday).







Definition scheduled (t : Trigger) : bool := bool_decide (tr_kind t = "scheduled"%string).
Definition watches_field (t : Trigger) : bool := bool_decide (tr_kind t = "issue.updated"%string).











(** ** A rule in a sentence: [describe.ts] *)

Definition labelFor (catalog : list RuleDescriptor) (kind : DescriptorKind) (type : string) : string :=
  default type (desc_label <$> head (filter (fun d => desc_kind d = kind ∧ desc_type d = type) catalog)).

(** [t.projectSetup.describe]. *)
Record DescribeWords := mkDescribeWords {
  dw_when : string → string;
  dw_if : string → string;
  dw_then : string → string;
  dw_and : string;
  dw_thenNext : string;
  dw_or : string;
  dw_trigger : string → string;
  dw_fieldChanges : string → string;
  dw_everyHours : Q → string → string;
  dw_daily : string → string → string;
  dw_weekly : string → string → string;
  dw_matches : string → string;
  dw_fieldIs : string → string → string;
  dw_actorIs : string → string;
  dw_setField : string → string → string;
  dw_take : string → string;
  dw_assignTo : string → string;
  dw_addLabel : string → string;
  dw_addComment : string;
  dw_createSubtask : string;
  dw_createIssue : string;
  dw_sendWebhook : string;
  dw_mail : string → string;
}.

Section Describe.
Context (w : DescribeWords).

Definition triggerWords (trigger : Trigger) (catalog : list RuleDescriptor) : string :=
  let base := labelFor catalog d_trigger (tr_kind trigger) in
  let query := default EmptyString (tr_query trigger) in
  let scheduled_words :=
    match tr_schedule trigger with
    | Some s =>
        if scheduled trigger then
          match sch_unit s with
          | unit_hours => dw_everyHours w (default 1%Q (sch_every s)) query
          | unit_daily => dw_daily w (default EmptyString (sch_at s)) query
          | unit_weekly => dw_weekly w (default EmptyString (sch_at s)) query
          end
        else dw_trigger w base
    | None => dw_trigger w base
    end in
  match tr_field trigger with
  | Some field => if watches_field trigger && truthy field then dw_fieldChanges w field else scheduled_words
  | None => scheduled_words
  end.

Definition conditionWords (c : Condition) : string :=
  if decide (co_kind c = "nql") then dw_matches w (default EmptyString (co_query c))
  else if decide (co_kind c = "field_equals") then dw_fieldIs w (default EmptyString (co_field c)) (default EmptyString (co_value c))
  else if decide (co_kind c = "actor_role") then dw_actorIs w (join (dw_or w) (default [] (co_roles c)))
  else co_kind c.

Definition actionWords (a : Action) : string :=
  let k := ac_kind a in let value := default EmptyString (ac_value a) in
  if decide (k = "set_field") then dw_setField w (default EmptyString (ac_field a)) value
  else if decide (k = "transition") then dw_take w value
  else if decide (k = "assign") then dw_assignTo w value
  else if decide (k = "add_label") then dw_addLabel w value
  else if decide (k = "add_comment") then dw_addComment w
  else if decide (k = "create_subissue") then dw_createSubtask w
  else if decide (k = "create_issue") then dw_createIssue w
  else if decide (k = "send_webhook") then dw_sendWebhook w
  else if decide (k = "send_mail") then dw_mail w (default EmptyString (ac_to a))
  else k.

Definition describeRule (trigger : Trigger) (conditions : list Condition) (actions : list Action) (catalog : list RuleDescriptor) : string :=
  join ", " ([dw_when w (triggerWords trigger catalog)] ++
    (match conditions with [] => [] | _ => [dw_if w (join (dw_and w) (map conditionWords conditions))] end) ++
    [dw_then w (join (dw_thenNext w) (map actionWords actions))]) +:+ ".".
End Describe.

(** ** The panel: [RulesPanel.tsx] *)

(** A request as the page sees it; [closes] while it is one whose success closes the editor. *)
Inductive Saving := saving_idle | saving_pending (closes : bool) | saving_failed (message : string).

Inductive Editing := editing_none | editing_new | editing_rule (r : Rule).

Record RulesPanel := mkRulesPanel { rp_editing : Editing; rp_create : Saving; rp_update : Saving }.

Definition panel_start : RulesPanel := mkRulesPanel editing_none saving_idle saving_idle.

Definition error_of (s : Saving) : option string := match s with saving_failed m => Some m | _ => None end.
Definition pending (s : Saving) : bool := match s with saving_pending _ => true | _ => false end.

Definition saveError (p : RulesPanel) : option string :=
  match rp_editing p with editing_new => error_of (rp_create p) | _ => error_of (rp_update p) end.
Definition saving (p : RulesPanel) : bool := pending (rp_create p) || pending (rp_update p).

Inductive RulesRequest := CreateRule (input : RuleInput) | UpdateRule (id : string) (input : RuleInput).

(** What is sent to turn a rule on or off. *)
Definition toggled (r : Rule) : RuleInput :=
  mkRuleInput (rule_name r) (Some (negb (rule_enabled r))) (rule_trigger r) (rule_conditions r) (rule_actions r) (rule_allowOwnEvents r) (Some (rule_hourlyCap r)).

Inductive PanelEvent :=
| NewPressed | EditPicked (r : Rule) | EditorClosed | SavePressed (input : RuleInput) | TogglePicked (r : Rule)
| CreateAnswered (refused : option string) | UpdateAnswered (refused : option string).

Definition answered (refused : option string) : Saving := match refused with Some m => saving_failed m | None => saving_idle end.

Definition panel_step (p : RulesPanel) (e : PanelEvent) : RulesPanel * list RulesRequest :=
  match e with
  | NewPressed => (mkRulesPanel editing_new (rp_create p) (rp_update p), [])
  | EditPicked r => (mkRulesPanel (editing_rule r) (rp_create p) (rp_update p), [])
  | EditorClosed => (mkRulesPanel editing_none (rp_create p) (rp_update p), [])
  | SavePressed input =>
      if saving p then (p, [])
      else match rp_editing p with
      | editing_new => (mkRulesPanel editing_new (saving_pending true) (rp_update p), [CreateRule input])
      | editing_rule r => (mkRulesPanel (editing_rule r) (rp_create p) (saving_pending true), [UpdateRule (rule_id r) input])
      | editing_none => (p, [])
      end
  | TogglePicked r => (mkRulesPanel (rp_editing p) (rp_create p) (saving_pending false), [UpdateRule (rule_id r) (toggled r)])
  | CreateAnswered refused =>
      match rp_create p with
      | saving_pending closes => (mkRulesPanel (match refused with None => if closes then editing_none else rp_editing p | Some _ => rp_editing p end) (answered refused) (rp_update p), [])
      | _ => (p, [])
      end
  | UpdateAnswered refused =>
      match rp_update p with
      | saving_pending closes => (mkRulesPanel (match refused with None => if closes then editing_none else rp_editing p | Some _ => rp_editing p end) (rp_create p) (answered refused), [])
      | _ => (p, [])
      end
  end.

Definition panel_run (p : RulesPanel) (events : list PanelEvent) : RulesPanel := foldl (fun p e => (panel_step p e).1) p events.

(** ** What the form shows *)

Inductive ConditionPart := pick_condition | condition_query | condition_field | condition_value | condition_role (role : string).
Inductive ActionPart := pick_action | action_field | action_value | action_label | action_text | action_endpoint | action_mail_to | action_subject.

(** A control of the form; the rows of conditions and of actions are counted from 0. *)
Inductive Control :=
| NameBox | TriggerBox | WatchBox | QueryBox | RhythmBox | EveryBox | AtBox | WeekdayBox | CapBox | OwnBox
| ConditionBox (i : nat) (part : ConditionPart) | ActionBox (i : nat) (part : ActionPart).

#[export] Instance ConditionPart_eq : EqDecision ConditionPart.
Proof. solve_decision. Defined.
#[export] Instance ActionPart_eq : EqDecision ActionPart.
Proof. solve_decision. Defined.
#[export] Instance Control_eq : EqDecision Control.
Proof. solve_decision. Defined.







(** ** What is saved is what the form shows *)

Definition given {A} (b : bool) (o : option A) : Prop := is_Some o → b = true.






Lemma given_none {A} b : given b (@None A).
Proof. by intros [x [=]]. Qed.
Lemma given_true {A} (o : option A) : given true o.
Proof. done. Qed.
#[local] Hint Resolve given_none given_true : core.





































(** A weekly rule stored without a day runs on Sunday, and its form shows Sunday; the
    day is said only once it is touched. *)
Example absent_weekday : shown_weekday (mkTrigger "scheduled" None None (Some (mkSchedule unit_weekly None (Some "09:00"%string) None)) None) = 0.
Proof. reflexivity. Qed.

(** ** The sentence *)

Definition describe_en : DescribeWords :=
  mkDescribeWords (fun x => "When " +:+ x) (fun x => "if " +:+ x) (fun x => "then " +:+ x) " and " ", then " " or "
    (fun label => match label with EmptyString => EmptyString | String c r => String (lower c) r end)
    (fun field => field +:+ " changes")
    (fun every query => "every " +:+ stringOfInt (Qfloor every) +:+ " hour" +:+ (if Qeq_bool every 1 then EmptyString else "s") +:+ ", over " +:+ query)
    (fun at_ query => "daily at " +:+ at_ +:+ ", over " +:+ query) (fun at_ query => "weekly at " +:+ at_ +:+ ", over " +:+ query)
    (fun query => "it matches " +:+ query) (fun field value => field +:+ " is " +:+ value) (fun roles => "the actor is " +:+ roles)
    (fun field value => "set " +:+ field +:+ " to " +:+ value) (fun x => "take " +:+ x) (fun who => "assign to " +:+ who) (fun l => "add the label " +:+ l)
    "add a comment" "create a subtask" "create an issue" "send a webhook" (fun to => "mail " +:+ to).

Example rule_sentence :
  describeRule describe_en (trigger_of "issue.transitioned") [mkCondition "field_equals" None (Some "priority"%string) (Some "high"%string) None]
    [mkAction "add_label" None (Some "hot"%string) None None None None; action_of "send_webhook"]
    [mkRuleDescriptor d_trigger "issue.transitioned" "An issue moves" EmptyString [] None; mkRuleDescriptor d_trigger "issue.updated" "A field changes" EmptyString [] None] =
  "When an issue moves, if priority is high, then add the label hot, then send a webhook."%string.
Proof. reflexivity. Qed.

Example rhythm_sentence :
  describeRule describe_en (mkTrigger "scheduled" None (Some "due < now()"%string) (Some (mkSchedule unit_hours (Some 2%Q) None None)) None) []
    [mkAction "assign" None (Some "reporter"%string) None None None None] [] = "When every 2 hours, over due < now(), then assign to reporter."%string.
Proof. reflexivity. Qed.

(** ** The panel *)

Definition waiting_closes (p : RulesPanel) : Prop := rp_create p = saving_pending true ∨ rp_update p = saving_pending true.

(** The editor closes by its button or by an answer that closes it, and by nothing else. *)
Lemma editor_stays p e :
  rp_editing p ≠ editing_none → rp_editing (panel_step p e).1 = editing_none → e = EditorClosed ∨ (waiting_closes p ∧ (e = CreateAnswered None ∨ e = UpdateAnswered None)).
Proof.
  intros Hp He. destruct e as [|r| |input|r|[m|]|[m|]]; cbn [panel_step] in He; try done; auto.
  - destruct (saving p); [done|]. by destruct (rp_editing p).
  - destruct (rp_create p) as [|c|]; done.
  - destruct (rp_create p) as [|[]|] eqn:E; try done. right. unfold waiting_closes. rewrite E. auto.
  - destruct (rp_update p) as [|c|]; done.
  - destruct (rp_update p) as [|[]|] eqn:E; try done. right. unfold waiting_closes. rewrite E. auto.
Qed.

(** A save answered after its editor was closed closes the editor opened since. *)
Lemma late_save_closes r r' input :
  rp_editing (panel_run panel_start [EditPicked r; SavePressed input; EditorClosed; EditPicked r']) = editing_rule r' ∧
  rp_editing (panel_run panel_start [EditPicked r; SavePressed input; EditorClosed; EditPicked r'; UpdateAnswered None]) = editing_none.
Proof. by split. Qed.

(** What was refused when a rule was turned on is said in the editor opened next. *)
Lemma stale_error_said r r' m : saveError (panel_run panel_start [TogglePicked r; UpdateAnswered (Some m); EditPicked r']) = Some m.
Proof. done. Qed.
