(* ===== verification/Labels.v ===== *)
(** The box labels are typed into: [web/src/features/labels/LabelInput.tsx].

    The box is a state machine: what it offers depends on the word typed and on the
    last answer of the server, which may arrive between any two events; the names
    chosen are the caller's, who takes over every change the box tells of. *)

From Stdlib Require Import ZArith Lia Ascii String.
From stdpp Require Import base list strings.
From S2P Require Import Prelude JsString ApiPlan.

Open Scope Z_scope.

(** ** The word and the rows *)

(** A row under the box: a label the server has, or the typed word to create. *)
Record LabelRow := mkLabelRow { lr_name : string; lr_label : option LabelRef }.

Definition same_name (a b : string) : bool := bool_decide (toLowerCase a = toLowerCase b).

(** A text without the commas at its end. *)
Fixpoint without_commas (s : string) : string :=
  match s with
  | EmptyString => EmptyString
  | String c s' => match without_commas s' with EmptyString => if bool_decide (c = ","%char) then EmptyString else String c EmptyString | r => String c r end
  end.

(** What the caller asks of the box: one label or many, whether a word may be coined,
    whether leaving the box adds it, and the labels already held. *)
Record LabelBoxProps := mkLabelBoxProps { lp_one : bool; lp_create : bool; lp_commitOnBlur : bool; lp_known : list LabelRef }.

(** [lb_seen]: every label the server has shown, by its name in small letters. *)
Record LabelBox := mkLabelBox {
  lb_value : list string;
  lb_draft : string;
  lb_focused : bool;
  lb_dismissed : bool;
  lb_active : Z;
  lb_seen : list (string * LabelRef);
  lb_data : option (list LabelRef);
}.

Section Box.
Context (p : LabelBoxProps).

Definition typed (b : LabelBox) : string := without_commas (trim (lb_draft b)).
Definition found (b : LabelBox) : list LabelRef := if truthy (typed b) then default [] (lb_data b) else [].

Definition see (seen : list (string * LabelRef)) (l : LabelRef) : list (string * LabelRef) := jset seen (toLowerCase (label_name l)) l.

(** Drawing the box: the labels held and found are remembered. *)
Definition draw_box (b : LabelBox) : LabelBox :=
  mkLabelBox (lb_value b) (lb_draft b) (lb_focused b) (lb_dismissed b) (lb_active b) (foldl see (foldl see (lb_seen b) (lp_known p)) (found b)) (lb_data b).

Definition holds_name (names : list string) (name : string) : bool := existsb (fun each => same_name each name) names.

Definition label_taken (b : LabelBox) : bool :=
  existsb (fun l => same_name (label_name l) (typed b)) (found b) || holds_name (lb_value b) (typed b).

Definition label_rows (b : LabelBox) : list LabelRow :=
  map (fun l => mkLabelRow (label_name l) (Some l)) (filter (fun l => holds_name (lb_value b) (label_name l) = false) (found b)) ++
  if lp_create p && truthy (typed b) && negb (label_taken b) then [mkLabelRow (typed b) None] else [].

Definition label_list_open (b : LabelBox) : bool :=
  lb_focused b && negb (lb_dismissed b) && truthy (typed b) && negb (bool_decide (length (label_rows b) = O)).

Definition chosen_labels (b : LabelBox) (names : list string) : list LabelRef := omap (fun name => jget (lb_seen b) (toLowerCase name)) names.

(** What the caller is told. *)
Definition LabelChange : Type := list string * list LabelRef.

Definition with_box (draft : string) (active : Z) (value : list string) (b : LabelBox) : LabelBox :=
  mkLabelBox value draft (lb_focused b) (lb_dismissed b) active (lb_seen b) (lb_data b).

Definition add_row (row : option LabelRow) (b : LabelBox) : LabelBox * list LabelChange :=
  match row with
  | None => (b, [])
  | Some r =>
      if holds_name (lb_value b) (lr_name r) then (with_box EmptyString (-1) (lb_value b) b, [])
      else
        let names := if lp_one p then [lr_name r] else lb_value b ++ [lr_name r] in
        (with_box EmptyString (-1) names b, [(names, chosen_labels b names)])
  end.

Definition addTyped (b : LabelBox) : LabelBox * list LabelChange :=
  if negb (truthy (typed b)) then (b, [])
  else match jget (lb_seen b) (toLowerCase (typed b)) with
  | Some existing => add_row (Some (mkLabelRow (label_name existing) (Some existing))) b
  | None => if lp_create p then add_row (Some (mkLabelRow (typed b) None)) b else (b, [])
  end.

Definition remove_label (name : string) (b : LabelBox) : LabelBox * list LabelChange :=
  let names := filter (fun each => each ≠ name) (lb_value b) in
  (with_box (lb_draft b) (lb_active b) names b, [(names, chosen_labels b names)]).

Definition with_box_active (i : Z) (b : LabelBox) : LabelBox := with_box (lb_draft b) i (lb_value b) b.

Inductive LabelKey := key_down | key_up | key_enter | key_comma | key_escape | key_backspace | key_other.

Definition row_at (b : LabelBox) (i : Z) : option LabelRow := if i <? 0 then None else label_rows b !! Z.to_nat i.

Definition label_key (key : LabelKey) (b : LabelBox) : LabelBox * list LabelChange :=
  let n := Z.of_nat (length (label_rows b)) in
  match key with
  | key_down => if label_list_open b then (with_box_active (Z.rem (lb_active b + 1) n) b, []) else (b, [])
  | key_up => if label_list_open b then (with_box_active (if lb_active b <=? 0 then n - 1 else lb_active b - 1) b, []) else (b, [])
  | key_enter =>
      if negb (truthy (typed b)) then (b, [])
      else if label_list_open b && (0 <=? lb_active b) then add_row (row_at b (lb_active b)) b else addTyped b
  | key_comma => if label_list_open b && (0 <=? lb_active b) then add_row (row_at b (lb_active b)) b else addTyped b
  | key_escape =>
      if label_list_open b then (mkLabelBox (lb_value b) (lb_draft b) (lb_focused b) true (-1) (lb_seen b) (lb_data b), []) else (b, [])
  | key_backspace =>
      match last (lb_value b) with
      | Some l => if truthy (lb_draft b) then (b, []) else remove_label l b
      | None => (b, [])
      end
  | key_other => (b, [])
  end.

(** A row and a chip are pointed at by their place; [LabelsFound] is an answer of the
    server, or that there is none for the word. *)
Inductive LabelEvent :=
| LabelTyped (text : string) | LabelPressed (key : LabelKey) | BoxFocused | BoxBlurred
| RowPressed (i : nat) | RowHovered (i : nat) | ChipRemoved (i : nat) | LabelsFound (data : option (list LabelRef)).

Definition label_handle (b : LabelBox) (e : LabelEvent) : LabelBox * list LabelChange :=
  match e with
  | LabelTyped text => (mkLabelBox (lb_value b) text (lb_focused b) false (-1) (lb_seen b) (lb_data b), [])
  | LabelPressed key => label_key key b
  | BoxFocused => (mkLabelBox (lb_value b) (lb_draft b) true (lb_dismissed b) (lb_active b) (lb_seen b) (lb_data b), [])
  | BoxBlurred =>
      let b' := mkLabelBox (lb_value b) (lb_draft b) false (lb_dismissed b) (-1) (lb_seen b) (lb_data b) in
      if lp_commitOnBlur p then addTyped b' else (b', [])
  | RowPressed i => if label_list_open b then add_row (label_rows b !! i) b else (b, [])
  | RowHovered i => if label_list_open b && bool_decide (i < length (label_rows b))%nat then (with_box_active (Z.of_nat i) b, []) else (b, [])
  | ChipRemoved i => match lb_value b !! i with Some name => remove_label name b | None => (b, []) end
  | LabelsFound data => (mkLabelBox (lb_value b) (lb_draft b) (lb_focused b) (lb_dismissed b) (lb_active b) (lb_seen b) data, [])
  end.

Definition label_step (b : LabelBox) (e : LabelEvent) : LabelBox * list LabelChange := let '(b', out) := label_handle b e in (draw_box b', out).

Definition label_start (value : list string) : LabelBox := draw_box (mkLabelBox value EmptyString false false (-1) [] None).
Definition label_run (b : LabelBox) (events : list LabelEvent) : LabelBox := foldl (fun b e => (label_step b e).1) b events.
End Box.

(** ** What is chosen *)

Lemma same_name_spec a b : same_name a b = true ↔ toLowerCase a = toLowerCase b.
Proof. unfold same_name. apply bool_decide_eq_true. Qed.

Lemma holds_name_spec names n : holds_name names n = true ↔ toLowerCase n ∈ map toLowerCase names.
Proof.
  unfold holds_name. rewrite existsb_exists, list_elem_of_fmap. split.
  - intros (x & Hx & E). apply same_name_spec in E. exists x. split; [done|by apply list_elem_of_In].
  - intros (x & E & Hx). exists x. split; [by apply list_elem_of_In|]. by apply same_name_spec.
Qed.

(** The labels seen are kept by their own names. *)
Definition seen_ok (seen : list (string * LabelRef)) : Prop := Forall (fun e => e.1 = toLowerCase (label_name e.2)) seen.

Record box_ok (p : LabelBoxProps) (b : LabelBox) : Prop := mkBoxOk {
  bx_apart : NoDup (map toLowerCase (lb_value b));
  bx_one : lp_one p = true → (length (lb_value b) <= 1)%nat;
  bx_seen : seen_ok (lb_seen b);
}.

Lemma see_ok seen ls : seen_ok seen → seen_ok (foldl see seen ls).
Proof. revert seen. induction ls as [|l ls IH]; intros seen Hs; cbn [foldl]; [done|]. apply IH. by apply Forall_jset. Qed.

Lemma draw_box_ok p b : box_ok p b → box_ok p (draw_box p b).
Proof. intros [H1 H2 H3]. split; [done|done|]. by apply see_ok, see_ok. Qed.

Lemma with_box_ok p b draft active value :
  box_ok p b → NoDup (map toLowerCase value) → (lp_one p = true → (length value <= 1)%nat) → box_ok p (with_box draft active value b).
Proof. by intros [H1 H2 H3] ??; split. Qed.

(** What a handler may have done: the box stays in order, and every change told is
    the value it now has, whose new name is one that may be coined or a label's. *)
Record handled_well (p : LabelBoxProps) (b : LabelBox) (r : LabelBox * list LabelChange) : Prop := mkHandledWell {
  hw_ok : box_ok p r.1;
  hw_told : ∀ c, c ∈ r.2 → c.1 = lb_value r.1 ∧ ∀ l, l ∈ c.2 → ∃ n, n ∈ c.1 ∧ toLowerCase n = toLowerCase (label_name l);
  hw_quiet : r.2 = [] → lb_value r.1 = lb_value b;
  hw_new : ∀ n, n ∈ lb_value r.1 → n ∈ lb_value b ∨ lp_create p = true ∨ ∃ l, l ∈ found b ++ map snd (lb_seen b) ∧ label_name l = n;
}.

Lemma chosen_are b names l : seen_ok (lb_seen b) → l ∈ chosen_labels b names → ∃ n, n ∈ names ∧ toLowerCase n = toLowerCase (label_name l).
Proof.
  intros Hs Hl. apply list_elem_of_omap in Hl as (n & Hn & E). exists n. split; [done|]. unfold seen_ok in Hs. rewrite Forall_forall in Hs.
  apply jget_elem in E. by apply Hs in E.
Qed.

Lemma same_value_well p b b' : box_ok p b' → lb_value b' = lb_value b → handled_well p b (b', []).
Proof.
  intros H E. split; cbn [fst snd]; [done| |done|].
  - intros c Hc. by apply elem_of_nil in Hc.
  - intros n Hn. left. by rewrite <- E.
Qed.

Lemma stay_well p b : box_ok p b → handled_well p b (b, []).
Proof. intros H. by apply same_value_well. Qed.

(** A row that may be added: a label that is known, or the word where words are coined. *)
Definition may_add (p : LabelBoxProps) (b : LabelBox) (r : LabelRow) : Prop :=
  lp_create p = true ∨ ∃ l, l ∈ found b ++ map snd (lb_seen b) ∧ label_name l = lr_name r.

Lemma add_row_well p b row : box_ok p b → (∀ r, row = Some r → may_add p b r) → handled_well p b (add_row p row b).
Proof.
  intros Hb Hr. destruct row as [r|]; cbn [add_row]; [|by apply stay_well]. specialize (Hr r eq_refl).
  pose proof Hb as [H1 H2 H3]. destruct (holds_name _ _) eqn:E.
  - apply same_value_well; [|done]. by apply with_box_ok.
  - assert (toLowerCase (lr_name r) ∉ map toLowerCase (lb_value b)) as Hn by (intros Hn; apply holds_name_spec in Hn; congruence).
    split; cbn [fst snd with_box lb_value]; [apply with_box_ok; [done| |]| |done|].
    + destruct (lp_one p); [apply NoDup_singleton|]. rewrite map_app. apply NoDup_app. split_and!; [done| |apply NoDup_singleton].
      intros x Hx Hx'. apply list_elem_of_singleton in Hx'. by subst x.
    + intros E1. rewrite E1. cbn. lia.
    + intros c Hc. apply list_elem_of_singleton in Hc as ->. cbn [fst snd]. split; [done|]. intros l Hl. by apply (chosen_are b).
    + intros n Hin. assert (n ∈ lb_value b ∨ n = lr_name r) as [?| ->]; [|by left|].
      { destruct (lp_one p); [apply list_elem_of_singleton in Hin; by right|]. apply elem_of_app in Hin as [Hin|Hin]; [by left|]. right. by apply list_elem_of_singleton in Hin. }
      right. destruct Hr as [?|?]; auto.
Qed.

Lemma addTyped_well p b : box_ok p b → handled_well p b (addTyped p b).
Proof.
  intros Hb. unfold addTyped. destruct (truthy _); cbn [negb]; [|by apply stay_well]. destruct (jget _ _) as [l|] eqn:E.
  - apply add_row_well; [done|]. intros r [= <-]. right. exists l. split; [|done]. apply elem_of_app. right. apply list_elem_of_fmap. apply jget_elem in E. by eexists (_, l).
  - destruct (lp_create p) eqn:Ec; [|by apply stay_well]. apply add_row_well; [done|]. intros r [= <-]. by left.
Qed.

Lemma rows_may_add p b i r : label_rows p b !! i = Some r → may_add p b r.
Proof.
  intros Hr. apply list_elem_of_lookup_2 in Hr. unfold label_rows in Hr. apply elem_of_app in Hr as [Hr|Hr].
  - apply list_elem_of_fmap in Hr as (l & -> & Hl). apply list_elem_of_filter in Hl as [_ Hl]. right. exists l. split; [|done]. apply elem_of_app. by left.
  - destruct (lp_create p) eqn:E; [by left|]. by apply elem_of_nil in Hr.
Qed.

Lemma remove_well p b name : box_ok p b → handled_well p b (remove_label name b).
Proof.
  intros Hb. pose proof Hb as [H1 H2 H3]. unfold remove_label. split; cbn [fst snd with_box lb_value]; [apply with_box_ok; [done| |]| |done|].
  - by apply NoDup_map_filter.
  - intros Ho. specialize (H2 Ho). pose proof (length_filter (fun each => each ≠ name) (lb_value b)). lia.
  - intros c Hc. apply list_elem_of_singleton in Hc as ->. cbn [fst snd]. split; [done|]. intros l Hl. by apply (chosen_are b).
  - intros n Hn. apply list_elem_of_filter in Hn as [_ Hn]. by left.
Qed.

Lemma label_handle_well p b e : box_ok p b → handled_well p b (label_handle p b e).
Proof.
  intros Hb. pose proof Hb as [H1 H2 H3].
  destruct e as [text|key| | |i|i|i|data]; cbn [label_handle].
  - by apply same_value_well.
  - destruct key; cbn [label_key].
    + destruct (label_list_open p b); [|by apply stay_well]. apply same_value_well; [by apply with_box_ok|done].
    + destruct (label_list_open p b); [|by apply stay_well]. apply same_value_well; [by apply with_box_ok|done].
    + destruct (truthy _); cbn [negb]; [|by apply stay_well]. destruct (_ && _); [|by apply addTyped_well].
      apply add_row_well; [done|]. intros r. unfold row_at. destruct (_ <? _); [done|]. apply rows_may_add.
    + destruct (_ && _); [|by apply addTyped_well]. apply add_row_well; [done|]. intros r. unfold row_at. destruct (_ <? _); [done|]. apply rows_may_add.
    + destruct (label_list_open p b); [|by apply stay_well]. by apply same_value_well.
    + destruct (last _); [|by apply stay_well]. destruct (truthy _); [by apply stay_well|by apply remove_well].
    + by apply stay_well.
  - by apply same_value_well.
  - set (b' := mkLabelBox _ _ _ _ _ _ _). assert (box_ok p b') as Hb' by by split. destruct (lp_commitOnBlur p); [|by apply same_value_well].
    by destruct (addTyped_well p b' Hb'); split.
  - destruct (label_list_open p b); [|by apply stay_well]. apply add_row_well; [done|]. intros r. apply rows_may_add.
  - destruct (_ && _); [|by apply stay_well]. apply same_value_well; [by apply with_box_ok|done].
  - destruct (_ !! i); [by apply remove_well|by apply stay_well].
  - by apply same_value_well.
Qed.

Lemma label_step_ok p b e : box_ok p b → box_ok p (label_step p b e).1.
Proof. intros Hb. unfold label_step. pose proof (hw_ok _ _ _ (label_handle_well p b e Hb)) as H. destruct (label_handle p b e). by apply draw_box_ok. Qed.

Lemma label_run_ok p b events : box_ok p b → box_ok p (label_run p b events).
Proof. intros Hb. induction events as [|e events IH] using rev_ind; [done|]. unfold label_run. rewrite foldl_app. by apply label_step_ok. Qed.

Lemma label_start_ok p value : NoDup (map toLowerCase value) → (lp_one p = true → (length value <= 1)%nat) → box_ok p (label_start p value).
Proof. intros H1 H2. apply draw_box_ok. split; [done|done|apply Forall_nil_2]. Qed.

(** However labels are typed, picked and taken off, and whenever the server
    answers: no two chosen differ by their case alone, and a box for one label holds one;
    the caller is told of every change, with exactly the names now chosen and labels the
    server has by those names; and where no label may be coined every new name is that
    of a label the server has shown. *)
Theorem labels_chosen_apart p value events e :
  NoDup (map toLowerCase value) → (lp_one p = true → (length value <= 1)%nat) →
  let b := label_run p (label_start p value) events in
  let '(b', told) := label_step p b e in
  NoDup (map toLowerCase (lb_value b')) ∧ (lp_one p = true → (length (lb_value b') <= 1)%nat) ∧
  (told = [] → lb_value b' = lb_value b) ∧
  (∀ names labels, (names, labels) ∈ told → names = lb_value b' ∧ ∀ l, l ∈ labels → ∃ n, n ∈ names ∧ toLowerCase n = toLowerCase (label_name l)) ∧
  (lp_create p = false → ∀ n, n ∈ lb_value b' → n ∈ lb_value b ∨ ∃ l, l ∈ found b ++ map snd (lb_seen b) ∧ label_name l = n).
Proof.
  intros H1 H2 b. assert (box_ok p b) as Hb by (apply label_run_ok, label_start_ok; done).
  pose proof (label_handle_well p b e Hb) as [Hok Htold Hquiet Hnew]. unfold label_step. destruct (label_handle p b e) as [b' told] eqn:E. cbn [fst snd] in *.
  destruct Hok as [K1 K2 _]. cbn [draw_box lb_value]. split_and!; [done|done|done| |].
  - intros names labels Hc. apply (Htold _ Hc).
  - intros Hc n Hn. destruct (Hnew n Hn) as [?|[?|?]]; [by left|congruence|by right].
Qed.

Lemma labels_chosen_apart_witness :
  let p := mkLabelBoxProps false true true [mkLabelRef "1" "Backend" gray] in
  let b := label_run p (label_start p ["Backend"]) [BoxFocused; LabelTyped "BACKEND,"; LabelPressed key_enter; LabelTyped "ui"] in
  let b' := (label_step p b BoxBlurred).1 in
  NoDup (map toLowerCase (lb_value b')) ∧ lb_value b' = ["Backend"; "ui"]%string.
Proof.
  intros p b b'. pose proof (labels_chosen_apart p ["Backend"] [BoxFocused; LabelTyped "BACKEND,"; LabelPressed key_enter; LabelTyped "ui"] BoxBlurred) as H.
  cbv zeta in H. fold p b in H. destruct (label_step p b BoxBlurred) as [b1 told] eqn:E. subst b'. cbn [fst].
  destruct H as [H1 _]; [apply NoDup_singleton|discriminate|]. split; [exact H1|]. apply (f_equal (fun r => lb_value r.1)) in E. vm_compute in E. symmetry. exact E.
Defined.

(** Leaving the box, or a comma, loses no word where words may be coined. *)
Lemma blurred_word_kept p b :
  box_ok p b → lp_create p = true → lp_commitOnBlur p = true → truthy (typed b) = true → holds_name (lb_value (label_step p b BoxBlurred).1) (typed b) = true.
Proof.
  intros [_ _ Hs] Hc Hbl Ht. unfold label_step. cbn [label_handle]. rewrite Hbl. set (b' := mkLabelBox _ _ _ _ _ _ _).
  assert (∀ row, toLowerCase (lr_name row) = toLowerCase (typed b) → holds_name (lb_value (draw_box p (add_row p (Some row) b').1)) (typed b) = true) as Hadd.
  { intros row E. apply holds_name_spec. rewrite <- E. cbn [add_row]. destruct (holds_name _ _) eqn:Eh; cbn [fst draw_box with_box lb_value]; [by apply holds_name_spec|].
    destruct (lp_one p); cbn; [by left|]. rewrite map_app, elem_of_app. right. by left. }
  unfold addTyped. change (typed b') with (typed b). rewrite Ht, Hc. cbn [negb].
  destruct (jget (lb_seen b') (toLowerCase (typed b))) as [l|] eqn:E.
  - specialize (Hadd (mkLabelRow (label_name l) (Some l))). destruct (add_row _ _ _). apply Hadd. apply jget_elem in E. unfold seen_ok in Hs. rewrite Forall_forall in Hs. symmetry. apply (Hs _ E).
  - specialize (Hadd (mkLabelRow (typed b) None)). destruct (add_row _ _ _). by apply Hadd.
Qed.

(** A comma after a blank leaves the blank at the end of the label's name. *)
Lemma blank_before_comma :
  let p := mkLabelBoxProps false true true [] in
  lb_value (label_run p (label_start p []) [LabelTyped "ui ,"; LabelPressed key_enter]) = ["ui "]%string.
Proof. reflexivity. Qed.

(** The row marked may be gone with the next answer: Enter then adds nothing. *)
Lemma marked_label_gone :
  let p := mkLabelBoxProps false true true [] in
  let b := label_run p (label_start p []) [BoxFocused; LabelTyped "u"; LabelsFound (Some [mkLabelRef "1" "ui" gray; mkLabelRef "2" "up" gray]);
    LabelPressed key_up; LabelsFound (Some [mkLabelRef "1" "ui" gray])] in
  label_list_open p b = true ∧ (label_step p b (LabelPressed key_enter)).2 = [] ∧ lb_draft (label_step p b (LabelPressed key_enter)).1 = "u"%string.
Proof. split_and!; reflexivity. Qed.
