(* ===== verification/Lanes.v ===== *)
(** Setting up a board's columns: [web/src/features/board/SwimlaneEditor.tsx].

    What is drawn and what every control asks for are functions of the board on
    screen.  The lanes are those of [Board.v]. *)

From Stdlib Require Import ZArith QArith Qround Lia Ascii String.
From stdpp Require Import base sets list strings.
From S2P Require Import Prelude JsString Api Board.

Open Scope Z_scope.

(** ** What is drawn *)

Definition lane_state_ids (lane : Swimlane) : list string := map status_id (lane_statuses lane).

(** Who holds a state: by its id, the name of the lane, the last one where two hold it. *)
Definition claimedBy (lanes : list Swimlane) : list (string * string) :=
  foldl (fun claimed lane => foldl (fun claimed status => jset claimed (status_id status) (lane_name lane)) claimed (lane_statuses lane)) [] lanes.

Definition unclaimed (statuses : list Status) (lanes : list Swimlane) : list Status :=
  filter (fun s => jget (claimedBy lanes) (status_id s) = None) statuses.

(** The states a lane's row offers: the project's, and those it holds already. *)
Definition offered (statuses : list Status) (lane : Swimlane) : list Status :=
  statuses ++ filter (fun held => status_id held ∉ map status_id statuses) (lane_statuses lane).

Definition mine (lane : Swimlane) (status : Status) : bool := bool_decide (status_id status ∈ lane_state_ids lane).

Definition takenByAnother (lanes : list Swimlane) (lane : Swimlane) (status : Status) : bool :=
  match jget (claimedBy lanes) (status_id status) with Some owner => truthy owner && negb (mine lane status) | None => false end.

Definition canDelete (lanes : list Swimlane) : bool := (1 <? length lanes)%nat.

(** ** What is asked for *)

Inductive LaneRequest :=
| ReorderLanes (order : list string)
| LaneStates (lane : string) (statusIds : list string)
| LaneDetails (lane : string) (name : string) (wipLimit : Q)
| AddLane (name : string) (statusIds : list string)
| DeleteLane (lane : string)
| GroupBoardBy (groupBy : Grouping)
| DoneForDays (days : Z).

(** The two lanes trade places; past either end nothing is asked. *)
Definition moveLane (lanes : list Swimlane) (index : nat) (direction : Z) : option LaneRequest :=
  let swapWith := Z.of_nat index + direction in
  if (swapWith <? 0) || (Z.of_nat (length lanes) <=? swapWith) then None
  else match lanes !! index, lanes !! Z.to_nat swapWith with
  | Some a, Some b => Some (ReorderLanes (map lane_id (<[Z.to_nat swapWith := a]> (<[index := b]> lanes))))
  | _, _ => None
  end.

(** A [Set] in the order its states were put in. *)
Definition toggleStatus (lane : Swimlane) (statusId : string) : LaneRequest :=
  let selected := set_of (lane_state_ids lane) in
  LaneStates (lane_id lane) (if decide (statusId ∈ selected) then filter (fun s => s ≠ statusId) selected else selected ++ [statusId]).

(** [Number(text) || 0]; a number field gives nothing that is not finite. *)
Definition or_zero (n : option Q) : Q := default 0%Q n.

Definition saveDetails (lane : Swimlane) (name wipLimit : string) : LaneRequest := LaneDetails (lane_id lane) name (or_zero (numberOf wipLimit)).
Definition save_finished (text : string) : LaneRequest := DoneForDays (Z.max 0 (Qfloor (or_zero (numberOf text)))).

(** The form that adds a lane: the boxes of the states no lane holds. *)
Definition toggle_chosen (chosen : list string) (id : string) : list string :=
  if decide (id ∈ chosen) then filter (fun each => each ≠ id) chosen else chosen ++ [id].

(** Only the states that are offered have a box. *)
Definition ticks (available : list Status) (boxes : list nat) : list string :=
  foldl (fun chosen i => match available !! i with Some s => toggle_chosen chosen (status_id s) | None => chosen end) [] boxes.

Definition submit_lane (name : string) (chosen : list string) : option LaneRequest := if truthy (trim name) then Some (AddLane name chosen) else None.

(** Every control of the editor, over the board on screen; [moving] while a move is
    under way.  A row's boxes are those it offers, in that order. *)
Inductive LaneControl :=
| MovePressed (index : nat) (direction : Z)
| StateTicked (index box : nat)
| DetailsSaved (index : nat) (name wipLimit : string)
| DeleteConfirmed (index : nat)
| LaneAdded (name : string) (boxes : list nat)
| GroupPicked (groupBy : Grouping)
| FinishedSaved (text : string).

Definition lane_control (statuses : list Status) (lanes : list Swimlane) (moving : bool) (e : LaneControl) : option LaneRequest :=
  match e with
  | MovePressed index direction => if moving then None else moveLane lanes index direction
  | StateTicked index box =>
      match lanes !! index with
      | Some lane =>
          match offered statuses lane !! box with
          | Some status => if takenByAnother lanes lane status then None else Some (toggleStatus lane (status_id status))
          | None => None
          end
      | None => None
      end
  | DetailsSaved index name wipLimit => (fun lane => saveDetails lane name wipLimit) <$> lanes !! index
  | DeleteConfirmed index => if canDelete lanes then (fun lane => DeleteLane (lane_id lane)) <$> lanes !! index else None
  | LaneAdded name boxes => submit_lane name (ticks (unclaimed statuses lanes) boxes)
  | GroupPicked groupBy => Some (GroupBoardBy groupBy)
  | FinishedSaved text => Some (save_finished text)
  end.

(** ** A state is in one lane *)

(** The lanes of a board the server keeps: named, each with its own id, no state in two. *)
Record lanes_ok (lanes : list Swimlane) : Prop := mkLanesOk {
  lo_named : Forall (fun lane => truthy (lane_name lane) = true) lanes;
  lo_ids : NoDup (map lane_id lanes);
  lo_states : NoDup (flat_map lane_state_ids lanes);
}.

Definition held_by (lanes : list Swimlane) (id : string) : Prop := ∃ lane, lane ∈ lanes ∧ id ∈ lane_state_ids lane.

Definition claims (claimed : list (string * string)) (lane : Swimlane) : list (string * string) :=
  foldl (fun claimed status => jset claimed (status_id status) (lane_name lane)) claimed (lane_statuses lane).

Lemma claims_get lane claimed id :
  jget (claims claimed lane) id = if decide (id ∈ lane_state_ids lane) then Some (lane_name lane) else jget claimed id.
Proof.
  unfold claims, lane_state_ids. revert claimed. induction (lane_statuses lane) as [|s l IH]; intros claimed; cbn [foldl map].
  - by rewrite decide_False by apply not_elem_of_nil.
  - rewrite IH. destruct (decide (id ∈ map status_id l)) as [Hin|Hn].
    + by rewrite decide_True by (by right).
    + destruct (decide (id = status_id s)) as [->|Hne].
      * rewrite jget_jset_eq. by rewrite decide_True by left.
      * rewrite jget_jset_ne by done. rewrite decide_False; [done|]. by intros [?|?]%elem_of_cons.
Qed.

(** A state is claimed exactly when a lane holds it, and then by a lane that does. *)
Lemma claimed_spec lanes id :
  match jget (claimedBy lanes) id with
  | Some owner => ∃ lane, lane ∈ lanes ∧ id ∈ lane_state_ids lane ∧ lane_name lane = owner
  | None => ¬ held_by lanes id
  end.
Proof.
  unfold claimedBy, held_by. change (foldl _ [] lanes) with (foldl claims [] lanes).
  induction lanes as [|lane lanes IH] using rev_ind.
  - cbn. intros (l & Hl & _). by apply elem_of_nil in Hl.
  - rewrite foldl_app. cbn [foldl]. rewrite claims_get. destruct (decide _) as [Hin|Hn].
    + exists lane. split_and!; [|done|done]. apply elem_of_app. right. by left.
    + destruct (jget _ id) as [owner|].
      * destruct IH as (l & Hl & Hi & E). exists l. split_and!; [|done|done]. apply elem_of_app. by left.
      * intros (l & Hl & Hi). apply elem_of_app in Hl as [Hl|Hl]; [by eauto|]. apply list_elem_of_singleton in Hl as ->. done.
Qed.

Lemma other_lane lanes lane lane' id :
  NoDup (flat_map lane_state_ids lanes) → NoDup (map lane_id lanes) → lane ∈ lanes → lane' ∈ lanes → lane_id lane' ≠ lane_id lane →
  id ∈ lane_state_ids lane → id ∈ lane_state_ids lane' → False.
Proof.
  intros Hs _ H1 H2 Hne Hi Hi'. revert Hs H1 H2. induction lanes as [|l lanes IH]; [by intros _ ?%elem_of_nil|]. cbn [flat_map].
  intros (_ & Hd & Hs)%NoDup_app H1 H2. apply elem_of_cons in H1 as [->|H1], H2 as [->|H2].
  - done.
  - apply (Hd id); [done|]. apply list_elem_of_In, in_flat_map. exists lane'. split; [by apply list_elem_of_In|by apply list_elem_of_In].
  - apply (Hd id); [done|]. apply list_elem_of_In, in_flat_map. exists lane. split; [by apply list_elem_of_In|by apply list_elem_of_In].
  - by apply IH.
Qed.

Lemma ticks_available available boxes :
  NoDup (ticks available boxes) ∧ ∀ id, id ∈ ticks available boxes → id ∈ map status_id available.
Proof.
  induction boxes as [|i boxes [IH1 IH2]] using rev_ind; [split; [apply NoDup_nil_2|by intros id ?%elem_of_nil]|].
  unfold ticks. rewrite foldl_app. cbn [foldl]. fold (ticks available boxes). destruct (available !! i) as [s|] eqn:E; [|done].
  unfold toggle_chosen. destruct (decide _) as [Hin|Hn].
  - split; [by apply NoDup_filter|]. intros id Hid. apply list_elem_of_filter in Hid as [_ Hid]. by apply IH2.
  - split.
    + apply NoDup_app. split_and!; [done| |apply NoDup_singleton]. intros x Hx Hx'. apply list_elem_of_singleton in Hx'. by subst x.
    + intros id [Hid|Hid]%elem_of_app; [by apply IH2|]. apply list_elem_of_singleton in Hid as ->. apply list_elem_of_fmap. exists s. split; [done|]. by apply list_elem_of_lookup_2 in E.
Qed.

(** What a request is to be: it puts no state in a second lane, moves no lane but the
    one and its neighbour, and leaves a board at least one lane. *)
Definition request_ok (lanes : list Swimlane) (r : LaneRequest) : Prop :=
  match r with
  | LaneStates id statusIds => NoDup statusIds ∧ ∀ other s, other ∈ lanes → lane_id other ≠ id → s ∈ statusIds → s ∉ lane_state_ids other
  | AddLane name statusIds => truthy (trim name) = true ∧ NoDup statusIds ∧ ∀ other s, other ∈ lanes → s ∈ statusIds → s ∉ lane_state_ids other
  | ReorderLanes order => ∃ i j a b, (i = j + 1 ∨ j = i + 1)%nat ∧ map lane_id lanes !! i = Some a ∧ map lane_id lanes !! j = Some b ∧
      order = <[j := a]> (<[i := b]> (map lane_id lanes))
  | DeleteLane id => id ∈ map lane_id lanes ∧ (1 < length lanes)%nat
  | DoneForDays days => 0 <= days
  | LaneDetails id _ _ => id ∈ map lane_id lanes
  | GroupBoardBy _ => True
  end.

Lemma moveLane_ok lanes index direction r : (direction = 1 ∨ direction = -1) → moveLane lanes index direction = Some r → request_ok lanes r.
Proof.
  intros Hd. unfold moveLane. destruct (_ || _) eqn:E; [done|]. apply orb_false_iff in E as [E1 E2]. apply Z.ltb_ge in E1. apply Z.leb_gt in E2.
  destruct (lanes !! index) as [a|] eqn:Ea; [|done]. destruct (lanes !! Z.to_nat _) as [b|] eqn:Eb; [|done]. intros [= <-]. cbn [request_ok].
  exists index, (Z.to_nat (Z.of_nat index + direction)), (lane_id a), (lane_id b). split_and!; [lia| | |].
  - by rewrite list_lookup_fmap, Ea.
  - by rewrite list_lookup_fmap, Eb.
  - by rewrite !list_fmap_insert.
Qed.

Lemma toggleStatus_ok lanes lane status :
  lanes_ok lanes → lane ∈ lanes → takenByAnother lanes lane status = false → request_ok lanes (toggleStatus lane (status_id status)).
Proof.
  intros [Hn Hi Hs] Hl Ht. cbn [toggleStatus request_ok]. pose proof (NoDup_set_of (lane_state_ids lane)) as Hset.
  assert (∀ s, s ∈ set_of (lane_state_ids lane) → ∀ other, other ∈ lanes → lane_id other ≠ lane_id lane → s ∉ lane_state_ids other) as Hheld.
  { intros s Hin other Ho Hne Hin'. rewrite elem_of_set_of in Hin. eapply (other_lane lanes lane other s); eauto. }
  destruct (decide _) as [Hin|Hnot].
  - split; [by apply NoDup_filter|]. intros other s Ho Hne Hin'. apply list_elem_of_filter in Hin' as [_ Hin']. by apply Hheld.
  - split.
    + apply NoDup_app. split_and!; [done| |apply NoDup_singleton]. intros x Hx Hx'. apply list_elem_of_singleton in Hx'. by subst x.
    + intros other s Ho Hne [Hin'|Hin']%elem_of_app; [by apply Hheld|]. apply list_elem_of_singleton in Hin' as ->. intros Hin'.
      unfold takenByAnother in Ht. pose proof (claimed_spec lanes (status_id status)) as Hc. destruct (jget _ _) as [owner|].
      * destruct Hc as (holder & Hh & _ & <-). rewrite Forall_forall in Hn. rewrite (Hn _ Hh) in Ht. cbn in Ht. apply negb_false_iff in Ht. unfold mine in Ht.
        apply bool_decide_eq_true in Ht. apply Hnot. by rewrite elem_of_set_of.
      * apply Hc. by exists other.
Qed.

(** Over the board on screen no control asks to put a state in a second lane,
    a move trades two neighbours and keeps every lane, the last lane cannot be deleted,
    and no board is to keep finished work for less than no time.  Every state of the
    project is in a lane or named among those that are in none. *)
Theorem lanes_keep_states_apart statuses lanes moving e r :
  lanes_ok lanes → (∀ i d, e = MovePressed i d → d = 1 ∨ d = -1) → lane_control statuses lanes moving e = Some r →
  request_ok lanes r ∧ (∀ s, s ∈ statuses → held_by lanes (status_id s) ∨ s ∈ unclaimed statuses lanes).
Proof.
  intros Hok Hd Hr. split.
  - destruct e as [index direction|index box|index name wip|index|name boxes|g|text]; cbn [lane_control] in Hr.
    + destruct moving; [done|]. eapply moveLane_ok; [by eapply Hd|done].
    + destruct (lanes !! index) as [lane|] eqn:El; [|done]. destruct (offered _ _ !! box) as [status|]; [|done]. destruct (takenByAnother _ _ _) eqn:Et; [done|].
      injection Hr as <-. apply toggleStatus_ok; [done|by apply list_elem_of_lookup_2 in El|done].
    + destruct (lanes !! index) as [lane|] eqn:El; [|done]. injection Hr as <-. cbn. apply list_elem_of_fmap. exists lane. split; [done|by apply list_elem_of_lookup_2 in El].
    + unfold canDelete in Hr. destruct (_ <? _)%nat eqn:E; [|done]. destruct (lanes !! index) as [lane|] eqn:El; [|done]. injection Hr as <-. cbn.
      split; [|by apply Nat.ltb_lt in E]. apply list_elem_of_fmap. exists lane. split; [done|by apply list_elem_of_lookup_2 in El].
    + unfold submit_lane in Hr. destruct (truthy _) eqn:E; [|done]. injection Hr as <-. cbn. destruct (ticks_available (unclaimed statuses lanes) boxes) as [H1 H2].
      split_and!; [done|done|]. intros other s Ho Hs Hin. apply H2 in Hs. apply list_elem_of_fmap in Hs as (st & -> & Hst). apply list_elem_of_filter in Hst as [Hst _].
      pose proof (claimed_spec lanes (status_id st)) as Hc. rewrite Hst in Hc. apply Hc. by exists other.
    + by injection Hr as <-.
    + injection Hr as <-. cbn. lia.
  - intros s Hs. pose proof (claimed_spec lanes (status_id s)) as Hc. destruct (jget _ _) eqn:E; [left; destruct Hc as (l & ? & ? & _); by exists l|].
    right. by apply list_elem_of_filter.
Qed.

Definition status_of (id : string) : Status := mkStatus id id todo None 0.
Definition two_lanes : list Swimlane := [mkSwimlane "l1" "To do" 0 [status_of "a"] []; mkSwimlane "l2" "Done" 0 [status_of "b"] []].

Lemma lanes_keep_states_apart_witness :
  lane_control (map status_of ["a"; "b"; "c"]%string) two_lanes false (StateTicked 0 2) = Some (LaneStates "l1" ["a"; "c"]%string) ∧
  request_ok two_lanes (LaneStates "l1" ["a"; "c"]%string).
Proof.
  split; [reflexivity|]. apply (lanes_keep_states_apart (map status_of ["a"; "b"; "c"]%string) two_lanes false (StateTicked 0 2)); [|intros i d [=]|reflexivity].
  split; [apply (bool_decide_unpack _)|apply (bool_decide_unpack _)|apply (bool_decide_unpack _)]; vm_compute; exact I.
Defined.

(** Two boxes of one row ticked before the board was read again: each asks for the
    states on screen and its own, and the second takes back what the first asked for. *)
Lemma second_tick_undoes :
  let statuses := map status_of ["a"; "b"; "c"; "d"]%string in
  lane_control statuses two_lanes false (StateTicked 0 2) = Some (LaneStates "l1" ["a"; "c"]%string) ∧
  lane_control statuses two_lanes false (StateTicked 0 3) = Some (LaneStates "l1" ["a"; "d"]%string).
Proof. by split. Qed.

(** A lane without a name holds its states from nobody: another row may ask for them. *)
Lemma unnamed_holds_nothing :
  let lanes := [mkSwimlane "l1" EmptyString 0 [status_of "a"] []; mkSwimlane "l2" "Done" 0 [status_of "b"] []] in
  lane_control (map status_of ["a"; "b"]%string) lanes false (StateTicked 1 0) = Some (LaneStates "l2" ["b"; "a"]%string).
Proof. reflexivity. Qed.
