(* ===== verification/Desk.v ===== *)
(** The service desk as its agents set it up: the categories of its request types
    ([web/src/features/desk/templates.ts]), its companies and their domains
    ([company.ts], [Companies.tsx]), its hours, articles, canned responses and door
    ([DeskExtras.tsx], [DeskEntryForm.tsx]), and how a clock reads ([SlaBadge.tsx]),
    with the records of [web/src/api/desk.ts].

    A form is a state machine: what is typed, and the answer to what was sent, which
    may come between any two events.  Seconds and minutes are whole numbers, as the
    server sends them. *)

From Stdlib Require Import ZArith Lia Ascii String.
From stdpp Require Import base list strings.
From S2P Require Import Prelude JsString Palette.

Open Scope Z_scope.

(** ** Data: [api/desk.ts] *)

Inductive Metric := first_response | resolution.
#[export] Instance Metric_eq : EqDecision Metric.
Proof. solve_decision. Defined.

Record RequestType := mkRequestType {
  rt_id : string;
  rt_name : string;
  rt_category : string;
  rt_detailsTemplate : string;
}.

Record Timer := mkTimer {
  timer_metric : Metric;
  timer_goalMinutes : Z;
  timer_policyName : string;
  timer_completedAt : option string;
  timer_remainingSeconds : Z;
  timer_breached : bool;
  timer_paused : bool;
}.

Record Span := mkSpan { span_from : string; span_to : string }.
#[export] Instance Span_eq : EqDecision Span.
Proof. solve_decision. Defined.

Record BusinessCalendar := mkBusinessCalendar {
  cal_timezone : string;
  cal_hours : list (string * list Span);
  cal_holidays : list string;
  cal_holidayCalendarId : option string;
  cal_holidayCalendarName : option string;
}.

(** ** The categories of request types: [templates.ts] *)

Definition GENERAL_CATEGORY : string := "General".

(** The heading a category stands under; [general] is its word in the reader's language. *)
Definition categoryHeading (general name : string) : string :=
  if decide (name = GENERAL_CATEGORY) then general else name.

Record CategoryGroup := mkCategoryGroup { group_name : string; group_types : list RequestType }.

Definition category_name (type : RequestType) : string :=
  if truthy (trim (rt_category type)) then trim (rt_category type) else GENERAL_CATEGORY.

Definition category_id (type : RequestType) : string := toLowerCase (category_name type).

Definition group_type (groups : list (string * CategoryGroup)) (type : RequestType) : list (string * CategoryGroup) :=
  let group := default (mkCategoryGroup (category_name type) []) (jget groups (category_id type)) in
  jset groups (category_id type) (mkCategoryGroup (group_name group) (group_types group ++ [type])).

Definition category_groups (types : list RequestType) : list (string * CategoryGroup) := foldl group_type [] types.

Definition groupByCategory (types : list RequestType) : list CategoryGroup :=
  let groups := category_groups types in
  let id := toLowerCase GENERAL_CATEGORY in
  let rest := jvals (filter (fun e => e.1 ≠ id) groups) in
  match jget groups id with Some general => general :: rest | None => rest end.

Definition prefillDetails (current previousTemplate nextTemplate : string) : string :=
  if bool_decide (trim current = EmptyString) || bool_decide (current = previousTemplate) then nextTemplate else current.

Definition categoriesOf (types : list RequestType) : list string :=
  filter (fun name => name ≠ GENERAL_CATEGORY) (map group_name (groupByCategory types)).

(** ** Companies and domains: [company.ts] *)

(** [replace(/^@/, "")]. *)
Definition without_at (s : string) : string :=
  match s with String c s' => if decide (c = "@"%char) then s' else s | EmptyString => EmptyString end.

Definition cleanDomain (raw : string) : string := toLowerCase (without_at (trim raw)).

Definition parts_at (c : ascii) : bool := is_space c || bool_decide (c = ","%char).

(** [split(/[\s,]+/)]: a run of spaces and commas is one cut; [inside] says that the
    last unit was of such a run. *)
Fixpoint split_runs (inside : bool) (s : string) : list string :=
  match s with
  | EmptyString => [EmptyString]
  | String c s' =>
      if parts_at c then if inside then split_runs true s' else EmptyString :: split_runs true s'
      else match split_runs false s' with [] => [String c EmptyString] | w :: ws => String c w :: ws end
  end.

Definition parseDomains (raw : string) : list string :=
  set_of (filter (fun d => truthy d = true) (map cleanDomain (split_runs false raw))).

Definition companyLine (shared_words : string → string) (name : string) (shared : bool) : string :=
  if shared then shared_words name else name.

(** Where people without an account come in. *)
Definition doorAddress (origin projectKey : string) : string :=
  origin +:+ "/desk?" +:+ searchParams [("desk"%string, projectKey)].

(** ** How a clock reads: [humanDuration], [SlaBadge.tsx] *)

Definition humanDuration (seconds : Z) : string :=
  let s := Z.abs seconds in
  let days := s / 86400 in
  let hours := (s mod 86400) / 3600 in
  let minutes := (s mod 3600) / 60 in
  if 0 <? days then stringOfInt days +:+ "d " +:+ stringOfInt hours +:+ "h"
  else if 0 <? hours then stringOfInt hours +:+ "h " +:+ stringOfInt minutes +:+ "m"
  else stringOfInt minutes +:+ "m".

Definition metricName (metric : Metric) : string :=
  match metric with first_response => "First response" | resolution => "Resolution" end.

(** What a clock says of itself, before the catalogue gives it words. *)
Inductive SlaWords := sla_missedBy (by_ : string) | sla_metWith (left_ : string) | sla_over (by_ : string) | sla_pausedLeft (left_ : string) | sla_left (left_ : string).
Inductive SlaDot := dot_danger | dot_done | dot_todo | dot_warning.
Inductive SlaState := sla_completed | sla_breached | sla_paused | sla_running.

Record SlaShown := mkSlaShown {
  shown_label : option Metric;
  shown_words : SlaWords;
  shown_dot : SlaDot;
  shown_red : bool;
  shown_state : SlaState;
  shown_goal : string * string;
}.

Definition timer_completed (t : Timer) : bool := match timer_completedAt t with Some at_ => truthy at_ | None => false end.

Definition SlaBadge (t : Timer) (short : bool) : SlaShown :=
  let '(words, dot) :=
    if timer_completed t then
      (if timer_breached t then sla_missedBy (humanDuration (- timer_remainingSeconds t)) else sla_metWith (humanDuration (timer_remainingSeconds t)),
       if timer_breached t then dot_danger else dot_done)
    else if timer_breached t then (sla_over (humanDuration (- timer_remainingSeconds t)), dot_danger)
    else if timer_paused t then (sla_pausedLeft (humanDuration (timer_remainingSeconds t)), dot_todo)
    else (sla_left (humanDuration (timer_remainingSeconds t)), if timer_remainingSeconds t <? 3600 then dot_warning else dot_done) in
  mkSlaShown (if short then None else Some (timer_metric t)) words dot (timer_breached t)
    (if timer_completed t then sla_completed else if timer_breached t then sla_breached else if timer_paused t then sla_paused else sla_running)
    (timer_policyName t, humanDuration (timer_goalMinutes t * 60)).

(** ** The desk's hours: [BusinessHours] of [DeskExtras.tsx] *)

(** The days of the week as the server keys them. *)
Definition WEEKDAYS : list string := ["mon"; "tue"; "wed"; "thu"; "fri"; "sat"; "sun"]%string.

Definition nine_to_five : Span := mkSpan "09:00" "17:00".

Definition defaultCalendar (timezone : string) : BusinessCalendar :=
  mkBusinessCalendar timezone (map (fun d => (d, [nine_to_five])) (take 5 WEEKDAYS)) [] None None.

Definition hours_of (c : BusinessCalendar) (key : string) : list Span := default [] (jget (cal_hours c) key).
Definition open_on (c : BusinessCalendar) (key : string) : bool := negb (bool_decide (hours_of c key = [])).

(** [JSON.stringify] of the hours of a day. *)
Definition span_json (s : Span) : string :=
  "{" +:+ stringify "from" +:+ ":" +:+ stringify (span_from s) +:+ "," +:+ stringify "to" +:+ ":" +:+ stringify (span_to s) +:+ "}".
Definition hours_json (spans : list Span) : string := "[" +:+ join "," (map span_json spans) +:+ "]".

(** The words of the hours in the reader's language. *)
Record HoursWords := mkHoursWords {
  hw_short : string → string;
  hw_span : string → string → string;
  hw_dayRange : string → string → string;
  hw_varied : string;
  hw_neverOpen : string;
}.

Definition describeCalendar (w : HoursWords) (c : BusinessCalendar) : string :=
  let open := filter (fun d => open_on c d = true) WEEKDAYS in
  match head open, last open with
  | Some first, Some final =>
      let same := forallb (fun d => bool_decide (hours_json (hours_of c d) = hours_json (hours_of c first))) open in
      let span := join ", " (map (fun s => hw_span w (span_from s) (span_to s)) (hours_of c first)) in
      let days := if same && (1 <? length open)%nat then hw_dayRange w (hw_short w first) (hw_short w final) else join ", " (map (hw_short w) open) in
      days +:+ " " +:+ (if same then span else hw_varied w) +:+ " (" +:+ cal_timezone c +:+ ")"
  | _, _ => hw_neverOpen w
  end.

Definition with_hours (key : string) (spans : list Span) (c : BusinessCalendar) : BusinessCalendar :=
  mkBusinessCalendar (cal_timezone c) (jset (cal_hours c) key spans) (cal_holidays c) (cal_holidayCalendarId c) (cal_holidayCalendarName c).

Definition setDay (key : string) (open : bool) (c : BusinessCalendar) : BusinessCalendar := with_hours key (if open then [nine_to_five] else []) c.

Inductive SpanEnd := span_opens | span_closes.

Definition setSpan (key : string) (which : SpanEnd) (value : string) (c : BusinessCalendar) : BusinessCalendar :=
  let s := default nine_to_five (head (hours_of c key)) in
  with_hours key [match which with span_opens => mkSpan value (span_to s) | span_closes => mkSpan (span_from s) value end] c.

Record HolidayCalendar := mkHolidayCalendar { hc_id : string; hc_name : string }.

Definition pickHolidays (calendars : list HolidayCalendar) (value : string) (c : BusinessCalendar) : BusinessCalendar :=
  let chosen := head (filter (fun h => hc_id h = value) calendars) in
  mkBusinessCalendar (cal_timezone c) (cal_hours c) (cal_holidays c) (hc_id <$> chosen) (hc_name <$> chosen).

(** The days off, as the box holds them and as it is read. *)
Definition extra_days_text (c : BusinessCalendar) : string := join ", " (cal_holidays c).
Definition read_days (text : string) : list string := filter (fun h => truthy h = true) (map trim (split "," text)).

Definition setExtraDays (text : string) (c : BusinessCalendar) : BusinessCalendar :=
  mkBusinessCalendar (cal_timezone c) (cal_hours c) (read_days text) (cal_holidayCalendarId c) (cal_holidayCalendarName c).
Definition setZone (timezone : string) (c : BusinessCalendar) : BusinessCalendar :=
  mkBusinessCalendar timezone (cal_hours c) (cal_holidays c) (cal_holidayCalendarId c) (cal_holidayCalendarName c).

(** [ho_data]: the calendar read last, [ho_error]: whether the last reading failed,
    [ho_saving]: whether a save is on its way. *)
Record HoursForm := mkHoursForm { ho_draft : option BusinessCalendar; ho_data : option BusinessCalendar; ho_error : bool; ho_saving : bool }.

Inductive HoursEdit :=
| DayTicked (key : string) (open : bool) | SpanTyped (key : string) (which : SpanEnd) (value : string)
| ZoneTyped (timezone : string) | HolidaysPicked (calendars : list HolidayCalendar) (value : string) | ExtraDaysTyped (text : string).

Definition edit_calendar (e : HoursEdit) (c : BusinessCalendar) : BusinessCalendar :=
  match e with
  | DayTicked key open => setDay key open c
  | SpanTyped key which value => setSpan key which value c
  | ZoneTyped timezone => setZone timezone c
  | HolidaysPicked calendars value => pickHolidays calendars value c
  | ExtraDaysTyped text => setExtraDays text c
  end.

Inductive HoursEvent :=
| HoursEdited (e : HoursEdit) | HoursSubmitted | HoursSaved | HoursRefused
| CalendarRead (c : BusinessCalendar) | CalendarFailed.

(** The calendar on the page; [zone] is the browser's. *)
Definition shown_calendar (zone : string) (h : HoursForm) : option BusinessCalendar :=
  match ho_draft h, ho_data h with
  | Some c, _ => Some c
  | None, Some c => Some c
  | None, None => if ho_error h then Some (defaultCalendar zone) else None
  end.

(** A step, and the calendar it sends to be saved. *)
Definition hours_step (zone : string) (h : HoursForm) (e : HoursEvent) : HoursForm * option BusinessCalendar :=
  match e with
  | HoursEdited edit =>
      match shown_calendar zone h with
      | Some c => (mkHoursForm (Some (edit_calendar edit c)) (ho_data h) (ho_error h) (ho_saving h), None)
      | None => (h, None)
      end
  | HoursSubmitted =>
      match shown_calendar zone h with
      | Some c => if ho_saving h then (h, None) else (mkHoursForm (ho_draft h) (ho_data h) (ho_error h) true, Some c)
      | None => (h, None)
      end
  | HoursSaved => if ho_saving h then (mkHoursForm None (ho_data h) (ho_error h) false, None) else (h, None)
  | HoursRefused => (mkHoursForm (ho_draft h) (ho_data h) (ho_error h) false, None)
  | CalendarRead c => (mkHoursForm (ho_draft h) (Some c) false (ho_saving h), None)
  | CalendarFailed => (mkHoursForm (ho_draft h) (ho_data h) true (ho_saving h), None)
  end.

Definition hours_start : HoursForm := mkHoursForm None None false false.
Definition hours_run (zone : string) (h : HoursForm) (events : list HoursEvent) : HoursForm := foldl (fun h e => (hours_step zone h e).1) h events.

(** ** The categories partition the types *)

Lemma category_groups_snoc types t : category_groups (types ++ [t]) = group_type (category_groups types) t.
Proof. unfold category_groups. by rewrite foldl_app. Qed.

Lemma jset_map {K V W} `{EqDecision K} (f : V → W) (m : list (K * V)) k v :
  map (fun e => (e.1, f e.2)) (jset m k v) = jset (map (fun e => (e.1, f e.2)) m) k (f v).
Proof. induction m as [|[a b] m IH]; cbn [jset map fst snd]; [done|]. case_decide; cbn [map fst snd]; [done|]. by rewrite IH. Qed.

(** The map built is the grouping by category, each group named by its first type. *)
Lemma category_groups_types types : map (fun e => (e.1, group_types e.2)) (category_groups types) = group_by category_id types.
Proof.
  induction types as [|t types IH] using rev_ind; [done|]. rewrite category_groups_snoc, group_by_snoc. unfold group_type, group_push.
  rewrite jset_map, IH. cbn [group_types]. do 2 f_equal. rewrite <- IH, (jget_map group_types). destruct (jget (category_groups types) (category_id t)); reflexivity.
Qed.

Lemma category_groups_keys types : jkeys (category_groups types) = jkeys (group_by category_id types).
Proof. rewrite <- category_groups_types. by rewrite jkeys_map. Qed.

Lemma category_group_named types k g :
  (k, g) ∈ category_groups types → ∃ t, head (group_types g) = Some t ∧ group_name g = category_name t.
Proof.
  revert k g. induction types as [|t types IH] using rev_ind; intros k g Hin; [by apply elem_of_nil in Hin|].
  rewrite category_groups_snoc in Hin. unfold group_type in Hin. apply elem_of_jset in Hin as [[= -> ->]|Hin]; [|by eapply IH].
  cbn [group_types group_name]. destruct (jget (category_groups types) (category_id t)) as [g'|] eqn:E; unfold default, id.
  - apply jget_elem, IH in E as (t' & Ht & En). exists t'. split; [|done]. cbn. destruct (group_types g'); [done|exact Ht].
  - by exists t.
Qed.

Lemma elem_of_category_groups types k g :
  (k, g) ∈ category_groups types → group_types g = filter (fun t => category_id t = k) types ∧ toLowerCase (group_name g) = k.
Proof.
  intros Hin. assert ((k, group_types g) ∈ group_by category_id types) as Hg.
  { rewrite <- category_groups_types. apply list_elem_of_fmap. by exists (k, g). }
  apply elem_of_group_by in Hg as [_ Hg]. split; [done|]. apply category_group_named in Hin as (t & Ht & ->). rewrite Hg in Ht.
  assert (t ∈ filter (fun t => category_id t = k) types) as Hin by (destruct (filter _ types); [done|]; injection Ht as ->; by left).
  by apply list_elem_of_filter in Hin as [? _].
Qed.

Lemma jvals_first {K V} `{EqDecision K} (m : list (K * V)) k :
  NoDup (jkeys m) → (match jget m k with Some v => v :: jvals (filter (fun e => e.1 ≠ k) m) | None => jvals (filter (fun e => e.1 ≠ k) m) end) ≡ₚ jvals m.
Proof.
  unfold jkeys, jvals. induction m as [|[a b] m IH]; [done|]. csimpl. intros [Ha Hm]%NoDup_cons. specialize (IH Hm). rewrite filter_cons. cbn [fst].
  destruct (decide (a = k)) as [->|Hak].
  - destruct (decide (k ≠ k)) as [?|_]; [done|]. assert (filter (fun e : K * V => e.1 ≠ k) m = m) as ->; [|done].
    apply filter_every, Forall_forall. intros e He E. apply Ha. rewrite <- E. by apply list_elem_of_fmap_2.
  - destruct (decide (a ≠ k)) as [_|?]; [|done]. csimpl. destruct (jget m k); [rewrite Permutation_swap|]; by rewrite IH.
Qed.

Lemma NoDup_category_keys types : NoDup (jkeys (category_groups types)).
Proof. rewrite category_groups_keys. apply NoDup_jkeys_group_by. Qed.

Lemma groupByCategory_groups types : groupByCategory types ≡ₚ jvals (category_groups types).
Proof. apply jvals_first, NoDup_category_keys. Qed.

Lemma elem_of_groupByCategory types g : g ∈ groupByCategory types ↔ ∃ k, (k, g) ∈ category_groups types.
Proof.
  rewrite groupByCategory_groups. unfold jvals. rewrite list_elem_of_fmap. split; [intros ([k g'] & -> & H)|intros [k H]]; eauto. by exists (k, g).
Qed.

Lemma category_keys types : map (fun g => toLowerCase (group_name g)) (jvals (category_groups types)) = jkeys (category_groups types).
Proof.
  assert (Forall (fun e => toLowerCase (group_name e.2) = e.1) (category_groups types)) as H.
  { apply Forall_forall. intros [k g] Hin. by apply elem_of_category_groups in Hin as [_ ?]. }
  unfold jvals, jkeys. induction H as [|e m He Hm IH]; [done|]. csimpl. by rewrite He, IH.
Qed.

(** The request types under their categories: every type is in one group and in
    one only, that of the types whose category is the same but for case and the space
    around it, in the order they came; no two groups differ by their case alone; the
    types without a category come first, in the general group; and a group bears the
    category of its first type. *)
Theorem categories_partition types :
  concat (map group_types (groupByCategory types)) ≡ₚ types ∧
  NoDup (map (fun g => toLowerCase (group_name g)) (groupByCategory types)) ∧
  (∀ g, g ∈ groupByCategory types →
     group_types g = filter (fun t => category_id t = toLowerCase (group_name g)) types ∧
     ∃ t, head (group_types g) = Some t ∧ group_name g = category_name t) ∧
  (∀ t, t ∈ types → trim (rt_category t) = EmptyString → ∃ g, head (groupByCategory types) = Some g ∧ t ∈ group_types g).
Proof.
  split_and!.
  - rewrite groupByCategory_groups. rewrite <- (concat_group_by category_id types) at 2. rewrite <- category_groups_types. unfold jvals.
    rewrite <- !list_fmap_compose. reflexivity.
  - rewrite groupByCategory_groups, category_keys. apply NoDup_category_keys.
  - intros g [k Hg]%elem_of_groupByCategory. pose proof (category_group_named _ _ _ Hg). apply elem_of_category_groups in Hg as [Ht <-]. done.
  - intros t Ht Hb. assert (category_id t = toLowerCase GENERAL_CATEGORY) as Hid by (unfold category_id, category_name; by rewrite Hb).
    assert (is_Some (jget (category_groups types) (toLowerCase GENERAL_CATEGORY))) as [g Hg].
    { apply jget_key. rewrite category_groups_keys, jkeys_group_by. apply list_elem_of_fmap. by exists t. }
    exists g. unfold groupByCategory. rewrite Hg. split; [done|]. apply jget_elem, elem_of_category_groups in Hg as [-> _].
    by apply list_elem_of_filter.
Qed.

(** A category typed as "general" takes in the types without one, and is then neither
    shown in the reader's language nor left out of the suggestions. *)
Lemma general_spelled general :
  let types := [mkRequestType "1" "Ask" "general" EmptyString; mkRequestType "2" "Tell" EmptyString EmptyString] in
  map group_name (groupByCategory types) = ["general"%string] ∧ categoryHeading general "general" = "general"%string ∧ categoriesOf types = ["general"%string].
Proof. split_and!; reflexivity. Qed.

(** ** Domains *)

(** A word without a space or a comma. *)
Definition one_word (s : string) : bool := string_forall (fun c => negb (parts_at c)) s.

Lemma split_runs_words b s : Forall (fun w => one_word w = true) (split_runs b s).
Proof.
  revert b. induction s as [|c s IH]; intros b; cbn [split_runs]; [by repeat constructor|]. destruct (parts_at c) eqn:E.
  - destruct b; [apply IH|]. constructor; [done|apply IH].
  - specialize (IH false). destruct (split_runs false s) as [|w ws]; [constructor; [|done]|apply Forall_cons in IH as [Hw Hs]; constructor; [|done]]; cbn [one_word string_forall]; by rewrite E.
Qed.

Lemma lower_parts c : parts_at (lower c) = parts_at c.
Proof. destruct c as [[] [] [] [] [] [] [] []]; reflexivity. Qed.

Lemma lower_lower c : lower (lower c) = lower c.
Proof. destruct c as [[] [] [] [] [] [] [] []]; reflexivity. Qed.

Lemma toLowerCase_idem s : toLowerCase (toLowerCase s) = toLowerCase s.
Proof. induction s as [|c s IH]; cbn [toLowerCase]; [done|]. by rewrite lower_lower, IH. Qed.

Lemma lower_one_word s : one_word (toLowerCase s) = one_word s.
Proof. unfold one_word. induction s as [|c s IH]; cbn [toLowerCase string_forall]; [done|]. by rewrite lower_parts, IH. Qed.

Lemma one_word_trim w : one_word w = true → trim w = w.
Proof.
  intros H. apply trim_id. revert H. unfold one_word. induction w as [|c w IH]; cbn [string_forall]; [done|]. intros [Hc Hw]%andb_true_iff.
  apply andb_true_iff. split; [|by apply IH]. unfold parts_at in Hc. by destruct (is_space c).
Qed.

Lemma clean_one_word w : one_word w = true → one_word (cleanDomain w) = true ∧ toLowerCase (cleanDomain w) = cleanDomain w.
Proof.
  intros H. unfold cleanDomain. rewrite (one_word_trim w H), lower_one_word, toLowerCase_idem. split; [|done]. destruct w as [|c w]; cbn [without_at]; [done|].
  case_decide; [|done]. cbn [one_word string_forall] in H. by apply andb_true_iff in H as [_ ?].
Qed.

(** A domain as the server keeps it. *)
Definition kept_domain (d : string) : Prop := d ≠ EmptyString ∧ one_word d = true ∧ toLowerCase d = d.

(** Domains typed as a list are read apart, and each is read as the server keeps it:
    none is empty, holds a space, a comma or a capital, or comes twice. *)
Lemma parseDomains_kept raw : NoDup (parseDomains raw) ∧ Forall kept_domain (parseDomains raw).
Proof.
  split; [apply NoDup_set_of|]. apply Forall_forall. intros d Hd. apply elem_of_set_of, list_elem_of_filter in Hd as [Ht Hd].
  apply list_elem_of_fmap in Hd as (w & -> & Hw). pose proof (split_runs_words false raw) as Hf. rewrite Forall_forall in Hf. apply Hf, clean_one_word in Hw as [? ?].
  split_and!; [|done|done]. intros E. by rewrite E in Ht.
Qed.

Lemma split_runs_word w b s :
  one_word w = true → (w ≠ EmptyString ∨ b = false) →
  split_runs b (w +:+ String "," s) = w :: split_runs true s.
Proof.
  revert b. induction w as [|c w IH]; intros b Hw Hb.
  - destruct Hb as [Hb| ->]; [done|reflexivity].
  - cbn [one_word string_forall] in Hw. apply andb_true_iff in Hw as [Hc%negb_true_iff Hw]. change (String c w +:+ ?r) with (String c (w +:+ r)). cbn [split_runs].
    rewrite Hc. rewrite IH by auto. reflexivity.
Qed.

Lemma split_runs_last w b : one_word w = true → (w ≠ EmptyString ∨ b = false) → split_runs b w = [w].
Proof.
  revert b. induction w as [|c w IH]; intros b Hw Hb; [done|]. cbn [one_word string_forall] in Hw. apply andb_true_iff in Hw as [Hc%negb_true_iff Hw].
  cbn [split_runs]. rewrite Hc. by rewrite IH by auto.
Qed.

(** Words joined by commas are cut back apart. *)
Lemma split_runs_join b l :
  l ≠ [] → Forall (fun w => w ≠ EmptyString ∧ one_word w = true) l → split_runs b (join ", " l) = l.
Proof.
  intros Hl H. revert b Hl. induction H as [|w l [Hn Hw] H IH]; intros b Hl; [done|]. destruct l as [|w' l].
  - cbn [join]. apply split_runs_last; auto.
  - rewrite join_cons by done. change (w +:+ ", " +:+ ?s) with (w +:+ String "," (String " " s)). rewrite split_runs_word by auto.
    f_equal. change (split_runs true (String " " ?s)) with (split_runs true s). by apply IH.
Qed.

Lemma set_of_id {A} `{EqDecision A} (l : list A) : NoDup l → set_of l = l.
Proof.
  induction l as [|x l IH] using rev_ind; [done|]. rewrite set_of_snoc. intros (Hl & Hx & _)%NoDup_app. rewrite IH by done.
  unfold set_add. apply decide_False. intros H. apply (Hx x H). by left.
Qed.

(** A list of domains as the server keeps them, written out with commas, is read back
    as it was. *)
Theorem domains_read_back ds :
  NoDup ds → Forall kept_domain ds → Forall (fun d => startsWith d "@" = false) ds → parseDomains (join ", " ds) = ds.
Proof.
  intros Hn Hk Ha. destruct (decide (ds = [])) as [->|Hd]; [reflexivity|]. unfold parseDomains. rewrite split_runs_join; [|done|].
  - assert (map cleanDomain ds = ds) as ->.
    { clear Hn Hd. induction Hk as [|d ds [H1 [H2 H3]] Hk IH]; [done|]. apply Forall_cons in Ha as [Hd Ha]. cbn [map]. f_equal; [|by apply IH].
      unfold cleanDomain. rewrite one_word_trim by done. destruct d as [|c d]; [done|]. cbn [without_at]. destruct (decide (c = "@"%char)) as [->|_]; [by destruct d|exact H3]. }
    rewrite filter_every. { by apply set_of_id. } eapply Forall_impl; [exact Hk|]. intros d [H1 _]. unfold truthy. by rewrite bool_decide_eq_false_2.
  - eapply Forall_impl; [exact Hk|]. by intros d (?&?&?).
Qed.

(** ** Clocks *)

(** A length of time is said in its two largest units, and is less than one of the
    smaller of them more than is said. *)
Lemma humanDuration_says n :
  let s := Z.abs n in
  if s <? 3600 then ∃ m, humanDuration n = stringOfInt m +:+ "m" ∧ m * 60 <= s < (m + 1) * 60
  else if s <? 86400 then ∃ h m, humanDuration n = stringOfInt h +:+ "h " +:+ stringOfInt m +:+ "m" ∧ 0 <= m < 60 ∧ h * 3600 + m * 60 <= s < h * 3600 + (m + 1) * 60
  else ∃ d h, humanDuration n = stringOfInt d +:+ "d " +:+ stringOfInt h +:+ "h" ∧ 0 <= h < 24 ∧ d * 86400 + h * 3600 <= s < d * 86400 + (h + 1) * 3600.
Proof.
  intros s. unfold humanDuration. fold s. assert (0 <= s) as Hs by apply Z.abs_nonneg. clearbody s. pose proof (Z.mod_pos_bound s 3600 ltac:(lia)) as M1.
  pose proof (Z.mod_pos_bound s 86400 ltac:(lia)) as M2. pose proof (Z.div_mod s 3600 ltac:(lia)) as D1. pose proof (Z.div_mod s 86400 ltac:(lia)) as D2.
  pose proof (Z.div_mod (s mod 3600) 60 ltac:(lia)) as D3. pose proof (Z.mod_pos_bound (s mod 3600) 60 ltac:(lia)) as M3.
  pose proof (Z.div_mod (s mod 86400) 3600 ltac:(lia)) as D4. pose proof (Z.mod_pos_bound (s mod 86400) 3600 ltac:(lia)) as M4.
  assert (s mod 86400 mod 3600 = s mod 3600) as E by (apply Z.mod_mod_divide; by exists 24).
  destruct (Z.ltb_spec s 3600); [|destruct (Z.ltb_spec s 86400)].
  - assert (s / 86400 = 0) as -> by (apply Z.div_small; lia). rewrite (Z.mod_small s 86400) by lia. assert (s / 3600 = 0) as -> by (apply Z.div_small; lia). cbn [Z.ltb Z.compare].
    eexists. split; [done|]. rewrite (Z.mod_small s 3600) in * by lia. lia.
  - assert (s / 86400 = 0) as -> by (apply Z.div_small; lia). rewrite (Z.mod_small s 86400) in * by lia. destruct (Z.ltb_spec 0 (s / 3600)); [|lia]. cbn [Z.ltb Z.compare].
    do 2 eexists. split; [done|]. lia.
  - destruct (Z.ltb_spec 0 (s / 86400)); [|lia]. do 2 eexists. split; [done|]. lia.
Qed.

(** A clock that is over is red, whatever else it is, and none other is red; what it
    says is how far it is over, and otherwise how much is left. *)
Lemma sla_red_iff_breached t short :
  let b := SlaBadge t short in
  (shown_dot b = dot_danger ↔ timer_breached t = true) ∧ shown_red b = timer_breached t ∧
  (timer_breached t = true → shown_words b = sla_missedBy (humanDuration (timer_remainingSeconds t)) ∨ shown_words b = sla_over (humanDuration (timer_remainingSeconds t))) ∧
  (shown_state b = sla_breached → timer_breached t = true) ∧
  (shown_dot b = dot_warning → timer_remainingSeconds t < 3600 ∧ shown_state b = sla_running).
Proof.
  assert (humanDuration (- timer_remainingSeconds t) = humanDuration (timer_remainingSeconds t)) as E by (unfold humanDuration; by rewrite Z.abs_opp).
  unfold SlaBadge. rewrite E. destruct (timer_completed t), (timer_breached t), (timer_paused t), (Z.ltb_spec (timer_remainingSeconds t) 3600); cbn; split_and!; auto; intros; try split; try done; lia.
Qed.

(** ** The hours are edited *)

Lemma hours_of_with_hours key spans c k : hours_of (with_hours key spans c) k = if decide (key = k) then spans else hours_of c k.
Proof. unfold hours_of. cbn [with_hours cal_hours]. rewrite jget_jset. by case_decide. Qed.

(** The day an edit is of. *)
Definition day_edited (e : HoursEdit) : option string := match e with DayTicked key _ | SpanTyped key _ _ => Some key | _ => None end.
Definition edits_zone (e : HoursEdit) : bool := match e with ZoneTyped _ => true | _ => false end.
Definition edits_days_off (e : HoursEdit) : bool := match e with ExtraDaysTyped _ => true | _ => false end.
Definition edits_holidays (e : HoursEdit) : bool := match e with HolidaysPicked _ _ => true | _ => false end.

Lemma edit_hours e c k : day_edited e ≠ Some k → hours_of (edit_calendar e c) k = hours_of c k.
Proof.
  intros H. destruct e; cbn [edit_calendar day_edited] in *; try done.
  - unfold setDay. rewrite hours_of_with_hours. by case_decide; [congruence|].
  - unfold setSpan. rewrite hours_of_with_hours. by case_decide; [congruence|].
Qed.

Lemma edit_hours_own e c k : day_edited e = Some k → (length (hours_of (edit_calendar e c) k) <= 1)%nat.
Proof.
  intros H. destruct e as [key open|key which value| | |]; cbn [edit_calendar day_edited] in *; try done; injection H as ->.
  - unfold setDay. rewrite hours_of_with_hours, decide_True by done. destruct open; cbn; lia.
  - unfold setSpan. rewrite hours_of_with_hours, decide_True by done. done.
Qed.

Definition edit_all (es : list HoursEdit) (c : BusinessCalendar) : BusinessCalendar := foldl (fun c e => edit_calendar e c) c es.

(** Every control edits its own part of the calendar: whatever is edited, a day whose
    controls were left alone keeps all its hours, and the zone, the days off and the
    holiday calendar stay when theirs were; a day that was edited has one span or none. *)
Lemma hours_edits_apart es c :
  let c' := edit_all es c in
  (∀ k, Forall (fun e => day_edited e ≠ Some k) es → hours_of c' k = hours_of c k) ∧
  (∀ k, (∃ e, e ∈ es ∧ day_edited e = Some k) → (length (hours_of c' k) <= 1)%nat) ∧
  (Forall (fun e => edits_zone e = false) es → cal_timezone c' = cal_timezone c) ∧
  (Forall (fun e => edits_days_off e = false) es → cal_holidays c' = cal_holidays c) ∧
  (Forall (fun e => edits_holidays e = false) es →
     cal_holidayCalendarId c' = cal_holidayCalendarId c ∧ cal_holidayCalendarName c' = cal_holidayCalendarName c).
Proof.
  induction es as [|e es IH] using rev_ind; cbn zeta in *; [split_and!; try done; by intros k (e & He%elem_of_nil & _)|].
  destruct IH as (H1 & H2 & H3 & H4 & H5). unfold edit_all in *. rewrite foldl_app. cbn [foldl]. set (c' := foldl _ c es) in *. split_and!.
  - intros k [Hes [He _]%Forall_cons]%Forall_app. rewrite edit_hours by done. by apply H1.
  - intros k (d & Hd & Ek). destruct (decide (day_edited e = Some k)) as [E|E]; [by apply edit_hours_own|]. rewrite edit_hours by done. apply H2.
    exists d. split; [|done]. apply elem_of_app in Hd as [?|Hd]; [done|]. apply list_elem_of_singleton in Hd as ->. done.
  - intros [Hes [He _]%Forall_cons]%Forall_app. rewrite <- H3 by done. by destruct e.
  - intros [Hes [He _]%Forall_cons]%Forall_app. rewrite <- H4 by done. by destruct e.
  - intros [Hes [He _]%Forall_cons]%Forall_app. destruct (H5 Hes) as [<- <-]. by destruct e.
Qed.

(** The form sends the calendar it shows. *)
Lemma hours_sent_as_shown zone h c : (hours_step zone h HoursSubmitted).2 = Some c → shown_calendar zone h = Some c ∧ ho_saving h = false.
Proof. cbn [hours_step]. destruct (shown_calendar zone h); [|done]. destruct (ho_saving h); [done|]. by intros [= ->]. Qed.

(** A day off as the box reads it. *)
Definition kept_day (h : string) : Prop := h ≠ EmptyString ∧ trim h = h ∧ string_forall (fun c => negb (bool_decide (c = ","%char))) h = true.

Lemma trim_space h : trim (String " " h) = trim h.
Proof.
  unfold trim. cbn [trimEnd]. destruct (trimEnd h) as [|c s] eqn:E; [done|]. cbn [trimStart]. done.
Qed.

Lemma split_days h hs : Forall kept_day (h :: hs) → split "," (join ", " (h :: hs)) = h :: map (String " ") hs.
Proof.
  revert h. induction hs as [|h' hs IH]; intros h [(_ & _ & Hh) Hs]%Forall_cons; [by apply split_no_sep|].
  rewrite join_cons by done. change (h +:+ ", " +:+ ?s) with (h +:+ String "," (String " " s)). rewrite split_app_sep by done. f_equal.
  cbn [split]. rewrite decide_False by done. rewrite (IH h') by done. done.
Qed.

Lemma read_days_split h hs t : Forall kept_day (h :: hs) → trim t = EmptyString → filter (fun h => truthy h = true) (map trim ((h :: map (String " ") hs) ++ [t])) = h :: hs.
Proof.
  intros H Ht. rewrite map_app, filter_app. assert (map trim (h :: map (String " ") hs) = h :: hs) as ->.
  { apply Forall_cons in H as [(_ & Hh & _) Hs]. cbn [map]. f_equal; [done|]. induction Hs as [|h' hs (_ & H' & _) Hs IH]; [done|]. cbn [map]. by rewrite trim_space, H', IH. }
  rewrite filter_every; [|eapply Forall_impl; [exact H|]; intros d [Hd _]; unfold truthy; by rewrite bool_decide_eq_false_2].
  cbn [map]. rewrite Ht. by rewrite app_nil_r.
Qed.

(** The days off that are shown are read back as they are. *)
Lemma extra_days_roundtrip hs : Forall kept_day hs → read_days (join ", " hs) = hs.
Proof.
  intros H. destruct hs as [|h hs]; [done|]. unfold read_days. rewrite split_days by done.
  pose proof (read_days_split h hs EmptyString H eq_refl) as E. rewrite map_app, filter_app in E. cbn [map] in E |- *. rewrite app_nil_r in E. exact E.
Qed.

Lemma split_comma_end s : split "," (s +:+ ",") = split "," s ++ [EmptyString].
Proof.
  induction s as [|c s IH]; [done|]. change (String c s +:+ ",") with (String c (s +:+ ",")). cbn [split]. case_decide; [by rewrite IH|]. rewrite IH.
  pose proof (split_nonnil "," s). by destruct (split "," s).
Qed.

(** A comma typed after the days off is gone from the box at once: a day is never
    added behind another by typing. *)
Lemma comma_never_typed c :
  Forall kept_day (cal_holidays c) → cal_holidays c ≠ [] → extra_days_text (setExtraDays (extra_days_text c +:+ ",") c) = extra_days_text c.
Proof.
  intros H Hn. unfold extra_days_text, setExtraDays. cbn [cal_holidays]. f_equal. unfold read_days. rewrite split_comma_end.
  destruct (cal_holidays c) as [|h hs]; [done|]. rewrite split_days by done. by apply read_days_split.
Qed.

(** Three days apart with the same hours are told as the five from the first to the last. *)
Lemma range_skips_days w :
  describeCalendar w (mkBusinessCalendar "UTC" (map (fun d => (d, [nine_to_five])) ["mon"; "wed"; "fri"]%string) [] None None) =
  hw_dayRange w (hw_short w "mon") (hw_short w "fri") +:+ " " +:+ hw_span w "09:00" "17:00" +:+ " (UTC)".
Proof. reflexivity. Qed.

(** A day of two spans is left with one when the time it opens at is changed. *)
Lemma second_span_dropped :
  let c := mkBusinessCalendar "UTC" [("mon", [mkSpan "09:00" "12:00"; mkSpan "13:00" "17:00"])]%string [] None None in
  hours_of (setSpan "mon" span_opens "08:00" c) "mon" = [mkSpan "08:00" "12:00"]%string.
Proof. reflexivity. Qed.

(** What is edited while a save is on its way is forgotten when it succeeds. *)
Lemma edit_while_saving_lost zone c e : shown_calendar zone (hours_run zone hours_start [CalendarRead c; HoursSubmitted; HoursEdited e; HoursSaved]) = Some c.
Proof. reflexivity. Qed.

(** A calendar that could not be read is drawn as a new desk's, and can be saved. *)
Lemma failed_read_as_new zone : (hours_step zone (hours_run zone hours_start [CalendarFailed]) HoursSubmitted).2 = Some (defaultCalendar zone).
Proof. reflexivity. Qed.
