(* ===== verification/DeskForms.v ===== *)
(** The forms of the service desk: articles and canned responses ([KnowledgeBase] and
    [CannedResponses] of [web/src/features/desk/DeskExtras.tsx]), the lists of domains
    ([Door] there, [Companies.tsx]), the request types ([web/src/routes/service-desk.tsx]),
    the door that mails a code ([DeskEntryForm.tsx]), the agents' queue
    ([routes/queues.tsx]) and the rating a customer gives ([routes/rate.tsx]).

    Each is a state machine whose steps are what is typed and pressed, as far as the
    page lets it be, and the answers of the server; a step may send a request.  A button
    that is loading is disabled and takes the form's Enter with it, and an answer runs
    what the call asked for only while no later call was made of the same hook. *)

From Stdlib Require Import ZArith Lia Ascii String.
From stdpp Require Import base list strings.
From S2P Require Import Prelude JsString Config Paging Desk.

Open Scope Z_scope.

(** ** Articles and canned responses *)

(** An article, or a canned response: its title or name, and its words. *)
Record Entry := mkEntry { entry_id : string; entry_title : string; entry_body : string; entry_published : bool }.

Inductive EntryRequest :=
| EntryCreated (title body : string) | EntrySaved (id title body : string) | EntryPublished (id : string) (published : bool) | EntryDeleted (id : string).

(** The last call of the hook that updates: a save of the form, or a switch of a row. *)
Inductive EntryUpdate := upd_save | upd_publish.

Record EntryForm := mkEntryForm {
  ef_title : string;
  ef_body : string;
  ef_editing : option Entry;
  ef_creating : bool;
  ef_updating : option EntryUpdate;
}.

Definition entry_blank (creating : bool) (updating : option EntryUpdate) : EntryForm := mkEntryForm EmptyString EmptyString None creating updating.

Inductive EntryEvent :=
| TitleTyped (text : string) | BodyTyped (text : string) | EntrySubmitted | EntryEditPressed (e : Entry) | EntryCancelled
| PublishPressed (e : Entry) | EntryDeleteConfirmed (e : Entry) | CreateAnswered (ok : bool) | UpdateAnswered (ok : bool).

Section EntryForms.
(** A canned response needs its words, an article only its title. *)
Context (body_needed : bool).

Definition entry_ready (f : EntryForm) : bool := truthy (trim (ef_title f)) && (negb body_needed || truthy (trim (ef_body f))).
Definition entry_busy (f : EntryForm) : bool := ef_creating f || bool_decide (is_Some (ef_updating f)).

Definition entry_step (f : EntryForm) (e : EntryEvent) : EntryForm * option EntryRequest :=
  match e with
  | TitleTyped text => (mkEntryForm text (ef_body f) (ef_editing f) (ef_creating f) (ef_updating f), None)
  | BodyTyped text => (mkEntryForm (ef_title f) text (ef_editing f) (ef_creating f) (ef_updating f), None)
  | EntrySubmitted =>
      if negb (entry_ready f) || entry_busy f then (f, None)
      else match ef_editing f with
      | Some a =>
          (mkEntryForm (ef_title f) (ef_body f) (ef_editing f) (ef_creating f) (Some upd_save), Some (EntrySaved (entry_id a) (trim (ef_title f)) (trim (ef_body f))))
      | None => (mkEntryForm (ef_title f) (ef_body f) None true (ef_updating f), Some (EntryCreated (trim (ef_title f)) (trim (ef_body f))))
      end
  | EntryEditPressed a => (mkEntryForm (entry_title a) (entry_body a) (Some a) (ef_creating f) (ef_updating f), None)
  | EntryCancelled => if ef_editing f then (entry_blank (ef_creating f) (ef_updating f), None) else (f, None)
  | PublishPressed a =>
      if body_needed then (f, None)
      else (mkEntryForm (ef_title f) (ef_body f) (ef_editing f) (ef_creating f) (Some upd_publish), Some (EntryPublished (entry_id a) (negb (entry_published a))))
  | EntryDeleteConfirmed a => (f, Some (EntryDeleted (entry_id a)))
  | CreateAnswered ok =>
      if ef_creating f then (if ok then mkEntryForm EmptyString EmptyString (ef_editing f) false (ef_updating f) else mkEntryForm (ef_title f) (ef_body f) (ef_editing f) false (ef_updating f), None)
      else (f, None)
  | UpdateAnswered ok =>
      match ef_updating f with
      | Some upd_save => (if ok then entry_blank (ef_creating f) None else mkEntryForm (ef_title f) (ef_body f) (ef_editing f) (ef_creating f) None, None)
      | Some upd_publish => (mkEntryForm (ef_title f) (ef_body f) (ef_editing f) (ef_creating f) None, None)
      | None => (f, None)
      end
  end.

Definition entry_run (f : EntryForm) (events : list EntryEvent) : EntryForm := foldl (fun f e => (entry_step f e).1) f events.
End EntryForms.

(** ** Domains that are trusted, and a company's *)

(** What the form of a domain sends, when it sends anything. *)
Definition domain_added (domains : list string) (draft : string) : option (list string) :=
  let domain := cleanDomain draft in if truthy domain then Some (domains ++ [domain]) else None.
Definition domain_taken_off (domains : list string) (domain : string) : list string := filter (fun d => d ≠ domain) domains.

(** The form of a new company. *)
Definition company_created (name domains : string) : option (string * list string) :=
  if truthy (trim name) then Some (trim name, parseDomains domains) else None.

(** ** Request types: [routes/service-desk.tsx] *)

Record DeskType := mkDeskType {
  dt_id : string;
  dt_name : string;
  dt_description : option string;
  dt_category : string;
  dt_issueTypeId : string;
  dt_priority : string;
  dt_teamId : option string;
  dt_detailsTemplate : string;
}.

(** What is typed on the form of a request type, new or edited. *)
Record TypeFields := mkTypeFields {
  tf_name : string;
  tf_description : string;
  tf_category : string;
  tf_issueTypeId : string;
  tf_priority : string;
  tf_teamId : string;
  tf_template : string;
}.

Record RequestTypeInput := mkRequestTypeInput {
  ti_name : string;
  ti_description : option string;
  ti_category : option string;
  ti_issueTypeId : option string;
  ti_priority : string;
  ti_teamId : option string;
  ti_clearTeam : option bool;
  ti_detailsTemplate : option string;
}.

(** [s || undefined]. *)
Definition or_absent (s : string) : option string := if truthy s then Some s else None.

Definition new_type_fields : TypeFields := mkTypeFields EmptyString EmptyString EmptyString EmptyString "medium" EmptyString EmptyString.

Definition type_created (f : TypeFields) : option RequestTypeInput :=
  if truthy (trim (tf_name f)) then
    Some (mkRequestTypeInput (trim (tf_name f)) (or_absent (trim (tf_description f))) (or_absent (trim (tf_category f))) (or_absent (tf_issueTypeId f))
      (tf_priority f) (or_absent (tf_teamId f)) None (or_absent (tf_template f)))
  else None.

(** The form after the type was made: the next one is like it but for its words. *)
Definition after_type_created (f : TypeFields) : TypeFields :=
  mkTypeFields EmptyString EmptyString (tf_category f) (tf_issueTypeId f) (tf_priority f) (tf_teamId f) EmptyString.

Definition edited_type_fields (t : DeskType) : TypeFields :=
  mkTypeFields (dt_name t) (default EmptyString (dt_description t)) (dt_category t) (dt_issueTypeId t) (dt_priority t) (default EmptyString (dt_teamId t)) (dt_detailsTemplate t).

Definition type_saved (f : TypeFields) : option RequestTypeInput :=
  if truthy (trim (tf_name f)) then
    Some (mkRequestTypeInput (trim (tf_name f)) (Some (trim (tf_description f))) (Some (trim (tf_category f))) (Some (tf_issueTypeId f))
      (tf_priority f) (or_absent (tf_teamId f)) (Some (negb (truthy (tf_teamId f)))) (Some (tf_template f)))
  else None.

(** ** The door that mails a code: [DeskEntryForm.tsx] *)

(** What became of a call: its answer, where an error names the field of the address or
    not. *)
Record DoorError := mkDoorError { de_message : string; de_email : option string }.

(** [dc_asking]: the address a code is being asked for; [dc_asked], [dc_entered]: the
    errors of the two calls. *)
Record CodeDoor := mkCodeDoor {
  dc_email : string;
  dc_code : string;
  dc_sentTo : string;
  dc_asking : option string;
  dc_entering : bool;
  dc_asked : option DoorError;
  dc_entered : option DoorError;
}.

Inductive DoorSent := CodeAsked (email : string) | DoorEntered (email code : string).

Inductive DoorEvent :=
| EmailTyped (text : string) | CodeTyped (text : string) | AskPressed | EnterPressed | AnotherAddress
| CodeMailed | CodeRefused (e : DoorError) | EntryRefused (e : DoorError).

Definition code_door : CodeDoor := mkCodeDoor EmptyString EmptyString EmptyString None false None None.

Definition door_step (d : CodeDoor) (e : DoorEvent) : CodeDoor * option DoorSent :=
  match e with
  | EmailTyped text => if truthy (dc_sentTo d) then (d, None) else (mkCodeDoor text (dc_code d) (dc_sentTo d) (dc_asking d) (dc_entering d) (dc_asked d) (dc_entered d), None)
  | CodeTyped text => if truthy (dc_sentTo d) then (mkCodeDoor (dc_email d) text (dc_sentTo d) (dc_asking d) (dc_entering d) (dc_asked d) (dc_entered d), None) else (d, None)
  | AskPressed =>
      if truthy (dc_sentTo d) || negb (truthy (trim (dc_email d))) || bool_decide (is_Some (dc_asking d)) then (d, None)
      else (mkCodeDoor (dc_email d) (dc_code d) (dc_sentTo d) (Some (trim (dc_email d))) (dc_entering d) None (dc_entered d), Some (CodeAsked (trim (dc_email d))))
  | EnterPressed =>
      if negb (truthy (dc_sentTo d)) || negb (truthy (trim (dc_code d))) || dc_entering d then (d, None)
      else (mkCodeDoor (dc_email d) (dc_code d) (dc_sentTo d) (dc_asking d) true (dc_asked d) None, Some (DoorEntered (dc_sentTo d) (trim (dc_code d))))
  | AnotherAddress => if truthy (dc_sentTo d) then (mkCodeDoor (dc_email d) EmptyString EmptyString None false None None, None) else (d, None)
  | CodeMailed =>
      match dc_asking d with
      | Some email => (mkCodeDoor (dc_email d) (dc_code d) email None (dc_entering d) None (dc_entered d), None)
      | None => (d, None)
      end
  | CodeRefused err =>
      match dc_asking d with
      | Some _ => (mkCodeDoor (dc_email d) (dc_code d) (dc_sentTo d) None (dc_entering d) (Some err) (dc_entered d), None)
      | None => (d, None)
      end
  | EntryRefused err => if dc_entering d then (mkCodeDoor (dc_email d) (dc_code d) (dc_sentTo d) (dc_asking d) false (dc_asked d) (Some err), None) else (d, None)
  end.

Definition door_error (d : CodeDoor) : option DoorError := match dc_entered d with Some e => Some e | None => dc_asked d end.

(** What the form says of an error: over it, and under the box of the address. *)
Definition door_banner (d : CodeDoor) : option string :=
  match door_error d with
  | Some e => if negb (truthy (dc_sentTo d)) && match de_email e with Some m => truthy m | None => false end then None else Some (de_message e)
  | None => None
  end.
Definition door_field (d : CodeDoor) : option string := if truthy (dc_sentTo d) then None else door_error d ≫= de_email.

(** A run, with what was sent and what was mailed, in their order. *)
Inductive DoorNote := noted_sent (s : DoorSent) | noted_mailed (email : string).

Definition door_notes (d : CodeDoor) (e : DoorEvent) : list DoorNote :=
  match (door_step d e).2 with Some s => [noted_sent s] | None => [] end ++
  match e, dc_asking d with CodeMailed, Some email => [noted_mailed email] | _, _ => [] end.

Definition door_run (events : list DoorEvent) : CodeDoor * list DoorNote :=
  foldl (fun r e => ((door_step r.1 e).1, r.2 ++ door_notes r.1 e)) (code_door, []) events.

(** The door left open: what it sends of a name and an address. *)
Definition open_door_sent (name email : string) : option (string * string) :=
  if truthy (trim email) then Some (trim email, trim name) else None.

(** ** The agents' queue: [routes/queues.tsx] *)

Inductive QueueFilter := queue_open | queue_unassigned | queue_mine | queue_breached | queue_all.
#[export] Instance QueueFilter_eq : EqDecision QueueFilter.
Proof. solve_decision. Defined.

(** [qu_page]: the page the last answer was of, with the number of requests it told. *)
Record QueueList := mkQueueList { qu_filter : QueueFilter; qu_offset : Z; qu_company : string; qu_total : option Z }.

Inductive QueueEvent := QueueChosen (f : QueueFilter) | CompanyChosen (c : string) | QueueTurned (back : bool) | QueueAnswered (total : Z).

Definition queue_asked (q : QueueList) : QueueFilter * Z * string := (qu_filter q, qu_offset q, qu_company q).

Definition queue_total (q : QueueList) : Z := default 0 (qu_total q).

Definition desk_queue_step (words : Z → Z → Z → string) (q : QueueList) (e : QueueEvent) : QueueList :=
  match e with
  | QueueChosen f => mkQueueList f 0 (qu_company q) (if decide (f = qu_filter q ∧ qu_offset q = 0) then qu_total q else None)
  | CompanyChosen c => mkQueueList (qu_filter q) 0 c (if decide (c = qu_company q ∧ qu_offset q = 0) then qu_total q else None)
  | QueueTurned back =>
      match Pager words (queue_total q) (qu_offset q) QUEUE_PAGE_SIZE with
      | Some p => match (if back then pager_previous p else pager_next p) with
                  | Some offset => mkQueueList (qu_filter q) offset (qu_company q) None
                  | None => q
                  end
      | None => q
      end
  | QueueAnswered total =>
      let offset := clampOffset (qu_offset q) total QUEUE_PAGE_SIZE in
      mkQueueList (qu_filter q) offset (qu_company q) (if decide (offset = qu_offset q) then Some total else None)
  end.

(** ** The rating: [routes/rate.tsx] *)

Record RatePage := mkRatePage { ra_score : Z; ra_comment : string; ra_pending : bool; ra_success : bool; ra_rated : option bool }.

Inductive RateEvent := ScorePressed (n : Z) | CommentTyped (text : string) | RateSubmitted | RateAnswered (ok : bool) | RatePageRead (rated : bool).

Definition rate_done (r : RatePage) : bool := default false (ra_rated r) || ra_success r.

(** The form is there once the page is read and until a rating was taken. *)
Definition rate_form (r : RatePage) : bool := bool_decide (is_Some (ra_rated r)) && negb (rate_done r).

Definition rate_step (r : RatePage) (e : RateEvent) : RatePage * option (Z * option string) :=
  match e with
  | ScorePressed n =>
      if rate_form r && bool_decide (n ∈ CSAT_SCORES) then (mkRatePage n (ra_comment r) (ra_pending r) (ra_success r) (ra_rated r), None) else (r, None)
  | CommentTyped text => if rate_form r then (mkRatePage (ra_score r) text (ra_pending r) (ra_success r) (ra_rated r), None) else (r, None)
  | RateSubmitted =>
      if rate_form r && negb (ra_pending r) && negb (ra_score r =? 0)
      then (mkRatePage (ra_score r) (ra_comment r) true false (ra_rated r), Some (ra_score r, or_absent (trim (ra_comment r))))
      else (r, None)
  | RateAnswered ok => if ra_pending r then (mkRatePage (ra_score r) (ra_comment r) false ok (ra_rated r), None) else (r, None)
  | RatePageRead rated => (mkRatePage (ra_score r) (ra_comment r) (ra_pending r) (ra_success r) (Some rated), None)
  end.

Definition rate_start : RatePage := mkRatePage 0 EmptyString false false None.
Definition rate_run (r : RatePage) (events : list RateEvent) : RatePage := foldl (fun r e => (rate_step r e).1) r events.

(** ** What the forms send *)

(** An entry is sent as it stands on the form, trimmed, never without its title, and
    under the entry that is being edited; and a second call waits for the first. *)
Lemma entry_sent_as_shown needed f r :
  (entry_step needed f EntrySubmitted).2 = Some r →
  entry_busy f = false ∧ trim (ef_title f) ≠ EmptyString ∧
  r = match ef_editing f with Some a => EntrySaved (entry_id a) (trim (ef_title f)) (trim (ef_body f)) | None => EntryCreated (trim (ef_title f)) (trim (ef_body f)) end.
Proof.
  cbn [entry_step]. destruct (entry_ready needed f) eqn:E; [|done]. destruct (entry_busy f); [done|]. cbn [negb orb].
  intros H. split_and!; [done| |by destruct (ef_editing f); injection H as <-]. unfold entry_ready, truthy in E. apply andb_true_iff in E as [E _].
  intros Ht. by rewrite Ht in E.
Qed.

(** Pressing edit and save at once sends the entry as it is. *)
Lemma entry_unchanged needed f a :
  entry_busy f = false → trim (entry_title a) = entry_title a → trim (entry_body a) = entry_body a → entry_title a ≠ EmptyString → entry_body a ≠ EmptyString →
  (entry_step needed (entry_step needed f (EntryEditPressed a)).1 EntrySubmitted).2 = Some (EntrySaved (entry_id a) (entry_title a) (entry_body a)).
Proof.
  intros Hb Ht Hd Hn Hm. cbn [entry_step fst]. unfold entry_ready, entry_busy in *. cbn [ef_title ef_body ef_editing ef_creating ef_updating]. rewrite Ht, Hd, Hb.
  unfold truthy. rewrite !bool_decide_eq_false_2 by done. by rewrite orb_true_r.
Qed.

(** The save of one entry, answered late, takes the form of another off the page. *)
Lemma late_save_takes_form a b :
  let f := entry_run false (entry_blank false None) [EntryEditPressed a; TitleTyped "x"; EntrySubmitted; EntryEditPressed b; UpdateAnswered true] in
  ef_editing f = None ∧ ef_title f = EmptyString.
Proof. split; reflexivity. Qed.

(** An entry made late empties the form of the one that is being edited, which can then
    be saved without its words. *)
Lemma late_create_empties_edit b :
  let f := entry_run false (entry_blank false None) [TitleTyped "x"; EntrySubmitted; EntryEditPressed b; CreateAnswered true; TitleTyped "y"] in
  (entry_step false f EntrySubmitted).2 = Some (EntrySaved (entry_id b) "y" EmptyString).
Proof. reflexivity. Qed.

(** A list of domains grows by one clean domain and by no other. *)
Lemma domain_added_clean domains draft domains' :
  domain_added domains draft = Some domains' → ∃ d, domains' = domains ++ [d] ∧ d = cleanDomain draft ∧ d ≠ EmptyString ∧ toLowerCase d = d.
Proof.
  unfold domain_added. destruct (truthy _) eqn:E; [|done]. intros [= <-]. eexists. split_and!; [done|done| |apply toLowerCase_idem].
  intros Ed. by rewrite Ed in E.
Qed.

(** A domain typed with a space in it keeps the space. *)
Lemma domain_keeps_space : cleanDomain " @Acme .test " = "acme .test"%string.
Proof. reflexivity. Qed.

(** Saving the form of a request type that was opened and left alone sends the type as
    it is, and takes its team away only when it had none. *)
Lemma type_edit_unchanged t :
  dt_name t ≠ EmptyString → trim (dt_name t) = dt_name t → trim (dt_category t) = dt_category t → (∀ d, dt_description t = Some d → trim d = d) → dt_teamId t ≠ Some EmptyString →
  type_saved (edited_type_fields t) =
    Some (mkRequestTypeInput (dt_name t) (Some (default EmptyString (dt_description t))) (Some (dt_category t)) (Some (dt_issueTypeId t)) (dt_priority t)
      (dt_teamId t) (Some (bool_decide (dt_teamId t = None))) (Some (dt_detailsTemplate t))).
Proof.
  intros Hn Ht Hc Hd Hm. unfold type_saved, edited_type_fields. cbn [tf_name tf_description tf_category tf_issueTypeId tf_priority tf_teamId tf_template].
  rewrite Ht, Hc. unfold truthy at 1. rewrite bool_decide_eq_false_2 by done. cbn [negb]. f_equal. f_equal.
  - destruct (dt_description t) as [d|]; [|done]. unfold default, from_option, id. by rewrite (Hd d).
  - destruct (dt_teamId t) as [m|]; [|done]. unfold or_absent, truthy. cbn. rewrite bool_decide_eq_false_2; [done|congruence].
  - destruct (dt_teamId t) as [m|]; [|done]. unfold truthy. cbn. rewrite bool_decide_eq_false_2; [done|congruence].
Qed.

(** ** The door *)

(** What is kept of the door: a code is asked for of a trimmed address that is not
    empty; one is entered only for an address a code was mailed to. *)
Record door_ok (d : CodeDoor) (notes : list DoorNote) : Prop := mkDoorOk {
  dok_sent : dc_sentTo d ≠ EmptyString → noted_mailed (dc_sentTo d) ∈ notes;
  dok_asking : ∀ a, dc_asking d = Some a → a ≠ EmptyString ∧ noted_sent (CodeAsked a) ∈ notes;
}.

Lemma truthy_spec s : truthy s = true ↔ s ≠ EmptyString.
Proof. unfold truthy. rewrite negb_true_iff. apply bool_decide_eq_false. Qed.

Lemma door_step_ok d notes e : door_ok d notes → door_ok (door_step d e).1 (notes ++ door_notes d e).
Proof.
  intros [H1 H2]. assert (∀ l, door_ok d (notes ++ l)) as Hstay.
  { intros l. split; [intros E; apply elem_of_app; left; auto|]. intros a E. destruct (H2 a E). split; [done|]. apply elem_of_app. by left. }
  unfold door_notes. destruct e; cbn [door_step].
  - destruct (truthy _); cbn [fst snd]; [apply Hstay|]. split; [apply (Hstay _)|apply (Hstay _)].
  - destruct (truthy _); cbn [fst snd]; [|apply Hstay]. split; [apply (Hstay _)|apply (Hstay _)].
  - destruct (truthy _) eqn:E1; cbn [orb fst]; [apply Hstay|]. destruct (truthy (trim (dc_email d))) eqn:E2; cbn [negb orb fst]; [|apply Hstay].
    destruct (bool_decide _); cbn [fst snd]; [apply Hstay|]. split; [apply (Hstay _)|]. cbn [dc_asking]. intros a [= <-]. split; [by apply truthy_spec|].
    apply elem_of_app. right. apply elem_of_app. left. by left.
  - destruct (negb _); cbn [orb fst]; [apply Hstay|]. destruct (negb _); cbn [orb fst]; [apply Hstay|]. destruct (dc_entering d); cbn [fst]; [apply Hstay|].
    split; [apply (Hstay _)|apply (Hstay _)].
  - destruct (truthy _); cbn [fst]; [|apply Hstay]. by split.
  - destruct (dc_asking d) as [a|] eqn:E; cbn [fst snd]; [|apply Hstay]. split; cbn [dc_sentTo dc_asking]; [|done]. intros _. apply elem_of_app. right. by left.
  - destruct (dc_asking d) as [a|] eqn:E; cbn [fst]; [|apply Hstay]. split; [apply (Hstay _)|done].
  - destruct (dc_entering d); cbn [fst]; [|apply Hstay]. split; [apply (Hstay _)|apply (Hstay _)].
Qed.

Lemma door_run_snoc events e : door_run (events ++ [e]) = ((door_step (door_run events).1 e).1, (door_run events).2 ++ door_notes (door_run events).1 e).
Proof. unfold door_run. by rewrite foldl_app. Qed.

Lemma door_run_ok events : door_ok (door_run events).1 (door_run events).2.
Proof. induction events as [|e events IH] using rev_ind; [by split|]. rewrite door_run_snoc. by apply door_step_ok. Qed.

(** What is sent in at a step is sent first of all, for the address a code was mailed to. *)
Lemma door_notes_entered d e i email entered :
  door_notes d e !! i = Some (noted_sent (DoorEntered email entered)) →
  i = O ∧ email = dc_sentTo d ∧ email ≠ EmptyString ∧ entered ≠ EmptyString ∧ trim entered = entered.
Proof.
  unfold door_notes. destruct e; cbn [door_step].
  4: destruct (truthy (dc_sentTo d)) eqn:E1, (truthy (trim (dc_code d))) eqn:E2, (dc_entering d); cbn; try (by destruct i); destruct i as [|i]; [|by destruct i];
     intros [= <- <-]; split_and!; [done|done|by apply truthy_spec|by apply truthy_spec|apply trim_idem].
  1,2,4: destruct (truthy (dc_sentTo d)); by destruct i.
  - destruct (truthy (dc_sentTo d)), (truthy (trim (dc_email d))), (bool_decide _); destruct i as [|[|i]]; done.
  - destruct (dc_asking d); destruct i as [|[|i]]; done.
  - destruct (dc_asking d); destruct i as [|[|i]]; done.
  - destruct (dc_entering d); by destruct i.
Qed.

(** C33: whatever is typed and pressed at the door, and whenever the server answers: a
    code is sent in only for an address a code was mailed to before, and neither the
    address nor the code is empty; the code is sent without the space around it. *)
Theorem code_entered_where_mailed events i email entered :
  (door_run events).2 !! i = Some (noted_sent (DoorEntered email entered)) →
  noted_mailed email ∈ take i (door_run events).2 ∧ email ≠ EmptyString ∧ entered ≠ EmptyString ∧ trim entered = entered.
Proof.
  induction events as [|e events IH] using rev_ind; [done|]. rewrite door_run_snoc. cbn [snd].
  pose proof (door_run_ok events) as [H1 _]. set (d := (door_run events).1) in *. set (notes := (door_run events).2) in *.
  intros [Hi|[Hl Hi]]%lookup_app_Some.
  - rewrite take_app_le by (apply lookup_lt_Some in Hi; lia). by apply IH.
  - apply door_notes_entered in Hi as (E & -> & Hn & Hc & Ht). assert (i = length notes) as -> by lia. rewrite take_app_length. split_and!; auto.
Qed.

Lemma code_entered_where_mailed_witness :
  let r := door_run [EmailTyped " a@acme.test "; AskPressed; CodeMailed; CodeTyped "42 "; EnterPressed] in
  noted_mailed "a@acme.test" ∈ take 2 r.2 ∧ r.2 !! 2%nat = Some (noted_sent (DoorEntered "a@acme.test" "42")).
Proof.
  intros r. pose proof (code_entered_where_mailed [EmailTyped " a@acme.test "; AskPressed; CodeMailed; CodeTyped "42 "; EnterPressed] 2 "a@acme.test" "42" eq_refl) as [H _].
  split; [exact H|reflexivity].
Defined.

(** ** The queue and the rating *)

(** The page of a queue is never before its start, and not past the end the last answer
    told; choosing another queue or company starts at the first page. *)
Definition queue_ok (q : QueueList) : Prop := 0 <= qu_offset q ∧ ∀ total, qu_total q = Some total → 0 <= total → qu_offset q < Z.max 1 total.

Lemma clamp_in_list offset total size : 0 < size → 0 <= offset → 0 <= total → 0 <= clampOffset offset total size < Z.max 1 total.
Proof.
  intros Hs Ho Ht. unfold clampOffset. destruct (Z.ltb_spec offset total); [lia|]. pose proof (Z.mul_div_le (total - 1) size Hs). destruct (Z.eq_dec total 0) as [->|]; [|lia].
  assert ((0 - 1) / size * size <= 0) by lia. lia.
Qed.

Lemma desk_queue_step_ok words q e : queue_ok q → (∀ total, e = QueueAnswered total → 0 <= total) → queue_ok (desk_queue_step words q e).
Proof.
  intros [H1 H2] He. destruct e as [f|c|back|total]; cbn [desk_queue_step].
  - split; cbn [qu_offset qu_total]; lia.
  - split; cbn [qu_offset qu_total]; lia.
  - unfold Pager. destruct (_ && _); [by split|]. destruct back; cbn [pager_previous pager_next]; case_match; try done; (case_match; [done|]); simplify_eq; split; cbn [qu_offset qu_total]; try done; unfold QUEUE_PAGE_SIZE; lia.
  - specialize (He total eq_refl). pose proof (clamp_in_list (qu_offset q) total QUEUE_PAGE_SIZE ltac:(done) H1 He). split; cbn [qu_offset qu_total]; [lia|]. intros t. case_decide; [|done].
    intros [= <-] _. lia.
Qed.

(** A rating is one of the scores, and is not sent before the page is read, while
    another is on its way, or after one was taken. *)
Lemma rating_sent r score comment : (rate_step r RateSubmitted).2 = Some (score, comment) → score = ra_score r ∧ ra_rated r = Some false ∧ ra_pending r = false ∧ ra_success r = false.
Proof.
  cbn [rate_step]. unfold rate_form, rate_done. destruct (ra_rated r) as [[]|]; cbn; try done. destruct (ra_success r), (ra_pending r); cbn; try done. destruct (_ =? _); cbn; [done|]. by intros [= <- <-].
Qed.

Lemma rate_scores r events : ra_score r = 0 ∨ ra_score r ∈ CSAT_SCORES → ra_score (rate_run r events) = 0 ∨ ra_score (rate_run r events) ∈ CSAT_SCORES.
Proof.
  intros H. induction events as [|e events IH] using rev_ind; [done|]. unfold rate_run in *. rewrite foldl_app. cbn [foldl]. set (r' := foldl _ r events) in *.
  destruct e; cbn [rate_step]; try (destruct (rate_form r'); done).
  - destruct (rate_form r'); cbn [andb]; [|done]. case_bool_decide; [by right|done].
  - destruct (rate_form r'); cbn [andb]; [|done]. destruct (_ && _); done.
  - by destruct (ra_pending r').
Qed.

Lemma rated_once r events : ra_success r = true → ra_pending r = false → ra_success (rate_run r events) = true ∧ (rate_step (rate_run r events) RateSubmitted).2 = None.
Proof.
  intros H1 H2. assert (ra_success (rate_run r events) = true ∧ ra_pending (rate_run r events) = false) as [K1 K2].
  { induction events as [|e events [I1 I2]] using rev_ind; [done|]. unfold rate_run in *. rewrite foldl_app. cbn [foldl]. set (r' := foldl _ r events) in *.
    assert (rate_form r' = false) as Hf by (unfold rate_form, rate_done; rewrite I1, orb_true_r; apply andb_false_r).
    destruct e; cbn [rate_step]; rewrite ?Hf, ?I2; done. }
  split; [done|]. destruct (rate_step _ _).2 as [[s c]|] eqn:E; [|done]. apply rating_sent in E as (_ & _ & _ & E). congruence.
Qed.
