(* ===== verification/Portal.v ===== *)
(** The customers' side of the service desk: [web/src/routes/portal.tsx] with
    [features/desk/PortalSendRow.tsx], [sharedByCompany] of [features/desk/company.ts]
    and [formatSize] of [api/attachments.ts].

    The form that raises a request is a state machine.  Sending is a run of calls, the
    request first and then its files one after another, and goes on while the form is
    used; every run the form started is kept, in order, with where it has come to. *)

From Stdlib Require Import ZArith Lia Ascii String.
From stdpp Require Import base list strings.
From S2P Require Import Prelude JsString Config Desk.

Open Scope Z_scope.

(** ** Sizes *)

Definition SIZE_UNITS : list string := ["B"; "KB"; "MB"; "GB"]%string.

(** [fuel] units are left above [unit]; [value] in the source is [bytes / 1024 ^ unit],
    which a double holds exactly. *)
Fixpoint size_unit (fuel : nat) (bytes unit : Z) : Z :=
  match fuel with
  | O => unit
  | S fuel' => if 1024 * 1024 ^ unit <=? bytes then size_unit fuel' bytes (unit + 1) else unit
  end.

Definition formatSize (bytes : Z) : string :=
  let unit := size_unit (length SIZE_UNITS - 1) bytes 0 in
  let one := 1024 ^ unit in
  let shown :=
    if unit =? 0 then stringOfInt bytes
    else if bytes <? 10 * one then
      let tenths := (20 * bytes + one) / (2 * one) in stringOfInt (tenths / 10) +:+ "." +:+ stringOfInt (tenths mod 10)
    else stringOfInt ((2 * bytes + one) / (2 * one)) in
  shown +:+ " " +:+ default EmptyString (SIZE_UNITS !! Z.to_nat unit).

(** ** Data *)

Record PortalPerson := mkPortalPerson { person_id : string; person_name : string }.

Record PortalRequest := mkPortalRequest {
  pr_key : string;
  pr_summary : string;
  pr_status : string;
  pr_company : option string;
  pr_sharedWithCompany : bool;
  pr_reporter : option PortalPerson;
}.

Record PortalDesk := mkPortalDesk {
  desk_projectKey : string;
  desk_name : string;
  desk_requestTypes : list RequestType;
  desk_company : option string;
  desk_repliesByMail : bool;
}.

(** A file as the browser hands it over; [pf_id] tells one from another. *)
Record PortalFile := mkPortalFile { pf_id : nat; pf_name : string; pf_size : Z }.
#[export] Instance PortalFile_eq : EqDecision PortalFile.
Proof. solve_decision. Defined.

(** ** What colleagues shared: [company.ts] *)

Definition company_of (r : PortalRequest) : string := default EmptyString (pr_company r).

Fixpoint push_shared (groups : list (string * list PortalRequest)) (r : PortalRequest) : list (string * list PortalRequest) :=
  match groups with
  | [] => [(company_of r, [r])]
  | (company, requests) :: groups' => if decide (company = company_of r) then (company, requests ++ [r]) :: groups' else (company, requests) :: push_shared groups' r
  end.

Definition sharedByCompany (requests : list PortalRequest) : list (string * list PortalRequest) := foldl push_shared [] requests.

(** ** Raising a request: [RaiseRequest] *)

(** Where a run of sending has come to: the request is on its way, with the files that
    were queued; or it is made under a key, and a file is on its way. *)
Inductive Run :=
| run_raising (files : list PortalFile)
| run_attaching (key : string) (now : PortalFile) (rest : list PortalFile) (names : list string) (done_ total : nat)
| run_over.

Record RequestForm := mkRequestForm {
  rf_desks : option (list PortalDesk);
  rf_limit : Z;
  rf_deskKey : string;
  rf_typeId : string;
  rf_summary : string;
  rf_description : string;
  rf_templateShown : string;
  rf_share : bool;
  rf_files : list PortalFile;
  rf_tooBig : option (PortalFile * Z);
  rf_query : string;
  rf_found : nat;
  rf_runs : list Run;
  rf_attaching : option (nat * nat);
  rf_refusal : option string;
  rf_raisedKey : option string;
  rf_failed : option (string * list string);
}.

Record RaiseInput := mkRaiseInput {
  ri_requestTypeId : string;
  ri_summary : string;
  ri_description : option string;
  ri_shareWithCompany : bool;
}.

(** What is sent and what is answered, in order. *)
Inductive PortalNote :=
| NoteRaise (input : RaiseInput) (files : list PortalFile) | NoteRaised (key : string) | NoteRefused
| NoteAttach (key : string) (file : PortalFile) | NoteAttached (file : PortalFile) (ok : bool).

(** The desk and the type the form is at. *)
Definition the_desk (f : RequestForm) : option PortalDesk :=
  let desks := default [] (rf_desks f) in
  match (if truthy (rf_deskKey f) then Some (rf_deskKey f) else desk_projectKey <$> head desks) with
  | Some key => head (filter (fun d => desk_projectKey d = key) desks)
  | None => None
  end.
Definition offered_types (f : RequestForm) : list RequestType := match the_desk f with Some d => desk_requestTypes d | None => [] end.
Definition chosen_type (f : RequestForm) : option RequestType :=
  match head (filter (fun t => rt_id t = rf_typeId f) (offered_types f)) with Some t => Some t | None => head (offered_types f) end.
Definition template_of (f : RequestForm) : string := match chosen_type f with Some t => rt_detailsTemplate t | None => EmptyString end.

Definition with_details (description shown : string) (f : RequestForm) : RequestForm :=
  mkRequestForm (rf_desks f) (rf_limit f) (rf_deskKey f) (rf_typeId f) (rf_summary f) description shown (rf_share f) (rf_files f) (rf_tooBig f)
    (rf_query f) (rf_found f) (rf_runs f) (rf_attaching f) (rf_refusal f) (rf_raisedKey f) (rf_failed f).

(** Drawing the form: another template than the one shown is put in the box, if the box
    takes it. *)
Definition draw_form (f : RequestForm) : RequestForm :=
  if decide (template_of f = rf_templateShown f) then f
  else with_details (prefillDetails (rf_description f) (rf_templateShown f) (template_of f)) (template_of f) f.

(** The search among the articles is on the page once a desk is there and it has
    something to show. *)
Definition search_on_page (f : RequestForm) : bool :=
  bool_decide (is_Some (the_desk f)) && (negb (bool_decide (rf_found f = O)) || truthy (rf_query f)).

Definition form_ready (f : RequestForm) : bool := bool_decide (is_Some (chosen_type f)) && truthy (trim (rf_summary f)).
Definition form_sending (f : RequestForm) : bool :=
  match last (rf_runs f) with Some (run_raising _) => true | _ => bool_decide (is_Some (rf_attaching f)) end.

Definition with_fields (deskKey typeId summary : string) (share : bool) (f : RequestForm) : RequestForm :=
  mkRequestForm (rf_desks f) (rf_limit f) deskKey typeId summary (rf_description f) (rf_templateShown f) share (rf_files f) (rf_tooBig f)
    (rf_query f) (rf_found f) (rf_runs f) (rf_attaching f) (rf_refusal f) (rf_raisedKey f) (rf_failed f).
Definition with_files (files : list PortalFile) (tooBig : option (PortalFile * Z)) (f : RequestForm) : RequestForm :=
  mkRequestForm (rf_desks f) (rf_limit f) (rf_deskKey f) (rf_typeId f) (rf_summary f) (rf_description f) (rf_templateShown f) (rf_share f) files tooBig
    (rf_query f) (rf_found f) (rf_runs f) (rf_attaching f) (rf_refusal f) (rf_raisedKey f) (rf_failed f).
Definition with_articles (query : string) (found : nat) (f : RequestForm) : RequestForm :=
  mkRequestForm (rf_desks f) (rf_limit f) (rf_deskKey f) (rf_typeId f) (rf_summary f) (rf_description f) (rf_templateShown f) (rf_share f) (rf_files f) (rf_tooBig f)
    query found (rf_runs f) (rf_attaching f) (rf_refusal f) (rf_raisedKey f) (rf_failed f).
Definition with_sending (runs : list Run) (attaching : option (nat * nat)) (refusal raisedKey : option string) (failed : option (string * list string)) (f : RequestForm) : RequestForm :=
  mkRequestForm (rf_desks f) (rf_limit f) (rf_deskKey f) (rf_typeId f) (rf_summary f) (rf_description f) (rf_templateShown f) (rf_share f) (rf_files f) (rf_tooBig f)
    (rf_query f) (rf_found f) runs attaching refusal raisedKey failed.
Definition with_answers (desks : option (list PortalDesk)) (limit : Z) (f : RequestForm) : RequestForm :=
  mkRequestForm desks limit (rf_deskKey f) (rf_typeId f) (rf_summary f) (rf_description f) (rf_templateShown f) (rf_share f) (rf_files f) (rf_tooBig f)
    (rf_query f) (rf_found f) (rf_runs f) (rf_attaching f) (rf_refusal f) (rf_raisedKey f) (rf_failed f).

(** [onPick]: what fits is queued, unless a file of its name is queued already. *)
Definition onPick (picked : list PortalFile) (f : RequestForm) : RequestForm :=
  let large := head (filter (fun p => rf_limit f < pf_size p) picked) in
  with_files (rf_files f ++ filter (fun p => pf_size p <= rf_limit f ∧ pf_name p ∉ map pf_name (rf_files f)) picked)
    ((fun l => (l, rf_limit f)) <$> large) f.

(** [onSubmit], up to its first call. *)
Definition onSubmit (f : RequestForm) : RequestForm * list PortalNote :=
  match chosen_type f with
  | Some chosen =>
      if truthy (trim (rf_summary f)) then
        let description := trim (rf_description f) in
        let share := bool_decide (is_Some (the_desk f ≫= desk_company)) && rf_share f in
        (with_sending (rf_runs f ++ [run_raising (rf_files f)]) (rf_attaching f) None (rf_raisedKey f) (rf_failed f) f,
         [NoteRaise (mkRaiseInput (rt_id chosen) (trim (rf_summary f)) (if truthy description then Some description else None) share) (rf_files f)])
      else (f, [])
  | None => (f, [])
  end.

(** The rest of [onSubmit]: the next file, or the end of the run. *)
Definition next_file (i : nat) (key : string) (names : list string) (left : list PortalFile) (done_ total : nat) (f : RequestForm) : RequestForm * list PortalNote :=
  match left with
  | file :: rest =>
      (with_sending (<[i := run_attaching key file rest names done_ total]> (rf_runs f)) (Some (done_, total)) (rf_refusal f) (rf_raisedKey f) (rf_failed f) f,
       [NoteAttach key file])
  | [] =>
      (with_sending (<[i := run_over]> (rf_runs f)) None (rf_refusal f)
         (if bool_decide (names = []) then Some key else rf_raisedKey f)
         (if bool_decide (names = []) then rf_failed f else Some (key, names)) f, [])
  end.

(** The run [i] is answered. *)
Definition raise_answered (i : nat) (answer : option string) (message : string) (f : RequestForm) : RequestForm * list PortalNote :=
  match rf_runs f !! i, answer with
  | Some (run_raising files), Some key =>
      let '(f', notes) := next_file i key [] files 0 (length files) f in (f', NoteRaised key :: notes)
  | Some (run_raising _), None =>
      (with_sending (<[i := run_over]> (rf_runs f)) (rf_attaching f)
         (if bool_decide (S i = length (rf_runs f)) then Some message else rf_refusal f) (rf_raisedKey f) (rf_failed f) f, [NoteRefused])
  | _, _ => (f, [])
  end.

Definition attach_answered (i : nat) (ok : bool) (f : RequestForm) : RequestForm * list PortalNote :=
  match rf_runs f !! i with
  | Some (run_attaching key now rest names done_ total) =>
      let '(f', notes) := next_file i key (if ok then names else names ++ [pf_name now]) rest (S done_) total f in
      (f', NoteAttached now ok :: notes)
  | _ => (f, [])
  end.

(** [SendPressed]: the button, or Enter while the button is there; [SendEntered]: Enter
    in the summary while no button is, which the browser takes for sending when the
    summary is the only box of its kind. *)
Inductive RequestEvent :=
| DesksRead (desks : list PortalDesk) | LimitRead (limit : Z) | DeskChosen (key : string) | TypeChosen (id : string)
| SummaryTyped (text : string) | DetailsTyped (text : string) | ShareTicked (on : bool)
| FilesPicked (picked : list PortalFile) | QueuedRemoved (file : PortalFile)
| QueryTyped (text : string) | ArticlesRead (found : nat)
| SendPressed | SendEntered
| Raised (i : nat) (key : string) | RaiseRefused (i : nat) (message : string) | FileAnswered (i : nat) (ok : bool).

Definition enter_pressed (e : RequestEvent) : bool := match e with SendEntered => true | _ => false end.

Definition quiet (f : RequestForm) : RequestForm * list PortalNote := (f, []).

Definition request_handle (f : RequestForm) (e : RequestEvent) : RequestForm * list PortalNote :=
  match e with
  | Raised i key => raise_answered i (Some key) EmptyString f
  | RaiseRefused i message => raise_answered i None message f
  | FileAnswered i ok => attach_answered i ok f
  | DesksRead desks => quiet (with_answers (Some desks) (rf_limit f) f)
  | LimitRead limit => quiet (with_answers (rf_desks f) limit f)
  | _ =>
      if bool_decide (is_Some (rf_raisedKey f)) then quiet f
      else match e with
      | DeskChosen key => quiet (with_articles (rf_query f) 0 (with_fields key EmptyString (rf_summary f) (rf_share f) f))
      | TypeChosen id => quiet (with_fields (rf_deskKey f) id (rf_summary f) (rf_share f) f)
      | SummaryTyped text => quiet (with_fields (rf_deskKey f) (rf_typeId f) text (rf_share f) f)
      | DetailsTyped text => quiet (with_details text (rf_templateShown f) f)
      | ShareTicked on => quiet (with_fields (rf_deskKey f) (rf_typeId f) (rf_summary f) on f)
      | FilesPicked picked => quiet (onPick picked f)
      | QueuedRemoved file => quiet (with_files (filter (fun c => c ≠ file) (rf_files f)) (rf_tooBig f) f)
      | QueryTyped text => quiet (if search_on_page f then with_articles text 0 f else f)
      | ArticlesRead found => quiet (with_articles (rf_query f) found f)
      | SendPressed => if bool_decide (rf_failed f = None) && form_ready f && negb (form_sending f) then onSubmit f else quiet f
      | SendEntered => if bool_decide (is_Some (rf_failed f)) && negb (search_on_page f) then onSubmit f else quiet f
      | _ => quiet f
      end
  end.

Definition request_step (f : RequestForm) (e : RequestEvent) : RequestForm * list PortalNote := let '(f', notes) := request_handle f e in (draw_form f', notes).

Definition request_start : RequestForm :=
  mkRequestForm None ATTACHMENT_MAX_BYTES EmptyString EmptyString EmptyString EmptyString EmptyString false [] None EmptyString 0 [] None None None None.

Definition request_run (events : list RequestEvent) : RequestForm * list PortalNote :=
  foldl (fun r e => let '(f', notes) := request_step r.1 e in (f', r.2 ++ notes)) (request_start, []) events.

(** What the send row is of: the failure, or the button and what it says. *)
Inductive SendRow := row_failed (key : string) (names : list string) | row_send (refusal : option string) (progress : option (nat * nat)) (pressable loading : bool).

Definition PortalSendRow (f : RequestForm) : SendRow :=
  match rf_failed f with
  | Some (key, names) => row_failed key names
  | None => row_send (rf_refusal f) ((fun a => (S a.1, a.2)) <$> rf_attaching f) (form_ready f && negb (form_sending f)) (form_sending f)
  end.

(** ** Reading the notes *)

Definition raised_keys (notes : list PortalNote) : list string := omap (fun n => match n with NoteRaised key => Some key | _ => None end) notes.
Definition attached (notes : list PortalNote) : list (string * PortalFile) := omap (fun n => match n with NoteAttach key file => Some (key, file) | _ => None end) notes.
Definition file_answers (notes : list PortalNote) : list (PortalFile * bool) := omap (fun n => match n with NoteAttached file ok => Some (file, ok) | _ => None end) notes.
Definition raises (notes : list PortalNote) : list (RaiseInput * list PortalFile) := omap (fun n => match n with NoteRaise input files => Some (input, files) | _ => None end) notes.

(** The names of the files that were refused. *)
Definition refused_names (notes : list PortalNote) : list string := map (fun a => pf_name a.1) (filter (fun a => a.2 = false) (file_answers notes)).

(** ** The templates in the details *)

Lemma draw_details f : rf_description (draw_form f) = rf_description f ∨ rf_description (draw_form f) = template_of f ∧ (trim (rf_description f) = EmptyString ∨ rf_description f = rf_templateShown f).
Proof.
  unfold draw_form. case_decide; [by left|]. cbn [with_details rf_description]. unfold prefillDetails. destruct (bool_decide _ || bool_decide _) eqn:E; [right|by left].
  split; [done|]. apply orb_true_iff in E as [E|E]; apply bool_decide_eq_true in E; auto.
Qed.

Lemma next_file_fields i key names left done_ total f :
  rf_description (next_file i key names left done_ total f).1 = rf_description f ∧ rf_templateShown (next_file i key names left done_ total f).1 = rf_templateShown f ∧
  rf_desks (next_file i key names left done_ total f).1 = rf_desks f.
Proof. by destruct left. Qed.

Definition types_details (e : RequestEvent) : bool := match e with DetailsTyped _ => true | _ => false end.
Definition desks_read (e : RequestEvent) : list PortalDesk := match e with DesksRead desks => desks | _ => [] end.

Lemma handle_fields f e :
  (types_details e = false → rf_description (request_handle f e).1 = rf_description f) ∧ rf_templateShown (request_handle f e).1 = rf_templateShown f ∧
  (rf_desks (request_handle f e).1 = rf_desks f ∨ rf_desks (request_handle f e).1 = Some (desks_read e)).
Proof.
  assert (rf_description (onSubmit f).1 = rf_description f ∧ rf_templateShown (onSubmit f).1 = rf_templateShown f ∧ rf_desks (onSubmit f).1 = rf_desks f) as Hs.
  { unfold onSubmit. destruct (chosen_type f); [|done]. by destruct (truthy _). }
  destruct e; cbn [request_handle types_details desks_read]; try (by split_and!; auto);
    try (destruct (bool_decide (is_Some (rf_raisedKey f))); by split_and!; auto).
  - destruct (bool_decide (is_Some (rf_raisedKey f))); [by split_and!; auto|]. destruct (search_on_page f); by split_and!; auto.
  - destruct (bool_decide (is_Some (rf_raisedKey f))); [by split_and!; auto|]. destruct (_ && _); [|by split_and!; auto]. destruct Hs as (?&?&?). by split_and!; auto.
  - destruct (bool_decide (is_Some (rf_raisedKey f))); [by split_and!; auto|]. destruct (_ && _); [|by split_and!; auto]. destruct Hs as (?&?&?). by split_and!; auto.
  - unfold raise_answered. destruct (_ !! i) as [[files|? ? ? ? ? ?|]|]; try (by split_and!; auto). pose proof (next_file_fields i key [] files 0 (length files) f) as (?&?&?).
    destruct (next_file _ _ _ _ _ _ _). cbn [fst] in *. by split_and!; auto.
  - unfold raise_answered. destruct (_ !! i) as [[files|? ? ? ? ? ?|]|]; by split_and!; auto.
  - unfold attach_answered. destruct (_ !! i) as [[files|key now rest names done_ total|]|]; try (by split_and!; auto).
    pose proof (next_file_fields i key (if ok then names else names ++ [pf_name now]) rest (S done_) total f) as (?&?&?). destruct (next_file _ _ _ _ _ _ _). cbn [fst] in *. by split_and!; auto.
Qed.

(** No type of the desks offers the text as its template. *)
Definition no_template (d : string) (desks : list PortalDesk) : Prop := Forall (fun desk => Forall (fun t => rt_detailsTemplate t ≠ d) (desk_requestTypes desk)) desks.

Lemma head_elem {A} (l : list A) x : head l = Some x → x ∈ l.
Proof. destruct l; [done|]. intros [= ->]. by left. Qed.

Lemma template_not d f : no_template d (default [] (rf_desks f)) → d ≠ EmptyString → template_of f ≠ d.
Proof.
  intros Hn Hd. unfold template_of. destruct (chosen_type f) as [t|] eqn:E; [|congruence]. assert (t ∈ offered_types f) as Ht.
  { unfold chosen_type in E. destruct (head (filter _ _)) eqn:E'; [|by apply head_elem]. injection E as ->. by apply head_elem, list_elem_of_filter in E' as [_ ?]. }
  unfold offered_types in Ht. destruct (the_desk f) as [desk|] eqn:Ed; [|by apply elem_of_nil in Ht]. assert (desk ∈ default [] (rf_desks f)) as Hin.
  { unfold the_desk in Ed. destruct (if truthy (rf_deskKey f) then _ else _); [|done]. by apply head_elem, list_elem_of_filter in Ed as [_ ?]. }
  unfold no_template in Hn. rewrite Forall_forall in Hn. specialize (Hn _ Hin). rewrite Forall_forall in Hn. by apply Hn.
Qed.

Definition request_steps (f : RequestForm) (events : list RequestEvent) : RequestForm := foldl (fun f e => (request_step f e).1) f events.

(** What a requester has typed into the details is never overwritten: unless it is
    itself the template of a type that is offered, it stays through every other event,
    whatever desk and type are chosen. *)
Lemma typed_details_stay f d events :
  trim d ≠ EmptyString → rf_raisedKey f = None → no_template d (default [] (rf_desks f)) → rf_templateShown f ≠ d →
  Forall (fun e => types_details e = false ∧ no_template d (desks_read e)) events →
  rf_description (request_steps (request_step f (DetailsTyped d)).1 events) = d.
Proof.
  intros Hd Hr Hn Hs He. set (P f := rf_description f = d ∧ rf_templateShown f ≠ d ∧ no_template d (default [] (rf_desks f))).
  assert (∀ g, P g → P (draw_form g)) as Hdraw.
  { intros g (H1 & H2 & H3). unfold draw_form. case_decide; [done|]. cbn. unfold prefillDetails. rewrite H1, !bool_decide_eq_false_2 by done.
    split_and!; [done| |done]. apply template_not; [done|]. intros ->. by apply Hd. }
  assert (P (request_step f (DetailsTyped d)).1) as H0.
  { unfold request_step. cbn [request_handle]. rewrite Hr. cbn. apply Hdraw. done. }
  assert (P (request_steps (request_step f (DetailsTyped d)).1 events)) as [H _]; [|exact H]. revert H0. generalize (request_step f (DetailsTyped d)).1 as g.
  induction He as [|e events [He1 He2] He IH]; intros g Hg; [done|]. cbn [request_steps foldl]. apply IH. destruct Hg as (H1 & H2 & H3).
  destruct (handle_fields g e) as (K1 & K2 & K3). unfold request_step. destruct (request_handle g e) as [g' notes]. cbn [fst] in *. apply Hdraw. split_and!.
  - rewrite K1; done.
  - by rewrite K2.
  - destruct K3 as [-> | ->]; [done|exact He2].
Qed.

(** ** Sending *)

Definition run_ended (r : Run) : Prop := r = run_over.

(** The files of the request asked for last. *)
Definition files_sent (notes : list PortalNote) : option (list PortalFile) := snd <$> last (raises notes).

(** Nothing of a request was made. *)
Record unsent (f : RequestForm) (notes : list PortalNote) : Prop := mkUnsent {
  us_raised : raised_keys notes = [];
  us_attached : attached notes = [];
  us_answers : file_answers notes = [];
  us_key : rf_raisedKey f = None;
  us_failed : rf_failed f = None;
  us_attaching : rf_attaching f = None;
}.

(** Where sending has come to, as an observer of the calls has it. *)
Inductive sending_ok (f : RequestForm) (notes : list PortalNote) : Prop :=
| at_rest : unsent f notes → Forall run_ended (rf_runs f) → sending_ok f notes
| at_raising overs files :
    unsent f notes → Forall run_ended overs → rf_runs f = overs ++ [run_raising files] → files_sent notes = Some files → sending_ok f notes
| at_file overs key now rest total :
    Forall run_ended overs → rf_runs f = overs ++ [run_attaching key now rest (refused_names notes) (length (file_answers notes)) total] →
    is_Some (rf_attaching f) → rf_raisedKey f = None → rf_failed f = None → raised_keys notes = [key] →
    files_sent notes = Some (map fst (file_answers notes) ++ now :: rest) → attached notes = map (pair key) (map fst (file_answers notes) ++ [now]) → sending_ok f notes
| at_end key :
    Forall run_ended (rf_runs f) → raised_keys notes = [key] → files_sent notes = Some (map fst (file_answers notes)) → attached notes = map (pair key) (map fst (file_answers notes)) →
    rf_raisedKey f = (if decide (refused_names notes = []) then Some key else None) →
    rf_failed f = (if decide (refused_names notes = []) then None else Some (key, refused_names notes)) → sending_ok f notes.

(** Only the runs and what they set matter to it. *)
Definition same_sending (f g : RequestForm) : Prop :=
  rf_runs g = rf_runs f ∧ rf_attaching g = rf_attaching f ∧ rf_raisedKey g = rf_raisedKey f ∧ rf_failed g = rf_failed f.

Lemma sending_same f g notes : same_sending f g → sending_ok f notes → sending_ok g notes.
Proof.
  intros (E1 & E2 & E3 & E4) H. destruct H as [[]|? ? []| |].
  - apply at_rest; [split|]; congruence.
  - eapply at_raising; [split| |rewrite E1|]; congruence || eauto.
  - eapply at_file; [|rewrite E1|rewrite E2|rewrite E3|rewrite E4| | |]; eauto.
  - eapply at_end; [rewrite E1| | | |rewrite E3|rewrite E4]; eauto.
Qed.

Lemma draw_same f : same_sending f (draw_form f).
Proof. unfold draw_form. by case_decide. Qed.

Lemma raised_keys_app l1 l2 : raised_keys (l1 ++ l2) = raised_keys l1 ++ raised_keys l2.
Proof. apply omap_app. Qed.
Lemma attached_app l1 l2 : attached (l1 ++ l2) = attached l1 ++ attached l2.
Proof. apply omap_app. Qed.
Lemma file_answers_app l1 l2 : file_answers (l1 ++ l2) = file_answers l1 ++ file_answers l2.
Proof. apply omap_app. Qed.
Lemma raises_app l1 l2 : raises (l1 ++ l2) = raises l1 ++ raises l2.
Proof. apply omap_app. Qed.
Lemma refused_names_app l1 l2 : refused_names (l1 ++ l2) = refused_names l1 ++ refused_names l2.
Proof. unfold refused_names. by rewrite file_answers_app, filter_app, map_app. Qed.

#[local] Hint Rewrite raised_keys_app attached_app file_answers_app raises_app refused_names_app : notes.

(** The next file, or the end, of a request that is made. *)
Lemma next_file_ok f notes overs r key left total :
  Forall run_ended overs → rf_runs f = overs ++ [r] → rf_raisedKey f = None → rf_failed f = None → raised_keys notes = [key] →
  files_sent notes = Some (map fst (file_answers notes) ++ left) → attached notes = map (pair key) (map fst (file_answers notes)) →
  let r := next_file (length overs) key (refused_names notes) left (length (file_answers notes)) total f in sending_ok r.1 (notes ++ r.2).
Proof.
  intros Ho Hr Hk Hf Hkeys Hsent Hatt. assert (∀ x, <[length overs := x]> (rf_runs f) = overs ++ [x]) as Hins.
  { intros x. rewrite Hr. rewrite insert_app_r_alt by done. by rewrite Nat.sub_diag. }
  destruct left as [|now rest]; cbn [next_file fst snd].
  - rewrite app_nil_r in *. apply (at_end _ _ key); cbn [with_sending rf_runs rf_raisedKey rf_failed]; rewrite ?Hins; [|done|done|done| |].
    + apply Forall_app. split; [done|]. by repeat constructor.
    + rewrite Hk. case_bool_decide; by case_decide.
    + rewrite Hf. case_bool_decide; by case_decide.
  - eapply (at_file _ _ overs key now rest total); cbn [with_sending rf_runs rf_raisedKey rf_failed rf_attaching]; rewrite ?Hins; autorewrite with notes; cbn; rewrite ?app_nil_r; try done.
    + unfold files_sent in *. autorewrite with notes. cbn. by rewrite app_nil_r.
    + rewrite Hatt, map_app. done.
Qed.

Lemma over_no_answer f i answer message ok :
  (∀ r, rf_runs f !! i = Some r → run_ended r) → raise_answered i answer message f = (f, []) ∧ attach_answered i ok f = (f, []).
Proof.
  intros H. unfold raise_answered, attach_answered. destruct (rf_runs f !! i) as [r|]; [|done]. by rewrite (H r eq_refl).
Qed.

(** An answer finds the run that waits, or none. *)
Lemma answered_run (runs overs : list Run) x i r : Forall run_ended overs → runs = overs ++ [x] → runs !! i = Some r → run_ended r ∨ i = length overs ∧ r = x.
Proof.
  intros Ho -> [Hi|[Hl Hi]]%lookup_app_Some; [left; by eapply Forall_lookup_1|]. right.
  destruct (i - length overs)%nat eqn:E; [|done]. injection Hi as <-. split; [lia|done].
Qed.

Lemma raise_answered_ok f notes i answer message :
  sending_ok f notes → sending_ok (raise_answered i answer message f).1 (notes ++ (raise_answered i answer message f).2).
Proof.
  intros H. assert ((∀ r, rf_runs f !! i = Some r → run_ended r) → sending_ok (raise_answered i answer message f).1 (notes ++ (raise_answered i answer message f).2)) as Hover.
  { intros Hr. destruct (over_no_answer f i answer message true Hr) as [-> _]. cbn. by rewrite app_nil_r. }
  destruct H as [Hu Hr|overs files Hu Ho Hr Hs|overs key now rest total Ho Hr Ha Hk Hf Hkeys Hs Hatt|key Ho Hkeys Hs Hatt Hk Hf] eqn:EH.
  - apply Hover. intros r. by apply Forall_lookup_1.
  - destruct (rf_runs f !! i) as [r|] eqn:Ei; [|by apply Hover].
    destruct (answered_run _ _ _ i r Ho Hr Ei) as [Hr'|[-> ->]]; [by apply Hover; intros ? [= <-]|]. unfold raise_answered. rewrite Ei. destruct Hu as [U1 U2 U3 U4 U5 U6].
    destruct answer as [key|].
    + pose proof (next_file_ok f (notes ++ [NoteRaised key]) overs (run_raising files) key files (length files) Ho Hr U4 U5) as Hn.
      unfold files_sent in Hn, Hs. autorewrite with notes in Hn. rewrite U1, U2, U3 in Hn. assert (refused_names notes = []) as Hrn by (unfold refused_names; by rewrite U3).
      rewrite Hrn in Hn. cbn in Hn. rewrite app_nil_r in Hn. specialize (Hn eq_refl Hs eq_refl). cbn [fst snd length] in Hn.
      destruct (next_file _ _ _ _ _ _ _) as [f' ns]. cbn [fst snd] in *. by rewrite <- app_assoc in Hn.
    + cbn [fst snd]. apply at_rest; [split; autorewrite with notes; cbn; rewrite ?app_nil_r; done|]. cbn [with_sending rf_runs]. rewrite Hr.
      rewrite insert_app_r_alt by done. rewrite Nat.sub_diag. apply Forall_app. split; [done|]. by repeat constructor.
  - destruct (rf_runs f !! i) as [r|] eqn:Ei; [|by apply Hover].
    destruct (answered_run _ _ _ i r Ho Hr Ei) as [Hr'|[-> ->]]; [by apply Hover; intros ? [= <-]|]. unfold raise_answered. rewrite Ei. cbn. by rewrite app_nil_r.
  - apply Hover. intros r. by apply Forall_lookup_1.
Qed.

Lemma attach_answered_ok f notes i ok : sending_ok f notes → sending_ok (attach_answered i ok f).1 (notes ++ (attach_answered i ok f).2).
Proof.
  intros H. assert ((∀ r, rf_runs f !! i = Some r → run_ended r) → sending_ok (attach_answered i ok f).1 (notes ++ (attach_answered i ok f).2)) as Hover.
  { intros Hr. destruct (over_no_answer f i None EmptyString ok Hr) as [_ ->]. cbn. by rewrite app_nil_r. }
  destruct H as [Hu Hr|overs files Hu Ho Hr Hs|overs key now rest total Ho Hr Ha Hk Hf Hkeys Hs Hatt|key Ho Hkeys Hs Hatt Hk Hf] eqn:EH.
  - apply Hover. intros r. by apply Forall_lookup_1.
  - destruct (rf_runs f !! i) as [r|] eqn:Ei; [|by apply Hover].
    destruct (answered_run _ _ _ i r Ho Hr Ei) as [Hr'|[-> ->]]; [by apply Hover; intros ? [= <-]|]. unfold attach_answered. rewrite Ei. cbn. by rewrite app_nil_r.
  - destruct (rf_runs f !! i) as [r|] eqn:Ei; [|by apply Hover].
    destruct (answered_run _ _ _ i r Ho Hr Ei) as [Hr'|[-> ->]]; [by apply Hover; intros ? [= <-]|]. unfold attach_answered. rewrite Ei.
    pose proof (next_file_ok f (notes ++ [NoteAttached now ok]) overs _ key rest total Ho Hr Hk Hf) as Hn.
    unfold files_sent in Hn, Hs. autorewrite with notes in Hn. cbn [raised_keys attached file_answers raises omap list_omap] in Hn. rewrite !app_nil_r, map_app in Hn.
    cbn [map fst] in Hn. rewrite <- app_assoc, length_app, Nat.add_1_r in Hn. specialize (Hn Hkeys Hs Hatt).
    assert (refused_names notes ++ refused_names [NoteAttached now ok] = if ok then refused_names notes else refused_names notes ++ [pf_name now]) as E
      by (destruct ok; cbn; [by rewrite app_nil_r|done]). rewrite E in Hn.
    destruct (next_file _ _ _ _ _ _ _) as [f' ns]. cbn [fst snd] in *. by rewrite <- app_assoc in Hn.
  - apply Hover. intros r. by apply Forall_lookup_1.
Qed.

(** Sending starts only where nothing is on its way and nothing was made. *)
Lemma send_pressed_ok f notes :
  sending_ok f notes → rf_raisedKey f = None → rf_failed f = None → form_sending f = false → sending_ok (onSubmit f).1 (notes ++ (onSubmit f).2).
Proof.
  intros H Hk Hf Hb. unfold onSubmit. destruct (chosen_type f); [|cbn; by rewrite app_nil_r]. destruct (truthy _); [|cbn; by rewrite app_nil_r]. cbn [fst snd].
  destruct H as [[U1 U2 U3 U4 U5 U6] Hr|overs files Hu Ho Hr Hs|overs key now rest total Ho Hr Ha Hk' Hf' Hkeys Hs Hatt|key Ho Hkeys Hs Hatt Hk' Hf'].
  - eapply at_raising; [split| |reflexivity|]; cbn; unfold files_sent; autorewrite with notes; cbn; rewrite ?app_nil_r, ?last_snoc; done.
  - unfold form_sending in Hb. by rewrite Hr, last_snoc in Hb.
  - unfold form_sending in Hb. rewrite Hr, last_snoc in Hb. apply bool_decide_eq_false in Hb. done.
  - rewrite Hk in Hk'. rewrite Hf in Hf'. by case_decide.
Qed.

Lemma request_step_ok f notes e : e ≠ SendEntered → sending_ok f notes → sending_ok (request_step f e).1 (notes ++ (request_step f e).2).
Proof.
  intros He H. assert (sending_ok (request_handle f e).1 (notes ++ (request_handle f e).2)) as Hh.
  { assert (∀ g, same_sending f g → sending_ok g (notes ++ [])) as Hq by (intros g Hg; rewrite app_nil_r; by eapply sending_same).
    destruct e; cbn [request_handle]; try (by apply raise_answered_ok); try (by apply attach_answered_ok); try (by apply Hq);
      (destruct (bool_decide (is_Some (rf_raisedKey f))) eqn:Ek; [by apply Hq|]); try (by apply Hq).
    - destruct (search_on_page f); by apply Hq.
    - destruct (bool_decide (rf_failed f = None)) eqn:Ef; cbn [andb]; [|by apply Hq]. destruct (form_ready f); cbn [andb]; [|by apply Hq].
      destruct (form_sending f) eqn:Eb; cbn [negb]; [by apply Hq|]. apply bool_decide_eq_true in Ef. apply bool_decide_eq_false, eq_None_not_Some in Ek. by apply send_pressed_ok.
    - by destruct He. }
  unfold request_step. destruct (request_handle f e) as [f' ns]. cbn [fst snd] in *. eapply sending_same; [apply draw_same|done].
Qed.

Lemma request_run_snoc events e :
  request_run (events ++ [e]) = ((request_step (request_run events).1 e).1, (request_run events).2 ++ (request_step (request_run events).1 e).2).
Proof. unfold request_run. rewrite foldl_app. cbn [foldl]. by destruct (request_step _ e). Qed.

(** The request was sent and made once, and its files with it, or nothing was made. *)
Definition raised_once (f : RequestForm) (notes : list PortalNote) : Prop :=
  match raised_keys notes with
  | [] => attached notes = [] ∧ rf_raisedKey f = None ∧ rf_failed f = None
  | [key] => ∃ files, files_sent notes = Some files ∧
      attached notes = map (pair key) (take (S (length (file_answers notes))) files) ∧
      map fst (file_answers notes) = take (length (file_answers notes)) files ∧
      match drop (length (file_answers notes)) files with
      | [] => rf_raisedKey f = (if decide (refused_names notes = []) then Some key else None) ∧
              rf_failed f = (if decide (refused_names notes = []) then None else Some (key, refused_names notes))
      | file :: _ => rf_raisedKey f = None ∧ rf_failed f = None ∧ ∃ i, ∀ ok, ∃ more, (request_step f (FileAnswered i ok)).2 = NoteAttached file ok :: more
      end
  | _ => False
  end.

Lemma sending_raised_once f notes : sending_ok f notes → raised_once f notes.
Proof.
  unfold raised_once. intros [[U1 U2 U3 U4 U5 U6] Hr|overs files [U1 U2 U3 U4 U5 U6] Ho Hr Hs|overs key now rest total Ho Hr Ha Hk Hf Hkeys Hs Hatt|key Ho Hkeys Hs Hatt Hk Hf].
  - by rewrite U1.
  - by rewrite U1.
  - rewrite Hkeys. exists (map fst (file_answers notes) ++ now :: rest). set (l := map fst (file_answers notes)) in *. assert (length (file_answers notes) = length l) as -> by (symmetry; apply length_map).
    rewrite take_app_length, drop_app_length. split_and!; [done| |done|done|done|].
    + rewrite Hatt. f_equal. rewrite take_app_ge by lia. by replace (S (length l) - length l)%nat with 1%nat by lia.
    + exists (length overs). intros ok. unfold request_step. cbn [request_handle]. unfold attach_answered. rewrite Hr, list_lookup_middle by done.
      destruct (next_file _ _ _ _ _ _ _). eexists. reflexivity.
  - rewrite Hkeys. exists (map fst (file_answers notes)). set (l := map fst (file_answers notes)) in *. assert (length (file_answers notes) = length l) as -> by (symmetry; apply length_map).
    rewrite (take_ge l), firstn_all, drop_all by lia. done.
Qed.

(** Enter in the summary sends a request where one was made already: files were refused it,
    and the form names them. *)
Definition entered_again (f : RequestForm) (notes : list PortalNote) : Prop :=
  (∃ key, raised_keys notes = [key] ∧ refused_names notes ≠ [] ∧ rf_failed f = Some (key, refused_names notes)) ∧
  ∃ input files, (request_step f SendEntered).2 = [NoteRaise input files].

Lemma enter_ok f notes :
  sending_ok f notes → sending_ok (request_step f SendEntered).1 (notes ++ (request_step f SendEntered).2) ∨ entered_again f notes.
Proof.
  intros H. assert (sending_ok (draw_form f) (notes ++ [])) as Hq by (rewrite app_nil_r; eapply sending_same; [apply draw_same|done]).
  unfold entered_again, request_step. cbn [request_handle]. destruct (bool_decide (is_Some (rf_raisedKey f))); [by left|].
  destruct (bool_decide (is_Some (rf_failed f))) eqn:Ef; cbn [andb]; [|by left]. destruct (negb (search_on_page f)); [|by left].
  apply bool_decide_eq_true in Ef as [kn Ef]. unfold onSubmit. destruct (chosen_type f); [|by left]. destruct (truthy _); [|by left]. right. cbn [fst snd]. split; [|eauto].
  destruct H as [[]|? ? []|? ? ? ? ? ? ? ? ? Hf|key Ho Hkeys Hs Hatt Hk Hf]; try congruence.
  exists key. rewrite Hf in Ef |- *. by case_decide.
Qed.

Lemma request_run_ok events :
  sending_ok (request_run events).1 (request_run events).2 ∨
  ∃ before after, events = before ++ SendEntered :: after ∧ sending_ok (request_run before).1 (request_run before).2 ∧ entered_again (request_run before).1 (request_run before).2.
Proof.
  induction events as [|e events IH] using rev_ind; [left; by apply at_rest|]. destruct IH as [IH|(before & after & -> & H)].
  - rewrite request_run_snoc. destruct (decide (enter_pressed e = true)) as [He|He]; [|left; apply request_step_ok; [by intros ->|done]].
    destruct e; try done. destruct (enter_ok _ _ IH) as [H|H]; [by left|]. right. by exists events, [].
  - right. exists before, (after ++ [e]). by rewrite <- (assoc_L (++)).
Qed.

(** C9: raising a request, whatever is done on the form meanwhile and in whatever order
    the server answers: the request is made once at most.  Nothing is attached before it
    is made; then exactly the files that were queued when it was sent are sent to it,
    one after another and each once, the next when the one before it is answered, and
    the next answer can always be taken.  When all are answered the form goes to the
    request, or, when some were refused, names exactly those; and not before.  There is
    one way to send a second request, and no other: Enter in the summary, after the first
    was made, all its files were answered and some refused. *)
Theorem request_raised_once events :
  raised_once (request_run events).1 (request_run events).2 ∨
  ∃ before after, events = before ++ SendEntered :: after ∧
    raised_once (request_run before).1 (request_run before).2 ∧ entered_again (request_run before).1 (request_run before).2.
Proof.
  destruct (request_run_ok events) as [H|(before & after & E & H & Ha)]; [left|right; exists before, after; split; [done|split; [|done]]]; by apply sending_raised_once.
Qed.

Definition a_desk : PortalDesk := mkPortalDesk "HELP" "Help" [mkRequestType "1" "Ask" EmptyString "Where:"] None false.

Lemma request_raised_once_witness :
  let a := mkPortalFile 1 "a.png" 10 in let b := mkPortalFile 2 "b.png" 20 in
  let events := [DesksRead [a_desk]; SummaryTyped " Broken "; FilesPicked [a; b]; SendPressed; Raised 0 "HELP-1"; FileAnswered 0 true; QueuedRemoved b; SendPressed; FileAnswered 0 false] in
  let '(f, notes) := request_run events in
  attached notes = [("HELP-1", a); ("HELP-1", b)]%string ∧ rf_failed f = Some ("HELP-1", ["b.png"])%string ∧ rf_raisedKey f = None.
Proof.
  intros a b events. destruct (request_raised_once events) as [H|(before & after & E & _)].
  - destruct (request_run events) as [f notes] eqn:E. assert (E' := E). vm_compute in E'. injection E' as Ef En. rewrite <- En in H. cbn in H.
    destruct H as (files & Hs & Ha & _ & H). cbn in Hs. injection Hs as <-. cbn in H. destruct H as [H1 H2].
    rewrite <- En. split_and!; [reflexivity|exact H2|exact H1].
  - exfalso. assert (existsb enter_pressed events = true) as Hx by (rewrite E, existsb_app; apply orb_true_r). discriminate Hx.
Defined.

(** Once a file was refused the form is still there, without its button: Enter in the
    summary raises the request a second time. *)
Lemma enter_raises_again :
  let a := mkPortalFile 1 "a.png" 10 in
  raised_keys (request_run [DesksRead [a_desk]; SummaryTyped "Broken"; FilesPicked [a]; SendPressed; Raised 0 "HELP-1"; FileAnswered 0 false; SendEntered; Raised 1 "HELP-2"]).2 =
  ["HELP-1"; "HELP-2"]%string.
Proof. vm_compute. reflexivity. Qed.

(** A file taken out of the queue while the request is on its way is sent all the same. *)
Lemma removed_file_sent :
  let a := mkPortalFile 1 "a.png" 10 in
  attached (request_run [DesksRead [a_desk]; SummaryTyped "Broken"; FilesPicked [a]; SendPressed; QueuedRemoved a; Raised 0 "HELP-1"]).2 = [("HELP-1", a)]%string.
Proof. vm_compute. reflexivity. Qed.

(** ** What is raised, and the files queued for it *)

(** A request is raised of a type its desk offers, with a summary, and shared only where
    the customer has a company to share it with. *)
Lemma request_body f e input files :
  NoteRaise input files ∈ (request_step f e).2 →
  files = rf_files f ∧ (∃ t, t ∈ offered_types f ∧ ri_requestTypeId input = rt_id t) ∧
  ri_summary input = trim (rf_summary f) ∧ ri_summary input ≠ EmptyString ∧
  (ri_shareWithCompany input = true → rf_share f = true ∧ is_Some (the_desk f ≫= desk_company)).
Proof.
  assert (∀ f, NoteRaise input files ∈ (onSubmit f).2 → files = rf_files f ∧ (∃ t, t ∈ offered_types f ∧ ri_requestTypeId input = rt_id t) ∧
    ri_summary input = trim (rf_summary f) ∧ ri_summary input ≠ EmptyString ∧ (ri_shareWithCompany input = true → rf_share f = true ∧ is_Some (the_desk f ≫= desk_company))) as Hs.
  { intros g. unfold onSubmit. destruct (chosen_type g) as [t|] eqn:Et; [|by intros ?%elem_of_nil]. destruct (truthy _) eqn:E; [|by intros ?%elem_of_nil].
    cbn [snd]. intros [= -> ->]%list_elem_of_singleton. cbn. split_and!; [done| |done| |].
    - exists t. split; [|done]. unfold chosen_type in Et. destruct (head (filter _ _)) eqn:E'; [|by apply head_elem]. injection Et as ->. by apply head_elem, list_elem_of_filter in E' as [_ ?].
    - intros Hn. by rewrite Hn in E.
    - intros [H1 H2]%andb_true_iff. apply bool_decide_eq_true in H1. done. }
  assert (∀ g ns, NoteRaise input files ∈ (request_step g ns).2 → NoteRaise input files ∈ (request_handle g ns).2) as Hd by (intros g ns; unfold request_step; by destruct (request_handle g ns)).
  intros Hin%Hd. assert (∀ i key names left d n, NoteRaise input files ∉ (next_file i key names left d n f).2) as Hn.
  { intros i key names left d n. destruct left; cbn; [by intros ?%elem_of_nil|]. by intros ?%list_elem_of_singleton. }
  destruct e; cbn [request_handle] in Hin; try (by apply elem_of_nil in Hin); try (destruct (bool_decide (is_Some (rf_raisedKey f))); by apply elem_of_nil in Hin).
  - destruct (bool_decide (is_Some _)); [by apply elem_of_nil in Hin|]. destruct (_ && _); [by apply Hs|by apply elem_of_nil in Hin].
  - destruct (bool_decide (is_Some _)); [by apply elem_of_nil in Hin|]. destruct (_ && _); [by apply Hs|by apply elem_of_nil in Hin].
  - unfold raise_answered in Hin. destruct (_ !! i) as [[fs|? ? ? ? ? ?|]|]; try (by apply elem_of_nil in Hin). specialize (Hn i key [] fs 0%nat (length fs)).
    destruct (next_file _ _ _ _ _ _ _). by apply elem_of_cons in Hin as [?|?].
  - unfold raise_answered in Hin. destruct (_ !! i) as [[fs|? ? ? ? ? ?|]|]; try (by apply elem_of_nil in Hin). by apply list_elem_of_singleton in Hin.
  - unfold attach_answered in Hin. destruct (_ !! i) as [[fs|key now rest names d n|]|]; try (by apply elem_of_nil in Hin).
    specialize (Hn i key (if ok then names else names ++ [pf_name now]) rest (S d) n). destruct (next_file _ _ _ _ _ _ _). by apply elem_of_cons in Hin as [?|?].
Qed.

(** Picking files: the queue only ever takes files that fit, no two of one name as long
    as none were picked together, and keeps what it held; the first that does not fit is
    the one told of. *)
Lemma picked_files picked f :
  NoDup (map pf_name picked) → NoDup (map pf_name (rf_files f)) →
  let f' := onPick picked f in
  NoDup (map pf_name (rf_files f')) ∧ (∀ p, p ∈ rf_files f' → p ∈ rf_files f ∨ p ∈ picked ∧ pf_size p <= rf_limit f) ∧ (∀ p, p ∈ rf_files f → p ∈ rf_files f') ∧
  (rf_tooBig f' = None ↔ ∀ p, p ∈ picked → pf_size p <= rf_limit f).
Proof.
  intros Hp Hf. cbn [onPick with_files rf_files rf_tooBig]. split_and!.
  - rewrite map_app. apply NoDup_app. split_and!; [done| |by apply NoDup_map_filter].
    intros n Hn (p & -> & [[_ Hq] _]%list_elem_of_filter)%list_elem_of_fmap. by apply Hq.
  - intros p [?|[[? _] ?]%list_elem_of_filter]%elem_of_app; auto.
  - intros p Hin. apply elem_of_app. by left.
  - rewrite fmap_None. split.
    + intros Hn p Hin. destruct (Z_lt_le_dec (rf_limit f) (pf_size p)) as [Hl|]; [|done].
      assert (p ∈ filter (fun p => rf_limit f < pf_size p) picked) as Hx by by apply list_elem_of_filter. destruct (filter _ picked); [by apply elem_of_nil in Hx|done].
    + intros Hall. destruct (head _) as [p|] eqn:E; [|done]. apply head_elem, list_elem_of_filter in E as [Hl Hin]. specialize (Hall p Hin). lia.
Qed.

(** ** What colleagues shared *)

Lemma push_shared_group groups r : push_shared groups r = group_push company_of groups r.
Proof.
  unfold group_push. induction groups as [|[c rs] groups IH]; [done|]. cbn [push_shared jset jget]. case_decide; [done|]. by rewrite IH.
Qed.

(** Every request shared is under its company and under no other, in the order they
    came, and no company has two lists. *)
Lemma shared_by_company requests :
  concat (jvals (sharedByCompany requests)) ≡ₚ requests ∧ NoDup (jkeys (sharedByCompany requests)) ∧
  (∀ company rs, (company, rs) ∈ sharedByCompany requests ↔ company ∈ company_of <$> requests ∧ rs = filter (fun r => company_of r = company) requests).
Proof.
  assert (sharedByCompany requests = group_by company_of requests) as ->.
  { unfold sharedByCompany, group_by. generalize (@nil (string * list PortalRequest)). induction requests as [|r requests IH]; intros g; [done|]. cbn [foldl]. by rewrite push_shared_group, IH. }
  split_and!; [apply concat_group_by|apply NoDup_jkeys_group_by|]. intros. apply elem_of_group_by.
Qed.

(** ** Sizes *)

Lemma size_unit_spec fuel bytes unit :
  0 <= unit → 1024 ^ unit <= Z.max 1 bytes ∨ unit = 0 →
  let u := size_unit fuel bytes unit in unit <= u <= unit + Z.of_nat fuel ∧ (u = 0 ∨ 1024 ^ u <= bytes ∨ u = unit) ∧ (u < unit + Z.of_nat fuel → bytes < 1024 * 1024 ^ u).
Proof.
  revert unit. induction fuel as [|fuel IH]; intros unit Hu Hb; cbn [size_unit]; [lia|]. destruct (Z.leb_spec (1024 * 1024 ^ unit) bytes) as [Hl|Hl]; [|lia].
  assert (1024 ^ (unit + 1) = 1024 * 1024 ^ unit) as E by (rewrite Z.pow_add_r by lia; lia).
  destruct (IH (unit + 1) ltac:(lia) ltac:(lia)) as (H1 & H2 & H3). set (u := size_unit fuel bytes (unit + 1)) in *. split_and!; [lia|lia| |].
  - destruct H2 as [?|[?|H2]]; [by left|by right; left|]. right. left. rewrite H2, E. lia.
  - intros. apply H3. lia.
Qed.

(** A size is said in the largest unit it reaches, gigabytes at most. *)
Lemma formatSize_unit bytes :
  0 <= bytes → let u := size_unit 3 bytes 0 in 0 <= u <= 3 ∧ (u = 0 ∨ 1024 ^ u <= bytes) ∧ (u < 3 → bytes < 1024 ^ (u + 1)).
Proof.
  intros Hb u. destruct (size_unit_spec 3 bytes 0 ltac:(lia) ltac:(by right)) as (H1 & H2 & H3). fold u in H1, H2, H3. split_and!; [lia|lia|lia|].
  intros Hu. rewrite Z.pow_add_r by lia. specialize (H3 ltac:(lia)). lia.
Qed.

Example size_small : formatSize 900 = "900 B"%string.
Proof. reflexivity. Qed.
Example size_tenths : formatSize 3565158 = "3.4 MB"%string.
Proof. vm_compute. reflexivity. Qed.
(** A size just short of the next unit is said as 1024 of its own. *)
Lemma size_rounds_past_unit : formatSize 1048575 = "1024 KB"%string.
Proof. vm_compute. reflexivity. Qed.

(** ** A request that is open *)

(** What is typed as a reply, and whether one is on its way. *)
Record ReplyForm := mkReplyForm { rp_text : string; rp_pending : bool }.
Inductive ReplyEvent := ReplyTyped (text : string) | ReplySubmitted | ReplyAnswered (ok : bool).

Definition reply_step (r : ReplyForm) (e : ReplyEvent) : ReplyForm * option string :=
  match e with
  | ReplyTyped text => (mkReplyForm text (rp_pending r), None)
  | ReplySubmitted => if truthy (trim (rp_text r)) && negb (rp_pending r) then (mkReplyForm (rp_text r) true, Some (trim (rp_text r))) else (r, None)
  | ReplyAnswered ok => if rp_pending r then (mkReplyForm (if ok then EmptyString else rp_text r) false, None) else (r, None)
  end.

(** What is typed of the next reply while one is on its way is lost when it arrives. *)
Lemma next_reply_lost a b :
  rp_text (reply_step (reply_step (reply_step (reply_step (mkReplyForm EmptyString false) (ReplyTyped (String "x" a))).1 ReplySubmitted).1 (ReplyTyped b)).1 (ReplyAnswered true)).1 =
  if rp_pending (reply_step (reply_step (mkReplyForm EmptyString false) (ReplyTyped (String "x" a))).1 ReplySubmitted).1 then EmptyString else b.
Proof. cbn [reply_step fst rp_text rp_pending]. by destruct (truthy (trim (String "x" a)) && negb false). Qed.

Definition waiting_on_you (r : PortalRequest) : bool := bool_decide (pr_status r = "Waiting for customer"%string).

(** [RaisedBy]: who raised a request that is shared: the reader, or somebody. *)
Inductive RaisedWords := words_mine (company : string) | words_shared (reporter : option string) (company : string).

Definition RaisedBy (me : option string) (r : PortalRequest) : option RaisedWords :=
  if negb (pr_sharedWithCompany r) then None
  else (fun company => if decide (person_id <$> pr_reporter r = me) then words_mine company else words_shared (person_name <$> pr_reporter r) company) <$> pr_company r.

(** [Followers]: whether the reader raised the request, and which followers may be taken
    off; the section is drawn for who is not there through a company. *)
Definition request_mine (me reporter : option string) : bool := match me with Some m => truthy m && bool_decide (me = reporter) | None => false end.
Definition unfollow_offered (me reporter : option string) (watcher : string) : bool := request_mine me reporter || bool_decide (Some watcher = me).
Definition follow_sent (me reporter : option string) (email : string) : option string :=
  if request_mine me reporter && truthy (trim email) then Some (trim email) else None.

(** Followers are named by the requester alone, who may take any off; another may only
    leave. *)
Lemma followers_kept me reporter watcher email :
  (is_Some (follow_sent me reporter email) → me = reporter ∧ is_Some me) ∧
  (unfollow_offered me reporter watcher = true → me = Some watcher ∨ me = reporter ∧ is_Some me).
Proof.
  assert (request_mine me reporter = true → me = reporter ∧ is_Some me) as H.
  { unfold request_mine. destruct me; [|done]. intros [_ E]%andb_true_iff. by apply bool_decide_eq_true in E. }
  split.
  - unfold follow_sent. destruct (request_mine me reporter); [auto|]. by intros [].
  - unfold unfollow_offered. intros [E|E]%orb_true_iff; [right; auto|]. apply bool_decide_eq_true in E. by left.
Qed.
