(* ===== verification/Bulk.v ===== *)
(** Changing many issues at once: [web/src/features/filters/BulkBar.tsx],
    [BulkProjectChanges.tsx] and [BulkMoveDialog.tsx], with [BulkChange] of
    [web/src/api/filters.ts].

    The bar is a state machine: the change it has gathered, what its controls hold
    besides, and the selection, which the list under it changes at any time.  The
    control of one custom field keeps a state of its own and is there only while every
    issue selected is of one project whose fields were read. *)

From Stdlib Require Import ZArith QArith Lia Ascii String.
From stdpp Require Import base list strings.
From S2P Require Import Prelude JsString Config IssueForms.

Open Scope Z_scope.

(** ** Data *)

(** Members to add to a set and to take from it; absent lists are empty ones. *)
Record BulkSetEdit := mkBulkSetEdit { edit_add : list string; edit_remove : list string }.

(** An answer that may be left alone (absent), cleared ([None]) or given. *)
Definition Change : Type := option (option string).

(** The parts a change of the bar has.  [bc_fields] holds one field at most. *)
Record BulkChange := mkBulkChange {
  bc_priority : option string;
  bc_assignee : Change;
  bc_sprintId : Change;
  bc_milestoneId : Change;
  bc_teamId : Change;
  bc_addLabels : option (list string);
  bc_removeLabels : option (list string);
  bc_fixVersions : option BulkSetEdit;
  bc_components : option BulkSetEdit;
  bc_fields : option (string * FieldValue);
  bc_transition : option string;
}.

Definition no_change : BulkChange := mkBulkChange None None None None None None None None None None None.

Definition changeIsEmpty (c : BulkChange) : bool :=
  bool_decide (bc_priority c = None) && bool_decide (bc_assignee c = None) && bool_decide (bc_sprintId c = None) && bool_decide (bc_milestoneId c = None) &&
  bool_decide (bc_teamId c = None) && bool_decide (default [] (bc_addLabels c) = []) && bool_decide (default [] (bc_removeLabels c) = []) &&
  match bc_fixVersions c with None => true | Some _ => false end && match bc_components c with None => true | Some _ => false end &&
  match bc_fields c with None => true | Some _ => false end && negb (truthy (trim (default EmptyString (bc_transition c)))).

Definition projectOf (key : string) : string :=
  toUpperCase (match lastIndexOf "-"%char key with Some i => sliceTo i key | None => sliceTo (String.length key - 1) key end).

Definition single_project (keys : list string) : option string := match set_of (map projectOf keys) with [p] => Some p | _ => None end.

(** [keysQuery]: the query that matches the issues selected. *)
Definition keysQuery (keys : list string) : string :=
  match keys with [k] => "key = " +:+ k | _ => "key in (" +:+ join ", " keys +:+ ")" end.

(** ** The controls of one project: [BulkProjectChanges.tsx] *)

(** [OneOf]: a value leaves alone, clears or gives. *)
Definition LEAVE : string := EmptyString.
Definition CLEAR : string := "-".
Definition of_control (value : string) : Change := if decide (value = LEAVE) then None else if decide (value = CLEAR) then Some None else Some (Some value).
Definition to_control (c : Change) : string := match c with None => LEAVE | Some None => CLEAR | Some (Some v) => v end.

(** [AddAndRemove]. *)
Definition set_edit (add remove : list string) : option BulkSetEdit :=
  match add, remove with [], [] => None | _, _ => Some (mkBulkSetEdit add remove) end.
Definition adds (e : option BulkSetEdit) : list string := match e with Some e => edit_add e | None => [] end.
Definition removes (e : option BulkSetEdit) : list string := match e with Some e => edit_remove e | None => [] end.
Definition pick_adds (ids : list string) (e : option BulkSetEdit) : option BulkSetEdit := set_edit ids (filter (fun r => r ∉ ids) (removes e)).
Definition pick_removes (ids : list string) (e : option BulkSetEdit) : option BulkSetEdit := set_edit (filter (fun a => a ∉ ids) (adds e)) ids.

Record CustomField := mkCustomField { cf_id : string; cf_kind : FieldKind; cf_name : string }.

(** [FieldChange]: the field chosen, what is typed, and whether it is to be cleared. *)
Record FieldChange := mkFieldChange { fc_id : string; fc_raw : string; fc_clearing : bool }.

Definition field_of (fields : list CustomField) (id : string) : option CustomField := head (filter (fun f => cf_id f = id) fields).

(** [set] of the control: what it asks of the change. *)
Definition field_asks (fields : list CustomField) (c : FieldChange) : option (string * FieldValue) :=
  match field_of fields (fc_id c) with
  | None => None
  | Some chosen =>
      if fc_clearing c then Some (cf_id chosen, value_null)
      else if decide (trim (fc_raw c) = EmptyString) then None
      else Some (cf_id chosen, valueFromInput (cf_kind chosen) (raw_text (fc_raw c)))
  end.

(** The control as it is first drawn, of the change there is. *)
Definition field_mounted (c : BulkChange) : FieldChange := mkFieldChange (match bc_fields c with Some (id, _) => id | None => EmptyString end) EmptyString false.

(** ** The bar *)

(** [bb_known]: the fields read of each project; [bb_field]: the control's own state
    while it is there. *)
Record BulkBar := mkBulkBar {
  bb_keys : list string;
  bb_change : BulkChange;
  bb_labels : list string;
  bb_typing : string;
  bb_removing : list string;
  bb_known : list (string * list CustomField);
  bb_field : option FieldChange;
  bb_pending : bool;
}.

Definition bar_fields (b : BulkBar) : list CustomField :=
  match single_project (bb_keys b) with Some p => default [] (jget (bb_known b) p) | None => [] end.

Definition with_change (c : BulkChange) (b : BulkBar) : BulkBar :=
  mkBulkBar (bb_keys b) c (bb_labels b) (bb_typing b) (bb_removing b) (bb_known b) (bb_field b) (bb_pending b).
Definition with_field (f : option FieldChange) (b : BulkBar) : BulkBar :=
  mkBulkBar (bb_keys b) (bb_change b) (bb_labels b) (bb_typing b) (bb_removing b) (bb_known b) f (bb_pending b).
Definition with_labels (labels : list string) (typing : string) (removing : list string) (b : BulkBar) : BulkBar :=
  mkBulkBar (bb_keys b) (bb_change b) labels typing removing (bb_known b) (bb_field b) (bb_pending b).
Definition with_pending (pending : bool) (b : BulkBar) : BulkBar :=
  mkBulkBar (bb_keys b) (bb_change b) (bb_labels b) (bb_typing b) (bb_removing b) (bb_known b) (bb_field b) pending.
Definition with_selection (keys : list string) (known : list (string * list CustomField)) (b : BulkBar) : BulkBar :=
  mkBulkBar keys (bb_change b) (bb_labels b) (bb_typing b) (bb_removing b) known (bb_field b) (bb_pending b).

(** Drawing: the control of a field comes and goes with the fields there are. *)
Definition draw_bar (b : BulkBar) : BulkBar :=
  match bar_fields b, bb_field b with
  | [], _ => with_field None b
  | _, None => with_field (Some (field_mounted (bb_change b))) b
  | _, Some _ => b
  end.

(** A word typed but not yet added counts. *)
Definition adding (b : BulkBar) : list string :=
  if truthy (bb_typing b) && negb (existsb (fun name => bool_decide (toLowerCase name = toLowerCase (bb_typing b))) (bb_labels b))
  then bb_labels b ++ [bb_typing b] else bb_labels b.

Definition some_of (l : list string) : option (list string) := match l with [] => None | _ => Some l end.

(** What the button applies. *)
Definition full (b : BulkBar) : BulkChange :=
  let c := bb_change b in
  mkBulkChange (bc_priority c) (bc_assignee c) (bc_sprintId c) (bc_milestoneId c) (bc_teamId c) (some_of (adding b)) (some_of (bb_removing b))
    (bc_fixVersions c) (bc_components c) (bc_fields c) (bc_transition c).

Definition tooMany (b : BulkBar) : bool := BULK_MAX_SELECTION <? Z.of_nat (length (bb_keys b)).
Definition can_apply (b : BulkBar) : bool := negb (bb_pending b) && negb (tooMany b) && negb (changeIsEmpty (full b)).

Inductive BulkRequest := BulkApplied (keys : list string) (change : BulkChange) | BulkDeleted (keys : list string) | BulkMoved (keys : list string) (projectKey : string) (statuses : list (string * string)).

(** The controls, each with what it was set to. *)
Inductive BulkEdit :=
| PriorityPicked (value : string) | AssigneePicked (value : string) | TransitionPicked (value : string)
| TeamPicked (value : string) | SprintPicked (value : string) | MilestonePicked (value : string)
| FixAdded (ids : list string) | FixRemoved (ids : list string) | ComponentsAdded (ids : list string) | ComponentsRemoved (ids : list string)
| FieldPicked (id : string) | FieldTyped (raw : string) | FieldCleared (on : bool)
| LabelsChosen (names : list string) | LabelTypedOn (word : string) | RemovalsChosen (names : list string).

Inductive BulkEvent := BulkEdited (e : BulkEdit) | ApplyPressed | DeleteConfirmed | BulkAnswered | SelectionChanged (keys : list string) | FieldsRead (project : string) (fields : list CustomField).

Definition with_parts (priority : option string) (assignee sprintId milestoneId teamId : Change) (transition : option string) (c : BulkChange) : BulkChange :=
  mkBulkChange priority assignee sprintId milestoneId teamId (bc_addLabels c) (bc_removeLabels c) (bc_fixVersions c) (bc_components c) (bc_fields c) transition.
Definition with_sets (fix_ components : option BulkSetEdit) (fields : option (string * FieldValue)) (c : BulkChange) : BulkChange :=
  mkBulkChange (bc_priority c) (bc_assignee c) (bc_sprintId c) (bc_milestoneId c) (bc_teamId c) (bc_addLabels c) (bc_removeLabels c) fix_ components fields (bc_transition c).

(** A field's control is set: its own state, and the change with what it asks. *)
Definition set_field (next : FieldChange) (b : BulkBar) : BulkBar :=
  with_field (Some next) (with_change (with_sets (bc_fixVersions (bb_change b)) (bc_components (bb_change b)) (field_asks (bar_fields b) next) (bb_change b)) b).

Definition edit_bar (e : BulkEdit) (b : BulkBar) : BulkBar :=
  let c := bb_change b in
  let of_project (b' : BulkBar) := match single_project (bb_keys b) with Some _ => b' | None => b end in
  match e with
  | PriorityPicked v => with_change (with_parts (or_undefined v) (bc_assignee c) (bc_sprintId c) (bc_milestoneId c) (bc_teamId c) (bc_transition c) c) b
  | AssigneePicked v => with_change (with_parts (bc_priority c) (of_control v) (bc_sprintId c) (bc_milestoneId c) (bc_teamId c) (bc_transition c) c) b
  | TransitionPicked v => with_change (with_parts (bc_priority c) (bc_assignee c) (bc_sprintId c) (bc_milestoneId c) (bc_teamId c) (or_undefined v) c) b
  | TeamPicked v => of_project (with_change (with_parts (bc_priority c) (bc_assignee c) (bc_sprintId c) (bc_milestoneId c) (of_control v) (bc_transition c) c) b)
  | SprintPicked v => of_project (with_change (with_parts (bc_priority c) (bc_assignee c) (of_control v) (bc_milestoneId c) (bc_teamId c) (bc_transition c) c) b)
  | MilestonePicked v => of_project (with_change (with_parts (bc_priority c) (bc_assignee c) (bc_sprintId c) (of_control v) (bc_teamId c) (bc_transition c) c) b)
  | FixAdded ids => of_project (with_change (with_sets (pick_adds ids (bc_fixVersions c)) (bc_components c) (bc_fields c) c) b)
  | FixRemoved ids => of_project (with_change (with_sets (pick_removes ids (bc_fixVersions c)) (bc_components c) (bc_fields c) c) b)
  | ComponentsAdded ids => of_project (with_change (with_sets (bc_fixVersions c) (pick_adds ids (bc_components c)) (bc_fields c) c) b)
  | ComponentsRemoved ids => of_project (with_change (with_sets (bc_fixVersions c) (pick_removes ids (bc_components c)) (bc_fields c) c) b)
  | FieldPicked id => match bb_field b with Some _ => set_field (mkFieldChange id EmptyString false) b | None => b end
  | FieldTyped raw =>
      match bb_field b with
      | Some f => match field_of (bar_fields b) (fc_id f) with
                  | Some _ => if fc_clearing f then b else set_field (mkFieldChange (fc_id f) raw false) b
                  | None => b
                  end
      | None => b
      end
  | FieldCleared on =>
      match bb_field b with
      | Some f => match field_of (bar_fields b) (fc_id f) with Some _ => set_field (mkFieldChange (fc_id f) EmptyString on) b | None => b end
      | None => b
      end
  | LabelsChosen names => with_labels names (bb_typing b) (bb_removing b) b
  | LabelTypedOn word => with_labels (bb_labels b) word (bb_removing b) b
  | RemovalsChosen names => with_labels (bb_labels b) (bb_typing b) names b
  end.

Definition bulk_handle (b : BulkBar) (e : BulkEvent) : BulkBar * option BulkRequest :=
  match e with
  | BulkEdited edit => (edit_bar edit b, None)
  | ApplyPressed => if can_apply b then (with_pending true b, Some (BulkApplied (bb_keys b) (full b))) else (b, None)
  | DeleteConfirmed => if tooMany b then (b, None) else (with_pending true b, Some (BulkDeleted (bb_keys b)))
  | BulkAnswered => (with_pending false b, None)
  | SelectionChanged keys => (with_selection keys (bb_known b) b, None)
  | FieldsRead project fields => (with_selection (bb_keys b) (jset (bb_known b) project fields) b, None)
  end.

Definition bulk_step (b : BulkBar) (e : BulkEvent) : BulkBar * option BulkRequest := let '(b', r) := bulk_handle b e in (draw_bar b', r).
Definition bulk_start (keys : list string) (known : list (string * list CustomField)) : BulkBar :=
  draw_bar (mkBulkBar keys no_change [] EmptyString [] known None false).
Definition bulk_run (b : BulkBar) (events : list BulkEvent) : BulkBar := foldl (fun b e => (bulk_step b e).1) b events.

(** ** Moving: [BulkMoveDialog.tsx] *)

Record Status := mkStatus { status_id : string; status_name : string }.

(** The statuses the selection is in, each once. *)
Definition statusesOf (issues : list Status) : list Status :=
  foldl (fun out s => if existsb (fun o => bool_decide (status_id o = status_id s)) out then out else out ++ [s]) [] issues.

Definition same_status (there : list Status) (s : Status) : option Status :=
  match head (filter (fun o => status_id o = status_id s) there) with
  | Some o => Some o
  | None => head (filter (fun o => toLowerCase (status_name o) = toLowerCase (status_name s)) there)
  end.

Definition defaultMapping (from there : list Status) : list (string * string) :=
  foldl (fun out s => match same_status there s with Some o => jset out (status_id s) (status_id o) | None => out end) [] from.

Record MoveDialog := mkMoveDialog { mv_projectKey : string; mv_chosen : list (string * string); mv_known : list (string * list Status) }.

Section Moving.
(** The statuses of the issues selected, and the project they may all be of. *)
Context (from : list Status) (exclude : list string).

Definition move_there (d : MoveDialog) : list Status := default [] (jget (mv_known d) (mv_projectKey d)).
Definition mapping (d : MoveDialog) : list (string * string) := foldl (fun m e => jset m e.1 e.2) (defaultMapping from (move_there d)) (mv_chosen d).
Definition mapped (d : MoveDialog) (s : Status) : bool := truthy (default EmptyString (jget (mapping d) (status_id s))).
Definition can_move (d : MoveDialog) : bool := truthy (mv_projectKey d) && forallb (mapped d) from.

Inductive MoveEvent := MoveProject (key : string) | MoveStatus (status target : string) | MoveStatusesRead (key : string) (statuses : list Status).

(** A target is picked among the statuses of the project on the form. *)
Definition move_step (d : MoveDialog) (e : MoveEvent) : MoveDialog :=
  match e with
  | MoveProject key => if bool_decide (key ∈ exclude) then d else mkMoveDialog key [] (mv_known d)
  | MoveStatus status target =>
      if truthy (mv_projectKey d) && bool_decide (status ∈ map status_id from) && bool_decide (target ∈ map status_id (move_there d))
      then mkMoveDialog (mv_projectKey d) (jset (mv_chosen d) status target) (mv_known d) else d
  | MoveStatusesRead key statuses => mkMoveDialog (mv_projectKey d) (mv_chosen d) (jset (mv_known d) key statuses)
  end.
Definition move_start : MoveDialog := mkMoveDialog EmptyString [] [].
Definition move_run (events : list MoveEvent) : MoveDialog := foldl move_step move_start events.
End Moving.

(** ** What is applied *)

(** The selection after events. *)
Definition keys_after (keys : list string) (events : list BulkEvent) : list string :=
  foldl (fun k e => match e with SelectionChanged k' => k' | _ => k end) keys events.

(** What a control was set to last. *)
Definition last_pick {A} (pick : BulkEdit → option A) (events : list BulkEvent) : option A :=
  last (omap (fun e => match e with BulkEdited edit => pick edit | _ => None end) events).

Definition option_list {A} (o : option A) : list A := match o with Some a => [a] | None => [] end.

(** What a control that belongs to a project was set to while it was there: while the
    issues selected were of one project. *)
Fixpoint project_picks {A} (keys : list string) (pick : BulkEdit → option A) (events : list BulkEvent) : list A :=
  match events with
  | [] => []
  | SelectionChanged keys' :: events' => project_picks keys' pick events'
  | BulkEdited edit :: events' => (match single_project keys with Some _ => option_list (pick edit) | None => [] end) ++ project_picks keys pick events'
  | _ :: events' => project_picks keys pick events'
  end.

Definition priority_pick (e : BulkEdit) : option string := match e with PriorityPicked v => Some v | _ => None end.
Definition assignee_pick (e : BulkEdit) : option string := match e with AssigneePicked v => Some v | _ => None end.
Definition transition_pick (e : BulkEdit) : option string := match e with TransitionPicked v => Some v | _ => None end.
Definition sprint_pick (e : BulkEdit) : option string := match e with SprintPicked v => Some v | _ => None end.
Definition milestone_pick (e : BulkEdit) : option string := match e with MilestonePicked v => Some v | _ => None end.
Definition team_pick (e : BulkEdit) : option string := match e with TeamPicked v => Some v | _ => None end.
Definition labels_pick (e : BulkEdit) : option (list string) := match e with LabelsChosen names => Some names | _ => None end.
Definition word_pick (e : BulkEdit) : option string := match e with LabelTypedOn word => Some word | _ => None end.
Definition removals_pick (e : BulkEdit) : option (list string) := match e with RemovalsChosen names => Some names | _ => None end.

(** A list picked to add, or one to take away. *)
Inductive SetPick := to_add (ids : list string) | to_remove (ids : list string).
Definition fix_pick (e : BulkEdit) : option SetPick := match e with FixAdded ids => Some (to_add ids) | FixRemoved ids => Some (to_remove ids) | _ => None end.
Definition component_pick (e : BulkEdit) : option SetPick := match e with ComponentsAdded ids => Some (to_add ids) | ComponentsRemoved ids => Some (to_remove ids) | _ => None end.

(** What is to be added and to be removed after lists were picked: the one picked last on
    each side, less what the other side was given since. *)
Definition set_picked (s : list string * list string) (p : SetPick) : list string * list string :=
  match p with
  | to_add ids => (ids, filter (fun r => r ∉ ids) s.2)
  | to_remove ids => (filter (fun a => a ∉ ids) s.1, ids)
  end.
Definition sets_picked (ps : list SetPick) : list string * list string := foldl set_picked ([], []) ps.

(** The labels to add: the ones chosen, and a word typed that is none of them in whatever case. *)
Definition labels_said (names : list string) (word : string) : list string :=
  names ++ (if decide (word ≠ EmptyString ∧ Forall (fun name => toLowerCase name ≠ toLowerCase word) names) then [word] else []).

Lemma last_pick_snoc {A} (pick : BulkEdit → option A) events e :
  last_pick pick (events ++ [e]) = match e with BulkEdited edit => match pick edit with Some v => Some v | None => last_pick pick events end | _ => last_pick pick events end.
Proof.
  unfold last_pick. rewrite omap_app, last_app. cbn. destruct e as [edit| | | | |]; try done. by destruct (pick edit).
Qed.

Lemma keys_after_snoc keys events e : keys_after keys (events ++ [e]) = match e with SelectionChanged k => k | _ => keys_after keys events end.
Proof. unfold keys_after. by rewrite foldl_app. Qed.

Lemma project_picks_snoc {A} keys (pick : BulkEdit → option A) events e :
  project_picks keys pick (events ++ [e]) = project_picks keys pick events ++
    match e with BulkEdited edit => match single_project (keys_after keys events) with Some _ => option_list (pick edit) | None => [] end | _ => [] end.
Proof.
  revert keys. induction events as [|e' events IH]; intros keys; [destruct e; cbn [app project_picks keys_after foldl]; by rewrite ?app_nil_r|].
  destruct e'; cbn [app project_picks]; rewrite IH; try done. by rewrite (assoc_L (++)).
Qed.

(** A set is edited one way for each of its members, and not for nothing. *)
Definition edits_apart (e : option BulkSetEdit) : Prop := (∀ x, x ∈ adds e → x ∉ removes e) ∧ (is_Some e → adds e ++ removes e ≠ []).

Lemma set_edit_parts a r : adds (set_edit a r) = a ∧ removes (set_edit a r) = r ∧ (is_Some (set_edit a r) → a ++ r ≠ []).
Proof. destruct a, r; cbn; split_and!; try done; by intros []. Qed.

Lemma pick_adds_apart ids e : edits_apart (pick_adds ids e).
Proof.
  unfold pick_adds. destruct (set_edit_parts ids (filter (fun r => r ∉ ids) (removes e))) as (E1 & E2 & E3). split; rewrite E1, E2; [|done].
  by intros x Hx [Hn _]%list_elem_of_filter.
Qed.

Lemma pick_removes_apart ids e : edits_apart (pick_removes ids e).
Proof.
  unfold pick_removes. destruct (set_edit_parts (filter (fun a => a ∉ ids) (adds e)) ids) as (E1 & E2 & E3). split; rewrite E1, E2; [|done].
  by intros x [Hn _]%list_elem_of_filter Hx.
Qed.

(** The bar after the events, against a reading of the events alone. *)
Record bulk_reads (keys : list string) (events : list BulkEvent) (b : BulkBar) : Prop := mkBulkReads {
  br_keys : bb_keys b = keys_after keys events;
  br_priority : bc_priority (bb_change b) = last_pick priority_pick events ≫= or_undefined;
  br_assignee : bc_assignee (bb_change b) = last_pick assignee_pick events ≫= of_control;
  br_transition : bc_transition (bb_change b) = last_pick transition_pick events ≫= or_undefined;
  br_sprint : bc_sprintId (bb_change b) = last (project_picks keys sprint_pick events) ≫= of_control;
  br_milestone : bc_milestoneId (bb_change b) = last (project_picks keys milestone_pick events) ≫= of_control;
  br_team : bc_teamId (bb_change b) = last (project_picks keys team_pick events) ≫= of_control;
  br_fix : bc_fixVersions (bb_change b) = uncurry set_edit (sets_picked (project_picks keys fix_pick events));
  br_components : bc_components (bb_change b) = uncurry set_edit (sets_picked (project_picks keys component_pick events));
  br_labels : bb_labels b = default [] (last_pick labels_pick events);
  br_typing : bb_typing b = default EmptyString (last_pick word_pick events);
  br_removing : bb_removing b = default [] (last_pick removals_pick events);
}.

(** An event of no control but what it says. *)
Ltac reads := rewrite ?keys_after_snoc, ?last_pick_snoc, ?project_picks_snoc, ?app_nil_r; cbn; rewrite ?app_nil_r.

Lemma adds_edit s : adds (uncurry set_edit s) = s.1.
Proof. by destruct s as [[] []]. Qed.
Lemma removes_edit s : removes (uncurry set_edit s) = s.2.
Proof. by destruct s as [[] []]. Qed.

Lemma sets_picked_snoc ps p : sets_picked (ps ++ [p]) = set_picked (sets_picked ps) p.
Proof. unfold sets_picked. by rewrite foldl_app. Qed.

Lemma pick_adds_said ids s : pick_adds ids (uncurry set_edit s) = uncurry set_edit (set_picked s (to_add ids)).
Proof. unfold pick_adds. by rewrite removes_edit. Qed.
Lemma pick_removes_said ids s : pick_removes ids (uncurry set_edit s) = uncurry set_edit (set_picked s (to_remove ids)).
Proof. unfold pick_removes. by rewrite adds_edit. Qed.

Lemma set_field_reads keys events b edit :
  bulk_reads keys events b → (∃ id, edit = FieldPicked id) ∨ (∃ raw, edit = FieldTyped raw) ∨ (∃ on, edit = FieldCleared on) →
  (∀ next, bulk_reads keys (events ++ [BulkEdited edit]) (set_field next b)) ∧ bulk_reads keys (events ++ [BulkEdited edit]) b.
Proof.
  intros H He. assert (bulk_reads keys (events ++ [BulkEdited edit]) b) as H'.
  { destruct H. destruct He as [[x ->]|[[x ->]|[x ->]]]; split; reads; try done; by destruct (single_project (keys_after keys events)); reads. }
  split; [|done]. intros next. destruct H'. by split.
Qed.

Lemma edit_reads keys events b edit : bulk_reads keys events b → bulk_reads keys (events ++ [BulkEdited edit]) (edit_bar edit b).
Proof.
  intros H. pose proof H as [K1 K2 K3 K4 K5 K6 K7 K8 K9 K10 K11 K12]. destruct edit; cbn [edit_bar].
  1-3: split; reads; try done; by destruct (single_project (keys_after keys events)); reads.
  1-7: rewrite K1; destruct (single_project (keys_after keys events)) eqn:E; split; reads; rewrite ?E; reads; try done;
    rewrite ?last_snoc, ?sets_picked_snoc; cbn [with_change with_parts with_sets bb_change bc_fixVersions bc_components bc_sprintId bc_milestoneId bc_teamId];
    rewrite ?K8, ?K9, ?pick_adds_said, ?pick_removes_said; done.
  - apply (set_field_reads _ _ _ (FieldPicked id)) in H as [? ?]; [|eauto]. by destruct (bb_field b).
  - apply (set_field_reads _ _ _ (FieldTyped raw)) in H as [? ?]; [|eauto]. destruct (bb_field b) as [f|]; [|done]. by destruct (field_of _ _), (fc_clearing f).
  - apply (set_field_reads _ _ _ (FieldCleared on)) in H as [? ?]; [|eauto]. destruct (bb_field b) as [f|]; [|done]. by destruct (field_of _ _).
  - split; reads; try done; by destruct (single_project (keys_after keys events)); reads.
  - split; reads; try done; by destruct (single_project (keys_after keys events)); reads.
  - split; reads; try done; by destruct (single_project (keys_after keys events)); reads.
Qed.

Lemma draw_reads keys events b : bulk_reads keys events b → bulk_reads keys events (draw_bar b).
Proof. intros []. unfold draw_bar. destruct (bar_fields b), (bb_field b); by split. Qed.

Lemma bulk_run_reads keys known events : bulk_reads keys events (bulk_run (bulk_start keys known) events).
Proof.
  induction events as [|e events IH] using rev_ind; [apply draw_reads; by split|].
  unfold bulk_run in *. rewrite foldl_app. cbn [foldl]. set (b := foldl _ _ events) in *. unfold bulk_step.
  assert (bulk_reads keys (events ++ [e]) (bulk_handle b e).1) as Hh.
  { destruct e as [edit| | | | |]; cbn [bulk_handle]; [by apply edit_reads|..]; destruct IH;
      try destruct (can_apply b); try destruct (tooMany b); split; reads; done. }
  destruct (bulk_handle b e). by apply draw_reads.
Qed.

(** ** The control of a custom field *)

(** The selection stays, and whenever the fields of a project are read they are the same. *)
Definition settled (catalog : string → list CustomField) (e : BulkEvent) : bool :=
  match e with SelectionChanged _ => false | FieldsRead project fields => bool_decide (map cf_id fields = map cf_id (catalog project) ∧ map cf_kind fields = map cf_kind (catalog project) ∧ map cf_name fields = map cf_name (catalog project)) | _ => true end.

Lemma fields_told (l l' : list CustomField) : map cf_id l = map cf_id l' → map cf_kind l = map cf_kind l' → map cf_name l = map cf_name l' → l = l'.
Proof. revert l'. induction l as [|[i k n] l IH]; intros [|[i' k' n'] l']; cbn; try done. intros [= -> ?] [= -> ?] [= -> ?]. f_equal. by apply IH. Qed.

(** The field of the change is what its control asks for, which is there while there are fields. *)
Record field_shown (catalog : string → list CustomField) (b : BulkBar) : Prop := {
  fs_asked : bc_fields (bb_change b) = bb_field b ≫= field_asks (bar_fields b);
  fs_drawn : bb_field b = None ↔ bar_fields b = [];
  fs_known : ∀ project fields, jget (bb_known b) project = Some fields → fields = catalog project;
}.

Lemma draw_shown catalog b :
  (∀ project fields, jget (bb_known b) project = Some fields → fields = catalog project) →
  bc_fields (bb_change b) = bb_field b ≫= field_asks (bar_fields b) → (bar_fields b = [] → bb_field b = None) → field_shown catalog (draw_bar b).
Proof.
  intros Hk Ha Hd. unfold draw_bar. destruct (bar_fields b) as [|x l] eqn:E; [split|destruct (bb_field b) as [f|] eqn:Ef; split]; try done.
  - by rewrite Hd in Ha.
  - by rewrite Ef, E.
  - by rewrite Ef, E.
  - cbn in Ha |- *. change (bar_fields (with_field _ b)) with (bar_fields b). rewrite E, Ha. unfold field_mounted. rewrite Ha. unfold field_asks. cbn. by destruct (field_of _ _).
  - change (bar_fields (with_field _ b)) with (bar_fields b). by rewrite E.
Qed.

Lemma edit_shown catalog edit b : field_shown catalog b → field_shown catalog (edit_bar edit b).
Proof.
  intros Hb. assert (∀ c, bc_fields c = bc_fields (bb_change b) → field_shown catalog (with_change c b)) as Hc by (intros c E; destruct Hb; by split; cbn; rewrite ?E).
  assert (∀ next f, bb_field b = Some f → field_shown catalog (set_field next b)) as Hset.
  { intros next f Hf. destruct Hb as [_ H2 H3]. split; [done| |done]. change (bar_fields (set_field next b)) with (bar_fields b). cbn. rewrite <- H2, Hf. done. }
  destruct edit; cbn [edit_bar]; try (by apply Hc); try (destruct (single_project (bb_keys b)); [by apply Hc|done]); try (by destruct Hb; split).
  - destruct (bb_field b) eqn:Ef; [by eapply Hset|done].
  - destruct (bb_field b) as [f|] eqn:Ef; [|done]. destruct (field_of _ _); [|done]. destruct (fc_clearing f); [done|by eapply Hset].
  - destruct (bb_field b) as [f|] eqn:Ef; [|done]. destruct (field_of _ _); [by eapply Hset|done].
Qed.

Lemma bulk_step_shown catalog b e : settled catalog e = true → field_shown catalog b → field_shown catalog (bulk_step b e).1.
Proof.
  intros He Hb. unfold bulk_step. destruct (bulk_handle b e) as [b' r] eqn:Eh. cbn [fst].
  assert (∀ b', field_shown catalog b' → field_shown catalog (draw_bar b')) as Hdraw by (intros b0 [? H ?]; apply draw_shown; [done|done|apply H]).
  destruct e as [edit| | | |keys|project fields]; cbn [bulk_handle] in Eh; try done.
  - injection Eh as <- _. by apply Hdraw, edit_shown.
  - destruct (can_apply b); injection Eh as <- _; apply Hdraw; [by destruct Hb; split|done].
  - destruct (tooMany b); injection Eh as <- _; apply Hdraw; [done|by destruct Hb; split].
  - injection Eh as <- _. apply Hdraw. by destruct Hb; split.
  - injection Eh as <- _. apply bool_decide_eq_true in He as (H1 & H2 & H3). pose proof (fields_told _ _ H1 H2 H3) as ->. destruct Hb as [Ha Hd Hk].
    assert (bar_fields (with_selection (bb_keys b) (jset (bb_known b) project (catalog project)) b) =
      match single_project (bb_keys b) with Some p => if decide (project = p) then catalog p else default [] (jget (bb_known b) p) | None => [] end) as Hf.
    { unfold bar_fields. cbn. destruct (single_project (bb_keys b)); [|done]. rewrite jget_jset. case_decide; [by subst|done]. }
    apply draw_shown; [|cbn [with_selection bb_change bb_field]; rewrite Ha|cbn [with_selection bb_field]].
    + intros p fields. cbn. rewrite jget_jset. case_decide; [intros [= <-]; by subst|apply Hk].
    + destruct (bb_field b) as [f|] eqn:Ef; [|done]. cbn. f_equal. rewrite Hf. unfold bar_fields in *. destruct (single_project (bb_keys b)) as [p|] eqn:Es; [|done].
      case_decide as Hp; [|done]. subst. destruct (jget (bb_known b) p) as [l|] eqn:El; [by rewrite (Hk _ _ El)|]. exfalso. assert (Some f = None) by by apply Hd. done.
    + rewrite Hf. unfold bar_fields in Hd. destruct (single_project (bb_keys b)) as [p|] eqn:Es; [|intros _; by apply Hd].
      case_decide as Hp; [|intros E; by apply Hd]. subst. intros E. apply Hd. destruct (jget (bb_known b) p) as [l|] eqn:El; [by rewrite (Hk _ _ El)|done].
Qed.

Lemma bulk_run_shown catalog keys known events :
  (∀ project fields, jget known project = Some fields → fields = catalog project) → Forall (fun e => settled catalog e = true) events →
  field_shown catalog (bulk_run (bulk_start keys known) events).
Proof.
  intros Hk. induction events as [|e events IH] using rev_ind; [intros _; by apply draw_shown|].
  intros Hes. apply Forall_app in Hes as [Hes He]. apply Forall_inv in He. unfold bulk_run. rewrite foldl_app. cbn [foldl]. apply bulk_step_shown; [done|]. by apply IH.
Qed.

(** A field is never cleared by a value. *)
Lemma value_not_null kind s : trim s ≠ EmptyString → valueFromInput kind (raw_text s) ≠ value_null.
Proof.
  intros Hs. unfold valueFromInput. case_decide; [done|]. rewrite decide_False by done. case_decide; [|done]. destruct (numberOf _); [|done]. by destruct (is_finite _).
Qed.

Lemma cleared_ticked catalog b : field_shown catalog b →
  ∀ id, bc_fields (bb_change b) = Some (id, value_null) → ∃ f, bb_field b = Some f ∧ fc_id f = id ∧ fc_clearing f = true.
Proof.
  intros Hb id Hid. rewrite (fs_asked _ _ Hb) in Hid. destruct (bb_field b) as [f|]; [|done]. exists f. cbn in Hid. unfold field_asks in Hid.
  destruct (field_of (bar_fields b) (fc_id f)) as [g|] eqn:Eg; [|done].
  unfold field_of in Eg. destruct (filter _ _) as [|x l] eqn:Ef; [done|]. injection Eg as ->. assert (g ∈ g :: l) as Hg by by left.
  rewrite <- Ef in Hg. apply list_elem_of_filter in Hg as [Hg _]. destruct (fc_clearing f); [injection Hid as <-; done|]. case_decide as Hr; [done|].
  injection Hid as _ Hv. by apply value_not_null in Hv.
Qed.

(** Two lists picked apart have nothing in common. *)
Lemma sets_picked_apart ps x : x ∈ (sets_picked ps).1 → x ∉ (sets_picked ps).2.
Proof.
  induction ps as [|p ps IH] using rev_ind; [by intros ?%elem_of_nil|]. rewrite sets_picked_snoc. destruct p as [ids|ids]; cbn [set_picked fst snd].
  - by intros Hx [? _]%list_elem_of_filter.
  - by intros [? _]%list_elem_of_filter.
Qed.

Lemma adding_said b : adding b = labels_said (bb_labels b) (bb_typing b).
Proof.
  unfold adding, labels_said, truthy. destruct (decide (bb_typing b = EmptyString)) as [E|E].
  - rewrite bool_decide_eq_true_2 by done. cbn. rewrite decide_False by (by intros [? _]). by rewrite app_nil_r.
  - rewrite bool_decide_eq_false_2 by done. cbn [negb andb]. destruct (existsb _ (bb_labels b)) eqn:Ex; cbn [negb].
    + rewrite decide_False; [by rewrite app_nil_r|]. intros [_ Hall]. apply existsb_exists in Ex as (n & Hn & He). apply bool_decide_eq_true in He.
      rewrite Forall_forall in Hall. by apply (Hall n); [apply list_elem_of_In|].
    + rewrite decide_True; [done|]. split; [done|]. apply Forall_forall. intros n Hn He. apply not_true_iff_false in Ex. apply Ex, existsb_exists.
      exists n. rewrite <- list_elem_of_In. split; [done|]. by apply bool_decide_eq_true.
Qed.

(** C12: a bulk change that is applied, however the selection changed meanwhile, goes to the issues
    selected at last, two hundred at most, and asks for something.  Each part is what its
    control was set to last: of the controls that belong to a project, while they were there.  The
    labels to add are the ones chosen with the word left typed, the labels to take away the ones
    chosen there; the versions and components to add and to take away are what was
    picked last on each side, less what was picked on the other side since, so that
    nothing is both.  While the selection stays and a project's fields are what they are, nothing of a project is
    set where the issues are of several, and a field is answered as its control
    shows, and cleared only where the box that clears it is ticked. *)
Theorem bulk_applied_as_shown catalog keys known events ks c :
  (∀ project fields, jget known project = Some fields → fields = catalog project) →
  let b := bulk_run (bulk_start keys known) events in
  (bulk_step b ApplyPressed).2 = Some (BulkApplied ks c) →
  (ks = keys_after keys events ∧ Z.of_nat (length ks) <= BULK_MAX_SELECTION ∧ changeIsEmpty c = false) ∧
  (bc_priority c = last_pick priority_pick events ≫= or_undefined ∧
   bc_assignee c = last_pick assignee_pick events ≫= of_control ∧
   bc_transition c = last_pick transition_pick events ≫= or_undefined ∧
   bc_sprintId c = last (project_picks keys sprint_pick events) ≫= of_control ∧
   bc_milestoneId c = last (project_picks keys milestone_pick events) ≫= of_control ∧
   bc_teamId c = last (project_picks keys team_pick events) ≫= of_control) ∧
  (default [] (bc_addLabels c) = labels_said (default [] (last_pick labels_pick events)) (default EmptyString (last_pick word_pick events)) ∧
   default [] (bc_removeLabels c) = default [] (last_pick removals_pick events)) ∧
  ((adds (bc_fixVersions c), removes (bc_fixVersions c)) = sets_picked (project_picks keys fix_pick events) ∧
   (adds (bc_components c), removes (bc_components c)) = sets_picked (project_picks keys component_pick events) ∧
   edits_apart (bc_fixVersions c) ∧ edits_apart (bc_components c)) ∧
  (Forall (fun e => settled catalog e = true) events →
    ks = keys ∧
    (single_project keys = None → bc_sprintId c = None ∧ bc_milestoneId c = None ∧ bc_teamId c = None ∧ bc_fixVersions c = None ∧ bc_components c = None ∧ bc_fields c = None) ∧
    bc_fields c = bb_field b ≫= field_asks (bar_fields b) ∧
    (∀ id, bc_fields c = Some (id, value_null) → ∃ f, bb_field b = Some f ∧ fc_id f = id ∧ fc_clearing f = true)).
Proof.
  intros Hk b. pose proof (bulk_run_reads keys known events) as Hb. fold b in Hb. pose proof (bulk_run_shown catalog keys known events Hk) as Hfs. fold b in Hfs.
  unfold bulk_step. cbn [bulk_handle]. destruct (can_apply b) eqn:Ec; [|done]. cbn [snd]. intros Hsent. apply (inj Some) in Hsent. injection Hsent as <- <-.
  unfold can_apply in Ec. apply andb_true_iff in Ec as [Ec Ee]. apply andb_true_iff in Ec as [_ Et]. apply negb_true_iff in Et, Ee. unfold tooMany in Et. apply Z.ltb_ge in Et.
  destruct Hb as [K1 K2 K3 K4 K5 K6 K7 K8 K9 K10 K11 K12].
  assert (∀ ps, edits_apart (uncurry set_edit (sets_picked ps))) as Hapart.
  { intros ps. split; rewrite adds_edit, removes_edit; [apply sets_picked_apart|]. destruct (sets_picked ps) as [[|] [|]]; [by intros [? ?]|by intros _..]. }
  cbn [full bc_priority bc_assignee bc_transition bc_sprintId bc_milestoneId bc_teamId bc_fixVersions bc_components bc_fields bc_addLabels bc_removeLabels].
  split; [done|]. split; [done|]. split; [split|split].
  - rewrite <- K10, <- K11, <- adding_said. by destruct (adding b).
  - rewrite <- K12. by destruct (bb_removing b).
  - rewrite K8, K9, !adds_edit, !removes_edit. split; [by rewrite <- surjective_pairing|]. split; [by rewrite <- surjective_pairing|]. split; apply Hapart.
  - intros Hs. specialize (Hfs Hs). assert (keys_after keys events = keys) as Hkeys.
    { clear -Hs. induction events as [|e events IH] using rev_ind; [done|]. apply Forall_app in Hs as [Hs He]. apply Forall_inv in He. rewrite keys_after_snoc. destruct e; auto. discriminate He. }
    split; [congruence|]. split; [|split; [apply Hfs|by apply (cleared_ticked catalog)]].
    intros Es. assert (∀ A (pick : BulkEdit → option A), project_picks keys pick events = []) as Hnone.
    { intros A pick. clear -Hs Es. induction Hs as [|e events He _ IH]; [done|]. destruct e; cbn [project_picks]; try done. by rewrite Es. }
    rewrite K5, K6, K7, K8, K9, !Hnone. split_and!; try done. rewrite (fs_asked _ _ Hfs).
    assert (bar_fields b = []) as E by (unfold bar_fields; by rewrite K1, Hkeys, Es). apply (fs_drawn _ _ Hfs) in E. by rewrite E.
Qed.

Definition a_field : CustomField := mkCustomField "f1" field_text "Notes".

Lemma bulk_applied_as_shown_witness :
  let known := [("APP"%string, [a_field])] in
  let events := map BulkEdited [PriorityPicked "high"; AssigneePicked "-"; FixAdded ["v1"; "v2"]; FixRemoved ["v2"]; FieldPicked "f1"; FieldCleared true; LabelTypedOn "ui"]%string in
  let b := bulk_run (bulk_start ["APP-1"; "app-2"]%string known) events in
  ∃ c, (bulk_step b ApplyPressed).2 = Some (BulkApplied ["APP-1"; "app-2"]%string c) ∧
    bc_priority c = Some "high"%string ∧ bc_assignee c = Some None ∧ default [] (bc_addLabels c) = ["ui"%string] ∧ adds (bc_fixVersions c) = ["v1"%string] ∧ removes (bc_fixVersions c) = ["v2"%string] ∧
    bc_fields c = Some ("f1"%string, value_null).
Proof.
  intros known events b. exists (full b). split; [vm_compute; reflexivity|].
  destruct (bulk_applied_as_shown (fun p => if decide (p = "APP"%string) then [a_field] else []) ["APP-1"; "app-2"]%string known events ["APP-1"; "app-2"]%string (full b)) as (_ & (H1 & H2 & _) & (H3 & _) & (H4 & _) & _).
  - intros p fields. unfold known. cbn [jget]. destruct (decide ("APP"%string = p)) as [<-|Hp]; [intros [= <-]; by rewrite decide_True|done].
  - vm_compute. reflexivity.
  - split; [exact H1|]. split; [exact H2|]. split; [exact H3|]. split; [exact (f_equal fst H4)|]. split; [exact (f_equal snd H4)|vm_compute; reflexivity].
Defined.

(** What was chosen of one project stays in the change when an issue of another project
    joins the selection, and is applied though no control shows it. *)
Lemma hidden_sprint_applied :
  let b := bulk_run (bulk_start ["APP-1"%string] []) [BulkEdited (SprintPicked "s1"); SelectionChanged ["APP-1"; "WEB-1"]%string] in
  single_project (bb_keys b) = None ∧ ∃ c, (bulk_step b ApplyPressed).2 = Some (BulkApplied ["APP-1"; "WEB-1"]%string c) ∧ bc_sprintId c = Some (Some "s1"%string).
Proof. intros b. split; [vm_compute; reflexivity|]. exists (full b). split; vm_compute; reflexivity. Qed.

(** A field that was to be cleared is still cleared after the selection left the project
    and came back, though its control now shows an empty box and no tick. *)
Lemma forgotten_clearing_applied :
  let known := [("APP"%string, [a_field])] in
  let b := bulk_run (bulk_start ["APP-1"%string] known)
    [BulkEdited (FieldPicked "f1"); BulkEdited (FieldCleared true); SelectionChanged ["APP-1"; "WEB-1"]%string; SelectionChanged ["APP-1"%string]] in
  bb_field b = Some (mkFieldChange "f1" EmptyString false) ∧ bc_fields (full b) = Some ("f1"%string, value_null) ∧ can_apply b = true.
Proof. split_and!; vm_compute; reflexivity. Qed.

(** ** Moving *)

Lemma head_filter {A} (P : A → Prop) `{∀ x, Decision (P x)} l x : head (filter P l) = Some x → x ∈ l ∧ P x.
Proof.
  destruct (filter P l) as [|y r] eqn:E; [done|]. intros [= ->]. assert (x ∈ filter P l) as Hx by (rewrite E; by left). by apply list_elem_of_filter in Hx as [? ?].
Qed.

Lemma same_status_in there s o : same_status there s = Some o → o ∈ there ∧ (status_id o = status_id s ∨ toLowerCase (status_name o) = toLowerCase (status_name s)).
Proof.
  unfold same_status. destruct (head (filter (fun o => status_id o = status_id s) there)) as [o'|] eqn:E.
  - intros [= ->]. apply head_filter in E as [? ?]. auto.
  - intros Ho. apply head_filter in Ho as [? ?]. auto.
Qed.

Lemma defaultMapping_in from there k v : jget (defaultMapping from there) k = Some v → v ∈ map status_id there.
Proof.
  assert (∀ m, (∀ k v, jget m k = Some v → v ∈ map status_id there) → ∀ k v,
    jget (foldl (fun out s => match same_status there s with Some o => jset out (status_id s) (status_id o) | None => out end) m from) k = Some v → v ∈ map status_id there) as H.
  { induction from as [|s from IH]; intros m Hm k' v'; [by apply Hm|]. cbn [foldl]. apply IH. destruct (same_status there s) as [o|] eqn:E; [|exact Hm].
    intros k0 v0. rewrite jget_jset. case_decide; [|by apply Hm]. intros [= <-]. apply same_status_in in E as [Ho _]. by apply list_elem_of_fmap_2. }
  apply H. done.
Qed.

Lemma jget_overlay (m es : list (string * string)) k v : jget (foldl (fun m e => jset m e.1 e.2) m es) k = Some v → jget m k = Some v ∨ (k, v) ∈ es.
Proof.
  revert m. induction es as [|[k' v'] es IH]; intros m; cbn [foldl]; [auto|]. intros H. apply IH in H as [H|H]; [|right; by right].
  cbn [fst snd] in H. rewrite jget_jset in H. case_decide; [injection H as <-; subst; right; by left|by left].
Qed.

(** A move is asked for only when every status of the selection has a status to land in,
    and that is one of the project moved to, which is not the selection's own; provided
    that the statuses of a project are read the same each time. *)
Theorem move_lands_in_target from exclude (catalog : string → list Status) events s :
  let d := move_run from exclude events in
  Forall (fun e => match e with MoveStatusesRead key statuses => statuses = catalog key | _ => True end) events →
  EmptyString ∉ exclude →
  can_move from d = true → s ∈ from →
  mv_projectKey d ∉ exclude ∧ ∃ v, jget (mapping from d) (status_id s) = Some v ∧ v ∈ map status_id (catalog (mv_projectKey d)).
Proof.
  intros d He Hx Hm Hs.
  assert ((mv_projectKey d ∉ exclude) ∧ (∀ key there, jget (mv_known d) key = Some there → there = catalog key) ∧ Forall (fun e => e.2 ∈ map status_id (catalog (mv_projectKey d))) (mv_chosen d)) as (H1 & H2 & H3).
  { clear Hm. induction events as [|e events IH] using rev_ind; [done|]. apply Forall_app in He as [He [Hlast _]%Forall_cons]. specialize (IH He) as (I1 & I2 & I3).
    unfold d, move_run in *. rewrite foldl_app. cbn [foldl]. set (d0 := foldl _ _ events) in *. destruct e as [key|status target|key statuses]; cbn [move_step].
    - case_bool_decide; [done|]. by split_and!.
    - destruct (_ && _) eqn:E; [|done]. split_and!; [done|done|]. cbn [mv_chosen mv_projectKey]. apply Forall_jset; [|done]. cbn.
      apply andb_true_iff in E as [_ E]. apply bool_decide_eq_true in E. unfold move_there in E. destruct (jget (mv_known d0) (mv_projectKey d0)) as [there|] eqn:Et; [|by apply elem_of_nil in E].
      by apply I2 in Et as ->.
    - split_and!; [done| |done]. intros key' there. cbn [mv_known]. rewrite jget_jset. case_decide; [|apply I2]. intros [= <-]. by subst key'. }
  split; [done|]. unfold can_move in Hm. apply andb_true_iff in Hm as [_ Hm]. rewrite forallb_forall in Hm. specialize (Hm s (proj1 (list_elem_of_In _ _) Hs)). unfold mapped in Hm.
  destruct (jget (mapping from d) (status_id s)) as [v|] eqn:E; [|done]. exists v. split; [done|]. unfold mapping in E. apply jget_overlay in E as [E|E].
  - apply defaultMapping_in in E. unfold move_there in E. destruct (jget (mv_known d) (mv_projectKey d)) as [there|] eqn:Et; [|by apply elem_of_nil in E]. by apply H2 in Et as ->.
  - rewrite Forall_forall in H3. by apply (H3 _ E).
Qed.

Lemma move_lands_in_target_witness :
  let open := mkStatus "1" "Open" in let done_ := mkStatus "2" "Done" in
  let catalog (_ : string) := [mkStatus "9" "open"; mkStatus "2" "Done"] in
  let events := [MoveProject "WEB"; MoveStatusesRead "WEB" [mkStatus "9" "open"; mkStatus "2" "Done"]; MoveStatus "1" "2"] in
  let d := move_run [open; done_] ["APP"%string] events in
  can_move [open; done_] d = true ∧ ∃ v, jget (mapping [open; done_] d) "1" = Some v ∧ v ∈ map status_id (catalog (mv_projectKey d)).
Proof.
  intros open done_ catalog events d. split; [vm_compute; reflexivity|].
  apply (move_lands_in_target [open; done_] ["APP"%string] catalog events open); [repeat constructor|apply (bool_decide_unpack _); vm_compute; exact I|vm_compute; reflexivity|by left].
Defined.
