(* ===== verification/Arrange.v ===== *)
(** Arranging: the places of an issue's fields, [web/src/features/arrange/ArrangementEditor.tsx],
    and the widgets of a dashboard, [features/dashboard/DashboardGrid.tsx].

    Both send an order whole, made of what the server answered last; a control is a
    function from that to what is sent, if anything is. *)

From Stdlib Require Import ZArith Lia Ascii String.
From stdpp Require Import base list strings.
From S2P Require Import Prelude JsString IssueForms.

Open Scope Z_scope.

(** ** The fields of an issue *)

Inductive OriginScope := scope_builtin | scope_org | scope_project.
#[export] Instance OriginScope_eq : EqDecision OriginScope.
Proof. solve_decision. Defined.

Record Arrangement := mkArrangement { arr_issueTypeId : string; arr_scope : OriginScope; arr_places : list Placement }.

(** What is sent: the places, or that the organization's are followed again. *)
Record ArrangementInput := mkArrangementInput { ai_issueTypeId : string; ai_places : option (list Placement) }.

Definition keyOf (p : Placement) : string :=
  match placement_fieldId p with Some f => f | None => default EmptyString (placement_slot p) end.

Definition in_area (area : Area) (places : list Placement) : list Placement := filter (fun each => placement_area each = area) places.

Definition moveTo (places : list Placement) (p : Placement) (area : Area) : list Placement :=
  filter (fun each => keyOf each ≠ keyOf p) places ++ [mkPlacement area (placement_fieldId p) (placement_slot p)].

Fixpoint index_of (key : string) (l : list Placement) : option nat :=
  match l with
  | [] => None
  | each :: l' => if decide (keyOf each = key) then Some O else S <$> index_of key l'
  end.

(** [findIndex]: one before the start when there is none. *)
Definition findIndex (key : string) (l : list Placement) : Z := match index_of key l with Some i => Z.of_nat i | None => -1 end.

Definition shift (places : list Placement) (p : Placement) (by_ : Z) : option (list Placement) :=
  let inArea := in_area (placement_area p) places in
  let at_ := findIndex (keyOf p) inArea in
  let to := at_ + by_ in
  if (to <? 0) || (Z.of_nat (length inArea) <=? to) then None
  else match (if at_ <? 0 then None else inArea !! Z.to_nat at_), inArea !! Z.to_nat to with
  | Some here, Some there =>
      Some (filter (fun each => placement_area each ≠ placement_area p) places ++ <[Z.to_nat to := here]> (<[Z.to_nat at_ := there]> inArea))
  | _, _ => None
  end.

(** The editor: the arrangements the server has, the type chosen, and whether a save is
    on its way. *)
Record ArrangeEditor := mkArrangeEditor { ae_arrangements : list Arrangement; ae_typeId : string; ae_canFollow : bool; ae_readOnly : bool; ae_saving : bool }.

Definition arrangement_shown (e : ArrangeEditor) : option Arrangement :=
  match head (filter (fun a => arr_issueTypeId a = ae_typeId e) (ae_arrangements e)) with Some a => Some a | None => head (ae_arrangements e) end.

Inductive ArrangeControl := ShiftPressed (key : string) (earlier : bool) | WherePicked (key : string) (area : Area) | PlaceDropped (data : string) (area : Area) | FollowPressed.

Definition place_of (places : list Placement) (key : string) : option Placement := head (filter (fun p => keyOf p = key) places).

(** What a control sends, where it is drawn and can be used. *)
Definition arrange_control (e : ArrangeEditor) (c : ArrangeControl) : option ArrangementInput :=
  match arrangement_shown e with
  | None => None
  | Some a =>
      let write next := mkArrangementInput (arr_issueTypeId a) (Some next) in
      if ae_readOnly e then None
      else match c with
      | ShiftPressed key earlier =>
          if ae_saving e then None else p ← place_of (arr_places a) key; write <$> shift (arr_places a) p (if earlier then -1 else 1)
      | WherePicked key area | PlaceDropped key area => p ← place_of (arr_places a) key; Some (write (moveTo (arr_places a) p area))
      | FollowPressed => if ae_canFollow e && bool_decide (arr_scope a = scope_project) && negb (ae_saving e) then Some (mkArrangementInput (arr_issueTypeId a) None) else None
      end
  end.

(** ** The widgets of a dashboard *)

Record Widget := mkWidget { widget_id : string; widget_kind : string; widget_width : Z }.

(** [move]: the order that is asked for. *)
Definition move_widget (widgets : list Widget) (index : nat) (earlier : bool) : option (list string) :=
  let swap := Z.of_nat index + (if earlier then -1 else 1) in
  if (swap <? 0) || (Z.of_nat (length widgets) <=? swap) then None
  else match widgets !! index, widgets !! Z.to_nat swap with
  | Some a, Some b => Some (map widget_id (<[Z.to_nat swap := a]> (<[index := b]> widgets)))
  | _, _ => None
  end.

Definition widened (w : Widget) : Z := if widget_width w =? 2 then 1 else 2.

(** ** What is sent keeps the places *)

Lemma index_of_lookup key l i : index_of key l = Some i → ∃ p, l !! i = Some p ∧ keyOf p = key.
Proof.
  revert i. induction l as [|p l IH]; intros i; [done|]. cbn [index_of]. case_decide as E; [by intros [= <-]; eexists|].
  destruct (index_of key l) as [j|]; [|done]. intros [= <-]. apply (IH j eq_refl).
Qed.

Lemma NoDup_keys_inj (l : list Placement) p q : NoDup (map keyOf l) → p ∈ l → q ∈ l → keyOf p = keyOf q → p = q.
Proof.
  induction l as [|x l IH]; [by intros _ ?%elem_of_nil|]. cbn [map]. intros [Hx Hl]%NoDup_cons [->|Hp]%elem_of_cons [->|Hq]%elem_of_cons E; [done| | |by apply IH].
  - destruct Hx. rewrite E. by apply list_elem_of_fmap_2.
  - destruct Hx. rewrite <- E. by apply list_elem_of_fmap_2.
Qed.

Lemma filter_out_key (l : list Placement) p : NoDup (map keyOf l) → p ∈ l → p :: filter (fun each => keyOf each ≠ keyOf p) l ≡ₚ l.
Proof.
  induction l as [|x l IH]; [by intros _ ?%elem_of_nil|]. cbn [map]. intros [Hx Hl]%NoDup_cons Hp. rewrite filter_cons.
  destruct (decide (keyOf x ≠ keyOf p)) as [Hn|Hn].
  - apply elem_of_cons in Hp as [->|Hp]; [by destruct Hn|]. rewrite Permutation_swap. by rewrite IH.
  - apply dec_stable in Hn. assert (x = p) as ->.
    { apply elem_of_cons in Hp as [?|Hp]; [done|]. destruct Hx. rewrite Hn. by apply list_elem_of_fmap_2. }
    rewrite filter_every; [done|]. apply Forall_forall. intros y Hy E. apply Hx. rewrite <- E. by apply list_elem_of_fmap_2.
Qed.

(** What a list of places says of a field: the area it is in. *)
Definition area_at (places : list Placement) (key : string) : option Area := placement_area <$> place_of places key.

Lemma moveTo_keeps places p area :
  NoDup (map keyOf places) → p ∈ places →
  map keyOf (moveTo places p area) ≡ₚ map keyOf places ∧
  last (in_area area (moveTo places p area)) = Some (mkPlacement area (placement_fieldId p) (placement_slot p)) ∧
  (∀ other, filter (fun each => keyOf each ≠ keyOf p) (in_area other (moveTo places p area)) = filter (fun each => keyOf each ≠ keyOf p) (in_area other places)).
Proof.
  intros Hn Hp. set (q := mkPlacement area (placement_fieldId p) (placement_slot p)). assert (keyOf q = keyOf p) as Ek by done. split_and!.
  - unfold moveTo. rewrite map_app. cbn [map]. fold q. rewrite Ek, <- Permutation_cons_append. change (keyOf p :: map keyOf ?l) with (map keyOf (p :: l)). by rewrite filter_out_key.
  - unfold moveTo, in_area. rewrite filter_app, filter_cons, decide_True by done. rewrite filter_nil. by rewrite last_snoc.
  - intros other. unfold moveTo, in_area. rewrite !filter_app. fold q. set (l := filter (fun each => keyOf each ≠ keyOf p) (filter (fun each => placement_area each = other) [q])).
    assert (l = []) as ->.
    { unfold l. rewrite filter_cons. case_decide; [|done]. rewrite filter_cons, filter_nil. case_decide as E; [by destruct E|done]. }
    rewrite app_nil_r. rewrite !list_filter_filter. apply list_filter_iff. intros x. tauto.
Qed.

Lemma in_area_split area places : filter (fun each => placement_area each ≠ area) places ++ in_area area places ≡ₚ places.
Proof.
  unfold in_area. induction places as [|p places IH]; [done|]. rewrite !filter_cons. destruct (decide (placement_area p = area)) as [E|E].
  - destruct (decide (placement_area p ≠ area)); [done|]. rewrite <- Permutation_middle. by rewrite IH.
  - destruct (decide (placement_area p ≠ area)); [|done]. cbn. by rewrite IH.
Qed.

Lemma shift_keeps places p by_ next :
  by_ = -1 ∨ by_ = 1 → shift places p by_ = Some next →
  next ≡ₚ places ∧ (∀ other, other ≠ placement_area p → in_area other next = in_area other places) ∧
  ∃ i j here there, (Z.of_nat j = Z.of_nat i + by_) ∧ in_area (placement_area p) places !! i = Some here ∧ in_area (placement_area p) places !! j = Some there ∧
    keyOf here = keyOf p ∧ in_area (placement_area p) next = <[j := here]> (<[i := there]> (in_area (placement_area p) places)).
Proof.
  intros Hby. unfold shift. set (area := placement_area p). set (l := in_area area places). unfold findIndex. destruct (index_of (keyOf p) l) as [i|] eqn:Ei.
  2: { replace (if -1 <? 0 then None else l !! Z.to_nat (-1)) with (@None Placement) by done. by destruct (_ || _). }
  destruct (Z.ltb_spec (Z.of_nat i + by_) 0), (Z.leb_spec (Z.of_nat (length l)) (Z.of_nat i + by_)); cbn [orb]; try done.
  destruct (Z.ltb_spec (Z.of_nat i) 0); [lia|]. rewrite Nat2Z.id. set (j := Z.to_nat (Z.of_nat i + by_)). apply index_of_lookup in Ei as (here & Hi & Hk). rewrite Hi.
  destruct (l !! j) as [there|] eqn:Hj; [|done]. intros [= <-]. assert (Forall (fun each => placement_area each = area) l) as Hl by (apply Forall_forall; intros x [? _]%list_elem_of_filter; done).
  assert (Forall (fun each => placement_area each = area) (<[j := here]> (<[i := there]> l))) as Hl'.
  { apply Forall_insert; [apply Forall_insert; [done|]|]; [exact (Forall_lookup_1 _ _ _ _ Hl Hj)|exact (Forall_lookup_1 _ _ _ _ Hl Hi)]. }
  split_and!.
  - etrans; [|apply (in_area_split area places)]. apply Permutation_app_head. by apply Permutation_insert_swap.
  - intros other Ho. unfold in_area. rewrite filter_app. assert (filter (fun each => placement_area each = other) (<[j := here]> (<[i := there]> l)) = []) as ->.
    { apply filter_nothing. eapply Forall_impl; [exact Hl'|]. intros x -> E. by apply Ho. }
    rewrite app_nil_r, list_filter_filter. apply list_filter_iff. intros x. split; [tauto|]. intros <-. split; [done|]. exact Ho.
  - exists i, j, here, there. split_and!; [lia|done|done|done|]. unfold in_area at 1. rewrite filter_app.
    assert (filter (fun each => placement_area each = area) (filter (fun each => placement_area each ≠ area) places) = []) as -> by (rewrite list_filter_filter; apply filter_nothing, Forall_forall; intros x _ [? ?]; done).
    by apply filter_every.
Qed.

(** C30: whatever control of the arrangement of an issue's page is used, what it sends
    holds every place there was, each once, of the type that is shown; a place moved to
    an area is the last there and no other place changes its area or its order; a place
    shifted trades places with its neighbour of the same area, and the other areas are as
    they were. *)
Theorem arrangement_keeps_places e c input places :
  (∀ a, a ∈ ae_arrangements e → NoDup (map keyOf (arr_places a))) →
  arrange_control e c = Some input → ai_places input = Some places →
  ∃ a, arrangement_shown e = Some a ∧ ai_issueTypeId input = arr_issueTypeId a ∧ ae_readOnly e = false ∧
    map keyOf places ≡ₚ map keyOf (arr_places a) ∧
    match c with
    | WherePicked key area | PlaceDropped key area =>
        keyOf <$> last (in_area area places) = Some key ∧
        ∀ other, filter (fun p => keyOf p ≠ key) (in_area other places) = filter (fun p => keyOf p ≠ key) (in_area other (arr_places a))
    | ShiftPressed key earlier => ∃ area i j here there,
        Z.of_nat j = Z.of_nat i + (if earlier then -1 else 1) ∧ in_area area (arr_places a) !! i = Some here ∧ in_area area (arr_places a) !! j = Some there ∧ keyOf here = key ∧
        in_area area places = <[j := here]> (<[i := there]> (in_area area (arr_places a))) ∧ ∀ other, other ≠ area → in_area other places = in_area other (arr_places a)
    | FollowPressed => False
    end.
Proof.
  intros Hn. unfold arrange_control. destruct (arrangement_shown e) as [a|] eqn:Ea; [|done]. destruct (ae_readOnly e) eqn:Er; [done|].
  assert (NoDup (map keyOf (arr_places a))) as Ha.
  { apply Hn. unfold arrangement_shown in Ea. destruct (head (filter _ _)) eqn:E; [|destruct (ae_arrangements e); [done|]; injection Ea as ->; by left].
    injection Ea as ->. destruct (filter _ _) as [|x l] eqn:Ef; [done|]. injection E as ->. assert (a ∈ a :: l) as Hx by by left. rewrite <- Ef in Hx. by apply list_elem_of_filter in Hx as [_ ?]. }
  assert (∀ key p, place_of (arr_places a) key = Some p → p ∈ arr_places a ∧ keyOf p = key) as Hplace.
  { intros key p. unfold place_of. destruct (filter _ _) as [|x l] eqn:Ef; [done|]. intros [= ->]. assert (p ∈ p :: l) as Hx by by left. rewrite <- Ef in Hx. by apply list_elem_of_filter in Hx as [? ?]. }
  assert (∀ key area, (p ← place_of (arr_places a) key; Some (mkArrangementInput (arr_issueTypeId a) (Some (moveTo (arr_places a) p area)))) = Some input → ai_places input = Some places →
    ai_issueTypeId input = arr_issueTypeId a ∧ map keyOf places ≡ₚ map keyOf (arr_places a) ∧ keyOf <$> last (in_area area places) = Some key ∧
    ∀ other, filter (fun p => keyOf p ≠ key) (in_area other places) = filter (fun p => keyOf p ≠ key) (in_area other (arr_places a))) as Hmove.
  { intros key area Hc Hp. destruct (place_of (arr_places a) key) as [p|] eqn:E; [|done]. apply Hplace in E as [E1 <-]. cbn in Hc. injection Hc as <-. injection Hp as <-.
    destruct (moveTo_keeps (arr_places a) p area Ha E1) as (K1 & K2 & K3). split_and!; [done|done| |done]. by rewrite K2. }
  intros Hc Hp. exists a. destruct c as [key earlier|key area|key area|].
  - destruct (ae_saving e); [done|]. destruct (place_of (arr_places a) key) as [p|] eqn:E; [|done]. cbn in Hc. destruct (shift (arr_places a) p (if earlier then -1 else 1)) as [next|] eqn:Es; [|done].
    injection Hc as <-. injection Hp as <-. apply Hplace in E as [E1 <-]. apply shift_keeps in Es as (K1 & K2 & i & j & here & there & K3); [|by destruct earlier; [left|right]].
    split_and!; [done|done|done|by rewrite K1|]. exists (placement_area p), i, j, here, there. destruct K3 as (?&?&?&?&?). by split_and!.
  - destruct (Hmove key area Hc Hp) as (?&?&?&?). by split_and!.
  - destruct (Hmove key area Hc Hp) as (?&?&?&?). by split_and!.
  - destruct (_ && _); [|done]. injection Hc as <-. done.
Qed.

Definition two_places : ArrangeEditor :=
  mkArrangeEditor [mkArrangement "bug" scope_org [mkPlacement area_main None (Some "summary"); mkPlacement area_people None (Some "assignee"); mkPlacement area_main (Some "f1") None]]%string "bug" false false false.

Lemma arrangement_keeps_places_witness :
  ∃ input places, arrange_control two_places (ShiftPressed "f1" true) = Some input ∧ ai_places input = Some places ∧ map keyOf places ≡ₚ ["summary"; "assignee"; "f1"]%string.
Proof.
  eexists _, _. split; [vm_compute; reflexivity|]. split; [reflexivity|].
  destruct (arrangement_keeps_places two_places (ShiftPressed "f1" true) (mkArrangementInput "bug" (Some [mkPlacement area_people None (Some "assignee"%string); mkPlacement area_main (Some "f1"%string) None; mkPlacement area_main None (Some "summary"%string)]))
    [mkPlacement area_people None (Some "assignee"%string); mkPlacement area_main (Some "f1"%string) None; mkPlacement area_main None (Some "summary"%string)]) as (a & Ha & _ & _ & H & _).
  - intros a Ha. apply list_elem_of_singleton in Ha as ->. apply (bool_decide_unpack _). vm_compute. exact I.
  - vm_compute. reflexivity.
  - reflexivity.
  - vm_compute in Ha. injection Ha as <-. exact H.
Defined.

(** While a save is on its way a place can still be moved to another area: the places are
    made of the answer before, so the change on its way is taken back. *)
Lemma second_move_undoes_first :
  let saving := mkArrangeEditor (ae_arrangements two_places) "bug" false false true in
  ∃ input, arrange_control saving (WherePicked "assignee" area_more) = Some input ∧
    in_area area_main <$> ai_places input = Some (in_area area_main (arr_places (mkArrangement "bug" scope_org [mkPlacement area_main None (Some "summary"); mkPlacement area_people None (Some "assignee"); mkPlacement area_main (Some "f1") None]%string))).
Proof. eexists. split; vm_compute; reflexivity. Qed.

(** Widgets trade places with a neighbour. *)
Lemma move_widget_swaps widgets i earlier order :
  move_widget widgets i earlier = Some order →
  order ≡ₚ map widget_id widgets ∧ ∃ j a b, Z.of_nat j = Z.of_nat i + (if earlier then -1 else 1) ∧ widgets !! i = Some a ∧ widgets !! j = Some b ∧
    order !! j = Some (widget_id a) ∧ order !! i = Some (widget_id b) ∧ ∀ k, k ≠ i → k ≠ j → order !! k = widget_id <$> widgets !! k.
Proof.
  unfold move_widget. set (swap := Z.of_nat i + (if earlier then -1 else 1)). destruct (Z.ltb_spec swap 0), (Z.leb_spec (Z.of_nat (length widgets)) swap); cbn [orb]; try done.
  destruct (widgets !! i) as [a|] eqn:Ei; [|done]. destruct (widgets !! Z.to_nat swap) as [b|] eqn:Ej; [|done]. intros [= <-]. split.
  - apply fmap_Permutation. by apply Permutation_insert_swap.
  - assert (i ≠ Z.to_nat swap) as Hne by (unfold swap in *; destruct earlier; lia). pose proof (lookup_lt_Some _ _ _ Ei). pose proof (lookup_lt_Some _ _ _ Ej).
    exists (Z.to_nat swap), a, b. change (map widget_id ?l) with (widget_id <$> l). rewrite !list_lookup_fmap. split_and!; [lia|done|done| | |].
    + rewrite list_lookup_insert_eq by (rewrite length_insert; lia). done.
    + rewrite list_lookup_insert_ne by done. rewrite list_lookup_insert_eq by lia. done.
    + intros k Hk1 Hk2. rewrite list_lookup_fmap. by rewrite !list_lookup_insert_ne by done.
Qed.
