(* ===== verification/Resources.v ===== *)
(** The resources view: [web/src/features/resources/cells.ts], the window of weeks of
    [routes/resources.tsx], [ResourceToolbar.tsx] and [UnplacedWork.tsx].

    Hours are exact rationals; a local date is the number of its day. *)

From Stdlib Require Import ZArith QArith Qround Qminmax Lia Lqa Ascii String.
From stdpp Require Import base list strings.
From S2P Require Import Prelude JsString JsDate DayText Config Scale ScaleFacts Week PlanPieces DashBurndown CalendarFacts.

Open Scope Z_scope.

(** ** Data: [api/resources.ts] *)

Record ResourceWeek := mkResourceWeek {
  rw_start : string;
  rw_loadHours : Q;
  rw_capacityHours : option Q;
  rw_nominalHours : option Q;
  rw_daysAway : option Q;
  rw_holidays : option Z;
}.

Inductive RowKind := row_team | row_person | row_unassigned.
#[export] Instance RowKind_eq : EqDecision RowKind.
Proof. solve_decision. Defined.

Record ResourceRow := mkResourceRow { rr_kind : RowKind; rr_name : string; rr_sharePercent : option Z; rr_weeks : list ResourceWeek }.

(** ** Cells *)

Definition cellState (week : ResourceWeek) : Utilisation := utilisation (rw_loadHours week) (rw_capacityHours week).

Record CellShares := mkCellShares { share_load : Q; share_capacity : option Q; share_nominal : option Q }.

Definition cellShares (row : ResourceRow) (week : ResourceWeek) : CellShares :=
  let nominal := match rw_nominalHours week with Some n => Some n | None => rw_capacityHours week end in
  let ceiling := match nominal with
                 | Some n => Qmax n (rw_loadHours week)
                 | None => foldl Qmax 1%Q (map rw_loadHours (rr_weeks row))
                 end in
  if Qle_bool ceiling 0 then mkCellShares 0 (Some 0%Q) (Some 0%Q)
  else let share v := Qmin 1 (v / ceiling)%Q in
       mkCellShares (share (rw_loadHours week)) (share <$> rw_capacityHours week) (share <$> nominal).

(** A whole number of tenths, as [String] writes it; [RESOURCE_HOUR_DECIMALS] is one. *)
Definition text_of_tenths (n : Z) : string :=
  (if n <? 0 then "-" else EmptyString) +:+ stringOfInt (Z.abs n / 10) +:+ (if Z.abs n mod 10 =? 0 then EmptyString else "." +:+ stringOfInt (Z.abs n mod 10)).
Definition hourScale : Z := 10 ^ RESOURCE_HOUR_DECIMALS.
Definition hours (value : Q) : string := text_of_tenths (js_round (value * inject_Z hourScale)).

Record ResourceWords := mkResourceWords {
  rword_share : Z → string;
  rword_loadOf : string → string → string → string;
  rword_hours : string → string;
  rword_daysAway : string → Q → string;
  rword_holidays : Z → string;
  rword_weekOf : string → string → string;
}.

Definition describeHours (w : ResourceWords) (week : ResourceWeek) (sharePercent : option Z) : string :=
  let share := match sharePercent with Some p => rword_share w p | None => EmptyString end in
  let first := match rw_capacityHours week with Some c => rword_loadOf w (hours (rw_loadHours week)) (hours c) share | None => rword_hours w (hours (rw_loadHours week)) end in
  let away := match rw_daysAway week with Some d => if Qeq_bool d 0 then [] else [rword_daysAway w (number d) d] | None => [] end in
  let off := match rw_holidays week with Some h => if h =? 0 then [] else [rword_holidays w h] | None => [] end in
  join "; " ([first] ++ away ++ off).

Definition hasPlannedRows (rows : list ResourceRow) : bool := existsb (fun row => negb (bool_decide (rr_kind row = row_unassigned))) rows.

(** ** Weeks *)

(** The Monday of the week of a local date, and a Monday moved by weeks; [None] where the
    text is of no day. *)
Definition mondayOf (local : Z) : option string :=
  d ← day <$> parse_date (today local);
  let back := (getUTCDay d + DAYS_PER_WEEK - 1) mod DAYS_PER_WEEK in
  Some (isoDay (addDays d (- back))).

Definition shiftWeeks (monday : string) (weeks : Z) : option string :=
  d ← day <$> parse_date monday; Some (isoDay (addDays d (weeks * DAYS_PER_WEEK))).

Definition windowFrom (monday : string) (weeks : Z) : option (string * string) :=
  d ← day <$> parse_date monday; Some (monday, isoDay (addDays d (weeks * DAYS_PER_WEEK - 1))).

(** The buttons over the grid. *)
Inductive WindowPress := press_previous | press_next | press_today (local : Z).

Definition press_window (monday : option string) (p : WindowPress) : option string :=
  match p with
  | press_previous => monday ≫= (fun m => shiftWeeks m (- RESOURCE_STEP_WEEKS))
  | press_next => monday ≫= (fun m => shiftWeeks m RESOURCE_STEP_WEEKS)
  | press_today local => mondayOf local
  end.

Definition window_run (local : Z) (presses : list WindowPress) : option string := foldl press_window (mondayOf local) presses.

(** ** The grouping: [ResourceToolbar.tsx] *)

Inductive Grouping := by_team | by_person.
#[export] Instance Grouping_eq : EqDecision Grouping.
Proof. solve_decision. Defined.

(** What picking a grouping asks for, where the choice is drawn. *)
Definition pick_grouping (kanban canChange saving : bool) (grouping next : Grouping) : option Grouping :=
  if kanban && canChange && negb saving && negb (bool_decide (next = grouping)) then Some next else None.

(** ** Work without a place: [UnplacedWork.tsx] *)

Definition unplaced_shown {A} (expanded : bool) (issues : list A) : list A := if expanded then issues else slice_to RESOURCE_LIST_LIMIT issues.
Definition unplaced_folds {A} (issues : list A) : bool := RESOURCE_LIST_LIMIT <? Z.of_nat (length issues).

(** ** What the cells keep *)

Lemma foldl_Qmax (l : list Q) (a : Q) : (a <= foldl Qmax a l)%Q ∧ (∀ x, x ∈ l → (x <= foldl Qmax a l)%Q).
Proof.
  revert a. induction l as [|y l IH]; intros a; cbn [foldl]; [split; [lra|by intros x ?%elem_of_nil]|]. destruct (IH (Qmax a y)) as [H1 H2].
  pose proof (Q.le_max_l a y). pose proof (Q.le_max_r a y). split; [lra|]. intros x [->|Hx]%elem_of_cons; [lra|by apply H2].
Qed.

(** The bars of a cell stay in it, and the load fills the cell only where nothing was
    nominal above it. *)
Lemma cell_shares_fit row week :
  week ∈ rr_weeks row → (0 <= rw_loadHours week)%Q → (∀ c, rw_capacityHours week = Some c → 0 <= c)%Q → (∀ n, rw_nominalHours week = Some n → 0 <= n)%Q →
  let s := cellShares row week in
  (0 <= share_load s <= 1)%Q ∧ (∀ c, share_capacity s = Some c → 0 <= c <= 1)%Q ∧ (∀ n, share_nominal s = Some n → 0 <= n <= 1)%Q ∧
  (∀ c n, share_capacity s = Some c → share_nominal s = Some n → rw_nominalHours week = None → c == n)%Q.
Proof.
  intros Hw Hl Hc Hn. unfold cellShares. set (nominal := match rw_nominalHours week with Some n => Some n | None => rw_capacityHours week end). set (ceiling := match nominal with Some n => _ | None => _ end).
  assert (∀ v, 0 <= v → ~ (ceiling <= 0) → 0 <= Qmin 1 (v / ceiling) <= 1)%Q as Hshare.
  { intros v Hv Hp. pose proof (Q.le_min_l 1 (v / ceiling)). split; [|done]. apply Q.min_glb; [lra|]. apply Qle_shift_div_l; lra. }
  destruct (Qle_bool ceiling 0) eqn:E; cbn [share_load share_capacity share_nominal].
  - split_and!; [lra|lra|intros c [= <-]; lra|intros n [= <-]; lra|intros c n [= <-] [= <-] _; lra].
  - assert (~ (ceiling <= 0))%Q as Hp by (intros H; apply Qle_bool_iff in H; congruence). split_and!; try (by apply Hshare).
    + intros c Hs. destruct (rw_capacityHours week) as [x|]; [|done]. cbn in Hs. injection Hs as <-. apply Hshare; auto.
    + intros n Hs. assert (∀ x, nominal = Some x → 0 <= x)%Q as Hx by (intros x; unfold nominal; destruct (rw_nominalHours week); [intros [= <-]; auto|auto]).
      destruct nominal as [x|]; [|done]. cbn in Hs. injection Hs as <-. apply Hshare; auto.
    + intros c n Hs Hs' Hnone. unfold nominal in Hs'. rewrite Hnone in Hs'. destruct (rw_capacityHours week); [|done]. cbn in *. injection Hs as <-. injection Hs' as <-. lra.
Qed.

(** ** The window *)

(** The days of the years 1000 to 9999, whose texts have four digits of year. *)
Definition FIRST_DAY : Z := -354285.
Definition LAST_DAY : Z := 2932896.

Lemma day_in_years n : FIRST_DAY <= n <= LAST_DAY → 1000 <= (civil_of n).1.1 <= 9999.
Proof.
  intros Hn. pose proof (civil_order n FIRST_DAY) as H1. pose proof (civil_order n LAST_DAY) as H2. destruct (civil_of n) as [[y m] d].
  change (civil_of FIRST_DAY) with (1000, 1, 1) in H1. change (civil_of LAST_DAY) with (9999, 12, 31) in H2. cbn [fst snd].
  unfold FIRST_DAY, LAST_DAY in *. destruct (Z.eqb_spec y 1000), (Z.eqb_spec y 9999); lia.
Qed.

Lemma today_iso n : FIRST_DAY <= n <= LAST_DAY → today n = iso_day n.
Proof.
  intros Hn%day_in_years. rewrite <- (isoDay_iso n) by exact Hn. unfold today, Calendar.isoDay, Calendar.getFullYear, Calendar.getMonth, Calendar.getDate.
  destruct (civil_of n) as [[y m] d]. cbn [fst snd]. by rewrite Z.sub_add.
Qed.

Lemma in_four_digits n : FIRST_DAY <= n <= LAST_DAY → four_digit_day n.
Proof. intros Hn%day_in_years. unfold four_digit_day. lia. Qed.

Lemma iso_of_midnight n : FIRST_DAY <= n <= LAST_DAY → isoDay (n * MS_PER_DAY) = iso_day n ∧ day (n * MS_PER_DAY) = n * MS_PER_DAY.
Proof.
  intros Hn. assert (day (n * MS_PER_DAY) = n * MS_PER_DAY) as E.
  { rewrite day_modern; [by rewrite day_number_mult|]. apply modern_day_number. rewrite day_number_mult. unfold FIRST_DAY in Hn. lia. }
  split; [|done]. unfold isoDay. rewrite E. unfold iso_slice. rewrite day_number_mult. pose proof (day_in_years n Hn) as Hy.
  pose proof (iso_day_length n (in_four_digits n Hn)) as Hlen. unfold iso_day in *. destruct (civil_of n) as [[y m] d]. cbn [fst] in Hy. unfold day_text in *.
  assert (iso_year y = padStart 4 (stringOfInt y)) as ->. { unfold iso_year. destruct (Z.leb_spec 0 y), (Z.leb_spec y 9999); try lia; done. }
  apply slice_ten. lia.
Qed.

Definition monday_day (local : Z) : Z := local - (local + 3) mod 7.
Definition press_day (n : Z) (p : WindowPress) : Z :=
  match p with press_previous => n - 28 | press_next => n + 28 | press_today local => monday_day local end.
Definition window_day (local : Z) (presses : list WindowPress) : Z := foldl press_day (monday_day local) presses.

Lemma mondayOf_day local : FIRST_DAY + 7 <= local <= LAST_DAY → mondayOf local = Some (iso_day (monday_day local)).
Proof.
  intros Hl. unfold mondayOf. rewrite today_iso, iso_day_no_T by (try apply in_four_digits; lia). cbn [fmap option_fmap option_map mbind option_bind]. destruct (iso_of_midnight local ltac:(lia)) as [_ ->].
  assert ((getUTCDay (local * MS_PER_DAY) + DAYS_PER_WEEK - 1) mod DAYS_PER_WEEK = (local + 3) mod 7) as ->.
  { unfold getUTCDay, DAYS_PER_WEEK. rewrite day_number_mult. div_lia. }
  assert (addDays (local * MS_PER_DAY) (- ((local + 3) mod 7)) = monday_day local * MS_PER_DAY) as -> by (unfold addDays, monday_day; lia).
  assert (0 <= (local + 3) mod 7 < 7) by (apply Z.mod_pos_bound; lia). destruct (iso_of_midnight (monday_day local)) as [-> _]; [unfold monday_day; lia|done].
Qed.

Lemma shiftWeeks_day n k : FIRST_DAY <= n <= LAST_DAY → FIRST_DAY <= n + 7 * k <= LAST_DAY → shiftWeeks (iso_day n) k = Some (iso_day (n + 7 * k)).
Proof.
  intros Hn Hk. unfold shiftWeeks. rewrite iso_day_no_T by by apply in_four_digits. cbn [fmap option_fmap option_map mbind option_bind]. destruct (iso_of_midnight n Hn) as [_ ->].
  assert (addDays (n * MS_PER_DAY) (k * DAYS_PER_WEEK) = (n + 7 * k) * MS_PER_DAY) as -> by (unfold addDays, DAYS_PER_WEEK; lia).
  by destruct (iso_of_midnight (n + 7 * k) Hk) as [-> _].
Qed.

Lemma windowFrom_day n k : FIRST_DAY <= n <= LAST_DAY → FIRST_DAY <= n + 7 * k - 1 <= LAST_DAY → windowFrom (iso_day n) k = Some (iso_day n, iso_day (n + 7 * k - 1)).
Proof.
  intros Hn Hk. unfold windowFrom. rewrite iso_day_no_T by by apply in_four_digits. cbn [fmap option_fmap option_map mbind option_bind]. destruct (iso_of_midnight n Hn) as [_ ->].
  assert (addDays (n * MS_PER_DAY) (k * DAYS_PER_WEEK - 1) = (n + 7 * k - 1) * MS_PER_DAY) as -> by (unfold addDays, DAYS_PER_WEEK; lia).
  by destruct (iso_of_midnight (n + 7 * k - 1) Hk) as [-> _].
Qed.

(** A day that leaves room for a thousand presses either way. *)
Definition roomy (n : Z) : Prop := FIRST_DAY + 30000 <= n <= LAST_DAY - 30000.

Lemma monday_bounds local : monday_day local <= local < monday_day local + 7 ∧ (monday_day local + 4) mod 7 = 1.
Proof. unfold monday_day. split; div_lia. Qed.

(** The weeks of the resources view, whatever is pressed: the window starts on a
    Monday, the one the presses lead to by the days of the calendar, and holds eight
    whole weeks, to the Sunday; after "today" it starts with the reader's own week. *)
Theorem resources_window local presses :
  roomy local → Forall (fun p => match p with press_today d => roomy d | _ => True end) presses → (length presses <= 1000)%nat →
  let n := window_day local presses in
  window_run local presses = Some (iso_day n) ∧ (n + 4) mod 7 = 1 ∧
  windowFrom (iso_day n) RESOURCE_WINDOW_WEEKS = Some (iso_day n, iso_day (n + 55)) ∧
  (∀ before d, presses = before ++ [press_today d] → n <= d < n + 7).
Proof.
  intros Hl Hp Hlen n. assert (∀ ps, Forall (fun p => match p with press_today d => roomy d | _ => True end) ps → (length ps <= 1000)%nat →
    window_run local ps = Some (iso_day (window_day local ps)) ∧ (window_day local ps + 4) mod 7 = 1 ∧
    FIRST_DAY + 29000 - 28 * Z.of_nat (length ps) <= window_day local ps <= LAST_DAY - 29000 + 28 * Z.of_nat (length ps)) as H.
  { induction ps as [|p ps IH] using rev_ind; intros Hps Hn.
    - unfold window_run, window_day. cbn [foldl length]. unfold roomy in Hl. rewrite mondayOf_day by lia. pose proof (monday_bounds local) as [H1 H2]. split_and!; [done|done|lia|lia].
    - apply Forall_app in Hps as [Hps [Hlast _]%Forall_cons]. rewrite length_app in Hn |- *. cbn [length] in *. destruct (IH Hps ltac:(lia)) as (I1 & I2 & I3).
      unfold window_run, window_day in *. rewrite !foldl_app. cbn [foldl]. rewrite I1. set (k := foldl press_day _ ps) in *. destruct p as [| |d]; cbn [press_window press_day mbind option_bind].
      + rewrite shiftWeeks_day by (unfold RESOURCE_STEP_WEEKS; lia). unfold RESOURCE_STEP_WEEKS. replace (k + 7 * - (4)) with (k - 28) by lia. split_and!; [done|div_lia|lia|lia].
      + rewrite shiftWeeks_day by (unfold RESOURCE_STEP_WEEKS; lia). unfold RESOURCE_STEP_WEEKS. replace (k + 7 * 4) with (k + 28) by lia. split_and!; [done|div_lia|lia|lia].
      + unfold roomy in Hlast. rewrite mondayOf_day by lia. pose proof (monday_bounds d) as [H1 H2]. split_and!; [done|done|lia|lia]. }
  destruct (H presses Hp Hlen) as (H1 & H2 & H3). fold n in H1, H2, H3. split_and!; [done|done| |].
  - rewrite windowFrom_day by (unfold RESOURCE_WINDOW_WEEKS; lia). unfold RESOURCE_WINDOW_WEEKS. by replace (n + 7 * 8 - 1) with (n + 55) by lia.
  - intros before d ->. unfold n, window_day. rewrite foldl_app. cbn [foldl press_day]. apply monday_bounds.
Qed.

Lemma resources_window_witness :
  windowFrom "2026-03-02" RESOURCE_WINDOW_WEEKS = Some ("2026-03-02", "2026-04-26")%string ∧ window_run 20519 [press_next; press_previous] = Some "2026-03-02"%string ∧
  window_day 20519 [press_next; press_previous] <= 20519 < window_day 20519 [press_next; press_previous] + 7.
Proof.
  destruct (resources_window 20519 [press_next; press_previous]) as (H1 & _ & H3 & _); [unfold roomy, FIRST_DAY, LAST_DAY; lia|repeat constructor|cbn; lia|].
  split_and!; [exact H3|exact H1|vm_compute; discriminate|vm_compute; reflexivity].
Defined.
