(* ===== verification/Charts.v ===== *)
(** A dashboard's drawn shapes and their settings: [web/src/features/dashboard/charts.tsx],
    [FlowBodies.tsx], [WidgetSettings.tsx] and [FilterTile.tsx], with [hours] and [share]
    of [web/src/api/reports.tsx].

    A shape is what it puts into its unit box: widths and heights in hundredths of it,
    and paths as they are written.  Numbers are exact rationals. *)

From Stdlib Require Import ZArith QArith Qround Qminmax Lia Lqa Ascii String.
From stdpp Require Import base sets list strings.
From S2P Require Import Prelude JsString Config Api Scale ScaleFacts PlanPieces PlanPiecesFacts DashFilter DashChart.

Open Scope Z_scope.

(** ** Numbers in words *)

(** [value.toFixed(1)], of a number that is not negative. *)
Definition toFixed1 (value : Q) : string := tenths value.

Definition hours (value : Q) : string :=
  if Qle_bool 48 value then toFixed1 (value / 24) +:+ "d"
  else if Qle_bool 1 value then toFixed1 value +:+ "h"
  else stringOfInt (js_round (value * 60)) +:+ "m".

Definition share (part whole : Q) : Z := if Qle_bool whole 0 then 0 else js_round (part / whole * 100).

(** [t.dashboard.chart.hours] and [days]. *)
Record DayWords := mkDayWords { dw_hours : Z → string; dw_days : string → string }.

Definition days (words : DayWords) (value : Q) : string :=
  if negb (Qle_bool 1 value) then dw_hours words (js_round (value * 24))
  else dw_days words (if negb (Qle_bool 10 value) then toFixed1 value else stringOfInt (js_round value)).

(** The first, middle and last labels of a series. *)
Definition axisEnds (labels : list string) : list string :=
  if (length labels <=? 2)%nat then labels
  else [nth 0 labels EmptyString; nth (length labels / 2) labels EmptyString; nth (length labels - 1) labels EmptyString].

(** A group's name as a reader sees it. *)
Definition shown (other label : string) : string := if decide (label = OTHER) then other else label.

(** ** Bars *)

(** [Math.max(1, ...values)]. *)
Definition max_of (values : list Q) : Q := foldr Qmax 1%Q values.

Record BarRow := mkBarRow { bar_label : string; bar_count : Q }.

(** [BarList]: each bar's width, in hundredths of its line. *)
Definition bar_widths (rows : list BarRow) : list Q :=
  let max := max_of (map bar_count rows) in map (fun row => (bar_count row / max) * 100)%Q rows.

(** [Progress]: how far a bar of the whole reaches. *)
Definition progress_pct (done total : Q) : Z := if negb (Qle_bool total 0) then js_round (done / total * 100) else 0.

Record PairGroup := mkPairGroup { pg_label : string; pg_a : Q; pg_b : Q }.

(** [PairedBars]: the two heights of each group, and whether each has its least height. *)
Definition pair_heights (groups : list PairGroup) : list (Q * Q) :=
  let max := max_of (flat_map (fun g => [pg_a g; pg_b g]) groups) in
  map (fun g => ((pg_a g / max) * 100, (pg_b g / max) * 100)%Q) groups.

Definition minHeight (value : Q) : Z := if Qeq_bool value 0 then 0 else 2.

(** The labels under the groups: every so many of them, so that few are written. *)
Definition ceil_div (n m : Z) : Z := - ((- n) / m).
Definition axis_labels (groups : list PairGroup) : list string :=
  imap (fun i g => if Z.of_nat i mod ceil_div (Z.of_nat (length groups)) CHART_AXIS_LABELS =? 0 then pg_label g else EmptyString) groups.

(** ** Lines *)

Record Point := mkPoint { pt_x : Q; pt_y : Q }.

Definition CHART_UNIT : Q := 100.

Definition px (maxX x : Q) : Q := (x / maxX * CHART_UNIT)%Q.
Definition py (maxY y : Q) : Q := (CHART_UNIT - y / maxY * CHART_UNIT)%Q.

(** What is written of a point's coordinate. *)
Definition at_text (v : Q) : string := number (round v).
Definition dot_text (p : Point) : string := at_text (pt_x p) +:+ " " +:+ at_text (pt_y p).

Definition pathOf (points : list Point) (step : bool) : string :=
  match points with
  | [p] => "M" +:+ dot_text p +:+ " h0"
  | _ => join " " (imap (fun i p =>
      if (i =? 0)%nat then "M" +:+ dot_text p
      else if step then "H" +:+ at_text (pt_x p) +:+ " V" +:+ at_text (pt_y p)
      else "L" +:+ dot_text p) points)
  end.

Record LineSeries := mkLineSeries { ls_name : string; ls_tone : string; ls_points : list Point; ls_dashed : bool; ls_step : bool }.

(** One line as it is drawn: its path, the width of its stroke and its dashes. *)
Record Stroke := mkStroke { sk_name : string; sk_points : list Point; sk_path : string; sk_width : Z; sk_dashed : bool; sk_round_cap : bool }.

Definition drawn (series : list LineSeries) : list LineSeries := filter (fun s => ls_points s ≠ []) series.

Definition maxX_of (series : list LineSeries) : Q := max_of (flat_map (fun s => map pt_x (ls_points s)) (drawn series)).
Definition maxY_of (series : list LineSeries) : Q := max_of (flat_map (fun s => map pt_y (ls_points s)) (drawn series)).

(** [LineChart]: [None] where there is nothing to draw. *)
Definition LineChart (series : list LineSeries) : option (list Stroke) :=
  match drawn series with
  | [] => None
  | shown =>
      Some (map (fun s =>
        let lone := (length (ls_points s) =? 1)%nat in
        let points := map (fun p => mkPoint (px (maxX_of series) (pt_x p)) (py (maxY_of series) (pt_y p))) (ls_points s) in
        mkStroke (ls_name s) points (pathOf points (ls_step s))
          (if lone then CHART_MARKER_PX else if ls_dashed s then 1 else 2) (ls_dashed s && negb lone) lone) shown)
  end.

(** ** Dots over time *)

Definition minX_of (points : list Point) : Q := match points with [] => 0%Q | p :: rest => foldr Qmin (pt_x p) (map pt_x rest) end.
Definition scatter_maxX (points : list Point) : Q := foldr Qmax (minX_of points + 1)%Q (map pt_x points).
Definition scatter_maxY (points rolling : list Point) : Q := max_of (map pt_y points ++ map pt_y rolling).
Definition scatter_px (points : list Point) (x : Q) : Q := ((x - minX_of points) / (scatter_maxX points - minX_of points) * CHART_UNIT)%Q.

Record ScatterDrawn := mkScatterDrawn { sc_line : option (list Point); sc_dots : list Point }.

Definition Scatter (points rolling : list Point) : option ScatterDrawn :=
  match points with
  | [] => None
  | _ =>
      let place p := mkPoint (scatter_px points (pt_x p)) (py (scatter_maxY points rolling) (pt_y p)) in
      Some (mkScatterDrawn (if (1 <? length rolling)%nat then Some (map place rolling) else None) (map place points))
  end.

(** ** Bands stacked on each other *)

Record Band := mkBand { band_name : string; band_tone : string; band_values : list Q }.

Definition value_at (b : Band) (i : nat) : Q := default 0%Q (band_values b !! i).

Definition steps_of (bands : list Band) : nat := foldr Nat.max 0%nat (map (fun b => length (band_values b)) bands).
Definition total_at (bands : list Band) (i : nat) : Q := foldl (fun sum b => (sum + value_at b i)%Q) 0%Q bands.
Definition stack_maxY (bands : list Band) : Q := max_of (map (total_at bands) (seq 0 (steps_of bands))).
Definition step_x (steps i : nat) : Q := (inject_Z (Z.of_nat i) / (inject_Z (Z.of_nat steps) - 1) * CHART_UNIT)%Q.

(** One band as it is filled: the points along its top, and those along its foot. *)
Record Filled := mkFilled { fl_name : string; fl_tone : string; fl_top : list Point; fl_foot : list Point; fl_path : string }.

Definition edge (steps : nat) (maxY : Q) (ys : list Q) : list Point := imap (fun i y => mkPoint (step_x steps i) (py maxY y)) ys.

Definition area_path (top foot : list Point) : string :=
  let upper := map dot_text top in
  let lower := rev (map dot_text foot) in
  "M" +:+ nth 0 upper EmptyString +:+ " " +:+ join " " (map (fun p => "L" +:+ p) (drop 1 upper)) +:+ " " +:+
  join " " (map (fun p => "L" +:+ p) lower) +:+ " Z".

Fixpoint stack_from (steps : nat) (maxY : Q) (below : list Q) (bands : list Band) : list Filled :=
  match bands with
  | [] => []
  | b :: rest =>
      let top := imap (fun i base => (base + value_at b i)%Q) below in
      mkFilled (band_name b) (band_tone b) (edge steps maxY top) (edge steps maxY below)
        (area_path (edge steps maxY top) (edge steps maxY below)) :: stack_from steps maxY top rest
  end.

Definition stackedPaths (bands : list Band) : list Filled :=
  let steps := steps_of bands in
  if (steps <? 2)%nat then [] else stack_from steps (stack_maxY bands) (replicate steps 0%Q) bands.

(** ** Legends and tables of the chart widget ([ChartBody.tsx]) *)

(** The share of each group beside its name. *)
Definition legend (groups : list ChartGroup) (total : Q) : list (string * Q * Q) :=
  map (fun g => (cg_label g, cg_value g, if negb (Qle_bool total 0) then (cg_value g / total)%Q else 0%Q)) groups.

Definition find_part (name : string) (parts : list ChartPart) : option ChartPart := List.find (fun p => bool_decide (part_label p = name)) parts.

(** What each part of a stack comes to over all groups. *)
Definition stack_legend `{Collation} (groups : list ChartGroup) : list (string * Q) :=
  map (fun name => (name, sum_of (fun g => default 0%Q (part_value <$> find_part name (cg_parts g))) groups)) (segmentNames groups).

(** The rows of the table: a group, its part where the chart is stacked, and the figure. *)
Definition chart_rows (stacked : bool) (groups : list ChartGroup) : list (string * option string * string) :=
  flat_map (fun g =>
    if stacked && negb (bool_decide (cg_parts g = [])) then map (fun p => (cg_label g, Some (part_label p), figure (part_value p))) (cg_parts g)
    else [(cg_label g, None, figure (cg_value g))]) groups.

(** ** Scaling *)

Lemma max_of_pos l : (1 <= max_of l)%Q.
Proof. induction l as [|x l IH]; cbn; [lra|]. eapply Qle_trans; [exact IH|]. apply Q.le_max_r. Qed.

Lemma max_of_ge l x : x ∈ l → (x <= max_of l)%Q.
Proof.
  induction 1 as [x l|x y l _ IH]; cbn; [apply Q.le_max_l|]. eapply Qle_trans; [exact IH|]. apply Q.le_max_r.
Qed.

Lemma max_of_reached l : (max_of l == 1)%Q ∨ ∃ x, x ∈ l ∧ (max_of l == x)%Q.
Proof.
  induction l as [|y l IH]; [by left|]. cbn. destruct (Q.max_spec y (max_of l)) as [[_ E]|[_ E]].
  - destruct IH as [IH|(x & Hx & IH)]; [left; by rewrite E|]. right. exists x. split; [by constructor|]. by rewrite E.
  - right. exists y. split; [by constructor|done].
Qed.

(** A length in hundredths of the whole. *)
Lemma scaled_in q m : (0 < m → 0 <= q <= m → 0 <= q / m * 100 <= 100)%Q.
Proof.
  intros Hm [Hq Hqm]. assert (0 <= q / m)%Q by (apply Qle_shift_div_l; [done|lra]). assert (q / m <= 1)%Q by (apply Qle_shift_div_r; [done|lra]). lra.
Qed.

Lemma scaled_mono p q m : (0 < m → p <= q → p / m * 100 <= q / m * 100)%Q.
Proof.
  intros Hm H. assert (p / m <= q / m)%Q by (unfold Qdiv; apply Qmult_le_compat_r; [done|apply Qlt_le_weak, Qinv_lt_0_compat, Hm]). lra.
Qed.

Definition in_box (p : Point) : Prop := (0 <= pt_x p <= 100 ∧ 0 <= pt_y p <= 100)%Q.

Lemma py_in maxY y : (0 < maxY → 0 <= y <= maxY → 0 <= py maxY y <= 100)%Q.
Proof. intros Hm H. pose proof (scaled_in y maxY Hm H). unfold py, CHART_UNIT. lra. Qed.

(** No bar is longer than its line, longer bars are of larger counts, and a largest
    count of at least one fills its line. *)
Lemma bars_scaled rows :
  Forall (fun r => 0 <= bar_count r)%Q rows →
  Forall (fun w => 0 <= w <= 100)%Q (bar_widths rows) ∧
  (∀ i j a b v w, rows !! i = Some a → rows !! j = Some b → bar_widths rows !! i = Some v → bar_widths rows !! j = Some w →
     (bar_count a <= bar_count b)%Q → (v <= w)%Q) ∧
  (∀ r, r ∈ rows → (1 < bar_count r)%Q → ∃ w, w ∈ bar_widths rows ∧ (w == 100)%Q).
Proof.
  intros Hall. set (m := max_of (map bar_count rows)). assert (0 < m)%Q as Hm by (pose proof (max_of_pos (map bar_count rows)); unfold m; lra).
  assert (∀ r, r ∈ rows → (bar_count r <= m)%Q) as Hle by (intros r Hr; apply max_of_ge, list_elem_of_fmap; eauto). split_and!.
  - apply Forall_forall. intros w (r & -> & Hr)%list_elem_of_fmap. apply scaled_in; [done|]. rewrite Forall_forall in Hall. auto.
  - intros i j a b v w Ha Hb. unfold bar_widths. change (map ?f rows) with (f <$> rows). rewrite !list_lookup_fmap, Ha, Hb. intros [= <-] [= <-]. by apply scaled_mono.
  - intros r Hr H1. destruct (max_of_reached (map bar_count rows)) as [E|(x & (r' & -> & Hr')%list_elem_of_fmap & E)]; fold m in E.
    + specialize (Hle r Hr). lra.
    + exists (bar_count r' / m * 100)%Q. split; [apply list_elem_of_fmap; eauto|]. rewrite <- E. field. lra.
Qed.

(** Progress is between nothing and all of the bar. *)
Lemma progress_in done total : (0 <= done <= total)%Q → 0 <= progress_pct done total <= 100.
Proof.
  intros H. unfold progress_pct. destruct (Qle_bool total 0) eqn:E; cbn [negb]; [lia|].
  assert (0 < total)%Q as Ht by (apply Qnot_le_lt; intros Hle%Qle_bool_iff; congruence). pose proof (scaled_in _ _ Ht H) as [H1 H2].
  apply js_round_mono in H1, H2. change 0%Q with (inject_Z 0) in H1. change 100%Q with (inject_Z 100) in H2 at 2. rewrite js_round_Z in H1, H2. lia.
Qed.

Lemma share_in part whole : (0 <= part <= whole)%Q → 0 <= share part whole <= 100.
Proof.
  intros H. pose proof (progress_in part whole H) as Hp. unfold share, progress_pct in *. by destruct (Qle_bool whole 0).
Qed.

(** ** Few labels under many bars *)

Lemma ceil_div_spec n m : 0 < m → n <= m * ceil_div n m ∧ m * (ceil_div n m - 1) < n.
Proof. intros Hm. unfold ceil_div. pose proof (Z.mul_div_le (- n) m Hm). pose proof (Z.mul_succ_div_gt (- n) m Hm). nia. Qed.

Lemma count_multiples c n : 0 < c → Z.of_nat (length (filter (fun i => Z.of_nat i mod c = 0) (seq 0 n))) = ceil_div (Z.of_nat n) c.
Proof.
  intros Hc. induction n as [|n IH]; [done|].
  rewrite seq_S, filter_app, length_app, Nat2Z.inj_add, IH, filter_cons, filter_nil. cbn [plus].
  pose proof (ceil_div_spec (Z.of_nat n) c Hc). pose proof (ceil_div_spec (Z.of_nat (S n)) c Hc). pose proof (Z.div_mod (Z.of_nat n) c ltac:(lia)).
  pose proof (Z.mod_pos_bound (Z.of_nat n) c Hc).
  case_decide as Hd; cbn [length].
  - assert (ceil_div (Z.of_nat n) c = Z.of_nat n / c) by nia. assert (ceil_div (Z.of_nat (S n)) c = Z.of_nat n / c + 1) by nia. lia.
  - assert (ceil_div (Z.of_nat n) c = Z.of_nat n / c + 1) by nia. assert (ceil_div (Z.of_nat (S n)) c = Z.of_nat n / c + 1) by nia. lia.
Qed.

Lemma labels_multiples c groups :
  (length (filter (fun l => l ≠ EmptyString) (imap (fun i g => if (Z.of_nat i mod c =? 0)%Z then pg_label g else EmptyString) groups)) <=
   length (filter (fun i => (Z.of_nat i mod c = 0)%Z) (seq 0 (length groups))))%nat.
Proof.
  induction groups as [|g gs IH] using rev_ind; [done|]. rewrite imap_app, filter_app, !length_app, seq_app, filter_app, length_app.
  apply Nat.add_le_mono; [exact IH|]. cbn [length seq imap]. rewrite !filter_cons, !filter_nil. unfold compose. rewrite Nat.add_0_r, Nat.add_0_l.
  destruct (Z.eqb_spec (Z.of_nat (length gs) mod c) 0) as [E|E].
  - rewrite (decide_True (P := _ = 0)) by done. case_decide; cbn; lia.
  - rewrite decide_False by tauto. cbn. lia.
Qed.

(** However many groups there are, six labels are written at most, the first among them. *)
Lemma axis_labels_few groups :
  length (axis_labels groups) = length groups ∧
  Z.of_nat (length (filter (fun l => l ≠ EmptyString) (axis_labels groups))) <= CHART_AXIS_LABELS ∧
  head (axis_labels groups) = pg_label <$> head groups.
Proof.
  split; [apply length_imap|]. split; [|by destruct groups]. set (c := ceil_div (Z.of_nat (length groups)) CHART_AXIS_LABELS).
  destruct (decide (groups = [])) as [->|Hne]; [done|]. assert (0 < Z.of_nat (length groups)) as Hn by (destruct groups; [done|cbn; lia]).
  pose proof (ceil_div_spec (Z.of_nat (length groups)) CHART_AXIS_LABELS ltac:(done)) as Hs. fold c in Hs.
  assert (0 < c) as Hc by (unfold CHART_AXIS_LABELS in Hs; nia).
  pose proof (labels_multiples c groups) as Hle. apply inj_le in Hle. rewrite (count_multiples c _ Hc) in Hle. unfold axis_labels. fold c.
  pose proof (ceil_div_spec (Z.of_nat (length groups)) c Hc). unfold CHART_AXIS_LABELS in *. nia.
Qed.

(** ** Lines and dots stay in their box *)

Lemma drawn_max (f : Point → Q) series s p :
  s ∈ drawn series → p ∈ ls_points s → (f p <= max_of (flat_map (fun s => map f (ls_points s)) (drawn series)))%Q.
Proof.
  intros Hs Hp. apply max_of_ge, list_elem_of_In, in_flat_map. exists s. split; [by apply list_elem_of_In|]. by apply in_map, list_elem_of_In.
Qed.

Definition from_nought (p : Point) : Prop := (0 <= pt_x p ∧ 0 <= pt_y p)%Q.

(** Every series that has a point is drawn, in order and point for point, inside the box. *)
Lemma line_chart_in_box series strokes :
  Forall (fun s => Forall from_nought (ls_points s)) series → LineChart series = Some strokes →
  sk_name <$> strokes = ls_name <$> drawn series ∧
  Forall (fun k => Forall in_box (sk_points k) ∧ ∃ s, s ∈ series ∧ length (sk_points k) = length (ls_points s) ∧ sk_path k = pathOf (sk_points k) (ls_step s)) strokes.
Proof.
  intros Hall. unfold LineChart. destruct (drawn series) as [|s0 ss] eqn:Ed; [done|]. rewrite <- Ed in *. intros [= <-]. split.
  - rewrite <- list_fmap_compose. done.
  - apply Forall_forall. intros k (s & -> & Hs)%list_elem_of_fmap. cbn [sk_points sk_path]. assert (s ∈ series) as Hin by (unfold drawn in Hs; by apply list_elem_of_filter in Hs as [_ ?]).
    split; [|exists s; split_and!; [done|apply length_map|done]]. apply Forall_forall. intros q (p & -> & Hp)%list_elem_of_fmap.
    rewrite Forall_forall in Hall. specialize (Hall s Hin). rewrite Forall_forall in Hall. destruct (Hall p Hp) as [Hx Hy].
    pose proof (drawn_max pt_x series s p Hs Hp) as Mx. pose proof (drawn_max pt_y series s p Hs Hp) as My. fold (maxX_of series) in Mx. fold (maxY_of series) in My.
    assert (0 < maxX_of series)%Q by (eapply Qlt_le_trans; [|apply max_of_pos]; done). assert (0 < maxY_of series)%Q by (eapply Qlt_le_trans; [|apply max_of_pos]; done).
    split; cbn; [by apply scaled_in|by apply py_in].
Qed.

Lemma foldr_min_le a l x : x ∈ a :: l → (foldr Qmin a l <= x)%Q.
Proof.
  induction l as [|y l IH]; cbn; [by intros ->%list_elem_of_singleton; lra|].
  intros [->|[->|H]%elem_of_cons]%elem_of_cons.
  - eapply Qle_trans; [apply Q.le_min_r|]. apply IH. by left.
  - apply Q.le_min_l.
  - eapply Qle_trans; [apply Q.le_min_r|]. apply IH. by right.
Qed.

Lemma foldr_max_ge a l x : x ∈ a :: l → (x <= foldr Qmax a l)%Q.
Proof.
  induction l as [|y l IH]; cbn; [by intros ->%list_elem_of_singleton; lra|].
  intros [->|[->|H]%elem_of_cons]%elem_of_cons.
  - eapply Qle_trans; [|apply Q.le_max_r]. apply IH. by left.
  - apply Q.le_max_l.
  - eapply Qle_trans; [|apply Q.le_max_r]. apply IH. by right.
Qed.

Lemma minX_le points p : p ∈ points → (minX_of points <= pt_x p)%Q.
Proof.
  intros Hp. destruct points as [|q rest]; [by apply not_elem_of_nil in Hp|]. apply foldr_min_le.
  change (pt_x p ∈ pt_x <$> (q :: rest)). by apply list_elem_of_fmap_2.
Qed.

Lemma scatter_span points p : p ∈ points → (0 < scatter_maxX points - minX_of points ∧ pt_x p <= scatter_maxX points)%Q.
Proof.
  intros Hp. unfold scatter_maxX. split.
  - assert (minX_of points + 1 <= foldr Qmax (minX_of points + 1) (map pt_x points))%Q by (apply foldr_max_ge; by left). lra.
  - apply foldr_max_ge. right. by apply (list_elem_of_fmap_2 pt_x).
Qed.

(** Every dot is drawn in the box, and so is the line through the rolling values where
    each of them is of some dot's moment. *)
Lemma scatter_in_box points rolling d :
  Forall (fun p => 0 <= pt_y p)%Q points → Forall (fun r => 0 <= pt_y r ∧ ∃ p, p ∈ points ∧ pt_x p = pt_x r)%Q rolling →
  Scatter points rolling = Some d →
  length (sc_dots d) = length points ∧ Forall in_box (sc_dots d) ∧ (∀ line, sc_line d = Some line → length line = length rolling ∧ Forall in_box line).
Proof.
  intros Hp Hr. unfold Scatter. destruct points as [|p0 ps] eqn:E; [done|]. rewrite <- E in *. intros [= <-]. cbn [sc_dots sc_line].
  assert (∀ y, y ∈ map pt_y points ++ map pt_y rolling → (0 <= y → 0 <= py (scatter_maxY points rolling) y <= 100)%Q) as Hy.
  { intros y Hin H0. apply py_in; [eapply Qlt_le_trans; [|apply max_of_pos]; done|]. split; [done|]. by apply max_of_ge. }
  assert (∀ x p, p ∈ points → pt_x p = x → (0 <= scatter_px points x <= 100)%Q) as Hx.
  { intros x p Hin <-. destruct (scatter_span points p Hin) as [H1 H2]. pose proof (minX_le points p Hin). apply scaled_in; [done|]. lra. }
  rewrite Forall_forall in Hp, Hr. split_and!.
  - apply length_map.
  - apply Forall_forall. intros q (p & -> & Hin)%list_elem_of_fmap. split; cbn; [by eapply Hx|]. apply Hy; [|auto]. apply elem_of_app. left. by apply (list_elem_of_fmap_2 pt_y).
  - intros line Hl. destruct (1 <? length rolling)%nat; [|done]. injection Hl as <-. split; [apply length_map|].
    apply Forall_forall. intros q (r & -> & Hin)%list_elem_of_fmap. destruct (Hr r Hin) as [H0 (p & Hpin & Hpx)]. split; cbn; [by eapply Hx|].
    apply Hy; [|done]. apply elem_of_app. right. by apply (list_elem_of_fmap_2 pt_y).
Qed.

(** ** Bands are stacked without a gap *)

(** What the bands come to at a step, added to a foot. *)
Definition sum_upto (bands : list Band) (i : nat) (foot : Q) : Q := foldl (fun sum b => (sum + value_at b i)%Q) foot bands.

Lemma stack_from_at steps maxY below bands k f :
  stack_from steps maxY below bands !! k = Some f →
  ∃ b, bands !! k = Some b ∧ fl_name f = band_name b ∧ fl_tone f = band_tone b ∧
    fl_foot f = edge steps maxY (imap (fun i y => sum_upto (take k bands) i y) below) ∧
    fl_top f = edge steps maxY (imap (fun i y => sum_upto (take (S k) bands) i y) below) ∧
    fl_path f = area_path (fl_top f) (fl_foot f).
Proof.
  revert below k. induction bands as [|b bands IH]; intros below k; [done|]. destruct k as [|k]; cbn [stack_from lookup list_lookup].
  - intros [= <-]. exists b. split_and!; try done. cbn. f_equal. apply list_eq. intros i. rewrite list_lookup_imap. by destruct (below !! i).
  - intros H. apply IH in H as (b' & Hb & Hn & Ht & Hf & Htop & Hp). exists b'. split_and!; try done.
    + rewrite Hf. f_equal. apply list_eq. intros i. rewrite !list_lookup_imap. by destruct (below !! i).
    + rewrite Htop. f_equal. apply list_eq. intros i. rewrite !list_lookup_imap. by destruct (below !! i).
Qed.

Lemma value_nonneg b i : Forall (fun v => 0 <= v)%Q (band_values b) → (0 <= value_at b i)%Q.
Proof. intros H. unfold value_at. destruct (band_values b !! i) eqn:E; cbn; [|lra]. rewrite Forall_forall in H. apply H. by apply list_elem_of_lookup_2 in E. Qed.

Definition counts (bands : list Band) : Prop := Forall (fun b => Forall (fun v => 0 <= v)%Q (band_values b)) bands.

Lemma sum_upto_grows bands i foot : counts bands → (foot <= sum_upto bands i foot)%Q.
Proof.
  intros H. revert foot. induction H as [|b bands Hb _ IH]; intros foot; cbn; [lra|]. eapply Qle_trans; [|apply IH]. pose proof (value_nonneg b i Hb). lra.
Qed.

Lemma sum_upto_take bands i k : counts bands → (0 <= sum_upto (take k bands) i 0 <= total_at bands i)%Q.
Proof.
  intros H. split; [apply sum_upto_grows; by apply Forall_take|]. unfold total_at. rewrite <- (take_drop k bands) at 2.
  unfold sum_upto. rewrite foldl_app. apply sum_upto_grows. by apply Forall_drop.
Qed.

Lemma total_le_max bands i : (i < steps_of bands)%nat → (total_at bands i <= stack_maxY bands)%Q.
Proof. intros Hi. apply max_of_ge. apply (list_elem_of_fmap_2 (total_at bands)). apply elem_of_seq. lia. Qed.

Lemma step_x_in steps i : (2 <= steps)%nat → (i < steps)%nat → (0 <= step_x steps i <= 100)%Q.
Proof.
  intros H2 Hi. unfold step_x. assert (inject_Z 2 <= inject_Z (Z.of_nat steps))%Q by (rewrite <- Zle_Qle; lia).
  assert (inject_Z (Z.of_nat i) + 1 <= inject_Z (Z.of_nat steps))%Q by (change 1%Q with (inject_Z 1); rewrite <- inject_Z_plus, <- Zle_Qle; lia).
  assert (0 <= inject_Z (Z.of_nat i))%Q by (change 0%Q with (inject_Z 0); rewrite <- Zle_Qle; lia). change (inject_Z 2) with 2%Q in *.
  apply scaled_in; lra.
Qed.

(** The points of an edge: one to every step, at the height of its sum. *)
Lemma edge_at steps maxY k bands i :
  (i < steps)%nat →
  edge steps maxY (imap (fun i y => sum_upto (take k bands) i y) (replicate steps 0%Q)) !! i =
    Some (mkPoint (step_x steps i) (py maxY (sum_upto (take k bands) i 0))).
Proof. intros Hi. unfold edge. rewrite !list_lookup_imap, lookup_replicate_2 by done. done. Qed.

Lemma edge_length steps maxY k bands : length (edge steps maxY (imap (fun i y => sum_upto (take k bands) i y) (replicate steps 0%Q))) = steps.
Proof. unfold edge. by rewrite !length_imap, length_replicate. Qed.

Lemma edge_point_in bands k i :
  counts bands → (2 <= steps_of bands)%nat → (i < steps_of bands)%nat →
  in_box (mkPoint (step_x (steps_of bands) i) (py (stack_maxY bands) (sum_upto (take k bands) i 0))).
Proof.
  intros Hc H2 Hi. split; cbn; [by apply step_x_in|]. pose proof (sum_upto_take bands i k Hc). pose proof (total_le_max bands i Hi).
  apply py_in; [|lra]. eapply Qlt_le_trans; [|apply max_of_pos]. done.
Qed.

(** C38: bands are stacked without a gap: each is as thick at every step as its value
    there in the share of the tallest sum, it begins where the one below it ends, the
    first at the bottom, and none leaves the box. *)
Theorem bands_stacked bands k f :
  counts bands → stackedPaths bands !! k = Some f →
  ∃ b, bands !! k = Some b ∧ fl_name f = band_name b ∧ fl_path f = area_path (fl_top f) (fl_foot f) ∧
    length (fl_top f) = steps_of bands ∧ length (fl_foot f) = steps_of bands ∧
    (k = 0%nat → Forall (fun p => pt_y p == 100)%Q (fl_foot f)) ∧
    (∀ g, stackedPaths bands !! S k = Some g → fl_foot g = fl_top f) ∧
    ∀ i, (i < steps_of bands)%nat → ∃ top foot, fl_top f !! i = Some top ∧ fl_foot f !! i = Some foot ∧
      in_box top ∧ in_box foot ∧ pt_x top = step_x (steps_of bands) i ∧ pt_x foot = pt_x top ∧
      (pt_y foot - pt_y top == value_at b i / stack_maxY bands * 100)%Q.
Proof.
  intros Hc. unfold stackedPaths. destruct (Nat.ltb_spec (steps_of bands) 2) as [?|H2]; [done|]. intros Hf.
  apply stack_from_at in Hf as (b & Hb & Hn & _ & Hfoot & Htop & Hp). exists b. rewrite Hfoot, Htop in *. split_and!; try done; try apply edge_length.
  - intros ->. apply Forall_lookup. intros i p Hi. assert (i < steps_of bands)%nat as Hlt by (apply lookup_lt_Some in Hi; by rewrite edge_length in Hi).
    rewrite edge_at in Hi by done. injection Hi as <-. cbn. unfold py, CHART_UNIT. field. pose proof (max_of_pos (map (total_at bands) (seq 0 (steps_of bands)))). unfold stack_maxY. lra.
  - intros g Hg. apply stack_from_at in Hg as (? & _ & _ & _ & Hg & _). by rewrite Hg.
  - intros i Hi. rewrite !edge_at by done. eexists _, _. split_and!; try reflexivity.
    1, 2: by apply edge_point_in.
    cbn [pt_y]. rewrite (take_S_r _ _ _ Hb). unfold sum_upto at 2. rewrite foldl_app. cbn [foldl]. fold (sum_upto (take k bands) i 0).
    unfold py, CHART_UNIT. pose proof (max_of_pos (map (total_at bands) (seq 0 (steps_of bands)))). unfold stack_maxY. field. lra.
Qed.

Definition two_bands : list Band := [mkBand "Done" "text-status-done" [1; 2; 4]; mkBand "Doing" "text-status-progress" [3; 2]]%Q%string.

Lemma bands_stacked_witness :
  ∃ f, stackedPaths two_bands !! 1%nat = Some f ∧ fl_name f = "Doing"%string ∧ length (fl_top f) = 3%nat.
Proof.
  destruct (stackedPaths two_bands !! 1%nat) as [f|] eqn:E; [|done]. exists f. split; [done|].
  destruct (bands_stacked two_bands 1 f) as (b & Hb & Hn & _ & Hl & _).
  - repeat constructor; unfold Qle; cbn; lia.
  - exact E.
  - injection Hb as <-. by rewrite Hn, Hl.
Defined.

(** ** Paths *)

(** A line is written point by point: a move, then a line to each next point, or two
    runs along the axes for a step; a lone point is a line of no length. *)
Lemma path_words points step :
  match points with
  | [] => pathOf points step = EmptyString
  | [p] => pathOf points step = "M" +:+ dot_text p +:+ " h0"
  | p :: rest => pathOf points step = join " " (("M" +:+ dot_text p) :: map (fun q => if step then "H" +:+ at_text (pt_x q) +:+ " V" +:+ at_text (pt_y q) else "L" +:+ dot_text q) rest)
  end.
Proof.
  destruct points as [|p [|q rest]]; [done..|]. unfold pathOf. f_equal. cbn [imap map]. do 2 f_equal.
  apply list_eq. intros i. change (map ?f rest) with (f <$> rest). rewrite list_lookup_imap, list_lookup_fmap. by destruct (rest !! i).
Qed.

Example stepped : pathOf [mkPoint 0 100; mkPoint 50 (1 # 3)] true = "M0 100 H50 V0.33"%string. Proof. vm_compute. reflexivity. Qed.
Example lone_point : pathOf [mkPoint (1 # 2) 7] false = "M0.5 7 h0"%string. Proof. vm_compute. reflexivity. Qed.
Example hours_words : hours (1 # 2) = "30m"%string ∧ hours 47 = "47.0h"%string ∧ hours 60 = "2.5d"%string. Proof. vm_compute. auto. Qed.

(** The labels of an axis are some of those given, the first and the last among them. *)
Lemma axis_ends_of labels : Forall (fun l => l ∈ labels) (axisEnds labels) ∧ head (axisEnds labels) = head labels ∧ last (axisEnds labels) = last labels ∧ (length (axisEnds labels) <= 3)%nat.
Proof.
  unfold axisEnds. destruct (Nat.leb_spec (length labels) 2) as [H|H]; [split_and!; [by apply Forall_forall|done|done|lia]|]. split_and!.
  - assert (∀ i, (i < length labels)%nat → nth i labels EmptyString ∈ labels) as Hn by (intros i Hi; apply list_elem_of_In, nth_In; lia).
    pose proof (Nat.div_lt (length labels) 2 ltac:(lia) ltac:(lia)). repeat constructor; apply Hn; lia.
  - destruct labels; [cbn in H; lia|done].
  - rewrite (last_lookup labels). replace (pred (length labels)) with (length labels - 1)%nat by lia.
    by destruct (nth_lookup_or_length labels (length labels - 1) EmptyString) as [->|?]; [|lia].
  - cbn. lia.
Qed.
