(* ===== verification/Widgets.v ===== *)
(** What a dashboard's widgets are told and asked: the settings of
    [web/src/features/dashboard/WidgetSettings.tsx], the tile of [FilterTile.tsx], the
    report a widget asks for ([useReport] of [web/src/api/reports.tsx]) and the server's
    check of a chart's questions ([backend/internal/report/chart.go] and
    [httpapi/report_handlers.go]). *)

From Stdlib Require Import ZArith Lia Ascii String.
From stdpp Require Import base list strings.
From S2P Require Import Prelude JsString Config Api DashFilter DashChart.

Open Scope Z_scope.

(** ** A widget's settings

    The filter a tile stores is among them in the code; no control here reads or
    changes it. *)
Record WidgetConfig := mkWidgetConfig {
  wc_days : option Z; wc_teamId : option string; wc_sprintId : option string; wc_milestoneId : option string; wc_versionId : option string;
  wc_groupBy : option string; wc_splitBy : option string; wc_measure : option string; wc_shape : option string;
  wc_interval : option string; wc_series : option string;
}.

Definition no_config : WidgetConfig := mkWidgetConfig None None None None None None None None None None None.

Definition group_key (f : GroupField) : string :=
  match f with
  | by_status => "status" | by_statusCategory => "statusCategory" | by_type => "type" | by_priority => "priority" | by_assignee => "assignee"
  | by_team => "team" | by_milestone => "milestone" | by_label => "label" | by_fixVersion => "fixVersion" | by_component => "component"
  end.

Definition group_keys : list string := map group_key GROUP_FIELDS.

Definition with_days (d : option Z) (c : WidgetConfig) : WidgetConfig :=
  mkWidgetConfig d (wc_teamId c) (wc_sprintId c) (wc_milestoneId c) (wc_versionId c) (wc_groupBy c) (wc_splitBy c) (wc_measure c) (wc_shape c) (wc_interval c) (wc_series c).
Definition with_pins (milestone version : option string) (c : WidgetConfig) : WidgetConfig :=
  mkWidgetConfig (wc_days c) (wc_teamId c) (wc_sprintId c) milestone version (wc_groupBy c) (wc_splitBy c) (wc_measure c) (wc_shape c) (wc_interval c) (wc_series c).
Definition with_groups (group split : option string) (c : WidgetConfig) : WidgetConfig :=
  mkWidgetConfig (wc_days c) (wc_teamId c) (wc_sprintId c) (wc_milestoneId c) (wc_versionId c) group split (wc_measure c) (wc_shape c) (wc_interval c) (wc_series c).
Definition with_drawing (measure shape interval series : option string) (c : WidgetConfig) : WidgetConfig :=
  mkWidgetConfig (wc_days c) (wc_teamId c) (wc_sprintId c) (wc_milestoneId c) (wc_versionId c) (wc_groupBy c) (wc_splitBy c) measure shape interval series.

(** The kinds whose only setting is how far back they look. *)
Definition windowed (kind : string) : bool := bool_decide (kind ∈ ["throughput"; "workload"; "team_workload"; "cycle_time"; "sla"]%string).

Definition window_shown (c : WidgetConfig) : Z := default DASHBOARD_DEFAULT_WINDOW_DAYS (wc_days c).
Definition chart_shape (c : WidgetConfig) : string := default "bar"%string (wc_shape c).
Definition chart_group (c : WidgetConfig) : string := default "status"%string (wc_groupBy c).

(** The fields a stack is offered to be split by. *)
Definition splits_offered (c : WidgetConfig) : list string := filter (fun f => f ≠ chart_group c) group_keys.
Definition split_shown (c : WidgetConfig) : string := default "statusCategory"%string (wc_splitBy c).

Inductive WidgetControl :=
| WindowPicked (days : Z)
| MilestonePicked (id : string) | VersionPicked (id : string)
| ShapePicked (shape : string)
| SeriesPicked (series : string) | LineGroupPicked (field : string) | IntervalPicked (interval : string) | ChartSincePicked (days : Z)
| GroupPicked (field : string) | SplitPicked (field : string)
| MeasurePicked (measure : string).

Definition only (b : bool) (c : WidgetConfig) : option WidgetConfig := if b then Some c else None.
Definition is_line (c : WidgetConfig) : bool := bool_decide (chart_shape c = "line"%string).
Definition listed (value : string) (options : list string) : bool := bool_decide (value ∈ options).

(** A chart's settings: [None] where the control is not there, or has no such choice. *)
Definition chart_control (c : WidgetConfig) (e : WidgetControl) : option WidgetConfig :=
  match e with
  | ShapePicked next =>
      only (listed next ["bar"; "stacked"; "donut"; "line"]%string)
        (with_groups (wc_groupBy c) (if decide (next = "stacked"%string) then Some (split_shown c) else None)
          (with_drawing (wc_measure c) (Some next) (wc_interval c) (wc_series c) c))
  | SeriesPicked s => only (is_line c && listed s ["created"; "resolved"; "open"]%string) (with_drawing (wc_measure c) (wc_shape c) (wc_interval c) (Some s) c)
  | LineGroupPicked f => only (is_line c && listed f (EmptyString :: group_keys)) (with_groups (or_undefined f) (wc_splitBy c) c)
  | IntervalPicked i => only (is_line c && listed i ["week"; "month"]%string) (with_drawing (wc_measure c) (wc_shape c) (Some i) (wc_series c) c)
  | ChartSincePicked d => only (is_line c && bool_decide (d ∈ DASHBOARD_FILTER_WINDOWS)) (with_days (Some d) c)
  | GroupPicked f => only (negb (is_line c) && listed f group_keys) (with_groups (Some f) (wc_splitBy c) c)
  | SplitPicked f => only (bool_decide (chart_shape c = "stacked"%string) && listed f (splits_offered c)) (with_groups (wc_groupBy c) (Some f) c)
  | MeasurePicked m => only (listed m ["count"; "points"]%string) (with_drawing (Some m) (wc_shape c) (wc_interval c) (wc_series c) c)
  | _ => None
  end.

(** [WidgetSettings]: what each kind can be told. *)
Definition widget_control (kind : string) (c : WidgetConfig) (e : WidgetControl) : option WidgetConfig :=
  if windowed kind then match e with WindowPicked d => only (bool_decide (d ∈ DASHBOARD_WINDOWS)) (with_days (Some d) c) | _ => None end
  else if decide (kind = "chart"%string) then chart_control c e
  else if decide (kind = "milestones"%string) then match e with MilestonePicked id => Some (with_pins (or_undefined id) (wc_versionId c) c) | _ => None end
  else if listed kind ["versions"; "release_burndown"]%string then match e with VersionPicked id => Some (with_pins (wc_milestoneId c) (or_undefined id) c) | _ => None end
  else None.

(** Controls used one after another, each of what the one before saved. *)
Fixpoint settings_run (kind : string) (c : WidgetConfig) (es : list WidgetControl) : WidgetConfig :=
  match es with
  | [] => c
  | e :: es' => settings_run kind (default c (widget_control kind c e)) es'
  end.

(** ** The report a widget asks for *)

Definition set_text (key : string) (v : option string) : list (string * string) :=
  match v with Some t => if truthy t then [(key, t)] else [] | None => [] end.

Definition report_search (c : WidgetConfig) (narrow : option string) : list (string * string) :=
  (match wc_days c with Some d => if d =? 0 then [] else [("days"%string, stringOfInt d)] | None => [] end) ++
  set_text "team" (wc_teamId c) ++ set_text "sprint" (wc_sprintId c) ++ set_text "milestone" (wc_milestoneId c) ++ set_text "version" (wc_versionId c) ++
  set_text "groupBy" (wc_groupBy c) ++ set_text "splitBy" (wc_splitBy c) ++ set_text "measure" (wc_measure c) ++
  set_text "shape" (wc_shape c) ++ set_text "interval" (wc_interval c) ++ set_text "series" (wc_series c) ++ set_text "q" narrow.

(** ** The server's reading of a chart's questions *)

Record ChartParams := mkChartParams { cp_GroupBy : string; cp_SplitBy : string; cp_Measure : string; cp_Shape : string; cp_Interval : string; cp_Series : string }.

(** [query.Get(key)]. *)
Definition query_get (q : list (string * string)) (key : string) : string := default EmptyString (jget q key).

Definition reportParams (q : list (string * string)) : ChartParams :=
  mkChartParams (query_get q "groupBy") (query_get q "splitBy") (query_get q "measure") (query_get q "shape") (query_get q "interval") (query_get q "series").

Definition chartGroups : list string := ["status"; "statusCategory"; "type"; "priority"; "assignee"; "team"; "milestone"; "label"; "fixVersion"; "component"]%string.
Definition chartMeasures : list string := ["count"; "points"]%string.
Definition chartIntervals : list string := ["week"; "month"]%string.
Definition chartSeries : list string := ["created"; "resolved"; "open"]%string.
Definition chartShapes : list string := ["bar"; "stacked"; "donut"; "line"]%string.

Inductive ErrBadChart := must_be_one_of (what : string) | must_differ.

Definition chartOption (m : list string) (value fallback what : string) : ErrBadChart + string :=
  let value := if decide (value = EmptyString) then fallback else value in
  if listed value m then inr value else inl (must_be_one_of what).

Notation "'let?' x := e 'in' k" := (match e with inl err => Some err | inr x => k end) (at level 200, x name, e at level 100, k at level 200).

(** What [chart] refuses before it asks the database. *)
Definition chart_refuses (p : ChartParams) : option ErrBadChart :=
  let? groupBy := chartOption chartGroups (cp_GroupBy p) "status" "groupBy" in
  let? measure := chartOption chartMeasures (cp_Measure p) "count" "measure" in
  let? shape := chartOption chartShapes (cp_Shape p) "bar" "shape" in
  if decide (cp_SplitBy p = EmptyString) then None
  else let? name := chartOption chartGroups (cp_SplitBy p) EmptyString "splitBy" in
       if decide (name = groupBy) then Some must_differ else None.

Definition chartLines_refuses (p : ChartParams) : option ErrBadChart :=
  let? interval := chartOption chartIntervals (cp_Interval p) "week" "interval" in
  let? series := chartOption chartSeries (cp_Series p) "created" "series" in
  let? measure := chartOption chartMeasures (cp_Measure p) "count" "measure" in
  if decide (cp_GroupBy p = EmptyString ∨ cp_GroupBy p = "none"%string) then None
  else let? name := chartOption chartGroups (cp_GroupBy p) EmptyString "groupBy" in None.

Definition report_refuses (p : ChartParams) : option ErrBadChart :=
  if decide (cp_Shape p = "line"%string) then chartLines_refuses p else chart_refuses p.

(** ** The tile that narrows a dashboard *)

Record FilterTile := mkFilterTile { ft_spec : FilterSpec; ft_draft : string }.

Definition tile_mounted (spec : FilterSpec) : FilterTile := mkFilterTile spec (spec_query spec).

Inductive TileControl :=
| TypeToggled (name : string) | TeamPicked (team : string) | AssigneePicked (assignee : string) | SavedPicked (id : string)
| TileMilestonePicked (name : string) | TileSincePicked (days : Z) | FieldPicked (field : DateField) | CategoryPicked (category : Category)
| QueryTyped (text : string) | QueryApplied | Cleared
| SpecRead (spec : FilterSpec).

Definition toggleType (spec : FilterSpec) (name : string) : FilterSpec :=
  mkFilterSpec (if decide (name ∈ spec_types spec) then filter (fun each => each ≠ name) (spec_types spec) else spec_types spec ++ [name])
    (spec_team spec) (spec_assignee spec) (spec_category spec) (spec_field spec) (spec_days spec) (spec_milestone spec) (spec_query spec) (spec_filterId spec).

Definition with_names (team assignee milestone filterId : string) (s : FilterSpec) : FilterSpec :=
  mkFilterSpec (spec_types s) team assignee (spec_category s) (spec_field s) (spec_days s) milestone (spec_query s) filterId.
Definition with_when (category : Category) (field : DateField) (days : Z) (s : FilterSpec) : FilterSpec :=
  mkFilterSpec (spec_types s) (spec_team s) (spec_assignee s) category field days (spec_milestone s) (spec_query s) (spec_filterId s).
Definition with_query (query : string) (s : FilterSpec) : FilterSpec :=
  mkFilterSpec (spec_types s) (spec_team s) (spec_assignee s) (spec_category s) (spec_field s) (spec_days s) (spec_milestone s) query (spec_filterId s).
Definition cleared (s : FilterSpec) : FilterSpec :=
  mkFilterSpec [] EmptyString EmptyString None (spec_field s) 0 EmptyString EmptyString EmptyString.

(** What a control of the tile asks the page for, if anything. *)
Definition tile_asks (t : FilterTile) (e : TileControl) : option FilterSpec :=
  let s := ft_spec t in
  match e with
  | TypeToggled name => Some (toggleType s name)
  | TeamPicked team => Some (with_names team (spec_assignee s) (spec_milestone s) (spec_filterId s) s)
  | AssigneePicked a => Some (with_names (spec_team s) a (spec_milestone s) (spec_filterId s) s)
  | SavedPicked id => Some (with_names (spec_team s) (spec_assignee s) (spec_milestone s) id s)
  | TileMilestonePicked m => Some (with_names (spec_team s) (spec_assignee s) m (spec_filterId s) s)
  | TileSincePicked d => if bool_decide (d ∈ 0 :: DASHBOARD_FILTER_WINDOWS) then Some (with_when (spec_category s) (spec_field s) d s) else None
  | FieldPicked f => if spec_days s =? 0 then None else Some (with_when (spec_category s) f (spec_days s) s)
  | CategoryPicked c => Some (with_when c (spec_field s) (spec_days s) s)
  | QueryApplied => if decide (trim (ft_draft t) = trim (spec_query s)) then None else Some (with_query (trim (ft_draft t)) s)
  | Cleared => if 0 <? activeCount s then Some (cleared s) else None
  | QueryTyped _ | SpecRead _ => None
  end.

(** The field's own state, and the filter the page reads anew. *)
Definition tile_step (t : FilterTile) (e : TileControl) : FilterTile :=
  match e with
  | QueryTyped text => mkFilterTile (ft_spec t) text
  | SpecRead spec => mkFilterTile spec (if decide (spec_query spec = spec_query (ft_spec t)) then ft_draft t else spec_query spec)
  | _ => t
  end.

#[export] Instance FilterSpec_eq : EqDecision FilterSpec.
Proof. solve_decision. Defined.

(** [dirty]: whether the filter differs from the one the tile stores. *)
Definition tile_dirty (spec saved : FilterSpec) : bool := negb (bool_decide (spec = saved)).

(** ** What the settings ask, the server answers *)

(** Every question of the settings is one of its short list. *)
Record asks_listed (c : WidgetConfig) : Prop := {
  al_group : ∀ g, wc_groupBy c = Some g → g ∈ chartGroups;
  al_split : ∀ g, wc_splitBy c = Some g → g ∈ chartGroups;
  al_measure : ∀ g, wc_measure c = Some g → g ∈ chartMeasures;
  al_shape : ∀ g, wc_shape c = Some g → g ∈ chartShapes;
  al_interval : ∀ g, wc_interval c = Some g → g ∈ chartIntervals;
  al_series : ∀ g, wc_series c = Some g → g ∈ chartSeries;
}.

Lemma listed_spec value options : listed value options = true ↔ value ∈ options.
Proof. apply bool_decide_eq_true. Qed.

Lemma only_some b c c' : only b c = Some c' ↔ b = true ∧ c' = c.
Proof. destruct b; simpl; naive_solver. Qed.

Lemma group_keys_listed f : f ∈ group_keys → f ∈ chartGroups.
Proof. done. Qed.

Lemma or_undefined_some s t : or_undefined s = Some t → t = s ∧ s ≠ EmptyString.
Proof. unfold or_undefined, truthy. case_bool_decide; naive_solver. Qed.

Lemma chart_control_listed c e c' : asks_listed c → chart_control c e = Some c' → asks_listed c'.
Proof.
  intros [Hg Hs Hm Hh Hi Hr]. destruct e; cbn [chart_control]; try discriminate; intros [H ->]%only_some;
    rewrite ?andb_true_iff, ?listed_spec in H; split; cbn; try assumption; intros g Heq; simplify_eq/=; try tauto.
  - case_decide; [|done]. injection Heq as <-. unfold split_shown. destruct (wc_splitBy c) eqn:E; cbn; [by apply Hs|]. by repeat constructor.
  - apply or_undefined_some in Heq as [-> Hne]. destruct H as [_ [?|?]%elem_of_cons]; done.
  - destruct H as [_ H]. unfold splits_offered in H. by apply list_elem_of_filter in H as [_ ?].
Qed.

Lemma settings_listed c es : asks_listed c → asks_listed (settings_run "chart" c es).
Proof.
  revert c. induction es as [|e es IH]; intros c Hc; [done|]. cbn [settings_run]. apply IH.
  change (widget_control "chart" c e) with (chart_control c e). destruct (chart_control c e) as [c'|] eqn:E; cbn; [|done]. by eapply chart_control_listed.
Qed.

Lemma no_config_listed : asks_listed no_config.
Proof. by split. Qed.

Lemma jget_set_text key k v : jget (set_text k v) key = if decide (k = key) then v ≫= or_undefined else None.
Proof. unfold set_text, or_undefined. destruct v as [t|]; cbn; [|by case_decide]. destruct (truthy t); cbn; by case_decide. Qed.

Lemma jget_days_entry key c :
  key ≠ "days"%string → jget (match wc_days c with Some d => if d =? 0 then [] else [("days"%string, stringOfInt d)] | None => [] end) key = None.
Proof. intros H. destruct (wc_days c) as [d|]; [|done]. destruct (d =? 0); [done|]. cbn. by rewrite decide_False. Qed.

Ltac search_param := unfold query_get, report_search; rewrite ?jget_app, jget_days_entry, ?jget_set_text by done; cbn; repeat (rewrite decide_False by done); rewrite ?decide_True by done.

Lemma or_undefined_read (o : option string) : default EmptyString (o ≫= or_undefined) = default EmptyString o.
Proof. destruct o as [t|]; [|done]. cbn. unfold or_undefined, truthy. by case_bool_decide. Qed.

Lemma params_read c narrow :
  reportParams (report_search c narrow) =
  mkChartParams (default EmptyString (wc_groupBy c)) (default EmptyString (wc_splitBy c)) (default EmptyString (wc_measure c))
    (default EmptyString (wc_shape c)) (default EmptyString (wc_interval c)) (default EmptyString (wc_series c)).
Proof.
  unfold reportParams. rewrite <- (or_undefined_read (wc_groupBy c)), <- (or_undefined_read (wc_splitBy c)), <- (or_undefined_read (wc_measure c)),
    <- (or_undefined_read (wc_shape c)), <- (or_undefined_read (wc_interval c)), <- (or_undefined_read (wc_series c)).
  f_equal; search_param; repeat match goal with |- context [or_undefined <$> ?o] => destruct o | |- context [?o ≫= or_undefined] => destruct (o ≫= or_undefined) end; done.
Qed.

(** A word of the list, or none, is read as itself or as the word it falls back to. *)
Lemma chartOption_listed m (v : option string) fallback what :
  EmptyString ∉ m → (∀ w, v = Some w → w ∈ m) → (v = None → fallback ∈ m) → chartOption m (default EmptyString v) fallback what = inr (default fallback v).
Proof.
  intros Hne Hv Hf. unfold chartOption. destruct v as [w|]; cbn.
  - rewrite decide_False by (intros ->; by apply Hne, Hv). unfold listed. rewrite bool_decide_true by (by apply Hv). done.
  - unfold listed. rewrite bool_decide_true by (by apply Hf). done.
Qed.

Ltac by_deciding := match goal with |- ?P => refine (@bool_decide_unpack P _ _); vm_compute; exact I end.
Ltac in_list := lazymatch goal with |- _ ∉ _ => by_deciding | |- _ = None → _ => intros _; by_deciding end.
Ltac option_read := rewrite chartOption_listed by first [assumption | in_list].

Lemma no_empty_group : EmptyString ∉ chartGroups.
Proof. in_list. Qed.

(** C23: whatever is set with a chart's controls, the server draws: the only chart it
    refuses is a stack split by the field it is grouped by. *)
Theorem settings_accepted c es narrow :
  asks_listed c →
  let c' := settings_run "chart" c es in
  report_refuses (reportParams (report_search c' narrow)) =
    if is_line c' then None else if bool_decide (wc_splitBy c' = Some (chart_group c')) then Some must_differ else None.
Proof.
  intros Hc. cbn zeta. pose proof (settings_listed c es Hc) as [Hg Hs Hm Hh Hi Hr]. set (c' := settings_run "chart" c es) in *.
  rewrite params_read. unfold report_refuses, is_line, chart_shape. cbn [cp_Shape].
  assert (default EmptyString (wc_shape c') = "line"%string ↔ default "bar"%string (wc_shape c') = "line"%string) as Hl by (destruct (wc_shape c'); done).
  case_decide as El.
  - rewrite bool_decide_true by (by apply Hl). unfold chartLines_refuses. cbn [cp_GroupBy cp_SplitBy cp_Measure cp_Shape cp_Interval cp_Series].
    do 3 option_read. case_decide as En; [done|]. destruct (wc_groupBy c') as [g|] eqn:Eg; [|cbn in En; tauto].
    cbn in *. unfold chartOption. rewrite decide_False by tauto. unfold listed. by rewrite bool_decide_true by (by apply Hg).
  - rewrite bool_decide_false by (by rewrite <- Hl). unfold chart_refuses, chart_group. cbn [cp_GroupBy cp_SplitBy cp_Measure cp_Shape cp_Interval cp_Series].
    do 3 option_read. destruct (wc_splitBy c') as [s|] eqn:Es; cbn.
    + assert (s ∈ chartGroups) as Hin by (by apply Hs). assert (s ≠ EmptyString) as Hne by (intros ->; by apply no_empty_group in Hin).
      rewrite decide_False by done. unfold chartOption, listed. rewrite decide_False by done. rewrite bool_decide_true by done.
      case_decide as Ed; case_bool_decide as Eb; naive_solver.
    + by rewrite decide_True.
Qed.

Lemma settings_accepted_witness :
  let es := [ShapePicked "stacked"; GroupPicked "assignee"; SplitPicked "type"; MeasurePicked "points"]%string in
  report_refuses (reportParams (report_search (settings_run "chart" no_config es) (Some "type = bug"%string))) = None.
Proof. cbn zeta. rewrite (settings_accepted no_config _ _ no_config_listed). vm_compute. reflexivity. Defined.

(** A chart of status categories that is made a stack is split by status category, a
    choice the list of splits does not offer: the server refuses to draw it. *)
Lemma stack_of_its_own_group :
  let c := settings_run "chart" no_config [GroupPicked "statusCategory"; ShapePicked "stacked"]%string in
  split_shown c ∉ splits_offered c ∧ report_refuses (reportParams (report_search c None)) = Some must_differ.
Proof. cbn zeta. split; [|vm_compute; reflexivity]. by_deciding. Qed.

Lemma group_not_offered c : chart_group c ∉ splits_offered c.
Proof. unfold splits_offered. by intros [? _]%list_elem_of_filter. Qed.

(** So is a stack whose group is changed to what it is split by. *)
Lemma stack_regrouped c f :
  wc_shape c = Some "stacked"%string → f ∈ chartGroups → wc_splitBy c = Some f →
  ∃ c', chart_control c (GroupPicked f) = Some c' ∧ chart_group c' = split_shown c' ∧ split_shown c' ∉ splits_offered c'.
Proof.
  intros Hh Hf Hs. exists (with_groups (Some f) (wc_splitBy c) c). split; [|split].
  - cbn [chart_control]. unfold is_line, chart_shape. rewrite Hh. cbn [default]. unfold listed. by rewrite (bool_decide_true (f ∈ group_keys)).
  - unfold chart_group, split_shown. cbn. by rewrite Hs.
  - replace (split_shown _) with (chart_group (with_groups (Some f) (wc_splitBy c) c)) by (unfold split_shown, chart_group; cbn; by rewrite Hs). apply group_not_offered.
Qed.

(** A setting a control saves is the one it shows from then on. *)
Lemma window_picked c kind d : windowed kind = true → d ∈ DASHBOARD_WINDOWS → window_shown (settings_run kind c [WindowPicked d]) = d.
Proof. intros Hk Hd. cbn [settings_run]. unfold widget_control. rewrite Hk. cbn. by rewrite bool_decide_true. Qed.

(** ** The tile *)

(** A type toggled twice is as it was, but for its place. *)
Lemma toggle_twice s name : name ∉ spec_types s → toggleType (toggleType s name) name = s.
Proof.
  intros Hn. destruct s as [ty te as_ ca fi da mi qu sf]. unfold toggleType. cbn in *. rewrite (decide_False (P := name ∈ ty)) by done. cbn.
  rewrite decide_True by (apply elem_of_app; right; by constructor). f_equal.
  rewrite filter_app, filter_cons, decide_False by tauto. rewrite filter_nil, app_nil_r. apply filter_every, Forall_forall. by intros x Hx ->.
Qed.

(** Cleared, the tile narrows nothing, and is counted as saying nothing. *)
Lemma cleared_empty s saved : isEmpty (cleared s) = true ∧ composeQuery (cleared s) saved = EmptyString.
Proof. done. Qed.

(** Apply asks for nothing that is asked for already. *)
Lemma applied_once t spec :
  tile_asks t QueryApplied = Some spec → tile_asks (mkFilterTile spec (ft_draft t)) QueryApplied = None ∧ spec_query spec = trim (ft_draft t).
Proof.
  cbn [tile_asks ft_spec ft_draft]. case_decide; [done|]. intros [= <-]. cbn [spec_query with_query]. by rewrite trim_idem, decide_True.
Qed.
