(* ===== verification/Import.v ===== *)
(** Issues from a file: [web/src/routes/import.tsx], [features/import/MappingCard.tsx],
    [WordsCard.tsx], [PeopleCard.tsx] and [targets.ts], with what the server makes of it
    ([backend/internal/csvio/mapping.go], [people.go] and [row.go]).

    The page is a state machine: the file, what the server read of it, what was decided
    about it, and the two requests, whose answers may come between any two events.  An
    answer runs what its call asked for only while no later call was made of the same
    hook.  Columns are numbered from 0. *)

From Stdlib Require Import ZArith Lia Ascii String.
From stdpp Require Import base list strings sorting.
From S2P Require Import Prelude JsString.

Open Scope Z_scope.

(** ** Which column fills which target *)

Notation Mapping := (list (string * list Z)).

(** Targets a file may fill from several columns, as the page has it. *)
Definition MANY_VALUED : list string := ["labels"]%string.

Definition WORD_TARGETS : list string := ["type"; "status"; "priority"]%string.

Definition holderOf (mapping : Mapping) (at_ : Z) : string :=
  match List.find (fun e => bool_decide (at_ ∈ e.2)) mapping with Some e => e.1 | None => EmptyString end.

(** The mapping without a column; a target that has none left goes. *)
Definition kept_of (mapping : Mapping) (at_ : Z) : Mapping :=
  omap (fun e => match filter (fun p => p ≠ at_) e.2 with [] => None | kept => Some (e.1, kept) end) mapping.

Definition pick_target (mapping : Mapping) (at_ : Z) (target : string) : Mapping :=
  let next := kept_of mapping at_ in
  if truthy target then
    jset next target (if bool_decide (target ∈ MANY_VALUED) then sort_by Z.sub (default [] (jget next target) ++ [at_]) else [at_])
  else next.

(** ** What the server says of a mapping *)

Definition Targets : list string :=
  ["key"; "summary"; "description"; "type"; "status"; "priority";
   "assignee"; "reporter"; "parent"; "epic"; "created"; "updated"; "resolved";
   "due"; "start"; "estimate"; "timeEstimate"; "timeRemaining"; "labels";
   "sprint"; "fixVersions"; "affectsVersions"; "components"; "team";
   "comments"; "worklogs";
   "links:blocks"; "links:blockedBy"; "links:relates"; "links:duplicates"; "links:duplicatedBy"]%string.

Definition manyValued : list string :=
  ["labels"; "sprint"; "comments"; "worklogs"; "fixVersions"; "affectsVersions"; "components";
   "links:blocks"; "links:blockedBy"; "links:relates"; "links:duplicates"; "links:duplicatedBy"]%string.

Definition aliases : list (string * string) :=
  [("key", "key"); ("issue key", "key"); ("summary", "summary"); ("title", "summary"); ("name", "summary"); ("description", "description");
   ("type", "type"); ("issue type", "type"); ("issuetype", "type"); ("status", "status"); ("priority", "priority");
   ("assignee", "assignee"); ("reporter", "reporter"); ("parent", "parent"); ("parent key", "parent");
   ("created", "created"); ("created date", "created"); ("updated", "updated"); ("updated date", "updated");
   ("resolved", "resolved"); ("resolution date", "resolved"); ("due", "due"); ("due date", "due"); ("duedate", "due");
   ("start", "start"); ("start date", "start"); ("custom field (target start)", "start");
   ("estimate", "estimate"); ("story points", "estimate"); ("points", "estimate"); ("custom field (story points)", "estimate");
   ("original estimate", "timeEstimate"); ("remaining estimate", "timeRemaining");
   ("labels", "labels"); ("label", "labels"); ("tags", "labels");
   ("custom field (epic link)", "epic"); ("custom field (parent link)", "epic"); ("sprint", "sprint"); ("custom field (team)", "team");
   ("fix version/s", "fixVersions"); ("affects version/s", "affectsVersions"); ("component/s", "components");
   ("comment", "comments"); ("log work", "worklogs");
   ("outward issue link (blocks)", "links:blocks"); ("inward issue link (blocks)", "links:blockedBy");
   ("outward issue link (relates)", "links:relates"); ("inward issue link (relates)", "links:relates");
   ("outward issue link (duplicate)", "links:duplicates"); ("inward issue link (duplicate)", "links:duplicatedBy")]%string.

Fixpoint guess_from (at_ : Z) (m : Mapping) (headers : list string) : Mapping :=
  match headers with
  | [] => m
  | h :: rest =>
      let m' := match jget aliases (toLowerCase (trim h)) with
        | None => m
        | Some target =>
            match jget m target with
            | Some taken => if bool_decide (target ∈ manyValued) then jset m target (taken ++ [at_]) else m
            | None => jset m target [at_]
            end
        end in
      guess_from (at_ + 1) m' rest
  end.

Definition Guess (headers : list string) : Mapping := guess_from 0 [] headers.

Definition starts_with (prefix s : string) : bool := String.prefix prefix s.

(** Whether [check] lets one target's columns be; empty ones are left out of the mapping. *)
Definition check_target (columns : Z) (e : string * list Z) : bool :=
  match e.2 with
  | [] => true
  | positions =>
      (bool_decide (e.1 ∈ Targets) || starts_with "field:" e.1) &&
      (negb (1 <? Z.of_nat (length positions)) || bool_decide (e.1 ∈ manyValued)) &&
      forallb (fun at_ => negb ((at_ <? 0) || (columns <=? at_))) positions
  end.

(** Whether [check] lets a mapping be. *)
Definition check (mapping : Mapping) (columns : Z) : bool :=
  negb (bool_decide (default [] (jget mapping "summary"%string) = [])) && forallb (check_target columns) mapping.

(** ** What the file's words mean *)

Notation Values := (list (string * list (string * string))).

Record ImportWord := mkImportWord { iw_target : string; iw_value : string; iw_means : string }.

Definition pick_word (values : Values) (target word means : string) : Values := jset values target (jset (default [] (jget values target)) word means).

(** What the control of a word shows. *)
Definition word_shown (values : Values) (w : ImportWord) : string :=
  default (iw_means w) (jget values (iw_target w) ≫= fun of_target => jget of_target (iw_value w)).

(** [Values.means]: what the server takes a word of the file for. *)
Definition means (values : Values) (target word : string) : string :=
  match jget values target with
  | None => word
  | Some m => match jget m word with Some to => to | None => default word (jget m (toLowerCase word)) end
  end.

(** ** Who the file's names are *)

Record PersonChoice := mkPersonChoice { pc_member : option string; pc_create : bool }.

Record ImportPeople := mkImportPeople { ip_domain : option string; ip_choices : list (string * PersonChoice) }.

Record ImportPerson := mkImportPerson { pn_name : string; pn_member : option string }.

Definition pick_person (choice : ImportPeople) (name value : string) : ImportPeople :=
  mkImportPeople (ip_domain choice) (jset (ip_choices choice) name
    (if decide (value = "create"%string) then mkPersonChoice None true
     else if truthy value then mkPersonChoice (Some value) false else mkPersonChoice None false)).

(** What the picker of a name shows: a member, an account to make, or nobody. *)
Definition valueFor (choice : ImportPeople) (person : ImportPerson) : string :=
  match jget (ip_choices choice) (pn_name person) with
  | Some picked =>
      if pc_create picked then "create"
      else match pc_member picked with Some m => if truthy m then m else EmptyString | None => EmptyString end
  | None => default EmptyString (pn_member person)
  end.

(** [making]: whether the address of new accounts is asked for. *)
Definition making (choice : ImportPeople) : bool := existsb (fun e => pc_create e.2) (ip_choices choice).

(** [resolve]: who a name of the file becomes on the server. *)
Inductive Resolved := is_member (id : string) | gets_account | is_nobody.

Definition resolve (person : ImportPerson) (picked : option PersonChoice) : Resolved :=
  match picked with
  | Some (mkPersonChoice (Some m) _) => is_member m
  | Some (mkPersonChoice None true) => gets_account
  | _ => match pn_member person with Some m => is_member m | None => is_nobody end
  end.

(** Who the control of a name says it becomes. *)
Definition shown_as (value : string) : Resolved :=
  if decide (value = "create"%string) then gets_account else if truthy value then is_member value else is_nobody.

(** ** The page *)

(** A file, and the headers the server reads in it. *)
Record CsvFile := mkCsvFile { csv_name : string; csv_headers : list string }.

Record Decisions := mkDecisions { de_mapping : Mapping; de_values : Values; de_people : ImportPeople }.

(** What the page keeps of an answer: whose columns it is of, and the mapping it came with. *)
Record ImportPreview := mkImportPreview { pv_columns : Z; pv_mapping : Mapping }.

(** What reading the file anew does once it is answered: a file just chosen brings its
    mapping along. *)
Inductive PreviewCall := takes_all | takes_shape.

Record ImportPage := mkImportPage {
  im_file : option CsvFile;
  im_shape : option ImportPreview;
  im_mapping : Mapping;
  im_values : Values;
  im_people : ImportPeople;
  im_report : option bool;  (** the report shown: whether it is a dry run's *)
  im_reading : option PreviewCall;
  im_running : option bool;  (** the run on its way: whether it is a dry one *)
}.

Definition page_start : ImportPage := mkImportPage None None [] [] (mkImportPeople None []) None None None.

Inductive ImportRequest :=
| ReadFile (file : CsvFile) (mapping : option Mapping)
| RunImport (file : CsvFile) (decisions : Decisions) (dryRun : bool).

Inductive ImportEvent :=
| FileChosen (file : CsvFile)
| ColumnPicked (at_ : Z) (target : string)
| WordPicked (target word means : string)
| PersonPicked (name value : string)
| DomainTyped (domain : string)
| RunPressed (dryRun : bool)
| FileRead (preview : ImportPreview) | ReadFailed
| RunAnswered | RunFailed.

Definition with_report (r : option bool) (p : ImportPage) : ImportPage :=
  mkImportPage (im_file p) (im_shape p) (im_mapping p) (im_values p) (im_people p) r (im_reading p) (im_running p).
Definition with_reading (r : option PreviewCall) (p : ImportPage) : ImportPage :=
  mkImportPage (im_file p) (im_shape p) (im_mapping p) (im_values p) (im_people p) (im_report p) r (im_running p).
Definition with_running (r : option bool) (p : ImportPage) : ImportPage :=
  mkImportPage (im_file p) (im_shape p) (im_mapping p) (im_values p) (im_people p) (im_report p) (im_reading p) r.
Definition with_decided (v : Values) (d : ImportPeople) (p : ImportPage) : ImportPage :=
  mkImportPage (im_file p) (im_shape p) (im_mapping p) v d (im_report p) (im_reading p) (im_running p).

Definition ready (p : ImportPage) : bool := negb (bool_decide (default [] (jget (im_mapping p) "summary"%string) = [])).

Definition is_some {A} (o : option A) : bool := match o with Some _ => true | None => false end.

(** Whether a button that runs the import can be pressed. *)
Definition can_run (p : ImportPage) (dryRun : bool) : bool :=
  is_some (im_shape p) && negb (is_some (im_running p)) && ready p && (dryRun || bool_decide (im_report p = Some true)).

(** [go]. *)
Definition go_requests (p : ImportPage) (dryRun : bool) : list ImportRequest :=
  match im_file p with Some f => [RunImport f (mkDecisions (im_mapping p) (im_values p) (im_people p)) dryRun] | None => [] end.

(** One event: the page after it and what is sent; [None] where its control is not there
    or cannot be used. *)
Definition import_step (p : ImportPage) (e : ImportEvent) : option (ImportPage * list ImportRequest) :=
  match e with
  | FileChosen f =>
      if is_some (im_reading p) then None
      else Some (mkImportPage (Some f) (im_shape p) (im_mapping p) [] (mkImportPeople None []) None (Some takes_all) (im_running p), [ReadFile f None])
  | ColumnPicked at_ target =>
      match im_shape p with
      | None => None
      | Some s =>
          if (0 <=? at_) && (at_ <? pv_columns s) && bool_decide (target ∈ EmptyString :: Targets) then
            let next := pick_target (im_mapping p) at_ target in
            Some (mkImportPage (im_file p) (im_shape p) next (im_values p) (im_people p) None
                    (match im_file p with Some _ => Some takes_shape | None => im_reading p end) (im_running p),
                  match im_file p with Some f => [ReadFile f (Some next)] | None => [] end)
          else None
      end
  | WordPicked target word m => if is_some (im_shape p) then Some (with_decided (pick_word (im_values p) target word m) (im_people p) p, []) else None
  | PersonPicked name v => if is_some (im_shape p) then Some (with_decided (im_values p) (pick_person (im_people p) name v) p, []) else None
  | DomainTyped d =>
      if is_some (im_shape p) && making (im_people p) then Some (with_decided (im_values p) (mkImportPeople (Some d) (ip_choices (im_people p))) p, []) else None
  | RunPressed dry =>
      if can_run p dry then Some (match im_file p with Some _ => with_running (Some dry) p | None => p end, go_requests p dry) else None
  | FileRead pv =>
      match im_reading p with
      | None => None
      | Some takes_all => Some (mkImportPage (im_file p) (Some pv) (pv_mapping pv) (im_values p) (im_people p) (im_report p) None (im_running p), [])
      | Some takes_shape => Some (mkImportPage (im_file p) (Some pv) (im_mapping p) (im_values p) (im_people p) (im_report p) None (im_running p), [])
      end
  | ReadFailed => if is_some (im_reading p) then Some (with_reading None p, []) else None
  | RunAnswered => match im_running p with Some dry => Some (with_running None (with_report (Some dry) p), []) | None => None end
  | RunFailed => if is_some (im_running p) then Some (with_running None p, []) else None
  end.

Fixpoint import_run (p : ImportPage) (es : list ImportEvent) : option (ImportPage * list ImportRequest) :=
  match es with
  | [] => Some (p, [])
  | e :: es' =>
      match import_step p e with
      | None => None
      | Some (p', sent) => match import_run p' es' with Some (p'', more) => Some (p'', sent ++ more) | None => None end
      end
  end.

(** ** A column fills one target *)

Definition cols (m : Mapping) : list Z := concat m.*2.

(** A mapping of a file of [n] columns: every column fills one target at most, every
    target is one the server knows and has a column, several only where it takes them. *)
Record mapping_ok (n : Z) (m : Mapping) : Prop := {
  mo_keys : NoDup (jkeys m);
  mo_cols : NoDup (cols m);
  mo_range : Forall (fun p => 0 <= p < n) (cols m);
  mo_targets : Forall (fun e : string * list Z => e.1 ∈ Targets ∧ e.2 ≠ [] ∧ ((length e.2 <= 1)%nat ∨ e.1 ∈ manyValued)) m;
}.

Lemma cols_cons e m : cols (e :: m) = e.2 ++ cols m.
Proof. done. Qed.

Lemma cols_kept m at_ : cols (kept_of m at_) = filter (fun p => p ≠ at_) (cols m).
Proof.
  unfold kept_of. induction m as [|[k l] m IH]; [done|]. cbn [omap list_omap]. rewrite cols_cons, filter_app. cbn [snd fst].
  destruct (filter (fun p => p ≠ at_) l) as [|x l'] eqn:E; cbn [omap list_omap]; [by rewrite <- IH|]. by rewrite cols_cons, IH.
Qed.

Lemma elem_of_kept m at_ e :
  e ∈ kept_of m at_ → ∃ l, (e.1, l) ∈ m ∧ e.2 = filter (fun p => p ≠ at_) l ∧ e.2 ≠ [].
Proof.
  unfold kept_of. intros ([k l] & Hin & Heq)%list_elem_of_omap. cbn [fst snd] in Heq. exists l.
  destruct (filter (fun p => p ≠ at_) l) as [|x l'] eqn:E; [done|]. injection Heq as <-. done.
Qed.

Lemma jkeys_kept m at_ : sublist (jkeys (kept_of m at_)) (jkeys m).
Proof.
  unfold kept_of. induction m as [|[k l] m IH]; [done|]. cbn [omap list_omap]. cbn [snd fst].
  destruct (filter _ l); cbn; [by constructor|by constructor].
Qed.

Lemma kept_ok n m at_ : mapping_ok n m → mapping_ok n (kept_of m at_) ∧ at_ ∉ cols (kept_of m at_).
Proof.
  intros [Hk Hc Hr Ht]. split; [split|].
  - eapply sublist_NoDup; [exact Hk|apply jkeys_kept].
  - rewrite cols_kept. by apply NoDup_filter.
  - rewrite cols_kept. rewrite Forall_forall in *. intros p [_ Hp]%list_elem_of_filter. auto.
  - apply Forall_forall. intros e (l & Hin & He & Hne)%elem_of_kept. rewrite Forall_forall in Ht. destruct (Ht _ Hin) as (H1 & _ & H3). cbn in *.
    split_and!; [done|done|]. destruct H3 as [H3|H3]; [left|by right]. rewrite He. pose proof (length_filter (fun p => p ≠ at_) l). lia.
  - rewrite cols_kept. by intros [? _]%list_elem_of_filter.
Qed.

Lemma cols_jdel m k : NoDup (jkeys m) → cols m ≡ₚ default [] (jget m k) ++ cols (jdel m k).
Proof.
  induction m as [|[k' l] m IH]; [done|]. intros [Hk Hn]%NoDup_cons. cbn [jget jdel].  unfold jdel. rewrite filter_cons. cbn [fst]. fold (jdel m k).
  destruct (decide (k' = k)) as [->|Hne].
  - rewrite decide_False by tauto. rewrite cols_cons. cbn. f_equiv. replace (jdel m k) with m; [done|].
    symmetry. apply filter_every, Forall_forall. intros e He <-. apply Hk. change (e.1 ∈ m.*1). apply (list_elem_of_fmap_2 fst m e He).
  - rewrite decide_True by done. rewrite !cols_cons. cbn. rewrite (IH Hn). rewrite !(assoc_L (++)). f_equiv. apply Permutation_app_comm.
Qed.

Lemma cols_jset m k v : NoDup (jkeys m) → cols (jset m k v) ≡ₚ v ++ cols (jdel m k).
Proof.
  intros Hn. rewrite (cols_jdel (jset m k v) k) by (by apply NoDup_jkeys_jset). rewrite jget_jset_eq. cbn. f_equiv.
  clear Hn. induction m as [|[k' l] m IH]; cbn [jset]; unfold jdel; rewrite ?filter_cons; cbn [fst].
  - by rewrite decide_False by tauto.
  - destruct (decide (k' = k)) as [->|Hne]; rewrite filter_cons; cbn [fst].
    + by rewrite !decide_False by tauto.
    + rewrite !decide_True by done. rewrite !cols_cons. cbn. f_equiv. exact IH.
Qed.

Lemma jset_ok n m target v :
  mapping_ok n m → target ∈ Targets → v ≠ [] → ((length v <= 1)%nat ∨ target ∈ manyValued) →
  Forall (fun p => 0 <= p < n) v → NoDup v → (∀ p, p ∈ v → p ∉ cols (jdel m target)) → mapping_ok n (jset m target v).
Proof.
  intros [Hk Hc Hr Ht] H1 H2 H3 H4 H5 H6. pose proof (cols_jset m target v Hk) as Hp.
  rewrite (cols_jdel m target Hk) in Hc, Hr. apply NoDup_app in Hc as (_ & _ & Hc). apply Forall_app in Hr as [_ Hr]. split.
  - by apply NoDup_jkeys_jset.
  - rewrite Hp. apply NoDup_app. split_and!; [done|done|done].
  - rewrite Hp. by apply Forall_app.
  - apply Forall_jset; [done|done].
Qed.

Lemma mapping_ok_wider n n' m : n <= n' → mapping_ok n m → mapping_ok n' m.
Proof. intros Hn [H1 H2 H3 H4]. split; [done..| |done]. eapply Forall_impl; [exact H3|]. cbn. lia. Qed.

Lemma mapping_ok_fresh n m : mapping_ok n m → n ∉ cols m.
Proof. intros [_ _ H _] Hin. rewrite Forall_forall in H. specialize (H n Hin). lia. Qed.

Lemma aliases_known : Forall (fun e : string * string => e.2 ∈ Targets) aliases.
Proof. apply (bool_decide_unpack _). vm_compute. exact I. Qed.

Lemma jdel_cols_sub m k p : NoDup (jkeys m) → p ∈ cols (jdel m k) → p ∈ cols m.
Proof. intros Hk Hp. rewrite (cols_jdel m k Hk). apply elem_of_app. by right. Qed.

Lemma taken_apart m k l p : NoDup (jkeys m) → NoDup (cols m) → jget m k = Some l → p ∈ l → p ∉ cols (jdel m k).
Proof.
  intros Hk Hc Hl Hp Hq. rewrite (cols_jdel m k Hk), Hl in Hc. apply NoDup_app in Hc as (_ & Hd & _). by apply (Hd p).
Qed.

Lemma taken_ok n m k l : mapping_ok n m → jget m k = Some l → Forall (fun p => 0 <= p < n) l ∧ NoDup l.
Proof.
  intros [Hk Hc Hr _] Hl. rewrite (cols_jdel m k Hk), Hl in Hc, Hr. cbn in *. apply NoDup_app in Hc as (? & _). by apply Forall_app in Hr as [? _].
Qed.

(** A column no target has yet is added to one that takes several, or to one that has none. *)
Lemma add_column n m target taken at_ v :
  mapping_ok n m → target ∈ Targets → default [] (jget m target) = taken → at_ ∉ cols m → 0 <= at_ < n →
  v ≡ₚ taken ++ [at_] → (taken = [] ∨ target ∈ manyValued) → mapping_ok n (jset m target v).
Proof.
  intros Hok Ht Hg Hat Hr Hv Hm. pose proof Hok as [Hk Hc _ _].
  assert (Forall (fun p => 0 <= p < n) taken ∧ NoDup taken ∧ ∀ p, p ∈ taken → p ∉ cols (jdel m target)) as (T1 & T2 & T3).
  { destruct (jget m target) as [l|] eqn:E; cbn in Hg; subst taken.
    - destruct (taken_ok n m target l Hok E). split_and!; [done|done|]. intros p Hp. by eapply taken_apart.
    - split_and!; [done|constructor|]. by intros p ?%not_elem_of_nil. }
  assert (at_ ∉ taken) as Hna. { intros Hin. apply Hat. rewrite (cols_jdel m target Hk), Hg. apply elem_of_app. by left. }
  apply jset_ok; try done.
  - intros ->. apply Permutation_nil_l in Hv. by destruct taken.
  - destruct Hm as [->|Hm]; [left|by right]. rewrite Hv. done.
  - rewrite Hv. apply Forall_app. split; [done|]. by constructor.
  - rewrite Hv. apply NoDup_app. split_and!; [done| |apply NoDup_singleton]. by intros p Hp ->%list_elem_of_singleton.
  - intros p. rewrite Hv, elem_of_app, list_elem_of_singleton. intros [Hp| ->]; [auto|]. intros Hp. apply Hat. by eapply jdel_cols_sub.
Qed.

Lemma guess_from_ok headers at_ m : 0 <= at_ → mapping_ok at_ m → mapping_ok (at_ + Z.of_nat (length headers)) (guess_from at_ m headers).
Proof.
  revert at_ m. induction headers as [|h rest IH]; intros at_ m Hat Hok; cbn [guess_from length]; [by rewrite Z.add_0_r|].
  rewrite Nat2Z.inj_succ, <- Z.add_1_l, Z.add_assoc. apply IH; [lia|]. pose proof (mapping_ok_fresh _ _ Hok) as Hf. pose proof (mapping_ok_wider at_ (at_ + 1) m ltac:(lia) Hok) as Hw.
  destruct (jget aliases _) as [target|] eqn:Ea; [|done].
  assert (target ∈ Targets) as Ht. { apply jget_elem in Ea. pose proof aliases_known as Hall. rewrite Forall_forall in Hall. exact (Hall _ Ea). }
  destruct (jget m target) as [taken|] eqn:Eg.
  - case_bool_decide; [|done]. apply (add_column _ _ _ taken at_); try done; [by rewrite Eg|lia|by right].
  - apply (add_column _ _ _ [] at_); try done; [by rewrite Eg|lia|by left].
Qed.

Lemma Guess_ok headers : mapping_ok (Z.of_nat (length headers)) (Guess headers).
Proof. apply (guess_from_ok headers 0 []); [done|]. split; constructor. Qed.

Lemma many_valued_known target : target ∈ MANY_VALUED → target ∈ manyValued.
Proof. intros ->%list_elem_of_singleton. by left. Qed.

Lemma pick_target_ok n m at_ target :
  mapping_ok n m → 0 <= at_ < n → target ∈ EmptyString :: Targets → mapping_ok n (pick_target m at_ target).
Proof.
  intros Hok Hr Ht. destruct (kept_ok n m at_ Hok) as [Hk Hn]. unfold pick_target, truthy. case_bool_decide as He; cbn [negb]; [done|].
  apply elem_of_cons in Ht as [->|Ht]; [done|]. case_bool_decide as Hm.
  - eapply add_column; try done; [apply sort_by_Permutation|right; by apply many_valued_known].
  - pose proof Hk as [K1 K2 _ _]. apply jset_ok; try done; [by left|by constructor|apply NoDup_singleton|].
    intros p ->%list_elem_of_singleton Hp. apply Hn. by eapply jdel_cols_sub.
Qed.

Lemma check_accepts n m : mapping_ok n m → default [] (jget m "summary"%string) ≠ [] → check m n = true.
Proof.
  intros [Hk Hc Hr Ht] Hs. unfold check. rewrite (bool_decide_false (_ = [])) by done. cbn [negb andb]. apply forallb_forall. intros [k l] Hin%list_elem_of_In.
  rewrite Forall_forall in Ht. destruct (Ht _ Hin) as (H1 & H2 & H3). cbn [fst snd] in *. unfold check_target. cbn [fst snd]. destruct l as [|x l]; [done|].
  rewrite bool_decide_true by done. cbn [orb andb]. apply andb_true_iff. split.
  - destruct H3 as [H3|H3]; [|rewrite (bool_decide_true (k ∈ manyValued)) by done; apply orb_true_r]. apply orb_true_iff. left. apply negb_true_iff, Z.ltb_ge. lia.
  - apply forallb_forall. intros p Hp%list_elem_of_In. assert (p ∈ cols m) as Hpc.
    { unfold cols. apply list_elem_of_In, in_concat. exists (x :: l). split; [|by apply list_elem_of_In]. apply list_elem_of_In. by apply (list_elem_of_fmap_2 snd m (k, x :: l)). }
    rewrite Forall_forall in Hr. specialize (Hr p Hpc). apply negb_true_iff, orb_false_iff. split; [apply Z.ltb_ge|apply Z.leb_gt]; lia.
Qed.

(** The column picked for a target is its own from then on, and its only one where the
    page takes one. *)
Lemma holderOf_spec n m at_ target l : mapping_ok n m → (target, l) ∈ m → at_ ∈ l → holderOf m at_ = target.
Proof.
  intros [Hk Hc _ _] Hin Hat. unfold holderOf. destruct (List.find _ m) as [[k l']|] eqn:E.
  - apply find_some in E as [Hin' Hat'%bool_decide_eq_true]. apply list_elem_of_In in Hin'. cbn in *.
    destruct (decide (k = target)) as [|Hne]; [done|]. exfalso. apply (taken_apart m target l at_ Hk Hc); [by apply jget_NoDup|done|].
    unfold cols. apply list_elem_of_In, in_concat. exists l'. split; [|by apply list_elem_of_In]. apply list_elem_of_In.
    apply (list_elem_of_fmap_2 snd (jdel m target) (k, l')). unfold jdel. by apply list_elem_of_filter.
  - exfalso. apply list_elem_of_In in Hin. pose proof (find_none _ _ E _ Hin) as Hf. cbn in Hf. by rewrite bool_decide_true in Hf.
Qed.

Definition picks (m : Mapping) (ps : list (Z * string)) : Mapping := foldl (fun m p => pick_target m p.1 p.2) m ps.

Definition pick_offered (n : Z) (p : Z * string) : Prop := 0 <= p.1 < n ∧ p.2 ∈ EmptyString :: Targets.

Lemma picks_ok n ps m : Forall (pick_offered n) ps → mapping_ok n m → mapping_ok n (picks m ps).
Proof. intros Hp. revert m. induction Hp as [|p ps [H1 H2] _ IH]; intros m Hm; [done|]. cbn. apply IH. by apply pick_target_ok. Qed.

(** C20: whatever columns a file has and whatever is picked for them, starting from the
    mapping the server guesses, every column fills one target at most, the control of
    the column picked last shows its target, and once a column is the summary the
    server's check accepts the mapping. *)
Theorem mapping_accepted headers ps at_ target :
  let n := Z.of_nat (length headers) in
  let m := pick_target (picks (Guess headers) ps) at_ target in
  Forall (pick_offered n) ps → pick_offered n (at_, target) →
  mapping_ok n m ∧ holderOf m at_ = target ∧ (default [] (jget m "summary"%string) ≠ [] → check m n = true).
Proof.
  cbn zeta. intros Hps [H1 H2]. cbn [fst snd] in *. set (n := Z.of_nat (length headers)) in *. set (m0 := picks (Guess headers) ps).
  assert (mapping_ok n m0) as Hm0 by (apply picks_ok; [done|apply Guess_ok]). pose proof (pick_target_ok n m0 at_ target Hm0 H1 H2) as Hm.
  split_and!; [done| |by apply check_accepts]. destruct (kept_ok n m0 at_ Hm0) as [Hk Hn].
  destruct (decide (target = EmptyString)) as [->|Hne].
  - unfold pick_target. cbn [truthy]. unfold holderOf. destruct (List.find _ _) as [[k l]|] eqn:E; [|done]. exfalso. apply find_some in E as [Hin Hat%bool_decide_eq_true].
    apply Hn. unfold cols. apply list_elem_of_In, in_concat. exists l. split; [|by apply list_elem_of_In]. apply list_elem_of_In.
    apply (list_elem_of_fmap_2 snd (kept_of m0 at_) (k, l)). by apply list_elem_of_In.
  - unfold pick_target, truthy in *. rewrite bool_decide_false in * by done. cbn [negb] in *.
    eapply holderOf_spec; [exact Hm|apply jget_elem, jget_jset_eq|]. case_bool_decide; [|by left]. apply elem_of_sort_by, elem_of_app. right. by left.
Qed.

Lemma mapping_accepted_witness :
  let headers := ["Issue key"; "Summary"; "Labels"; "Labels"; "Comment"; "Comment"; "Owner"]%string in
  let m := pick_target (picks (Guess headers) [(6, "assignee"); (0, EmptyString)]%string) 0 "labels" in
  holderOf m 0 = "labels"%string ∧ check m 7 = true.
Proof.
  cbn zeta. destruct (mapping_accepted ["Issue key"; "Summary"; "Labels"; "Labels"; "Comment"; "Comment"; "Owner"]%string [(6, "assignee"); (0, EmptyString)]%string 0 "labels") as (_ & Hh & Hc).
  - repeat constructor; cbn; try lia; apply (bool_decide_unpack _); vm_compute; exact I.
  - split; [cbn; lia|]. apply (bool_decide_unpack _). vm_compute. exact I.
  - split; [exact Hh|]. apply Hc. vm_compute. discriminate.
Defined.

(** A file has several columns of comments; one more column made a comment takes the
    others away, though the server reads as many as there are. *)
Lemma comments_replaced :
  let m := Guess ["Summary"; "Comment"; "Comment"; "Notes"]%string in
  jget m "comments"%string = Some [1; 2] ∧ jget (pick_target m 3 "comments") "comments"%string = Some [3] ∧ "comments"%string ∈ manyValued.
Proof. cbn zeta. split_and!; [vm_compute; reflexivity..|]. apply (bool_decide_unpack _). vm_compute. exact I. Qed.

(** ** What the words and the names become *)

(** A word becomes what its control shows once something was picked for it. *)
Lemma word_picked values target word m target' word' :
  means (pick_word values target word m) target word = m ∧
  ((target', word') ≠ (target, word) →
   word_shown (pick_word values target word m) (mkImportWord target' word' EmptyString) = word_shown values (mkImportWord target' word' EmptyString)).
Proof.
  unfold means, pick_word, word_shown. cbn [iw_target iw_value iw_means]. split; [by rewrite !jget_jset_eq|]. intros Hne.
  destruct (decide (target = target')) as [->|Ht]; [|by rewrite jget_jset_ne]. rewrite jget_jset_eq. cbn.
  rewrite jget_jset_ne by (by intros ->). by destruct (jget values target').
Qed.

(** A name becomes who its control shows, but for one that looks like a member and is to
    be left empty. *)
Lemma resolved_as_shown choice person :
  (∀ m, pn_member person = Some m → truthy m = true ∧ m ≠ "create"%string) →
  (∀ c m, jget (ip_choices choice) (pn_name person) = Some c → pc_member c = Some m → pc_create c = false ∧ truthy m = true ∧ m ≠ "create"%string) →
  resolve person (jget (ip_choices choice) (pn_name person)) = shown_as (valueFor choice person) ∨
  (valueFor choice person = EmptyString ∧ is_some (pn_member person) = true).
Proof.
  intros Hp Hc. unfold valueFor, shown_as, resolve. destruct (jget (ip_choices choice) (pn_name person)) as [[[m|] []]|] eqn:E; cbn [pc_create pc_member].
  - by destruct (Hc _ m eq_refl eq_refl) as [? _].
  - destruct (Hc _ m eq_refl eq_refl) as (_ & Ht & Hn). left. by rewrite Ht, decide_False, Ht.
  - by left.
  - destruct (pn_member person) eqn:Em; [by right|by left].
  - destruct (pn_member person) as [m|] eqn:Em; cbn; [|by left]. destruct (Hp m eq_refl) as [Ht Hn]. left. by rewrite decide_False, Ht.
Qed.

(** Left empty, a name that looks like a member is still that member's. *)
Lemma left_empty_is_matched :
  let person := mkImportPerson "jdoe" (Some "u7"%string) in
  let choice := pick_person (mkImportPeople None []) "jdoe" EmptyString in
  valueFor choice person = EmptyString ∧ resolve person (jget (ip_choices choice) "jdoe"%string) = is_member "u7".
Proof. vm_compute. auto. Qed.

(** ** What is imported was tried *)

(** The two ways to import what was never tried: the file or a column is changed while the dry
    run is on its way, and a dry run is begun while a file just chosen is being read, whose
    mapping arrives after it. *)
Inductive race (p : ImportPage) : ImportEvent → Prop :=
  | file_changed f : im_running p = Some true → race p (FileChosen f)
  | column_changed at_ target : im_running p = Some true → race p (ColumnPicked at_ target)
  | tried_while_read : im_reading p = Some takes_all → race p (RunPressed true).

#[export] Instance PreviewCall_eq : EqDecision PreviewCall.
Proof. solve_decision. Defined.

Lemma race_or p e : race p e ∨ ¬ race p e.
Proof.
  destruct e; try (right; by inversion 1).
  - destruct (decide (im_running p = Some true)); [left; by constructor|right; by inversion 1].
  - destruct (decide (im_running p = Some true)); [left; by constructor|right; by inversion 1].
  - destruct (decide (dryRun = true ∧ im_reading p = Some takes_all)) as [[-> ?]|Hn]; [left; by constructor|right; inversion 1; subst; tauto].
Qed.

(** What is known of a page after what it sent: the report shown, and the run on its
    way, are of the file and the mapping there are. *)
Definition sent_dry (sent : list ImportRequest) (p : ImportPage) : Prop :=
  ∃ f d, RunImport f d true ∈ sent ∧ im_file p = Some f ∧ de_mapping d = im_mapping p.

Record page_ok (sent : list ImportRequest) (p : ImportPage) : Prop := {
  po_report : im_report p = Some true → sent_dry sent p;
  po_running : im_running p = Some true → sent_dry sent p;
  po_reading : im_reading p = Some takes_all → im_report p ≠ Some true ∧ im_running p ≠ Some true;
}.

Lemma sent_dry_more sent more p : sent_dry sent p → sent_dry (sent ++ more) p.
Proof. intros (f & d & H1 & H2). exists f, d. split; [apply elem_of_app; by left|done]. Qed.

Lemma sent_dry_same sent p p' : im_file p' = im_file p → im_mapping p' = im_mapping p → sent_dry sent p → sent_dry sent p'.
Proof. intros Hf Hm (f & d & H1 & H2 & H3). exists f, d. by rewrite Hf, Hm. Qed.

Lemma import_step_ok sent p e p' more :
  page_ok sent p → ¬ race p e → import_step p e = Some (p', more) → page_ok (sent ++ more) p'.
Proof.
  intros [Hr Hu Ha] Hs. destruct e; cbn [import_step] in *.
  - destruct (is_some (im_reading p)); [done|]. intros [= <- <-]. assert (im_running p ≠ Some true) by (intros ?; apply Hs; by constructor). by split.
  - destruct (im_shape p); [|done]. destruct (_ && _); [|done]. intros [= <- <-]. assert (im_running p ≠ Some true) by (intros ?; apply Hs; by constructor). split; cbn; [done|done|].
    by destruct (im_file p).
  - destruct (is_some _); [|done]. intros [= <- <-]. rewrite app_nil_r. by split.
  - destruct (is_some _); [|done]. intros [= <- <-]. rewrite app_nil_r. by split.
  - destruct (_ && _); [|done]. intros [= <- <-]. rewrite app_nil_r. by split.
  - destruct (can_run p dryRun) eqn:Ec; [|done]. intros [= <- <-]. unfold go_requests. destruct (im_file p) as [f|] eqn:Ef.
    + split; cbn.
      * intros H. eapply sent_dry_same; [..|apply sent_dry_more, Hr, H]; done.
      * intros [= ->]. eexists f, _. split; [apply elem_of_app; right; by left|done].
      * intros H. destruct (Ha H) as [? _]. split; [done|]. intros [= ->]. apply Hs. by constructor.
    + rewrite app_nil_r. by split.
  - destruct (im_reading p) as [[]|] eqn:Er; [| |done]; intros [= <- <-]; rewrite app_nil_r; split; cbn; try done; by destruct (Ha eq_refl).
  - destruct (is_some _); [|done]. intros [= <- <-]. rewrite app_nil_r. by split.
  - destruct (im_running p) as [dry|] eqn:Eu; [|done]. intros [= <- <-]. rewrite app_nil_r. split; cbn; [|done|].
    + intros [= ->]. auto.
    + intros H. destruct (Ha H) as [_ ?]. by split; [congruence|].
  - destruct (is_some _); [|done]. intros [= <- <-]. rewrite app_nil_r. split; cbn; [done|done|]. intros H. by destruct (Ha H) as [? _].
Qed.

Lemma real_run_sent p e p' now f d :
  import_step p e = Some (p', now) → RunImport f d false ∈ now → im_report p = Some true ∧ de_mapping d = im_mapping p ∧ im_file p = Some f.
Proof.
  destruct e; cbn [import_step]; repeat (case_match; try discriminate); intros [= <- <-] Hin; unfold go_requests in *;
    repeat (case_match; try discriminate); try (by apply not_elem_of_nil in Hin); apply list_elem_of_singleton in Hin; simplify_eq/=.
  split; [|by split]. match goal with H : can_run _ _ = true |- _ => unfold can_run in H; apply andb_true_iff in H as [_ H]; by apply bool_decide_eq_true in H end.
Qed.

(** A run in which one of the two happened. *)
Definition raced (p : ImportPage) (es : list ImportEvent) : Prop :=
  ∃ es1 e es2 p1 sent1, es = es1 ++ e :: es2 ∧ import_run p es1 = Some (p1, sent1) ∧ race p1 e.

Lemma import_run_tried sent p es p' more :
  page_ok sent p → import_run p es = Some (p', more) →
  raced p es ∨ ∀ before f d after, more = before ++ RunImport f d false :: after → ∃ d', RunImport f d' true ∈ sent ++ before ∧ de_mapping d' = de_mapping d.
Proof.
  revert sent p more. induction es as [|e es IH]; intros sent p more Hok; cbn [import_run] in *.
  - intros [= <- <-]. right. intros before f d after H. by destruct before.
  - destruct (race_or p e) as [Hrace|Hs]; [intros _; left; by exists [], e, es, p, []|].
    destruct (import_step p e) as [[p1 now]|] eqn:E; [|done].
    destruct (import_run p1 es) as [[p2 later]|] eqn:E'; [|done]. intros [= <- <-].
    pose proof (import_step_ok _ _ _ _ _ Hok Hs E) as Hok1. destruct (IH _ _ _ Hok1 E') as [(es1 & e1 & es2 & p3 & sent3 & -> & Hrun & Hrace)|IH'].
    { left. exists (e :: es1), e1, es2, p3, (now ++ sent3). split; [done|]. split; [|done]. cbn [import_run]. by rewrite E, Hrun. }
    right. intros before f d after Heq. apply app_eq_inv in Heq as [(k & -> & Hk)|(k & -> & Hk)].
    + destruct k as [|r k]; cbn in Hk.
      * destruct (IH' [] f d after (eq_sym Hk)) as (d' & Hd & Hm). exists d'. split; [|done]. by rewrite !app_nil_r in *.
      * clear IH IH'. simplify_eq. assert (RunImport f d false ∈ before ++ RunImport f d false :: k) as Hin by (apply elem_of_app; right; by left).
        destruct (real_run_sent _ _ _ _ _ _ E Hin) as (Hrep & Hmap & Hfile). destruct (po_report _ _ Hok Hrep) as (f' & d' & Hd & Hf & Hm). assert (f' = f) as -> by congruence.
        exists d'. split; [apply elem_of_app; by left|congruence].
    + destruct (IH' k f d after Hk) as (d' & Hd & Hm). exists d'. split; [|done]. by rewrite (assoc_L (++)).
Qed.

(** C13: an import was tried dry before with the same file and the same mapping, or one of two
    things happened on the page: the file or a column was changed while a dry run was on its
    way, or a dry run was begun while a file just chosen was being read. *)
Theorem imported_was_tried es p before f d after :
  import_run page_start es = Some (p, before ++ RunImport f d false :: after) →
  (∃ d', RunImport f d' true ∈ before ∧ de_mapping d' = de_mapping d) ∨
  ∃ es1 e es2 p1 sent1, es = es1 ++ e :: es2 ∧ import_run page_start es1 = Some (p1, sent1) ∧ race p1 e.
Proof.
  intros Hr. assert (page_ok [] page_start) as Hok by by split.
  destruct (import_run_tried [] page_start es p _ Hok Hr) as [Hraced|Htried]; [by right|left]. by destruct (Htried before f d after eq_refl) as (d' & Hd & Hm); exists d'.
Qed.

Definition some_file : CsvFile := mkCsvFile "issues.csv" ["Summary"; "Owner"; "Notes"]%string.
Definition some_preview : ImportPreview := mkImportPreview 3 (Guess (csv_headers some_file)).
Definition one_column : Mapping := [("summary", [0])]%string.
Definition nothing_said (m : Mapping) : Decisions := mkDecisions m [] (mkImportPeople None []).
Definition tried_run : list ImportEvent :=
  [FileChosen some_file; FileRead some_preview; ColumnPicked 1 "assignee"; FileRead some_preview; RunPressed true; RunAnswered; RunPressed false].

Definition untroubled (es : list ImportEvent) : bool :=
  forallb (fun n => match es !! n, import_run page_start (take n es) with
    | Some e, Some (p, _) => match e with
        | FileChosen _ | ColumnPicked _ _ => bool_decide (im_running p ≠ Some true)
        | RunPressed true => bool_decide (im_reading p ≠ Some takes_all)
        | _ => true
        end
    | _, _ => false
    end) (seq 0 (length es)).

Lemma untroubled_spec es : untroubled es = true → ¬ raced page_start es.
Proof.
  intros Hu (es1 & e & es2 & p1 & sent1 & -> & Hrun & Hrace). unfold untroubled in Hu. rewrite forallb_forall in Hu.
  assert (In (length es1) (seq 0 (length (es1 ++ e :: es2)))) as Hin by (apply in_seq; rewrite length_app; cbn; lia).
  specialize (Hu _ Hin). rewrite list_lookup_middle, take_app_length, Hrun in Hu by done. by destruct Hrace as [? H|? ? H|H]; rewrite H in Hu.
Qed.

Lemma imported_was_tried_witness : ∃ d', RunImport some_file d' true ∈
  [ReadFile some_file None; ReadFile some_file (Some (pick_target one_column 1 "assignee")); RunImport some_file (nothing_said (pick_target one_column 1 "assignee")) true]
  ∧ de_mapping d' = pick_target one_column 1 "assignee".
Proof.
  destruct (import_run page_start tried_run) as [[p sent]|] eqn:E; [|by vm_compute in E].
  destruct (imported_was_tried tried_run p [ReadFile some_file None; ReadFile some_file (Some (pick_target one_column 1 "assignee")); RunImport some_file (nothing_said (pick_target one_column 1 "assignee")) true]
    some_file (nothing_said (pick_target one_column 1 "assignee")) []) as [Hd|Hraced].
  - rewrite E. do 2 f_equal. vm_compute in E. injection E as _ <-. vm_compute. reflexivity.
  - exact Hd.
  - exfalso. revert Hraced. apply untroubled_spec. vm_compute. reflexivity.
Defined.

(** A dry run begun while the file just chosen is being read: it tries the file with the mapping
    of the file before, and the mapping that arrives is imported untried. *)
Lemma untried_file :
  let second := mkCsvFile "second.csv" ["Notes"; "Summary"]%string in
  let pv := mkImportPreview 2 [("summary", [1])]%string in
  ∃ p before d, import_run page_start [FileChosen some_file; FileRead some_preview; FileChosen second; RunPressed true; FileRead pv; RunAnswered; RunPressed false] =
    Some (p, before ++ [RunImport second d false]) ∧
    Forall (fun r => match r with RunImport _ d' _ => de_mapping d' ≠ de_mapping d | ReadFile _ _ => True end) before.
Proof.
  cbv zeta. set (second := mkCsvFile _ _). set (pv := mkImportPreview 2 _).
  exists (mkImportPage (Some second) (Some pv) [("summary", [1])]%string [] (mkImportPeople None []) (Some true) None (Some false)),
    [ReadFile some_file None; ReadFile second None; RunImport second (nothing_said one_column) true], (nothing_said [("summary", [1])]%string).
  split; [vm_compute; reflexivity|]. repeat constructor. vm_compute. discriminate.
Qed.

(** A column picked while the dry run is on its way: its answer is taken for one about
    the new mapping, and what is imported then was never tried. *)
Lemma untried_mapping :
  ∃ p before d, import_run page_start [FileChosen some_file; FileRead some_preview; RunPressed true; ColumnPicked 2 "description"; RunAnswered; RunPressed false] =
    Some (p, before ++ [RunImport some_file d false]) ∧
    Forall (fun r => match r with RunImport _ d' _ => de_mapping d' ≠ de_mapping d | ReadFile _ _ => True end) before.
Proof.
  set (m := pick_target one_column 2 "description").
  exists (mkImportPage (Some some_file) (Some some_preview) m [] (mkImportPeople None []) (Some true) (Some takes_shape) (Some false)),
    [ReadFile some_file None; RunImport some_file (nothing_said one_column) true; ReadFile some_file (Some m)], (nothing_said m).
  split; [vm_compute; reflexivity|]. repeat constructor. vm_compute. discriminate.
Qed.

(** What a word means is changed after the dry run: the import is still offered, and goes
    with words that were not tried. *)
Lemma untried_words :
  ∃ p before d, import_run page_start [FileChosen some_file; FileRead some_preview; RunPressed true; RunAnswered; WordPicked "status" "Requested" "To Do"; RunPressed false] =
    Some (p, before ++ [RunImport some_file d false]) ∧ de_values d ≠ [] ∧
    Forall (fun r => match r with RunImport _ d' _ => de_values d' = [] | ReadFile _ _ => True end) before.
Proof.
  set (v := pick_word [] "status" "Requested" "To Do").
  exists (mkImportPage (Some some_file) (Some some_preview) one_column v (mkImportPeople None []) (Some true) None (Some false)),
    [ReadFile some_file None; RunImport some_file (nothing_said one_column) true], (mkDecisions one_column v (mkImportPeople None [])).
  split; [vm_compute; reflexivity|]. split; [done|]. by repeat constructor.
Qed.

(** A column is picked while another file is being read: the page stays with the mapping
    of the file before, which the server refuses for the new one. *)
Lemma mapping_of_other_file :
  let small := mkCsvFile "small.csv" ["Title"]%string in
  ∃ p sent, import_run page_start [FileChosen some_file; FileRead some_preview; FileChosen small; ColumnPicked 1 "assignee"; FileRead (mkImportPreview 1 (Guess ["Title"]%string))] = Some (p, sent) ∧
    im_file p = Some small ∧ can_run p true = true ∧ check (im_mapping p) 1 = false.
Proof.
  cbn zeta. destruct (import_run page_start _) as [[p sent]|] eqn:E; [|by vm_compute in E]. exists p, sent. split; [done|].
  vm_compute in E. injection E as <- <-. vm_compute. auto.
Qed.
