(* ===== verification/ProjectTemplates.v ===== *)
(** Templates a project can start from: [web/src/features/projects/TemplateEditor.tsx],
    with what the server refuses of one ([merged], [checkTypes], [Make] and [Update] of
    [backend/internal/template/stored_write.go]).

    The form is a state machine of what its controls hold; the library of issue types is
    an argument of every step, because it is read anew at any time. *)

From Stdlib Require Import ZArith Lia Ascii String.
From stdpp Require Import base list strings.
From S2P Require Import Prelude JsString Config ValidateGraph ApiPlan Features.

Open Scope Z_scope.

(** ** What the form is made from *)

(** A type of the library, and one a template holds already. *)
Record LibraryType := mkLibraryType { lt_id : string; lt_name : string; lt_icon : string; lt_level : Z; lt_builtin : bool }.
Record TypeRow := mkTypeRow { tr_id : string; tr_name : string; tr_icon : string; tr_level : Z; tr_retired : bool }.

Record ProjectTemplate := mkProjectTemplate {
  pt_key : string; pt_name : string; pt_description : string; pt_kind : ProjectKind; pt_boardType : PlanningMethod; pt_planningMethod : PlanningMethod;
  pt_features : list Feature; pt_desk : option bool; pt_schemeId : option string; pt_issueTypes : list TypeRow;
}.

(** Moves one entry a place along, or leaves the list as it was at either end. *)
Definition shifted (ids : list string) (at_ by_ : Z) : list string :=
  let to := at_ + by_ in
  if (to <? 0) || (Z.of_nat (length ids) <=? to) then ids
  else match ids !! Z.to_nat at_, ids !! Z.to_nat to with
    | Some a, Some b => <[Z.to_nat to := a]> (<[Z.to_nat at_ := b]> ids)
    | _, _ => ids
    end.

#[export] Instance ProjectKind_eq : EqDecision ProjectKind.
Proof. solve_decision. Defined.

Section Form.
Context (w : FeatureWords) (template : option ProjectTemplate).

(** The pages a kind can have. *)
Definition featuresFor (kind : ProjectKind) : list FeatureEntry :=
  filter (fun f => negb (fe_deskOnly f) = true ∨ kind = service) (FEATURES w).

Record TemplateForm := mkTemplateForm {
  tf_name : string; tf_description : string; tf_kind : ProjectKind; tf_board : PlanningMethod; tf_planning : PlanningMethod;
  tf_features : list Feature; tf_schemeId : string; tf_desk : bool; tf_typeIds : option (list string);
}.

Definition form_opened : TemplateForm :=
  match template with
  | None => mkTemplateForm EmptyString EmptyString software kanban kanban (map fe_key (featuresFor software)) EmptyString false None
  | Some t => mkTemplateForm (pt_name t) (pt_description t) (pt_kind t) (pt_boardType t) (pt_planningMethod t) (pt_features t)
                (default EmptyString (pt_schemeId t)) (default false (pt_desk t)) (Some (map tr_id (pt_issueTypes t)))
  end.

(** The types ticked: a new template starts with the built-in ones. *)
Definition ticked (offered : list LibraryType) (f : TemplateForm) : list string :=
  default (map lt_id (filter (fun t => lt_builtin t = true) offered)) (tf_typeIds f).

(** The rows there is something to draw of: a retired type the template holds is among them. *)
Definition library_entry (t : LibraryType) : string * TypeRow := (lt_id t, mkTypeRow (lt_id t) (lt_name t) (lt_icon t) (lt_level t) false).
Definition held_entry (r : TypeRow) : string * TypeRow := (tr_id r, r).
Definition held_types : list TypeRow := match template with Some t => pt_issueTypes t | None => [] end.
Definition type_rows (offered : list LibraryType) : list (string * TypeRow) := jof (map library_entry offered ++ map held_entry held_types).

Definition unticked (offered : list LibraryType) (f : TemplateForm) : list string :=
  map lt_id (filter (fun t => lt_id t ∉ ticked offered f) offered).

Definition is_standard (offered : list LibraryType) (id : string) : bool :=
  match jget (type_rows offered) id with Some r => (tr_level r =? LEVEL_STANDARD) && negb (tr_retired r) | None => false end.

Definition standard (offered : list LibraryType) (f : TemplateForm) : list string :=
  filter (fun id => is_standard offered id = true) (ticked offered f).

(** The rows of the checklist: an id with no row is not drawn. *)
Definition checklist (offered : list LibraryType) (f : TemplateForm) : list string :=
  filter (fun id => is_Some (jget (type_rows offered) id)) (ticked offered f ++ unticked offered f).

Inductive TemplateControl :=
| NameTyped (s : string) | DescriptionTyped (s : string)
| KindPicked (kind : ProjectKind) | BoardPicked (b : PlanningMethod) | PlanningPicked (p : PlanningMethod)
| FeatureTicked (key : Feature) (on : bool)
| SchemePicked (id : string) | DeskSwitched (on : bool)
| TypeTicked (id : string) | TypeShifted (id : string) (by_ : Z).

Definition with_texts (name description : string) (f : TemplateForm) : TemplateForm :=
  mkTemplateForm name description (tf_kind f) (tf_board f) (tf_planning f) (tf_features f) (tf_schemeId f) (tf_desk f) (tf_typeIds f).
Definition with_shape (kind : ProjectKind) (board planning : PlanningMethod) (f : TemplateForm) : TemplateForm :=
  mkTemplateForm (tf_name f) (tf_description f) kind board planning (tf_features f) (tf_schemeId f) (tf_desk f) (tf_typeIds f).
Definition with_pages (features : list Feature) (schemeId : string) (desk : bool) (f : TemplateForm) : TemplateForm :=
  mkTemplateForm (tf_name f) (tf_description f) (tf_kind f) (tf_board f) (tf_planning f) features schemeId desk (tf_typeIds f).
Definition with_types (ids : list string) (f : TemplateForm) : TemplateForm :=
  mkTemplateForm (tf_name f) (tf_description f) (tf_kind f) (tf_board f) (tf_planning f) (tf_features f) (tf_schemeId f) (tf_desk f) (Some ids).

Definition desk_only (key : Feature) : bool :=
  match List.find (fun f => bool_decide (fe_key f = key)) (FEATURES w) with Some f => fe_deskOnly f | None => false end.

Definition pickKind (f : TemplateForm) (next : ProjectKind) : TemplateForm :=
  let f' := with_shape next (tf_board f) (tf_planning f) f in
  match next with
  | service => f'
  | _ => with_pages (filter (fun key => desk_only key = false) (tf_features f)) (tf_schemeId f) false f'
  end.

Definition tickFeature (f : TemplateForm) (key : Feature) (on : bool) : TemplateForm :=
  with_pages (if on then tf_features f ++ [key] else filter (fun each => each ≠ key) (tf_features f)) (tf_schemeId f) (tf_desk f) f.

(** One use of a control; [None] where it is not there, cannot be used, or holds that already. *)
Definition template_control (offered : list LibraryType) (f : TemplateForm) (e : TemplateControl) : option TemplateForm :=
  match e with
  | NameTyped s => if (Z.of_nat (String.length s) <=? TEMPLATE_NAME_MAX_LENGTH) then Some (with_texts s (tf_description f) f) else None
  | DescriptionTyped s => if (Z.of_nat (String.length s) <=? TEMPLATE_DESCRIPTION_MAX_LENGTH) then Some (with_texts (tf_name f) s f) else None
  | KindPicked kind => Some (pickKind f kind)
  | BoardPicked b => Some (with_shape (tf_kind f) b (tf_planning f) f)
  | PlanningPicked p => Some (with_shape (tf_kind f) (tf_board f) p f)
  | FeatureTicked key on =>
      if bool_decide (key ∈ map fe_key (featuresFor (tf_kind f))) && negb (Bool.eqb on (bool_decide (key ∈ tf_features f)))
      then Some (tickFeature f key on) else None
  | SchemePicked id => Some (with_pages (tf_features f) id (tf_desk f) f)
  | DeskSwitched on => match tf_kind f with service => Some (with_pages (tf_features f) (tf_schemeId f) on f) | _ => None end
  | TypeTicked id =>
      if bool_decide (id ∈ checklist offered f) then
        Some (with_types (if bool_decide (id ∈ ticked offered f) then filter (fun each => each ≠ id) (ticked offered f) else ticked offered f ++ [id]) f)
      else None
  | TypeShifted id by_ =>
      match list_find (fun each => each = id) (ticked offered f) with
      | None => None
      | Some (at_, _) =>
          if bool_decide (id ∈ checklist offered f) && ((by_ =? -1) && negb (Nat.eqb at_ 0) || (by_ =? 1) && negb (Nat.eqb at_ (length (ticked offered f) - 1)))
          then Some (with_types (shifted (ticked offered f) (Z.of_nat at_) by_) f) else None
      end
  end.

Fixpoint controls_run (offered : list LibraryType) (f : TemplateForm) (es : list TemplateControl) : TemplateForm :=
  match es with
  | [] => f
  | e :: es' => controls_run offered (default f (template_control offered f e)) es'
  end.

(** ** What is sent *)

Definition can_save_template (offered : list LibraryType) (f : TemplateForm) : bool :=
  truthy (trim (tf_name f)) && negb (bool_decide (standard offered f = [])).

Record ProjectTemplateInput := mkTemplateInput {
  ti_name : string; ti_description : string; ti_kind : ProjectKind; ti_boardType : PlanningMethod; ti_planningMethod : PlanningMethod;
  ti_features : list Feature; ti_desk : bool; ti_issueTypeIds : list string; ti_schemeId : option string; ti_defaultScheme : bool;
}.

Definition template_body (offered : list LibraryType) (f : TemplateForm) : ProjectTemplateInput :=
  mkTemplateInput (trim (tf_name f)) (trim (tf_description f)) (tf_kind f) (tf_board f) (tf_planning f)
    (map fe_key (filter (fun e => fe_key e ∈ tf_features f) (FEATURES w)))
    (match tf_kind f with service => tf_desk f | _ => false end)
    (ticked offered f) (or_undefined (tf_schemeId f)) (negb (truthy (tf_schemeId f))).

End Form.

(** ** What the server refuses *)

Definition MaxNameLength : Z := 80.
Definition MaxDescriptionLength : Z := 1000.

(** A type as the table of types has it. *)
Record StoredType := mkStoredType { st_level : Z; st_retired : bool }.

Inductive TemplateRefusal :=
| bad_name | bad_description | only_service_has (f : Feature) | only_service_desk
| no_scheme | no_types | type_twice | type_unknown | type_retired | no_standard_type | name_taken.

Definition DeskOnly (f : Feature) : bool := bool_decide (f ∈ [f_queues; f_desk]).

(** [DefaultFeatures]: everything the kind allows, where no page is named. *)
Definition AllFeatures : list Feature :=
  [f_board; f_sprints; f_plan; f_calendar; f_resources; f_milestones; f_releases; f_components; f_hierarchy; f_dashboard;
   f_queues; f_desk; f_teams; f_repositories; f_automation; f_import].
Definition DefaultFeatures (kind : ProjectKind) : list Feature := filter (fun f => DeskOnly f = false ∨ kind = service) AllFeatures.
Definition stored_features (kind : ProjectKind) (features : list Feature) : list Feature :=
  match features with [] => DefaultFeatures kind | _ => features end.

Fixpoint checkTypes (types : list (string * StoredType)) (had seen : list string) (std : bool) (ids : list string) : option TemplateRefusal :=
  match ids with
  | [] => if std then None else Some no_standard_type
  | id :: rest =>
      if bool_decide (id ∈ seen) then Some type_twice
      else match jget types id with
        | None => Some type_unknown
        | Some t =>
            if st_retired t && negb (bool_decide (id ∈ had)) then Some type_retired
            else checkTypes types had (id :: seen) (std || (st_level t =? LEVEL_STANDARD) && negb (st_retired t)) rest
        end
  end.

(** [merged], and the name's index of the table once it is written.  [schemes] are the schemes there
    are, [lower] is the database's, [others] the names of the other templates, archived ones among them. *)
Definition template_refused (schemes : list string) (lower : string → string) (others : list string)
    (types : list (string * StoredType)) (had : list string) (i : ProjectTemplateInput) : option TemplateRefusal :=
  let name := TrimSpace (ti_name i) in
  if bool_decide (name = EmptyString) || (MaxNameLength <? Z.of_nat (String.length name)) then Some bad_name
  else if MaxDescriptionLength <? Z.of_nat (String.length (TrimSpace (ti_description i))) then Some bad_description
  else match List.find DeskOnly (stored_features (ti_kind i) (ti_features i)), ti_kind i with
    | Some f, software | Some f, business => Some (only_service_has f)
    | _, _ =>
        if ti_desk i && negb (match ti_kind i with service => true | _ => false end) then Some only_service_desk
        else if negb (ti_defaultScheme i) && match ti_schemeId i with Some id => bool_decide (id ∉ schemes) | None => false end then Some no_scheme
        else match (match ti_issueTypeIds i with [] => Some no_types | ids => checkTypes types had [] false ids end) with
          | Some why => Some why
          | None => if bool_decide (lower name ∈ map lower others) then Some name_taken else None
          end
    end.

(** ** What the form keeps *)

Lemma shifted_Permutation ids at_ by_ : shifted ids at_ by_ ≡ₚ ids.
Proof.
  unfold shifted. destruct (_ || _); [done|]. destruct (ids !! Z.to_nat at_) as [a|] eqn:Ea; [|done]. destruct (ids !! Z.to_nat (at_ + by_)) as [b|] eqn:Eb; [|done].
  by apply Permutation_insert_swap.
Qed.

(** A shifted entry trades places with its neighbour, and nothing else moves. *)
Lemma shifted_swaps ids i j a b :
  ids !! i = Some a → ids !! j = Some b → i ≠ j →
  shifted ids (Z.of_nat i) (Z.of_nat j - Z.of_nat i) !! j = Some a ∧ shifted ids (Z.of_nat i) (Z.of_nat j - Z.of_nat i) !! i = Some b ∧
  ∀ k, k ≠ i → k ≠ j → shifted ids (Z.of_nat i) (Z.of_nat j - Z.of_nat i) !! k = ids !! k.
Proof.
  intros Ha Hb Hne. unfold shifted. replace (Z.of_nat i + (Z.of_nat j - Z.of_nat i)) with (Z.of_nat j) by lia.
  pose proof (lookup_lt_Some _ _ _ Ha). pose proof (lookup_lt_Some _ _ _ Hb).
  rewrite (proj2 (Z.ltb_ge _ _)), (proj2 (Z.leb_gt _ _)) by lia. cbn [orb]. rewrite !Nat2Z.id, Ha, Hb. split_and!.
  - apply list_lookup_insert_eq. by rewrite length_insert.
  - rewrite list_lookup_insert_ne by done. by apply list_lookup_insert_eq.
  - intros k H1 H2. by rewrite !list_lookup_insert_ne.
Qed.

Section Kept.
Context (w : FeatureWords) (template : option ProjectTemplate) (offered : list LibraryType).

(** What the server keeps a template as. *)
Record template_stored (t : ProjectTemplate) : Prop := {
  ts_features : pt_kind t ≠ service → Forall (fun f => DeskOnly f = false) (pt_features t);
  ts_desk : pt_kind t ≠ service → default false (pt_desk t) = false;
  ts_types : NoDup (map tr_id (pt_issueTypes t));
  ts_description : Z.of_nat (String.length (pt_description t)) <= MaxDescriptionLength;
}.

(** What the form keeps while it is used. *)
Record form_ok (f : TemplateForm) : Prop := {
  fo_features : tf_kind f ≠ service → Forall (fun k => DeskOnly k = false) (tf_features f);
  fo_desk : tf_kind f ≠ service → tf_desk f = false;
  fo_types : NoDup (ticked offered f);
  fo_rows : Forall (fun id => is_Some (jget (type_rows template offered) id)) (ticked offered f);
  fo_description : Z.of_nat (String.length (tf_description f)) <= MaxDescriptionLength;
}.

Hypothesis offered_apart : NoDup (map lt_id offered).
Hypothesis template_kept : match template with Some t => template_stored t | None => True end.

Lemma desk_only_spec key : desk_only w key = DeskOnly key.
Proof. unfold desk_only. by destruct key. Qed.

Lemma featuresFor_allowed kind key : key ∈ map fe_key (featuresFor w kind) → kind ≠ service → DeskOnly key = false.
Proof.
  intros (e & -> & He)%list_elem_of_fmap Hk. unfold featuresFor in He. apply list_elem_of_filter in He as [[Hd|?] Hin]; [|done].
  unfold FEATURES in Hin. rewrite !elem_of_cons, elem_of_nil in Hin. repeat destruct Hin as [->|Hin]; try done.
Qed.

Lemma held_apart : NoDup (map tr_id (held_types template)).
Proof using template_kept. unfold held_types. destruct template as [t|]; [by apply ts_types|constructor]. Qed.

Lemma library_keys : (map library_entry offered).*1 = map lt_id offered.
Proof. rewrite <- list_fmap_compose. done. Qed.

Lemma held_keys : (map held_entry (held_types template)).*1 = map tr_id (held_types template).
Proof. rewrite <- list_fmap_compose. done. Qed.

Lemma rows_held r : r ∈ held_types template → jget (type_rows template offered) (tr_id r) = Some r.
Proof using template_kept.
  intros Hr. unfold type_rows, jof. rewrite foldl_app. apply jget_foldl_elem; [rewrite held_keys; apply held_apart|].
  by apply (list_elem_of_fmap_2 held_entry).
Qed.

Lemma rows_library t : t ∈ offered → lt_id t ∉ map tr_id (held_types template) → jget (type_rows template offered) (lt_id t) = Some (library_entry t).2.
Proof using offered_apart.
  intros Ht Hn. unfold type_rows, jof. rewrite foldl_app, jget_foldl_jset by (by rewrite held_keys).
  apply jget_foldl_elem; [by rewrite library_keys|]. by apply (list_elem_of_fmap_2 library_entry).
Qed.

Lemma rows_keys id : is_Some (jget (type_rows template offered) id) ↔ id ∈ map lt_id offered ∨ id ∈ map tr_id (held_types template).
Proof. rewrite jget_key. unfold type_rows. rewrite jkeys_jof, fmap_app, elem_of_app, library_keys, held_keys. done. Qed.

Lemma form_opened_ok : form_ok (form_opened w template).
Proof using offered_apart template_kept.
  unfold form_opened. pose proof template_kept as Hkept. destruct template as [t|] eqn:Et.
  - destruct Hkept as [H1 H2 H3 H4]. split; cbn [tf_kind tf_features tf_desk tf_description]; try done. unfold ticked. cbn. apply Forall_forall. intros id Hid. apply rows_keys. right. unfold held_types. by rewrite Et.
  - split; cbn [tf_kind tf_features tf_desk tf_description]; try done.
    + intros _. apply Forall_forall. intros k Hk. by apply (featuresFor_allowed software).
    + unfold ticked. cbn [tf_typeIds default]. by apply NoDup_map_filter.
    + unfold ticked. cbn [tf_typeIds default]. apply Forall_forall. intros id (ty & -> & [_ Hty]%list_elem_of_filter)%list_elem_of_fmap. apply rows_keys. left. by apply (list_elem_of_fmap_2 lt_id).
Qed.

Lemma ticked_with_types ids f : ticked offered (with_types ids f) = ids.
Proof. done. Qed.

Lemma control_ok f e f' : form_ok f → template_control w template offered f e = Some f' → form_ok f'.
Proof.
  intros [H1 H2 H3 H4 H5]. destruct e; cbn [template_control].
  - destruct (_ <=? _); [|done]. intros [= <-]. by split.
  - destruct (Z.leb_spec (Z.of_nat (String.length s)) TEMPLATE_DESCRIPTION_MAX_LENGTH); [|done]. intros [= <-]. split; try done. cbn [tf_description with_texts]. unfold TEMPLATE_DESCRIPTION_MAX_LENGTH, MaxDescriptionLength in *. lia.
  - intros [= <-]. destruct kind; split; try done; cbn [pickKind with_pages with_shape tf_features]; intros _; apply Forall_forall; intros k [Hk _]%list_elem_of_filter; by rewrite desk_only_spec in Hk.
  - intros [= <-]. by split.
  - intros [= <-]. by split.
  - destruct (_ && _) eqn:E; [|done]. intros [= <-]. apply andb_true_iff in E as [E%bool_decide_eq_true _]. split; try done.
    cbn [tickFeature with_pages tf_kind tf_features]. intros Hk. specialize (H1 Hk). destruct on.
    + apply Forall_app. split; [done|]. constructor; [|done]. by apply (featuresFor_allowed (tf_kind f)).
    + rewrite Forall_forall in *. intros x [_ Hx]%list_elem_of_filter. auto.
  - intros [= <-]. by split.
  - destruct (tf_kind f) eqn:Ek; [done| |done]. intros [= <-]. split; try done; cbn; rewrite Ek; done.
  - destruct (bool_decide (id ∈ checklist _ _ _)) eqn:E; [|done]. intros [= <-]. apply bool_decide_eq_true in E. unfold checklist in E. apply list_elem_of_filter in E as [Hrow Hin].
    split; try done; rewrite ticked_with_types; case_bool_decide as Hid.
    + by apply NoDup_filter.
    + apply NoDup_app. split_and!; [done| |apply NoDup_singleton]. by intros x Hx ->%list_elem_of_singleton.
    + rewrite Forall_forall in *. intros x [_ Hx]%list_elem_of_filter. auto.
    + apply Forall_app. split; [done|]. by constructor.
  - destruct (list_find _ _) as [[at_ ?]|]; [|done]. destruct (_ && _); [|done]. intros [= <-]. split; try done; rewrite ticked_with_types; rewrite shifted_Permutation; done.
Qed.

Lemma controls_ok es f : form_ok f → form_ok (controls_run w template offered f es).
Proof.
  revert f. induction es as [|e es IH]; intros f Hf; [done|]. cbn [controls_run]. apply IH. destruct (template_control _ _ _ f e) eqn:E; cbn; [|done]. by eapply control_ok.
Qed.

(** ** What is saved is accepted *)

(** The table of types, as the server has it. *)
Context (types : list (string * StoredType)).
Hypothesis library_current : Forall (fun t => jget types (lt_id t) = Some (mkStoredType (lt_level t) false)) offered.
Hypothesis held_current : Forall (fun r => jget types (tr_id r) = Some (mkStoredType (tr_level r) (tr_retired r))) (held_types template).

Definition had_types : list string := map tr_id (held_types template).

Lemma row_current id :
  is_Some (jget (type_rows template offered) id) →
  ∃ t, jget types id = Some t ∧ (st_retired t = true → id ∈ had_types) ∧
    is_standard template offered id = (st_level t =? LEVEL_STANDARD) && negb (st_retired t).
Proof using offered_apart template_kept library_current held_current.
  intros Hs. unfold is_standard. destruct (decide (id ∈ map tr_id (held_types template))) as [Hid|Hid].
  - pose proof Hid as (r & -> & Hr)%list_elem_of_fmap. rewrite (rows_held r Hr). rewrite Forall_forall in held_current. rewrite (held_current r Hr). eexists. split_and!; done.
  - apply rows_keys in Hs as [(ty & -> & Hty)%list_elem_of_fmap|?]; [|done]. rewrite (rows_library ty Hty Hid). rewrite Forall_forall in library_current. rewrite (library_current ty Hty). eexists. split_and!; done.
Qed.

Lemma checkTypes_ok ids seen std :
  NoDup ids → (∀ id, id ∈ ids → id ∉ seen) → Forall (fun id => is_Some (jget (type_rows template offered) id)) ids →
  checkTypes types had_types seen std ids = if std || existsb (is_standard template offered) ids then None else Some no_standard_type.
Proof using offered_apart template_kept library_current held_current.
  revert seen std. induction ids as [|id ids IH]; intros seen std Hnd Hs Hr; [cbn; by rewrite orb_false_r|].
  apply NoDup_cons in Hnd as [Hid Hnd]. apply Forall_cons in Hr as [Hrow Hr]. cbn [checkTypes existsb].
  rewrite bool_decide_false by (apply Hs; by left). destruct (row_current id Hrow) as (t & -> & Hret & ->).
  destruct (st_retired t) eqn:Et; cbn [andb].
  - rewrite bool_decide_true by auto. cbn [negb andb]. rewrite IH; [|done| |done]. { by rewrite !andb_false_r, !orb_false_r. }
    intros x Hx [->|Hin]%elem_of_cons; [done|]. apply (Hs x); [by right|done].
  - rewrite IH; [|done| |done]. { cbn [negb]. by rewrite andb_true_r, orb_assoc. }
    intros x Hx [->|Hin]%elem_of_cons; [done|]. apply (Hs x); [by right|done].
Qed.

Lemma standard_exists f : standard template offered f ≠ [] → existsb (is_standard template offered) (ticked offered f) = true.
Proof.
  unfold standard. intros Hne. destruct (filter _ _) as [|id l] eqn:E; [done|]. apply existsb_exists. assert (id ∈ id :: l) as Hin by (by left). rewrite <- E in Hin.
  apply list_elem_of_filter in Hin as [H1 H2]. exists id. split; [by apply list_elem_of_In|done].
Qed.
End Kept.

Lemma length_trim_start s : (String.length (trimStart s) <= String.length s)%nat.
Proof. induction s as [|c s IH]; cbn; [lia|]. destruct (is_space c); cbn; lia. Qed.

Lemma length_trim_end s : (String.length (trimEnd s) <= String.length s)%nat.
Proof. induction s as [|c s IH]; cbn; [lia|]. destruct (trimEnd s) eqn:E; cbn in *; [destruct (is_space c); cbn; lia|lia]. Qed.

Lemma length_trim s : (String.length (trim s) <= String.length s)%nat.
Proof. unfold trim. pose proof (length_trim_start (trimEnd s)). pose proof (length_trim_end s). lia. Qed.

Lemma stored_features_allowed w kind (f : TemplateForm) :
  kind ≠ service → Forall (fun k => DeskOnly k = false) (tf_features f) →
  List.find DeskOnly (stored_features kind (map fe_key (filter (fun e => fe_key e ∈ tf_features f) (FEATURES w)))) = None.
Proof.
  intros Hk Hf. destruct (List.find _ _) as [k|] eqn:E; [|done]. apply find_some in E as [Hin Hd]. exfalso. apply list_elem_of_In in Hin.
  unfold stored_features in Hin. destruct (map fe_key _) as [|k0 ks] eqn:Em.
  - unfold DefaultFeatures in Hin. apply list_elem_of_filter in Hin as [[Hn|Hn] _]; [congruence|done].
  - rewrite <- Em in Hin. apply list_elem_of_fmap in Hin as (e & -> & [He _]%list_elem_of_filter). rewrite Forall_forall in Hf. specialize (Hf _ He). congruence.
Qed.

Lemma length_TrimSpace s : (String.length (TrimSpace s) <= String.length s)%nat.
Proof.
  assert (∀ t, (String.length (trim_left t) <= String.length t)%nat) as Hl by (induction t as [|c t IH]; cbn; [lia|]; destruct (go_space c); cbn; lia).
  assert (∀ t, (String.length (trim_right t) <= String.length t)%nat) as Hr
    by (induction t as [|c t IH]; cbn; [lia|]; destruct (trim_right t) eqn:E; cbn in *; [destruct (go_space c); cbn; lia|lia]).
  unfold TrimSpace. pose proof (Hl (trim_right s)). pose proof (Hr s). lia.
Qed.

(** A name without the next-line control is trimmed once. *)
Lemma TrimSpace_trimmed s : no_next_line s = true → TrimSpace (trim s) = trim s.
Proof. intros H. rewrite TrimSpace_trim; [apply trim_idem|by apply trim_no_next_line]. Qed.

(** C14: whatever is done with the form of a template, while the library it was drawn with is
    the server's, what its button saves has no page of a desk nor a desk for another kind, no
    type twice, none that is retired but those it held, and a standard one: it is refused for
    nothing but a name that is too long, a scheme that is gone, or a name another
    template has. *)
Theorem template_accepted w template offered schemes lower others types es :
  NoDup (map lt_id offered) → match template with Some t => template_stored t | None => True end →
  Forall (fun t => jget types (lt_id t) = Some (mkStoredType (lt_level t) false)) offered →
  Forall (fun r => jget types (tr_id r) = Some (mkStoredType (tr_level r) (tr_retired r))) (held_types template) →
  let f := controls_run w template offered (form_opened w template) es in
  no_next_line (tf_name f) = true → can_save_template template offered f = true →
  template_refused schemes lower others types (had_types template) (template_body w offered f) =
    if MaxNameLength <? Z.of_nat (String.length (trim (tf_name f))) then Some bad_name
    else if bool_decide (tf_schemeId f ≠ EmptyString ∧ tf_schemeId f ∉ schemes) then Some no_scheme
    else if bool_decide (lower (trim (tf_name f)) ∈ map lower others) then Some name_taken else None.
Proof.
  intros Hoff Hkept Hlib Hheld. cbn zeta. set (f := controls_run _ _ _ _ _). intros Hline Hcan.
  assert (form_ok template offered f) as [H1 H2 H3 H4 H5] by (by apply controls_ok, form_opened_ok).
  unfold can_save_template in Hcan. apply andb_true_iff in Hcan as [Hname Hstd%negb_true_iff%bool_decide_eq_false].
  unfold truthy in Hname. apply negb_true_iff, bool_decide_eq_false in Hname. unfold template_refused, template_body.
  cbn [ti_name ti_description ti_kind ti_features ti_desk ti_issueTypeIds ti_schemeId ti_defaultScheme]. cbv zeta.
  rewrite TrimSpace_trimmed by done. rewrite (bool_decide_false (trim (tf_name f) = EmptyString)) by done. cbn [orb].
  destruct (MaxNameLength <? _); [done|].
  rewrite (proj2 (Z.ltb_ge _ _)) by (pose proof (length_trim (tf_description f)); pose proof (length_TrimSpace (trim (tf_description f))); lia).
  assert (match ticked offered f with [] => Some no_types | id :: rest => checkTypes types (had_types template) [] false (id :: rest) end = None) as Hty.
  { pose proof (standard_exists template offered f Hstd) as Hex. destruct (ticked offered f) as [|id rest] eqn:Et; [by cbn in Hex|].
    rewrite (checkTypes_ok template offered Hoff Hkept types Hlib Hheld) by first [done | by intros ? _ ?%not_elem_of_nil]. by rewrite Hex. }
  rewrite Hty. assert (negb (negb (truthy (tf_schemeId f))) && match or_undefined (tf_schemeId f) with Some id => bool_decide (id ∉ schemes) | None => false end =
    bool_decide (tf_schemeId f ≠ EmptyString ∧ tf_schemeId f ∉ schemes)) as ->.
  { rewrite negb_involutive, bool_decide_and, bool_decide_not. unfold or_undefined, truthy. by destruct (bool_decide (tf_schemeId f = EmptyString)). }
  destruct (tf_kind f) eqn:Ek; cbn [andb negb] in *.
  - rewrite (stored_features_allowed w software f) by first [done | by apply H1]. done.
  - destruct (List.find _ _); by rewrite andb_false_r.
  - rewrite (stored_features_allowed w business f) by first [done | by apply H1]. done.
Qed.

Definition some_library : list LibraryType :=
  [mkLibraryType "t1" "Epic" "Bolt" 1 true; mkLibraryType "t2" "Task" "Check" 0 true; mkLibraryType "t3" "Hint" "Bulb" 0 false]%string.
Definition some_template : ProjectTemplate :=
  mkProjectTemplate "k" "Support" EmptyString service kanban kanban [f_queues; f_board] (Some true) None
    [mkTypeRow "t2" "Task" "Check" 0 false; mkTypeRow "t9" "Incident" "Fire" 0 true]%string.
Definition some_types : list (string * StoredType) :=
  [("t1", mkStoredType 1 false); ("t2", mkStoredType 0 false); ("t3", mkStoredType 0 false); ("t9", mkStoredType 0 true)]%string.

Lemma template_accepted_witness :
  let f := controls_run feature_words_en (Some some_template) some_library (form_opened feature_words_en (Some some_template))
             [KindPicked business; TypeTicked "t3"; TypeShifted "t3" (-1); FeatureTicked f_plan true; SchemePicked "w1"; NameTyped " Support "]%string in
  template_refused ["w1"]%string toLowerCase ["other"]%string some_types ["t2"; "t9"]%string (template_body feature_words_en some_library f) = None.
Proof.
  cbn zeta. refine (eq_trans (template_accepted feature_words_en (Some some_template) some_library ["w1"]%string toLowerCase ["other"]%string some_types _ _ _ _ _ _ _) _).
  - apply (bool_decide_unpack _). vm_compute. exact I.
  - split; try done. apply (bool_decide_unpack _). vm_compute. exact I.
  - repeat constructor.
  - repeat constructor.
  - vm_compute. reflexivity.
  - vm_compute. reflexivity.
  - vm_compute. reflexivity.
Defined.

(** A form with no page ticked says so, and the server keeps every page the kind has. *)
Lemma no_pages_becomes_all :
  let f := controls_run feature_words_en None some_library (form_opened feature_words_en None)
             (map (fun e => FeatureTicked (fe_key e) false) (featuresFor feature_words_en software)) in
  tf_features f = [] ∧ ti_features (template_body feature_words_en some_library f) = [] ∧
  stored_features software (ti_features (template_body feature_words_en some_library f)) = map fe_key (featuresFor feature_words_en software).
Proof. vm_compute. auto. Qed.

(** A name the form takes, of up to a hundred characters, is refused from eighty-one on. *)
Lemma long_name_refused :
  let name := repeatString 90 "a" in
  template_control feature_words_en None some_library (form_opened feature_words_en None) (NameTyped name) = Some (with_texts name EmptyString (form_opened feature_words_en None)) ∧
  template_refused [] toLowerCase [] some_types [] (template_body feature_words_en some_library (with_texts name EmptyString (form_opened feature_words_en None))) = Some bad_name.
Proof. vm_compute. auto. Qed.

(** A type retired while the form is open: it has no row to untick any more, and saving is
    refused because of it. *)
Lemma retired_meanwhile :
  let opened := form_opened feature_words_en None in
  let ticked_by_hand := default opened (template_control feature_words_en None some_library opened (TypeTicked "t3")) in
  let library := [mkLibraryType "t1" "Epic" "Bolt" 1 true; mkLibraryType "t2" "Task" "Check" 0 true]%string in
  let types := [("t1", mkStoredType 1 false); ("t2", mkStoredType 0 false); ("t3", mkStoredType 0 true)]%string in
  let f := with_texts "Mine" EmptyString ticked_by_hand in
  "t3"%string ∉ checklist None library f ∧ can_save_template None library f = true ∧ template_refused [] toLowerCase [] types [] (template_body feature_words_en library f) = Some type_retired.
Proof. cbn zeta. split; [|vm_compute; auto]. apply (bool_decide_unpack _). vm_compute. exact I. Qed.
