(* ===== verification/Holidays.v ===== *)
(** A calendar's days off: [web/src/features/availability/CalendarDays.tsx].

    The table is a state machine: the days the server holds, the draft there may be over
    them, and three requests whose answers may come between any two events.  A call made
    when a rendering had certain days carries those days with it. *)

From Stdlib Require Import ZArith Lia Ascii String.
From stdpp Require Import base list strings.
From S2P Require Import Prelude JsString Config DashChart.

Open Scope Z_scope.

Record Holiday := mkHoliday { ho_day : string; ho_name : string; ho_halfDay : bool }.

#[export] Instance Holiday_eq : EqDecision Holiday.
Proof. solve_decision. Defined.

(** How many rows and days of a draft are not saved yet. *)
Definition unsavedDays (draft saved : list Holiday) : Z :=
  let changed := filter (fun row => row ∉ saved) draft in
  let removed := filter (fun day => ho_day day ∉ map ho_day draft) saved in
  Z.of_nat (length changed) + Z.of_nat (length removed).

(** [Number.parseInt(text, 10)], of a text with no sign: the digits it begins with. *)
Fixpoint digits_from (n : option Z) (s : string) : option Z :=
  match s with
  | EmptyString => n
  | String c s' => if is_digit c then digits_from (Some (default 0 n * 10 + (Z.of_nat (nat_of_ascii c) - 48))) s' else n
  end.
Definition parseInt (s : string) : option Z := digits_from None (trimStart s).

(** The last year the days reach into. *)
Definition latestYear (days : list Holiday) : option Z :=
  match omap (fun day => parseInt (sliceTo 4 (ho_day day))) days with
  | [] => None
  | y :: ys => Some (foldr Z.max y ys)
  end.

Record NextYearProposal := mkProposal { pr_from : Z; pr_to : Z; pr_days : list Holiday; pr_skipped : list Holiday }.

Section Table.
Context `{Collation}.

Definition by_day (a b : Holiday) : Z := localeCompare (ho_day a) (ho_day b).

(** What a proposal adds to the days there are, and the table with it. *)
Definition added_days (days : list Holiday) (p : NextYearProposal) : list Holiday := filter (fun day => ho_day day ∉ map ho_day days) (pr_days p).
Definition with_added (days : list Holiday) (p : NextYearProposal) : list Holiday := sort_by by_day (days ++ added_days days p).

Record CalendarDays := mkCalendarDays {
  cd_saved : list Holiday;
  cd_draft : option (list Holiday);
  cd_copied : option NextYearProposal;
  cd_proposing : option (list Holiday);  (** the days shown when next year's were asked for *)
  cd_saving : bool;
  cd_importing : bool;
}.

Definition table_start (saved : list Holiday) : CalendarDays := mkCalendarDays saved None None None false false.

(** The days on screen. *)
Definition days_shown (c : CalendarDays) : list Holiday := default (cd_saved c) (cd_draft c).

Inductive CalendarRequest := SetDays (days : list Holiday) | ImportFile | ProposeNextYear.

Inductive CalendarEvent :=
| RowChanged (index : nat) (day : Holiday) | RowAdded | RowRemoved (index : nat)
| CopyPressed | Proposed (p : NextYearProposal) | ProposeFailed
| Discarded | SavePressed | DaysSaved | SaveFailed
| FilePicked (agrees : bool) | Imported | ImportFailed
| CalendarRead (days : list Holiday).

Definition with_draft (d : option (list Holiday)) (c : CalendarDays) : CalendarDays :=
  mkCalendarDays (cd_saved c) d (cd_copied c) (cd_proposing c) (cd_saving c) (cd_importing c).
Definition discard (c : CalendarDays) : CalendarDays := mkCalendarDays (cd_saved c) None None (cd_proposing c) (cd_saving c) (cd_importing c).
Definition with_pending (p : option (list Holiday)) (s i : bool) (c : CalendarDays) : CalendarDays :=
  mkCalendarDays (cd_saved c) (cd_draft c) (cd_copied c) p s i.

(** [onFile]'s question: asked where typed days would be lost. *)
Definition asks_to_discard (c : CalendarDays) : bool := match cd_draft c with Some d => 0 <? unsavedDays d (cd_saved c) | None => false end.

(** One event, for an administrator: the table after it and what is sent; [None] where
    its control is not there or is disabled. *)
Definition calendar_step (c : CalendarDays) (e : CalendarEvent) : option (CalendarDays * list CalendarRequest) :=
  match e with
  | RowChanged i day => match days_shown c !! i with Some _ => Some (with_draft (Some (<[i := day]> (days_shown c))) c, []) | None => None end
  | RowAdded => Some (with_draft (Some (days_shown c ++ [mkHoliday EmptyString EmptyString false])) c, [])
  | RowRemoved i => match days_shown c !! i with Some _ => Some (with_draft (Some (take i (days_shown c) ++ drop (S i) (days_shown c))) c, []) | None => None end
  | CopyPressed =>
      match latestYear (cd_saved c), cd_proposing c with
      | Some _, None => Some (with_pending (Some (days_shown c)) (cd_saving c) (cd_importing c) c, [ProposeNextYear])
      | _, _ => None
      end
  | Proposed p =>
      match cd_proposing c with
      | None => None
      | Some days =>
          let added := added_days days p in
          Some (mkCalendarDays (cd_saved c) (match added with [] => cd_draft c | _ => Some (with_added days p) end)
                  (Some (mkProposal (pr_from p) (pr_to p) added (pr_skipped p))) None (cd_saving c) (cd_importing c), [])
      end
  | ProposeFailed => match cd_proposing c with Some _ => Some (with_pending None (cd_saving c) (cd_importing c) c, []) | None => None end
  | Discarded => match cd_draft c with Some _ => Some (discard c, []) | None => None end
  | SavePressed => match cd_draft c with Some d => if cd_saving c then None else Some (with_pending (cd_proposing c) true (cd_importing c) c, [SetDays d]) | None => None end
  | DaysSaved => if cd_saving c then Some (discard (with_pending (cd_proposing c) false (cd_importing c) c), []) else None
  | SaveFailed => if cd_saving c then Some (with_pending (cd_proposing c) false (cd_importing c) c, []) else None
  | FilePicked agrees =>
      if cd_importing c then None
      else if asks_to_discard c && negb agrees then Some (c, [])
      else Some (with_pending (cd_proposing c) (cd_saving c) true c, [ImportFile])
  | Imported => if cd_importing c then Some (discard (with_pending (cd_proposing c) (cd_saving c) false c), []) else None
  | ImportFailed => if cd_importing c then Some (with_pending (cd_proposing c) (cd_saving c) false c, []) else None
  | CalendarRead days => Some (mkCalendarDays days (cd_draft c) (cd_copied c) (cd_proposing c) (cd_saving c) (cd_importing c), [])
  end.

Fixpoint calendar_run (c : CalendarDays) (es : list CalendarEvent) : option (CalendarDays * list CalendarRequest) :=
  match es with
  | [] => Some (c, [])
  | e :: es' =>
      match calendar_step c e with
      | None => None
      | Some (c', sent) => match calendar_run c' es' with Some (c'', more) => Some (c'', sent ++ more) | None => None end
      end
  end.

(** ** What counts as unsaved *)

(** Nothing counts as unsaved exactly where every row is one of the saved days and every
    saved day is still there. *)
Lemma unsaved_none draft saved :
  unsavedDays draft saved = 0 ↔ Forall (fun row => row ∈ saved) draft ∧ Forall (fun day => ho_day day ∈ map ho_day draft) saved.
Proof.
  unfold unsavedDays. rewrite !Forall_forall. split.
  - intros Hz. assert (length (filter (fun row => row ∉ saved) draft) = 0%nat ∧ length (filter (fun day => ho_day day ∉ map ho_day draft) saved) = 0%nat) as [H1 H2] by lia.
    apply nil_length_inv in H1, H2. split; intros x Hx.
    + destruct (decide (x ∈ saved)) as [|Hn]; [done|]. assert (x ∈ filter (fun row => row ∉ saved) draft) as Hin by (by apply list_elem_of_filter). rewrite H1 in Hin. by apply not_elem_of_nil in Hin.
    + destruct (decide (ho_day x ∈ map ho_day draft)) as [|Hn]; [done|].
      assert (x ∈ filter (fun day => ho_day day ∉ map ho_day draft) saved) as Hin by (by apply list_elem_of_filter). rewrite H2 in Hin. by apply not_elem_of_nil in Hin.
  - intros [H1 H2]. rewrite !filter_nothing; [done|..]; apply Forall_forall; intros x Hx Hn; apply Hn; auto.
Qed.

Lemma unsaved_same saved : unsavedDays saved saved = 0.
Proof. apply unsaved_none. rewrite !Forall_forall. split; [done|]. intros x Hx. by apply (list_elem_of_fmap_2 ho_day). Qed.

(** ** Next year's days *)

(** Copied days leave what the table held, take no date it has, and the table is then in
    the order of its days. *)
Lemma copy_keeps_days days p :
  with_added days p ≡ₚ days ++ added_days days p ∧ (∀ d, d ∈ added_days days p → d ∈ pr_days p ∧ ho_day d ∉ map ho_day days) ∧
  (NoDup (map ho_day days) → NoDup (map ho_day (pr_days p)) → NoDup (map ho_day (with_added days p))).
Proof.
  assert (with_added days p ≡ₚ days ++ added_days days p) as Hp by apply sort_by_Permutation. split; [done|]. split.
  - intros d [H1 H2]%list_elem_of_filter. done.
  - intros H1 H2. change (map ho_day ?l) with (ho_day <$> l). rewrite Hp, fmap_app. apply NoDup_app. split_and!; [done| |by apply NoDup_map_filter].
    intros x Hx (d & -> & [Hn _]%list_elem_of_filter)%list_elem_of_fmap. done.
Qed.

(** ** The table *)

(** What is saved is what is on screen; nothing is written before. *)
Lemma saves_what_is_shown c e c' sent days :
  calendar_step c e = Some (c', sent) → SetDays days ∈ sent → e = SavePressed ∧ days = days_shown c ∧ sent = [SetDays days].
Proof.
  destruct e; cbn [calendar_step]; repeat (case_match; try discriminate); intros [= <- <-] Hin; try (by apply not_elem_of_nil in Hin);
    apply list_elem_of_singleton in Hin; simplify_eq. split_and!; [done| |done]. unfold days_shown. by match goal with H : cd_draft c = _ |- _ => rewrite H end.
Qed.

(** An import is sent past typed days only where losing them was agreed to. *)
Lemma import_asks c e c' sent :
  calendar_step c e = Some (c', sent) → ImportFile ∈ sent → ∃ agrees, e = FilePicked agrees ∧ (asks_to_discard c = true → agrees = true).
Proof.
  destruct e; cbn [calendar_step]; repeat (case_match; try discriminate); intros [= <- <-] Hin; try (by apply not_elem_of_nil in Hin);
    apply list_elem_of_singleton in Hin; simplify_eq. eexists. split; [done|]. intros Ha. rewrite Ha in *. by destruct agrees.
Qed.

End Table.

(** ** Runs that lose what was typed *)

Definition new_year : Holiday := mkHoliday "2026-01-01" "New Year" false.
Definition renamed : Holiday := mkHoliday "2026-01-01" "New Year's Day" false.
Definition next_new_year : Holiday := mkHoliday "2027-01-01" "New Year" false.
Definition start_day : Holiday := mkHoliday "2026-12-24" "Eve" true.

(** A row edited while next year's days are asked for is as it was when they arrive. *)
Lemma copy_loses_edits :
  ∃ c, @calendar_run unitCollation (table_start [new_year])
    [CopyPressed; RowChanged 0 renamed; Proposed (mkProposal 2026 2027 [next_new_year] [])] = Some (c, [ProposeNextYear]) ∧
    cd_draft c = Some [new_year; next_new_year].
Proof. eexists. split; [vm_compute; reflexivity|]. reflexivity. Qed.

(** Days typed while a file is imported go when it has landed, and nobody was asked. *)
Lemma import_loses_unasked :
  ∃ c, @calendar_run unitCollation (table_start [new_year]) [FilePicked false; RowChanged 0 renamed; Imported] = Some (c, [ImportFile]) ∧ cd_draft c = None.
Proof. eexists. split; [vm_compute; reflexivity|]. reflexivity. Qed.

(** So do days typed while the table is saved. *)
Lemma typed_while_saving_lost :
  ∃ c, @calendar_run unitCollation (table_start [new_year])
    [RowChanged 0 renamed; SavePressed; RowAdded; DaysSaved] = Some (c, [SetDays [renamed]]) ∧ cd_draft c = None.
Proof. eexists. split; [vm_compute; reflexivity|]. reflexivity. Qed.

(** A row whose date is changed counts twice: as a row that is new and as a day removed. *)
Lemma date_change_counts_twice : unsavedDays [start_day] [new_year] = 2.
Proof. vm_compute. reflexivity. Qed.

Example latest_of_two : latestYear [next_new_year; new_year] = Some 2027. Proof. vm_compute. reflexivity. Qed.
Example no_year_yet : latestYear [mkHoliday EmptyString EmptyString false] = None. Proof. vm_compute. reflexivity. Qed.
