(* ===== verification/SprintPlanning.v ===== *)
(** Planning sprints: [web/src/features/sprints/SprintPlanning.tsx], with [overBy] of
    [web/src/api/sprints.ts].

    The page is what the server answered last, whose backlog is looked at, and what the
    card of a running sprint keeps: where its unfinished work is to go.  A card whose key
    changes is made anew. *)

From Stdlib Require Import ZArith QArith Qminmax Lia Lqa Ascii String.
From stdpp Require Import base list strings.
From S2P Require Import Prelude JsString Config Api ApiPlan.

Open Scope Z_scope.

Definition overBy (plan : SprintPlan) : Q :=
  match sprint_capacity (plan_sprint plan) with Some c => Qmax 0 (plan_committed plan - c) | None => 0%Q end.

(** ** Which sprints are shown *)

Definition team_of (s : Sprint) : string := default EmptyString (sprint_teamId s).

(** The sprints of the team looked at; the empty team is the project's own stream. *)
Definition sprints_of (all : list Sprint) (teamId : string) : list Sprint := filter (fun s => team_of s = teamId) all.

Definition is_open (s : Sprint) : bool := negb (bool_decide (sprint_state s = closed)).
Definition open_of (sprints : list Sprint) : list Sprint := filter (fun s => is_open s = true) sprints.

Definition capacity_map (plans : list SprintPlan) : list (string * SprintPlan) := jof (map (fun row => (sprint_id (plan_sprint row), row)) plans).

Definition state_text (s : SprintState) : string := match s with future => "future" | active => "active" | closed => "closed" end.
Definition state_word (s : Sprint) : string := sprint_id s +:+ ":" +:+ state_text (sprint_state s).
Definition states_of (sprints : list Sprint) : string := join "|" (map state_word sprints).

(** The key a card is kept by. *)
Definition card_key (s : Sprint) (sprints : list Sprint) : string := sprint_id s +:+ "-" +:+ states_of sprints.

(** The sprints unfinished work of one can go to. *)
Definition others_of (s : Sprint) (sprints : list Sprint) : list Sprint := filter (fun o => sprint_id o ≠ sprint_id s ∧ is_open o = true) sprints.

(** ** The card of a sprint *)

Inductive CardButton := StartButton | DeleteButton | CompleteButton.

(** The buttons a card has: a planned sprint is started, or deleted while it is known to
    hold nothing; a running one is completed. *)
Definition card_buttons (s : Sprint) (total : option Z) : list CardButton :=
  match sprint_state s with
  | future => StartButton :: (if decide (total = Some 0) then [DeleteButton] else [])
  | active => [CompleteButton]
  | closed => []
  end.

Inductive SprintRequest :=
| StartSprint (id : string) | CompleteSprint (id : string) (moveTo : option string) | DeleteSprint (id : string)
| UpdateDates (id : string) (startsOn endsOn : option (option string)) | UpdateCapacity (id : string) (capacity : option Q)
| SetIssueSprint (key : string) (sprintId : option string) | CreateSprint (name : string) (teamId : option string).

Definition complete_request (s : Sprint) (moveTo : string) : SprintRequest := CompleteSprint (sprint_id s) (or_undefined moveTo).

(** [SprintSettings.set]. *)
Definition set_start (s : Sprint) (value : string) : SprintRequest := UpdateDates (sprint_id s) (Some (or_undefined value)) None.
Definition set_end (s : Sprint) (value : string) : SprintRequest := UpdateDates (sprint_id s) None (Some (or_undefined value)).

(** The capacity, when its field is left: [to_number] reads a number as the language does. *)
Definition leave_capacity (to_number : string → option Q) (s : Sprint) (typed : string) : option SprintRequest :=
  let raw := trim typed in
  match (if decide (raw = EmptyString) then Some None else Some <$> to_number raw) with
  | None => None
  | Some next => if match next, sprint_capacity s with None, None => true | Some a, Some b => Qeq_bool a b | _, _ => false end then None else Some (UpdateCapacity (sprint_id s) next)
  end.

(** ** An issue's row *)

(** The sprints a row offers, after the backlog, and what picking one sends. *)
Definition row_options (sprints : list Sprint) (current : option Sprint) : list Sprint :=
  match current with Some c => c :: sprints | None => sprints end.
Definition row_movable (current : option Sprint) : bool := match current with Some c => is_open c | None => true end.
Definition row_picked (key : string) (sprints : list Sprint) (current : option Sprint) (value : string) : option SprintRequest :=
  if row_movable current && bool_decide (value ∈ EmptyString :: map sprint_id (row_options sprints current))
  then Some (SetIssueSprint key (or_undefined value)) else None.

(** The rows of the backlog, and those of a card. *)
Definition backlog_options (all : list Sprint) (teamId : string) : list Sprint := open_of (sprints_of all teamId).
Definition card_options (s : Sprint) (sprints : list Sprint) : list Sprint := if is_open s then others_of s sprints else [].

(** ** A new sprint *)

Definition create_request (name teamId : string) : option SprintRequest :=
  if truthy (trim name) then Some (CreateSprint (trim name) (or_undefined teamId)) else None.

(** ** The page, as one card lives on it *)

Record Planning := mkPlanning { pl_all : list Sprint; pl_team : string; pl_card : option (string * string) }.

Inductive PlanningEvent :=
| SprintsRead (all : list Sprint)
| TeamShown (teamId : string)
| CarryPicked (id : string).

Section Card.
Context (sid : string).

Definition card_sprint (p : Planning) : option Sprint := List.find (fun s => bool_decide (sprint_id s = sid)) (sprints_of (pl_all p) (pl_team p)).

(** A rendering: the card keeps what it had while its key is the same. *)
Definition draw_planning (p : Planning) : Planning :=
  mkPlanning (pl_all p) (pl_team p)
    (match card_sprint p with
     | None => None
     | Some s =>
         let key := card_key s (sprints_of (pl_all p) (pl_team p)) in
         match pl_card p with Some (k, moveTo) => if decide (k = key) then Some (k, moveTo) else Some (key, EmptyString) | None => Some (key, EmptyString) end
     end).

Definition planning_step (p : Planning) (e : PlanningEvent) : Planning :=
  match e with
  | SprintsRead all => draw_planning (mkPlanning all (pl_team p) (pl_card p))
  | TeamShown team => draw_planning (mkPlanning (pl_all p) team (pl_card p))
  | CarryPicked id =>
      match card_sprint p, pl_card p with
      | Some s, Some (k, _) =>
          if bool_decide (sprint_state s = active) && bool_decide (id ∈ EmptyString :: map sprint_id (others_of s (sprints_of (pl_all p) (pl_team p))))
          then mkPlanning (pl_all p) (pl_team p) (Some (k, id)) else p
      | _, _ => p
      end
  end.

Definition planning_start (all : list Sprint) : Planning := draw_planning (mkPlanning all EmptyString None).
Definition planning_run (all : list Sprint) (es : list PlanningEvent) : Planning := foldl planning_step (planning_start all) es.
End Card.

(** ** Facts *)

Lemma over_capacity plan : (0 <= overBy plan)%Q ∧ (∀ c, sprint_capacity (plan_sprint plan) = Some c → (plan_committed plan <= c + overBy plan)%Q).
Proof.
  unfold overBy. destruct (sprint_capacity (plan_sprint plan)) as [c|]; split; try done.
  - apply Q.le_max_l.
  - intros ? [= <-]. pose proof (Q.le_max_r 0 (plan_committed plan - c)). lra.
Qed.

(** A sprint that is over is never offered: not to a row of the backlog, nor to a row of a
    card that can be moved, nor for the unfinished work of another. *)
Lemma closed_never_offered all team s o :
  (o ∈ backlog_options all team ∨ o ∈ others_of s (sprints_of all team) ∨ o ∈ card_options s (sprints_of all team)) →
  is_open o = true ∧ team_of o = team ∧ o ∈ all.
Proof.
  unfold backlog_options, card_options, others_of, open_of, sprints_of. intros [Ho|[Ho|Ho]].
  - by apply list_elem_of_filter in Ho as [? [? ?]%list_elem_of_filter].
  - by apply list_elem_of_filter in Ho as [[_ ?] [? ?]%list_elem_of_filter].
  - destruct (is_open s); [|by apply not_elem_of_nil in Ho]. by apply list_elem_of_filter in Ho as [[_ ?] [? ?]%list_elem_of_filter].
Qed.

Definition plain_id (s : Sprint) : Prop :=
  string_forall (fun c => negb (bool_decide (c = ":"%char))) (sprint_id s) = true ∧ string_forall (fun c => negb (bool_decide (c = "|"%char))) (sprint_id s) = true.

Lemma state_word_inj s t : plain_id s → plain_id t → state_word s = state_word t → sprint_id s = sprint_id t ∧ sprint_state s = sprint_state t.
Proof.
  intros Hs Ht H. assert (∀ u, plain_id u → split ":"%char (state_word u) = [sprint_id u; state_text (sprint_state u)]) as Hsp.
  { intros u [Hu _]. change (state_word u) with (join (String ":"%char EmptyString) [sprint_id u; state_text (sprint_state u)]). apply split_join; [done|]. repeat constructor; [done|]. by destruct (sprint_state u). }
  pose proof (f_equal (split ":"%char) H) as Hq. rewrite !Hsp in Hq by done. injection Hq as H1 H2. split; [done|]. by destruct (sprint_state s), (sprint_state t).
Qed.

Lemma state_word_plain s : plain_id s → string_forall (fun c => negb (bool_decide (c = "|"%char))) (state_word s) = true.
Proof. intros [_ H]. unfold state_word. rewrite !string_forall_app, H. by destruct (sprint_state s). Qed.

(** Two renderings give a card the same key only where they have the same sprints, in the
    same states. *)
Lemma states_apart l1 l2 :
  l1 ≠ [] → l2 ≠ [] → Forall plain_id l1 → Forall plain_id l2 → states_of l1 = states_of l2 →
  map (fun s => (sprint_id s, sprint_state s)) l1 = map (fun s => (sprint_id s, sprint_state s)) l2.
Proof.
  intros N1 N2 P1 P2 H. assert (map state_word l1 = map state_word l2) as Hw.
  { assert (∀ l, l ≠ [] → Forall plain_id l → split "|"%char (states_of l) = map state_word l) as Hsp.
    { intros l Hl Hp. unfold states_of. apply split_join; [by destruct l|]. apply Forall_map. eapply Forall_impl; [exact Hp|]. apply state_word_plain. }
    by rewrite <- !Hsp, H. }
  clear H N1 N2. revert l2 P2 Hw. induction P1 as [|s l1 Hs _ IH]; intros [|t l2] P2 Hw; try done. apply Forall_cons in P2 as [Ht P2].
  cbn [map] in *. injection Hw as H1 H2. apply state_word_inj in H1 as [-> ->]; [|done|done]. f_equal. by apply IH.
Qed.

Lemma app_inj_l a b c : a +:+ b = a +:+ c → b = c.
Proof. induction a as [|x a IH]; [done|]. cbn. intros [= H]. auto. Qed.

Section CardFacts.
Context (sid : string).

(** A card's choice is one the card offers, and its key is that of the rendering. *)
Definition card_ok (p : Planning) : Prop :=
  match card_sprint sid p, pl_card p with
  | Some s, Some (k, moveTo) => k = card_key s (sprints_of (pl_all p) (pl_team p)) ∧ moveTo ∈ EmptyString :: map sprint_id (others_of s (sprints_of (pl_all p) (pl_team p)))
  | None, None => True
  | _, _ => False
  end.

Definition planning_plain (p : Planning) : Prop := Forall plain_id (pl_all p).

Lemma card_sprint_id p s : card_sprint sid p = Some s → sprint_id s = sid ∧ s ∈ sprints_of (pl_all p) (pl_team p).
Proof. intros [Hin%list_elem_of_In Hid%bool_decide_eq_true]%find_some. done. Qed.

Lemma others_of_pairs s t l1 l2 :
  sprint_id s = sprint_id t → map (fun s => (sprint_id s, sprint_state s)) l1 = map (fun s => (sprint_id s, sprint_state s)) l2 →
  map sprint_id (others_of s l1) = map sprint_id (others_of t l2).
Proof.
  intros Hid. unfold others_of. rewrite Hid. clear Hid s. revert l2. induction l1 as [|a l1 IH]; intros [|b l2] Hm; try done. cbn [map] in Hm. injection Hm as H1 H2 H3.
  assert (is_open a = is_open b) as Hop by (unfold is_open; by rewrite H2).
  rewrite !filter_cons, H1, Hop. case_decide; cbn [map]; [rewrite H1; f_equal|]; by apply IH.
Qed.

(** A rendering after an answer, or of another team, keeps the choice only where it is
    still offered. *)
Lemma draw_ok p all team :
  planning_plain p → Forall plain_id all → card_ok p → card_ok (draw_planning sid (mkPlanning all team (pl_card p))).
Proof.
  intros Hp Ha Hok. unfold card_ok, draw_planning. set (q := mkPlanning all team (pl_card p)).
  change (card_sprint sid (mkPlanning (pl_all q) (pl_team q) ?c)) with (card_sprint sid q). cbn [pl_card pl_all pl_team].
  destruct (card_sprint sid q) as [s|] eqn:Es; [|done]. destruct (pl_card q) as [[k moveTo]|] eqn:Ec; [|by split; [|left]].
  case_decide as Hk; [|by split; [|left]]. split; [done|]. change (pl_card q) with (pl_card p) in Ec. unfold card_ok in Hok. rewrite Ec in Hok.
  destruct (card_sprint sid p) as [t|] eqn:Et; [|done]. destruct Hok as [Hkey Hin]. destruct (card_sprint_id _ _ Es) as [Hs Hsin]. destruct (card_sprint_id _ _ Et) as [Ht Htin].
  assert (states_of (sprints_of (pl_all q) (pl_team q)) = states_of (sprints_of (pl_all p) (pl_team p))) as Hst.
  { rewrite Hkey in Hk. unfold card_key in Hk. rewrite Hs, Ht in Hk. apply app_inj_l in Hk. apply (app_inj_l "-") in Hk. done. }
  cbn [pl_all pl_team q] in *.
  assert (∀ l (P : Sprint → Prop) `{∀ x, Decision (P x)}, Forall plain_id l → Forall plain_id (filter P l)) as Hf.
  { intros l P ? Hl. rewrite Forall_forall in *. intros x [_ Hx]%list_elem_of_filter. auto. }
  rewrite (others_of_pairs s t (sprints_of all team) (sprints_of (pl_all p) (pl_team p))); [done|by rewrite Hs, Ht|].
  apply states_apart; [..|exact Hst]; [by intros E; rewrite E in Hsin; apply not_elem_of_nil in Hsin|by intros E; rewrite E in Htin; apply not_elem_of_nil in Htin|by apply Hf|by apply Hf].
Qed.

Definition event_plain (e : PlanningEvent) : Prop := match e with SprintsRead all => Forall plain_id all | _ => True end.

Lemma planning_step_ok p e : planning_plain p → event_plain e → card_ok p → card_ok (planning_step sid p e) ∧ planning_plain (planning_step sid p e).
Proof.
  intros Hp He Hok. destruct e as [all|team|id]; cbn [planning_step].
  - split; [by apply draw_ok|done].
  - split; [by apply draw_ok|done].
  - unfold card_ok in *. destruct (card_sprint sid p) as [s|] eqn:Es; [|by rewrite Es]. destruct (pl_card p) as [[k m]|] eqn:Ec; [|done].
    destruct (_ && _) eqn:E; [|by rewrite Es, Ec]. apply andb_true_iff in E as [_ E%bool_decide_eq_true]. split; [|done].
    change (card_sprint sid (mkPlanning (pl_all p) (pl_team p) (Some (k, id)))) with (card_sprint sid p). rewrite Es. cbn [pl_card pl_all pl_team]. split; [by destruct Hok|done].
Qed.

(** Whatever the server answers between, the sprint a card sends its unfinished work to is
    one it offers then: open, of the same team, and another. *)
Lemma carry_offered all es s k moveTo :
  Forall plain_id all → Forall event_plain es →
  let p := planning_run sid all es in
  card_sprint sid p = Some s → pl_card p = Some (k, moveTo) →
  moveTo = EmptyString ∨ ∃ o, o ∈ others_of s (sprints_of (pl_all p) (pl_team p)) ∧ moveTo = sprint_id o.
Proof.
  intros Ha He. cbn zeta. assert (card_ok (planning_run sid all es) ∧ planning_plain (planning_run sid all es)) as [Hok _].
  { unfold planning_run. assert (card_ok (planning_start sid all) ∧ planning_plain (planning_start sid all)) as Hst.
    { split; [|done]. unfold planning_start, card_ok, draw_planning. set (q := mkPlanning all EmptyString None).
      change (card_sprint sid (mkPlanning (pl_all q) (pl_team q) ?c)) with (card_sprint sid q). destruct (card_sprint sid q); [|done]. cbn. by split; [|left]. }
    revert Hst. generalize (planning_start sid all). induction He as [|e es Hev _ IH]; intros p0 [H1 H2]; [done|]. cbn. apply IH. by apply planning_step_ok. }
  intros Hs Hc. unfold card_ok in Hok. rewrite Hs, Hc in Hok. destruct Hok as [_ Hin].
  apply elem_of_cons in Hin as [->|Hin]; [by left|]. apply list_elem_of_fmap in Hin as (o & -> & Ho). right. by exists o.
Qed.
End CardFacts.
