(* ===== verification/TimeLog.v ===== *)
(** The time on an issue: [web/src/features/time/TimeTracking.tsx], the estimate and the
    remaining time typed in place, and the log of work.

    A cell and a form are state machines; what the server holds is an argument of every
    step, because it is read anew at any time. *)

From Stdlib Require Import ZArith QArith Lia Ascii String.
From stdpp Require Import base list strings.
From S2P Require Import Prelude JsString Duration.

Open Scope Z_scope.

(** ** A time typed in place *)

Record TimeCell := mkTimeCell { tc_text : option string; tc_refused : bool }.

Definition cell_start : TimeCell := mkTimeCell None false.
Definition cell_shown (minutes : option Z) (c : TimeCell) : string := default (formatDuration minutes) (tc_text c).

Inductive CellEvent := CellTyped (text : string) | CellLeft.

(** One event, and the minutes it asks the server to keep, [None] for none at all. *)
Definition cell_step (minutes : option Z) (c : TimeCell) (e : CellEvent) : TimeCell * option (option Z) :=
  match e with
  | CellTyped text => (mkTimeCell (Some text) (tc_refused c), None)
  | CellLeft =>
      match tc_text c with
      | None => (c, None)
      | Some text =>
          match parseDuration text with
          | None => (mkTimeCell (Some text) true, None)
          | Some parsed =>
              (cell_start,
               if (parsed =? default 0 minutes) && (negb (parsed =? 0) || bool_decide (minutes = None)) then None
               else Some (if parsed =? 0 then None else Some parsed))
          end
      end
  end.

(** ** The log of work *)

(** Whose entry it is decides who may correct it. *)
Definition mayChange (editable administers : bool) (me author : option string) : bool := editable && (bool_decide (author = me) || administers).

Record WorkForm := mkWorkForm { wf_duration : string; wf_day : string; wf_note : string; wf_refused : bool; wf_sending : bool }.

Record WorkEntry := mkWorkEntry { we_minutes : Z; we_startedOn : string; we_note : string }.

Inductive WorkEvent := DurationTyped (s : string) | DayPicked (s : string) | NoteWritten (s : string) | WorkSubmitted | WorkAnswered | WorkRefused.

Definition work_start (today : string) : WorkForm := mkWorkForm EmptyString today EmptyString false false.

(** What a form sends: nothing while it says no time above nought. *)
Definition work_entry (f : WorkForm) : option WorkEntry :=
  match parseDuration (wf_duration f) with
  | Some minutes => if 0 <? minutes then Some (mkWorkEntry minutes (wf_day f) (wf_note f)) else None
  | None => None
  end.

(** One event of the form that logs work; it stays open, without its time and its note. *)
Definition work_step (f : WorkForm) (e : WorkEvent) : option (WorkForm * option WorkEntry) :=
  match e with
  | DurationTyped s => Some (mkWorkForm s (wf_day f) (wf_note f) (wf_refused f) (wf_sending f), None)
  | DayPicked s => Some (mkWorkForm (wf_duration f) s (wf_note f) (wf_refused f) (wf_sending f), None)
  | NoteWritten s => Some (mkWorkForm (wf_duration f) (wf_day f) s (wf_refused f) (wf_sending f), None)
  | WorkSubmitted =>
      if wf_sending f || negb (truthy (trim (wf_duration f))) then None
      else match work_entry f with
        | None => Some (mkWorkForm (wf_duration f) (wf_day f) (wf_note f) true false, None)
        | Some entry => Some (mkWorkForm (wf_duration f) (wf_day f) (wf_note f) false true, Some entry)
        end
  | WorkAnswered => if wf_sending f then Some (mkWorkForm EmptyString (wf_day f) EmptyString (wf_refused f) false, None) else None
  | WorkRefused => if wf_sending f then Some (mkWorkForm (wf_duration f) (wf_day f) (wf_note f) (wf_refused f) false, None) else None
  end.

(** The form that corrects an entry: it opens with the entry and closes when it is saved. *)
Definition editor_start (w : WorkEntry) : WorkForm := mkWorkForm (formatDuration (Some (we_minutes w))) (sliceTo 10 (we_startedOn w)) (we_note w) false false.
Definition editor_step (f : WorkForm) (e : WorkEvent) : option (option WorkForm * option WorkEntry) :=
  match e with
  | WorkAnswered => if wf_sending f then Some (None, None) else None
  | _ => match work_step f e with Some (f', sent) => Some (Some f', sent) | None => None end
  end.

Fixpoint work_run (f : WorkForm) (es : list WorkEvent) : option (WorkForm * list WorkEntry) :=
  match es with
  | [] => Some (f, [])
  | e :: es' =>
      match work_step f e with
      | None => None
      | Some (f', sent) => match work_run f' es' with Some (f'', more) => Some (f'', match sent with Some w => w :: more | None => more end) | None => None end
      end
  end.

(** ** Facts *)

(** A cell left as it was asks for nothing, and one whose text is no time keeps it and
    says so. *)
Lemma cell_untouched minutes : cell_step minutes cell_start CellLeft = (cell_start, None).
Proof. done. Qed.

Lemma cell_refused minutes c text :
  tc_text c = Some text → parseDuration text = None → cell_shown minutes (cell_step minutes c CellLeft).1 = text ∧ (cell_step minutes c CellLeft).2 = None.
Proof. intros Ht Hp. cbn. by rewrite Ht, Hp. Qed.

(** What a cell asks for is the time its text says, nought being none, and never what the
    server has already; a text that says what it has asks for nothing. *)
Lemma cell_sends_change minutes c sent :
  (cell_step minutes c CellLeft).2 = Some sent →
  ∃ text parsed, tc_text c = Some text ∧ parseDuration text = Some parsed ∧ sent = (if parsed =? 0 then None else Some parsed) ∧ sent ≠ minutes.
Proof.
  cbn [cell_step]. destruct (tc_text c) as [text|]; [|done]. destruct (parseDuration text) as [parsed|] eqn:Ep; [|done].
  cbn [snd]. destruct (_ && _) eqn:E; [done|]. intros [= <-]. exists text, parsed. split_and!; try done.
  intros Hm. apply andb_false_iff in E. destruct (Z.eqb_spec parsed 0) as [->|Hne]; subst minutes; cbn in E.
  - by destruct E.
  - rewrite Z.eqb_refl in E. by destruct E.
Qed.

Lemma cell_same_silent minutes c text parsed :
  tc_text c = Some text → parseDuration text = Some parsed → (minutes = Some parsed ∧ parsed ≠ 0 ∨ minutes = None ∧ parsed = 0) → (cell_step minutes c CellLeft).2 = None.
Proof.
  intros Ht Hp Hm. cbn. rewrite Ht, Hp. cbn. destruct Hm as [[-> Hne]|[-> ->]]; cbn; [|done]. rewrite Z.eqb_refl. by apply Z.eqb_neq in Hne as ->.
Qed.

(** Work is logged with a time above nought, and with the day and the note there are. *)
Lemma work_sent f e f' w : work_step f e = Some (f', Some w) → e = WorkSubmitted ∧ wf_sending f = false ∧ 0 < we_minutes w ∧ work_entry f = Some w ∧ we_startedOn w = wf_day f ∧ we_note w = wf_note f.
Proof.
  destruct e; cbn [work_step]; try done; try (by destruct (wf_sending f)).
  destruct (wf_sending f); [done|]. cbn [orb]. destruct (negb _); [done|]. destruct (work_entry f) as [entry|] eqn:E; [|done]. intros [= <- <-].
  split_and!; try done; unfold work_entry in E; destruct (parseDuration _) as [m|]; try done; destruct (Z.ltb_spec 0 m); try done; by injection E as <-.
Qed.

(** What is written of the next entry while one is on its way goes when it is logged. *)
Lemma next_entry_lost :
  ∃ f, work_run (work_start "2026-03-02") [DurationTyped "2h"; WorkSubmitted; DurationTyped "30m"; NoteWritten "Review"; WorkAnswered] =
    Some (f, [mkWorkEntry 120 "2026-03-02" EmptyString]) ∧ wf_duration f = EmptyString ∧ wf_note f = EmptyString.
Proof. eexists. split; [vm_compute; reflexivity|]. done. Qed.

(** A time cleared in its cell is none on the server. *)
Example cleared_time : (cell_step (Some 90) (mkTimeCell (Some EmptyString) false) CellLeft).2 = Some None. Proof. vm_compute. reflexivity. Qed.
