(* ===== verification/SecondFactor.v ===== *)
(** Two-step sign-in: [web/src/features/auth/SecondFactor.tsx] over the hooks of
    [web/src/api/secondFactor.ts].

    Each form is a state machine.  A hook that was reset hears nothing more of its call:
    the server's answer still counts there, and does nothing here. *)

From Stdlib Require Import ZArith Lia Ascii String.
From stdpp Require Import base list strings.
From S2P Require Import Prelude JsString Config.

Open Scope Z_scope.

(** ** The key, as it is read out *)

(** [secret.match(/.{1,4}/g)]: the text in pieces of so many units. *)
Fixpoint pieces_of (fuel : nat) (size : nat) (s : string) : list string :=
  match fuel, s with
  | O, _ | _, EmptyString => []
  | S fuel', _ => substring 0 size s :: pieces_of fuel' size (substring size (String.length s - size) s)
  end.

Definition grouped (secret : string) : string :=
  match pieces_of (String.length secret) (Z.to_nat SECRET_GROUP_LENGTH) secret with [] => secret | pieces => join " " pieces end.

(** ** The second half of a sign-in *)

Record CodeStep := mkCodeStep { cs_code : string; cs_recovery : bool; cs_sending : bool; cs_expired : bool; cs_failed : bool; cs_left : bool }.

Definition code_start : CodeStep := mkCodeStep EmptyString false false false false false.

Inductive StepEvent := CodeTyped (s : string) | CodeSubmitted | SignedIn | CodeRefused (expired : bool) | RecoveryToggled | StartAgain.

Inductive StepRequest := LoginWith (challenge code : string) | OnSignedIn | OnStartAgain.

Definition code_step (challenge : string) (c : CodeStep) (e : StepEvent) : option (CodeStep * list StepRequest) :=
  if cs_left c then None
  else match e with
  | CodeTyped s =>
      if cs_recovery c || (Z.of_nat (String.length s) <=? SECOND_FACTOR_CODE_DIGITS)
      then Some (mkCodeStep s (cs_recovery c) (cs_sending c) (cs_expired c) (cs_failed c) false, []) else None
  | CodeSubmitted =>
      if cs_expired c || cs_sending c || negb (truthy (trim (cs_code c))) then None
      else Some (mkCodeStep (cs_code c) (cs_recovery c) true false false false, [LoginWith challenge (trim (cs_code c))])
  | SignedIn =>
      if cs_sending c then Some (mkCodeStep (cs_code c) (cs_recovery c) false false false true, [OnSignedIn]) else Some (c, [])
  | CodeRefused expired =>
      if cs_sending c then Some (mkCodeStep (cs_code c) (cs_recovery c) false expired true false, []) else Some (c, [])
  | RecoveryToggled => Some (mkCodeStep EmptyString (negb (cs_recovery c)) false false false false, [])
  | StartAgain => if cs_expired c then Some (mkCodeStep (cs_code c) (cs_recovery c) (cs_sending c) (cs_expired c) (cs_failed c) true, [OnStartAgain]) else None
  end.

(** ** Setting it up *)

Record Enrolment := mkEnrolment { en_secret : option string; en_starting : bool; en_code : string; en_confirming : bool; en_codes : option (list string) }.

Definition enrolment_start : Enrolment := mkEnrolment None false EmptyString false None.

Inductive EnrolEvent := StartPressed | Started (secret : string) | StartFailed | AppCodeTyped (s : string) | ConfirmPressed | Confirmed (codes : list string) | ConfirmFailed | CodesKept.

Inductive EnrolRequest := StartFactor | ConfirmFactor (code : string) | FactorSettled.

Definition enrol_step (n : Enrolment) (e : EnrolEvent) : option (Enrolment * list EnrolRequest) :=
  match en_codes n, en_secret n, e with
  | Some _, _, CodesKept => Some (n, [FactorSettled])
  | Some _, _, _ => None
  | None, None, StartPressed => if en_starting n then None else Some (mkEnrolment None true (en_code n) (en_confirming n) None, [StartFactor])
  | None, None, Started secret => if en_starting n then Some (mkEnrolment (Some secret) false (en_code n) (en_confirming n) None, []) else None
  | None, None, StartFailed => if en_starting n then Some (mkEnrolment None false (en_code n) (en_confirming n) None, []) else None
  | None, Some _, AppCodeTyped s =>
      if Z.of_nat (String.length s) <=? SECOND_FACTOR_CODE_DIGITS then Some (mkEnrolment (en_secret n) (en_starting n) s (en_confirming n) None, []) else None
  | None, Some _, ConfirmPressed =>
      if en_confirming n || negb (truthy (trim (en_code n))) then None
      else Some (mkEnrolment (en_secret n) (en_starting n) (en_code n) true None, [ConfirmFactor (trim (en_code n))])
  | None, Some _, Confirmed codes => if en_confirming n then Some (mkEnrolment (en_secret n) (en_starting n) (en_code n) false (Some codes), []) else None
  | None, Some _, ConfirmFailed => if en_confirming n then Some (mkEnrolment (en_secret n) (en_starting n) (en_code n) false None, []) else None
  | _, _, _ => None
  end.

(** ** Once it is on *)

Record Enrolled := mkEnrolled { ed_code : string; ed_fresh : option (list string); ed_renewing : bool; ed_removing : bool }.

Definition enrolled_start : Enrolled := mkEnrolled EmptyString None false false.

Inductive EnrolledEvent := OnCodeTyped (s : string) | RenewPressed | Renewed (codes : list string) | RenewFailed | RemovePressed | Removed | RemoveFailed | FreshKept.

Inductive EnrolledRequest := RenewCodes (code : string) | RemoveFactor (code : string).

Definition enrolled_step (d : Enrolled) (e : EnrolledEvent) : option (Enrolled * list EnrolledRequest) :=
  let shown := match ed_fresh d with None => true | Some _ => false end in
  match e with
  | OnCodeTyped s => if shown then Some (mkEnrolled s (ed_fresh d) (ed_renewing d) (ed_removing d), []) else None
  | RenewPressed =>
      if shown && negb (ed_renewing d) && truthy (trim (ed_code d)) then Some (mkEnrolled (ed_code d) (ed_fresh d) true false, [RenewCodes (trim (ed_code d))]) else None
  | Renewed codes => if ed_renewing d then Some (mkEnrolled EmptyString (Some codes) false (ed_removing d), []) else Some (d, [])
  | RenewFailed => Some (mkEnrolled (ed_code d) (ed_fresh d) false (ed_removing d), [])
  | RemovePressed =>
      if shown && negb (ed_removing d) && truthy (trim (ed_code d)) then Some (mkEnrolled (ed_code d) (ed_fresh d) false true, [RemoveFactor (trim (ed_code d))]) else None
  | Removed => if ed_removing d then Some (mkEnrolled EmptyString (ed_fresh d) (ed_renewing d) false, []) else Some (d, [])
  | RemoveFailed => Some (mkEnrolled (ed_code d) (ed_fresh d) (ed_renewing d) false, [])
  | FreshKept => match ed_fresh d with Some _ => Some (mkEnrolled (ed_code d) None (ed_renewing d) (ed_removing d), []) | None => None end
  end.

Fixpoint enrolled_run (d : Enrolled) (es : list EnrolledEvent) : option (Enrolled * list EnrolledRequest) :=
  match es with
  | [] => Some (d, [])
  | e :: es' =>
      match enrolled_step d e with
      | None => None
      | Some (d', sent) => match enrolled_run d' es' with Some (d'', more) => Some (d'', sent ++ more) | None => None end
      end
  end.

(** What is copied of the codes shown. *)
Definition newline : string := String (ascii_of_nat 10) EmptyString.
Definition copied_codes (codes : list string) : string := join newline codes.

(** ** Facts *)

Lemma substring_whole s : substring 0 (String.length s) s = s.
Proof. induction s as [|c s IH]; [done|]. cbn. by rewrite IH. Qed.

Lemma substring_all s n : (String.length s <= n)%nat → substring 0 n s = s.
Proof. revert n. induction s as [|c s IH]; intros [|n] H; cbn in *; try done; try lia. rewrite IH by lia. done. Qed.

Lemma substring_split n s : substring 0 n s +:+ substring n (String.length s - n) s = s.
Proof.
  revert n. induction s as [|c s IH]; intros [|n]; cbn; try done.
  all: first [by rewrite substring_whole | by rewrite IH].
Qed.

Lemma length_substring_rest n s : String.length (substring n (String.length s - n) s) = (String.length s - n)%nat.
Proof.
  revert n. induction s as [|c s IH]; intros [|n]; cbn; try done.
  all: first [by rewrite substring_whole | apply IH].
Qed.

(** The pieces put together are the key, and none is longer than it may be. *)
Lemma pieces_whole fuel size s : (0 < size)%nat → (String.length s <= fuel)%nat → join EmptyString (pieces_of fuel size s) = s ∧ Forall (fun p => (String.length p <= size)%nat ∧ p ≠ EmptyString) (pieces_of fuel size s).
Proof.
  intros Hs. revert s. induction fuel as [|fuel IH]; intros s Hf; [destruct s; cbn in *; [done|lia]|].
  destruct s as [|c s]; [done|]. set (t := String c s) in *. change (pieces_of (S fuel) size t) with (substring 0 size t :: pieces_of fuel size (substring size (String.length t - size) t)).
  assert (String.length (substring size (String.length t - size) t) <= fuel)%nat as Hl by (rewrite length_substring_rest; cbn in *; lia).
  destruct (IH _ Hl) as [H1 H2]. split.
  - transitivity (substring 0 size t +:+ join EmptyString (pieces_of fuel size (substring size (String.length t - size) t))).
    + destruct (pieces_of fuel size _); cbn; [by rewrite app_empty_r|done].
    + rewrite H1. apply substring_split.
  - constructor; [|done]. split; [|by destruct size; [lia|]]. clear. revert size. induction t as [|x t IH]; intros [|n]; cbn; try lia. specialize (IH n). lia.
Qed.

(** What is sent to sign in is the code without the blanks around it, never nothing, and
    only while the step can still be finished. *)
Lemma code_sent challenge c e c' ch code :
  code_step challenge c e = Some (c', [LoginWith ch code]) → e = CodeSubmitted ∧ ch = challenge ∧ code = trim (cs_code c) ∧ code ≠ EmptyString ∧ cs_expired c = false ∧ cs_sending c = false.
Proof.
  unfold code_step. destruct (cs_left c); [done|]. intros H. destruct e; try (repeat (case_match; simplify_eq); done).
  destruct (cs_expired c || cs_sending c || _) eqn:E; [done|]. injection H as <- <- <-. apply orb_false_iff in E as [[H1 H2]%orb_false_iff H3%negb_false_iff].
  split_and!; try done. intros E. by rewrite E in H3.
Qed.

(** The way is changed while the code is being checked: that it was right is not heard,
    and the page stays where it is although the sign-in is done. *)
Lemma sign_in_unheard challenge :
  ∃ c1 c2 c3, code_step challenge code_start (CodeTyped "123456") = Some (c1, []) ∧
    code_step challenge c1 CodeSubmitted = Some (c2, [LoginWith challenge "123456"]) ∧
    code_step challenge c2 RecoveryToggled = Some (c3, []) ∧ code_step challenge c3 SignedIn = Some (c3, []) ∧ cs_left c3 = false.
Proof. do 3 eexists. by vm_compute. Qed.

(** Turning it off is pressed while new recovery codes are asked for: the codes, which
    stand in the place of the old ones, are never shown, whatever becomes of the rest. *)
Lemma renewed_codes_unseen codes :
  ∃ d, enrolled_run enrolled_start [OnCodeTyped "123456"; RenewPressed; RemovePressed; Renewed codes; RemoveFailed] =
    Some (d, [RenewCodes "123456"; RemoveFactor "123456"]) ∧ ed_fresh d = None.
Proof. eexists. split; [reflexivity|]. done. Qed.

(** Pressed one at a time, the codes the server answers with are the ones shown. *)
Lemma renewed_codes_shown d codes d' sent :
  ed_renewing d = true → enrolled_step d (Renewed codes) = Some (d', sent) → ed_fresh d' = Some codes ∧ ed_code d' = EmptyString.
Proof. intros H. cbn. rewrite H. by intros [= <- <-]. Qed.

(** The recovery codes of a new factor stay until they are put away, and the change is
    read back only then. *)
Lemma codes_stay n codes e n' sent : en_codes n = Some codes → enrol_step n e = Some (n', sent) → n' = n ∧ e = CodesKept ∧ sent = [FactorSettled].
Proof. intros H. unfold enrol_step. rewrite H. destruct (en_secret n), e; try done; by intros [= <- <-]. Qed.

Example grouped_key : grouped "JBSWY3DPEHPK3PXP" = "JBSW Y3DP EHPK 3PXP"%string. Proof. vm_compute. reflexivity. Qed.
Example short_key : grouped EmptyString = EmptyString. Proof. vm_compute. reflexivity. Qed.
