(* ===== verification/Transitions.v ===== *)
(** Moving an issue through its workflow: [web/src/features/issues/TransitionBar.tsx],
    with what the server refuses of a move ([validators] of
    [backend/internal/workflow/engine.go] and [rules.go]).

    The bar and the dialog it opens are one state machine; the rules of a transition and
    who the issue is assigned to are the server's, and arguments. *)

From Stdlib Require Import ZArith Lia Ascii String.
From stdpp Require Import base sets list strings.
From S2P Require Import Prelude JsString Api Client QueryClient ValidateGraph.

Open Scope Z_scope.

(** ** What a move has to come with *)

Inductive TransitionNeed := need_comment | need_resolution | need_assignee.

#[export] Instance TransitionNeed_eq : EqDecision TransitionNeed.
Proof. solve_decision. Defined.

Definition need_text (n : TransitionNeed) : string :=
  match n with need_comment => "comment" | need_resolution => "resolution" | need_assignee => "assignee" end.

(** A transition as the list offers it, and what is sent to take it. *)
Record Offered := mkOffered { offered_id : string; offered_name : string; offered_needs : list TransitionNeed }.

Record MoveInput := mkMoveInput {
  move_key : string; move_transitionId : string; move_comment : option string; move_resolution : option string; move_assigneeId : option string;
}.

(** ** The server *)

Inductive Validator := assigneeRequired | commentRequired | resolutionRequired.

Record Input := mkInput { input_Comment : string; input_Assignee : option string; input_Resolution : string }.

(** What is read of a request: a text left out is empty. *)
Definition input_of (r : MoveInput) : Input := mkInput (default EmptyString (move_comment r)) (move_assigneeId r) (default EmptyString (move_resolution r)).

(** The field a validator refuses an input over. *)
Definition Validate (assignee : option string) (v : Validator) (i : Input) : option TransitionNeed :=
  match v with
  | assigneeRequired =>
      match input_Assignee i with
      | Some a => if decide (a = uuid_Nil) then Some need_assignee else None
      | None => match assignee with Some _ => None | None => Some need_assignee end
      end
  | commentRequired => if decide (TrimSpace (input_Comment i) = EmptyString) then Some need_comment else None
  | resolutionRequired => if decide (TrimSpace (input_Resolution i) = EmptyString) then Some need_resolution else None
  end.

(** The first refusal, when a move is made. *)
Fixpoint Evaluate (assignee : option string) (rules : list Validator) (i : Input) : option TransitionNeed :=
  match rules with
  | [] => None
  | v :: rules' => match Validate assignee v i with Some f => Some f | None => Evaluate assignee rules' i end
  end.

(** What a bare move would be refused for, which the list carries. *)
Definition needs_of (assignee : option string) (rules : list Validator) : list TransitionNeed :=
  foldl (fun out v => match Validate assignee v (mkInput EmptyString None EmptyString) with
                      | Some f => if decide (f ∈ out) then out else out ++ [f]
                      | None => out end) [] rules.

(** ** The bar *)

Definition VALIDATION_FAILED : string := "validation_failed".
Definition NEEDS : list TransitionNeed := [need_comment; need_resolution; need_assignee].

Definition refusedNeeds (error : Failure) : list TransitionNeed :=
  match error with
  | api_failure e => if code_is e VALIDATION_FAILED then filter (fun n => is_Some (property (error_fields e) (need_text n))) NEEDS else []
  | other_failure => []
  end.

(** The dialog asks for what a transition needs; its fields outlive a change of what it asks. *)
Record Asking := mkAsking { asking_transition : Offered; asking_needs : list TransitionNeed }.

Record Dialog := mkDialog {
  dlg_comment : string; dlg_resolution : string; dlg_assigneeId : string; dlg_sending : bool; dlg_error : option Failure;
}.

Record Bar := mkBar { bar_call : option Offered; bar_error : option Failure; bar_asking : option (Asking * Dialog) }.

Definition bar_start : Bar := mkBar None None None.
Definition dialog_start : Dialog := mkDialog EmptyString EmptyString EmptyString false None.

(** The dialog is kept while it is open, whatever it asks for. *)
Definition setAsking (a : Asking) (b : Bar) : option (Asking * Dialog) := Some (a, from_option snd dialog_start (bar_asking b)).

Definition resolutionChoices_en : list string := ["Done"; "Won't do"; "Duplicate"; "Cannot reproduce"]%string.

Definition wants (a : Asking) (n : TransitionNeed) : bool := bool_decide (n ∈ asking_needs a).

Definition missing (a : Asking) (d : Dialog) : bool :=
  (wants a need_comment && negb (truthy (trim (dlg_comment d)))) || (wants a need_resolution && negb (truthy (dlg_resolution d))) ||
  (wants a need_assignee && negb (truthy (dlg_assigneeId d))).

Section Issue.
Context (issueKey : string).

Definition bare (t : Offered) : MoveInput := mkMoveInput issueKey (offered_id t) None None None.

Definition sent (a : Asking) (d : Dialog) : MoveInput :=
  mkMoveInput issueKey (offered_id (asking_transition a))
    (if wants a need_comment then Some (trim (dlg_comment d)) else None)
    (if wants a need_resolution then Some (dlg_resolution d) else None)
    (if wants a need_assignee then Some (dlg_assigneeId d) else None).

Inductive BarEvent :=
  | Taken (t : Offered) | MoveMade | MoveRefused (error : Failure)
  | CommentWritten (s : string) | ResolutionChosen (s : string) | AssigneePicked (s : string) | Confirmed | DialogClosed | DialogMade | DialogRefused (error : Failure).

Definition with_dialog (f : Dialog → Dialog) (b : Bar) : option (Bar * list MoveInput) :=
  match bar_asking b with Some (a, d) => Some (mkBar (bar_call b) (bar_error b) (Some (a, f d)), []) | None => None end.

(** One event, [None] where the page does not offer it: a button of the bar lies under an
    open dialog and is off while its own move is made.  Only the newest of the bar's calls
    is heard when it ends. *)
Definition bar_step (b : Bar) (e : BarEvent) : option (Bar * list MoveInput) :=
  match e with
  | Taken t =>
      match bar_asking b with
      | Some _ => None
      | None =>
          if bool_decide (offered_id <$> bar_call b = Some (offered_id t)) then None
          else match offered_needs t with
            | [] => Some (mkBar (Some t) None None, [bare t])
            | needs => Some (mkBar (bar_call b) (bar_error b) (setAsking (mkAsking t needs) b), [])
            end
      end
  | MoveMade => match bar_call b with Some _ => Some (mkBar None None (bar_asking b), []) | None => None end
  | MoveRefused error =>
      match bar_call b with
      | None => None
      | Some t =>
          match refusedNeeds error with
          | [] => Some (mkBar None (Some error) (bar_asking b), [])
          | needs => Some (mkBar None None (setAsking (mkAsking t needs) b), [])
          end
      end
  | CommentWritten s => with_dialog (fun d => mkDialog s (dlg_resolution d) (dlg_assigneeId d) (dlg_sending d) (dlg_error d)) b
  | ResolutionChosen s => with_dialog (fun d => mkDialog (dlg_comment d) s (dlg_assigneeId d) (dlg_sending d) (dlg_error d)) b
  | AssigneePicked s => with_dialog (fun d => mkDialog (dlg_comment d) (dlg_resolution d) s (dlg_sending d) (dlg_error d)) b
  | Confirmed =>
      match bar_asking b with
      | Some (a, d) =>
          if missing a d || dlg_sending d then None
          else Some (mkBar (bar_call b) (bar_error b) (Some (a, mkDialog (dlg_comment d) (dlg_resolution d) (dlg_assigneeId d) true None)), [sent a d])
      | None => None
      end
  | DialogClosed => match bar_asking b with Some _ => Some (mkBar (bar_call b) (bar_error b) None, []) | None => None end
  | DialogMade =>
      match bar_asking b with Some (a, d) => if dlg_sending d then Some (mkBar (bar_call b) (bar_error b) None, []) else None | None => None end
  | DialogRefused error =>
      match bar_asking b with
      | Some (a, d) => if dlg_sending d then with_dialog (fun d => mkDialog (dlg_comment d) (dlg_resolution d) (dlg_assigneeId d) false (Some error)) b else None
      | None => None
      end
  end.

Fixpoint bar_run (b : Bar) (es : list BarEvent) : option (Bar * list MoveInput) :=
  match es with
  | [] => Some (b, [])
  | e :: es' =>
      match bar_step b e with
      | None => None
      | Some (b', asked) => match bar_run b' es' with Some (b'', more) => Some (b'', asked ++ more) | None => None end
      end
  end.
End Issue.

(** What a refusal says of a field, which the field shows if it is asked for; the banner
    shows a refusal that says something of no field. *)
Definition field_says (error : Failure) (n : TransitionNeed) : bool :=
  match error with
  | api_failure e => match property (error_fields e) (need_text n) with Some (JString s) => truthy s | Some JNull | None => false | Some _ => true end
  | other_failure => false
  end.

Definition shows_refusal (a : Asking) (error : Failure) : bool :=
  existsb (fun n => wants a n && field_says error n) NEEDS || negb (existsb (field_says error) NEEDS).

(** ** What is sent is let through *)

Lemma Evaluate_none assignee rules i : Evaluate assignee rules i = None ↔ Forall (fun v => Validate assignee v i = None) rules.
Proof.
  induction rules as [|v rules IH]; cbn; [split; [constructor|done]|]. rewrite Forall_cons, <- IH.
  destruct (Validate assignee v i); [|tauto]. split; [done|]. by intros [? _].
Qed.

Lemma elem_of_needs assignee rules v f :
  v ∈ rules → Validate assignee v (mkInput EmptyString None EmptyString) = Some f → f ∈ needs_of assignee rules.
Proof.
  intros Hv Hf. unfold needs_of.
  enough (∀ out, f ∈ out ∨ v ∈ rules → f ∈ foldl (fun out v => match Validate assignee v (mkInput EmptyString None EmptyString) with
    | Some f => if decide (f ∈ out) then out else out ++ [f] | None => out end) out rules) as H by (apply H; by right).
  clear Hv. induction rules as [|v' rules IH]; intros out; cbn [foldl]; [intros [H|H]; [done|by apply elem_of_nil in H]|].
  intros [H|[<-|H]%elem_of_cons]; apply IH.
  - left. destruct (Validate assignee v' _); [|done]. case_decide; [done|]. set_solver.
  - left. rewrite Hf. case_decide; set_solver.
  - by right.
Qed.

(** What an input has to bring for a field that is asked for; an assignee of none but nobody
    is no answer. *)
Definition brings (i : Input) (n : TransitionNeed) : Prop :=
  match n with
  | need_comment => TrimSpace (input_Comment i) ≠ EmptyString
  | need_resolution => TrimSpace (input_Resolution i) ≠ EmptyString
  | need_assignee => is_Some (input_Assignee i)
  end.

Lemma needs_brought assignee rules i :
  input_Assignee i ≠ Some uuid_Nil → Forall (brings i) (needs_of assignee rules) → Evaluate assignee rules i = None.
Proof.
  intros Hnil Hall. apply Evaluate_none, Forall_forall. intros v Hv.
  rewrite Forall_forall in Hall. pose proof (fun f Hf => Hall f (elem_of_needs assignee rules v f Hv Hf)) as Hb. clear Hall Hv.
  destruct v; cbn [Validate] in *.
  - destruct (input_Assignee i) as [a|] eqn:Ea; [case_decide; [by subst|done]|]. destruct assignee; [done|].
    specialize (Hb need_assignee eq_refl). cbn in Hb. rewrite Ea in Hb. by destruct Hb.
  - specialize (Hb need_comment eq_refl). cbn in Hb. by rewrite decide_False.
  - specialize (Hb need_resolution eq_refl). cbn in Hb. by rewrite decide_False.
Qed.

Lemma truthy_true s : truthy s = true ↔ s ≠ EmptyString.
Proof. unfold truthy. rewrite negb_true_iff, bool_decide_eq_false. done. Qed.

Section Accepted.
Context (assignee : option string) (rules : string → list Validator) (choices : list string).
Context (Hchoices : Forall (fun s => TrimSpace s ≠ EmptyString) choices).

(** What the page takes from elsewhere: the needs are the server's, a resolution is one of
    those offered, nobody who is picked is nobody, and a comment is typed without the one
    unit the two trims disagree on. *)
Definition event_ok (e : BarEvent) : Prop :=
  match e with
  | Taken t => offered_needs t = needs_of assignee (rules (offered_id t))
  | CommentWritten s => no_next_line s = true
  | ResolutionChosen s => s ∈ EmptyString :: choices
  | AssigneePicked s => s ≠ uuid_Nil
  | _ => True
  end.

Definition dialog_ok (d : Dialog) : Prop :=
  no_next_line (dlg_comment d) = true ∧ dlg_resolution d ∈ EmptyString :: choices ∧ dlg_assigneeId d ≠ uuid_Nil.

Definition bar_ok (b : Bar) : Prop :=
  (∀ t, bar_call b = Some t → needs_of assignee (rules (offered_id t)) = []) ∧
  (∀ a d, bar_asking b = Some (a, d) → dialog_ok d ∧ needs_of assignee (rules (offered_id (asking_transition a))) ⊆ asking_needs a).

Definition accepted (r : MoveInput) : Prop := Evaluate assignee (rules (move_transitionId r)) (input_of r) = None.

Lemma dialog_start_ok : dialog_ok dialog_start.
Proof. split_and!; [done|by left|done]. Qed.

Lemma setAsking_ok b t needs :
  bar_ok b → needs_of assignee (rules (offered_id t)) ⊆ needs → ∀ a d, setAsking (mkAsking t needs) b = Some (a, d) →
  dialog_ok d ∧ needs_of assignee (rules (offered_id (asking_transition a))) ⊆ asking_needs a.
Proof.
  intros [_ Hb] Hn a d [= <- <-]. split; [|done]. destruct (bar_asking b) as [[a' d']|]; [by apply (Hb a' d')|apply dialog_start_ok].
Qed.

Lemma bare_accepted key t : needs_of assignee (rules (offered_id t)) = [] → accepted (bare key t).
Proof. intros H. apply needs_brought; cbn; [done|]. rewrite H. constructor. Qed.

Lemma sent_accepted key a d :
  dialog_ok d → missing a d = false → needs_of assignee (rules (offered_id (asking_transition a))) ⊆ asking_needs a → accepted (sent key a d).
Proof.
  intros (Hc & Hr & Ha) Hm Hn. unfold missing in Hm. rewrite !orb_false_iff in Hm. destruct Hm as [[Hmc Hmr] Hma].
  apply needs_brought; cbn.
  - destruct (wants a need_assignee); [by intros [= ?]|done].
  - apply Forall_forall. intros n Hin%Hn. assert (wants a n = true) as Hw by by apply bool_decide_eq_true.
    destruct n; cbn [brings input_of input_Comment input_Resolution input_Assignee sent move_comment move_resolution move_assigneeId default];
      rewrite Hw in *; cbn [andb default from_option id] in *.
    + rewrite TrimSpace_trim by by apply trim_no_next_line. rewrite trim_idem. apply negb_false_iff in Hmc. by apply truthy_true in Hmc.
    + apply negb_false_iff, truthy_true in Hmr. rewrite Forall_forall in Hchoices. apply Hchoices. by apply elem_of_cons in Hr as [?|?].
    + by eexists.
Qed.

Lemma with_dialog_ok b b' f asked :
  bar_ok b → (∀ d, dialog_ok d → dialog_ok (f d)) → with_dialog f b = Some (b', asked) → bar_ok b' ∧ asked = [].
Proof.
  intros [Hc Ha] Hf. unfold with_dialog. destruct (bar_asking b) as [[a d]|] eqn:Eb; [|done]. intros [= <- <-]. split; [|done].
  split; [done|]. intros a' d' [= <- <-]. destruct (Ha a d eq_refl). eauto.
Qed.

Lemma bar_step_ok key b e b' asked :
  bar_ok b → event_ok e → bar_step key b e = Some (b', asked) → bar_ok b' ∧ Forall accepted asked.
Proof.
  intros Hb He. destruct e as [t| |error|s|s|s| | | |error]; cbn [bar_step event_ok] in *.
  - destruct (bar_asking b) eqn:Eb; [done|]. case_bool_decide; [done|]. destruct (offered_needs t) as [|n needs] eqn:En; intros [= <- <-].
    + split; [|constructor; [by apply bare_accepted|constructor]]. split; [|done]. intros t' [= <-]. done.
    + split; [|constructor]. split; [apply Hb|]. intros a d. apply setAsking_ok; [done|]. by rewrite He.
  - destruct (bar_call b); [|done]. intros [= <- <-]. split; [|constructor]. split; [done|apply Hb].
  - destruct (bar_call b) as [t|] eqn:Ec; [|done]. pose proof (proj1 Hb t Ec) as Ht.
    destruct (refusedNeeds error); intros [= <- <-]; (split; [|constructor]); (split; [done|]); [apply Hb|].
    intros a d. apply setAsking_ok; [done|]. rewrite Ht. by intros ? ?%elem_of_nil.
  - intros H%with_dialog_ok; [by destruct H as [? ->]|done|]. intros d (_ & Hr & Ha). by split_and!.
  - intros H%with_dialog_ok; [by destruct H as [? ->]|done|]. intros d (Hc & _ & Ha). by split_and!.
  - intros H%with_dialog_ok; [by destruct H as [? ->]|done|]. intros d (Hc & Hr & _). by split_and!.
  - destruct (bar_asking b) as [[a d]|] eqn:Eb; [|done]. destruct (missing a d || dlg_sending d) eqn:Em; [done|]. intros [= <- <-].
    apply orb_false_iff in Em as [Em _]. destruct (proj2 Hb a d Eb) as [Hd Hn].
    split; [|constructor; [by apply sent_accepted|constructor]]. split; [apply Hb|]. intros a' d' [= <- <-]. done.
  - destruct (bar_asking b); [|done]. intros [= <- <-]. split; [|constructor]. split; [apply Hb|done].
  - destruct (bar_asking b) as [[a d]|]; [|done]. destruct (dlg_sending d); [|done]. intros [= <- <-]. split; [|constructor]. split; [apply Hb|done].
  - destruct (bar_asking b) as [[a d]|] eqn:Eb; [|done]. destruct (dlg_sending d); [|done].
    intros H%with_dialog_ok; [by destruct H as [? ->]|done|]. by intros d' (Hc & Hr & Ha).
Qed.

Lemma bar_run_ok key b es b' moves : bar_ok b → Forall event_ok es → bar_run key b es = Some (b', moves) → Forall accepted moves.
Proof.
  revert b moves. induction es as [|e es IH]; intros b moves Hb; cbn; [by intros _ [= _ <-]|]. intros [He Hes]%Forall_cons.
  destruct (bar_step key b e) as [[b1 asked]|] eqn:Es; [|done]. destruct (bar_run key b1 es) as [[b2 more]|] eqn:Er; [|done].
  intros [= -> <-]. destruct (bar_step_ok key b e b1 asked) as [Hb1 Ha]; [done..|]. apply Forall_app. split; [done|]. by apply (IH b1 more).
Qed.
End Accepted.

(** C7: while an issue stays as its transitions were listed, every move that is sent, from
    the bar or from the dialog, is one that no validator of the server refuses. *)
Theorem move_accepted assignee rules choices key es b moves :
  Forall (fun s => TrimSpace s ≠ EmptyString) choices → Forall (event_ok assignee rules choices) es → bar_run key bar_start es = Some (b, moves) →
  Forall (fun r => Evaluate assignee (rules (move_transitionId r)) (input_of r) = None) moves.
Proof. intros Hc He Hr. by apply (bar_run_ok assignee rules choices Hc key bar_start es b). Qed.

(** A transition that wants an answer and a comment of an issue nobody is assigned to. *)
Definition close_rules (id : string) : list Validator := if decide (id = "close"%string) then [commentRequired; resolutionRequired; assigneeRequired; commentRequired] else [].
Definition close_issue : Offered := mkOffered "close" "Close" [need_comment; need_resolution; need_assignee].
Definition start_work : Offered := mkOffered "start" "Start" [].

Definition closing : list BarEvent :=
  [Taken start_work; Taken close_issue; CommentWritten " shipped "; ResolutionChosen "Done"; AssigneePicked "u1"; MoveMade; Confirmed; DialogMade].

Lemma move_accepted_witness :
  ∃ b, bar_run "TAB-1" bar_start closing = Some (b, [mkMoveInput "TAB-1" "start" None None None; mkMoveInput "TAB-1" "close" (Some "shipped"%string) (Some "Done"%string) (Some "u1"%string)]) ∧
  Forall (fun r => Evaluate None (close_rules (move_transitionId r)) (input_of r) = None)
    [mkMoveInput "TAB-1" "start" None None None; mkMoveInput "TAB-1" "close" (Some "shipped"%string) (Some "Done"%string) (Some "u1"%string)].
Proof.
  eexists. split; [vm_compute; reflexivity|].
  apply (move_accepted None close_rules resolutionChoices_en "TAB-1" closing bar_start).
  - apply (bool_decide_unpack _). vm_compute. exact I.
  - unfold closing. repeat (apply Forall_cons_2; [cbn; first [done | apply (bool_decide_unpack _); vm_compute; exact I]|]). by apply Forall_nil_2.
  - vm_compute. reflexivity.
Defined.

(** ** What is asked for is what is sent *)

(** The dialog sends an answer to each thing it asks for, and nothing else. *)
Definition answers (r : MoveInput) (n : TransitionNeed) : option string :=
  match n with need_comment => move_comment r | need_resolution => move_resolution r | need_assignee => move_assigneeId r end.

Lemma sent_as_asked key a d n : missing a d = false → match answers (sent key a d) n with Some s => n ∈ asking_needs a ∧ s ≠ EmptyString | None => n ∉ asking_needs a end.
Proof.
  intros Hm. unfold missing in Hm. rewrite !orb_false_iff in Hm. destruct Hm as [[Hc Hr] Ha].
  assert (∀ m, wants a m = true ↔ m ∈ asking_needs a) as Hw by (intros m; apply bool_decide_eq_true).
  destruct (wants a n) eqn:En; destruct n; cbn [answers sent move_comment move_resolution move_assigneeId]; rewrite En in *;
    try (by intros ?%Hw; congruence); (split; [by apply Hw|]); apply truthy_true; by apply negb_false_iff.
Qed.

(** A list that does not carry what a transition needs: the server names one field at a
    time.  The dialog asks for the first alone; the second refusal says why at a field that
    is not there, and the banner stays away because a field was named. *)
Definition refused_over (n : TransitionNeed) : Failure :=
  api_failure (mkApiError 422 (Some (JString VALIDATION_FAILED)) (Some (JString "no")) (JObject [(need_text n, JString "no")]) None None None).
Definition stale_close : Offered := mkOffered "close" "Close" [].

Example second_refusal_unseen :
  match bar_run "TAB-1" bar_start [Taken stale_close; MoveRefused (refused_over need_comment); CommentWritten "shipped"; Confirmed; DialogRefused (refused_over need_resolution)] with
  | Some (mkBar _ _ (Some (a, d)), _) => from_option (shows_refusal a) true (dlg_error d) = false ∧ asking_needs a = [need_comment]
  | _ => False
  end.
Proof. vm_compute. split; reflexivity. Qed.

(** A refusal that comes while the dialog asks about another transition takes the dialog
    over, with what was written in it: the comment goes with a move it was not written for. *)
Example dialog_changes_hands :
  match bar_run "TAB-1" bar_start [Taken stale_close; Taken (mkOffered "reopen" "Reopen" [need_comment]); CommentWritten "not fixed"; MoveRefused (refused_over need_comment); Confirmed] with
  | Some (_, moves) => last moves = Some (mkMoveInput "TAB-1" "close" (Some "not fixed"%string) None None)
  | None => False
  end.
Proof. vm_compute. reflexivity. Qed.
