(* ===== verification/Description.v ===== *)
(** An issue's description written by several people at once:
    [web/src/features/issues/Description.tsx] over [drafts.ts], with the check that refuses
    an edit of an older copy ([CheckFresh] of [backend/internal/issue/stale.go]).

    The server, the drafts kept for the tab, the page and the saves on their way are one
    state; what is on screen is remembered beside it. *)

From Stdlib Require Import ZArith Lia Ascii String.
From stdpp Require Import base sets list strings.
From S2P Require Import Prelude JsString Api Markdown IssueForms.

Open Scope Z_scope.

(** ** The server *)

(** A copy of the issue: when it was last changed, and its description. *)
Definition Copy : Type := string * option DocNode.

(** [CheckFresh]: a client that did not say is let through. *)
Definition CheckFresh (current : string) (startedFrom : option string) : bool :=
  match startedFrom with None => true | Some s => bool_decide (s = current) end.

(** ** The page *)

Record Shown := mkShown { sh_props : Copy; sh_opened : option KeptDraft; sh_draft : option DocNode; sh_overtaken : bool }.

Definition editing (p : Shown) : bool := bool_decide (is_Some (sh_opened p)).

(** When the draft's copy was changed: taken when editing began. *)
Definition startedFrom (p : Shown) : string := default (sh_props p).1 (sh_opened p ≫= kept_startedFrom).

(** What a save asks for. *)
Record Save := mkSave { sv_description : option DocNode; sv_expectedUpdatedAt : string }.

Definition save_of (p : Shown) : Save := mkSave (sh_draft p) (if sh_overtaken p then (sh_props p).1 else startedFrom p).

(** The copy whose description is to be read on the page: the one it is given, unless the
    editor stands in its place and nothing newer beside it. *)
Definition on_screen (p : Shown) : list Copy := if editing p && negb (sh_overtaken p) then [] else [sh_props p].

Inductive Verdict := Landed | StaleEdit | Failed.

(** A save on its way: whether the page that sent it is still there, and what came of it. *)
Record Sent := mkSent { st_save : Save; st_here : bool; st_verdict : option Verdict }.

Record World := mkWorld {
  w_copies : list Copy;            (* the server's copies, newest first *)
  w_kept : list (string * KeptDraft);
  w_page : option Shown;
  w_sent : list Sent;
  w_seen : list Copy;              (* every copy whose description has been on screen *)
}.

Section Issue.
Context (issueKey : string).

(** Whether the database takes two documents for the same. *)
Context (same : option DocNode → option DocNode → bool).

Definition opened_page (kept : list (string * KeptDraft)) (c : Copy) : Shown :=
  let opened := readDraft kept draft_description issueKey in
  mkShown c opened (match opened with Some k => kept_doc k | None => c.2 end) false.

Definition edit (kept : list (string * KeptDraft)) (p : Shown) : list (string * KeptDraft) * Shown :=
  let '(updatedAt, doc) := sh_props p in
  (keepDraft kept draft_description issueKey doc (Some updatedAt), mkShown (sh_props p) (Some (mkKeptDraft doc (Some updatedAt))) doc false).

Definition change (kept : list (string * KeptDraft)) (p : Shown) (next : option DocNode) : list (string * KeptDraft) * Shown :=
  (keepDraft kept draft_description issueKey next (Some (startedFrom p)), mkShown (sh_props p) (sh_opened p) next (sh_overtaken p)).

Definition close (p : Shown) : Shown := mkShown (sh_props p) None (sh_draft p) false.

Definition overtake (p : Shown) : Shown := mkShown (sh_props p) (sh_opened p) (sh_draft p) true.

(** What the server makes of a save: a new copy with [stamp] if it is fresh and says something new. *)
Definition served (copies : list Copy) (s : Save) (stamp : string) : list Copy * Verdict :=
  match copies with
  | (updatedAt, doc) :: _ =>
      if CheckFresh updatedAt (Some (sv_expectedUpdatedAt s)) then ((if same (sv_description s) doc then copies else (stamp, sv_description s) :: copies), Landed)
      else (copies, StaleEdit)
  | [] => (copies, Failed)
  end.

(** The promise's two arms, run on the page that sent it if that is still there. *)
Definition heard (v : Verdict) (here : bool) (w : World) : World :=
  let page f := if here then f <$> w_page w else w_page w in
  match v with
  | Landed => mkWorld (w_copies w) (forgetDraft (w_kept w) draft_description issueKey) (page close) (w_sent w) (w_seen w)
  | StaleEdit => mkWorld (w_copies w) (w_kept w) (page overtake) (w_sent w) (w_seen w)
  | Failed => w
  end.

Inductive Event :=
  | ChangedElsewhere (stamp : string) (doc : option DocNode)   (* somebody else's edit *)
  | PageOpened (n : nat) | PageLeft | Fetched (n : nat)        (* the page is given a copy, not always the newest *)
  | EditPressed | Changed (next : option DocNode) | CancelPressed | SavePressed
  | Reached (i : nat) (stamp : string) | Lost (i : nat) | Heard (i : nat).

Definition on_page (w : World) (f : Shown → option (list (string * KeptDraft) * Shown)) : option World :=
  match w_page w with
  | Some p => match f p with Some (kept, p') => Some (mkWorld (w_copies w) kept (Some p') (w_sent w) (w_seen w)) | None => None end
  | None => None
  end.

Definition fresh_stamp (w : World) (stamp : string) : bool := bool_decide (stamp ∉ map fst (w_copies w)).

Definition happens (w : World) (e : Event) : option World :=
  match e with
  | ChangedElsewhere stamp doc => if fresh_stamp w stamp then Some (mkWorld ((stamp, doc) :: w_copies w) (w_kept w) (w_page w) (w_sent w) (w_seen w)) else None
  | PageOpened n =>
      match w_page w, w_copies w !! n with
      | None, Some c => Some (mkWorld (w_copies w) (w_kept w) (Some (opened_page (w_kept w) c)) (w_sent w) (w_seen w))
      | _, _ => None
      end
  | PageLeft => match w_page w with Some _ => Some (mkWorld (w_copies w) (w_kept w) None (map (fun s => mkSent (st_save s) false (st_verdict s)) (w_sent w)) (w_seen w)) | None => None end
  | Fetched n =>
      on_page w (fun p => match w_copies w !! n with Some c => Some (w_kept w, mkShown c (sh_opened p) (sh_draft p) (sh_overtaken p)) | None => None end)
  | EditPressed => on_page w (fun p => if editing p then None else Some (edit (w_kept w) p))
  | Changed next => on_page w (fun p => if editing p then Some (change (w_kept w) p next) else None)
  | CancelPressed => on_page w (fun p => if editing p then Some (forgetDraft (w_kept w) draft_description issueKey, close p) else None)
  | SavePressed =>
      match w_page w with
      | Some p => if editing p then Some (mkWorld (w_copies w) (w_kept w) (w_page w) (w_sent w ++ [mkSent (save_of p) true None]) (w_seen w)) else None
      | None => None
      end
  | Reached i stamp =>
      match w_sent w !! i with
      | Some (mkSent s here None) =>
          if fresh_stamp w stamp then
            let '(copies, v) := served (w_copies w) s stamp in
            Some (mkWorld copies (w_kept w) (w_page w) (<[i := mkSent s here (Some v)]> (w_sent w)) (w_seen w))
          else None
      | _ => None
      end
  | Lost i =>
      match w_sent w !! i with
      | Some (mkSent s here None) => Some (mkWorld (w_copies w) (w_kept w) (w_page w) (<[i := mkSent s here (Some Failed)]> (w_sent w)) (w_seen w))
      | _ => None
      end
  | Heard i =>
      match w_sent w !! i with
      | Some (mkSent s here (Some v)) => Some (heard v here (mkWorld (w_copies w) (w_kept w) (w_page w) (delete i (w_sent w)) (w_seen w)))
      | _ => None
      end
  end.

(** What is on screen after an event has been seen. *)
Definition look (w : World) : World :=
  mkWorld (w_copies w) (w_kept w) (w_page w) (w_sent w) (w_seen w ++ from_option on_screen [] (w_page w)).

Definition step (w : World) (e : Event) : option World := look <$> happens w e.

Fixpoint run (w : World) (es : list Event) : option World :=
  match es with [] => Some w | e :: es' => step w e ≫= (fun w' => run w' es') end.

Definition start (c : Copy) : World := mkWorld [c] [] None [] [].
End Issue.

(** ** Nothing is overwritten unseen *)

Section Facts.
Context (issueKey : string) (same : option DocNode → option DocNode → bool).

(** A time is known when the copy of that time has been on screen. *)
Definition known (seen : list Copy) (stamp : string) : Prop := ∃ doc, (stamp, doc) ∈ seen.

Definition draft_known (seen : list Copy) (k : option KeptDraft) : Prop := ∀ d, k = Some d → ∃ s, kept_startedFrom d = Some s ∧ known seen s.

(** The draft that is kept, the one the page edits and every save on its way were begun from
    a copy that has been on screen; and what has been on screen was the server's. *)
Record world_ok (w : World) : Prop := {
  ok_stamps : NoDup (map fst (w_copies w));
  ok_seen : w_seen w ⊆ w_copies w;
  ok_props : ∀ p, w_page w = Some p → sh_props p ∈ w_copies w;
  ok_kept : draft_known (w_seen w) (readDraft (w_kept w) draft_description issueKey);
  ok_opened : ∀ p, w_page w = Some p → draft_known (w_seen w) (sh_opened p);
  ok_sent : Forall (fun s => known (w_seen w) (sv_expectedUpdatedAt (st_save s))) (w_sent w);
}.

Definition all_looked (w : World) : Prop := from_option on_screen [] (w_page w) ⊆ w_seen w.

Lemma known_grows seen seen' s : seen ⊆ seen' → known seen s → known seen' s.
Proof. intros Hs [doc Hd]. exists doc. by apply Hs. Qed.

Lemma draft_known_grows seen seen' k : seen ⊆ seen' → draft_known seen k → draft_known seen' k.
Proof. intros Hs Hk d Hd. destruct (Hk d Hd) as (s & ? & ?). exists s. split; [done|]. by eapply known_grows. Qed.

Lemma draft_known_kept kept doc s seen :
  known seen s → draft_known seen (readDraft (keepDraft kept draft_description issueKey doc (Some s)) draft_description issueKey).
Proof.
  intros Hs d. pose proof (read_keep kept draft_description issueKey (mkKeptDraft doc (Some s)) draft_description issueKey) as E.
  cbn in E. rewrite E, decide_True by done. intros [= <-]. by exists s.
Qed.

Lemma draft_known_forgotten kept seen : draft_known seen (readDraft (forgetDraft kept draft_description issueKey) draft_description issueKey).
Proof. intros d. rewrite read_forget, decide_True by done. done. Qed.

Lemma shown_known w p : all_looked w → w_page w = Some p → sh_props p ∈ on_screen p → known (w_seen w) (sh_props p).1.
Proof.
  intros Hl Hp Hin. exists (sh_props p).2. rewrite <- surjective_pairing. apply Hl. by rewrite Hp.
Qed.

(** The copy a draft is measured against has been on screen. *)
Lemma started_known w p : world_ok w → w_page w = Some p → editing p = true → known (w_seen w) (startedFrom p).
Proof.
  intros Hw Hp He. apply bool_decide_eq_true in He as [k Hk]. unfold startedFrom. rewrite Hk. cbn.
  destruct (ok_opened w Hw p Hp k Hk) as (s & Hs & Hk'). by rewrite Hs.
Qed.

Lemma save_known w p : world_ok w → all_looked w → w_page w = Some p → editing p = true → known (w_seen w) (sv_expectedUpdatedAt (save_of p)).
Proof.
  intros Hw Hl Hp He. cbn. destruct (sh_overtaken p) eqn:Eo; [|by eapply started_known].
  apply shown_known; [done..|]. unfold on_screen. rewrite Eo, andb_false_r. by left.
Qed.

Lemma known_edit w p : all_looked w → w_page w = Some p → editing p = false → known (w_seen w) (sh_props p).1.
Proof. intros Hl Hp He. apply shown_known; [done..|]. unfold on_screen. rewrite He. by left. Qed.

Lemma heard_ok v here w : world_ok w → world_ok (heard issueKey v here w).
Proof.
  intros Hw. pose proof (ok_props w Hw) as Hp. pose proof (ok_opened w Hw) as Ho. destruct Hw.
  destruct v; cbn [heard]; [| |done]; split; cbn; try done; try apply draft_known_forgotten; intros p';
    (destruct here; [|by auto]); destruct (w_page w) as [p|]; try done; intros [= <-]; cbn; try (by apply Hp); try (by apply Ho); done.
Qed.

Lemma served_copies copies s stamp :
  NoDup (map fst copies) → stamp ∉ map fst copies →
  NoDup (map fst (served same copies s stamp).1) ∧ copies ⊆ (served same copies s stamp).1.
Proof.
  intros Hn Hf. unfold served. destruct copies as [|[u d] cs]; [done|]. destruct (CheckFresh _ _); [|done]. destruct (same _ _); [done|].
  split; [by constructor|]. set_solver.
Qed.

Lemma happens_ok w e w' : world_ok w → all_looked w → happens issueKey same w e = Some w' → world_ok w' ∧ w_seen w' = w_seen w.
Proof.
  intros Hw Hl. destruct e as [stamp doc|n| |n| |next| | |i stamp|i|i]; cbn [happens]; unfold on_page.
  - destruct (fresh_stamp w stamp) eqn:Ef; [|done]. apply bool_decide_eq_true in Ef. intros [= <-]. split; [|done]. destruct Hw. split; cbn; try done.
    + by constructor.
    + set_solver.
    + intros p Hp. right. auto.
  - destruct (w_page w); [done|]. destruct (w_copies w !! n) as [c|] eqn:Ec; [|done]. intros [= <-]. split; [|done]. destruct Hw. split; cbn; try done.
    + intros p [= <-]. cbn. by eapply list_elem_of_lookup_2.
    + by intros p [= <-].
  - destruct (w_page w); [|done]. intros [= <-]. split; [|done]. destruct Hw. split; cbn; try done. by apply Forall_map.
  - destruct (w_page w) as [p|] eqn:Ep; [|done]. destruct (w_copies w !! n) as [c|] eqn:Ec; [|done]. intros [= <-]. split; [|done]. destruct Hw. split; cbn; try done.
    + intros p' [= <-]. cbn. by eapply list_elem_of_lookup_2.
    + intros p' [= <-]. cbn. eauto.
  - destruct (w_page w) as [p|] eqn:Ep; [|done]. destruct (editing p) eqn:Ee; [done|]. pose proof (known_edit w p Hl Ep Ee) as Hk.
    pose proof (ok_props w Hw p Ep) as Hp. unfold edit. destruct (sh_props p) as [u d] eqn:Eq. intros [= <-]. split; [|done]. destruct Hw. split; cbn; try done.
    + by intros p' [= <-].
    + by apply draft_known_kept.
    + intros p' [= <-] k [= <-]. by exists u.
  - destruct (w_page w) as [p|] eqn:Ep; [|done]. destruct (editing p) eqn:Ee; [|done]. pose proof (started_known w p Hw Ep Ee) as Hk.
    intros [= <-]. split; [|done]. destruct Hw. split; cbn; try done.
    + intros p' [= <-]. cbn. auto.
    + by apply draft_known_kept.
    + intros p' [= <-]. cbn. auto.
  - destruct (w_page w) as [p|] eqn:Ep; [|done]. destruct (editing p) eqn:Ee; [|done]. intros [= <-]. split; [|done]. destruct Hw. split; cbn; try done.
    + intros p' [= <-]. cbn. auto.
    + apply draft_known_forgotten.
    + by intros p' [= <-].
  - destruct (w_page w) as [p|] eqn:Ep; [|done]. destruct (editing p) eqn:Ee; [|done]. pose proof (save_known w p Hw Hl Ep Ee) as Hk.
    intros [= <-]. split; [|done]. destruct Hw. split; cbn; try done.
    + intros p' [= <-]. auto.
    + intros p' [= <-]. auto.
    + apply Forall_app. split; [done|]. by apply Forall_singleton.
  - destruct (w_sent w !! i) as [[s here [v|]]|] eqn:Es; try done. destruct (fresh_stamp w stamp) eqn:Ef; [|done]. apply bool_decide_eq_true in Ef.
    pose proof (served_copies (w_copies w) s stamp (ok_stamps w Hw) Ef) as [Hn Hc]. destruct (served _ _ _ _) as [copies v]. cbn in Hn, Hc. intros [= <-]. split; [|done].
    destruct Hw. split; cbn; try done.
    + by etrans.
    + intros p Hp. apply Hc. auto.
    + apply Forall_insert; [done|]. by apply (Forall_lookup_1 _ _ _ _ ok_sent0 Es).
  - destruct (w_sent w !! i) as [[s here [v|]]|] eqn:Es; try done. intros [= <-]. split; [|done]. destruct Hw. split; cbn; try done.
    apply Forall_insert; [done|]. by apply (Forall_lookup_1 _ _ _ _ ok_sent0 Es).
  - destruct (w_sent w !! i) as [[s here [v|]]|] eqn:Es; try done. intros [= <-].
    split; [|by destruct v, here]. apply heard_ok. destruct Hw. split; cbn; try done. by apply Forall_delete.
Qed.

Lemma look_ok w : world_ok w → world_ok (look w) ∧ all_looked (look w).
Proof.
  intros Hw. assert (w_seen w ⊆ w_seen (look w)) as Hs by (cbn; set_solver). split; [|unfold all_looked; cbn; set_solver].
  destruct Hw. split; cbn [look w_copies w_page w_kept w_sent]; try done.
  - cbn. apply list_subseteq_app_iff_l. split; [done|]. destruct (w_page w) as [p|]; cbn; [|set_solver]. unfold on_screen. case_match; [set_solver|].
    intros c ->%list_elem_of_singleton. auto.
  - by eapply draft_known_grows.
  - intros p Hp. eapply draft_known_grows; eauto.
  - eapply Forall_impl; [done|]. intros s. by apply known_grows.
Qed.

Lemma run_ok w es w' : world_ok w → all_looked w → run issueKey same w es = Some w' → world_ok w' ∧ all_looked w'.
Proof.
  revert w. induction es as [|e es IH]; intros w Hw Hl; cbn; [by intros [= ->]|].
  unfold step. destruct (happens issueKey same w e) as [w1|] eqn:Eh; [|done]. cbn. destruct (happens_ok w e w1 Hw Hl Eh) as [Hw1 _].
  apply IH; by apply look_ok.
Qed.

Lemma start_ok c : world_ok (start c) ∧ all_looked (start c).
Proof. split; [|by intros ? ?]. split; cbn; try done; try (by apply NoDup_singleton). intros ? []%elem_of_nil. Qed.
End Facts.

(** C6: however edits, saves and the copies a page is given follow each other, a save that
    replaces a copy of an issue replaces one that has been on the screen of the person whose
    words replace it: nobody's edit is lost without anybody having seen it. *)
Theorem nothing_overwritten_unseen issueKey same c es w i stamp w' :
  run issueKey same (start c) es = Some w → step issueKey same w (Reached i stamp) = Some w' → w_copies w' ≠ w_copies w →
  ∃ replaced, head (w_copies w) = Some replaced ∧ replaced ∈ w_seen w.
Proof.
  intros Hr Hs Hne. destruct (start_ok issueKey c) as [H0 L0]. destruct (run_ok issueKey same _ es w H0 L0 Hr) as [Hw Hl].
  unfold step in Hs. cbn in Hs. destruct (w_sent w !! i) as [[s here [v|]]|] eqn:Es; try done. destruct (fresh_stamp w stamp); [|done].
  destruct (served same (w_copies w) s stamp) as [copies v] eqn:Ev. injection Hs as <-. cbn in Hne.
  unfold served in Ev. destruct (w_copies w) as [|[u d] cs] eqn:Ec; [congruence|]. destruct (CheckFresh _ _) eqn:Ef; [|congruence].
  apply bool_decide_eq_true in Ef. pose proof (Forall_lookup_1 _ _ _ _ (ok_sent issueKey w Hw) Es) as [doc Hdoc]. cbn in Hdoc. rewrite Ef in Hdoc.
  exists (u, d). split; [done|]. pose proof (ok_seen issueKey w Hw _ Hdoc) as Hin. pose proof (ok_stamps issueKey w Hw) as Hn.
  rewrite Ec in Hin, Hn. apply elem_of_cons in Hin as [[= ->]|Hin]; [done|].
  cbn in Hn. apply NoDup_cons in Hn as [Hu _]. destruct Hu. apply list_elem_of_fmap. by exists (u, doc).
Qed.

(** *** Two people at one description *)

Definition prose_doc (s : string) : DocNode := mkDocNode "doc" None None None (Some [paragraph_node [text_node s []]]).

(** Documents that are written alike, which is close enough to the database's own equality. *)
Definition written_alike (a b : option DocNode) : bool := bool_decide (docToMarkdown a = docToMarkdown b).

Definition my_words : option DocNode := Some (prose_doc "mine").
Definition their_words : option DocNode := Some (prose_doc "theirs").

(** I begin to write, they save first, my save is refused, I am shown what they wrote and
    save again. *)
Definition overtaken_run : list Event :=
  [PageOpened 0; EditPressed; Changed my_words; ChangedElsewhere "t1" their_words; SavePressed; Reached 0 "t2"; Heard 0; Fetched 0; SavePressed].

Lemma nothing_overwritten_unseen_witness :
  ∃ w w', run "TAB-1" written_alike (start ("t0"%string, None)) overtaken_run = Some w ∧ step "TAB-1" written_alike w (Reached 0 "t3") = Some w' ∧
  w_copies w' = [("t3"%string, my_words); ("t1"%string, their_words); ("t0"%string, None)] ∧ ∃ replaced, head (w_copies w) = Some replaced ∧ replaced ∈ w_seen w.
Proof.
  eexists _, _. split; [vm_compute; reflexivity|]. split; [vm_compute; reflexivity|]. split; [vm_compute; reflexivity|].
  eapply (nothing_overwritten_unseen "TAB-1" written_alike ("t0"%string, None) overtaken_run _ 0%nat "t3"); [vm_compute; reflexivity..|]. vm_compute. discriminate.
Defined.

(** Without the newer copy at hand a second try is refused like the first. *)
Example refused_until_read :
  match run "TAB-1" written_alike (start ("t0"%string, None)) [PageOpened 0; EditPressed; Changed my_words; ChangedElsewhere "t1" their_words; SavePressed; Reached 0 "t2"; Heard 0; SavePressed; Reached 0 "t2"] with
  | Some w => map fst (w_copies w) = ["t1"; "t0"]%string ∧ map st_verdict (w_sent w) = [Some StaleEdit]
  | None => False
  end.
Proof. vm_compute. split; reflexivity. Qed.

(** ** What the page does to what is being written *)

(** A draft left on the issue reopens the editor with the words it had and the copy they
    were begun from. *)
Lemma draft_reopens issueKey kept p next c :
  editing p = true → let '(kept', _) := change issueKey kept p next in
  let p' := opened_page issueKey kept' c in editing p' = true ∧ sh_draft p' = next ∧ startedFrom p' = startedFrom p.
Proof.
  intros He. cbn. unfold opened_page. pose proof (read_keep kept draft_description issueKey (mkKeptDraft next (Some (startedFrom p))) draft_description issueKey) as E.
  cbn in E. rewrite E, decide_True by done. split_and!; [|done..]. apply bool_decide_eq_true. by eexists.
Qed.

(** A save that lands takes what was written since along: the words are neither sent nor kept. *)
Example written_while_saving_lost :
  match run "TAB-1" written_alike (start ("t0"%string, None)) [PageOpened 0; EditPressed; Changed my_words; SavePressed; Changed their_words; Reached 0 "t1"; Heard 0] with
  | Some w => w_copies w = [("t1"%string, my_words); ("t0"%string, None)] ∧ readDraft (w_kept w) draft_description "TAB-1" = None ∧ (editing <$> w_page w) = Some false
  | None => False
  end.
Proof. vm_compute. split_and!; reflexivity. Qed.

(** So does one whose editing was given up and begun anew in the meantime. *)
Example late_save_ends_new_edit :
  match run "TAB-1" written_alike (start ("t0"%string, None)) [PageOpened 0; EditPressed; Changed my_words; SavePressed; CancelPressed; EditPressed; Changed their_words; Reached 0 "t1"; Heard 0] with
  | Some w => readDraft (w_kept w) draft_description "TAB-1" = None ∧ (editing <$> w_page w) = Some false
  | None => False
  end.
Proof. vm_compute. split; reflexivity. Qed.
