(* ===== verification/Editor.v ===== *)
(** The editor of documents, one with two faces: [web/src/features/editor/Editor.tsx].

    The rich face is a library's; what it makes of a document it is given, and of blocks put
    at its end, are arguments.  The editors of a page are a list, because a switch of one
    changes the face of them all. *)

From Stdlib Require Import ZArith Lia Ascii String.
From stdpp Require Import base list strings.
From S2P Require Import Prelude JsString Api Markdown MarkdownTrip Preferences.

Open Scope Z_scope.

Definition emptyDoc : DocNode := mkDocNode "doc" None None None (Some [mkDocNode "paragraph" None None None None]).

(** A document that says nothing is told as none. *)
Definition said (d : DocNode) : option DocNode := if isEmptyDoc (Some d) then None else Some d.

(** An editor: its face, the text of the markdown one, the document of the rich one, and
    what its form was told last. *)
Record Editor := mkEditor { ed_mode : EditorMode; ed_text : string; ed_rich : DocNode; ed_told : option DocNode }.

Section Library.
Context (laid : DocNode → DocNode) (inserted : DocNode → list DocNode → DocNode).

Definition opened (mode : EditorMode) (value : option DocNode) : Editor :=
  mkEditor mode (docToMarkdown value) (laid (default emptyDoc value)) value.

Inductive EditorEvent :=
  | RichChanged (d : DocNode) | TextTyped (s : string) | Inserted (markdown : string) | Cleared | Switched (next : EditorMode).

(** [insertMarkdown] of the handle, in the markdown face. *)
Definition text_with (text markdown : string) : string := if truthy (trim text) then text +:+ line_feed_s +:+ markdown else markdown.

(** [switchTo]: the draft is converted to the face that is chosen. *)
Definition switchTo (next : EditorMode) (e : Editor) : Editor :=
  if decide (next = ed_mode e) then e
  else match next with
    | mode_markdown => mkEditor next (docToMarkdown (Some (ed_rich e))) (ed_rich e) (ed_told e)
    | mode_rich => let doc := markdownToDoc (ed_text e) in mkEditor next (ed_text e) (laid (default emptyDoc doc)) doc
    end.

(** One event of an editor, [None] where the face it is of is not shown. *)
Definition editor_step (e : Editor) (ev : EditorEvent) : option Editor :=
  match ev, ed_mode e with
  | RichChanged d, mode_rich => Some (mkEditor mode_rich (ed_text e) d (said d))
  | RichChanged _, mode_markdown => None
  | TextTyped s, mode_markdown => Some (mkEditor mode_markdown s (ed_rich e) (markdownToDoc s))
  | TextTyped _, mode_rich => None
  | Inserted markdown, mode_markdown =>
      let next := text_with (ed_text e) markdown in Some (mkEditor mode_markdown next (ed_rich e) (markdownToDoc next))
  | Inserted markdown, mode_rich =>
      match markdownToDoc markdown with
      | Some doc => let d := inserted (ed_rich e) (default [] (node_content doc)) in Some (mkEditor mode_rich (ed_text e) d (said d))
      | None => Some e
      end
  | Cleared, mode => Some (mkEditor mode EmptyString emptyDoc None)
  | Switched next, _ => Some (switchTo next e)
  end.

(** The editors of a page: a switch of one is heard by all, and the others change their face
    and nothing else. *)
Definition with_mode (next : EditorMode) (e : Editor) : Editor := mkEditor next (ed_text e) (ed_rich e) (ed_told e).

Definition page_step (page : list Editor) (at_ : nat * EditorEvent) : option (list Editor) :=
  match page !! at_.1 with
  | None => None
  | Some e =>
      match editor_step e at_.2 with
      | None => None
      | Some e' =>
          let page' := <[at_.1 := e']> page in
          Some (match at_.2 with Switched next => if decide (next = ed_mode e) then page' else map (with_mode next) page' | _ => page' end)
      end
  end.

Fixpoint page_run (page : list Editor) (evs : list (nat * EditorEvent)) : option (list Editor) :=
  match evs with [] => Some page | ev :: evs' => page_step page ev ≫= (fun page' => page_run page' evs') end.

(** What the face that is shown says. *)
Definition shows (e : Editor) : option DocNode := match ed_mode e with mode_rich => said (ed_rich e) | mode_markdown => markdownToDoc (ed_text e) end.

(** ** The list an at sign opens *)

Record Suggesting := mkSuggesting { sg_items : list (string * string); sg_active : nat }.

Inductive ListKey := KeyDown | KeyUp | KeyPick | KeyEscape | KeyOther.

(** What a key does there: whether it is taken, the list after it, and who is named. *)
Definition keyInList (s : option Suggesting) (key : ListKey) : bool * option Suggesting * option (string * string) :=
  match s with
  | None => (false, s, None)
  | Some (mkSuggesting [] _) => (false, s, None)
  | Some (mkSuggesting items active) =>
      let n := length items in
      match key with
      | KeyDown => (true, Some (mkSuggesting items ((active + 1 + n) mod n)), None)
      | KeyUp => (true, Some (mkSuggesting items ((active + n - 1) mod n)), None)
      | KeyPick => (true, s, items !! active)
      | KeyEscape => (true, None, None)
      | KeyOther => (false, s, None)
      end
  end.

(** The lines the markdown face is high. *)
Definition face_lines (rows : nat) (text : string) : nat := Nat.max rows (length (split line_feed text) + 1).

(** ** Nothing typed is lost *)

(** What a document says, written out; two documents are alike when they say the same. *)
Definition words (d : option DocNode) : string := if isEmptyDoc d then EmptyString else docToMarkdown d.

(** The library lays a document out with attributes of its own, and says what it said. *)
Context (Hlaid : ∀ d, words (Some (laid d)) = words (Some d)).




Lemma words_none : words None = EmptyString. Proof. done. Qed.








End Library.



Definition with_attrs (d : DocNode) : DocNode := mkDocNode (node_type d) (node_text d) (Some []) (node_marks d) (node_content d).

Definition appended (d : DocNode) (blocks : list DocNode) : DocNode :=
  mkDocNode (node_type d) (node_text d) (node_attrs d) (node_marks d) (Some (default [] (node_content d) ++ blocks)).




(** Text with two marks is not such a document: there and back tears it, and the form is
    told so. *)
Lemma switching_tears :
  match page_run with_attrs appended [opened with_attrs mode_rich None] (map (pair O) [RichChanged bold_italic; Switched mode_markdown; Switched mode_rich]) with
  | Some [e] => ed_told e = Some (doc_of [paragraph_node [marked "bold" "*a"; prose_of "*"]])
  | _ => False
  end.
Proof. vm_compute. reflexivity. Qed.

(** ** Two editors on one page *)

(** An editor whose face another one changed shows what it was opened with: a comment is
    typed, the description above it is turned to markdown, and the comment's box is empty.
    The next letter typed there takes the place of all that was told before. *)
Definition hello : DocNode := doc_of [paragraph_node [prose_of "hello"]].

Example other_switch_hides :
  match page_run with_attrs appended [opened with_attrs mode_rich None; opened with_attrs mode_rich None] [(1%nat, RichChanged hello); (0%nat, Switched mode_markdown)] with
  | Some [_; comment] => ed_told comment = Some hello ∧ shows comment = None ∧
      match page_step with_attrs appended [opened with_attrs mode_markdown None; comment] (1%nat, TextTyped "x") with
      | Some [_; comment'] => docToMarkdown (ed_told comment') = "x"%string
      | _ => False
      end
  | _ => False
  end.
Proof. vm_compute. split_and!; reflexivity. Qed.

(** Every editor of a page shows one face, whichever was switched. *)
Lemma page_one_face laid inserted page page' mode at_ :
  Forall (fun e => ed_mode e = mode) page → page_step laid inserted page at_ = Some page' → ∃ mode', Forall (fun e => ed_mode e = mode') page'.
Proof.
  intros Hall. unfold page_step. destruct at_ as [i ev]. cbn [fst snd]. destruct (page !! i) as [e|] eqn:Ei; [|done].
  pose proof (Forall_lookup_1 _ _ _ _ Hall Ei) as Hm. cbn in Hm. destruct (editor_step laid inserted e ev) as [e'|] eqn:Ee; [|done]. intros [= <-].
  assert (ed_mode e' = match ev with Switched next => next | _ => mode end) as He'.
  { destruct ev; cbn in Ee; try rewrite Hm in Ee; destruct mode; try done; try by injection Ee as <-.
    - destruct (markdownToDoc markdown); by injection Ee as <-.
    - injection Ee as <-. unfold switchTo. rewrite Hm. by destruct next.
    - injection Ee as <-. unfold switchTo. rewrite Hm. by destruct next. }
  destruct ev as [| | | |next]; try (exists mode; by apply Forall_insert).
  exists next. destruct (decide (next = ed_mode e)) as [Hn|].
  - apply Forall_insert; [|done]. eapply Forall_impl; [done|]. cbn. intros x Hx. by rewrite Hn, Hx.
  - apply Forall_map, Forall_forall. done.
Qed.

(** ** The list an at sign opens *)

(** A key never leaves the list: whoever is marked is in it, and picking names them. *)
Definition marked_in (s : option Suggesting) : Prop := match s with Some (mkSuggesting items active) => items ≠ [] → (active < length items)%nat | None => True end.

Lemma key_stays_in_list s key : marked_in s → marked_in (keyInList s key).1.2.
Proof.
  destruct s as [[[|i items] active]|]; [done| |done]. intros Hm. specialize (Hm ltac:(done)).
  destruct key; cbn [keyInList fst snd marked_in]; try done; intros _; by apply Nat.mod_upper_bound.
Qed.

Lemma pick_names s : marked_in s → match s with Some (mkSuggesting (_ :: _) _) => is_Some (keyInList s KeyPick).2 | _ => True end.
Proof. destruct s as [[[|i items] active]|]; [done| |done]. intros Hm. cbn [keyInList snd]. apply lookup_lt_is_Some. by apply Hm. Qed.

(** Down and up undo each other. *)
Lemma down_up s : marked_in s → match s with Some (mkSuggesting (_ :: _) _) => (keyInList (keyInList s KeyDown).1.2 KeyUp).1.2 = s | _ => True end.
Proof.
  destruct s as [[[|i items] active]|]; [done| |done]. intros Hm. specialize (Hm ltac:(done)). cbn [keyInList fst snd]. do 2 f_equal.
  set (n := length (i :: items)) in *. assert (n ≠ 0)%nat by (subst n; cbn; lia).
  destruct (decide (active + 1 = n)%nat) as [Hw|Hw].
  - replace (active + 1 + n)%nat with (2 * n)%nat by lia. rewrite Nat.Div0.mod_mul. rewrite Nat.mod_small by lia. lia.
  - replace (active + 1 + n)%nat with (active + 1 + 1 * n)%nat by lia. rewrite Nat.Div0.mod_add, (Nat.mod_small (active + 1)) by lia.
    replace (active + 1 + n - 1)%nat with (active + 1 * n)%nat by lia. rewrite Nat.Div0.mod_add. by apply Nat.mod_small.
Qed.
