(* ===== verification/Conversation.v ===== *)
(** The conversation on an issue: [web/src/features/issues/IssueActivity.tsx] over
    [drafts.ts] and the editor.

    The form, the draft kept for the tab and the comments on their way are one state; the
    form of a page that was left is gone, its comment is not. *)

From Stdlib Require Import ZArith Lia Ascii String.
From stdpp Require Import base list strings.
From S2P Require Import Prelude JsString Config Api DayText Markdown MarkdownTrip IssueForms Preferences Kit Editor.

Open Scope Z_scope.

(** ** What is drawn *)

Record Comment := mkComment { comment_id : string; comment_author : option string; comment_createdAt : string; comment_internal : bool }.

Section Drawn.
Context `{!Collation}.

(** Oldest first. *)
Definition inOrder (entries : list Comment) : list Comment := sort_by (cmp_on comment_createdAt localeCompare) entries.

(** The last ones, until all are asked for; and whether there is a button for all. *)
Definition drawn (expanded : bool) (entries : list Comment) : list Comment :=
  let comments := inOrder entries in if expanded then comments else slice_last ACTIVITY_FOLD comments.
Definition offers_all (expanded : bool) (entries : list Comment) : bool := (length (drawn expanded entries) <? length (inOrder entries))%nat.
End Drawn.

(** [issueKey.slice(0, issueKey.lastIndexOf("-"))]: without a dash the last unit goes. *)
Fixpoint before_last (u : ascii) (s : string) : option string :=
  match s with
  | EmptyString => None
  | String c s' => match before_last u s' with Some p => Some (String c p) | None => if decide (c = u) then Some EmptyString else None end
  end.

Definition projectOf (issueKey : string) : string := default (sliceTo (String.length issueKey - 1) issueKey) (before_last "-" issueKey).

(** What is offered of a comment: its author rewrites it, whoever administers may take it down. *)
Definition mine_of (me : option string) (c : Comment) : bool := match me with Some _ => bool_decide (comment_author c = me) | None => false end.
Definition comment_buttons (me : option string) (administers editing : bool) (c : Comment) : bool * bool :=
  if negb editing && (mine_of me c || administers) then (mine_of me c, true) else (false, false).

(** ** The form *)

(** A comment on its way: a note between agents or not, what it says, and whether the form
    that sent it is still there. *)
Record Post := mkPost { po_note : bool; po_body : DocNode; po_here : bool }.

Record Form := mkForm { fm_editor : Editor; fm_internal : bool; fm_posting : bool }.

Record Talk := mkTalk { tk_kept : list (string * KeptDraft); tk_form : option Form; tk_posts : list Post }.

Section Form.
Context (laid : DocNode → DocNode) (inserted : DocNode → list DocNode → DocNode) (issueKey : string).

(** [change]: what is written is kept, and forgotten when it says nothing. *)
Definition change (kept : list (string * KeptDraft)) (next : option DocNode) : list (string * KeptDraft) :=
  match next with Some d => keepDraft kept draft_comment issueKey (Some d) None | None => forgetDraft kept draft_comment issueKey end.

(** Whether the editor tells its form of an event. *)
Definition tells (e : Editor) (ev : EditorEvent) : bool :=
  match ev, ed_mode e with
  | Inserted markdown, mode_rich => bool_decide (is_Some (markdownToDoc markdown))
  | Switched mode_rich, mode_markdown => true
  | Switched _, _ => false
  | _, _ => true
  end.

Inductive TalkEvent :=
  | Came (mode : EditorMode) | Left | Wrote (ev : EditorEvent) | FaceChanged (next : EditorMode) | InternalTicked (internal : bool)
  | PostPressed | Landed (i : nat) | Refused (i : nat).

Definition told_kept (kept : list (string * KeptDraft)) : option DocNode := readDraft kept draft_comment issueKey ≫= kept_doc.

Definition on_form (s : Talk) (f : Form → option Talk) : option Talk := match tk_form s with Some fm => f fm | None => None end.

(** The request's two ends, run on the form that sent it if it is still there. *)
Definition landed (here : bool) (s : Talk) : Talk :=
  let kept := forgetDraft (tk_kept s) draft_comment issueKey in
  match here, tk_form s with
  | true, Some fm => mkTalk (change kept None) (Some (mkForm (mkEditor (ed_mode (fm_editor fm)) EmptyString emptyDoc None) (fm_internal fm) false)) (tk_posts s)
  | _, _ => mkTalk kept (tk_form s) (tk_posts s)
  end.

Definition refused (here : bool) (s : Talk) : Talk :=
  match here, tk_form s with
  | true, Some fm => mkTalk (tk_kept s) (Some (mkForm (fm_editor fm) (fm_internal fm) false)) (tk_posts s)
  | _, _ => s
  end.

Definition talk_step (s : Talk) (ev : TalkEvent) : option Talk :=
  match ev with
  | Came mode => match tk_form s with Some _ => None | None => Some (mkTalk (tk_kept s) (Some (mkForm (opened laid mode (told_kept (tk_kept s))) false false)) (tk_posts s)) end
  | Left => on_form s (fun _ => Some (mkTalk (tk_kept s) None (map (fun p => mkPost (po_note p) (po_body p) false) (tk_posts s))))
  | Wrote ev =>
      on_form s (fun fm =>
        match editor_step laid inserted (fm_editor fm) ev with
        | None => None
        | Some e => Some (mkTalk (if tells (fm_editor fm) ev then change (tk_kept s) (ed_told e) else tk_kept s) (Some (mkForm e (fm_internal fm) (fm_posting fm))) (tk_posts s))
        end)
  | FaceChanged next => on_form s (fun fm => Some (mkTalk (tk_kept s) (Some (mkForm (with_mode next (fm_editor fm)) (fm_internal fm) (fm_posting fm))) (tk_posts s)))
  | InternalTicked internal => on_form s (fun fm => Some (mkTalk (tk_kept s) (Some (mkForm (fm_editor fm) internal (fm_posting fm))) (tk_posts s)))
  | PostPressed =>
      on_form s (fun fm =>
        match ed_told (fm_editor fm) with
        | Some body => if fm_posting fm then Some s else Some (mkTalk (tk_kept s) (Some (mkForm (fm_editor fm) (fm_internal fm) true)) (tk_posts s ++ [mkPost (fm_internal fm) body true]))
        | None => Some s
        end)
  | Landed i => match tk_posts s !! i with Some p => Some (landed (po_here p) (mkTalk (tk_kept s) (tk_form s) (delete i (tk_posts s)))) | None => None end
  | Refused i => match tk_posts s !! i with Some p => Some (refused (po_here p) (mkTalk (tk_kept s) (tk_form s) (delete i (tk_posts s)))) | None => None end
  end.

Fixpoint talk_run (s : Talk) (evs : list TalkEvent) : option Talk :=
  match evs with [] => Some s | ev :: evs' => talk_step s ev ≫= (fun s' => talk_run s' evs') end.

Definition talk_start : Talk := mkTalk [] None [].

(** ** One comment at a time, and the words kept *)

Definition here_posts (s : Talk) : list Post := filter (fun p => po_here p = true) (tk_posts s).

(** A form that waits has one comment on its way, any other none. *)
Definition one_at_a_time (s : Talk) : Prop :=
  length (here_posts s) = match tk_form s with Some fm => if fm_posting fm then 1%nat else 0%nat | None => 0%nat end.

(** Every comment on its way is that of the form, and the draft that is kept is what the form
    was told. *)
Definition words_kept (s : Talk) : Prop :=
  Forall (fun p => po_here p = true) (tk_posts s) ∧ (tk_form s = None → tk_posts s = []) ∧ ∀ fm, tk_form s = Some fm → told_kept (tk_kept s) = ed_told (fm_editor fm).

Lemma told_change kept next : told_kept (change kept next) = next.
Proof.
  unfold told_kept, change. destruct next as [d|]; [|by rewrite read_forget, decide_True].
  pose proof (read_keep kept draft_comment issueKey (mkKeptDraft (Some d) None) draft_comment issueKey) as E. cbn in E. by rewrite E, decide_True.
Qed.

Lemma told_forgotten kept : told_kept (forgetDraft kept draft_comment issueKey) = None.
Proof. unfold told_kept. by rewrite read_forget, decide_True. Qed.

(** What the editor does not tell leaves what it told last. *)
Lemma untold_same e ev e' : editor_step laid inserted e ev = Some e' → tells e ev = false → ed_told e' = ed_told e.
Proof.
  destruct ev as [d|s|markdown| |next]; cbn; destruct (ed_mode e) eqn:Em; try done.
  - destruct (markdownToDoc markdown); [done|]. by intros [= <-].
  - intros [= <-] _. unfold switchTo. rewrite Em. by destruct next.
  - destruct next; [done|]. intros [= <-] _. unfold switchTo. by rewrite Em.
Qed.

Lemma delete_here (l : list Post) i p :
  l !! i = Some p → length (filter (fun p => po_here p = true) l) = (length (filter (fun p => po_here p = true) (delete i l)) + (if po_here p then 1 else 0))%nat.
Proof.
  revert i. induction l as [|x l IH]; intros [|i] Hi; try done.
  - injection Hi as ->. change (delete 0%nat (p :: l)) with l. rewrite filter_cons. destruct (po_here p); [rewrite decide_True by done|rewrite decide_False by done]; cbn [length]; lia.
  - change (delete (S i) (x :: l)) with (x :: delete i l). rewrite !filter_cons. specialize (IH i Hi). case_decide; cbn [length]; lia.
Qed.

Lemma on_form_inv s f s' : on_form s f = Some s' → ∃ fm, tk_form s = Some fm ∧ f fm = Some s'.
Proof. unfold on_form. destruct (tk_form s) as [fm|]; [by exists fm|done]. Qed.

Lemma talk_one_at_a_time s ev s' : one_at_a_time s → talk_step s ev = Some s' → one_at_a_time s'.
Proof.
  unfold one_at_a_time. intros Hn. destruct ev as [mode| |e|next|internal| |i|i]; cbn [talk_step].
  - destruct (tk_form s) eqn:Ef; [done|]. by intros [= <-].
  - intros (fm & Ef & [= <-])%on_form_inv. unfold here_posts. cbn [tk_posts tk_form].
    enough (filter (fun p => po_here p = true) (map (fun p => mkPost (po_note p) (po_body p) false) (tk_posts s)) = []) as -> by done.
    induction (tk_posts s) as [|p l IH]; [done|]. cbn [map]. rewrite filter_cons_False by done. done.
  - intros (fm & Ef & H)%on_form_inv. rewrite Ef in Hn. destruct (editor_step laid inserted (fm_editor fm) e); [|done]. by injection H as <-.
  - intros (fm & Ef & [= <-])%on_form_inv. by rewrite Ef in Hn.
  - intros (fm & Ef & [= <-])%on_form_inv. by rewrite Ef in Hn.
  - intros (fm & Ef & H)%on_form_inv. destruct (ed_told (fm_editor fm)) as [body|]; [|by injection H as <-].
    destruct (fm_posting fm) eqn:Ep; [by injection H as <-|]. injection H as <-. rewrite Ef, Ep in Hn. unfold here_posts in *. cbn [tk_posts tk_form fm_posting].
    rewrite filter_app, length_app, Hn. done.
  - destruct (tk_posts s !! i) as [p|] eqn:Ei; [|done]. intros [= <-]. unfold here_posts in *. rewrite (delete_here _ _ _ Ei) in Hn.
    unfold landed. cbn [tk_form tk_posts tk_kept]. destruct (po_here p), (tk_form s) as [fm|]; cbn [tk_form tk_posts fm_posting]; try destruct (fm_posting fm); lia.
  - destruct (tk_posts s !! i) as [p|] eqn:Ei; [|done]. intros [= <-]. unfold here_posts in *. rewrite (delete_here _ _ _ Ei) in Hn.
    unfold refused. cbn [tk_form tk_posts tk_kept]. destruct (po_here p), (tk_form s) as [fm|]; cbn [tk_form tk_posts fm_posting]; try destruct (fm_posting fm); lia.
Qed.

(** A page that is not left while a comment is on its way. *)
Definition stays (s : Talk) (ev : TalkEvent) : Prop := ev = Left → tk_posts s = [].

Lemma talk_words_kept s ev s' : words_kept s → stays s ev → talk_step s ev = Some s' → words_kept s'.
Proof.
  intros (Hh & Hn & Hk) Hs. destruct ev as [mode| |e|next|internal| |i|i]; cbn [talk_step].
  - destruct (tk_form s) eqn:Ef; [done|]. intros [= <-]. split_and!; cbn [tk_posts tk_form tk_kept]; [done..|]. by intros fm [= <-].
  - intros (fm & Ef & [= <-])%on_form_inv. rewrite (Hs eq_refl). split_and!; cbn [tk_posts tk_form tk_kept]; [constructor|done|done].
  - intros (fm & Ef & H)%on_form_inv. destruct (editor_step laid inserted (fm_editor fm) e) as [e'|] eqn:Ee; [|done]. injection H as <-.
    split_and!; cbn [tk_posts tk_form tk_kept]; [done..|]. intros fm' [= <-]. cbn [fm_editor]. destruct (tells (fm_editor fm) e) eqn:Et; [by rewrite told_change|].
    rewrite (untold_same _ _ _ Ee Et). exact (Hk fm Ef).
  - intros (fm & Ef & [= <-])%on_form_inv. split_and!; cbn [tk_posts tk_form tk_kept]; [done..|]. intros fm' [= <-]; exact (Hk fm Ef).
  - intros (fm & Ef & [= <-])%on_form_inv. split_and!; cbn [tk_posts tk_form tk_kept]; [done..|]. intros fm' [= <-]; exact (Hk fm Ef).
  - intros (fm & Ef & H)%on_form_inv. destruct (ed_told (fm_editor fm)) as [body|] eqn:Et; [|by injection H as <-].
    destruct (fm_posting fm); [by injection H as <-|]. injection H as <-. split_and!; cbn [tk_posts tk_form tk_kept]; [|done|].
    + apply Forall_app. split; [done|]. by apply Forall_singleton.
    + intros fm' [= <-]; exact (Hk fm Ef).
  - destruct (tk_posts s !! i) as [p|] eqn:Ei; [|done]. intros [= <-]. pose proof (Forall_lookup_1 _ _ _ _ Hh Ei) as Hp. cbn in Hp. rewrite Hp.
    destruct (tk_form s) as [fm|] eqn:Ef; [|by rewrite Hn in Ei]. unfold landed. cbn [tk_form tk_posts tk_kept].
    split_and!; cbn [tk_posts tk_form tk_kept]; [by apply Forall_delete|done|]. intros fm' [= <-]. by rewrite told_change.
  - destruct (tk_posts s !! i) as [p|] eqn:Ei; [|done]. intros [= <-]. pose proof (Forall_lookup_1 _ _ _ _ Hh Ei) as Hp. cbn in Hp. rewrite Hp.
    destruct (tk_form s) as [fm|] eqn:Ef; [|by rewrite Hn in Ei]. unfold refused. cbn [tk_form tk_posts tk_kept].
    split_and!; cbn [tk_posts tk_form tk_kept]; [by apply Forall_delete|done|]. intros fm' [= <-]; exact (Hk fm eq_refl).
Qed.

(** What was written waits: the form of a page that is left and come back to is told what
    the one before it was. *)
Lemma words_wait s mode s1 s2 fm :
  words_kept s → tk_posts s = [] → tk_form s = Some fm → talk_step s Left = Some s1 → talk_step s1 (Came mode) = Some s2 →
  (ed_told ∘ fm_editor) <$> tk_form s2 = Some (ed_told (fm_editor fm)).
Proof.
  intros (_ & _ & Hk) Hp Ef H1 H2. cbn in H1. unfold on_form in H1. rewrite Ef in H1. injection H1 as <-. cbn in H2. injection H2 as <-. exact (f_equal Some (Hk fm Ef)).
Qed.
End Form.

(** ** Facts about what is drawn *)

Lemma before_last_app u p s : string_forall (fun c => negb (bool_decide (c = u))) s = true → before_last u (p +:+ String u s) = Some p.
Proof.
  intros Hs. assert (before_last u s = None) as Hn.
  { induction s as [|c s IH]; [done|]. cbn [string_forall before_last] in *. apply andb_true_iff in Hs as [Hc Hs]. rewrite IH by done.
    rewrite decide_False; [done|]. by apply negb_true_iff, bool_decide_eq_false in Hc. }
  induction p as [|c p IH]; cbn; [by rewrite Hn, decide_True|]. by rewrite IH.
Qed.

(** An issue's key is its project's, a dash and a number; the project's may hold dashes too. *)
Lemma projectOf_key project n : 0 <= n → projectOf (project +:+ "-" +:+ digits n) = project.
Proof.
  intros Hn. unfold projectOf. change ("-" +:+ digits n) with (String "-" (digits n)). rewrite before_last_app; [done|].
  by apply digits_no_dash, digits_all.
Qed.

(** ** What is lost *)

Definition laid_as_given (d : DocNode) : DocNode := d.

(** Words written while a comment is sent are emptied out of the form when it lands. *)
Example written_while_posting_gone :
  match talk_run laid_as_given appended "TAB-1" talk_start [Came mode_markdown; Wrote (TextTyped "first"); PostPressed; Wrote (TextTyped "second"); Landed 0] with
  | Some s => (ed_told ∘ fm_editor) <$> tk_form s = Some None ∧ told_kept "TAB-1" (tk_kept s) = None
  | None => False
  end.
Proof. vm_compute. split; reflexivity. Qed.

(** A page left and come back to while its comment is on its way offers the comment again,
    and sends it a second time. *)
Example comment_sent_twice :
  match talk_run laid_as_given appended "TAB-1" talk_start [Came mode_markdown; Wrote (TextTyped "first"); PostPressed; Left; Came mode_markdown; PostPressed] with
  | Some s => map (docToMarkdown ∘ Some ∘ po_body) (tk_posts s) = ["first"; "first"]%string
  | None => False
  end.
Proof. vm_compute. reflexivity. Qed.

(** And when the first has landed, what was written since is no longer kept, though it stands
    in the form. *)
Example away_landing_forgets :
  match talk_run laid_as_given appended "TAB-1" talk_start [Came mode_markdown; Wrote (TextTyped "first"); PostPressed; Left; Came mode_markdown; Wrote (TextTyped "second"); Landed 0; Left; Came mode_markdown] with
  | Some s => (ed_told ∘ fm_editor) <$> tk_form s = Some None
  | None => False
  end.
Proof. vm_compute. reflexivity. Qed.
