(* ===== verification/Releases.v ===== *)
(** What a project ships and heads for: [web/src/features/versions/ReleaseList.tsx] and
    [ComponentList.tsx], [features/milestones/MilestoneList.tsx], [MilestoneField.tsx] and
    [api/milestones.ts].

    The forms are state machines of what they hold; the versions, parts and milestones are
    the server's, and arguments. *)

From Stdlib Require Import ZArith QArith Lia Ascii String.
From stdpp Require Import base list strings.
From S2P Require Import Prelude JsString JsDate DayText Config PlanPieces Markdown.

Open Scope Z_scope.

(** ** Versions *)

Record Version := mkVersion {
  ver_id : string; ver_name : string; ver_description : option string; ver_startOn : option string; ver_releaseOn : option string;
  ver_releasedAt : option string; ver_archivedAt : option string;
}.

Inductive View := unreleased | released | archived.

#[export] Instance View_eq : EqDecision View.
Proof. solve_decision. Defined.

(** [Boolean(v.releasedAt)]. *)
Definition said_when (s : option string) : bool := from_option truthy false s.

Definition inView (v : Version) (view : View) : bool :=
  match view with
  | archived => said_when (ver_archivedAt v)
  | _ => if said_when (ver_archivedAt v) then false
         else match view with released => said_when (ver_releasedAt v) | _ => negb (said_when (ver_releasedAt v)) end
  end.

(** The word on a version's row. *)
Definition version_state (v : Version) : View :=
  if said_when (ver_archivedAt v) then archived else if said_when (ver_releasedAt v) then released else unreleased.

Inductive VersionAction := act_notes | act_unrelease | act_release | act_edit | act_archive | act_delete.

Definition version_menu (canPlan : bool) (v : Version) : list VersionAction :=
  act_notes ::
  (if canPlan && negb (said_when (ver_archivedAt v)) then [if said_when (ver_releasedAt v) then act_unrelease else act_release; act_edit] else []) ++
  (if canPlan && said_when (ver_releasedAt v) && negb (said_when (ver_archivedAt v)) then [act_archive] else []) ++
  (if canPlan then [act_delete] else []).

(** The notes of a version, by type of issue. *)
Record NotesGroup := mkNotesGroup { ng_type : string; ng_issues : list (string * string) }.

Definition notesHeading_en (name : string) : string := "Release " +:+ name.

Definition note_line (i : string * string) : string := "- " +:+ i.1 +:+ " " +:+ i.2.
Definition group_lines (g : NotesGroup) : list string := ng_type g :: map note_line (ng_issues g) ++ [EmptyString].

Definition notesAsText (heading : string → string) (groups : list NotesGroup) (name : string) : string :=
  trimEnd (join line_feed_s ([heading name; EmptyString] ++ concat (map group_lines groups))) +:+ line_feed_s.

(** *** The form of a new version *)

Record VersionForm := mkVersionForm { vf_name : string; vf_releaseOn : string; vf_description : string; vf_sending : bool }.
Record NewVersion := mkNewVersion { nv_name : string; nv_description : string; nv_releaseOn : option string }.

Inductive VersionEvent := VersionNamed (s : string) | ReleasePicked (s : string) | ContentsWritten (s : string) | VersionSubmitted | VersionMade | VersionRefused.

Definition version_form_start : VersionForm := mkVersionForm EmptyString EmptyString EmptyString false.

(** One event, [None] where the form does not offer it. *)
Definition version_form_step (f : VersionForm) (e : VersionEvent) : option (VersionForm * option NewVersion) :=
  match e with
  | VersionNamed s => Some (mkVersionForm s (vf_releaseOn f) (vf_description f) (vf_sending f), None)
  | ReleasePicked s => Some (mkVersionForm (vf_name f) s (vf_description f) (vf_sending f), None)
  | ContentsWritten s => Some (mkVersionForm (vf_name f) (vf_releaseOn f) s (vf_sending f), None)
  | VersionSubmitted =>
      if vf_sending f || negb (truthy (trim (vf_name f))) then None
      else Some (mkVersionForm (vf_name f) (vf_releaseOn f) (vf_description f) true,
                 Some (mkNewVersion (trim (vf_name f)) (trim (vf_description f)) (or_undefined (vf_releaseOn f))))
  | VersionMade => if vf_sending f then Some (version_form_start, None) else None
  | VersionRefused => if vf_sending f then Some (mkVersionForm (vf_name f) (vf_releaseOn f) (vf_description f) false, None) else None
  end.

(** *** The editor of a version *)

Record VersionDraft := mkVersionDraft { vd_name : string; vd_description : string; vd_startOn : string; vd_releaseOn : string }.
Record VersionUpdate := mkVersionUpdate {
  vu_id : string; vu_name : string; vu_description : string; vu_startOn : option string; vu_clearStart : bool; vu_releaseOn : option string; vu_clearRelease : bool;
}.

(** [x ? dayOf(x) : ""]. *)
Definition day_field (s : option string) : string := match s with Some d => if truthy d then dayOf d else EmptyString | None => EmptyString end.

Definition version_draft (v : Version) : VersionDraft := mkVersionDraft (ver_name v) (default EmptyString (ver_description v)) (day_field (ver_startOn v)) (day_field (ver_releaseOn v)).

Definition version_update (v : Version) (d : VersionDraft) : VersionUpdate :=
  mkVersionUpdate (ver_id v) (trim (vd_name d)) (trim (vd_description d)) (or_undefined (vd_startOn d)) (negb (truthy (vd_startOn d)))
    (or_undefined (vd_releaseOn d)) (negb (truthy (vd_releaseOn d))).

(** ** Parts of a project *)

Record PersonRef := mkPersonRef { pr_id : string; pr_name : string }.
Record Part := mkPart { part_id : string; part_name : string; part_description : option string; part_lead : option PersonRef; part_defaultAssignee : option PersonRef }.

Record PartDraft := mkPartDraft { pd_name : string; pd_description : string; pd_lead : string; pd_assignee : string }.
Record NewPart := mkNewPart { np_name : string; np_leadId : option string; np_defaultAssigneeId : option string }.
Record PartUpdate := mkPartUpdate {
  pu_id : string; pu_name : string; pu_description : string; pu_leadId : option string; pu_clearLead : bool; pu_defaultAssigneeId : option string; pu_clearDefaultAssignee : bool;
}.

Definition new_part (d : PartDraft) : option NewPart :=
  if truthy (trim (pd_name d)) then Some (mkNewPart (trim (pd_name d)) (or_undefined (pd_lead d)) (or_undefined (pd_assignee d))) else None.

Definition part_draft (c : Part) : PartDraft :=
  mkPartDraft (part_name c) (default EmptyString (part_description c)) (from_option pr_id EmptyString (part_lead c)) (from_option pr_id EmptyString (part_defaultAssignee c)).

Definition part_update (c : Part) (d : PartDraft) : PartUpdate :=
  mkPartUpdate (part_id c) (trim (pd_name d)) (trim (pd_description d)) (or_undefined (pd_lead d)) (negb (truthy (pd_lead d)))
    (or_undefined (pd_assignee d)) (negb (truthy (pd_assignee d))).

(** ** Milestones *)

Record Progress := mkProgress { pg_issues : Z; pg_done : Z; pg_inProgress : Z; pg_todo : Z; pg_percent : Z }.

Record Milestone := mkMilestone { ms_id : string; ms_name : string; ms_description : option string; ms_dueOn : option string; ms_closedAt : option string; ms_progress : Progress }.

(** Whether the date has passed with work still to do; [today] is the time now, and a date
    that is none is never before it. *)
Definition isOverdue (m : Milestone) (today : Z) : bool :=
  if negb (said_when (ms_dueOn m)) || said_when (ms_closedAt m) then false
  else if (0 <? pg_issues (ms_progress m)) && (pg_percent (ms_progress m) =? 100) then false
  else match parse_date (dayOf (default EmptyString (ms_dueOn m)) +:+ "T00:00:00Z") with
    | Some due => due <? date_UTC (getUTCFullYear today) (getUTCMonth today) (getUTCDate today)
    | None => false
    end.

Definition progress_en (done issues percent : Z) : string := stringOfInt done +:+ " of " +:+ stringOfInt issues +:+ " done, " +:+ stringOfInt percent +:+ "%".

Definition progressWords (p : Progress) : string := if pg_issues p =? 0 then "Nothing assigned yet" else progress_en (pg_done p) (pg_issues p) (pg_percent p).

(** The two segments of the bar, in hundredths of it. *)
Definition segments (p : Progress) : Q * Q :=
  let all := if pg_issues p =? 0 then 1 else pg_issues p in
  ((inject_Z (pg_done p) / inject_Z all * 100)%Q, (inject_Z (pg_inProgress p) / inject_Z all * 100)%Q).

Definition open_milestones (l : list Milestone) : list Milestone := filter (fun m => negb (said_when (ms_closedAt m)) = true) l.
Definition closed_milestones (l : list Milestone) : list Milestone := filter (fun m => said_when (ms_closedAt m) = true) l.

(** *** A milestone's card *)

Record Card := mkCard { cd_showing : bool; cd_editing : bool; cd_name : string; cd_dueOn : string; cd_saving : bool }.

Definition card_start (m : Milestone) : Card := mkCard false false (ms_name m) (day_field (ms_dueOn m)) false.

Inductive CardEvent := IssuesToggled | EditPressed | CancelPressed | NameTyped (s : string) | DuePicked (s : string) | CardSaved | SaveAnswered | SaveRefused.

Record MilestoneUpdate := mkMilestoneUpdate { mu_id : string; mu_name : string; mu_dueOn : option string }.

(** One event; the milestone is as the server says it now, what is typed is the card's. *)
Definition card_step (m : Milestone) (c : Card) (e : CardEvent) : option (Card * option MilestoneUpdate) :=
  match e with
  | IssuesToggled => Some (mkCard (negb (cd_showing c)) (cd_editing c) (cd_name c) (cd_dueOn c) (cd_saving c), None)
  | EditPressed => if said_when (ms_closedAt m) || cd_editing c then None else Some (mkCard (cd_showing c) true (cd_name c) (cd_dueOn c) (cd_saving c), None)
  | CancelPressed => if cd_editing c then Some (mkCard (cd_showing c) false (cd_name c) (cd_dueOn c) (cd_saving c), None) else None
  | NameTyped s => if cd_editing c then Some (mkCard (cd_showing c) true s (cd_dueOn c) (cd_saving c), None) else None
  | DuePicked s => if cd_editing c then Some (mkCard (cd_showing c) true (cd_name c) s (cd_saving c), None) else None
  | CardSaved =>
      if negb (cd_editing c) || cd_saving c then None
      else Some (mkCard (cd_showing c) true (cd_name c) (cd_dueOn c) true, Some (mkMilestoneUpdate (ms_id m) (trim (cd_name c)) (or_undefined (cd_dueOn c))))
  | SaveAnswered => if cd_saving c then Some (mkCard (cd_showing c) false (cd_name c) (cd_dueOn c) false, None) else None
  | SaveRefused => if cd_saving c then Some (mkCard (cd_showing c) (cd_editing c) (cd_name c) (cd_dueOn c) false, None) else None
  end.

Fixpoint card_run (m : Milestone) (c : Card) (es : list CardEvent) : option (Card * list MilestoneUpdate) :=
  match es with
  | [] => Some (c, [])
  | e :: es' =>
      match card_step m c e with
      | None => None
      | Some (c', asked) => match card_run m c' es' with Some (c'', more) => Some (c'', match asked with Some u => u :: more | None => more end) | None => None end
      end
  end.

(** *** The milestone of an issue *)

(** The choices: none, the open ones, and the one it counts towards when that is not among them. *)
Definition milestone_options (own : option (string * string)) (offered : list (string * string)) : list string :=
  EmptyString :: map fst offered ++ match own with Some m => if existsb (fun o => bool_decide (o.1 = m.1)) offered then [] else [m.1] | None => [] end.

Definition milestone_picked (value : string) : option string := or_undefined value.

(** ** Facts *)

(** Every version is in exactly one view, the one its row is marked with. *)
Lemma in_one_view v view : inView v view = true ↔ view = version_state v.
Proof. unfold inView, version_state. destruct view, (said_when (ver_archivedAt v)), (said_when (ver_releasedAt v)); cbn; split; congruence. Qed.

(** Who may not plan is offered the notes alone; an archived version is never released,
    edited or archived again. *)
Lemma menu_of_reader v : version_menu false v = [act_notes].
Proof. done. Qed.

Lemma menu_of_archived canPlan v a : version_state v = archived → a ∈ version_menu canPlan v → a = act_notes ∨ a = act_delete.
Proof.
  unfold version_state, version_menu. destruct (said_when (ver_archivedAt v)); [|by destruct (said_when (ver_releasedAt v))]. intros _.
  rewrite !andb_false_r. cbn. destruct canPlan; cbn; rewrite ?elem_of_cons, elem_of_nil; intuition.
Qed.

(** Each date of an edited version is either sent or cleared. *)
Lemma set_or_cleared v d : let u := version_update v d in
  (vu_clearStart u = true ↔ vu_startOn u = None) ∧ (vu_clearRelease u = true ↔ vu_releaseOn u = None).
Proof. cbn. unfold or_undefined. destruct (truthy (vd_startOn d)), (truthy (vd_releaseOn d)); cbn; intuition congruence. Qed.

(** What a form sends has a name, without the blanks around it, and only one is on its way. *)
Lemma new_version_named f e f' v : version_form_step f e = Some (f', Some v) → nv_name v = trim (vf_name f) ∧ nv_name v ≠ EmptyString ∧ vf_sending f = false ∧ vf_sending f' = true.
Proof.
  destruct e; cbn; try done; try by (destruct (vf_sending f)).
  destruct (vf_sending f) eqn:Es; [done|]. destruct (truthy (trim (vf_name f))) eqn:Et; [|done]. cbn. intros [= <- <-]. split_and!; cbn; try done.
  intros Hn. by rewrite Hn in Et.
Qed.

(** The value of the field is one of its choices, whichever milestone the issue counts towards. *)
Lemma own_milestone_offered own offered : from_option fst EmptyString own ∈ milestone_options own offered.
Proof.
  unfold milestone_options. destruct own as [m|]; cbn; [|by left]. apply elem_of_cons. right. apply elem_of_app.
  destruct (existsb (fun o => bool_decide (o.1 = m.1)) offered) eqn:Ex; [|right; by left].
  left. apply existsb_exists in Ex as (o & Hin & Ho). apply bool_decide_eq_true in Ho. rewrite <- Ho. apply list_elem_of_fmap. exists o. split; [done|]. by apply list_elem_of_In.
Qed.

Lemma options_once own offered : NoDup (map fst offered) → EmptyString ∉ map fst offered → from_option (truthy ∘ fst) true own = true → NoDup (milestone_options own offered).
Proof.
  intros Hn He Ho. unfold milestone_options. destruct own as [m|]; [|rewrite app_nil_r; by constructor].
  destruct (existsb _ offered) eqn:Ex; [rewrite app_nil_r; by constructor|].
  cbn in Ho. constructor.
  - rewrite elem_of_app. intros [?|?%list_elem_of_singleton]; [done|]. rewrite <- H in Ho. done.
  - apply NoDup_app. split_and!; [done| |by apply NoDup_singleton]. intros x Hx ->%list_elem_of_singleton.
    apply list_elem_of_fmap in Hx as (o & E & Hin). enough (existsb (fun o => bool_decide (o.1 = m.1)) offered = true) by congruence.
    apply existsb_exists. exists o. split; [by apply list_elem_of_In|]. by apply bool_decide_eq_true.
Qed.

(** Open and closed milestones are all of them, each once. *)
Lemma milestones_split l : l ≡ₚ open_milestones l ++ closed_milestones l.
Proof.
  unfold open_milestones, closed_milestones. induction l as [|m l IH]; [done|]. rewrite !filter_cons.
  destruct (said_when (ms_closedAt m)); cbn [negb]; [rewrite decide_False by done; rewrite decide_True by done; rewrite <- Permutation_middle|rewrite decide_True by done; rewrite decide_False by done; cbn [app]]; by rewrite <- IH.
Qed.

(** A milestone is late from the day after the one it is due on, and not before. *)
Lemma parse_midnight n : four_digit_day n → parse_date (iso_day n +:+ "T00:00:00Z") = Some (n * MS_PER_DAY).
Proof.
  intros Hn. unfold parse_date. change ("T00:00:00Z") with (String "T" "00:00:00Z").
  change (iso_day n +:+ String "T" "00:00:00Z") with (join (String "T" EmptyString) [iso_day n; "00:00:00Z"%string]).
  rewrite split_join; [|done|].
  - rewrite parse_iso_day by done. replace (parse_time "00:00:00Z") with (Some 0) by (vm_compute; reflexivity).
    change (Some (n * MS_PER_DAY + 0) = Some (n * MS_PER_DAY)). by rewrite Z.add_0_r.
  - constructor; [by apply iso_day_without|]. by repeat constructor.
Qed.

Lemma overdue_from_next_day m n t :
  dayOf (default EmptyString (ms_dueOn m)) = iso_day n → four_digit_day n → said_when (ms_closedAt m) = false → pg_percent (ms_progress m) ≠ 100 → MODERN <= t →
  isOverdue m t = (n <? day_number t).
Proof.
  intros Hd Hn Hc Hp Ht. unfold isOverdue. rewrite Hc, orb_false_r.
  assert (said_when (ms_dueOn m) = true) as ->.
  { destruct (said_when (ms_dueOn m)) eqn:Es; [done|]. pose proof (iso_day_truthy n) as Hi. rewrite <- Hd in Hi.
    destruct (ms_dueOn m) as [[|c s]|]; [discriminate Hi|discriminate Es|discriminate Hi]. }
  cbn [negb]. destruct (Z.eqb_spec (pg_percent (ms_progress m)) 100); [done|]. rewrite andb_false_r, Hd, parse_midnight, JsDate.midnight by done.
  unfold MS_PER_DAY. destruct (Z.ltb_spec n (day_number t)), (Z.ltb_spec (n * 86400000) (day_number t * 86400000)); lia.
Qed.

Definition due_day : Milestone := mkMilestone "m1" "Beta" None (Some "2026-08-01T00:00:00Z"%string) None (mkProgress 3 1 1 1 33).

Example late_on_the_second : isOverdue due_day (date_UTC 2026 7 1) = false ∧ isOverdue due_day (date_UTC 2026 7 2) = true.
Proof. vm_compute. split; reflexivity. Qed.

(** ** The notes *)

Example notes_of_two :
  notesAsText notesHeading_en [mkNotesGroup "Bug" [("TAB-1", "Fix it"); ("TAB-2", "Again")]; mkNotesGroup "Story" [("TAB-3", "Do it")]]%string "1.0" =
  join line_feed_s ["Release 1.0"; ""; "Bug"; "- TAB-1 Fix it"; "- TAB-2 Again"; ""; "Story"; "- TAB-3 Do it"; ""]%string.
Proof. vm_compute. reflexivity. Qed.

(** ** What the card of a milestone keeps *)

(** An editing that was cancelled comes back with what was typed, and one that is opened
    after somebody else's change holds the milestone as it was when the page was. *)
Example cancelled_comes_back :
  match card_run due_day (card_start due_day) [EditPressed; NameTyped "Betta"; CancelPressed; EditPressed; CardSaved] with
  | Some (_, asked) => map mu_name asked = ["Betta"]%string
  | None => False
  end.
Proof. vm_compute. reflexivity. Qed.

Definition moved_day : Milestone := mkMilestone "m1" "Beta 2" None (Some "2026-09-01T00:00:00Z"%string) None (mkProgress 3 1 1 1 33).

Example others_change_undone :
  match card_run moved_day (card_start due_day) [EditPressed; CardSaved] with
  | Some (_, asked) => asked = [mkMilestoneUpdate "m1" "Beta" (Some "2026-08-01"%string)]
  | None => False
  end.
Proof. vm_compute. reflexivity. Qed.

(** A card asks for nothing while it is not edited. *)
Lemma card_asks_editing m c e c' u : card_step m c e = Some (c', Some u) → cd_editing c = true ∧ cd_saving c' = true ∧ u = mkMilestoneUpdate (ms_id m) (trim (cd_name c)) (or_undefined (cd_dueOn c)).
Proof.
  destruct e; cbn; try done; destruct (cd_editing c) eqn:Ee; cbn; try done; try (by destruct (said_when _)); try by (destruct (cd_saving c)).
  destruct (cd_saving c); [done|]. by intros [= <- <-].
Qed.
