(* ===== verification/IssueActions.v ===== *)
(** What can be done with an issue beside editing it: [web/src/features/issues/hierarchy.tsx],
    [features/filters/CloneMoveMenu.tsx], and the text and the queries of [api/issues.ts].

    The dialogs are state machines of what they hold. *)

From Stdlib Require Import ZArith Lia Ascii String.
From stdpp Require Import base list strings.
From S2P Require Import Prelude JsString Api Markdown.

Open Scope Z_scope.

(** ** The issue above and the ones below *)

(** An issue as a choice of a parent. *)
Record Candidate := mkCandidate { cand_id : string; cand_key : string; cand_summary : string }.

Record LibraryLevel := mkLibraryLevel { ll_id : string; ll_level : Z }.

(** The types one level above, by which the server is asked. *)
Definition levelAbove (types : list LibraryLevel) (level : Z) : list string := map ll_id (filter (fun t => ll_level t = level + 1) types).

(** The current parent stays selectable when the search has moved past it. *)
Definition current_parent (parent : option Candidate) (found : list Candidate) : list Candidate :=
  match parent with Some p => if existsb (fun c => bool_decide (cand_key c = cand_key p)) found then [] else [p] | None => [] end.

Definition candidates (parent : option Candidate) (found : list Candidate) : list Candidate := current_parent parent found ++ found.

(** The values of the select, and the one it shows: none is a choice of an issue that can
    stand alone, or does. *)
Definition parent_values (level : Z) (parent : option Candidate) (found : list Candidate) : list string :=
  (if (0 <=? level) || negb (bool_decide (is_Some parent)) then [EmptyString] else []) ++ map cand_key (candidates parent found).
Definition parent_value (parent : option Candidate) : string := from_option cand_key EmptyString parent.

(** Whether there is a picker at all. *)
Definition picker_shown (words : string) (parent : option Candidate) (found : list Candidate) : bool :=
  negb (negb (truthy words) && match candidates parent found with [] => true | _ => false end).

(** What a choice asks for: none detaches. *)
Definition parent_picked (value : string) : option string := or_undefined value.

(** *** A child is added *)

Record ChildForm := mkChildForm { ch_summary : string; ch_description : string; ch_typeId : string; ch_sending : bool }.
Record ChildInput := mkChildInput { ci_projectKey : string; ci_summary : string; ci_description : option DocNode; ci_typeId : string; ci_parentKey : string }.

Inductive ChildEvent := SummaryTyped (s : string) | DescriptionTyped (s : string) | TypePicked (s : string) | ChildSubmitted | ChildMade | ChildRefused | ChildCancelled.

Definition child_start (types : list string) : ChildForm := mkChildForm EmptyString EmptyString (default EmptyString (head types)) false.

Section Child.
Context (projectKey parentKey : string).

(** One event: the form that stays, if it does, and what is asked for. *)
Definition child_step (f : ChildForm) (e : ChildEvent) : option (option ChildForm * option ChildInput) :=
  match e with
  | SummaryTyped s => Some (Some (mkChildForm s (ch_description f) (ch_typeId f) (ch_sending f)), None)
  | DescriptionTyped s => Some (Some (mkChildForm (ch_summary f) s (ch_typeId f) (ch_sending f)), None)
  | TypePicked s => Some (Some (mkChildForm (ch_summary f) (ch_description f) s (ch_sending f)), None)
  | ChildSubmitted =>
      if negb (truthy (trim (ch_summary f))) || ch_sending f then None
      else Some (Some (mkChildForm (ch_summary f) (ch_description f) (ch_typeId f) true),
                 Some (mkChildInput projectKey (ch_summary f) (markdownToDoc (ch_description f)) (ch_typeId f) parentKey))
  | ChildMade => if ch_sending f then Some (None, None) else None
  | ChildRefused => if ch_sending f then Some (Some (mkChildForm (ch_summary f) (ch_description f) (ch_typeId f) false), None) else None
  | ChildCancelled => Some (None, None)
  end.
End Child.

(** ** A copy, and a move to another project *)

Record CloneForm := mkCloneForm { cl_summary : string; cl_links : bool; cl_subtasks : bool }.
Record CloneInput := mkCloneInput { cn_key : string; cn_links : bool; cn_subtasks : bool; cn_summary : string }.

Definition clone_start (summary : string) : CloneForm := mkCloneForm summary true false.
Definition clone_input (key : string) (f : CloneForm) : option CloneInput :=
  if truthy (trim (cl_summary f)) then Some (mkCloneInput key (cl_links f) (cl_subtasks f) (trim (cl_summary f))) else None.

(** An answer to a field, and whether the field is the organization's. *)
Record FieldAnswer := mkFieldAnswer { fa_id : string; fa_org : bool; fa_value : option Json }.

(** The answers a move leaves behind: those to the old project's own fields. *)
Definition droppedOnMove (values : list FieldAnswer) : list FieldAnswer :=
  filter (fun v => negb (fa_org v) && match fa_value v with None | Some JNull => false | Some _ => true end = true) values.

Record MoveForm := mkMoveForm { mf_projectKey : string; mf_statusId : string; mf_error : option string; mf_sending : bool }.
Record MoveAsked := mkMoveAsked { ma_key : string; ma_projectKey : string; ma_statusId : option string }.

Inductive MoveEvent := ProjectPicked (s : string) | StatusPicked (s : string) | MovePressed | MoveRefusedWith (message : string).

Definition move_start : MoveForm := mkMoveForm EmptyString EmptyString None false.

(** [s.includes(w)]. *)
Fixpoint says (w s : string) : bool := startsWith s w || match s with EmptyString => false | String _ s' => says w s' end.

(** A status is asked for once the server could not choose one. *)
Definition needsStatus (f : MoveForm) : bool := match mf_error f with Some message => says "choose one" message | None => false end.
Definition status_asked (f : MoveForm) : bool := needsStatus f || truthy (mf_statusId f).

Definition move_step (key : string) (f : MoveForm) (e : MoveEvent) : option (MoveForm * option MoveAsked) :=
  match e with
  | ProjectPicked s => Some (mkMoveForm s (mf_statusId f) (mf_error f) (mf_sending f), None)
  | StatusPicked s => if status_asked f then Some (mkMoveForm (mf_projectKey f) s (mf_error f) (mf_sending f), None) else None
  | MovePressed =>
      if negb (truthy (mf_projectKey f)) || mf_sending f then None
      else Some (mkMoveForm (mf_projectKey f) (mf_statusId f) None true, Some (mkMoveAsked key (mf_projectKey f) (or_undefined (mf_statusId f))))
  | MoveRefusedWith message => if mf_sending f then Some (mkMoveForm (mf_projectKey f) (mf_statusId f) (Some message) false, None) else None
  end.

Fixpoint move_run (key : string) (f : MoveForm) (es : list MoveEvent) : option (MoveForm * list MoveAsked) :=
  match es with
  | [] => Some (f, [])
  | e :: es' =>
      match move_step key f e with
      | None => None
      | Some (f', asked) => match move_run key f' es' with Some (f'', more) => Some (f'', match asked with Some a => a :: more | None => more end) | None => None end
      end
  end.

(** ** The text of a document: [docToText] *)

(** The label of a mention, empty when there is none; one that is no text is not modelled. *)
Definition mention_label (attrs : option (list (string * Json))) : string :=
  match attr attrs "label" with Some (JString s) => s | _ => EmptyString end.

(** [walk], and the parts it pushes. *)
Fixpoint text_parts (n : DocNode) : list string :=
  match n with
  | mkDocNode type text attrs _ content =>
      (if decide (type = "mention"%string) then ["@" +:+ mention_label attrs] else []) ++
      (if decide (type = "hardBreak"%string) then [line_feed_s] else []) ++
      (match text with Some s => if truthy s then [s] else [] | None => [] end) ++
      concat (over text_parts content) ++
      (if decide (type = "paragraph"%string ∨ type = "heading"%string) then [line_feed_s] else [])
  end.

Definition docToText (doc : option DocNode) : string := match doc with None => EmptyString | Some d => trim (concat_s (text_parts d)) end.

(** ** The queries of the list *)

Record IssueQuery := mkIssueQuery {
  iq_project : option string; iq_assignee : option string; iq_label : list string; iq_milestone : option string; iq_category : list string;
  iq_text : option string; iq_q : option string; iq_orderBy : option string; iq_limit : option Z; iq_offset : option Z;
}.

Definition said_text (name : string) (v : option string) : list (string * string) := match v with Some s => if truthy s then [(name, s)] else [] | None => [] end.
Definition said_number (name : string) (v : option Z) : list (string * string) := match v with Some n => if n =? 0 then [] else [(name, stringOfInt n)] | None => [] end.

(** The parameters, in the order they are set and appended. *)
Definition issueSearch (query : IssueQuery) : list (string * string) :=
  said_text "assignee" (iq_assignee query) ++ said_text "text" (iq_text query) ++ said_text "q" (iq_q query) ++ said_text "orderBy" (iq_orderBy query) ++
  said_number "limit" (iq_limit query) ++ said_number "offset" (iq_offset query) ++
  map (fun c => ("category"%string, c)) (iq_category query) ++ map (fun l => ("label"%string, l)) (iq_label query) ++ said_text "milestone" (iq_milestone query).

(** Whether a query is about this one issue, by its key among the query's parts. *)
Definition isAboutIssue (queryKey : list Json) (issueKey : string) : bool := existsb (fun part => match part with JString s => bool_decide (s = issueKey) | _ => false end) queryKey.

(** ** Facts *)

(** The select always shows one of its choices. *)
Lemma parent_value_offered level parent found : parent_value parent ∈ parent_values level parent found.
Proof.
  unfold parent_value, parent_values. destruct parent as [p|]; cbn [from_option].
  - apply elem_of_app. right. unfold candidates, current_parent. destruct (existsb _ found) eqn:Ex; [|by left].
    apply existsb_exists in Ex as (c & Hin & Hc). apply bool_decide_eq_true in Hc. rewrite <- Hc. apply list_elem_of_fmap. exists c. split; [done|]. by apply list_elem_of_In.
  - rewrite bool_decide_eq_false_2 by (by intros []). rewrite orb_true_r. by left.
Qed.

(** Each choice once, when the server's page names each issue once. *)
Lemma parent_values_once level parent found :
  NoDup (map cand_key found) → Forall (fun c => truthy (cand_key c) = true) found → from_option (truthy ∘ cand_key) true parent = true →
  NoDup (parent_values level parent found).
Proof.
  intros Hn Ht Hp. assert (NoDup (map cand_key (candidates parent found))) as Hc.
  { unfold candidates, current_parent. destruct parent as [p|]; [|done]. destruct (existsb _ found) eqn:Ex; [done|]. cbn. constructor; [|done].
    intros (c & E & Hin)%list_elem_of_fmap. enough (existsb (fun c => bool_decide (cand_key c = cand_key p)) found = true) by congruence.
    apply existsb_exists. exists c. split; [by apply list_elem_of_In|]. by apply bool_decide_eq_true. }
  unfold parent_values. destruct (_ || _); [|done]. cbn. constructor; [|done].
  intros (c & E & Hin)%list_elem_of_fmap. assert (truthy (cand_key c) = true) as Htc; [|by rewrite <- E in Htc].
  unfold candidates, current_parent in Hin. apply elem_of_app in Hin as [Hin|Hin]; [|rewrite Forall_forall in Ht; by apply Ht].
  destruct parent as [p|]; [|by apply elem_of_nil in Hin]. destruct (existsb _ found); [by apply elem_of_nil in Hin|]. apply list_elem_of_singleton in Hin as ->. exact Hp.
Qed.

(** A subtask that has a parent cannot be detached; every other issue can stand alone. *)
Lemma detachable level parent found : Forall (fun c => truthy (cand_key c) = true) (candidates parent found) →
  EmptyString ∈ parent_values level parent found ↔ 0 <= level ∨ parent = None.
Proof.
  intros Ht. unfold parent_values. rewrite elem_of_app. split.
  - intros [H|(c & E & Hin)%list_elem_of_fmap].
    + destruct (Z.leb_spec 0 level); [by left|]. destruct parent; [|by right]. rewrite bool_decide_eq_true_2 in H by by eexists. by apply elem_of_nil in H.
    + rewrite Forall_forall in Ht. specialize (Ht c Hin). by rewrite <- E in Ht.
  - intros [H| ->]; left; [rewrite (proj2 (Z.leb_le 0 level)) by done; by left|]. rewrite bool_decide_eq_false_2 by (by intros []). rewrite orb_true_r. by left.
Qed.

(** A child is asked for with words in its summary, and one at a time. *)
Lemma child_asked projectKey parentKey f e f' i :
  child_step projectKey parentKey f e = Some (f', Some i) → trim (ci_summary i) ≠ EmptyString ∧ ch_sending f = false ∧ from_option ch_sending false f' = true.
Proof.
  destruct e; cbn [child_step]; try done; try by (destruct (ch_sending f)).
  destruct (truthy (trim (ch_summary f))) eqn:Et; [|done]. destruct (ch_sending f); [done|]. cbn [negb orb]. intros [= <- <-]. cbn [ci_summary]. split_and!; try done.
  intros Hn. by rewrite Hn in Et.
Qed.

(** What a move leaves behind is answered, and none of it the organization's. *)
Lemma dropped_spec v values : v ∈ droppedOnMove values ↔ v ∈ values ∧ fa_org v = false ∧ fa_value v ≠ None ∧ fa_value v ≠ Some JNull.
Proof.
  unfold droppedOnMove. rewrite list_elem_of_filter. destruct (fa_org v); cbn; [intuition congruence|].
  destruct (fa_value v) as [[]|]; intuition congruence.
Qed.

(** The first try of a move names no status; one is asked for only when the server says so. *)
Lemma first_move_bare key f e f' a : mf_statusId f = EmptyString → move_step key f e = Some (f', Some a) → ma_statusId a = None ∧ ma_projectKey a ≠ EmptyString.
Proof.
  intros Hs. destruct e; cbn; try done; [by destruct (status_asked f)| |by destruct (mf_sending f)].
  destruct (truthy (mf_projectKey f)) eqn:Et; [|done]. destruct (mf_sending f); [done|]. cbn. intros [= <- <-]. cbn. rewrite Hs. split; [done|]. intros H. by rewrite H in Et.
Qed.

(** A status chosen for one project goes along when another is picked. *)
Example status_of_other_project :
  match move_run "TAB-1" move_start [ProjectPicked "OPS"; MovePressed; MoveRefusedWith "no such status there: choose one"; StatusPicked "s1"; ProjectPicked "WEB"; MovePressed] with
  | Some (_, asked) => asked = [mkMoveAsked "TAB-1" "OPS" None; mkMoveAsked "TAB-1" "WEB" (Some "s1"%string)]
  | None => False
  end.
Proof. vm_compute. reflexivity. Qed.

(** The text of a document has no blanks around it. *)
Lemma docToText_trim doc : trim (docToText doc) = docToText doc.
Proof. destruct doc; [apply trim_idem|done]. Qed.

Example text_of_page :
  docToText (Some (mkDocNode "doc" None None None (Some [mkDocNode "paragraph" None None None (Some [text_node "Ask" []; text_node " " [];
    mkDocNode "mention" None (Some [("label", JString "Ada")]%string) None None; hard_break; text_node "now" []]); mkDocNode "paragraph" None None None None]))) =
  ("Ask @Ada" +:+ line_feed_s +:+ "now").
Proof. vm_compute. reflexivity. Qed.
