(* ===== verification/Accounts.v ===== *)
(** The installation's tables: [web/src/features/users/UserTable.tsx], [routes/projects.tsx],
    [routes/webhooks.tsx] and [routes/connected-apps.tsx].

    What each row offers, what the forms hold and send, and the address of a list. *)

From Stdlib Require Import ZArith Lia Ascii String.
From stdpp Require Import base list strings.
From S2P Require Import Prelude JsString Api Markdown Paging.

Open Scope Z_scope.

(** ** Accounts *)

Inductive OrgRole := role_owner | role_admin | role_member | role_customer.
Inductive SignsIn := by_password | by_provider | by_nothing.

#[export] Instance OrgRole_eq : EqDecision OrgRole.
Proof. solve_decision. Defined.
#[export] Instance SignsIn_eq : EqDecision SignsIn.
Proof. solve_decision. Defined.

Record ManagedUser := mkManagedUser {
  mu_userId : string; mu_userName : string; mu_role : OrgRole; mu_isActive : bool; mu_managed : bool; mu_signsInWith : SignsIn; mu_secondFactor : bool;
}.

Inductive UserAction := user_rename | user_role | user_password | user_factor_off | user_week | user_deactivate | user_reactivate.

#[export] Instance UserAction_eq : EqDecision UserAction.
Proof. solve_decision. Defined.

Section Row.
Context (me : option string).

(** Nobody changes the account they are signed in with, or one the installation does not manage. *)
Definition locked (u : ManagedUser) : bool := negb (mu_managed u) || bool_decide (Some (mu_userId u) = me).

(** The row's menu: each entry, and whether it is off. *)
Definition user_menu (u : ManagedUser) : list (UserAction * bool) :=
  [(user_rename, locked u);
   (user_role, locked u || bool_decide (mu_role u = role_owner));
   (user_password, locked u || bool_decide (mu_signsInWith u = by_provider));
   (user_factor_off, locked u || negb (mu_secondFactor u));
   (user_week, bool_decide (mu_role u = role_customer));
   (if mu_isActive u then user_deactivate else user_reactivate, locked u)].

Definition may (u : ManagedUser) (a : UserAction) : bool := existsb (fun e => bool_decide (e.1 = a) && negb e.2) (user_menu u).
End Row.

(** What the dialogs send: a name without blanks around it, a role of the two, a password. *)
Definition rename_sent (name : string) : option string := if truthy (trim name) then Some (trim name) else None.
Definition role_start (u : ManagedUser) : OrgRole := if decide (mu_role u = role_admin) then role_admin else role_member.
Definition role_choices : list OrgRole := [role_member; role_admin].
Definition password_sent (password : string) : option string := if truthy password then Some password else None.

(** ** The address of a list *)

Record ProjectsSearch := mkProjectsSearch { ps_q : option string; ps_offset : option Z; ps_archived : option bool }.

(** [validateSearch]: of what the address holds, what a list can be of. *)
Definition validateSearch (search : list (string * Json)) : ProjectsSearch :=
  mkProjectsSearch
    (match jget search "q" with Some (JNumber n) => Some (stringOfInt n) | Some (JString s) => or_undefined s | _ => None end)
    (match jget search "offset" with Some (JNumber n) => if isPageOffset n then Some n else None | _ => None end)
    (match jget search "archived" with Some (JBool true) => Some true | Some (JString s) => if decide (s = "true"%string) then Some true else None | _ => None end).

(** What [show] puts in the address. *)
Definition shown_search (q : string) (offset : Z) (archived : bool) : ProjectsSearch :=
  mkProjectsSearch (or_undefined q) (if offset =? 0 then None else Some offset) (if archived then Some true else None).

Definition search_params_of (s : ProjectsSearch) : list (string * Json) :=
  match ps_q s with Some q => [("q"%string, JString q)] | None => [] end ++
  match ps_offset s with Some n => [("offset"%string, JNumber n)] | None => [] end ++
  match ps_archived s with Some b => [("archived"%string, JBool b)] | None => [] end.

(** The list as the page reads it from the address. *)
Definition read_search (s : ProjectsSearch) : string * Z * bool := (default EmptyString (ps_q s), default 0 (ps_offset s), default false (ps_archived s)).

(** The step back from a page past the end. *)
Definition stepped_back (s : ProjectsSearch) (total pageSize : Z) : option ProjectsSearch :=
  let '(q, offset, archived) := read_search s in
  if (0 <? offset) && (total <=? offset) then Some (shown_search q (clampOffset offset total pageSize) archived) else None.

(** *** The form of a new project *)

Record KeyCheck := mkKeyCheck { kc_suggestion : option string; kc_available : option bool; kc_valid : option bool }.
Record ProjectForm := mkProjectForm { pf_name : string; pf_key : string; pf_template : string }.
Record NewProject := mkNewProject { np_projectName : string; np_key : option string; np_template : option string }.

(** What the server is asked about: the key somebody typed, or else the name. *)
Definition checked (f : ProjectForm) : string + string := if truthy (pf_key f) then inl (pf_key f) else inr (pf_name f).

Section Key.
Context (check : option KeyCheck) (f : ProjectForm).

Definition effectiveKey : string := if truthy (pf_key f) then pf_key f else default EmptyString (check ≫= kc_suggestion).
Definition keyTaken : bool := truthy (pf_key f) && bool_decide (check ≫= kc_available = Some false).
Definition keyInvalid : bool := truthy (pf_key f) && bool_decide (check ≫= kc_valid = Some false).
Definition project_ready : bool := negb (negb (truthy (trim (pf_name f))) || keyTaken || keyInvalid).
Definition project_sent : option NewProject :=
  if negb project_ready then None
  else Some (mkNewProject (pf_name f) (or_undefined effectiveKey) (or_undefined (pf_template f))).
End Key.

Definition key_typed (f : ProjectForm) (s : string) : ProjectForm := mkProjectForm (pf_name f) (toUpperCase s) (pf_template f).

(** ** Boxes that are ticked: topics of a webhook, scopes of an app *)

Definition box_ticked (l : list string) (each : string) (on : bool) : list string := if on then l ++ [each] else filter (fun x => x ≠ each) l.

Record HookForm := mkHookForm { hf_name : string; hf_url : string; hf_topics : list string; hf_version : Z }.
Definition hook_start : HookForm := mkHookForm EmptyString EmptyString ["*"%string] 1.

(** What is sent of a new webhook, while the button can be pressed. *)
Definition hook_ready (f : HookForm) : bool := negb (negb (truthy (trim (hf_name f))) || negb (truthy (trim (hf_url f)))).
Definition hook_sent (f : HookForm) : option HookForm :=
  if hook_ready f then Some (mkHookForm (trim (hf_name f)) (trim (hf_url f)) (hf_topics f) (hf_version f)) else None.

(** ** Connected apps *)

(** Return addresses as the form takes them, one a line. *)
Definition address_lines (text : string) : list string := filter (fun l => truthy l = true) (map trim (split line_feed text)).

Definition CONNECTED_APP_SCOPES : list string := ["read"; "issue.write"; "issue.transition"; "comment.write"; "git.write"; "webhooks.partner"]%string.

Record ConnectedApp := mkConnectedApp {
  ca_name : string; ca_clientUri : option string; ca_redirectUris : list string; ca_scopes : list string; ca_keycloak : option string;
}.

Record AppForm := mkAppForm { af_name : string; af_clientUri : string; af_redirects : string; af_scopes : list string; af_confidential : bool; af_keycloak : string }.

Record AppInput := mkAppInput {
  ai_name : string; ai_clientUri : string; ai_redirectUris : list string; ai_scopes : list string; ai_keycloak : string; ai_confidential : option bool;
}.

Definition app_form (app : option ConnectedApp) : AppForm :=
  match app with
  | None => mkAppForm EmptyString EmptyString EmptyString ["read"%string] true EmptyString
  | Some a => mkAppForm (ca_name a) (default EmptyString (ca_clientUri a)) (join line_feed_s (ca_redirectUris a)) (ca_scopes a) true (default EmptyString (ca_keycloak a))
  end.

Inductive AppEvent := AppNamed (s : string) | AppAddressed (s : string) | ReturnsWritten (s : string) | ScopeTicked (scope : string) (on : bool) | Confidential (on : bool) | KeycloakNamed (s : string).

(** One control; the scope that everybody has cannot be changed. *)
Definition app_control (f : AppForm) (e : AppEvent) : option AppForm :=
  match e with
  | AppNamed s => Some (mkAppForm s (af_clientUri f) (af_redirects f) (af_scopes f) (af_confidential f) (af_keycloak f))
  | AppAddressed s => Some (mkAppForm (af_name f) s (af_redirects f) (af_scopes f) (af_confidential f) (af_keycloak f))
  | ReturnsWritten s => Some (mkAppForm (af_name f) (af_clientUri f) s (af_scopes f) (af_confidential f) (af_keycloak f))
  | ScopeTicked scope on =>
      if decide (scope = "read"%string ∨ scope ∉ CONNECTED_APP_SCOPES) then None
      else if eqb on (bool_decide (scope ∈ af_scopes f)) then None
      else Some (mkAppForm (af_name f) (af_clientUri f) (af_redirects f) (box_ticked (af_scopes f) scope on) (af_confidential f) (af_keycloak f))
  | Confidential on => Some (mkAppForm (af_name f) (af_clientUri f) (af_redirects f) (af_scopes f) on (af_keycloak f))
  | KeycloakNamed s => Some (mkAppForm (af_name f) (af_clientUri f) (af_redirects f) (af_scopes f) (af_confidential f) s)
  end.

Fixpoint app_run (f : AppForm) (es : list AppEvent) : option AppForm :=
  match es with [] => Some f | e :: es' => app_control f e ≫= (fun f' => app_run f' es') end.

(** What is sent, once there is a name and an address to return to. *)
Definition app_sent (withConfidential : bool) (f : AppForm) : option AppInput :=
  if truthy (trim (af_name f)) && negb (bool_decide (address_lines (af_redirects f) = [])) then
    Some (mkAppInput (trim (af_name f)) (trim (af_clientUri f)) (address_lines (af_redirects f)) (af_scopes f) (trim (af_keycloak f))
            (if withConfidential then Some (af_confidential f) else None))
  else None.

(** ** Facts *)

(** Of the account one is signed in with, and of one that is not managed, only the week is
    to be changed. *)
Lemma locked_week me u a : locked me u = true → may me u a = true → a = user_week.
Proof.
  intros Hl. unfold may, user_menu. rewrite Hl. cbn. destruct (mu_isActive u), a; cbn; rewrite ?andb_false_r; cbn; try done; rewrite ?bool_decide_eq_false_2 by done; done.
Qed.

Lemma owner_keeps_role me u : mu_role u = role_owner → may me u user_role = false.
Proof. intros Hr. unfold may, user_menu. rewrite Hr, orb_true_r. cbn. destruct (mu_isActive u); cbn; reflexivity. Qed.

(** An account is switched off or on, never both. *)
Lemma off_or_on me u : may me u user_deactivate && may me u user_reactivate = false.
Proof. unfold may, user_menu. destruct (mu_isActive u); cbn; by rewrite ?andb_false_r. Qed.

(** What a list's address is read back as is the list it was written for. *)
Lemma address_read_back q offset archived : 0 <= offset → read_search (validateSearch (search_params_of (shown_search q offset archived))) = (q, offset, archived).
Proof.
  intros Ho. unfold shown_search, or_undefined. assert (truthy q = false → q = EmptyString) as Hq by (by destruct q).
  unfold read_search, validateSearch, search_params_of, isPageOffset.
  destruct (truthy q) eqn:Et, (Z.eqb_spec offset 0) as [E0|Hne], archived; cbn; unfold or_undefined;
    repeat (case_decide; try discriminate; try congruence); rewrite ?Et; cbn;
    try rewrite (Hq eq_refl); try rewrite E0; try rewrite (proj2 (Z.ltb_lt 0 offset)) by lia; done.
Qed.

(** A step back shows a page that has something on it, or the first. *)
Lemma step_back_lands s total pageSize s' : 0 < pageSize → 0 <= total → stepped_back s total pageSize = Some s' → stepped_back s' total pageSize = None ∨ total = 0.
Proof.
  intros Hp Ht. unfold stepped_back. destruct s as [q offset archived]. cbn. destruct (_ && _) eqn:E; [|done]. apply andb_true_iff in E as [Ho Hb].
  apply Z.ltb_lt in Ho. apply Z.leb_le in Hb. intros [= <-].
  destruct (Z.eq_dec total 0) as [|Hne]; [by right|left]. unfold clampOffset. rewrite (proj2 (Z.ltb_ge (default 0 offset) total)) by lia.
  unfold shown_search, or_undefined. cbn. set (n := Z.max 0 _). assert (0 <= n < total) as Hn.
  { subst n. pose proof (Z.mul_div_le (total - 1) pageSize Hp). pose proof (Z.div_pos (total - 1) pageSize ltac:(lia) Hp). lia. }
  destruct (Z.eqb_spec n 0) as [E0|]; cbn; [done|]. rewrite (proj2 (Z.leb_gt _ _)) by lia. by rewrite andb_false_r.
Qed.

(** A project that is asked for has a name, and a key nobody refused. *)
Lemma project_asked check f p : project_sent check f = Some p → trim (np_projectName p) ≠ EmptyString ∧ keyTaken check f = false ∧ keyInvalid check f = false.
Proof.
  unfold project_sent, project_ready. rewrite negb_involutive. destruct (truthy (trim (pf_name f))) eqn:Et; [|done]. destruct (keyTaken check f), (keyInvalid check f); try done.
  cbn [negb orb]. intros [= <-]. split_and!; [|done..]. cbn [np_projectName]. intros H. by rewrite H in Et.
Qed.

(** The scopes of an app: whatever is ticked, it may read, and asks for nothing twice. *)
Definition scopes_ok (f : AppForm) : Prop := "read"%string ∈ af_scopes f ∧ NoDup (af_scopes f).

Lemma app_control_ok f e f' : scopes_ok f → app_control f e = Some f' → scopes_ok f'.
Proof.
  intros [Hr Hn]. destruct e as [s|s|s|scope on|on|s]; cbn [app_control]; try by intros [= <-].
  case_decide as Hc; [done|]. destruct (eqb on _) eqn:Eb; [done|]. intros [= <-]. unfold scopes_ok, box_ticked. cbn [af_scopes].
  destruct on.
  - destruct (bool_decide_reflect (scope ∈ af_scopes f)) as [|Hnot]; [done|]. split; [apply elem_of_app; by left|].
    apply NoDup_app. split_and!; [done| |by apply NoDup_singleton]. intros x Hx ->%list_elem_of_singleton. done.
  - split; [|by apply NoDup_filter]. apply list_elem_of_filter. split; [|done]. intros H. apply Hc. left. by symmetry.
Qed.

Lemma app_reads app es f : scopes_ok (app_form app) → app_run (app_form app) es = Some f → scopes_ok f.
Proof.
  generalize (app_form app). induction es as [|e es IH]; intros f0 H0; cbn; [by intros [= <-]|].
  destruct (app_control f0 e) as [f1|] eqn:E; [|done]. cbn. apply IH. by eapply app_control_ok.
Qed.

(** What is sent of an app has a name and somewhere to return to, each address without blanks
    around it. *)
Lemma app_asked withConfidential f i :
  app_sent withConfidential f = Some i → ai_name i ≠ EmptyString ∧ ai_redirectUris i ≠ [] ∧ Forall (fun l => l ≠ EmptyString ∧ trim l = l) (ai_redirectUris i).
Proof.
  unfold app_sent. destruct (truthy (trim (af_name f))) eqn:Et; [|done]. cbn [andb]. case_bool_decide as Hl; [done|]. cbn [negb]. intros [= <-]. cbn [ai_name ai_redirectUris].
  split_and!; [intros H; by rewrite H in Et|done|]. apply Forall_forall. intros l [Hl' (x & -> & _)%list_elem_of_fmap]%list_elem_of_filter.
  split; [intros H; by rewrite H in Hl'|apply trim_idem].
Qed.

(** An editor of an app left as it opened sends its addresses as they are. *)
Lemma addresses_kept l : Forall (fun a => truthy a = true ∧ trim a = a ∧ string_forall (fun c => negb (bool_decide (c = line_feed))) a = true) l → address_lines (join line_feed_s l) = l.
Proof.
  intros Hl. assert (filter (fun x => truthy x = true) (map trim l) = l) as Hf.
  { induction Hl as [|x xs (Ht & Hx & _) Hxs IH]; [done|]. cbn [map]. rewrite filter_cons, Hx, decide_True by done. by rewrite IH. }
  unfold address_lines. destruct l as [|a l]; [done|]. rewrite split_join; [done|done|].
  eapply Forall_impl; [exact Hl|]. by intros x (_ & _ & ?).
Qed.
